(* ===== verification/_CoqProject ===== *)
-Q . S2P
Prelude.v
Layout.v
CString.v
Ide.v
Bio.v
Block.v
Log.v
FsBlock.v
FsInode.v
FsDir.v
FsFile.v
FsWrite.v
FsLock.v
FsReplica.v
FsDemo.v
Kalloc.v
Vm.v
Pipe.v
Spinlock.v
File.v
FileIo.v
Proc.v
SysFile.v
Dirs.v
Syscall.v
Descriptors.v
Ulib.v
Grep.v
Console.v
Sh.v
Mkfs.v
HashBuf.v
Umalloc.v
Trap.v
Mp.v
Lapic.v
Crpfs.v
System.v
Seg.v
Uthread.v
Uprogs.v
