(* ===== verification/Prelude.v ===== *)
(** * xv6 with checksums and replicas: a verification library

    The program is a teaching operating system for one kind of PC whose file
    system keeps a checksum of every file in its inode and up to two replicas
    of important inodes (src/xv6).  The library translates it into functions
    that can be run in the kernel of Rocq and proves what its parts promise
    each other and their users.

    ** The program and how its parts interact

    A disk driver (ide.c) moves sectors between buffers and the disk.  The buffer
    cache (bio.c) hands out one locked buffer for a block.  The log (log.c)
    makes the block writes of a group of system calls one transaction.  On top
    of them fs.c has a block allocator, inodes, directories and paths; file.c
    has open files, which are inodes or ends of pipes (pipe.c).  kalloc.c
    hands out pages of memory, vm.c builds page tables from them, proc.c
    processes.  trap.c enters the kernel, syscall.c dispatches, sysfile.c,
    sysproc.c and exec.c are the calls.  The console (console.c, kbd.c, uart.c)
    feeds the shell (sh.c) and other programs, which use ulib.c, printf.c and
    umalloc.c.  mp.c, lapic.c, ioapic.c, picirq.c and timer.c find and set up
    the machine.  On the host, mkfs.c makes the disk image and crpfs.c
    damages it; hashbuf.c is the prototype of the cache's replacement.

    ** How the code is modelled

    A function that has effects is a computation [M S A] (below): it takes the
    state [S] and ends with [Ok] or with [Stop] and a reason, which is the
    message of a [panic], the channel of a [sleep], an access that C leaves
    undefined, an endless loop, or fuel used up.  A record of the model is a
    [struct] or the globals of a file, an operation is the C function of the
    same name.  Integers are [Z], with [u8], [u16], [u32], [i16], [i32] where
    the code wraps.  Bytes are integers from 0 to 255, memory is a list or a
    function of them.  Locks are dropped where Spinlock.v justifies it: a
    function runs as one step between two of its sleeps, and theorems about
    concurrency quantify over the order of these steps.

    ** The files

    - Prelude: machine integers, outcomes and the monad, little-endian bytes,
      slices of lists.
    - Layout (fs.h, param.h, stat.h): superblock, inode and directory entry as
      bytes of a block.  CString (string.c).
    - Ide (ide.c, memide.c): the driver and the disk, which remembers the order
      of its writes.  Bio (bio.c): the list of buffers pointer by pointer and
      the hash table.  Block: the interface between file system and block layer,
      the classes [BlockOps], [BlockView] and [BlockLayer].  Log (log.c): the
      log, an instance of the interface.
    - FsBlock, FsInode, FsDir (fs.c): allocator; inodes, checksums and replicas;
      directories and paths.  FsFile: what a file contains, reading and the
      checksum.  FsWrite: writing.  FsLock: locking with verification.
      FsReplica: writing a file and its replicas.  FsDemo: the theorems applied
      to a concrete disk.
    - Kalloc (kalloc.c), Vm (vm.c), Pipe (pipe.c), Spinlock (spinlock.c).
    - File (file.c), FileIo (reads and writes of open files down to committed
      transactions), Proc (proc.c), SysFile and Syscall (sysfile.c, syscall.c,
      sysproc.c, exec.c), Dirs (contents of directories), Descriptors (all
      system calls and the counts of open files).
    - Ulib (ulib.c, printf.c), Grep (grep.c), Console (console.c, kbd.c,
      uart.c), Sh (sh.c), Umalloc (umalloc.c), Uthread (uthread.c), Uprogs
      (cat.c, wc.c, echo.c and names in ls.c).
    - Mkfs (mkfs.c), HashBuf (hashbuf.c), Crpfs (crpfs.c); System puts mkfs,
      crpfs, the block layer and the file system together.
    - Trap (trap.c), Seg (segments and task state in vm.c), Mp (mp.c), Lapic
      (lapic.c, ioapic.c, picirq.c, timer.c and the initialisation of the
      devices in main.c).

    ** What the theorems show

    - Storage.  [bio_refines_block_device]: driver and cache are a block device.
      [commit_crash_atomic]: a crash at any sector write, also during
      recoveries, leaves a transaction done or not done.
      [log_implements_block_layer] connects the two to the file system, and
      [log_capacity] gives the exact number of blocks the log takes, one less
      than the calls that [begin_op] admits are entitled to.
      [iderw_serves_in_order]: requests to the disk are served in order.
    - Files.  [readi_returns_slice], [writei_splices], [balloc_spec]: reading
      and writing are slices of the contents, and nothing else changes; the
      allocator does take blocks of the log when the bitmap has them free.
      [writei_replicates]: a write reaches the replicas, with size and checksum.
      [filewrite_writes]: writes of open files without replicas, split into
      transactions.  [ichecksum_is_xor], [ilock_verifies], and the lemma
      [ilock_detects_damage]: what the checksum is, when an inode is accepted,
      which damage is noticed; [corrupt_counts] adds that any odd number of
      flipped bits is.  [ilock_misses_cold_replica]: of a replica outside the
      cache not the contents are looked at but what is left in a cache entry.
      [dirlookup_finds], [dirlink_adds]: names, in a directory and its replicas.
      [mkfs_makes_image]: the image is one the kernel accepts.
      [image_reads_back], [damage_found]: from the files given to mkfs, over
      the image, the start of the kernel, its cache and its log, to the bytes
      that [readi] returns; and with crpfs in between.
    - Memory.  [kalloc_exclusive], [mappages_maps], [allocuvm_fresh]: pages
      belong to one holder and are mapped where asked, also when memory runs
      out.  [umalloc_safe]: the same for the blocks of a program.
    - Processes.  [proc_tree], [wait_misses_no_exit], [scheduler_fair];
      [pipe_fifo], [pipe_no_lost_wakeup], [pipe_pump_delivers];
      [spinlock_exclusive], [spinlock_no_deadlock]; [file_pipe_live],
      [descriptors_counted]: under every order of steps or system calls;
      [spinlock_no_deadlock] when nested locks are taken in increasing order.
    - Users and devices.  [console_refines], [parsecmd_reads],
      [parsecmd_ends], [runcmd_plumbs], [match_correct], [hashbuf_is_lru],
      [devinit_routes].

    A theorem on an operation says that it ends and with what, under hypotheses
    on the state it starts from; it comes with an application to a concrete
    state.

    ** Bounds and fuel

    Constants are those of the headers.  A loop whose end is not structural has
    fuel, and the theorems show that it suffices.  [RWFUEL] is two more than the
    blocks of the largest file, for loops over blocks; [CKFUEL] is the same for
    batches of four blocks; [LOCKFUEL] is one more than the inodes of the
    cache, for the chain of replicas of replicas.  [MAPFUEL] and [RANGEFUEL] are
    the pages of the address space.  The scan of the cache has [NBUF] turns,
    [iderw] as many as there are requests queued, [namex] as many as the
    path has bytes, the parser of the shell as many as the line, mkfs and
    crpfs one more than [MAXFILE], [mpinit] one for each byte of the table.
    Where the bound is not in the code ([malloc], [free], [grep], [cat], [wc],
    waiting for a device) the fuel is an argument, and the theorem gives an
    amount that is enough.

    ** Parameters

    Code that is not in the repository, and hardware, is an argument: the
    functions of device files, addresses the linker sets, the answers of
    devices, the random numbers and the files of the host, the memory that
    the kernel grants a program in Umalloc, the system calls in Uprogs.

    ** Not modelled

    - Assembly other than the switch of user threads (boot loader, entry, trap
      entry, [swtch]): it has no meaning in the state of the C program.
    - Loading the descriptor tables into the processor, delays,
      acknowledging interrupts in [trap], and lines printed for debugging.
    - The part of main.c that starts other processors and calls the
      initialisations in turn; those of devices are in Lapic, the others with
      their components.
    - usertests.c and the small programs that only make calls and print: the
      calls are modelled, and a program would only repeat them.
    - Time: nothing is said about how long a step takes, and interrupts are
      taken between steps.
    - Headers with prototypes only (defs.h, user.h, types.h). *)

From stdpp Require Export base numbers list gmap strings.
From Stdlib Require Export ZArith Lia.

Declare Scope xv6_scope.
Delimit Scope xv6_scope with xv6.
Open Scope Z_scope.
Open Scope xv6_scope.

(** ** Machine integers *)

(** C's [uint], [ushort] and [uchar] are [Z] reduced at their width; [int] and
    [short] are the two's complement readings of the same bits. *)
Definition u32 (z : Z) : Z := z mod 2 ^ 32.
Definition u16 (z : Z) : Z := z mod 2 ^ 16.
Definition u8 (z : Z) : Z := z mod 2 ^ 8.
Definition i32 (z : Z) : Z := (z + 2 ^ 31) mod 2 ^ 32 - 2 ^ 31.
Definition i16 (z : Z) : Z := (z + 2 ^ 15) mod 2 ^ 16 - 2 ^ 15.

Definition is_u32 (z : Z) : Prop := 0 <= z < 2 ^ 32.
Definition is_u16 (z : Z) : Prop := 0 <= z < 2 ^ 16.
Definition is_u8 (z : Z) : Prop := 0 <= z < 2 ^ 8.
Definition is_i32 (z : Z) : Prop := - 2 ^ 31 <= z < 2 ^ 31.
Definition is_i16 (z : Z) : Prop := - 2 ^ 15 <= z < 2 ^ 15.

Lemma u32_id z : 0 <= z < 2 ^ 32 -> u32 z = z.
Proof. apply Z.mod_small. Qed.

Lemma i32_small z : is_i32 z -> i32 z = z.
Proof. unfold is_i32, i32. intros. rewrite Z.mod_small by lia. lia. Qed.

Create HintDb xv6.
Create Rewrite HintDb xv6.

(** ** Outcomes of kernel code *)

(** What a process can sleep on: the address passed to [sleep]. *)
Inductive chan :=
| ChBuf (b : nat)
| ChInode (i : nat)
| ChLog
| ChPipe (p : Z) (writers : bool)
| ChProc (p : nat)
| ChTicks
| ChInput.

(** Why a kernel function does not return to its caller: [panic] with its
    message, [sleep] on a channel, an access C leaves undefined, a loop that
    waits for the hardware, or a loop whose bound in the model is used up. *)
Inductive stop :=
| Panic (msg : string)
| Sleep (c : chan)
| Undefined (what : string)
| Spin
| OutOfFuel.

Inductive outcome (S A : Type) :=
| Ok (a : A) (s : S)
| Stop (r : stop) (s : S).
Arguments Ok {S A} a s.
Arguments Stop {S A} r s.

(** Kernel code over a state [S]: explicit state passing, with the outcomes
    above. *)
Definition M (S A : Type) : Type := S -> outcome S A.

Definition ret {S A} (a : A) : M S A := fun s => Ok a s.
Definition halt {S A} (r : stop) : M S A := fun s => Stop r s.
Definition panic {S A} (msg : string) : M S A := halt (Panic msg).
Definition gets {S A} (f : S -> A) : M S A := fun s => Ok (f s) s.
Definition modify {S} (f : S -> S) : M S unit := fun s => Ok tt (f s).
Definition bind {S A B} (c : M S A) (k : A -> M S B) : M S B :=
  fun s => match c s with
           | Ok a s' => k a s'
           | Stop r s' => Stop r s'
           end.
Definition of_option {S A} (r : stop) (o : option A) : M S A :=
  match o with Some a => ret a | None => halt r end.

Notation "'let!' x ':=' c 'in' k" := (bind c (fun x => k))
  (at level 10, x pattern, c at level 200, k at level 200,
   format "'[v' 'let!'  x  ':='  c  'in' '/' k ']'") : xv6_scope.
Notation "c1 ;;; c2" := (bind c1 (fun _ => c2))
  (at level 100, right associativity, format "'[v' c1  ;;; '/' c2 ']'") : xv6_scope.
Notation "'if!' b 'then' c" := (if b then c else ret tt)
  (at level 99, b at level 100, c at level 99) : xv6_scope.

(** [body i] for [i] in a list of indices, in order, until one of them stops. *)
Fixpoint for_each {S I} (l : list I) (body : I -> M S unit) : M S unit :=
  match l with
  | [] => ret tt
  | i :: l => body i ;;; for_each l body
  end.

Section Monad.
Context {S A B : Type}.

Lemma bind_Ok (c : M S A) (k : A -> M S B) s a s' :
  c s = Ok a s' -> bind c k s = k a s'.
Proof. unfold bind. by intros ->. Qed.

Lemma bind_Stop (c : M S A) (k : A -> M S B) s r s' :
  c s = Stop r s' -> bind c k s = Stop r s'.
Proof. unfold bind. by intros ->. Qed.

Lemma bind_inv (c : M S A) (k : A -> M S B) s b s' :
  bind c k s = Ok b s' -> exists a s1, c s = Ok a s1 /\ k a s1 = Ok b s'.
Proof. unfold bind. destruct (c s) as [a s1|]; [eauto|done]. Qed.
End Monad.

(** ** Byte sequences *)

(** The bytes [off .. off+n) of [l]. *)
Definition sub_bytes (off n : nat) (l : list Z) : list Z := take n (drop off l).

(** [l] with the bytes from [off] on overwritten by [bs]: what
    [memmove(l + off, bs, n)] leaves in the array. *)
Definition splice (off : nat) (bs l : list Z) : list Z :=
  take off l ++ bs ++ drop (off + length bs) l.

(** Little-endian bytes of an [n]-byte integer, and the unsigned value they
    denote. *)
Fixpoint le_bytes (n : nat) (z : Z) : list Z :=
  match n with
  | O => []
  | S n => z mod 256 :: le_bytes n (z / 256)
  end.

Fixpoint le_val (l : list Z) : Z :=
  match l with
  | [] => 0
  | b :: l => b + 256 * le_val l
  end.

(** A packed struct: fields of the given byte widths, one after another. *)
Fixpoint enc_fields (fs : list (nat * Z)) : list Z :=
  match fs with
  | [] => []
  | (n, z) :: fs => le_bytes n z ++ enc_fields fs
  end.

Fixpoint dec_fields (ns : list nat) (l : list Z) : list Z :=
  match ns with
  | [] => []
  | n :: ns => le_val (take n l) :: dec_fields ns (drop n l)
  end.

Section Bytes.
Implicit Types l bs : list Z.

Lemma length_le_bytes n z : length (le_bytes n z) = n.
Proof. revert z. induction n; intros; simpl; auto. Qed.

Lemma le_bytes_u8 n z : Forall is_u8 (le_bytes n z).
Proof.
  revert z. induction n; intros z; simpl; constructor; auto.
  apply Z.mod_pos_bound; lia.
Qed.

Lemma le_val_bytes n z : le_val (le_bytes n z) = z mod 256 ^ Z.of_nat n.
Proof.
  revert z. induction n as [|n IH]; intros z.
  - simpl. by rewrite Z.mod_1_r.
  - cbn [le_bytes le_val]. rewrite IH, Nat2Z.inj_succ, Z.pow_succ_r by lia.
    rewrite (Z.rem_mul_r z 256) by (try apply Z.pow_pos_nonneg; lia). lia.
Qed.

Lemma le_val_bound l : Forall is_u8 l -> 0 <= le_val l < 256 ^ Z.of_nat (length l).
Proof.
  induction 1 as [|b l Hb _ IH]; [simpl; lia|].
  cbn [le_val length]. rewrite Nat2Z.inj_succ, Z.pow_succ_r by lia.
  unfold is_u8 in Hb. lia.
Qed.

Lemma le_bytes_val l : Forall is_u8 l -> le_bytes (length l) (le_val l) = l.
Proof.
  induction 1 as [|b l Hb _ IH]; [done|].
  cbn [le_val le_bytes length]. unfold is_u8 in Hb.
  rewrite (Z.mul_comm 256), Z.mod_add, Z.mod_small by lia.
  rewrite Z.div_add, Z.div_small by lia. simpl. by f_equal.
Qed.

Lemma le_bytes_mod n z : le_bytes n (z mod 256 ^ Z.of_nat n) = le_bytes n z.
Proof.
  rewrite <- le_val_bytes, <- (length_le_bytes n z) at 1.
  apply le_bytes_val, le_bytes_u8.
Qed.

Lemma dec_enc_fields fs :
  dec_fields fs.*1 (enc_fields fs) = (fun '(n, z) => z mod 256 ^ Z.of_nat n) <$> fs.
Proof.
  induction fs as [|[n z] fs IH]; [done|].
  rewrite !fmap_cons. cbn [enc_fields dec_fields fst].
  rewrite take_app_length', drop_app_length' by (by rewrite length_le_bytes).
  by rewrite le_val_bytes, IH.
Qed.

Lemma length_enc_fields fs : length (enc_fields fs) = sum_list fs.*1.
Proof.
  induction fs as [|[n z] fs IH]; [done|].
  rewrite fmap_cons. cbn [enc_fields fst sum_list].
  by rewrite length_app, length_le_bytes, IH.
Qed.

Lemma enc_fields_u8 fs : Forall is_u8 (enc_fields fs).
Proof.
  induction fs as [|[n z] fs IH]; simpl; [constructor|].
  apply Forall_app; auto using le_bytes_u8.
Qed.

Lemma length_dec_fields ns l : length (dec_fields ns l) = length ns.
Proof. revert l. induction ns; intros; simpl; auto. Qed.

Lemma enc_dec_fields ns l :
  Forall is_u8 l -> length l = sum_list ns -> enc_fields (zip ns (dec_fields ns l)) = l.
Proof.
  revert l. induction ns as [|n ns IH]; intros l Hl Hlen; simpl in *.
  - by destruct l.
  - rewrite IH; [|by apply Forall_drop|rewrite length_drop; lia].
    rewrite <- (take_drop n l) at 3. f_equal.
    assert (Hn : length (take n l) = n) by (rewrite length_take; lia).
    rewrite <- Hn at 1. apply le_bytes_val, Forall_take, Hl.
Qed.

Lemma length_splice off bs l :
  (off + length bs <= length l)%nat -> length (splice off bs l) = length l.
Proof.
  intros. unfold splice. rewrite !length_app, length_take, length_drop. lia.
Qed.

Lemma length_sub_bytes off n l :
  (off + n <= length l)%nat -> length (sub_bytes off n l) = n.
Proof. intros. unfold sub_bytes. rewrite length_take, length_drop. lia. Qed.

Lemma sub_splice_same off bs l n :
  (off + length bs <= length l)%nat -> n = length bs ->
  sub_bytes off n (splice off bs l) = bs.
Proof.
  intros H ->. unfold sub_bytes, splice.
  rewrite drop_app_length' by (rewrite length_take; lia).
  by rewrite take_app_length.
Qed.

Lemma lookup_splice_in off bs l i :
  (off + length bs <= length l)%nat -> (off <= i < off + length bs)%nat ->
  splice off bs l !! i = bs !! (i - off)%nat.
Proof.
  intros H Hi. unfold splice.
  rewrite lookup_app_r by (rewrite length_take; lia).
  rewrite lookup_app_l by (rewrite length_take; lia).
  rewrite length_take. f_equal. lia.
Qed.

Lemma lookup_splice_out off bs l i :
  (off + length bs <= length l)%nat -> (i < off \/ off + length bs <= i)%nat ->
  splice off bs l !! i = l !! i.
Proof.
  intros H Hi. unfold splice. destruct (decide (i < off)%nat) as [Hlt|].
  - rewrite lookup_app_l by (rewrite length_take; lia). by apply lookup_take_lt.
  - rewrite lookup_app_r by (rewrite length_take; lia).
    rewrite lookup_app_r by (rewrite length_take; lia).
    rewrite lookup_drop, length_take. f_equal. lia.
Qed.

Lemma lookup_sub_bytes off n l i :
  (i < n)%nat -> sub_bytes off n l !! i = l !! (off + i)%nat.
Proof. intros. unfold sub_bytes. by rewrite lookup_take_lt, lookup_drop. Qed.

Lemma sub_splice_other off bs l o n :
  (off + length bs <= length l)%nat -> (o + n <= off \/ off + length bs <= o)%nat ->
  sub_bytes o n (splice off bs l) = sub_bytes o n l.
Proof.
  intros H Ho. apply list_eq. intros i.
  destruct (decide (i < n)%nat).
  - rewrite !lookup_sub_bytes by done. apply lookup_splice_out; lia.
  - unfold sub_bytes. rewrite !lookup_take_ge by lia. done.
Qed.

Lemma splice_u8 off bs l :
  Forall is_u8 bs -> Forall is_u8 l -> Forall is_u8 (splice off bs l).
Proof.
  intros. unfold splice.
  repeat apply Forall_app_2; auto using Forall_take, Forall_drop.
Qed.

Lemma sub_bytes_u8 off n l : Forall is_u8 l -> Forall is_u8 (sub_bytes off n l).
Proof. intros. unfold sub_bytes. auto using Forall_take, Forall_drop. Qed.
End Bytes.

#[export] Hint Resolve le_bytes_u8 enc_fields_u8 splice_u8 sub_bytes_u8 : xv6.
#[export] Hint Rewrite length_le_bytes length_enc_fields length_dec_fields : xv6.

(** ** Running kernel code *)

(** Run the next statement: its outcome is computed, assumed, or found by the
    component's lemmas in the hint database. *)
Ltac mstep :=
  first [ erewrite bind_Ok by reflexivity
        | erewrite bind_Ok by eassumption
        | erewrite bind_Ok by (solve [eauto 3 with xv6]) ]; cbv beta.

(** Run a statement with a given lemma. *)
Tactic Notation "mstep" "with" uconstr(H) :=
  (erewrite bind_Ok by (apply H; eauto with xv6)); cbv beta.

Lemma land_pow2 (f k : Z) :
  0 <= k -> Z.land f (2 ^ k) = if Z.testbit f k then 2 ^ k else 0.
Proof.
  intros Hk. apply Z.bits_inj'. intros n Hn. rewrite Z.land_spec.
  destruct (decide (n = k)) as [->|Hne].
  - rewrite Z.pow2_bits_true by done.
    destruct (Z.testbit f k); [by rewrite Z.pow2_bits_true|by rewrite Z.testbit_0_l].
  - rewrite Z.pow2_bits_false, andb_false_r by done.
    destruct (Z.testbit f k); [by rewrite Z.pow2_bits_false|by rewrite Z.testbit_0_l].
Qed.
