(* ===== verification/Layout.v ===== *)
(** * Layout: the on-disk formats of fs.h, buf.h, param.h and stat.h

    The constants of the kernel's headers and the three structures that live
    inside disk blocks: [struct superblock], [struct dinode] and
    [struct dirent].  A block is a list of [BSIZE] bytes (integers in
    [0, 256)); a structure is read from and written to a block at a byte
    offset, in the packed little-endian layout the i386 compiler gives it.
    The theorems are the round trips between structures and their bytes and
    the independence of neighbouring inodes in one block. *)

From S2P Require Import Prelude.
Open Scope Z_scope.
Open Scope xv6_scope.

(** ** Constants *)

Definition BSIZE : Z := 512.
Definition ROOTINO : Z := 1.
Definition NDIRECT : Z := 10.
Definition NINDIRECT : Z := 128.
Definition MAXFILE : Z := NDIRECT + NINDIRECT.
Definition DIRSIZ : Z := 14.
Definition BPB : Z := BSIZE * 8.
Definition DITTO_LOWER : Z := 3.
Definition DITTO_HIGHER : Z := 6.
Definition E_CORRUPTED : Z := -10.

Definition T_DIR : Z := 1.
Definition T_FILE : Z := 2.
Definition T_DEV : Z := 3.
Definition T_DITTO : Z := 4.

Definition NBUF : Z := 30.
Definition LOGSIZE : Z := 30.
Definition MAXOPBLOCKS : Z := 10.
Definition FSSIZE : Z := 2000.
Definition HASHSIZE : Z := 4001.
Definition NINODE : Z := 50.
Definition NFILE : Z := 100.
Definition NOFILE : Z := 16.
Definition NDEV : Z := 10.
Definition ROOTDEV : Z := 1.

(** ** Structures *)

(** [struct superblock]: four [uint]s. *)
Record superblock := Superblock {
  sb_size : Z;
  sb_nblocks : Z;
  sb_ninodes : Z;
  sb_nlog : Z
}.

(** [struct dinode]: four [short]s, the size, [NDIRECT+1] block addresses, the
    two replica inode numbers and the checksum of the contents; 64 bytes. *)
Record dinode := Dinode {
  di_type : Z;
  di_major : Z;
  di_minor : Z;
  di_nlink : Z;
  di_size : Z;
  di_addrs : list Z;
  di_child1 : Z;
  di_child2 : Z;
  di_checksum : Z
}.

(** [struct dirent]: an inode number and a name of [DIRSIZ] bytes. *)
Record dirent := Dirent {
  de_inum : Z;
  de_name : list Z
}.

Definition sb_widths : list nat := [4; 4; 4; 4]%nat.
Definition dinode_widths : list nat :=
  ([2; 2; 2; 2; 4] ++ replicate 11 4 ++ [2; 2; 4])%nat.
Definition dinode_size : Z := 64.
Definition dirent_size : Z := 16.
Definition IPB : Z := BSIZE / dinode_size.

(** Block containing inode [i], and block containing the bitmap bit of [b]. *)
Definition IBLOCK (i : Z) : Z := i / IPB + 2.
Definition BBLOCK (b ninodes : Z) : Z := b / BPB + ninodes / IPB + 3.

(** The zero-filled block: [memset(b->data, 0, BSIZE)]. *)
Definition zero_block : list Z := replicate (Z.to_nat BSIZE) 0.

Definition dec_superblock (blk : list Z) : superblock :=
  match dec_fields sb_widths blk with
  | [a; b; c; d] => Superblock a b c d
  | _ => Superblock 0 0 0 0
  end.

Definition enc_superblock (sb : superblock) : list Z :=
  enc_fields (zip sb_widths [sb_size sb; sb_nblocks sb; sb_ninodes sb; sb_nlog sb]).

Definition dinode_values (d : dinode) : list Z :=
  [di_type d; di_major d; di_minor d; di_nlink d; di_size d]
    ++ di_addrs d ++ [di_child1 d; di_child2 d; di_checksum d].

Definition enc_dinode (d : dinode) : list Z :=
  enc_fields (zip dinode_widths (dinode_values d)).

Definition dinode_zero : dinode := Dinode 0 0 0 0 0 (replicate 11 0) 0 0 0.

Definition dec_dinode (bs : list Z) : dinode :=
  match dec_fields dinode_widths bs with
  | t :: ma :: mi :: nl :: sz :: rest =>
      match drop 11 rest with
      | [c1; c2; ck] =>
          Dinode (i16 t) (i16 ma) (i16 mi) (i16 nl) sz (take 11 rest) (i16 c1) (i16 c2) ck
      | _ => dinode_zero
      end
  | _ => dinode_zero
  end.

Definition enc_dirent (e : dirent) : list Z := le_bytes 2 (de_inum e) ++ de_name e.

Definition dec_dirent (bs : list Z) : dirent :=
  Dirent (le_val (take 2 bs)) (take 14 (drop 2 bs)).

(** [(struct dinode* )bp->data + inum % IPB], read and written. *)
Definition dinode_off (inum : Z) : nat := Z.to_nat (inum mod IPB * dinode_size).
Definition get_dinode (blk : list Z) (inum : Z) : dinode :=
  dec_dinode (sub_bytes (dinode_off inum) 64 blk).
Definition put_dinode (blk : list Z) (inum : Z) (d : dinode) : list Z :=
  splice (dinode_off inum) (enc_dinode d) blk.

(** [((uint* )bp->data)[i]], read and written. *)
Definition get_word (blk : list Z) (i : Z) : Z := le_val (sub_bytes (Z.to_nat (4 * i)) 4 blk).
Definition put_word (blk : list Z) (i v : Z) : list Z :=
  splice (Z.to_nat (4 * i)) (le_bytes 4 v) blk.

(** ** Well-formed values *)

(** A block: [BSIZE] bytes. *)
Definition wf_block (blk : list Z) : Prop :=
  length blk = Z.to_nat BSIZE /\ Forall is_u8 blk.

(** A [struct dinode] whose fields hold values of their C types. *)
Definition wf_dinode (d : dinode) : Prop :=
  is_i16 (di_type d) /\ is_i16 (di_major d) /\ is_i16 (di_minor d) /\
  is_i16 (di_nlink d) /\ is_u32 (di_size d) /\
  length (di_addrs d) = 11%nat /\ Forall is_u32 (di_addrs d) /\
  is_i16 (di_child1 d) /\ is_i16 (di_child2 d) /\ is_u32 (di_checksum d).

Definition wf_dirent (e : dirent) : Prop :=
  is_u16 (de_inum e) /\ length (de_name e) = 14%nat /\ Forall is_u8 (de_name e).

(** Unfold the constants, then linear arithmetic. *)
Ltac klia :=
  unfold dinode_off, IBLOCK, BBLOCK, MAXFILE, BPB, IPB, dinode_size, dirent_size,
    BSIZE, NDIRECT, NINDIRECT, DIRSIZ, ROOTINO, NBUF, LOGSIZE, MAXOPBLOCKS,
    FSSIZE, HASHSIZE, NINODE, NFILE, NOFILE, NDEV, ROOTDEV,
    T_DIR, T_FILE, T_DEV, T_DITTO, DITTO_LOWER, DITTO_HIGHER, E_CORRUPTED,
    is_u32, is_u16, is_u8, is_i32, is_i16 in *; lia.

(** ** Lemmas *)

Lemma i16_of_u16 z : is_i16 z -> i16 (z mod 2 ^ 16) = z.
Proof.
  unfold is_i16, i16. intros.
  rewrite Zplus_mod_idemp_l, Z.mod_small by lia. lia.
Qed.

Lemma i16_small z : is_i16 z -> i16 z = z.
Proof. unfold is_i16, i16. intros. rewrite Z.mod_small by lia. lia. Qed.

Lemma i16_range z : is_i16 (i16 z).
Proof.
  unfold is_i16, i16. pose proof (Z.mod_pos_bound (z + 2 ^ 15) (2 ^ 16)). lia.
Qed.

Lemma i16_mod z : i16 z mod 2 ^ 16 = z mod 2 ^ 16.
Proof.
  unfold i16. rewrite Zminus_mod_idemp_l. f_equal. lia.
Qed.

Lemma length_zero_block : length zero_block = Z.to_nat BSIZE.
Proof. apply length_replicate. Qed.

Lemma wf_zero_block : wf_block zero_block.
Proof.
  split; [apply length_zero_block|].
  apply Forall_replicate. klia.
Qed.

Lemma length_dinode_values d : wf_dinode d -> length (dinode_values d) = 19%nat.
Proof.
  intros (_&_&_&_&_&Hl&_). unfold dinode_values. rewrite !length_app, Hl. done.
Qed.

Lemma length_enc_dinode d : wf_dinode d -> length (enc_dinode d) = 64%nat.
Proof.
  intros Hd. unfold enc_dinode. rewrite length_enc_fields, fst_zip; [done|].
  by rewrite length_dinode_values.
Qed.

Lemma enc_dinode_u8 d : Forall is_u8 (enc_dinode d).
Proof. apply enc_fields_u8. Qed.

(** Reading back a field list writes the values reduced at their widths. *)
Lemma dec_enc_widths ns vs :
  length vs = length ns ->
  dec_fields ns (enc_fields (zip ns vs)) = zip_with (fun n z => z mod 256 ^ Z.of_nat n) ns vs.
Proof.
  intros Hl. rewrite <- (fst_zip ns vs) at 1 by lia.
  rewrite dec_enc_fields. clear Hl. revert vs.
  induction ns as [|n ns IH]; intros [|v vs]; try done.
  cbn [zip zip_with]. rewrite fmap_cons. by f_equal.
Qed.

Lemma addrs_mod_id l :
  Forall is_u32 l -> zip_with (fun n z => z mod 256 ^ Z.of_nat n) (replicate (length l) 4%nat) l = l.
Proof.
  induction 1 as [|x l Hx _ IH]; [done|].
  cbn [length replicate zip_with]. rewrite IH. f_equal.
  apply Z.mod_small, Hx.
Qed.

Lemma dec_enc_dinode d : wf_dinode d -> dec_dinode (enc_dinode d) = d.
Proof.
  intros Hwf. pose proof (length_dinode_values _ Hwf) as Hlen.
  destruct Hwf as (Ht&Hma&Hmi&Hnl&Hsz&Hla&Ha&Hc1&Hc2&Hck).
  unfold dec_dinode, enc_dinode.
  rewrite dec_enc_widths by (rewrite Hlen; done).
  unfold dinode_values, dinode_widths.
  change (?x1 :: ?x2 :: ?x3 :: ?x4 :: [?x5] ++ ?r) with ([x1;x2;x3;x4;x5] ++ r).
  rewrite zip_with_app by done. rewrite zip_with_app by (rewrite length_replicate; done).
  rewrite <- Hla, addrs_mod_id by done. cbn [zip_with app].
  rewrite drop_app_length, take_app_length.
  change (256 ^ Z.of_nat 2) with (2 ^ 16). change (256 ^ Z.of_nat 4) with (2 ^ 32).
  rewrite !i16_of_u16, !Z.mod_small by done. by destruct d.
Qed.

Lemma enc_dec_dinode bs :
  Forall is_u8 bs -> length bs = 64%nat -> enc_dinode (dec_dinode bs) = bs.
Proof.
  intros Hu Hl. unfold enc_dinode, dec_dinode.
  rewrite <- (enc_dec_fields dinode_widths bs Hu) at 2 by (rewrite Hl; done).
  pose proof (length_dec_fields dinode_widths bs) as Hd.
  set (l := dec_fields dinode_widths bs) in *. clearbody l.
  do 20 (destruct l as [|? l]; try done).
  assert (Hsh : forall x, le_bytes 2 (i16 x) = le_bytes 2 x).
  { intros x. rewrite <- le_bytes_mod, <- (le_bytes_mod 2 x).
    change (256 ^ Z.of_nat 2) with (2 ^ 16). by rewrite i16_mod. }
  cbn [zip zip_with enc_fields dinode_widths dinode_values di_type di_major di_minor
       di_nlink di_size di_addrs di_child1 di_child2 di_checksum drop take app replicate].
  by rewrite !Hsh.
Qed.

Lemma wf_dec_dinode bs :
  Forall is_u8 bs -> length bs = 64%nat -> wf_dinode (dec_dinode bs).
Proof.
  intros Hu Hl.
  assert (Hr : Forall is_u32 (dec_fields dinode_widths bs)).
  { assert (H4 : Forall (fun n => n <= 4)%nat dinode_widths).
    { repeat constructor; lia. }
    clear Hl. revert bs Hu. induction H4 as [|n ns Hn _ IH]; intros; cbn; constructor.
    - pose proof (le_val_bound (take n bs) (Forall_take _ _ _ Hu)) as Hb.
      unfold is_u32. split; [lia|]. eapply Z.lt_le_trans; [apply Hb|].
      change (2 ^ 32) with (256 ^ 4). apply Z.pow_le_mono_r; [lia|].
      rewrite length_take. lia.
    - apply IH, Forall_drop, Hu. }
  unfold dec_dinode. pose proof (length_dec_fields dinode_widths bs) as Hd.
  set (l := dec_fields dinode_widths bs) in *. clearbody l.
  do 20 (destruct l as [|? l]; try done).
  repeat match goal with H : Forall _ (_ :: _) |- _ => inversion_clear H end.
  cbn [drop take]. unfold wf_dinode.
  cbn [di_type di_major di_minor di_nlink di_size di_addrs di_child1 di_child2 di_checksum].
  split_and!; auto 20 using i16_range, Forall_cons_2, Forall_nil_2.
Qed.

Lemma dinode_off_range inum : 0 <= inum -> (dinode_off inum + 64 <= 512)%nat.
Proof.
  intros. pose proof (Z.mod_pos_bound inum IPB).
  assert (IPB = 8) as E by done. rewrite E in *.
  unfold dinode_off, dinode_size. rewrite E. lia.
Qed.

Lemma get_put_dinode blk i d :
  wf_block blk -> 0 <= i -> wf_dinode d -> get_dinode (put_dinode blk i d) i = d.
Proof.
  intros [Hl _] Hi Hd. unfold get_dinode, put_dinode.
  pose proof (dinode_off_range i Hi). pose proof (length_enc_dinode d Hd).
  rewrite sub_splice_same by (rewrite ?Hl; klia || lia). by apply dec_enc_dinode.
Qed.

Lemma get_put_dinode_ne blk i j d :
  wf_block blk -> 0 <= i -> 0 <= j -> wf_dinode d -> i mod IPB <> j mod IPB ->
  get_dinode (put_dinode blk i d) j = get_dinode blk j.
Proof.
  intros [Hl _] Hi Hj Hd Hne. unfold get_dinode, put_dinode.
  pose proof (dinode_off_range i Hi). pose proof (length_enc_dinode d Hd) as He.
  rewrite sub_splice_other; [done|rewrite Hl, He; klia|].
  rewrite He. pose proof (Z.mod_pos_bound i IPB). pose proof (Z.mod_pos_bound j IPB).
  assert (IPB = 8) as E by done. rewrite E in *.
  unfold dinode_off, dinode_size. rewrite E. lia.
Qed.

Lemma wf_put_dinode blk i d :
  wf_block blk -> 0 <= i -> wf_dinode d -> wf_block (put_dinode blk i d).
Proof.
  intros [Hl Hu] Hi Hd. unfold put_dinode.
  pose proof (dinode_off_range i Hi). pose proof (length_enc_dinode d Hd) as He.
  split; [rewrite length_splice; [done|]; rewrite He, Hl; klia|].
  apply splice_u8; auto using enc_dinode_u8.
Qed.

Lemma wf_get_dinode blk i : wf_block blk -> 0 <= i -> wf_dinode (get_dinode blk i).
Proof.
  intros [Hl Hu] Hi. pose proof (dinode_off_range i Hi).
  apply wf_dec_dinode; [by apply sub_bytes_u8|]. apply length_sub_bytes. rewrite Hl; klia.
Qed.

Lemma get_put_word blk i v :
  wf_block blk -> 0 <= i < NINDIRECT -> is_u32 v -> get_word (put_word blk i v) i = v.
Proof.
  intros [Hl _] Hi Hv. unfold get_word, put_word.
  rewrite sub_splice_same by (rewrite ?length_le_bytes, ?Hl; klia).
  rewrite le_val_bytes. apply Z.mod_small, Hv.
Qed.

Lemma get_put_word_ne blk i j v :
  wf_block blk -> 0 <= i < NINDIRECT -> 0 <= j < NINDIRECT -> i <> j ->
  get_word (put_word blk i v) j = get_word blk j.
Proof.
  intros [Hl _] Hi Hj Hne. unfold get_word, put_word.
  rewrite sub_splice_other; rewrite ?length_le_bytes, ?Hl; klia || done.
Qed.

Lemma wf_put_word blk i v : wf_block blk -> 0 <= i < NINDIRECT -> wf_block (put_word blk i v).
Proof.
  intros [Hl Hu] Hi. unfold put_word. split; [|eauto with xv6].
  rewrite length_splice; [done|]. rewrite length_le_bytes, Hl; klia.
Qed.

Lemma get_word_range blk i : wf_block blk -> is_u32 (get_word blk i).
Proof.
  intros [_ Hu]. unfold get_word, is_u32.
  set (l := sub_bytes _ _ _).
  assert (Hl : Forall is_u8 l) by (apply sub_bytes_u8, Hu).
  pose proof (le_val_bound l Hl).
  assert (length l <= 4)%nat by (unfold l, sub_bytes; rewrite length_take; lia).
  pose proof (Z.pow_le_mono_r 256 (Z.of_nat (length l)) 4). lia.
Qed.

Lemma dec_enc_dirent e : wf_dirent e -> dec_dirent (enc_dirent e) = e.
Proof.
  intros (Hi&Hl&_). unfold dec_dirent, enc_dirent.
  rewrite take_app_length', drop_app_length' by (by rewrite length_le_bytes).
  rewrite le_val_bytes, take_ge by lia. rewrite Z.mod_small by done. by destruct e.
Qed.

Lemma enc_dec_dirent bs :
  Forall is_u8 bs -> length bs = 16%nat -> enc_dirent (dec_dirent bs) = bs.
Proof.
  intros Hu Hl. unfold enc_dirent, dec_dirent. cbn [de_inum de_name].
  rewrite (take_ge (drop 2 bs)) by (rewrite length_drop; lia).
  assert (H2 : length (take 2 bs) = 2%nat) by (rewrite length_take; lia).
  rewrite <- H2 at 1. rewrite le_bytes_val by (by apply Forall_take).
  apply take_drop.
Qed.

#[export] Hint Resolve wf_zero_block wf_put_dinode wf_get_dinode wf_put_word get_word_range : xv6.

(** ** Properties *)

(** Rewriting the inode that was read changes nothing. *)
Lemma put_get_dinode blk i :
  wf_block blk -> 0 <= i -> put_dinode blk i (get_dinode blk i) = blk.
Proof.
  intros [Hl Hu] Hi. unfold put_dinode, get_dinode.
  pose proof (dinode_off_range i Hi).
  rewrite enc_dec_dinode by
    (try apply sub_bytes_u8; try apply length_sub_bytes; rewrite ?Hl; auto; klia).
  unfold splice, sub_bytes. rewrite length_take, length_drop, Hl.
  rewrite Nat.min_l by klia.
  rewrite <- (take_drop (dinode_off i) blk) at 4. f_equal.
  rewrite <- drop_drop. apply take_drop.
Qed.

(** The inodes of a block are independent cells.  Writing an inode keeps
    the block a block, is read back exactly, leaves the seven others as they
    were, and writing back what was read changes no byte. *)
Lemma dinode_block_roundtrip blk i j d :
  wf_block blk -> wf_dinode d -> 0 <= i -> 0 <= j ->
  wf_block (put_dinode blk i d) /\ wf_dinode (get_dinode blk j) /\
  get_dinode (put_dinode blk i d) j = (if i mod IPB =? j mod IPB then d else get_dinode blk j) /\
  put_dinode blk i (get_dinode blk i) = blk.
Proof.
  intros Hb Hd Hi Hj. split_and!; auto using wf_put_dinode, wf_get_dinode, put_get_dinode.
  destruct (Z.eqb_spec (i mod IPB) (j mod IPB)) as [E|E].
  - assert (Ho : dinode_off i = dinode_off j) by (unfold dinode_off; by rewrite E).
    unfold get_dinode. rewrite <- Ho. by apply get_put_dinode.
  - by apply get_put_dinode_ne.
Qed.

Definition demo_dinode : dinode := Dinode 2 0 0 (-1) 700 [30; 31; 0; 0; 0; 0; 0; 0; 0; 0; 99] 5 6 12345.

Lemma dinode_block_roundtrip_witness :
  get_dinode (put_dinode zero_block 11 demo_dinode) 3 = demo_dinode /\
  get_dinode (put_dinode zero_block 11 demo_dinode) 4 = dinode_zero.
Proof.
  assert (Hd : wf_dinode demo_dinode).
  { unfold wf_dinode. cbn. split_and!; try klia; try done. repeat constructor; klia. }
  destruct (dinode_block_roundtrip zero_block 11 3 demo_dinode wf_zero_block Hd) as (_ & _ & H1 & _); [lia..|].
  destruct (dinode_block_roundtrip zero_block 11 4 demo_dinode wf_zero_block Hd) as (_ & _ & H2 & _); [lia..|].
  split; [exact H1|]. rewrite H2. vm_compute. reflexivity.
Defined.
