(* ===== verification/CString.v ===== *)
(** * CString: the kernel's string functions (string.c)

    Memory is a list of bytes and an address an index into it; an access outside
    is [None].  A function that only reads takes the bytes from its pointer on.
    The theorems relate the loops to what they are used for: [memmove] copies
    the old contents even when the regions overlap, [memset] fills whichever of
    its two instructions it uses, and the string functions compute comparison
    and truncated copies of NUL-terminated strings. *)

From S2P Require Import Prelude.
Open Scope Z_scope.
Open Scope xv6_scope.

Abbreviation mem := (list Z).

Definition wr (m : mem) (a : nat) (v : Z) : option mem :=
  if (a <? length m)%nat then Some (<[a := v]> m) else None.

(** x86.h: [rep stosb] and [rep stosl]. *)
Fixpoint stosb (m : mem) (addr : nat) (data : Z) (cnt : nat) : option mem :=
  match cnt with
  | O => Some m
  | S cnt => m ← wr m addr (u8 data); stosb m (S addr) data cnt
  end.

Fixpoint stosl (m : mem) (addr : nat) (data : Z) (cnt : nat) : option mem :=
  match cnt with
  | O => Some m
  | S cnt =>
      m ← wr m addr (u8 data);
      m ← wr m (addr + 1) (u8 (Z.shiftr data 8));
      m ← wr m (addr + 2) (u8 (Z.shiftr data 16));
      m ← wr m (addr + 3) (u8 (Z.shiftr data 24));
      stosl m (addr + 4) data cnt
  end.

Definition memset (m : mem) (dst : nat) (c : Z) (n : nat) : option mem :=
  if (dst mod 4 =? 0)%nat && (n mod 4 =? 0)%nat then
    let c := Z.land c 255 in
    stosl m dst (Z.lor (Z.lor (Z.lor (Z.shiftl c 24) (Z.shiftl c 16)) (Z.shiftl c 8)) c) (n / 4)
  else stosb m dst c n.

Fixpoint memcmp (s1 s2 : mem) (n : nat) {struct n} : option Z :=
  match n with
  | O => Some 0
  | S n =>
      match s1, s2 with
      | a :: s1, b :: s2 => if negb (a =? b) then Some (a - b) else memcmp s1 s2 n
      | _, _ => None
      end
  end.

(** [while(n-- > 0) *--d = *--s] and [*d++ = *s++]. *)
Fixpoint copy_back (m : mem) (d s n : nat) : option mem :=
  match n with
  | O => Some m
  | S n => v ← m !! pred s; m ← wr m (pred d) v; copy_back m (pred d) (pred s) n
  end.
Fixpoint copy_fwd (m : mem) (d s n : nat) : option mem :=
  match n with
  | O => Some m
  | S n => v ← m !! s; m ← wr m d v; copy_fwd m (S d) (S s) n
  end.

Definition memmove (m : mem) (dst src n : nat) : option mem :=
  if (src <? dst)%nat && (dst <? src + n)%nat
  then copy_back m (dst + n) (src + n) n
  else copy_fwd m dst src n.

Definition memcpy (m : mem) (dst src n : nat) : option mem := memmove m dst src n.

Fixpoint strncmp (p q : mem) (n : nat) {struct n} : option Z :=
  match n with
  | O => Some 0
  | S n =>
      match p, q with
      | a :: p, b :: q =>
          if negb (a =? 0) && (a =? b) then strncmp p q n else Some (a - b)
      | _, _ => None
      end
  end.

(** The second loop of [strncpy]. *)
Fixpoint zero_fill (s : mem) (n : nat) {struct n} : option mem :=
  match n with
  | O => Some s
  | S n => match s with [] => None | _ :: s => cons 0 <$> zero_fill s n end
  end.

(** [strncpy]; the contents of [s] after the call. *)
Fixpoint strncpy (s t : mem) (n : nat) {struct n} : option mem :=
  match n with
  | O => Some s
  | S n =>
      match s, t with
      | _ :: s, c :: t => cons c <$> (if c =? 0 then zero_fill s n else strncpy s t n)
      | _, _ => None
      end
  end.

Definition put_nul (s : mem) : option mem :=
  match s with [] => None | _ :: s => Some (0 :: s) end.

(** [safestrcpy] once [n > 0], with [n - 1] bytes to copy at most.  The loop
    that stops at a NUL has stepped past it when the final NUL is written. *)
Fixpoint safestrcpy_loop (s t : mem) (n : nat) {struct n} : option mem :=
  match n with
  | O => put_nul s
  | S n =>
      match s, t with
      | _ :: s, c :: t => cons c <$> (if c =? 0 then put_nul s else safestrcpy_loop s t n)
      | _, _ => None
      end
  end.
Definition safestrcpy (s t : mem) (n : nat) : option mem :=
  match n with O => Some s | S n => safestrcpy_loop s t n end.

Fixpoint strlen (s : mem) : option Z :=
  match s with
  | [] => None
  | c :: s => if c =? 0 then Some 0 else Z.succ <$> strlen s
  end.

(** ** Strings *)

(** The NUL-terminated string at the start of a memory. *)
Fixpoint cstr (s : mem) : option (list Z) :=
  match s with
  | [] => None
  | c :: s => if c =? 0 then Some [] else cons c <$> cstr s
  end.

(** ** Lemmas *)

Lemma wr_Some m a v : (a < length m)%nat -> wr m a v = Some (<[a := v]> m).
Proof. intros Ha. unfold wr. by rewrite (proj2 (Nat.ltb_lt _ _) Ha). Qed.

Lemma splice_cons off v bs m :
  (off < length m)%nat -> splice (S off) bs (<[off := v]> m) = splice off (v :: bs) m.
Proof.
  intros Ho. unfold splice. rewrite (take_S_r _ _ v) by (by apply list_lookup_insert_eq).
  rewrite take_insert_ge by lia. rewrite <- app_assoc. cbn [app length].
  rewrite drop_insert_lt by lia.
  by replace (off + S (length bs))%nat with (S off + length bs)%nat by lia.
Qed.

Lemma splice_nil off m : splice off [] m = m.
Proof. unfold splice. cbn. rewrite Nat.add_0_r. apply take_drop. Qed.

Lemma stosb_Ok n : forall m a c,
  (a + n <= length m)%nat -> stosb m a c n = Some (splice a (replicate n (u8 c)) m).
Proof.
  induction n as [|n IH]; intros m a c Hl; cbn [stosb].
  { by rewrite splice_nil. }
  rewrite wr_Some by lia. cbn. rewrite IH by (rewrite length_insert; lia).
  by rewrite splice_cons by lia.
Qed.

Lemma replicate_4 n (x : Z) : replicate (4 * S n) x = x :: x :: x :: x :: replicate (4 * n) x.
Proof. by replace (4 * S n)%nat with (S (S (S (S (4 * n))))) by lia. Qed.

Lemma stosl_Ok n : forall m a w c,
  (a + 4 * n <= length m)%nat ->
  u8 w = c -> u8 (Z.shiftr w 8) = c -> u8 (Z.shiftr w 16) = c -> u8 (Z.shiftr w 24) = c ->
  stosl m a w n = Some (splice a (replicate (4 * n) c) m).
Proof.
  induction n as [|n IH]; intros m a w c Hl H0 H1 H2 H3; cbn [stosl].
  { by rewrite splice_nil. }
  rewrite H0, H1, H2, H3, replicate_4.
  rewrite wr_Some by lia. cbn. rewrite wr_Some by (rewrite length_insert; lia). cbn.
  rewrite wr_Some by (rewrite !length_insert; lia). cbn.
  rewrite wr_Some by (rewrite !length_insert; lia). cbn.
  rewrite (IH _ _ _ c) by (rewrite ?length_insert; done || lia). f_equal.
  replace (a + 4)%nat with (S (a + 3)) by lia. rewrite splice_cons by (rewrite !length_insert; lia).
  replace (a + 3)%nat with (S (a + 2)) by lia. rewrite splice_cons by (rewrite !length_insert; lia).
  replace (a + 2)%nat with (S (a + 1)) by lia. rewrite splice_cons by (rewrite !length_insert; lia).
  replace (a + 1)%nat with (S a) by lia. by rewrite splice_cons by lia.
Qed.

Lemma memset_word c : 0 <= c < 256 ->
  let w := Z.lor (Z.lor (Z.lor (Z.shiftl c 24) (Z.shiftl c 16)) (Z.shiftl c 8)) c in
  u8 w = c /\ u8 (Z.shiftr w 8) = c /\ u8 (Z.shiftr w 16) = c /\ u8 (Z.shiftr w 24) = c.
Proof.
  intros Hc.
  set (chk := fun c =>
    let w := Z.lor (Z.lor (Z.lor (Z.shiftl c 24) (Z.shiftl c 16)) (Z.shiftl c 8)) c in
    (u8 w =? c) && (u8 (Z.shiftr w 8) =? c) && (u8 (Z.shiftr w 16) =? c) && (u8 (Z.shiftr w 24) =? c)).
  assert (H : forallb chk (seqZ 0 256) = true) by (vm_compute; reflexivity).
  rewrite forallb_forall in H. specialize (H c).
  rewrite <- list_elem_of_In, elem_of_seqZ in H. specialize (H ltac:(lia)). unfold chk in H.
  rewrite !andb_true_iff, !Z.eqb_eq in H. naive_solver.
Qed.

Lemma u8_land c : Z.land c 255 = u8 c.
Proof. change 255 with (Z.ones 8). rewrite Z.land_ones by lia. done. Qed.

Lemma u8_range c : 0 <= u8 c < 256.
Proof. unfold u8. apply Z.mod_pos_bound. lia. Qed.

Lemma sub_bytes_S s n (m : list Z) v :
  m !! s = Some v -> sub_bytes s (S n) m = v :: sub_bytes (S s) n m.
Proof. intros Hv. unfold sub_bytes. by rewrite (drop_S _ _ _ Hv). Qed.

Lemma sub_bytes_insert_out s n d v (m : list Z) :
  (d < s \/ s + n <= d)%nat -> sub_bytes s n (<[d := v]> m) = sub_bytes s n m.
Proof.
  intros Hd. apply list_eq. intros i. destruct (decide (i < n)%nat).
  - rewrite !lookup_sub_bytes by done. apply list_lookup_insert_ne. lia.
  - unfold sub_bytes. by rewrite !lookup_take_ge by lia.
Qed.

Lemma sub_bytes_snoc s n (m : list Z) v :
  m !! (s + n)%nat = Some v -> sub_bytes s (S n) m = sub_bytes s n m ++ [v].
Proof. intros Hv. unfold sub_bytes. apply take_S_r. by rewrite lookup_drop. Qed.

Lemma splice_snoc d bs v (m : list Z) :
  (d + length bs < length m)%nat ->
  splice d bs (<[(d + length bs)%nat := v]> m) = splice d (bs ++ [v]) m.
Proof.
  intros Hl. unfold splice. rewrite take_insert_ge by lia. rewrite <- app_assoc. do 2 f_equal.
  rewrite length_app. cbn. rewrite (drop_S _ v) by (apply list_lookup_insert_eq; lia).
  rewrite drop_insert_lt by lia. f_equal. f_equal. lia.
Qed.

Lemma copy_fwd_Ok n : forall m d s,
  (d + n <= length m)%nat -> (s + n <= length m)%nat -> (d <= s \/ s + n <= d)%nat ->
  copy_fwd m d s n = Some (splice d (sub_bytes s n m) m).
Proof.
  induction n as [|n IH]; intros m d s Hd Hs Hov; cbn [copy_fwd].
  { by rewrite splice_nil. }
  destruct (lookup_lt_is_Some_2 m s) as [v Hv]; [lia|]. rewrite Hv. cbn.
  rewrite wr_Some by lia. cbn. rewrite IH by (rewrite ?length_insert; lia).
  rewrite sub_bytes_insert_out by lia. rewrite splice_cons by lia. by rewrite (sub_bytes_S _ _ _ v).
Qed.

Lemma copy_back_Ok n : forall m d s,
  (d + n <= length m)%nat -> (s < d)%nat ->
  copy_back m (d + n) (s + n) n = Some (splice d (sub_bytes s n m) m).
Proof.
  induction n as [|n IH]; intros m d s Hd Hs; cbn [copy_back].
  { by rewrite splice_nil. }
  rewrite !Nat.add_succ_r, !Nat.pred_succ.
  destruct (lookup_lt_is_Some_2 m (s + n)) as [v Hv]; [lia|]. rewrite Hv. cbn.
  rewrite wr_Some by lia. cbn. rewrite IH by (rewrite ?length_insert; lia).
  rewrite sub_bytes_insert_out by lia. rewrite (sub_bytes_snoc _ _ _ v) by done.
  assert (Hl : length (sub_bytes s n m) = n) by (apply length_sub_bytes; lia).
  by rewrite <- splice_snoc, Hl by (rewrite Hl; lia).
Qed.

Lemma memmove_Ok m dst src n :
  (dst + n <= length m)%nat -> (src + n <= length m)%nat ->
  memmove m dst src n = Some (splice dst (sub_bytes src n m) m).
Proof.
  intros Hd Hs. unfold memmove.
  destruct (Nat.ltb_spec src dst), (Nat.ltb_spec dst (src + n)); cbn [andb];
    try (apply copy_fwd_Ok; lia). apply copy_back_Ok; lia.
Qed.

(** [memmove] copies correctly whatever the overlap: within memory, the [n]
    bytes at [dst] become those that were at [src] before the call, and no other
    byte changes. *)
Lemma memmove_copies m dst src n i :
  (dst + n <= length m)%nat -> (src + n <= length m)%nat -> (i < length m)%nat ->
  exists m', memmove m dst src n = Some m' /\ length m' = length m /\
    m' !! i = if decide (dst <= i < dst + n)%nat then m !! (src + (i - dst))%nat else m !! i.
Proof.
  intros Hd Hs Hi. rewrite memmove_Ok by done. eexists. split; [done|].
  assert (Hl : length (sub_bytes src n m) = n) by (apply length_sub_bytes; lia).
  split; [apply length_splice; rewrite Hl; lia|]. case_decide.
  - rewrite lookup_splice_in by (rewrite Hl; lia). apply lookup_sub_bytes. lia.
  - apply lookup_splice_out; rewrite Hl; lia.
Qed.

Lemma memmove_copies_witness :
  exists m', memmove [1; 2; 3; 4; 5; 6] 2 0 4 = Some m' /\ m' !! 5%nat = Some 4.
Proof.
  destruct (memmove_copies [1; 2; 3; 4; 5; 6] 2 0 4 5) as (m' & H1 & _ & H2);
    [cbn; lia..|]. exists m'. split; [exact H1|exact H2].
Defined.

(** [memset] fills: whether the address and the count select the word or the
    byte instruction, exactly the [n] bytes at [dst] become the low byte of
    [c]. *)
Lemma memset_fills m dst c n :
  (dst + n <= length m)%nat ->
  memset m dst c n = Some (splice dst (replicate n (u8 c)) m).
Proof.
  intros Hl. unfold memset.
  destruct (Nat.eqb_spec (dst mod 4) 0), (Nat.eqb_spec (n mod 4) 0); cbn [andb];
    try (by apply stosb_Ok).
  assert (Hn : n = (4 * (n / 4))%nat) by (pose proof (Nat.div_mod n 4); lia).
  rewrite u8_land. destruct (memset_word (u8 c) (u8_range c)) as (H0 & H1 & H2 & H3).
  rewrite (stosl_Ok _ _ _ _ (u8 c)) by (done || lia). by rewrite <- Hn.
Qed.

Lemma memset_fills_witness :
  memset (replicate 12 7) 4 (-1) 8 = Some (replicate 4 7 ++ replicate 8 255) /\
  memset (replicate 12 7) 5 (-1) 3 = Some (replicate 5 7 ++ replicate 3 255 ++ replicate 4 7).
Proof.
  split.
  - rewrite (memset_fills (replicate 12 7) 4 (-1) 8); [reflexivity|cbn; lia].
  - rewrite (memset_fills (replicate 12 7) 5 (-1) 3); [reflexivity|cbn; lia].
Defined.

(** ** Strings in fixed-size fields *)

(** The string in an [n]-byte field: up to the first NUL, at most [n] bytes. *)
Fixpoint field (n : nat) (s : mem) : list Z :=
  match n, s with
  | S n, c :: s => if c =? 0 then [] else c :: field n s
  | _, _ => []
  end.

(** The first [n] bytes can be read, or a NUL comes before memory ends. *)
Definition readable (n : nat) (s : mem) : Prop := (n <= length s)%nat \/ 0 ∈ s.

Lemma readable_cons n c s : readable (S n) (c :: s) -> c <> 0 -> readable n s.
Proof. intros [H|H] Hc; [left; cbn in H; lia|right; set_solver]. Qed.

Lemma readable_nil n : ~ readable (S n) [].
Proof. intros [H|H]; [cbn in H; lia|set_solver]. Qed.

Lemma field_length n s : (length (field n s) <= n)%nat.
Proof.
  revert s. induction n as [|n IH]; intros [|c s]; cbn; try lia.
  destruct (c =? 0); cbn; [lia|]. specialize (IH s). lia.
Qed.

Lemma strncmp_Ok n : forall p q,
  readable n p -> readable n q ->
  exists r, strncmp p q n = Some r /\ (r = 0 <-> field n p = field n q).
Proof.
  induction n as [|n IH]; intros p q Hp Hq; [exists 0; split; [done|split; done]|].
  destruct p as [|a p]; [by apply readable_nil in Hp|].
  destruct q as [|b q]; [by apply readable_nil in Hq|]. cbn [strncmp field].
  destruct (Z.eqb_spec a 0) as [->|Ha], (Z.eqb_spec b 0) as [->|Hb]; cbn [negb andb].
  - exists 0. split; [done|split; done].
  - exists (0 - b). split; [done|]. split; [lia|done].
  - rewrite (proj2 (Z.eqb_neq a 0)) by done. exists (a - 0). split; [done|]. split; [lia|done].
  - destruct (Z.eqb_spec a b) as [->|Hab].
    + destruct (IH p q) as (r & Hr & Hiff); [by eapply readable_cons..|].
      exists r. split; [done|]. rewrite Hiff. split; [by intros ->|by intros [= ->]].
    + exists (a - b). split; [done|]. split; [lia|]. by intros [= ? _].
Qed.

Lemma zero_fill_Ok n : forall s,
  (n <= length s)%nat -> zero_fill s n = Some (replicate n 0 ++ drop n s).
Proof.
  induction n as [|n IH]; intros s Hn; [done|]. destruct s as [|c s]; [cbn in Hn; lia|].
  cbn. rewrite IH by (cbn in Hn; lia). done.
Qed.

Lemma strncpy_Ok n : forall s t,
  (n <= length s)%nat -> readable n t ->
  strncpy s t n = Some (field n t ++ replicate (n - length (field n t)) 0 ++ drop n s).
Proof.
  induction n as [|n IH]; intros s t Hs Ht; [done|].
  destruct s as [|x s]; [cbn in Hs; lia|]. destruct t as [|c t]; [by apply readable_nil in Ht|].
  cbn [strncpy field]. destruct (Z.eqb_spec c 0) as [->|Hc].
  - rewrite zero_fill_Ok by (cbn in Hs; lia). done.
  - rewrite IH; [|cbn in Hs; lia|by eapply readable_cons]. done.
Qed.

Lemma field_app_zeros n m l r : 0 ∉ l -> (length l + m = n)%nat -> field n (l ++ replicate m 0 ++ r) = l.
Proof.
  revert n. induction l as [|c l IH]; intros n Hl Hn; cbn in *.
  - destruct n, m; try done; lia.
  - destruct n; [lia|]. cbn. rewrite (proj2 (Z.eqb_neq c 0)) by set_solver.
    f_equal. apply IH; [set_solver|lia].
Qed.

Lemma field_no_nul n s : 0 ∉ field n s.
Proof.
  revert s. induction n as [|n IH]; intros [|c s]; cbn; try set_solver.
  destruct (Z.eqb_spec c 0); set_solver.
Qed.

Lemma field_strncpy n s t s' :
  (n <= length s)%nat -> readable n t -> strncpy s t n = Some s' ->
  field n s' = field n t /\ length s' = length s /\ drop n s' = drop n s.
Proof.
  intros Hs Ht. rewrite strncpy_Ok by done. intros [= <-]. pose proof (field_length n t).
  split_and!.
  - apply field_app_zeros; [apply field_no_nul|lia].
  - rewrite !length_app, length_replicate, length_drop. lia.
  - rewrite app_assoc. apply drop_app_length'. rewrite length_app, length_replicate. lia.
Qed.

(** A name stored with [strncpy] in a fixed-size field, as [dirlink] stores
    it, is found by [strncmp], as [namecmp] compares it, exactly under the names
    that agree with it up to the field's size. *)
Lemma strncpy_strncmp s t u n :
  (n <= length s)%nat -> readable n t -> readable n u ->
  exists s' r, strncpy s t n = Some s' /\ strncmp u s' n = Some r /\
    (r = 0 <-> field n u = field n t).
Proof.
  intros Hs Ht Hu. destruct (strncpy s t n) as [s'|] eqn:E; [|by rewrite strncpy_Ok in E].
  destruct (field_strncpy n s t s' Hs Ht E) as (Hf & Hl & _).
  destruct (strncmp_Ok n u s') as (r & Hr & Hiff); [done|left; lia|].
  exists s', r. split_and!; try done. by rewrite <- Hf.
Qed.

Lemma strncpy_strncmp_witness :
  exists s' r, strncpy (replicate 14 255) [97; 98; 0] 14 = Some s' /\
    strncmp [97; 98; 0; 99] s' 14 = Some r /\ r = 0.
Proof.
  destruct (strncpy_strncmp (replicate 14 255) [97; 98; 0] [97; 98; 0; 99] 14) as (s' & r & H1 & H2 & H3).
  - cbn. lia.
  - right. set_solver.
  - right. set_solver.
  - exists s', r. split_and!; [exact H1|exact H2|]. apply H3. reflexivity.
Defined.

Lemma put_nul_Ok s : (0 < length s)%nat -> put_nul s = Some (0 :: drop 1 s).
Proof. destruct s; cbn; [lia|done]. Qed.

(** [safestrcpy] always terminates the copy: the result is a string, the
    longest prefix of the source that fits, and nothing beyond the [n] bytes of
    the destination changes. *)
Lemma safestrcpy_terminates n : forall s t,
  (S n <= length s)%nat -> readable n t ->
  exists s', safestrcpy s t (S n) = Some s' /\ cstr s' = Some (field n t) /\
    length s' = length s /\ drop (S n) s' = drop (S n) s.
Proof.
  cbn [safestrcpy]. induction n as [|n IH]; intros s t Hs Ht; cbn [safestrcpy_loop].
  - rewrite put_nul_Ok by lia. eexists. split; [done|]. destruct s; [cbn in Hs; lia|]. done.
  - destruct s as [|x s]; [cbn in Hs; lia|]. destruct t as [|c t]; [by apply readable_nil in Ht|].
    cbn [field]. destruct (Z.eqb_spec c 0) as [->|Hc].
    + rewrite put_nul_Ok by (cbn in Hs; lia). eexists. split; [done|].
      destruct s as [|y s]; [cbn in Hs; lia|]. done.
    + destruct (IH s t) as (s' & R & Hc' & Hl & Hd); [cbn in Hs; lia|by eapply readable_cons|].
      exists (c :: s'). rewrite R. split; [done|]. cbn [cstr length drop].
      rewrite (proj2 (Z.eqb_neq c 0)), Hc' by done. split_and!; [done|lia|done].
Qed.

Lemma safestrcpy_terminates_witness :
  exists s', safestrcpy (replicate 16 7) [105; 110; 105; 116; 0] 4 = Some s' /\
    cstr s' = Some [105; 110; 105].
Proof.
  destruct (safestrcpy_terminates 3 (replicate 16 7) [105; 110; 105; 116; 0]) as (s' & H1 & H2 & _).
  - cbn. lia.
  - left. cbn. lia.
  - exists s'. split; [exact H1|exact H2].
Defined.

Lemma strlen_cstr s a : cstr s = Some a -> strlen s = Some (Z.of_nat (length a)).
Proof.
  revert a. induction s as [|c s IH]; intros a; cbn; [done|].
  destruct (c =? 0); [by intros [= <-]|]. destruct (cstr s) as [b|]; [|done]. intros [= <-].
  rewrite (IH b) by done. cbn. f_equal. lia.
Qed.

Lemma memcmp_Ok n : forall s t,
  (n <= length s)%nat -> (n <= length t)%nat ->
  exists r, memcmp s t n = Some r /\ (r = 0 <-> take n s = take n t).
Proof.
  induction n as [|n IH]; intros s t Hs Ht; [exists 0; split; [done|split; done]|].
  destruct s as [|a s]; [cbn in Hs; lia|]. destruct t as [|b t]; [cbn in Ht; lia|]. cbn.
  destruct (Z.eqb_spec a b) as [->|Hab]; cbn.
  - destruct (IH s t) as (r & -> & Hr); [cbn in *; lia..|]. exists r. split; [done|]. rewrite Hr.
    split; [by intros ->|by intros [= ->]].
  - exists (a - b). split; [done|]. split; [lia|]. by intros [= ? _].
Qed.
