(* ===== verification/Ide.v ===== *)
(** * Ide: the disk drivers ide.c and memide.c

    The state shared by the buffer cache and the disk driver: the buffers
    themselves, the driver's request queue, the disk behind it.  A buffer is
    named by its index: [0 .. NBUF) are [bcache.buf[]], [NBUF] is
    [bcache.head].  The disk controller is modelled by what the driver
    programs into its ports: the command registers select a drive and a
    sector, a write command stores the transferred sector, an interrupt
    announces completion.  Completed sector writes are also recorded in order,
    which is what a crash theorem quantifies over. *)

From S2P Require Import Prelude Layout.
Open Scope Z_scope.
Open Scope xv6_scope.

Definition B_BUSY : Z := 1.
Definition B_VALID : Z := 2.
Definition B_DIRTY : Z := 4.

Definition SECTOR_SIZE : Z := 512.
Definition IDE_BSY : Z := 128.
Definition IDE_DRDY : Z := 64.
Definition IDE_DF : Z := 32.
Definition IDE_ERR : Z := 1.

(** [struct buf]; [qnext] is represented by the request queue itself. *)
Record buf := Buf {
  b_flags : Z;
  b_dev : Z;
  b_blockno : Z;
  b_prev : nat;
  b_next : nat;
  b_data : list Z
}.

Definition b_set_flags (f : Z) (b : buf) : buf :=
  Buf f (b_dev b) (b_blockno b) (b_prev b) (b_next b) (b_data b).
Definition b_set_data (d : list Z) (b : buf) : buf :=
  Buf (b_flags b) (b_dev b) (b_blockno b) (b_prev b) (b_next b) d.
Definition b_set_prev (p : nat) (b : buf) : buf :=
  Buf (b_flags b) (b_dev b) (b_blockno b) p (b_next b) (b_data b).
Definition b_set_next (n : nat) (b : buf) : buf :=
  Buf (b_flags b) (b_dev b) (b_blockno b) (b_prev b) n (b_data b).
Definition b_set_id (dev blockno flags : Z) (b : buf) : buf :=
  Buf flags dev blockno (b_prev b) (b_next b) (b_data b).

(** [flags & m], [flags |= m] and [flags &= ~m]. *)
Definition flag (m : Z) (b : buf) : bool := negb (Z.land (b_flags b) m =? 0).
Definition b_or (m : Z) (b : buf) : buf := b_set_flags (Z.lor (b_flags b) m) b.
Definition b_clear (m : Z) (b : buf) : buf := b_set_flags (Z.ldiff (b_flags b) m) b.

(** A drive and a sector number on it. *)
Definition sector : Type := Z * Z.

Record bio := Bio {
  bufs : list buf;
  capacity : Z;
  htable : gmap Z nat;
  idequeue : list nat;
  havedisk1 : bool;
  ide_status : Z;
  ide_sel : sector;
  disk : gmap sector (list Z);
  disk_writes : list (sector * list Z)
}.

Definition set_bufs (l : list buf) (s : bio) : bio :=
  Bio l (capacity s) (htable s) (idequeue s) (havedisk1 s) (ide_status s) (ide_sel s)
      (disk s) (disk_writes s).
Definition set_hash (c : Z) (h : gmap Z nat) (s : bio) : bio :=
  Bio (bufs s) c h (idequeue s) (havedisk1 s) (ide_status s) (ide_sel s)
      (disk s) (disk_writes s).
Definition set_queue (q : list nat) (s : bio) : bio :=
  Bio (bufs s) (capacity s) (htable s) q (havedisk1 s) (ide_status s) (ide_sel s)
      (disk s) (disk_writes s).
Definition set_sel (c : sector) (s : bio) : bio :=
  Bio (bufs s) (capacity s) (htable s) (idequeue s) (havedisk1 s) (ide_status s) c
      (disk s) (disk_writes s).
Definition set_disk (d : gmap sector (list Z)) (w : list (sector * list Z)) (s : bio) : bio :=
  Bio (bufs s) (capacity s) (htable s) (idequeue s) (havedisk1 s) (ide_status s) (ide_sel s)
      d w.

(** The contents of a sector; a sector never written is zero-filled, as mkfs
    leaves the image. *)
Definition disk_get (d : gmap sector (list Z)) (c : sector) : list Z :=
  default zero_block (d !! c).

Definition get_buf (i : nat) : M bio buf :=
  let! l := gets bufs in of_option (Undefined "buffer pointer") (l !! i).
Definition upd_buf (i : nat) (f : buf -> buf) : M bio unit :=
  let! b := get_buf i in
  modify (fun s => set_bufs (<[i := f b]> (bufs s)) s).

(** ** ide.c *)

(** Wait until the status register shows the drive ready. *)
Definition idewait (checkerr : bool) : M bio Z :=
  let! r := gets ide_status in
  if negb (Z.land r (Z.lor IDE_BSY IDE_DRDY) =? IDE_DRDY) then halt Spin
  else if checkerr && negb (Z.land r (Z.lor IDE_DF IDE_ERR) =? 0) then ret (-1)
  else ret 0.

(** The four address bytes [idestart] writes to ports 0x1f3..0x1f6, and the
    drive and sector the controller takes from them. *)
Definition ide_ports (dev sect : Z) : Z * Z * Z * Z :=
  (Z.land sect 255,
   Z.land (Z.shiftr sect 8) 255,
   Z.land (Z.shiftr sect 16) 255,
   Z.lor (Z.lor 224 (Z.shiftl (Z.land dev 1) 4)) (Z.land (Z.shiftr sect 24) 15)).

Definition ide_address (p : Z * Z * Z * Z) : sector :=
  let '(p3, p4, p5, p6) := p in
  (Z.land (Z.shiftr p6 4) 1,
   p3 + 2 ^ 8 * p4 + 2 ^ 16 * p5 + 2 ^ 24 * Z.land p6 15).

(** Start the request for the buffer at [i]. *)
Definition idestart (i : nat) : M bio unit :=
  let! b := get_buf i in
  if FSSIZE <=? b_blockno b then panic "incorrect blockno" else
  let sector_per_block := BSIZE / SECTOR_SIZE in
  let sect := b_blockno b * sector_per_block in
  if 7 <? sector_per_block then panic "idestart" else
  let! _ := idewait false in
  let sel := ide_address (ide_ports (b_dev b) sect) in
  modify (set_sel sel) ;;;
  if flag B_DIRTY b
  then modify (fun s => set_disk (<[sel := b_data b]> (disk s))
                                 (disk_writes s ++ [(sel, b_data b)]) s)
  else ret tt.

(** Interrupt handler: complete the request at the head of the queue. *)
Definition ideintr : M bio unit :=
  let! q := gets idequeue in
  match q with
  | [] => ret tt
  | i :: q =>
      modify (set_queue q) ;;;
      let! b := get_buf i in
      (if negb (flag B_DIRTY b) then
         let! r := idewait true in
         if 0 <=? r then
           let! s := gets id in
           upd_buf i (b_set_data (disk_get (disk s) (ide_sel s)))
         else ret tt
       else ret tt) ;;;
      upd_buf i (b_or B_VALID) ;;;
      upd_buf i (b_clear B_DIRTY) ;;;
      match q with
      | [] => ret tt
      | j :: _ => idestart j
      end
  end.

(** The first half of [iderw]: check the buffer, queue it, start the disk if
    it is idle. *)
Definition iderw_submit (i : nat) : M bio unit :=
  let! b := get_buf i in
  if negb (flag B_BUSY b) then panic "iderw: buf not busy" else
  if Z.land (b_flags b) (Z.lor B_VALID B_DIRTY) =? B_VALID then panic "iderw: nothing to do" else
  let! h1 := gets havedisk1 in
  if negb (b_dev b =? 0) && negb h1 then panic "iderw: ide disk 1 not present" else
  let! q := gets idequeue in
  modify (set_queue (q ++ [i])) ;;;
  match q with
  | [] => idestart i
  | j :: _ => if Nat.eqb j i then idestart i else ret tt
  end.

(** [while((b->flags & (B_VALID|B_DIRTY)) != B_VALID) sleep(b, &idelock)]: while
    the process sleeps the disk completes requests. *)
Fixpoint iderw_wait (fuel : nat) (i : nat) : M bio unit :=
  let! b := get_buf i in
  if Z.land (b_flags b) (Z.lor B_VALID B_DIRTY) =? B_VALID then ret tt
  else match fuel with
       | O => halt OutOfFuel
       | S fuel => ideintr ;;; iderw_wait fuel i
       end.

(** Sync the buffer with the disk. Each completed request shortens the queue,
    so its length bounds the number of times the sleeper is woken. *)
Definition iderw (i : nat) : M bio unit :=
  iderw_submit i ;;;
  let! q := gets idequeue in
  iderw_wait (length q) i.

(** ** memide.c *)

(** The memory disk: the same contract, served synchronously. *)
Definition memide_rw (disksize : Z) (i : nat) : M bio unit :=
  let! b := get_buf i in
  if negb (flag B_BUSY b) then panic "iderw: buf not busy" else
  if Z.land (b_flags b) (Z.lor B_VALID B_DIRTY) =? B_VALID then panic "iderw: nothing to do" else
  if negb (b_dev b =? 1) then panic "iderw: request not for disk 1" else
  if disksize <=? b_blockno b then panic "iderw: block out of range" else
  let p := (1, b_blockno b) in
  (if flag B_DIRTY b then
     upd_buf i (b_clear B_DIRTY) ;;;
     modify (fun s => set_disk (<[p := b_data b]> (disk s)) (disk_writes s ++ [(p, b_data b)]) s)
   else
     let! s := gets id in
     upd_buf i (b_set_data (disk_get (disk s) p))) ;;;
  upd_buf i (b_or B_VALID).

(** ** Flags *)

Section Flags.
Implicit Types b : buf.

Lemma flag_testbit k b : 0 <= k -> flag (2 ^ k) b = Z.testbit (b_flags b) k.
Proof.
  intros Hk. unfold flag. rewrite land_pow2 by done.
  destruct (Z.testbit _ k); [|done].
  destruct (Z.eqb_spec (2 ^ k) 0) as [E|]; [|done].
  pose proof (Z.pow_pos_nonneg 2 k). lia.
Qed.

Lemma flag_or k j b :
  0 <= k -> 0 <= j -> flag (2 ^ k) (b_or (2 ^ j) b) = flag (2 ^ k) b || bool_decide (k = j).
Proof.
  intros. rewrite !flag_testbit by done. cbn [b_or b_set_flags b_flags].
  rewrite Z.lor_spec. f_equal. case_bool_decide; subst;
    [by apply Z.pow2_bits_true|by apply Z.pow2_bits_false].
Qed.

Lemma flag_clear k j b :
  0 <= k -> 0 <= j ->
  flag (2 ^ k) (b_clear (2 ^ j) b) = flag (2 ^ k) b && negb (bool_decide (k = j)).
Proof.
  intros. rewrite !flag_testbit by done. cbn [b_clear b_set_flags b_flags].
  rewrite Z.ldiff_spec. f_equal. f_equal. case_bool_decide; subst;
    [by apply Z.pow2_bits_true|by apply Z.pow2_bits_false].
Qed.

Lemma synced_flags b :
  (Z.land (b_flags b) (Z.lor B_VALID B_DIRTY) =? B_VALID) =
  flag B_VALID b && negb (flag B_DIRTY b).
Proof.
  rewrite Z.land_lor_distr_r. change B_VALID with (2 ^ 1). change B_DIRTY with (2 ^ 2).
  rewrite !flag_testbit, !land_pow2 by done.
  by destruct (Z.testbit _ 1), (Z.testbit _ 2).
Qed.

(** The nine combinations of the three flags, as rewriting rules. *)
Lemma busy_or_valid b : flag B_BUSY (b_or B_VALID b) = flag B_BUSY b.
Proof. rewrite (flag_or 0 1) by done. apply orb_false_r. Qed.
Lemma busy_or_dirty b : flag B_BUSY (b_or B_DIRTY b) = flag B_BUSY b.
Proof. rewrite (flag_or 0 2) by done. apply orb_false_r. Qed.
Lemma busy_or_busy b : flag B_BUSY (b_or B_BUSY b) = true.
Proof. rewrite (flag_or 0 0) by done. apply orb_true_r. Qed.
Lemma valid_or_valid b : flag B_VALID (b_or B_VALID b) = true.
Proof. rewrite (flag_or 1 1) by done. apply orb_true_r. Qed.
Lemma valid_or_dirty b : flag B_VALID (b_or B_DIRTY b) = flag B_VALID b.
Proof. rewrite (flag_or 1 2) by done. apply orb_false_r. Qed.
Lemma valid_or_busy b : flag B_VALID (b_or B_BUSY b) = flag B_VALID b.
Proof. rewrite (flag_or 1 0) by done. apply orb_false_r. Qed.
Lemma dirty_or_valid b : flag B_DIRTY (b_or B_VALID b) = flag B_DIRTY b.
Proof. rewrite (flag_or 2 1) by done. apply orb_false_r. Qed.
Lemma dirty_or_dirty b : flag B_DIRTY (b_or B_DIRTY b) = true.
Proof. rewrite (flag_or 2 2) by done. apply orb_true_r. Qed.
Lemma dirty_or_busy b : flag B_DIRTY (b_or B_BUSY b) = flag B_DIRTY b.
Proof. rewrite (flag_or 2 0) by done. apply orb_false_r. Qed.
Lemma busy_clear_busy b : flag B_BUSY (b_clear B_BUSY b) = false.
Proof. rewrite (flag_clear 0 0) by done. apply andb_false_r. Qed.
Lemma busy_clear_dirty b : flag B_BUSY (b_clear B_DIRTY b) = flag B_BUSY b.
Proof. rewrite (flag_clear 0 2) by done. apply andb_true_r. Qed.
Lemma valid_clear_busy b : flag B_VALID (b_clear B_BUSY b) = flag B_VALID b.
Proof. rewrite (flag_clear 1 0) by done. apply andb_true_r. Qed.
Lemma valid_clear_dirty b : flag B_VALID (b_clear B_DIRTY b) = flag B_VALID b.
Proof. rewrite (flag_clear 1 2) by done. apply andb_true_r. Qed.
Lemma dirty_clear_dirty b : flag B_DIRTY (b_clear B_DIRTY b) = false.
Proof. rewrite (flag_clear 2 2) by done. apply andb_false_r. Qed.
Lemma dirty_clear_busy b : flag B_DIRTY (b_clear B_BUSY b) = flag B_DIRTY b.
Proof. rewrite (flag_clear 2 0) by done. apply andb_true_r. Qed.
Lemma flag_set_data m d b : flag m (b_set_data d b) = flag m b.
Proof. done. Qed.
Lemma flag_set_prev m p b : flag m (b_set_prev p b) = flag m b.
Proof. done. Qed.
Lemma flag_set_next m p b : flag m (b_set_next p b) = flag m b.
Proof. done. Qed.
End Flags.

Create Rewrite HintDb flags.
#[export] Hint Rewrite busy_or_valid busy_or_dirty busy_or_busy valid_or_valid valid_or_dirty
  valid_or_busy dirty_or_valid dirty_or_dirty dirty_or_busy busy_clear_busy busy_clear_dirty
  valid_clear_busy valid_clear_dirty dirty_clear_dirty dirty_clear_busy
  flag_set_data flag_set_prev flag_set_next synced_flags : flags.

Ltac flags := autorewrite with flags in *.

Lemma get_buf_Ok s i b : bufs s !! i = Some b -> get_buf i s = Ok b s.
Proof. intros H. unfold get_buf, bind, gets. by rewrite H. Qed.

Lemma upd_buf_Ok s i b f :
  bufs s !! i = Some b -> upd_buf i f s = Ok tt (set_bufs (<[i := f b]> (bufs s)) s).
Proof. intros H. unfold upd_buf. by rewrite (bind_Ok _ _ _ _ _ (get_buf_Ok _ _ _ H)). Qed.

#[export] Hint Resolve get_buf_Ok upd_buf_Ok : xv6.

(** ** The controller's address registers *)

Lemma ide_address_ports dev sect :
  0 <= sect < 2 ^ 28 -> ide_address (ide_ports dev sect) = (Z.land dev 1, sect).
Proof.
  intros Hs. unfold ide_address, ide_ports. f_equal.
  - apply Z.bits_inj'. intros n Hn.
    rewrite !Z.land_spec, Z.shiftr_spec, !Z.lor_spec, Z.shiftl_spec, !Z.land_spec by lia.
    replace (n + 4 - 4) with n by lia. rewrite Z.shiftr_spec by lia.
    destruct (decide (n = 0)) as [->|].
    + simpl. by rewrite !andb_false_r, !orb_false_r, !andb_true_r.
    + replace (Z.testbit 1 n) with false; [by rewrite !andb_false_r|].
      symmetry. apply (Z.bits_above_log2 1 n); simpl; lia.
  - rewrite Z.land_lor_distr_l, Z.land_lor_distr_l. 
    replace (Z.land (Z.shiftl (Z.land dev 1) 4) 15) with 0.
    2: { symmetry. change 15 with (Z.ones 4). rewrite Z.land_ones by lia.
         rewrite Z.shiftl_mul_pow2 by lia. by apply Z.mod_mul. }
    change (Z.land 224 15) with 0. rewrite !Z.lor_0_l.
    rewrite <- Z.land_assoc. change (Z.land 15 15) with (Z.ones 4).
    change 255 with (Z.ones 8). rewrite !Z.land_ones, !Z.shiftr_div_pow2 by lia.
    rewrite (Z.mod_small (sect / 2 ^ 24)).
    2: { split; [apply Z.div_pos; lia|]. apply Z.div_lt_upper_bound; lia. }
    change (2 ^ 8) with 256. change (2 ^ 16) with 65536. change (2 ^ 24) with 16777216.
    Z.to_euclidean_division_equations. lia.
Qed.

(** ** Requests *)

Definition ide_ready (s : bio) : Prop :=
  Z.land (ide_status s) (Z.lor IDE_BSY IDE_DRDY) = IDE_DRDY /\
  Z.land (ide_status s) (Z.lor IDE_DF IDE_ERR) = 0.

(** The sector a buffer is the copy of. *)
Definition b_sector (b : buf) : sector := (Z.land (b_dev b) 1, b_blockno b).

Definition in_range (b : buf) : Prop := 0 <= b_blockno b < FSSIZE.

(** What starting the request for [b] does to the disk. *)
Definition started (b : buf) (s : bio) : bio :=
  if flag B_DIRTY b
  then set_disk (<[b_sector b := b_data b]> (disk s))
                (disk_writes s ++ [(b_sector b, b_data b)]) (set_sel (b_sector b) s)
  else set_sel (b_sector b) s.

(** What completing it does to the buffer, with [d] the sector's contents. *)
Definition completed (d : list Z) (b : buf) : buf :=
  b_clear B_DIRTY (b_or B_VALID (if flag B_DIRTY b then b else b_set_data d b)).

(** The state after a request served on its own. *)
Definition after_rw (i : nat) (b : buf) (s : bio) : bio :=
  set_bufs (<[i := completed (disk_get (disk s) (b_sector b)) b]> (bufs s)) (started b s).

Lemma idewait_Ok s e : ide_ready s -> idewait e s = Ok 0 s.
Proof.
  intros [H1 H2]. unfold idewait, bind, gets. rewrite H1, H2. simpl.
  by rewrite andb_false_r.
Qed.

Lemma idestart_Ok s i b :
  bufs s !! i = Some b -> in_range b -> ide_ready s -> idestart i s = Ok tt (started b s).
Proof.
  intros Hb Hr Hs. unfold idestart. mstep.
  destruct (Z.leb_spec FSSIZE (b_blockno b)) as [Hle|_]; [unfold in_range in Hr; lia|].
  change (BSIZE / SECTOR_SIZE) with 1. change (7 <? 1) with false. cbv beta zeta iota.
  erewrite bind_Ok by (by apply idewait_Ok).
  rewrite Z.mul_1_r, ide_address_ports by (unfold in_range in Hr; klia).
  unfold started, b_sector. mstep. by destruct (flag B_DIRTY b).
Qed.

(** The queue holds distinct buffers with requests the disk can serve. *)
Definition queue_ok (s : bio) : Prop :=
  NoDup (idequeue s) /\
  forall j, j ∈ idequeue s -> exists b, bufs s !! j = Some b /\ in_range b.

(** One interrupt: the head of the queue is completed and the next request is
    started; no other buffer changes. *)
Lemma ideintr_Ok s i q b :
  idequeue s = i :: q -> bufs s !! i = Some b -> ide_ready s -> queue_ok s ->
  let s1 := set_bufs (<[i := completed (disk_get (disk s) (ide_sel s)) b]> (bufs s))
                     (set_queue q s) in
  ideintr s = Ok tt (match q with
                     | [] => s1
                     | j :: _ => match bufs s !! j with
                                 | Some b' => started b' s1
                                 | None => s1
                                 end
                     end).
Proof.
  intros Hq Hb Hs Hok s1. unfold ideintr. mstep. rewrite Hq. mstep.
  set (s0 := set_queue q s). assert (Hb0 : bufs s0 !! i = Some b) by done.
  assert (Hlt : (i < length (bufs s))%nat) by (by eapply lookup_lt_Some).
  mstep. set (b' := if flag B_DIRTY b then b else b_set_data (disk_get (disk s) (ide_sel s)) b).
  assert (Hread : (if negb (flag B_DIRTY b)
      then let! r := idewait true in
           if 0 <=? r
           then let! s2 := gets id in upd_buf i (b_set_data (disk_get (disk s2) (ide_sel s2)))
           else ret tt else ret tt) s0 = Ok tt (set_bufs (<[i:=b']> (bufs s)) s0)).
  { unfold b'. destruct (flag B_DIRTY b); cbn [negb].
    - unfold ret. rewrite list_insert_id by done. by destruct s.
    - erewrite bind_Ok by (by apply idewait_Ok). cbn [Z.leb Z.compare]. mstep.
      by rewrite (upd_buf_Ok _ _ _ _ Hb0). }
  erewrite bind_Ok by apply Hread. cbv beta.
  erewrite bind_Ok by (apply upd_buf_Ok; cbn; by rewrite list_lookup_insert_eq).
  erewrite bind_Ok by (apply upd_buf_Ok; cbn; rewrite list_lookup_insert_eq; [done|];
                       by rewrite length_insert).
  cbn [bufs set_bufs]. rewrite !list_insert_insert_eq.
  destruct q as [|j q]; [done|].
  destruct Hok as [Hnd Hok]. rewrite Hq in Hnd, Hok.
  destruct (Hok j) as (bj & Hj & Hr); [set_solver|]. rewrite Hj.
  assert (i <> j) by (apply NoDup_cons in Hnd; set_solver).
  apply idestart_Ok; [|done|done]. cbn. by rewrite list_lookup_insert_ne.
Qed.

(** A request made while the disk is idle. *)
Lemma iderw_Ok s i b :
  idequeue s = [] -> ide_ready s -> bufs s !! i = Some b ->
  flag B_BUSY b = true -> flag B_VALID b && negb (flag B_DIRTY b) = false ->
  in_range b -> (b_dev b = 0 \/ havedisk1 s = true) ->
  iderw i s = Ok tt (after_rw i b s).
Proof.
  intros Hq Hs Hb Hbusy Hsync Hr Hdev. unfold iderw.
  assert (Hsub : iderw_submit i s = Ok tt (started b (set_queue [i] s))).
  { unfold iderw_submit. mstep. rewrite Hbusy. cbn [negb]. rewrite synced_flags, Hsync.
    mstep. replace (_ && _) with false.
    2: { destruct Hdev as [->| ->]; [done|by rewrite andb_false_r]. }
    mstep. rewrite Hq. mstep. by apply idestart_Ok. }
  erewrite bind_Ok by apply Hsub. cbv beta. mstep.
  replace (idequeue (started b (set_queue [i] s))) with [i]
    by (unfold started; by destruct (flag B_DIRTY b)).
  cbn [length iderw_wait].
  assert (Hb' : bufs (started b (set_queue [i] s)) !! i = Some b)
    by (unfold started; by destruct (flag B_DIRTY b)).
  mstep. rewrite synced_flags, Hsync.
  assert (Hlt : (i < length (bufs s))%nat) by (by eapply lookup_lt_Some).
  assert (Hint : ideintr (started b (set_queue [i] s)) = Ok tt (after_rw i b s)).
  { rewrite (ideintr_Ok _ i [] b); try done.
    - f_equal. unfold after_rw, completed, started. 
      destruct s, (flag B_DIRTY b); simpl in *; by subst.
    - unfold started; by destruct (flag B_DIRTY b).
    - unfold started; by destruct (flag B_DIRTY b).
    - split.
      + unfold started; destruct (flag B_DIRTY b); simpl; apply NoDup_singleton.
      + intros j Hj. exists b. replace j with i; [by split|].
        unfold started in Hj; destruct (flag B_DIRTY b); simpl in Hj; set_solver. }
  erewrite bind_Ok by apply Hint. cbv beta.
  assert (Hb2 : bufs (after_rw i b s) !! i =
                Some (completed (disk_get (disk s) (b_sector b)) b)).
  { unfold after_rw. cbn. by rewrite list_lookup_insert_eq. }
  mstep. rewrite synced_flags. unfold completed. by flags.
Qed.

(** ** A request made while others are queued *)

Definition synced (b : buf) : bool := flag B_VALID b && negb (flag B_DIRTY b).

(** The sector write the request queued for the buffer at [j] makes. *)
Definition write_of (l : list buf) (j : nat) : list (sector * list Z) :=
  match l !! j with
  | Some b => if flag B_DIRTY b then [(b_sector b, b_data b)] else []
  | None => []
  end.

Lemma synced_completed d b : synced (completed d b) = true.
Proof. unfold synced, completed. by flags. Qed.

Lemma bufs_started b s : bufs (started b s) = bufs s.
Proof. unfold started. by destruct (flag B_DIRTY b). Qed.
Lemma queue_started b s : idequeue (started b s) = idequeue s.
Proof. unfold started. by destruct (flag B_DIRTY b). Qed.
Lemma ready_started b s : ide_ready (started b s) <-> ide_ready s.
Proof. unfold started. by destruct (flag B_DIRTY b). Qed.
Lemma writes_started s j b :
  bufs s !! j = Some b -> disk_writes (started b s) = disk_writes s ++ write_of (bufs s) j.
Proof.
  intros H. unfold started, write_of. rewrite H.
  destruct (flag B_DIRTY b); [done|by rewrite app_nil_r].
Qed.

Lemma write_of_ne l a b j : j <> a -> write_of (<[a := b]> l) j = write_of l j.
Proof. intros. unfold write_of. by rewrite list_lookup_insert_ne. Qed.

(** What a queue of requests amounts to: each in turn writes its sector, or fills
    its buffer from it. *)
Definition serve (st : list buf * gmap sector (list Z)) (j : nat) : list buf * gmap sector (list Z) :=
  let '(l, d) := st in
  match l !! j with
  | Some b =>
      let d := if flag B_DIRTY b then <[b_sector b := b_data b]> d else d in
      (<[j := completed (disk_get d (b_sector b)) b]> l, d)
  | None => st
  end.

(** The driver between two steps: the queue holds distinct buffers with requests
    the disk can serve, and the request at its head is started. *)
Record driver_ok (s : bio) : Prop := {
  dr_ready : ide_ready s;
  dr_nodup : NoDup (idequeue s);
  dr_queued : forall j, j ∈ idequeue s -> exists b, bufs s !! j = Some b /\ in_range b /\ synced b = false;
  dr_active : forall j q b, idequeue s = j :: q -> bufs s !! j = Some b ->
    ide_sel s = b_sector b /\ (flag B_DIRTY b = true -> disk s !! b_sector b = Some (b_data b))
}.

Lemma driver_queue_ok s : driver_ok s -> queue_ok s.
Proof. intros D. split; [apply D|]. intros j Hj. destruct (dr_queued _ D j Hj) as (b & ? & ? & _). eauto. Qed.

Lemma disk_get_written d c x : disk_get (<[c := x]> d) c = x.
Proof. unfold disk_get. by rewrite lookup_insert_eq. Qed.

(** Serving the request at the head, which is started already. *)
Lemma serve_active s j q b : driver_ok s -> idequeue s = j :: q -> bufs s !! j = Some b ->
  serve (bufs s, disk s) j = (<[j := completed (disk_get (disk s) (ide_sel s)) b]> (bufs s), disk s).
Proof.
  intros D Hq Hb. destruct (dr_active _ D j q b Hq Hb) as [-> Hd]. unfold serve. rewrite Hb.
  destruct (flag B_DIRTY b) eqn:E; [|done]. by rewrite insert_id by auto.
Qed.

(** Starting a request early does not change what serving it does. *)
Lemma serve_started s j b : bufs s !! j = Some b -> serve (bufs s, disk (started b s)) j = serve (bufs s, disk s) j.
Proof.
  intros Hb. unfold serve, started. rewrite Hb. destruct (flag B_DIRTY b) eqn:E; [|done]. cbn. by rewrite insert_insert_eq.
Qed.

Lemma driver_started s s' j q b : bufs s' !! j = Some b -> idequeue s' = j :: q -> ide_ready s' -> NoDup (j :: q) ->
  (forall k, k ∈ j :: q -> exists b, bufs s' !! k = Some b /\ in_range b /\ synced b = false) ->
  s = started b s' -> driver_ok s.
Proof.
  intros Hb Hq Hr Hnd Hall ->. constructor.
  - by rewrite ready_started.
  - by rewrite queue_started, Hq.
  - rewrite queue_started, bufs_started, Hq. done.
  - rewrite queue_started, bufs_started, Hq. intros k q' bk [= <- <-] Hk. rewrite Hb in Hk. injection Hk as <-.
    unfold started. destruct (flag B_DIRTY b); cbn; [|done]. split; [done|]. intros _. apply lookup_insert_eq.
Qed.

(** An interrupt completes the request at the head and starts the next. *)
Lemma ideintr_serves s a q : driver_ok s -> idequeue s = a :: q ->
  exists s', ideintr s = Ok tt s' /\ driver_ok s' /\ idequeue s' = q /\
    bufs s' = fst (serve (bufs s, disk s) a) /\
    foldl serve (bufs s', disk s') q = foldl serve (bufs s, disk s) (a :: q) /\
    disk_writes s' = disk_writes s ++ match q with [] => [] | j :: _ => write_of (bufs s) j end.
Proof.
  intros D Hq. pose proof (dr_nodup _ D) as Hnd. pose proof (dr_queued _ D) as Hall. rewrite Hq in Hnd, Hall.
  destruct (Hall a) as (b & Hb & Hr & _); [set_solver|]. apply NoDup_cons in Hnd as [Ha Hnd].
  pose proof (ideintr_Ok s a q b Hq Hb (dr_ready _ D) (driver_queue_ok _ D)) as Hi. cbv zeta in Hi.
  cbn [foldl]. rewrite (serve_active s a q b D Hq Hb). cbn [fst].
  set (b' := completed (disk_get (disk s) (ide_sel s)) b) in *.
  set (s1 := set_bufs (<[a := b']> (bufs s)) (set_queue q s)) in *.
  assert (Hq1 : forall k, k ∈ q -> exists b, bufs s1 !! k = Some b /\ in_range b /\ synced b = false).
  { intros k Hk. unfold s1. cbn. rewrite list_lookup_insert_ne by set_solver. apply Hall. set_solver. }
  destruct q as [|j q].
  - exists s1. split_and!; try done; [|cbn; by rewrite app_nil_r].
    constructor; [apply D|done|exact Hq1|]. intros k q' bk Hk. discriminate Hk.
  - destruct (Hall j) as (bj & Hj & Hrj & Hsj); [set_solver|]. rewrite Hj in Hi.
    assert (Hj1 : bufs s1 !! j = Some bj) by (unfold s1; cbn; rewrite list_lookup_insert_ne; [done|set_solver]).
    exists (started bj s1). split_and!.
    + exact Hi.
    + by apply (driver_started _ s1 j q bj); [|done|apply D|done|exact Hq1|done].
    + apply queue_started.
    + apply bufs_started.
    + cbn [foldl]. rewrite bufs_started, (serve_started s1 j bj Hj1). done.
    + rewrite (writes_started _ j) by exact Hj1. unfold s1. cbn. rewrite write_of_ne; [done|set_solver].
Qed.

Lemma serve_lookup_ne st j k : j <> k -> fst (serve st j) !! k = fst st !! k.
Proof. intros Hn. destruct st as [l d]. unfold serve. destruct (l !! j); [|done]. cbn. by rewrite list_lookup_insert_ne. Qed.

Lemma foldl_serve_ne q : forall st k, k ∉ q -> fst (foldl serve st q) !! k = fst st !! k.
Proof.
  induction q as [|j q IH]; intros st k Hk; [done|]. apply not_elem_of_cons in Hk as [Hj Hk]. cbn [foldl].
  rewrite IH by done. by apply serve_lookup_ne.
Qed.

(** The queue is served in order, down to and including the request at its end. *)
Lemma iderw_wait_drain q : forall s i, driver_ok s -> idequeue s = q ++ [i] ->
  exists s', iderw_wait (length (q ++ [i])) i s = Ok tt s' /\ driver_ok s' /\ idequeue s' = [] /\
    (bufs s', disk s') = foldl serve (bufs s, disk s) (q ++ [i]) /\
    disk_writes s' = disk_writes s ++ mjoin (write_of (bufs s) <$> tail (q ++ [i])).
Proof.
  induction q as [|a q IH]; intros s i D Hq; cbn [app] in *.
  - destruct (ideintr_serves s i [] D Hq) as (s' & Hi & D' & Hq' & Hb' & Hf & Hw).
    destruct (dr_queued _ D i) as (b & Hb & _ & Hs); [rewrite Hq; left|].
    exists s'. cbn [length iderw_wait tail fmap list_fmap mjoin list_join]. split_and!; try done.
    mstep. rewrite synced_flags. fold (synced b). rewrite Hs. rewrite (bind_Ok _ _ _ _ _ Hi). cbv beta.
    rewrite (serve_active s i [] b D Hq Hb) in Hb'. cbn [fst] in Hb'.
    erewrite bind_Ok by (apply get_buf_Ok; rewrite Hb'; apply list_lookup_insert_eq; by eapply lookup_lt_Some).
    cbv beta. rewrite synced_flags. fold (synced (completed (disk_get (disk s) (ide_sel s)) b)). by rewrite synced_completed.
  - destruct (ideintr_serves s a (q ++ [i]) D Hq) as (s1 & Hi & D1 & Hq1 & Hb1 & Hf & Hw).
    pose proof (dr_nodup _ D) as Hnd. rewrite Hq in Hnd. apply NoDup_cons in Hnd as [Ha Hnd].
    destruct (dr_queued _ D i) as (b & Hb & _ & Hs); [rewrite Hq; set_solver|].
    destruct (IH s1 i D1 Hq1) as (s' & Hrun & D' & Hq' & Hf' & Hw').
    exists s'. cbn [length iderw_wait tail]. split_and!; try done.
    + mstep. rewrite synced_flags. fold (synced b). rewrite Hs. by rewrite (bind_Ok _ _ _ _ _ Hi).
    + by rewrite Hf', Hf.
    + rewrite Hw', Hw, <- app_assoc. f_equal.
      assert (E : forall j, j ∈ q ++ [i] -> write_of (bufs s1) j = write_of (bufs s) j).
      { intros j Hj. unfold write_of. rewrite Hb1. rewrite (serve_lookup_ne (bufs s, disk s)); [done|]. set_solver. }
      destruct q as [|c q]; cbn [app tail fmap list_fmap mjoin list_join]; [by rewrite app_nil_r|].
      f_equal. f_equal. apply list_fmap_ext. intros k j Hj. apply E. right. by eapply list_elem_of_lookup_2.
Qed.

Lemma b_clear_unset b : flag B_DIRTY b = false -> b_clear B_DIRTY b = b.
Proof.
  change B_DIRTY with (2 ^ 2). rewrite flag_testbit by done. intros H.
  unfold b_clear, b_set_flags. cbn [b_flags b_dev b_blockno b_prev b_next b_data]. destruct b as [f ? ? ? ? ?]. cbn [b_flags] in *. f_equal.
  apply Z.bits_inj'. intros n Hn. rewrite Z.ldiff_spec.
  destruct (decide (n = 2)) as [->|]; [by rewrite H|].
  rewrite Z.pow2_bits_false by done. apply andb_true_r.
Qed.

Lemma ldiff_lor_comm f :
  Z.ldiff (Z.lor f B_VALID) B_DIRTY = Z.lor (Z.ldiff f B_DIRTY) B_VALID.
Proof.
  apply Z.bits_inj'. intros n Hn. rewrite Z.ldiff_spec, !Z.lor_spec, Z.ldiff_spec.
  change B_VALID with (2 ^ 1). change B_DIRTY with (2 ^ 2).
  destruct (decide (n = 1)) as [->|]; [by rewrite !orb_true_r|].
  rewrite (Z.pow2_bits_false 1) by done. by rewrite !orb_false_r.
Qed.

Lemma iderw_submit_Ok s i b :
  ide_ready s -> i ∉ idequeue s -> bufs s !! i = Some b -> flag B_BUSY b = true ->
  synced b = false -> in_range b -> (b_dev b = 0 \/ havedisk1 s = true) ->
  iderw_submit i s =
    Ok tt (match idequeue s with
           | [] => started b (set_queue [i] s)
           | q => set_queue (q ++ [i]) s
           end).
Proof.
  intros Hs Hi Hb Hbusy Hsync Hr Hdev. unfold iderw_submit. mstep. rewrite Hbusy. cbn [negb].
  rewrite synced_flags. fold (synced b). rewrite Hsync. mstep. replace (_ && _) with false.
  2: { destruct Hdev as [->| ->]; [done|by rewrite andb_false_r]. }
  mstep. destruct (idequeue s) as [|j q] eqn:Hq; mstep.
  - by apply idestart_Ok.
  - destruct (Nat.eqb_spec j i) as [->|]; [set_solver|done].
Qed.

(** ** Properties *)

(** A driver with nothing to do. *)
Lemma driver_idle s : ide_ready s -> idequeue s = [] -> driver_ok s.
Proof.
  intros Hr Hq. constructor; [done|rewrite Hq; constructor|rewrite Hq; set_solver|]. intros j q b. by rewrite Hq.
Qed.

(** C20: [iderw] syncs the buffer, whatever is queued ahead of it.  From a state of
    the driver between two steps (the disk ready and without errors, distinct
    buffers with requests pending in the queue, the first of them started),
    [iderw] of a locked buffer that needs syncing, not queued and for a block and
    disk that exist returns.  Then the queue is empty, and all buffers and the
    disk are as if the requests had been served one after the other in the order
    of the queue: each that was dirty has its data written to its sector, each
    other one holds what its sector contained at that point.  In particular the
    buffer is valid and clean, its data are those of its sector on disk, and they
    are its own if it was dirty.  The sector writes still to be made were made in
    the order of the queue. *)
Theorem iderw_serves_in_order s i b :
  driver_ok s -> i ∉ idequeue s -> bufs s !! i = Some b -> flag B_BUSY b = true -> synced b = false ->
  in_range b -> (b_dev b = 0 \/ havedisk1 s = true) ->
  exists s' b', iderw i s = Ok tt s' /\ driver_ok s' /\ idequeue s' = [] /\
    (bufs s', disk s') = foldl serve (bufs s, disk s) (idequeue s ++ [i]) /\
    bufs s' !! i = Some b' /\ synced b' = true /\ b_data b' = disk_get (disk s') (b_sector b) /\
    (flag B_DIRTY b = true -> b_data b' = b_data b) /\
    disk_writes s' = disk_writes s ++
      mjoin (write_of (bufs s) <$> match idequeue s with [] => [i] | _ :: q => q ++ [i] end).
Proof.
  intros D Hi Hb Hbusy Hsync Hr Hdev. pose proof (dr_ready _ D) as Hs. unfold iderw.
  erewrite bind_Ok by (by apply iderw_submit_Ok). cbv beta. mstep.
  set (s1 := match idequeue s with [] => started b (set_queue [i] s) | _ => _ end).
  assert (Hall : forall j, j ∈ idequeue s ++ [i] -> exists b, bufs s !! j = Some b /\ in_range b /\ synced b = false).
  { intros j [Hj|Hj]%elem_of_app; [by apply D|]. apply list_elem_of_singleton in Hj as ->. eauto. }
  assert (H1 : driver_ok s1 /\ idequeue s1 = idequeue s ++ [i] /\ bufs s1 = bufs s /\
    foldl serve (bufs s1, disk s1) (idequeue s ++ [i]) = foldl serve (bufs s, disk s) (idequeue s ++ [i]) /\
    disk_writes s1 = disk_writes s ++ match idequeue s with [] => write_of (bufs s) i | _ => [] end).
  { unfold s1. destruct (idequeue s) as [|j q] eqn:Hq.
    - rewrite queue_started, bufs_started. split_and!; try done.
      + apply (driver_started _ (set_queue [i] s) i [] b); try done. apply NoDup_singleton.
      + cbn [app foldl]. change (bufs s) with (bufs (set_queue [i] s)). by rewrite serve_started.
      + by rewrite (writes_started _ i).
    - split_and!; try done; [|cbn; by rewrite app_nil_r]. constructor; cbn; [done| |done|].
      + rewrite app_comm_cons. apply NoDup_app. split_and!; [rewrite <- Hq; apply D|set_solver|apply NoDup_singleton].
      + intros k q' bk [= <- _]. by apply (dr_active _ D j q). }
  destruct H1 as (D1 & Hq1 & Hb1 & Hf1 & Hw1). rewrite Hq1.
  destruct (iderw_wait_drain (idequeue s) s1 i D1 Hq1) as (s' & Hrun & D' & Hq' & Hf & Hw).
  rewrite Hf1 in Hf. assert (Hlast : exists b', bufs s' !! i = Some b' /\ synced b' = true /\
    b_data b' = disk_get (disk s') (b_sector b) /\ (flag B_DIRTY b = true -> b_data b' = b_data b)).
  { revert Hf. rewrite foldl_app. cbn [foldl]. pose proof (foldl_serve_ne (idequeue s) (bufs s, disk s) i Hi) as Hn.
    destruct (foldl serve (bufs s, disk s) (idequeue s)) as [l d]. cbn [fst] in Hn. unfold serve. rewrite Hn, Hb.
    intros [= -> ->]. eexists. rewrite list_lookup_insert_eq by (rewrite Hb in Hn; by eapply lookup_lt_Some).
    split; [done|]. split; [apply synced_completed|]. unfold completed. destruct (flag B_DIRTY b); cbn; [|done].
    by rewrite disk_get_written. }
  destruct Hlast as (b' & ? & ? & ? & ?). exists s', b'. split_and!; try done.
  rewrite Hw, Hw1, Hb1. destruct (idequeue s) as [|j q]; cbn [app tail fmap list_fmap mjoin list_join];
    by rewrite ?app_nil_r.
Qed.

Definition demo_buf (f blk x : Z) : buf := Buf f 1 blk 0 0 (repeat x 512).
(** A write of block 7, which is started, a write of block 9, and a read of
    block 7. *)
Definition demo_ide : bio :=
  Bio [demo_buf 5 7 3; demo_buf 5 9 4; demo_buf 1 7 0] 0 ∅ [0; 1]%nat true IDE_DRDY (1, 7)
    {[(1, 7) := repeat 3 512]} [((1, 7), repeat 3 512)].

Lemma iderw_serves_in_order_witness :
  exists s', iderw 2 demo_ide = Ok tt s' /\ idequeue s' = [] /\
    b_data <$> bufs s' !! 2%nat = Some (repeat 3 512) /\ disk s' !! (1, 9) = Some (repeat 4 512).
Proof.
  destruct (iderw_serves_in_order demo_ide 2 (demo_buf 1 7 0)) as (s' & b' & H1 & _ & H2 & Hf & _).
  - constructor.
    + split; reflexivity.
    + repeat constructor; set_solver.
    + intros j Hj. assert (j = 0 \/ j = 1)%nat as [-> | ->] by (cbn in Hj; set_solver);
        eexists; (split; [reflexivity|]); unfold in_range; cbn; (split; [klia|reflexivity]).
    + intros j q b [= <- <-] [= <-]. split; [reflexivity|]. intros _. reflexivity.
  - cbn. set_solver.
  - reflexivity.
  - reflexivity.
  - reflexivity.
  - unfold in_range; cbn; klia.
  - by right.
  - exists s'. split; [exact H1|]. split; [exact H2|].
    pose proof (f_equal fst Hf) as Hl. pose proof (f_equal snd Hf) as Hd. cbn [fst snd] in Hl, Hd. rewrite Hl, Hd.
    split; vm_compute; reflexivity.
Defined.

(** The IDE driver and the memory disk implement the same contract: on an
    idle, ready disk 1 large enough for the image, [ide.c]'s [iderw] and
    [memide.c]'s leave every buffer, the disk and the sequence of sector writes
    the same, whatever the flags of the buffer; and both panic on a buffer that
    is not locked or has nothing to sync. *)
Lemma ide_memide_agree s i b :
  idequeue s = [] -> ide_ready s -> havedisk1 s = true -> bufs s !! i = Some b ->
  b_dev b = 1 -> in_range b ->
  match iderw i s, memide_rw FSSIZE i s with
  | Ok _ s1, Ok _ s2 =>
      bufs s1 = bufs s2 /\ disk s1 = disk s2 /\ disk_writes s1 = disk_writes s2 /\
      flag B_BUSY b = true /\ synced b = false
  | Stop r1 _, Stop r2 _ => r1 = r2 /\ (flag B_BUSY b = false \/ synced b = true)
  | _, _ => False
  end.
Proof.
  intros Hq Hs Hh Hb Hdev Hr. unfold memide_rw. mstep.
  destruct (flag B_BUSY b) eqn:Hbusy; cbn [negb].
  2: { unfold iderw, iderw_submit. unfold bind at 1. mstep. rewrite Hbusy. cbn. auto. }
  rewrite synced_flags. fold (synced b). destruct (synced b) eqn:Hsync.
  { unfold iderw, iderw_submit. unfold bind at 1. mstep. rewrite Hbusy, synced_flags.
    fold (synced b). rewrite Hsync. cbn. auto. }
  rewrite (iderw_Ok s i b) by auto.
  rewrite Hdev. change (negb (1 =? 1)) with false. cbv iota.
  destruct (Z.leb_spec FSSIZE (b_blockno b)) as [|_]; [unfold in_range in Hr; lia|].
  cbv iota zeta. unfold after_rw, started, completed, b_sector. rewrite Hdev.
  change (Z.land 1 1) with 1.
  assert (Hlt : (i < length (bufs s))%nat) by (by eapply lookup_lt_Some).
  destruct (flag B_DIRTY b) eqn:Hd.
  - erewrite bind_Ok; [|by rewrite (bind_Ok _ _ _ _ _ (upd_buf_Ok _ _ _ _ Hb))].
    rewrite (upd_buf_Ok _ i (b_clear B_DIRTY b)) by (cbn; by rewrite list_lookup_insert_eq).
    cbn. rewrite list_insert_insert_eq. split_and!; try done.
    f_equal. unfold b_clear, b_or, b_set_flags. cbn. f_equal.
    by rewrite ldiff_lor_comm.
  - erewrite bind_Ok; [|mstep; by rewrite (upd_buf_Ok _ _ _ _ Hb)].
    rewrite (upd_buf_Ok _ i (b_set_data (disk_get (disk s) (1, b_blockno b)) b))
      by (cbn; by rewrite list_lookup_insert_eq).
    cbn [bufs disk disk_writes set_bufs set_sel set_disk]. rewrite list_insert_insert_eq.
    rewrite b_clear_unset by (by flags). by split_and!.
Qed.

Lemma ide_memide_agree_witness :
  exists s1 s2, iderw 1 (set_queue [] demo_ide) = Ok tt s1 /\ memide_rw FSSIZE 1 (set_queue [] demo_ide) = Ok tt s2 /\ disk s1 = disk s2.
Proof.
  pose proof (ide_memide_agree (set_queue [] demo_ide) 1 (demo_buf 5 9 4)) as H.
  specialize (H eq_refl (conj eq_refl eq_refl) eq_refl eq_refl eq_refl).
  assert (Hr : in_range (demo_buf 5 9 4)) by (unfold in_range; cbn; klia).
  specialize (H Hr).
  destruct (iderw 1 _) as [[] s1|r1 s1] eqn:E1, (memide_rw _ 1 _) as [[] s2|r2 s2] eqn:E2;
    try done.
  exists s1, s2. split_and!; try done; apply H.
Defined.
