(* ===== verification/Bio.v ===== *)
(** * Bio: the buffer cache (bio.c)

    The cache is the array of buffers and the doubly linked list threaded
    through their [prev]/[next] pointers, headed by the buffer at index [HEAD],
    plus the hash table from block numbers to buffers.  The functions follow
    the source pointer by pointer.  The proofs relate the pointers to the list
    of buffers they thread ([path]), the hash table to the set of cached blocks
    ([cached]), and the cache and the disk together to the one block device a
    client sees ([view]).

    A call that would [sleep] on a busy buffer is the outcome
    [Stop (Sleep (ChBuf i))]; the caller retries from [loop:] when woken. *)

From S2P Require Import Prelude Layout Ide.
Open Scope Z_scope.
Open Scope xv6_scope.

(** [&bcache.head]. *)
Definition HEAD : nat := 30.

(** ** bio.c *)

Definition hash_func (blockno : Z) : M bio Z :=
  let! c := gets capacity in
  if c =? 0 then halt (Undefined "division by zero") else ret (blockno mod c).

(** [HASHSIZE] entries, all [NULL]. *)
Definition initHash : M bio unit := modify (set_hash HASHSIZE ∅).

Definition blookup (dev blockno : Z) : M bio (option nat) :=
  let! bval := hash_func blockno in
  let! h := gets htable in
  match h !! bval with
  | None => ret None
  | Some i =>
      let! b := get_buf i in
      if (b_dev b =? dev) && (b_blockno b =? blockno) then ret (Some i) else ret None
  end.

Definition binit_link (b : nat) : M bio unit :=
  let! h := get_buf HEAD in
  upd_buf b (b_set_next (b_next h)) ;;;
  upd_buf b (b_set_prev HEAD) ;;;
  upd_buf b (fun x => b_set_id (u32 (-1)) (b_blockno x) (b_flags x) x) ;;;
  let! h := get_buf HEAD in
  upd_buf (b_next h) (b_set_prev b) ;;;
  upd_buf HEAD (b_set_next b).

Definition binit : M bio unit :=
  initHash ;;;
  upd_buf HEAD (b_set_prev HEAD) ;;;
  upd_buf HEAD (b_set_next HEAD) ;;;
  for_each (seq 0 (Z.to_nat NBUF)) binit_link.

(** The search for a buffer to recycle, from [p] along the [next] pointers. *)
Fixpoint bget_scan (fuel : nat) (p : nat) (dev blockno : Z) : M bio nat :=
  if Nat.eqb p HEAD then panic "bget: no buffers" else
  match fuel with
  | O => halt OutOfFuel
  | S fuel =>
      let! b := get_buf p in
      if (Z.land (b_flags b) B_BUSY =? 0) && (Z.land (b_flags b) B_DIRTY =? 0) then
        upd_buf p (b_set_id dev blockno B_BUSY) ;;;
        let! h := hash_func blockno in
        modify (fun s => set_hash (capacity s) (<[h := p]> (htable s)) s) ;;;
        ret p
      else bget_scan fuel (b_next b) dev blockno
  end.

Definition bget (dev blockno : Z) : M bio nat :=
  let! r := blookup dev blockno in
  match r with
  | Some i =>
      let! b := get_buf i in
      if flag B_BUSY b then halt (Sleep (ChBuf i))
      else upd_buf i (b_or B_BUSY) ;;; ret i
  | None =>
      let! h := get_buf HEAD in
      bget_scan (Z.to_nat NBUF) (b_next h) dev blockno
  end.

Definition bread (dev blockno : Z) : M bio nat :=
  let! i := bget dev blockno in
  let! b := get_buf i in
  (if flag B_VALID b then ret tt else iderw i) ;;;
  ret i.

Definition bwrite (i : nat) : M bio unit :=
  let! b := get_buf i in
  if negb (flag B_BUSY b) then panic "bwrite" else
  upd_buf i (b_or B_DIRTY) ;;;
  iderw i.

(** Release the buffer at [i]: unlink it, relink it behind [HEAD]. *)
Definition brelse (i : nat) : M bio unit :=
  let! b := get_buf i in
  if negb (flag B_BUSY b) then panic "brelse" else
  upd_buf (b_next b) (b_set_prev (b_prev b)) ;;;
  let! b := get_buf i in
  upd_buf (b_prev b) (b_set_next (b_next b)) ;;;
  let! h := get_buf HEAD in
  upd_buf i (b_set_next (b_next h)) ;;;
  upd_buf i (b_set_prev HEAD) ;;;
  let! h := get_buf HEAD in
  upd_buf (b_next h) (b_set_prev i) ;;;
  upd_buf HEAD (b_set_next i) ;;;
  upd_buf i (b_clear B_BUSY).

(** [b->data], read and written by the holder of a buffer. *)
Definition bdata (i : nat) : M bio (list Z) :=
  let! b := get_buf i in ret (b_data b).
Definition bset (i : nat) (d : list Z) : M bio unit := upd_buf i (b_set_data d).

(** ** The linked list *)

Definition nx (bs : list buf) (x : nat) : option nat := b_next <$> bs !! x.
Definition pv (bs : list buf) (x : nat) : option nat := b_prev <$> bs !! x.

(** Each element of [l] points to its successor, and back. *)
Fixpoint path (bs : list buf) (l : list nat) : Prop :=
  match l with
  | x :: ((y :: _) as t) => nx bs x = Some y /\ pv bs y = Some x /\ path bs t
  | _ => True
  end.

(** The buffers from most to least recently released. *)
Definition lru (bs : list buf) (l : list nat) : Prop :=
  l ≡ₚ seq 0 (Z.to_nat NBUF) /\ path bs (HEAD :: l ++ [HEAD]).

Lemma path_app bs l1 x l2 :
  path bs (l1 ++ x :: l2) <-> path bs (l1 ++ [x]) /\ path bs (x :: l2).
Proof.
  induction l1 as [|a l1 IH]; cbn [app].
  - cbn. destruct l2; tauto.
  - destruct l1 as [|c l1]; cbn [app] in *.
    + cbn. destruct l2; tauto.
    + change (path bs (a :: c :: l1 ++ x :: l2)) with
        (nx bs a = Some c /\ pv bs c = Some a /\ path bs (c :: l1 ++ x :: l2)).
      change (path bs (a :: c :: l1 ++ [x])) with
        (nx bs a = Some c /\ pv bs c = Some a /\ path bs (c :: l1 ++ [x])).
      rewrite IH. tauto.
Qed.

Lemma path_frame bs bs' l :
  (forall x, x ∈ removelast l -> nx bs' x = nx bs x) ->
  (forall y, y ∈ tail l -> pv bs' y = pv bs y) ->
  path bs l -> path bs' l.
Proof.
  induction l as [|x l IH]; intros Hn Hp Hl; [done|].
  destruct l as [|y l]; [done|].
  change (removelast (x :: y :: l)) with (x :: removelast (y :: l)) in Hn.
  cbn [tail] in Hp. destruct Hl as (H1 & H2 & H3).
  change (path bs' (x :: y :: l)) with
    (nx bs' x = Some y /\ pv bs' y = Some x /\ path bs' (y :: l)).
  split_and!.
  - rewrite Hn; [done|set_solver].
  - rewrite Hp; [done|set_solver].
  - apply IH; [set_solver| |done]. intros z Hz. apply Hp. cbn in Hz. set_solver.
Qed.

Lemma elem_of_removelast {A} (x : A) (l : list A) : x ∈ removelast l -> x ∈ l.
Proof.
  induction l as [|y l IH]; [done|]. destruct l as [|z l]; [set_solver|].
  change (removelast (y :: z :: l)) with (y :: removelast (z :: l)). set_solver.
Qed.

(** A buffer without its links: what the list surgery leaves alone. *)
Definition body (b : buf) : buf := b_set_prev 0 (b_set_next 0 b).
Definition bodies (bs : list buf) : list buf := body <$> bs.

Lemma nx_next bs i y x :
  (i < length bs)%nat -> nx (alter (b_set_next y) i bs) x = if decide (x = i) then Some y else nx bs x.
Proof.
  intros Hi. unfold nx. case_decide as E.
  - subst. rewrite list_lookup_alter_eq. by destruct (lookup_lt_is_Some_2 bs i Hi) as [b ->].
  - by rewrite list_lookup_alter_ne.
Qed.

Lemma pv_prev bs i y x :
  (i < length bs)%nat -> pv (alter (b_set_prev y) i bs) x = if decide (x = i) then Some y else pv bs x.
Proof.
  intros Hi. unfold pv. case_decide as E.
  - subst. rewrite list_lookup_alter_eq. by destruct (lookup_lt_is_Some_2 bs i Hi) as [b ->].
  - by rewrite list_lookup_alter_ne.
Qed.

Lemma nx_alter bs i f x : (forall b, b_next (f b) = b_next b) -> nx (alter f i bs) x = nx bs x.
Proof.
  intros Hf. unfold nx. destruct (decide (x = i)) as [->|].
  - rewrite list_lookup_alter_eq. destruct (bs !! i); [|done]. cbn. by rewrite Hf.
  - by rewrite list_lookup_alter_ne.
Qed.

Lemma pv_alter bs i f x : (forall b, b_prev (f b) = b_prev b) -> pv (alter f i bs) x = pv bs x.
Proof.
  intros Hf. unfold pv. destruct (decide (x = i)) as [->|].
  - rewrite list_lookup_alter_eq. destruct (bs !! i); [|done]. cbn. by rewrite Hf.
  - by rewrite list_lookup_alter_ne.
Qed.

Lemma bodies_alter bs i f : (forall b, body (f b) = body b) -> bodies (alter f i bs) = bodies bs.
Proof.
  intros Hf. unfold bodies. apply list_eq. intros j. rewrite !list_lookup_fmap.
  destruct (decide (j = i)) as [->|].
  - rewrite list_lookup_alter_eq. destruct (bs !! i); [|done]. cbn. by rewrite Hf.
  - by rewrite list_lookup_alter_ne.
Qed.

Lemma bodies_alter_body bs i f :
  (forall b, body (f (body b)) = body (f b)) ->
  bodies (alter f i bs) = alter (fun x => body (f x)) i (bodies bs).
Proof.
  intros Hf. unfold bodies. apply list_eq. intros j.
  destruct (decide (j = i)) as [->|].
  - rewrite list_lookup_alter_eq, !list_lookup_fmap, list_lookup_alter_eq.
    destruct (bs !! i); [|done]. cbn. by rewrite Hf.
  - rewrite list_lookup_alter_ne, !list_lookup_fmap, list_lookup_alter_ne by done. done.
Qed.

Lemma upd_buf_alter s i f :
  (i < length (bufs s))%nat -> upd_buf i f s = Ok tt (set_bufs (alter f i (bufs s)) s).
Proof.
  intros Hi. destruct (lookup_lt_is_Some_2 (bufs s) i Hi) as [b Hb].
  rewrite (upd_buf_Ok _ _ _ _ Hb). do 2 f_equal. apply list_eq. intros j.
  destruct (decide (j = i)) as [->|].
  - rewrite list_lookup_insert_eq by done. rewrite list_lookup_alter_eq. by rewrite Hb.
  - by rewrite list_lookup_insert_ne, list_lookup_alter_ne.
Qed.

(** Unlinking the node between [p] and [n]. *)
Lemma path_remove bs A p i n C :
  (p < length bs)%nat -> (n < length bs)%nat ->
  p ∉ A -> p ∉ removelast (n :: C) -> n ∉ tail (A ++ [p]) -> n ∉ C ->
  path bs (A ++ p :: i :: n :: C) ->
  path (alter (b_set_next n) p (alter (b_set_prev p) n bs)) (A ++ p :: n :: C).
Proof.
  intros Hp Hn HpA HpC HnA HnC H.
  set (bs' := alter (b_set_next n) p (alter (b_set_prev p) n bs)).
  assert (Hnx : forall x, nx bs' x = if decide (x = p) then Some n else nx bs x).
  { intros x. unfold bs'. rewrite nx_next by (by rewrite length_alter).
    by rewrite nx_alter. }
  assert (Hpv : forall x, pv bs' x = if decide (x = n) then Some p else pv bs x).
  { intros x. unfold bs'. rewrite pv_alter by done. by rewrite pv_prev. }
  apply path_app in H as [HA H]. change (p :: i :: n :: C) with ([p; i] ++ n :: C) in H.
  apply path_app in H as [_ HC]. apply path_app. split.
  - eapply path_frame; [| |apply HA].
    + rewrite removelast_last. intros x Hx. rewrite Hnx, decide_False; set_solver.
    + intros y Hy. rewrite Hpv, decide_False; set_solver.
  - change (nx bs' p = Some n /\ pv bs' n = Some p /\ path bs' (n :: C)).
    rewrite Hnx, Hpv, !decide_True by done. split_and!; try done.
    eapply path_frame; [| |apply HC].
    + intros x Hx. rewrite Hnx, decide_False; set_solver.
    + intros y Hy. cbn in Hy. rewrite Hpv, decide_False; set_solver.
Qed.

(** Linking [i] between [h] and its successor [f]. *)
Lemma path_insert bs h i f C :
  (h < length bs)%nat -> (i < length bs)%nat -> (f < length bs)%nat ->
  h <> i -> h ∉ removelast (f :: C) -> i ∉ f :: C -> f ∉ C ->
  path bs (h :: f :: C) ->
  path (alter (b_set_next i) h (alter (b_set_prev i) f
       (alter (b_set_prev h) i (alter (b_set_next f) i bs)))) (h :: i :: f :: C).
Proof.
  intros Hh Hi Hf Hhi HhC HiC HfC H.
  set (bs' := alter _ h _).
  assert (Hnx : forall x, nx bs' x = if decide (x = h) then Some i else
                                     if decide (x = i) then Some f else nx bs x).
  { intros x. unfold bs'. rewrite nx_next by (by rewrite !length_alter). case_decide; [done|].
    rewrite !nx_alter by done. by rewrite nx_next. }
  assert (Hpv : forall x, pv bs' x = if decide (x = f) then Some i else
                                     if decide (x = i) then Some h else pv bs x).
  { intros x. unfold bs'. rewrite pv_alter by done. rewrite pv_prev by (by rewrite !length_alter).
    case_decide; [done|]. rewrite pv_prev by (by rewrite !length_alter).
    case_decide; [done|]. by rewrite pv_alter. }
  destruct H as (_ & _ & HC).
  change (nx bs' h = Some i /\ pv bs' i = Some h /\ nx bs' i = Some f /\
          pv bs' f = Some i /\ path bs' (f :: C)).
  rewrite !Hnx, !Hpv. split_and!.
  - by rewrite decide_True.
  - rewrite decide_False, decide_True; set_solver.
  - rewrite decide_False, decide_True; set_solver.
  - by rewrite decide_True.
  - eapply path_frame; [| |apply HC].
    + intros x Hx. assert (x ∈ f :: C) by (by apply elem_of_removelast).
      rewrite Hnx, !decide_False; set_solver.
    + intros y Hy. cbn in Hy. rewrite Hpv, !decide_False; set_solver.
Qed.

Lemma lru_NoDup bs l : lru bs l -> NoDup (HEAD :: l).
Proof.
  intros [Hl _]. rewrite Hl. apply NoDup_cons. split; [|apply NoDup_seq].
  rewrite elem_of_seq. unfold HEAD. change (Z.to_nat NBUF) with 30%nat. lia.
Qed.

Lemma lru_lt bs l i : lru bs l -> i ∈ l -> (i < 30)%nat.
Proof.
  intros [Hl _]. rewrite Hl, elem_of_seq. change (Z.to_nat NBUF) with 30%nat. lia.
Qed.

Lemma path_links bs A p i n C :
  path bs (A ++ p :: i :: n :: C) ->
  nx bs p = Some i /\ pv bs i = Some p /\ nx bs i = Some n /\ pv bs n = Some i.
Proof.
  intros H. apply path_app in H as [_ H]. cbn in H. tauto.
Qed.

Lemma get_buf_nx s i y :
  nx (bufs s) i = Some y -> exists b, get_buf i s = Ok b s /\ b_next b = y /\ bufs s !! i = Some b.
Proof.
  unfold nx. destruct (bufs s !! i) as [b|] eqn:E; [|done].
  intros [= <-]. exists b. split_and!; eauto with xv6.
Qed.

(** The ring [HEAD :: l ++ [HEAD]] seen from its first and its last link. *)
Lemma ring_last (l : list nat) : exists A p, (HEAD :: l) = A ++ [p] /\ tail (A ++ [p]) = l.
Proof.
  destruct (exists_last (l := HEAD :: l)) as (A & p & HA); [done|].
  exists A, p. split; [done|]. by rewrite <- HA.
Qed.

Lemma ring_first (l : list nat) :
  exists n C, l ++ [HEAD] = (n :: C) /\ removelast (n :: C) = l /\
    (NoDup (HEAD :: l) -> (n ∉ C) /\ (n = HEAD \/ n ∈ l)).
Proof.
  assert (exists n C, l ++ [HEAD] = (n :: C)) as (n & C & HC) by (destruct l; eauto).
  exists n, C. split_and!; [done|rewrite <- HC; apply removelast_last|].
  intros Hnd. apply NoDup_cons in Hnd as [Hh Hnd].
  destruct l as [|m l]; cbn in HC; injection HC as -> <-; [set_solver|].
  apply NoDup_cons in Hnd as [? ?]. set_solver.
Qed.

Lemma path_unlink bs l1 i l2 :
  NoDup (HEAD :: l1 ++ i :: l2) -> (forall x, x ∈ HEAD :: l1 ++ i :: l2 -> x < length bs)%nat ->
  path bs (HEAD :: (l1 ++ i :: l2) ++ [HEAD]) ->
  exists p n, pv bs i = Some p /\ nx bs i = Some n /\ n <> i /\
    (p < length bs)%nat /\ (n < length bs)%nat /\
    path (alter (b_set_next n) p (alter (b_set_prev p) n bs)) (HEAD :: (l1 ++ l2) ++ [HEAD]).
Proof.
  intros Hnd Hlt Hpath.
  destruct (ring_last l1) as (A & p & HA & HpA).
  destruct (ring_first l2) as (n & C & HC & HnC & Hn).
  rewrite <- app_assoc in Hpath |- *. cbn [app] in Hpath.
  rewrite app_comm_cons, HA, HC, <- app_assoc in Hpath |- *.
  assert (Hsub : forall x, x ∈ A ++ [p] <-> x = HEAD \/ x ∈ l1)
    by (intros x; rewrite <- HA; set_solver).
  apply NoDup_cons in Hnd as [Hh Hnd]. apply NoDup_app in Hnd as (Hnd1 & Hd & Hnd2).
  apply NoDup_cons in Hnd2 as [Hi2 Hnd2].
  destruct Hn as [HnC' Hn]; [apply NoDup_cons; set_solver|].
  assert (HpA' : p ∉ A).
  { assert (NoDup (A ++ [p])) as H by (rewrite <- HA; apply NoDup_cons; set_solver).
    apply NoDup_app in H. set_solver. }
  assert (Hp : p = HEAD \/ p ∈ l1) by (apply Hsub; set_solver).
  destruct (path_links _ _ _ _ _ _ Hpath) as (_ & Hpi & Hnn & _).
  exists p, n. split_and!; try done.
  - destruct Hn as [-> |Hn]; set_solver.
  - apply Hlt. destruct Hp; set_solver.
  - apply Hlt. destruct Hn; set_solver.
  - cbn [app]. apply path_remove with (i := i); try done.
    + apply Hlt. destruct Hp; set_solver.
    + apply Hlt. destruct Hn; set_solver.
    + rewrite HnC. destruct Hp; set_solver.
    + rewrite HpA. destruct Hn; set_solver.
Qed.

Lemma path_relink bs l i :
  NoDup (HEAD :: i :: l) -> (forall x, x ∈ HEAD :: i :: l -> x < length bs)%nat ->
  path bs (HEAD :: l ++ [HEAD]) ->
  exists f, nx bs HEAD = Some f /\ (f < length bs)%nat /\
    path (alter (b_set_next i) HEAD (alter (b_set_prev i) f
         (alter (b_set_prev HEAD) i (alter (b_set_next f) i bs)))) (HEAD :: i :: l ++ [HEAD]).
Proof.
  intros Hnd Hlt Hpath. destruct (ring_first l) as (f & D & HD & HfD & Hf).
  apply NoDup_cons in Hnd as [Hh Hnd]. apply NoDup_cons in Hnd as [Hi Hnd].
  destruct Hf as [HfD' Hf]; [apply NoDup_cons; set_solver|].
  assert (HiD : i ∉ f :: D) by (rewrite <- HD; set_solver).
  rewrite HD in *. pose proof Hpath as (Hhf & _ & _).
  assert (Hlf : (f < length bs)%nat) by (apply Hlt; destruct Hf; set_solver).
  exists f. split_and!; try done. apply path_insert; try done; try (apply Hlt; set_solver).
  - set_solver.
  - rewrite HfD. set_solver.
Qed.

(** [brelse] moves the buffer to the front of the list and clears [B_BUSY];
    nothing else changes. *)
Lemma brelse_links s i b l1 l2 :
  length (bufs s) = 31%nat -> lru (bufs s) (l1 ++ i :: l2) ->
  bufs s !! i = Some b -> flag B_BUSY b = true ->
  exists bs', brelse i s = Ok tt (set_bufs bs' s) /\ lru bs' (i :: l1 ++ l2) /\
    bodies bs' = alter (fun x => body (b_clear B_BUSY x)) i (bodies (bufs s)).
Proof.
  intros Hlen Hlru Hb Hbusy.
  pose proof (lru_NoDup _ _ Hlru) as Hnd.
  assert (Hlt : forall x, x ∈ HEAD :: l1 ++ i :: l2 -> (x < 31)%nat).
  { intros x Hx. apply elem_of_cons in Hx as [->|Hx]; [unfold HEAD; lia|].
    pose proof (lru_lt _ _ _ Hlru Hx). lia. }
  destruct Hlru as [Hperm Hpath].
  destruct (path_unlink (bufs s) l1 i l2) as (p & n & Hpi & Hnn & Hni & Hp & Hn & Hrem);
    [done|by rewrite Hlen|done|].
  rewrite <- Permutation_middle in Hnd. rewrite Hlen in Hp, Hn.
  assert (Hlt' : forall x, x ∈ HEAD :: i :: l1 ++ l2 -> (x < 31)%nat) by (intros; apply Hlt; set_solver).
  assert (Hi : (i < 31)%nat) by (apply Hlt; set_solver).
  assert (HiH : i <> HEAD) by (apply NoDup_cons in Hnd; set_solver).
  assert (Hbn : b_next b = n) by (unfold nx in Hnn; rewrite Hb in Hnn; by injection Hnn).
  assert (Hbp : b_prev b = p) by (unfold pv in Hpi; rewrite Hb in Hpi; by injection Hpi).
  unfold brelse. mstep. rewrite Hbusy, Hbn, Hbp. cbn [negb].
  erewrite bind_Ok by (apply upd_buf_alter; lia). cbv beta.
  erewrite bind_Ok by (apply get_buf_Ok; cbn; rewrite list_lookup_alter_ne by done; apply Hb).
  cbv beta. rewrite Hbn, Hbp.
  erewrite bind_Ok by (apply upd_buf_alter; cbn; rewrite length_alter; lia).
  cbn [bufs set_bufs]. cbv beta. set (bs2 := alter (b_set_next n) p _) in *.
  assert (Hlen2 : length bs2 = 31%nat) by (unfold bs2; by rewrite !length_alter).
  destruct (path_relink bs2 (l1 ++ l2) i) as (f & Hhf & Hf & Hins);
    [done|by rewrite Hlen2|done|].
  rewrite Hlen2 in Hf.
  destruct (get_buf_nx (set_bufs bs2 s) HEAD f Hhf) as (h2 & Hh2 & Hh2n & _).
  rewrite (bind_Ok _ _ _ _ _ Hh2). cbv beta. rewrite Hh2n.
  erewrite bind_Ok by (apply upd_buf_alter; cbn; lia). cbv beta.
  erewrite bind_Ok by (apply upd_buf_alter; cbn; rewrite length_alter; lia).
  cbn [bufs set_bufs]. cbv beta. set (bs4 := alter (b_set_prev HEAD) i _) in *.
  assert (Hlen4 : length bs4 = 31%nat) by (unfold bs4; by rewrite !length_alter).
  destruct (get_buf_nx (set_bufs bs4 s) HEAD f) as (h4 & Hh4 & Hh4n & _).
  { cbn. unfold bs4. rewrite nx_alter, nx_next, decide_False by (done || lia). done. }
  rewrite (bind_Ok _ _ _ _ _ Hh4). cbv beta. rewrite Hh4n.
  erewrite bind_Ok by (apply upd_buf_alter; cbn; lia). cbv beta.
  erewrite bind_Ok by (apply upd_buf_alter; cbn; rewrite length_alter; unfold HEAD; lia).
  cbn [bufs set_bufs]. cbv beta.
  rewrite upd_buf_alter by (cbn; rewrite !length_alter; lia).
  eexists. split; [reflexivity|]. cbn [bufs set_bufs]. split; [split|].
  - by rewrite <- Hperm, Permutation_middle.
  - eapply path_frame; [| |apply Hins]; intros; [by apply nx_alter|by apply pv_alter].
  - rewrite bodies_alter_body by done. unfold bs4, bs2. by rewrite !bodies_alter.
Qed.

(** ** The cache as a map from block numbers *)

(** The buffer caching block [b] of the root device, through the hash table. *)
Definition cache (s : bio) (b : Z) : option (nat * buf) :=
  match htable s !! b with
  | Some i =>
      match bodies (bufs s) !! i with
      | Some bf => if (b_dev bf =? ROOTDEV) && (b_blockno bf =? b) then Some (i, bf) else None
      | None => None
      end
  | None => None
  end.

(** The contents of block [b] of the root device, cache and disk together. *)
Definition view (s : bio) (b : Z) : list Z :=
  match cache s b with
  | Some (_, bf) => b_data bf
  | None => disk_get (disk s) (1, b)
  end.

(** The buffers locked by [bread], with the block each of them holds. *)
Definition busy_block (bf : buf) : option Z :=
  if flag B_BUSY bf then Some (b_blockno bf) else None.
Definition held (s : bio) : gmap nat Z :=
  omap busy_block (map_seq 0 (take 30 (bodies (bufs s))) : gmap nat buf).

(** Is the cached copy of [b] marked [B_DIRTY]? *)
Definition dirty (s : bio) (b : Z) : bool :=
  match cache s b with Some (_, bf) => flag B_DIRTY bf | None => false end.

(** A buffer is unused, or caches a block of the root device, is found through
    the hash table and holds valid data, which is the disk's unless the buffer
    is locked or marked for the log. *)
Definition buf_ok (h : gmap Z nat) (d : gmap sector (list Z)) (i : nat) (bf : buf) : Prop :=
  wf_block (b_data bf) /\
  ((b_dev bf = u32 (-1) /\ flag B_BUSY bf = false /\ flag B_DIRTY bf = false) \/
   (b_dev bf = ROOTDEV /\ in_range bf /\ h !! b_blockno bf = Some i /\ flag B_VALID bf = true /\
    (flag B_BUSY bf = false -> flag B_DIRTY bf = false ->
     b_data bf = disk_get d (1, b_blockno bf)))).

Record bio_inv (s : bio) : Prop := {
  bi_len : length (bufs s) = 31%nat;
  bi_cap : capacity s = HASHSIZE;
  bi_queue : idequeue s = [];
  bi_ready : ide_ready s;
  bi_disk1 : havedisk1 s = true;
  bi_lru : exists l, lru (bufs s) l;
  bi_buf : forall i bf, (i < 30)%nat -> bodies (bufs s) !! i = Some bf -> buf_ok (htable s) (disk s) i bf;
  bi_hash : forall k i, htable s !! k = Some i -> (i < 30)%nat;
  bi_disk : forall c, wf_block (disk_get (disk s) c)
}.

Section Cache.
Context (s : bio) (Hinv : bio_inv s).

Lemma cache_iff b i bf :
  cache s b = Some (i, bf) <->
  (i < 30)%nat /\ bodies (bufs s) !! i = Some bf /\ b_dev bf = ROOTDEV /\ b_blockno bf = b.
Proof.
  unfold cache. split.
  - destruct (htable s !! b) as [j|] eqn:Hh; [|done].
    destruct (bodies (bufs s) !! j) as [bj|] eqn:Hj; [|done].
    destruct (Z.eqb_spec (b_dev bj) ROOTDEV); [|done].
    destruct (Z.eqb_spec (b_blockno bj) b); [|done]. intros [= -> ->].
    split_and!; try done. by eapply bi_hash.
  - intros (Hi & Hb & Hd & <-).
    destruct (bi_buf s Hinv i bf Hi Hb) as (_ & [(Hd' & _)|(_ & _ & Hh & _)]).
    + rewrite Hd in Hd'. discriminate.
    + rewrite Hh, Hb, Hd, !Z.eqb_refl. done.
Qed.

Lemma cache_None b :
  cache s b = None <->
  forall i bf, (i < 30)%nat -> bodies (bufs s) !! i = Some bf -> b_dev bf = ROOTDEV -> b_blockno bf <> b.
Proof.
  split.
  - intros H i bf Hi Hb Hd <-.
    assert (cache s (b_blockno bf) = Some (i, bf)) as E by (by apply cache_iff). congruence.
  - intros H. destruct (cache s b) as [[i bf]|] eqn:E; [|done].
    apply cache_iff in E as (Hi & Hb & Hd & Hn). by destruct (H i bf Hi Hb Hd).
Qed.

Lemma cache_ok b i bf :
  cache s b = Some (i, bf) ->
  wf_block (b_data bf) /\ in_range bf /\ flag B_VALID bf = true /\
  (flag B_BUSY bf = false -> flag B_DIRTY bf = false -> b_data bf = disk_get (disk s) (1, b)).
Proof.
  intros E. apply cache_iff in E as (Hi & Hb & Hd & <-).
  destruct (bi_buf s Hinv i bf Hi Hb) as (Hw & [(Hd' & _)|(_ & Hr & Hh & Hv & Hc)]).
  - rewrite Hd in Hd'. discriminate.
  - done.
Qed.

Lemma wf_view b : wf_block (view s b).
Proof.
  unfold view. destruct (cache s b) as [[i bf]|] eqn:E.
  - by apply cache_ok in E as (? & _).
  - by apply bi_disk.
Qed.

Lemma lookup_held i b :
  held s !! i = Some b <->
  exists bf, (i < 30)%nat /\ bodies (bufs s) !! i = Some bf /\ flag B_BUSY bf = true /\ b_blockno bf = b.
Proof.
  unfold held. rewrite lookup_omap, lookup_map_seq_0.
  destruct (decide (i < 30)%nat) as [Hi|Hi].
  - rewrite lookup_take_lt by done. destruct (bodies (bufs s) !! i) as [bf|]; cbn.
    + unfold busy_block. split.
      * destruct (flag B_BUSY bf) eqn:Hf; [|done]. intros [= <-]. by exists bf.
      * intros (bf' & _ & [= <-] & -> & <-). done.
    + naive_solver.
  - rewrite lookup_take_ge by lia. cbn. naive_solver.
Qed.

Lemma held_cache i b : held s !! i = Some b -> exists bf, cache s b = Some (i, bf) /\ flag B_BUSY bf = true.
Proof.
  intros H. apply lookup_held in H as (bf & Hi & Hb & Hf & <-). exists bf. split; [|done].
  apply cache_iff. split_and!; try done.
  destruct (bi_buf s Hinv i bf Hi Hb) as (_ & [(_ & Hf' & _)|(Hd & _)]); [congruence|done].
Qed.

(** A block has at most one buffer. *)
Lemma cached_once i j bi bj :
  (i < 30)%nat -> (j < 30)%nat -> bodies (bufs s) !! i = Some bi -> bodies (bufs s) !! j = Some bj ->
  b_dev bi = ROOTDEV -> b_dev bj = ROOTDEV -> b_blockno bi = b_blockno bj -> i = j.
Proof.
  intros Hi Hj Hbi Hbj Hdi Hdj E.
  assert (cache s (b_blockno bj) = Some (i, bi)) as E1 by (by apply cache_iff).
  assert (cache s (b_blockno bj) = Some (j, bj)) as E2 by (by apply cache_iff).
  congruence.
Qed.
End Cache.

(** ** [bget] *)

Lemma hash_func_Ok s b : capacity s = HASHSIZE -> 0 <= b < FSSIZE -> hash_func b s = Ok b s.
Proof.
  intros Hc Hb. unfold hash_func. mstep. rewrite Hc. cbn.
  unfold ret. rewrite Z.mod_small by klia. done.
Qed.

Lemma blookup_Ok s b :
  bio_inv s -> 0 <= b < FSSIZE -> blookup ROOTDEV b s = Ok (fst <$> cache s b) s.
Proof.
  intros Hinv Hb. unfold blookup.
  erewrite bind_Ok by (apply hash_func_Ok; [apply Hinv|done]). cbv beta. mstep.
  unfold cache. destruct (htable s !! b) as [i|] eqn:Hh; [|done].
  pose proof (bi_hash s Hinv _ _ Hh) as Hi.
  destruct (lookup_lt_is_Some_2 (bufs s) i) as [bf Hbf].
  { rewrite (bi_len s Hinv). lia. }
  mstep. unfold bodies. rewrite list_lookup_fmap, Hbf. cbn.
  by destruct ((b_dev bf =? ROOTDEV) && (b_blockno bf =? b)).
Qed.

(** The scan stops at the first buffer of the list that is neither locked nor
    marked for the log. *)
Definition recyclable (bs : list buf) (i : nat) : bool :=
  match bs !! i with
  | Some bf => negb (flag B_BUSY bf) && negb (flag B_DIRTY bf)
  | None => false
  end.

Lemma recycle_flags bf :
  (Z.land (b_flags bf) B_BUSY =? 0) && (Z.land (b_flags bf) B_DIRTY =? 0) =
  negb (flag B_BUSY bf) && negb (flag B_DIRTY bf).
Proof. unfold flag. by rewrite !negb_involutive. Qed.

Lemma bget_scan_Ok l : forall p s fuel b i l1 l2,
  path (bufs s) (p :: l ++ [HEAD]) -> HEAD ∉ p :: l -> (length l < fuel)%nat ->
  p :: l = l1 ++ i :: l2 -> (forall j, j ∈ l1 -> recyclable (bufs s) j = false) ->
  recyclable (bufs s) i = true -> capacity s = HASHSIZE -> 0 <= b < FSSIZE ->
  bget_scan fuel p ROOTDEV b s =
    Ok i (set_hash (capacity s) (<[b := i]> (htable s))
         (set_bufs (alter (b_set_id ROOTDEV b B_BUSY) i (bufs s)) s)).
Proof.
  induction l as [|q l IH]; intros p s fuel b i l1 l2 Hpath Hh Hfuel Hsplit Hl1 Hi Hc Hb;
    (destruct fuel as [|fuel]; [lia|]); cbn [bget_scan];
    (destruct (Nat.eqb_spec p HEAD) as [->|_]; [set_solver|]).
  all: destruct Hpath as (Hnx & _ & Hpath); unfold nx in Hnx;
    (destruct (bufs s !! p) as [bp|] eqn:Hbp; [|done]); cbn in Hnx; injection Hnx as Hnx.
  all: mstep; rewrite recycle_flags.
  all: destruct l1 as [|x l1]; cbn in Hsplit; injection Hsplit as -> Hrest.
  all: try (unfold recyclable in Hi; rewrite Hbp in Hi; rewrite Hi;
    erewrite bind_Ok by (apply upd_buf_alter; by eapply lookup_lt_Some); cbv beta;
    erewrite bind_Ok by (by apply hash_func_Ok); reflexivity).
  - by destruct l1.
  - assert (Hx : recyclable (bufs s) x = false) by (apply Hl1; set_solver).
    unfold recyclable in Hx. rewrite Hbp in Hx. rewrite Hx. rewrite Hnx.
    apply (IH q s fuel b i l1 l2); try done; [set_solver|cbn in Hfuel; lia|set_solver].
Qed.

(** ** One buffer changes *)

(** The states before and after an operation that rewrites the buffer at [i],
    keeping the block it caches. *)
Record buf_step (s s' : bio) (i : nat) (bf bf' : buf) : Prop := {
  st_lt : (i < 30)%nat;
  st_old : bodies (bufs s) !! i = Some bf;
  st_new : bodies (bufs s') = <[i := bf']> (bodies (bufs s));
  st_lru : exists l, lru (bufs s') l;
  st_root : b_dev bf = ROOTDEV;
  st_id : b_dev bf' = b_dev bf /\ b_blockno bf' = b_blockno bf;
  st_rest : capacity s' = capacity s /\ htable s' = htable s /\ idequeue s' = idequeue s /\
            ide_status s' = ide_status s /\ havedisk1 s' = havedisk1 s
}.

Lemma body_lookup bs i bf :
  bodies bs !! i = Some bf <-> exists b, bs !! i = Some b /\ bf = body b.
Proof.
  unfold bodies. rewrite list_lookup_fmap, fmap_Some. naive_solver.
Qed.

Lemma length_bodies bs : length (bodies bs) = length bs.
Proof. apply length_fmap. Qed.

Section BufStep.
Context (s s' : bio) (i : nat) (bf bf' : buf).
Context (Hinv : bio_inv s) (Hst : buf_step s s' i bf bf').

Lemma step_lookup_eq : bodies (bufs s') !! i = Some bf'.
Proof.
  rewrite (st_new _ _ _ _ _ Hst). apply list_lookup_insert_eq.
  rewrite length_bodies, (bi_len s Hinv). pose proof (st_lt _ _ _ _ _ Hst). lia.
Qed.

Lemma step_lookup_ne j : j <> i -> bodies (bufs s') !! j = bodies (bufs s) !! j.
Proof. intros. rewrite (st_new _ _ _ _ _ Hst). by apply list_lookup_insert_ne. Qed.

Lemma step_inv :
  buf_ok (htable s) (disk s') i bf' ->
  (forall c, c <> (1, b_blockno bf) -> disk_get (disk s') c = disk_get (disk s) c) ->
  wf_block (disk_get (disk s') (1, b_blockno bf)) ->
  bio_inv s'.
Proof.
  intros Hok Hd Hwd. pose proof Hst as [Hi Hold Hnew Hlru Hroot Hid (Hc & Hh & Hq & Hr & H1)].
  constructor.
  - rewrite <- length_bodies, Hnew, length_insert, length_bodies. apply Hinv.
  - rewrite Hc. apply Hinv.
  - rewrite Hq. apply Hinv.
  - unfold ide_ready. rewrite Hr. apply Hinv.
  - rewrite H1. apply Hinv.
  - done.
  - intros j bj Hj Hbj. rewrite Hh. destruct (decide (j = i)) as [->|Hne].
    + rewrite step_lookup_eq in Hbj. by injection Hbj as <-.
    + rewrite step_lookup_ne in Hbj by done.
      destruct (bi_buf s Hinv j bj Hj Hbj) as (Hw & [Hun|(Hdev & Hrg & Hhj & Hv & Hcl)]).
      * split; [done|by left].
      * split; [done|]. right. split_and!; try done. intros Hb1 Hb2.
        rewrite Hd; [by apply Hcl|]. intros [= E].
        apply Hne. by eapply (cached_once s Hinv j i).
  - intros k j. rewrite Hh. apply Hinv.
  - intros c. destruct (decide (c = (1, b_blockno bf))) as [->|Hne]; [done|].
    rewrite Hd by done. apply Hinv.
Qed.

Lemma step_cache b :
  cache s' b = if decide (b = b_blockno bf) then Some (i, bf') else cache s b.
Proof.
  pose proof Hst as [Hi Hold Hnew Hlru Hroot [Hid1 Hid2] (Hc & Hh & _)].
  destruct (bi_buf s Hinv i bf Hi Hold) as (_ & [(Hd & _)|(_ & _ & Hhi & _)]);
    [rewrite Hroot in Hd; discriminate|].
  unfold cache. rewrite Hh. case_decide as E.
  - subst b. rewrite Hhi, step_lookup_eq, Hid1, Hid2, Hroot, !Z.eqb_refl. done.
  - destruct (htable s !! b) as [j|]; [|done]. destruct (decide (j = i)) as [->|Hne].
    + rewrite step_lookup_eq, Hold, Hid1, Hid2.
      destruct (Z.eqb_spec (b_blockno bf) b); [congruence|]. by rewrite !andb_false_r.
    + by rewrite step_lookup_ne.
Qed.

Lemma step_held :
  held s' = match busy_block bf' with
            | Some b => <[i := b]> (held s)
            | None => delete i (held s)
            end.
Proof.
  assert (Hl : (length (take 30 (bodies (bufs s))) = 30)%nat).
  { rewrite length_take, length_bodies, (bi_len s Hinv). lia. }
  assert (Hj : forall j, held s' !! j = if decide (j = i) then busy_block bf' else held s !! j).
  { intros j. unfold held. rewrite !lookup_omap, !lookup_map_seq_0.
    rewrite (st_new _ _ _ _ _ Hst), take_insert_lt by apply Hst. case_decide as E.
    - subst. rewrite list_lookup_insert_eq; [done|]. rewrite Hl. apply Hst.
    - by rewrite list_lookup_insert_ne. }
  apply map_eq. intros j. rewrite Hj. destruct (busy_block bf') as [b|].
  - rewrite lookup_insert. repeat case_decide; congruence.
  - rewrite lookup_delete. repeat case_decide; congruence.
Qed.

Lemma step_view b :
  (forall c, c <> (1, b_blockno bf) -> disk_get (disk s') c = disk_get (disk s) c) ->
  view s' b = if decide (b = b_blockno bf) then b_data bf' else view s b.
Proof.
  intros Hd. unfold view. rewrite step_cache. case_decide as E; [done|].
  destruct (cache s b) as [[j bj]|]; [done|]. apply Hd. congruence.
Qed.

Lemma step_dirty b :
  dirty s' b = if decide (b = b_blockno bf) then flag B_DIRTY bf' else dirty s b.
Proof. unfold dirty. rewrite step_cache. by case_decide. Qed.
End BufStep.

(** Updating the buffer at [i] in place is such a step. *)
Lemma lru_links bs bs' l :
  (forall x, nx bs' x = nx bs x) -> (forall x, pv bs' x = pv bs x) -> lru bs l -> lru bs' l.
Proof. intros Hn Hp [H1 H2]. split; [done|]. eapply path_frame; eauto. Qed.

Lemma upd_step s s' i b b' :
  bio_inv s -> (i < 30)%nat -> bufs s !! i = Some b -> b_dev b = ROOTDEV ->
  bufs s' = <[i := b']> (bufs s) ->
  b_dev b' = b_dev b /\ b_blockno b' = b_blockno b ->
  b_next b' = b_next b /\ b_prev b' = b_prev b ->
  capacity s' = capacity s /\ htable s' = htable s /\ idequeue s' = idequeue s /\
    ide_status s' = ide_status s /\ havedisk1 s' = havedisk1 s ->
  buf_step s s' i (body b) (body b').
Proof.
  intros Hinv Hi Hb Hd Hb' Hid [F3 F4] Hrest. constructor; try done.
  - apply body_lookup. eauto.
  - rewrite Hb'. unfold bodies. apply list_fmap_insert.
  - destruct (bi_lru s Hinv) as [l Hl]. exists l.
    assert (Hlt : (i < length (bufs s))%nat) by (by eapply lookup_lt_Some).
    eapply lru_links; [| |apply Hl]; intros x; unfold nx, pv; rewrite Hb';
      (destruct (decide (x = i)) as [->|]; [|by rewrite list_lookup_insert_ne]);
      rewrite list_lookup_insert_eq by done; rewrite Hb; cbn; congruence.
Qed.

(** ** The operations on a locked buffer *)

(** What the client of the cache sees of a step: the contents of every block,
    which blocks are marked for the log, which are locked. *)
Lemma held_body s i b :
  bio_inv s -> held s !! i = Some b ->
  exists bf, (i < 30)%nat /\ bufs s !! i = Some bf /\ flag B_BUSY bf = true /\
    b_blockno bf = b /\ b_dev bf = ROOTDEV /\ in_range bf /\ flag B_VALID bf = true /\
    view s b = b_data bf /\ dirty s b = flag B_DIRTY bf /\ htable s !! b = Some i.
Proof.
  intros Hinv Hh. destruct (held_cache s Hinv i b Hh) as (bf & Hc & Hb).
  pose proof Hc as Hc'. apply cache_iff in Hc' as (Hi & Hl & Hd & Hn); [|done].
  destruct (cache_ok s Hinv b i bf Hc) as (Hw & Hr & Hv & _).
  destruct (bi_buf s Hinv i bf Hi Hl) as (_ & [(Hd' & _)|(_ & _ & Hh2 & _)]);
    [rewrite Hd in Hd'; discriminate|].
  apply body_lookup in Hl as (bf0 & Hl & ->).
  exists bf0. unfold view, dirty. rewrite Hc. split_and!; try done. by rewrite <- Hn.
Qed.

Lemma bdata_Ok s i b : bio_inv s -> held s !! i = Some b -> bdata i s = Ok (view s b) s.
Proof.
  intros Hinv Hh. destruct (held_body s i b Hinv Hh) as (bf & _ & Hb & _ & _ & _ & _ & _ & -> & _).
  unfold bdata. mstep. done.
Qed.

Lemma bset_Ok s i b d :
  bio_inv s -> held s !! i = Some b -> wf_block d ->
  exists s', bset i d s = Ok tt s' /\ bio_inv s' /\ disk s' = disk s /\
    disk_writes s' = disk_writes s /\ held s' = held s /\
    (forall x, view s' x = if decide (x = b) then d else view s x) /\
    (forall x, dirty s' x = dirty s x).
Proof.
  intros Hinv Hh Hw.
  destruct (held_body s i b Hinv Hh) as (bf & Hi & Hb & Hbusy & Hn & Hd & Hr & Hv & _ & Hdi & Hhash).
  eexists. split; [unfold bset; by apply upd_buf_Ok|].
  set (s' := set_bufs _ s).
  assert (Hst : buf_step s s' i (body bf) (body (b_set_data d bf))).
  { by apply upd_step. }
  split_and!; try done.
  - eapply step_inv; [done|apply Hst| |done|apply Hinv]. split; [done|].
    right. subst b. split_and!; try done. cbn. intros E. change (flag B_BUSY bf = false) in E. congruence.
  - rewrite (step_held s s' _ _ _ Hinv Hst). unfold busy_block.
    change (flag B_BUSY (body (b_set_data d bf))) with (flag B_BUSY bf). rewrite Hbusy.
    apply insert_id. cbn. by rewrite Hn.
  - intros x. rewrite (step_view s s' _ _ _ Hinv Hst) by done. cbn. by rewrite Hn.
  - intros x. rewrite (step_dirty s s' _ _ _ Hinv Hst). case_decide as E; [|done].
    change (flag B_DIRTY (body (b_set_data d bf))) with (flag B_DIRTY bf).
    subst x. cbn. by rewrite Hn, Hdi.
Qed.

(** Marking a locked buffer, as [log_write] does with [B_DIRTY]. *)
Lemma mark_Ok s i b :
  bio_inv s -> held s !! i = Some b ->
  exists s', upd_buf i (b_or B_DIRTY) s = Ok tt s' /\ bio_inv s' /\ disk s' = disk s /\
    disk_writes s' = disk_writes s /\ held s' = held s /\
    (forall x, view s' x = view s x) /\
    (forall x, dirty s' x = bool_decide (x = b) || dirty s x).
Proof.
  intros Hinv Hh.
  destruct (held_body s i b Hinv Hh) as (bf & Hi & Hb & Hbusy & Hn & Hd & Hr & Hv & Hvw & Hdi & Hhash).
  eexists. split; [by apply upd_buf_Ok|].
  set (s' := set_bufs _ s).
  assert (Hst : buf_step s s' i (body bf) (body (b_or B_DIRTY bf))).
  { by apply upd_step. }
  assert (Hf1 : flag B_BUSY (body (b_or B_DIRTY bf)) = true)
    by (change (flag B_BUSY (b_or B_DIRTY bf) = true); by flags).
  split_and!; try done.
  - eapply step_inv; [done|apply Hst| |done|apply Hinv]. split.
    { change (wf_block (b_data bf)). rewrite <- Hvw. by apply wf_view. }
    right. subst b. split_and!; try done.
    + change (flag B_VALID (b_or B_DIRTY bf) = true). by flags.
    + intros. congruence.
  - rewrite (step_held s s' _ _ _ Hinv Hst). unfold busy_block. rewrite Hf1.
    apply insert_id. cbn. by rewrite Hn.
  - intros x. rewrite (step_view s s' _ _ _ Hinv Hst) by done. cbn. rewrite Hn.
    case_decide; [by subst|done].
  - intros x. rewrite (step_dirty s s' _ _ _ Hinv Hst). cbn [body b_set_prev b_set_next b_blockno].
    rewrite Hn. case_decide as E.
    + change (flag B_DIRTY (body ?z)) with (flag B_DIRTY z). flags.
      by rewrite bool_decide_eq_true_2.
    + by rewrite bool_decide_eq_false_2.
Qed.

(** [brelse] of a buffer whose contents are on disk or marked for the log. *)
Lemma brelse_step s i bf :
  bio_inv s -> (i < 30)%nat -> bufs s !! i = Some bf -> b_dev bf = ROOTDEV ->
  flag B_BUSY bf = true ->
  exists s', brelse i s = Ok tt s' /\ disk s' = disk s /\ disk_writes s' = disk_writes s /\
    buf_step s s' i (body bf) (body (b_clear B_BUSY bf)) /\ exists l, lru (bufs s') (i :: l).
Proof.
  intros Hinv Hi Hb Hd Hbusy. destruct (bi_lru s Hinv) as [l Hl].
  assert (Hil : i ∈ l).
  { rewrite (proj1 Hl), elem_of_seq. change (Z.to_nat NBUF) with 30%nat. lia. }
  apply list_elem_of_split in Hil as (l1 & l2 & ->).
  destruct (brelse_links s i bf l1 l2) as (bs' & Hrun & Hlru & Hbod); [apply Hinv|done..|].
  exists (set_bufs bs' s). split_and!; try done; [|by eexists].
  constructor; try done.
  - apply body_lookup. eauto.
  - cbn [bufs set_bufs]. rewrite Hbod. apply list_eq. intros j.
    destruct (decide (j = i)) as [->|].
    + rewrite list_lookup_alter_eq, list_lookup_insert_eq.
      * unfold bodies. by rewrite list_lookup_fmap, Hb.
      * rewrite length_bodies, (bi_len s Hinv). lia.
    + by rewrite list_lookup_alter_ne, list_lookup_insert_ne.
  - eauto.
Qed.

Lemma brelse_Ok s i b :
  bio_inv s -> held s !! i = Some b ->
  (dirty s b = true \/ view s b = disk_get (disk s) (1, b)) ->
  exists s', brelse i s = Ok tt s' /\ bio_inv s' /\ disk s' = disk s /\
    disk_writes s' = disk_writes s /\ held s' = delete i (held s) /\
    (forall x, view s' x = view s x) /\ (forall x, dirty s' x = dirty s x).
Proof.
  intros Hinv Hh Hcl.
  destruct (held_body s i b Hinv Hh) as (bf & Hi & Hb & Hbusy & Hn & Hd & Hr & Hv & Hvw & Hdi & Hhash).
  destruct (brelse_step s i bf Hinv Hi Hb Hd Hbusy) as (s' & Hrun & Hdk & Hdw & Hst & _).
  exists s'. split; [done|].
  assert (Hf1 : flag B_BUSY (body (b_clear B_BUSY bf)) = false)
    by (change (flag B_BUSY (b_clear B_BUSY bf) = false); by flags).
  assert (Hf2 : flag B_DIRTY (body (b_clear B_BUSY bf)) = flag B_DIRTY bf)
    by (change (flag B_DIRTY (b_clear B_BUSY bf) = flag B_DIRTY bf); by flags).
  split_and!; try done.
  - eapply step_inv; [done|apply Hst| |by rewrite Hdk|by rewrite Hdk; apply Hinv].
    rewrite Hdk. split.
    { change (wf_block (b_data bf)). rewrite <- Hvw. by apply wf_view. }
    right. subst b. split_and!; try done.
    + change (flag B_VALID (b_clear B_BUSY bf) = true). by flags.
    + intros _. rewrite Hf2. intros E. cbn. rewrite <- Hvw.
      destruct Hcl as [Hcl|Hcl]; [congruence|done].
  - rewrite (step_held s s' _ _ _ Hinv Hst). unfold busy_block. by rewrite Hf1.
  - intros x. rewrite (step_view s s' _ _ _ Hinv Hst) by (by rewrite Hdk). cbn. rewrite Hn.
    case_decide; [by subst|done].
  - intros x. rewrite (step_dirty s s' _ _ _ Hinv Hst). cbn [body b_set_prev b_set_next b_blockno].
    rewrite Hn, Hf2. case_decide; [by subst|done].
Qed.

(** ** [bwrite] *)

Lemma b_sector_root bf : b_dev bf = ROOTDEV -> b_sector bf = (1, b_blockno bf).
Proof. unfold b_sector. by intros ->. Qed.

Lemma bufs_set_started l bf s : bufs (set_bufs l (started bf s)) = l.
Proof. unfold started. by destruct (flag B_DIRTY bf). Qed.

Lemma bwrite_run s i bf :
  bio_inv s -> bufs s !! i = Some bf -> flag B_BUSY bf = true -> in_range bf ->
  b_dev bf = ROOTDEV ->
  bwrite i s = Ok tt (set_bufs (<[i := b_clear B_DIRTY (b_or B_VALID (b_or B_DIRTY bf))]> (bufs s))
    (set_disk (<[(1, b_blockno bf) := b_data bf]> (disk s))
              (disk_writes s ++ [((1, b_blockno bf), b_data bf)])
              (set_sel (1, b_blockno bf) s))).
Proof.
  intros Hinv Hb Hbusy Hr Hd. unfold bwrite. mstep. rewrite Hbusy. cbn [negb].
  erewrite bind_Ok by (by apply upd_buf_Ok). cbv beta.
  assert (Hlt : (i < length (bufs s))%nat) by (by eapply lookup_lt_Some).
  rewrite (iderw_Ok _ i (b_or B_DIRTY bf)); try apply Hinv; try done.
  - unfold after_rw, started, completed. rewrite dirty_or_dirty, b_sector_root by done.
    cbn [bufs set_bufs disk disk_writes]. by rewrite list_insert_insert_eq.
  - cbn. by rewrite list_lookup_insert_eq.
  - by flags.
  - flags. by rewrite andb_false_r.
  - right. apply Hinv.
Qed.

Lemma bwrite_Ok s i b :
  bio_inv s -> held s !! i = Some b ->
  exists s', bwrite i s = Ok tt s' /\ bio_inv s' /\ held s' = held s /\
    disk s' = <[(1, b) := view s b]> (disk s) /\
    disk_writes s' = disk_writes s ++ [((1, b), view s b)] /\
    (forall x, view s' x = view s x) /\
    (forall x, dirty s' x = negb (bool_decide (x = b)) && dirty s x).
Proof.
  intros Hinv Hh.
  destruct (held_body s i b Hinv Hh) as (bf & Hi & Hb & Hbusy & Hn & Hd & Hr & Hv & Hvw & Hdi & Hhash).
  eexists. split; [by apply (bwrite_run s i bf)|]. rewrite Hn, <- Hvw.
  set (bf' := b_clear B_DIRTY (b_or B_VALID (b_or B_DIRTY bf))). set (s' := set_bufs _ _).
  assert (Hst : buf_step s s' i (body bf) (body bf')) by (by apply upd_step).
  assert (Hg : forall c, c <> (1, b_blockno (body bf)) -> disk_get (disk s') c = disk_get (disk s) c).
  { intros c Hc. cbn in *. rewrite Hn in Hc. unfold disk_get. by rewrite lookup_insert_ne. }
  assert (Hgb : disk_get (disk s') (1, b) = view s b)
    by (cbn; unfold disk_get; by rewrite lookup_insert_eq).
  assert (Hf : flag B_BUSY (body bf') = true /\ flag B_VALID (body bf') = true /\
               flag B_DIRTY (body bf') = false).
  { change (flag ?m (body ?z)) with (flag m z). unfold bf'. by flags. }
  destruct Hf as (Hf1 & Hf2 & Hf3). split_and!; try done.
  - eapply step_inv; [done|apply Hst| |done|].
    + split; [change (wf_block (b_data bf)); rewrite <- Hvw; by apply wf_view|].
      right. cbn. rewrite Hn. split_and!; try done. congruence.
    + change (wf_block (disk_get (disk s') (1, b_blockno bf))). rewrite Hn, Hgb. by apply wf_view.
  - rewrite (step_held s s' _ _ _ Hinv Hst). unfold busy_block. rewrite Hf1.
    apply insert_id. cbn. by rewrite Hn.
  - intros x. rewrite (step_view s s' _ _ _ Hinv Hst) by done. cbn. rewrite Hn.
    case_decide; [by subst|done].
  - intros x. rewrite (step_dirty s s' _ _ _ Hinv Hst), Hf3. cbn. rewrite Hn.
    case_decide; [by rewrite bool_decide_eq_true_2|by rewrite bool_decide_eq_false_2].
Qed.

(** ** [bread] *)

(** What [bread] of block [b] promises about the state it returns in. *)
Definition bread_post (s : bio) (b : Z) (i : nat) (s' : bio) : Prop :=
  bio_inv s' /\ disk s' = disk s /\ disk_writes s' = disk_writes s /\
  held s !! i = None /\ held s' = <[i := b]> (held s) /\
  (forall x, view s' x = view s x) /\ (forall x, dirty s' x = dirty s x).

Lemma bread_hit s b i bf :
  bio_inv s -> 0 <= b < FSSIZE -> cache s b = Some (i, bf) -> flag B_BUSY bf = false ->
  exists s', bread ROOTDEV b s = Ok i s' /\ bread_post s b i s'.
Proof.
  intros Hinv Hb Hc Hbusy. pose proof Hc as Hc'. apply cache_iff in Hc' as (Hi & Hl & Hd & Hn); [|done].
  destruct (cache_ok s Hinv b i bf Hc) as (Hw & Hr & Hv & Hcl).
  apply body_lookup in Hl as (bf0 & Hl & ->).
  assert (Hvw : view s b = b_data bf0) by (unfold view; by rewrite Hc).
  assert (Hdi : dirty s b = flag B_DIRTY bf0) by (unfold dirty; by rewrite Hc).
  set (s' := set_bufs (<[i := b_or B_BUSY bf0]> (bufs s)) s).
  assert (Hb' : bufs s' !! i = Some (b_or B_BUSY bf0)).
  { apply list_lookup_insert_eq. rewrite (bi_len s Hinv). lia. }
  assert (Hst : buf_step s s' i (body bf0) (body (b_or B_BUSY bf0))) by (by apply upd_step).
  exists s'. split.
  { unfold bread, bget. erewrite bind_Ok.
    2: { rewrite (bind_Ok _ _ _ _ _ (blookup_Ok s b Hinv Hb)), Hc. cbn [fmap option_fmap option_map fst].
         mstep. change (flag B_BUSY (body bf0)) with (flag B_BUSY bf0) in Hbusy. rewrite Hbusy.
         rewrite (bind_Ok _ _ _ _ _ (upd_buf_Ok s i bf0 _ Hl)). reflexivity. }
    cbv beta. fold s'. mstep. change (flag B_VALID (body bf0)) with (flag B_VALID bf0) in Hv.
    rewrite valid_or_busy, Hv. done. }
  assert (Hf1 : flag B_BUSY (body (b_or B_BUSY bf0)) = true)
    by (change (flag B_BUSY (b_or B_BUSY bf0) = true); by flags).
  unfold bread_post. split_and!; try done.
  - eapply step_inv; [done|apply Hst| |done|apply Hinv]. split; [done|].
    right. split_and!; try done.
    + destruct (bi_buf s Hinv i (body bf0) Hi) as (_ & [(Hd' & _)|(_ & _ & Hh2 & _)]);
        [apply body_lookup; eauto|rewrite Hd in Hd'; discriminate|done].
    + change (flag B_VALID (body ?z)) with (flag B_VALID z) in *. by rewrite valid_or_busy.
    + congruence.
  - destruct (held s !! i) as [x|] eqn:Hx; [|done].
    apply lookup_held in Hx as (bf1 & _ & Hl1 & Hb1 & _).
    apply body_lookup in Hl1 as (bf2 & Hl2 & ->). rewrite Hl in Hl2. injection Hl2 as <-. congruence.
  - rewrite (step_held s s' _ _ _ Hinv Hst). unfold busy_block. rewrite Hf1. cbn. by rewrite <- Hn.
  - intros x. rewrite (step_view s s' _ _ _ Hinv Hst) by done. cbn in *. rewrite Hn.
    case_decide; [by subst|done].
  - intros x. rewrite (step_dirty s s' _ _ _ Hinv Hst). change (flag ?m (body ?z)) with (flag m z).
    rewrite dirty_or_busy. cbn in *. rewrite Hn. case_decide; [by subst|done].
Qed.

Lemma bread_busy s b i bf :
  bio_inv s -> 0 <= b < FSSIZE -> cache s b = Some (i, bf) -> flag B_BUSY bf = true ->
  bread ROOTDEV b s = Stop (Sleep (ChBuf i)) s.
Proof.
  intros Hinv Hb Hc Hbusy. pose proof Hc as Hc'. apply cache_iff in Hc' as (Hi & Hl & Hd & Hn); [|done].
  apply body_lookup in Hl as (bf0 & Hl & ->).
  unfold bread, bget. apply bind_Stop.
  rewrite (bind_Ok _ _ _ _ _ (blookup_Ok s b Hinv Hb)), Hc. cbn [fmap option_fmap option_map fst].
  mstep. change (flag B_BUSY (body bf0)) with (flag B_BUSY bf0) in Hbusy. by rewrite Hbusy.
Qed.

(** The state a recycled buffer is left in. *)
Definition fresh_buf (b : Z) (d : list Z) (bf : buf) : buf :=
  b_clear B_DIRTY (b_or B_VALID (b_set_data d (b_set_id ROOTDEV b B_BUSY bf))).
Definition recycled (s : bio) (b : Z) (i : nat) (bf : buf) : bio :=
  set_bufs (<[i := fresh_buf b (disk_get (disk s) (1, b)) bf]> (bufs s))
    (set_sel (1, b) (set_hash (capacity s) (<[b := i]> (htable s)) s)).

Lemma bread_miss_run s b l1 i l2 bf :
  bio_inv s -> 0 <= b < FSSIZE -> cache s b = None -> lru (bufs s) (l1 ++ i :: l2) ->
  (forall j, j ∈ l1 -> recyclable (bufs s) j = false) -> recyclable (bufs s) i = true ->
  bufs s !! i = Some bf ->
  bread ROOTDEV b s = Ok i (recycled s b i bf).
Proof.
  intros Hinv Hb Hc Hlru Hl1 Hi Hbf. pose proof (lru_NoDup _ _ Hlru) as Hnd.
  assert (Hlt : (i < length (bufs s))%nat) by (by eapply lookup_lt_Some).
  assert (exists p l, l1 ++ i :: l2 = (p :: l)) as (p & l & Hpl) by (destruct l1; cbn; eauto).
  pose proof Hlru as [Hperm Hpath]. rewrite Hpl in Hpath. destruct Hpath as (Hhp & _ & Hpath).
  assert (Hlen : length (p :: l) = 30%nat) by (rewrite <- Hpl, Hperm; apply length_seq).
  unfold bread. erewrite bind_Ok.
  2: { unfold bget. rewrite (bind_Ok _ _ _ _ _ (blookup_Ok s b Hinv Hb)), Hc.
       cbn [fmap option_fmap option_map].
       destruct (get_buf_nx s HEAD p Hhp) as (h & Hh & Hhn & _).
       rewrite (bind_Ok _ _ _ _ _ Hh). cbv beta. rewrite Hhn.
       apply (bget_scan_Ok l p s _ b i l1 l2); try done.
       - rewrite Hpl in Hnd. by apply NoDup_cons in Hnd as [? _].
       - change (Z.to_nat NBUF) with 30%nat. cbn in Hlen. lia.
       - apply Hinv. }
  cbv beta. set (s1 := set_hash _ _ _).
  assert (Hb1 : bufs s1 !! i = Some (b_set_id ROOTDEV b B_BUSY bf)).
  { cbn. rewrite list_lookup_alter_eq, Hbf. done. }
  mstep. change (flag B_VALID (b_set_id ROOTDEV b B_BUSY bf)) with false. cbv iota.
  erewrite bind_Ok.
  2: { apply (iderw_Ok s1 i (b_set_id ROOTDEV b B_BUSY bf)); try apply Hinv; try done.
       right. apply Hinv. }
  cbv beta. unfold ret. f_equal. unfold after_rw, started, completed.
  change (flag B_DIRTY (b_set_id ROOTDEV b B_BUSY bf)) with false. cbv iota.
  rewrite b_sector_root by done. unfold recycled, fresh_buf, s1. cbn.
  unfold set_bufs. cbn. f_equal. apply list_eq. intros j. destruct (decide (j = i)) as [->|].
  - rewrite !list_lookup_insert_eq by (by rewrite ?length_alter). done.
  - by rewrite !list_lookup_insert_ne, list_lookup_alter_ne.
Qed.

(** The recycled state satisfies the invariant; the block the buffer cached
    before is no longer cached, block [b] is, every other entry is as it was. *)
Section Recycled.
Context (s : bio) (b : Z) (l : list nat) (i : nat) (bf : buf).
Context (Hinv : bio_inv s) (Hb : 0 <= b < FSSIZE) (Hc : cache s b = None)
        (Hlru : lru (bufs s) l) (Hi : (i < 30)%nat) (Hbf : bufs s !! i = Some bf)
        (Hrec : recyclable (bufs s) i = true).
Local Abbreviation bf' := (fresh_buf b (disk_get (disk s) (1, b)) bf).
Local Abbreviation s' := (recycled s b i bf).

Lemma recycled_old :
  bodies (bufs s) !! i = Some (body bf) /\ flag B_BUSY bf = false /\ flag B_DIRTY bf = false.
Proof.
  unfold recyclable in Hrec. rewrite Hbf in Hrec.
  apply andb_true_iff in Hrec as [H1%negb_true_iff H2%negb_true_iff].
  split_and!; try done. apply body_lookup. eauto.
Qed.

Lemma recycled_flags :
  flag B_BUSY (body bf') = true /\ flag B_VALID (body bf') = true /\
  flag B_DIRTY (body bf') = false.
Proof. change (flag ?m (body ?z)) with (flag m z). unfold fresh_buf. by flags. Qed.

Lemma recycled_lookup j :
  bodies (bufs s') !! j = if decide (j = i) then Some (body bf') else bodies (bufs s) !! j.
Proof.
  unfold recycled, bodies. cbn [bufs set_bufs]. rewrite list_fmap_insert.
  case_decide; [subst|by rewrite list_lookup_insert_ne].
  apply list_lookup_insert_eq. rewrite length_fmap, (bi_len s Hinv). lia.
Qed.

Lemma recycled_inv : bio_inv s'.
Proof.
  destruct recycled_flags as (Hf1 & Hf2 & Hf3). constructor; try apply Hinv.
  - unfold recycled. cbn [bufs set_bufs]. rewrite length_insert. apply Hinv.
  - exists l. eapply lru_links; [| |apply Hlru]; intros x; unfold nx, pv, recycled;
      cbn [bufs set_bufs]; (destruct (decide (x = i)) as [->|]; [|by rewrite list_lookup_insert_ne]);
      (rewrite list_lookup_insert_eq by (by eapply lookup_lt_Some)); by rewrite Hbf.
  - intros j bj Hj. rewrite recycled_lookup. case_decide as E.
    + intros [= <-]. subst j. split; [apply Hinv|]. right. split_and!; try done.
      cbn. by rewrite lookup_insert_eq.
    + intros Hbj. destruct (bi_buf s Hinv j bj Hj Hbj) as (Hw & [Hun|(Hdev & Hrg & Hhj & Hv & Hcl)]).
      * split; [done|by left].
      * split; [done|]. right. split_and!; try done. cbn. rewrite lookup_insert_ne; [done|].
        intros E2. by apply (proj1 (cache_None s Hinv b) Hc j bj Hj Hbj Hdev).
  - intros k j. cbn. rewrite lookup_insert. case_decide; [by intros [= <-]|apply Hinv].
Qed.

Lemma recycled_cache x :
  cache s' x = if decide (x = b) then Some (i, body bf') else
    match cache s x with
    | Some (j, bj) => if decide (j = i) then None else Some (j, bj)
    | None => None
    end.
Proof.
  pose proof recycled_inv as Hinv'. case_decide as E.
  - subst x. apply cache_iff; [done|]. rewrite recycled_lookup, decide_True by done. done.
  - destruct (cache s x) as [[j bj]|] eqn:Ex.
    + apply cache_iff in Ex as (Hj & Hbj & Hdj & Hnj); [|done]. case_decide as Eji.
      * apply cache_None; [done|]. intros k bk Hk. rewrite recycled_lookup. case_decide as Eki.
        { intros [= <-] _. cbn. congruence. }
        intros Hbk Hdk Hnk. apply Eki. rewrite <- Eji. by apply (cached_once s Hinv k j bk bj); subst.
      * apply cache_iff; [done|]. by rewrite recycled_lookup, decide_False.
    + apply cache_None; [done|]. intros k bk Hk. rewrite recycled_lookup. case_decide as Eki.
      { intros [= <-] _. cbn. congruence. }
      intros Hbk Hdk. by apply (proj1 (cache_None s Hinv x) Ex k bk).
Qed.

Lemma recycled_view x : view s' x = view s x.
Proof.
  destruct recycled_old as (Hold & Hnb & Hnd).
  unfold view. rewrite recycled_cache. case_decide as E; [by subst; rewrite Hc|].
  destruct (cache s x) as [[j bj]|] eqn:Ex; [|done]. case_decide as Eji; [|done]. subst j.
  destruct (cache_ok s Hinv x i bj Ex) as (_ & _ & _ & Hcl).
  apply cache_iff in Ex as (_ & Hbj & _); [|done]. rewrite Hold in Hbj. injection Hbj as <-.
  by rewrite Hcl.
Qed.

Lemma recycled_post : bread_post s b i s'.
Proof.
  destruct recycled_old as (Hold & Hnb & Hnd). destruct recycled_flags as (Hf1 & Hf2 & Hf3).
  unfold bread_post. split_and!; auto using recycled_inv, recycled_view.
  - destruct (held s !! i) as [x|] eqn:Hx; [|done].
    apply lookup_held in Hx as (bf1 & _ & Hl1 & Hb1 & _). rewrite Hold in Hl1.
    injection Hl1 as <-. change (flag B_BUSY bf = true) in Hb1. congruence.
  - apply map_eq. intros j. apply option_eq. intros x. rewrite lookup_insert. case_decide as E.
    + subst j. rewrite lookup_held, recycled_lookup, decide_True by done. split.
      * intros (? & _ & [= <-] & _ & <-). done.
      * intros [= <-]. by exists (body bf').
    + by rewrite !lookup_held, recycled_lookup, decide_False.
  - intros x. unfold dirty. rewrite recycled_cache. case_decide as E; [by subst; rewrite Hc|].
    destruct (cache s x) as [[j bj]|] eqn:Ex; [|done]. case_decide as Eji; [|done]. subst j.
    apply cache_iff in Ex as (_ & Hbj & _ & _); [|done]. rewrite Hold in Hbj. by injection Hbj as <-.
Qed.
End Recycled.

(** ** A buffer to recycle *)

Lemma first_recyclable bs l :
  (exists i, i ∈ l /\ recyclable bs i = true) ->
  exists l1 i l2, l = l1 ++ i :: l2 /\ recyclable bs i = true /\
    (forall j, j ∈ l1 -> recyclable bs j = false).
Proof.
  induction l as [|x l IH]; intros (i & Hi & Hr); [set_solver|].
  destruct (recyclable bs x) eqn:Hx.
  - exists [], x, l. split_and!; try done. set_solver.
  - apply elem_of_cons in Hi as [->|Hi]; [congruence|].
    destruct IH as (l1 & j & l2 & -> & Hj & Hl1); [eauto|].
    exists (x :: l1), j, l2. split_and!; try done. set_solver.
Qed.

Lemma not_recyclable s i :
  bio_inv s -> (i < 30)%nat -> recyclable (bufs s) i = false -> held s !! i = None ->
  exists bf, bodies (bufs s) !! i = Some bf /\ flag B_DIRTY bf = true /\ b_dev bf = ROOTDEV.
Proof.
  intros Hinv Hi Hall Hh.
  destruct (lookup_lt_is_Some_2 (bufs s) i) as [bf Hbf]; [rewrite (bi_len s Hinv); lia|].
  assert (Hl : bodies (bufs s) !! i = Some (body bf)) by (apply body_lookup; eauto).
  exists (body bf). unfold recyclable in Hall. rewrite Hbf in Hall.
  destruct (flag B_BUSY bf) eqn:Hb.
  { assert (held s !! i = Some (b_blockno bf)) as E by (apply lookup_held; by exists (body bf)).
    congruence. }
  destruct (flag B_DIRTY bf) eqn:Hd; [|done]. split_and!; try done.
  destruct (bi_buf s Hinv i (body bf) Hi Hl) as (_ & [(_ & _ & Hd')|(Hd' & _)]); [|done].
  change (flag B_DIRTY bf = false) in Hd'. congruence.
Qed.

(** A buffer is recyclable unless it is locked or its block is marked for the
    log, so there is one when those are fewer than [NBUF]. *)
Lemma recyclable_exists s T :
  bio_inv s -> (forall x, dirty s x = true -> x ∈ T) -> (size (held s) + length T < 30)%nat ->
  exists i, (i < 30)%nat /\ recyclable (bufs s) i = true.
Proof.
  intros Hinv HT Hsz.
  destruct (decide (Forall (fun i => recyclable (bufs s) i = false) (seq 0 30))) as [Hall|Hn].
  2: { apply not_Forall_Exists, Exists_exists in Hn as (i & Hi & Hr).
       apply elem_of_seq in Hi. exists i. split; [lia|]. { by apply not_false_is_true. } all: intros ?; apply _. }
  exfalso. rewrite Forall_forall in Hall.
  set (tag := fun i => match held s !! i with
                       | Some _ => inl i
                       | None => inr (from_option b_blockno 0 (bodies (bufs s) !! i))
                       end : nat + Z).
  assert (Hdirty : forall i, (i < 30)%nat -> held s !! i = None -> exists bf,
            bodies (bufs s) !! i = Some bf /\ flag B_DIRTY bf = true /\ b_dev bf = ROOTDEV).
  { intros i Hi. apply not_recyclable; [done..|]. apply Hall, elem_of_seq. lia. }
  assert (Hsub : (tag <$> seq 0 30) ⊆+ ((inl <$> (map_to_list (held s)).*1) ++ (inr <$> T))).
  { apply NoDup_submseteq.
    - apply NoDup_fmap_2_strong; [|apply NoDup_seq]. intros i j Hi Hj E.
      apply elem_of_seq in Hi, Hj. unfold tag in E.
      destruct (held s !! i) eqn:Ei, (held s !! j) eqn:Ej; try congruence.
      destruct (Hdirty i) as (bi & Hbi & _ & Hdi); [lia|done|].
      destruct (Hdirty j) as (bj & Hbj & _ & Hdj); [lia|done|].
      rewrite Hbi, Hbj in E. injection E as E.
      apply (cached_once s Hinv i j bi bj); try done; lia.
    - intros t Ht. apply list_elem_of_fmap in Ht as (i & -> & Hi). apply elem_of_seq in Hi.
      unfold tag. destruct (held s !! i) as [x|] eqn:Ei; apply elem_of_app.
      + left. apply list_elem_of_fmap. exists i. split; [done|]. apply list_elem_of_fmap.
        exists (i, x). split; [done|]. by apply elem_of_map_to_list.
      + right. apply list_elem_of_fmap. destruct (Hdirty i) as (bi & Hbi & Hdi & Hri); [lia|done|].
        rewrite Hbi. eexists. split; [done|]. apply HT. unfold dirty. cbn [from_option default].
        assert (cache s (b_blockno bi) = Some (i, bi)) as ->; [|done].
        apply cache_iff; [done|]. split_and!; try done. lia. }
  apply submseteq_length in Hsub. rewrite length_app, !length_fmap, length_seq in Hsub.
  rewrite length_map_to_list in Hsub. lia.
Qed.

(** [bread] of a block not locked by the caller returns a buffer with its
    contents, as long as a buffer is cached for it or can be recycled. *)
Lemma bread_Ok s b T :
  bio_inv s -> 0 <= b < FSSIZE -> (forall x, dirty s x = true -> x ∈ T) ->
  (forall i, held s !! i <> Some b) ->
  (dirty s b = true \/ (size (held s) + length T < 30)%nat) ->
  exists i s', bread ROOTDEV b s = Ok i s' /\ bread_post s b i s'.
Proof.
  intros Hinv Hb HT Hh Hroom. destruct (cache s b) as [[i bf]|] eqn:Hc.
  - destruct (flag B_BUSY bf) eqn:Hbusy.
    + exfalso. apply (Hh i). apply lookup_held.
      apply cache_iff in Hc as (? & ? & ? & ?); [|done]. by exists bf.
    + destruct (bread_hit s b i bf) as (s' & H1 & H2); eauto.
  - destruct Hroom as [Hd|Hroom]; [unfold dirty in Hd; by rewrite Hc in Hd|].
    destruct (bi_lru s Hinv) as [l Hl].
    destruct (first_recyclable (bufs s) l) as (l1 & i & l2 & -> & Hi & Hl1).
    { destruct (recyclable_exists s T Hinv HT Hroom) as (i & Hi & Hr). exists i. split; [|done].
      rewrite (proj1 Hl), elem_of_seq. change (Z.to_nat NBUF) with 30%nat. lia. }
    assert (Hi30 : (i < 30)%nat) by (apply (lru_lt _ _ _ Hl); set_solver).
    destruct (lookup_lt_is_Some_2 (bufs s) i) as [bf Hbf]; [rewrite (bi_len s Hinv); lia|].
    exists i, (recycled s b i bf). split; [by apply (bread_miss_run s b l1 i l2)|].
    by eapply recycled_post.
Qed.

(** A block neither locked nor marked for the log is on the disk as it is read. *)
Lemma view_stable s b :
  bio_inv s -> (forall i, held s !! i <> Some b) -> dirty s b = false ->
  view s b = disk_get (disk s) (1, b).
Proof.
  intros Hinv Hh Hd. unfold view. destruct (cache s b) as [[i bf]|] eqn:Hc; [|done].
  unfold dirty in Hd. rewrite Hc in Hd.
  destruct (cache_ok s Hinv b i bf Hc) as (_ & _ & _ & Hcl). apply Hcl; [|done].
  destruct (flag B_BUSY bf) eqn:Hb; [|done]. destruct (Hh i). apply lookup_held.
  apply cache_iff in Hc as (? & ? & ? & ?); [|done]. by exists bf.
Qed.

(** ** Boot *)

(** The static memory of the kernel before [binit], over a disk [d]. *)
Definition zero_buf : buf := Buf 0 0 0 0 0 zero_block.
Definition boot (d : gmap sector (list Z)) : bio :=
  Bio (replicate 31 zero_buf) 0 ∅ [] true IDE_DRDY (0, 0) d [].

(** The buffer at [i] after [binit]: the last one linked is the first. *)
Definition booted_buf (i : nat) : buf :=
  if Nat.eqb i HEAD then Buf 0 0 0 0 29 zero_block
  else Buf 0 (u32 (-1)) 0 (if Nat.eqb i 29 then HEAD else S i)
           (if Nat.eqb i 0 then HEAD else pred i) zero_block.
Definition booted (d : gmap sector (list Z)) : bio :=
  Bio (booted_buf <$> seq 0 31) HASHSIZE ∅ [] true IDE_DRDY (0, 0) d [].

Lemma binit_booted d : binit (boot d) = Ok tt (booted d).
Proof. vm_compute. reflexivity. Qed.

Lemma booted_lru : lru (booted_buf <$> seq 0 31) (rev (seq 0 30)).
Proof. split; [symmetry; apply Permutation_rev|]. vm_compute. repeat split. Qed.

Lemma booted_inv d : (forall c, wf_block (disk_get d c)) -> bio_inv (booted d).
Proof.
  intros Hd. constructor; try done.
  - exists (rev (seq 0 30)). apply booted_lru.
  - intros i bf Hi Hb. apply body_lookup in Hb as (b0 & Hb & ->).
    cbn [bufs booted] in Hb. apply list_lookup_fmap_Some in Hb as (j & -> & [-> _]%lookup_seq).
    split; [|left]; unfold booted_buf; case_match; try done; cbn in *;
      try apply wf_zero_block. apply Nat.eqb_eq in H. unfold HEAD in H. lia.
Qed.

Lemma booted_empty d :
  held (booted d) = ∅ /\ (forall b, dirty (booted d) b = false) /\
  (forall b, view (booted d) b = disk_get d (1, b)).
Proof. split_and!; [by vm_compute| |]; intros b; reflexivity. Qed.

(** ** The cache as a block device

    The specification of the cache: volatile contents [vol], stable contents
    [stable], and the set of locked blocks.  A client names a buffer by the
    block it holds. *)
Inductive bcmd := Bread (b : Z) | Bset (b : Z) (d : list Z) | Bwrite (b : Z) | Brelse (b : Z).

Record bdev := BDev {
  bd_vol : gmap Z (list Z);
  bd_stable : gmap Z (list Z);
  bd_locked : gset Z
}.

Definition contents (m : gmap Z (list Z)) (b : Z) : list Z := default zero_block (m !! b).

Definition bdev_step (c : bcmd) (v : bdev) : option (list (list Z) * bdev) :=
  let 'BDev vol st lk := v in
  match c with
  | Bread b =>
      if bool_decide (0 <= b < FSSIZE /\ (b ∉ lk) /\ (size lk < 30)%nat)
      then Some ([contents vol b], BDev vol st ({[b]} ∪ lk)) else None
  | Bset b d =>
      if bool_decide (b ∈ lk /\ length d = 512%nat /\ Forall is_u8 d)
      then Some ([], BDev (<[b := d]> vol) st lk) else None
  | Bwrite b =>
      if bool_decide (b ∈ lk) then Some ([], BDev vol (<[b := contents vol b]> st) lk) else None
  | Brelse b =>
      if bool_decide (b ∈ lk /\ contents vol b = contents st b)
      then Some ([], BDev vol st (lk ∖ {[b]})) else None
  end.

Fixpoint bdev_run (cs : list bcmd) (v : bdev) : option (list (list Z) * bdev) :=
  match cs with
  | [] => Some ([], v)
  | c :: cs =>
      match bdev_step c v with
      | None => None
      | Some (o, v) =>
          match bdev_run cs v with None => None | Some (os, v) => Some (o ++ os, v) end
      end
  end.

(** The same client over bio.c, which keeps the buffer of each block it holds. *)
Definition bio_step (c : bcmd) (h : gmap Z nat) : M bio (list (list Z) * gmap Z nat) :=
  match c with
  | Bread b =>
      let! i := bread ROOTDEV b in
      let! d := bdata i in
      ret ([d], <[b := i]> h)
  | Bset b d =>
      let! i := of_option (Undefined "no buffer") (h !! b) in bset i d ;;; ret ([], h)
  | Bwrite b =>
      let! i := of_option (Undefined "no buffer") (h !! b) in bwrite i ;;; ret ([], h)
  | Brelse b =>
      let! i := of_option (Undefined "no buffer") (h !! b) in brelse i ;;; ret ([], delete b h)
  end.

Fixpoint bio_run (cs : list bcmd) (h : gmap Z nat) : M bio (list (list Z) * gmap Z nat) :=
  match cs with
  | [] => ret ([], h)
  | c :: cs =>
      let! r := bio_step c h in
      let! r' := bio_run cs (snd r) in
      ret (fst r ++ fst r', snd r')
  end.

(** The simulation relation. *)
Record bdev_sim (v : bdev) (s : bio) (h : gmap Z nat) : Prop := {
  bs_inv : bio_inv s;
  bs_vol : forall b, view s b = contents (bd_vol v) b;
  bs_stable : forall b, disk_get (disk s) (1, b) = contents (bd_stable v) b;
  bs_held : forall i b, held s !! i = Some b <-> h !! b = Some i;
  bs_dom : dom h = bd_locked v;
  bs_clean : forall b, dirty s b = false
}.

Lemma contents_insert m b d x :
  contents (<[b := d]> m) x = if decide (x = b) then d else contents m x.
Proof.
  unfold contents. rewrite lookup_insert. repeat case_decide; try congruence; done.
Qed.

Lemma sim_handle v s h b :
  bdev_sim v s h -> b ∈ bd_locked v -> exists i, h !! b = Some i /\ held s !! i = Some b.
Proof.
  intros Hs Hb. rewrite <- (bs_dom _ _ _ Hs) in Hb. apply elem_of_dom in Hb as [i Hi].
  exists i. split; [done|]. by apply (bs_held _ _ _ Hs).
Qed.

Lemma sim_held_size v s h : bdev_sim v s h -> (size (held s) <= size (bd_locked v))%nat.
Proof.
  intros Hs. rewrite <- (bs_dom _ _ _ Hs), size_dom.
  rewrite <- !length_map_to_list. rewrite <- (length_fmap prod_swap (map_to_list (held s))).
  apply submseteq_length, NoDup_submseteq.
  - apply NoDup_fmap_2; [|apply NoDup_map_to_list]. intros [] []. cbn. congruence.
  - intros [b i] Hbi. apply list_elem_of_fmap in Hbi as ([i' b'] & [= -> ->] & Hi).
    apply elem_of_map_to_list in Hi. apply elem_of_map_to_list. by apply (bs_held _ _ _ Hs).
Qed.

Lemma sim_bread v s h b :
  bdev_sim v s h -> 0 <= b < FSSIZE -> b ∉ bd_locked v -> (size (bd_locked v) < 30)%nat ->
  exists i s', bio_step (Bread b) h s = Ok ([contents (bd_vol v) b], <[b := i]> h) s' /\
    bdev_sim (BDev (bd_vol v) (bd_stable v) ({[b]} ∪ bd_locked v)) s' (<[b := i]> h).
Proof.
  intros Hs Hb Hlk Hsz. pose proof (sim_held_size _ _ _ Hs).
  destruct (bread_Ok s b []) as (i & s' & Hrun & Hpost).
  { apply Hs. } { done. } { intros x Hx. by rewrite (bs_clean _ _ _ Hs) in Hx. }
  { intros i Hi. apply (bs_held _ _ _ Hs) in Hi. apply Hlk.
    rewrite <- (bs_dom _ _ _ Hs). by apply elem_of_dom_2 in Hi. }
  { right. cbn. lia. }
  destruct Hpost as (Hinv & Hd & _ & Hni & Hh & Hv & Hdi).
  assert (Hbd : bdata i s' = Ok (view s' b) s').
  { apply bdata_Ok; [done|]. rewrite Hh. apply lookup_insert_eq. }
  exists i, s'. split.
  { unfold bio_step. rewrite (bind_Ok _ _ _ _ _ Hrun), (bind_Ok _ _ _ _ _ Hbd), Hv.
    by rewrite (bs_vol _ _ _ Hs). }
  assert (Hbh : h !! b = None) by (apply not_elem_of_dom; by rewrite (bs_dom _ _ _ Hs)).
  constructor; cbn; try done.
  - intros x. rewrite Hv. apply Hs.
  - intros x. rewrite Hd. apply Hs.
  - intros j x. rewrite Hh, !lookup_insert. pose proof (bs_held _ _ _ Hs j x) as Hx.
    repeat case_decide; subst; try naive_solver.
  - rewrite dom_insert_L, (bs_dom _ _ _ Hs). done.
  - intros x. rewrite Hdi. apply Hs.
Qed.

Lemma sim_bset v s h b d :
  bdev_sim v s h -> b ∈ bd_locked v -> length d = 512%nat -> Forall is_u8 d ->
  exists s', bio_step (Bset b d) h s = Ok ([], h) s' /\
    bdev_sim (BDev (<[b := d]> (bd_vol v)) (bd_stable v) (bd_locked v)) s' h.
Proof.
  intros Hs Hb Hlen Hd. destruct (sim_handle _ _ _ _ Hs Hb) as (i & Hi & Hh).
  destruct (bset_Ok s i b d) as (s' & Hrun & Hinv & Hdk & _ & Hh' & Hv & Hdi); [apply Hs|done|done|].
  exists s'. split.
  { unfold bio_step. rewrite Hi. cbn. by rewrite (bind_Ok _ _ _ _ _ Hrun). }
  constructor; cbn; try apply Hs; try done.
  - intros x. rewrite Hv, contents_insert. case_decide; [done|apply Hs].
  - rewrite Hdk. apply Hs.
  - rewrite Hh'. apply Hs.
  - intros x. rewrite Hdi. apply Hs.
Qed.

Lemma sim_bwrite v s h b :
  bdev_sim v s h -> b ∈ bd_locked v ->
  exists s', bio_step (Bwrite b) h s = Ok ([], h) s' /\
    bdev_sim (BDev (bd_vol v) (<[b := contents (bd_vol v) b]> (bd_stable v)) (bd_locked v)) s' h.
Proof.
  intros Hs Hb. destruct (sim_handle _ _ _ _ Hs Hb) as (i & Hi & Hh).
  destruct (bwrite_Ok s i b) as (s' & Hrun & Hinv & Hh' & Hdk & _ & Hv & Hdi); [apply Hs|done|].
  exists s'. split.
  { unfold bio_step. rewrite Hi. cbn. by rewrite (bind_Ok _ _ _ _ _ Hrun). }
  constructor; cbn; try apply Hs; try done.
  - intros x. rewrite Hv. apply Hs.
  - intros x. rewrite Hdk, contents_insert. unfold disk_get. rewrite lookup_insert.
    case_decide as E1; case_decide as E2; simplify_eq; try done.
    + apply Hs.
    + apply Hs.
  - rewrite Hh'. apply Hs.
  - intros x. rewrite Hdi, (bs_clean _ _ _ Hs). apply andb_false_r.
Qed.

Lemma sim_brelse v s h b :
  bdev_sim v s h -> b ∈ bd_locked v -> contents (bd_vol v) b = contents (bd_stable v) b ->
  exists s', bio_step (Brelse b) h s = Ok ([], delete b h) s' /\
    bdev_sim (BDev (bd_vol v) (bd_stable v) (bd_locked v ∖ {[b]})) s' (delete b h).
Proof.
  intros Hs Hb Heq. destruct (sim_handle _ _ _ _ Hs Hb) as (i & Hi & Hh).
  destruct (brelse_Ok s i b) as (s' & Hrun & Hinv & Hdk & _ & Hh' & Hv & Hdi); [apply Hs|done| |].
  { right. by rewrite (bs_vol _ _ _ Hs), (bs_stable _ _ _ Hs). }
  exists s'. split.
  { unfold bio_step. rewrite Hi. cbn. by rewrite (bind_Ok _ _ _ _ _ Hrun). }
  constructor; cbn; try done.
  - intros x. rewrite Hv. apply Hs.
  - rewrite Hdk. apply Hs.
  - intros j x. rewrite Hh', !lookup_delete. pose proof (bs_held _ _ _ Hs j x) as Hx.
    repeat case_decide; subst; naive_solver.
  - rewrite dom_delete_L, (bs_dom _ _ _ Hs). done.
  - intros x. rewrite Hdi. apply Hs.
Qed.

Lemma sim_step c v s h o v' :
  bdev_sim v s h -> bdev_step c v = Some (o, v') ->
  exists h' s', bio_step c h s = Ok (o, h') s' /\ bdev_sim v' s' h'.
Proof.
  intros Hs Hstep. destruct v as [vol st lk].
  destruct c; cbn in Hstep; case_bool_decide; simplify_eq.
  - destruct H as (? & ? & ?).
    destruct (sim_bread _ _ _ b Hs) as (i & s' & Hr & Hs'); eauto.
  - destruct H as (? & ? & ?).
    destruct (sim_bset _ _ _ b d Hs) as (s' & Hr & Hs'); eauto.
  - destruct (sim_bwrite _ _ _ b Hs) as (s' & Hr & Hs'); eauto.
  - destruct H as (? & ?).
    destruct (sim_brelse _ _ _ b Hs) as (s' & Hr & Hs'); eauto.
Qed.

Lemma sim_run cs : forall v s h os v',
  bdev_sim v s h -> bdev_run cs v = Some (os, v') ->
  exists h' s', bio_run cs h s = Ok (os, h') s' /\ bdev_sim v' s' h'.
Proof.
  induction cs as [|c cs IH]; intros v s h os v' Hs Hrun; cbn in Hrun.
  { simplify_eq. eexists _, _. split; [reflexivity|done]. }
  destruct (bdev_step c v) as [[o v1]|] eqn:H1; [|done].
  destruct (bdev_run cs v1) as [[os' v2]|] eqn:H2; simplify_eq.
  destruct (sim_step _ _ _ _ _ _ Hs H1) as (h1 & s1 & Hr1 & Hs1).
  destruct (IH _ _ _ _ _ Hs1 H2) as (h2 & s2 & Hr2 & Hs2).
  eexists _, _. split; [|apply Hs2]. cbn. rewrite (bind_Ok _ _ _ _ _ Hr1). cbn [snd].
  by rewrite (bind_Ok _ _ _ _ _ Hr2).
Qed.

(** The disk image a device starts from. *)
Definition image (m : gmap Z (list Z)) : gmap sector (list Z) :=
  kmap (fun b => (1, b)) m.

Lemma image_get m b : disk_get (image m) (1, b) = contents m b.
Proof.
  unfold disk_get, image, contents. f_equal. apply lookup_kmap. intros x y. congruence.
Qed.

Lemma image_wf m c : map_Forall (fun _ d => wf_block d) m -> wf_block (disk_get (image m) c).
Proof.
  intros Hm. unfold disk_get, image. destruct (kmap _ m !! c) as [d|] eqn:E; [|apply wf_zero_block].
  apply lookup_kmap_Some in E as (b & -> & Hb); [|intros x y; congruence]. by apply (Hm b).
Qed.

(** C3: the buffer cache implements a block device.  For every disk image and
    every sequence of [bread]/[bwrite]/[brelse] calls and accesses to [b->data]
    that the device specification admits (a block is locked once, touched only
    while locked, and released unmodified or written back; at most [NBUF] are
    locked at a time), bio.c over ide.c, started by [binit], runs to completion,
    every [bread] delivers the contents the specification gives, the disk ends
    as specified, and the cache invariant holds. *)
Theorem bio_refines_block_device m cs os v :
  map_Forall (fun _ d => wf_block d) m ->
  bdev_run cs (BDev m m ∅) = Some (os, v) ->
  exists h s s', binit (boot (image m)) = Ok tt s /\ bio_run cs ∅ s = Ok (os, h) s' /\
    bio_inv s' /\ (forall b, disk_get (disk s') (1, b) = contents (bd_stable v) b) /\
    (forall b, view s' b = contents (bd_vol v) b).
Proof.
  intros Hm Hrun.
  destruct (booted_empty (image m)) as (Hh & Hd & Hv).
  assert (Hsim : bdev_sim (BDev m m ∅) (booted (image m)) ∅).
  { constructor; cbn; try done.
    - apply booted_inv. intros c. by apply image_wf.
    - intros b. apply image_get.
    - intros b. apply image_get. }
  destruct (sim_run _ _ _ _ _ _ Hsim Hrun) as (h & s' & Hr & Hs').
  exists h, (booted (image m)), s'. split_and!; try apply Hs'; try done.
Qed.

Definition demo_block : list Z := replicate 512 7.
Definition demo_script : list bcmd :=
  [Bread 5; Bread 9; Bset 5 demo_block; Bwrite 5; Brelse 5; Bread 5; Brelse 9; Brelse 5].

Lemma bio_refines_block_device_witness :
  exists h s s', binit (boot (image {[9 := demo_block]})) = Ok tt s /\
    bio_run demo_script ∅ s = Ok ([zero_block; demo_block; demo_block], h) s'.
Proof.
  assert (Hb : wf_block demo_block).
  { split; [reflexivity|]. apply Forall_replicate. unfold is_u8. lia. }
  assert (Hrun : exists v, bdev_run demo_script (BDev {[9 := demo_block]} {[9 := demo_block]} ∅)
                 = Some ([zero_block; demo_block; demo_block], v)).
  { eexists. vm_compute. reflexivity. }
  destruct Hrun as [v Hv].
  destruct (bio_refines_block_device _ _ _ _ (proj2 (map_Forall_singleton _ 9 demo_block) Hb) Hv)
    as (h & s & s' & H1 & H2 & _).
  exists h, s, s'. by split.
Defined.

(** The cache recycles the most recently used buffer first.  When a buffer
    is released unmodified and the next block read is not cached, [bget] takes
    the buffer just released, whichever other buffers are free: the scan starts
    at [head.next], where [brelse] puts it. *)
Lemma bget_recycles_last_released s i b0 b :
  bio_inv s -> held s !! i = Some b0 -> dirty s b0 = false ->
  view s b0 = disk_get (disk s) (1, b0) ->
  0 <= b < FSSIZE -> cache s b = None ->
  exists s1 s2, brelse i s = Ok tt s1 /\ view s1 b0 = view s b0 /\
    bread ROOTDEV b s1 = Ok i s2 /\ cache s2 b0 = None.
Proof.
  intros Hinv Hh Hdi Heq Hb Hc.
  destruct (held_body s i b0 Hinv Hh) as (bf & Hi & Hbf & Hbusy & Hn & Hd & _ & _ & _ & Hdb & _).
  destruct (brelse_Ok s i b0) as (s1 & Hrun & Hinv1 & Hdk & _ & Hh1 & Hv1 & Hd1); [auto..|].
  destruct (brelse_step s i bf Hinv Hi Hbf Hd Hbusy) as (s1' & Hrun' & _ & _ & Hst & l & Hl).
  rewrite Hrun in Hrun'. injection Hrun' as <-.
  assert (Hb1 : bodies (bufs s1) !! i = Some (body (b_clear B_BUSY bf)))
    by (apply (step_lookup_eq s s1 i _ _ Hinv Hst)).
  apply body_lookup in Hb1 as (bf1 & Hbf1 & Hbody).
  assert (Hrec : recyclable (bufs s1) i = true).
  { unfold recyclable. rewrite Hbf1. change (flag ?m bf1) with (flag m (body bf1)).
    rewrite <- Hbody. change (flag ?m (body ?z)) with (flag m z). flags.
    by rewrite <- Hdb, Hdi. }
  assert (Hc1 : cache s1 b = None).
  { rewrite (step_cache s s1 _ _ _ Hinv Hst), Hc. cbn. rewrite Hn. case_decide; [|done].
    subst b. destruct (held_cache s Hinv i b0 Hh) as (? & ? & _). congruence. }
  exists s1, (recycled s1 b i bf1). split_and!; [done|apply Hv1| |].
  - apply (bread_miss_run s1 b [] i l); try done. set_solver.
  - rewrite (recycled_cache s1 b (i :: l) i bf1) by done. case_decide.
    { subst b. destruct (held_cache s Hinv i b0 Hh) as (? & ? & _). congruence. }
    rewrite (step_cache s s1 _ _ _ Hinv Hst). cbn. rewrite Hn, decide_True by done. by rewrite decide_True.
Qed.

Definition one_held : bio := match bread ROOTDEV 5 (booted ∅) with Ok _ s => s | Stop _ s => s end.

Lemma bget_recycles_last_released_witness :
  exists s1 s2, brelse 29 one_held = Ok tt s1 /\ bread ROOTDEV 6 s1 = Ok 29%nat s2 /\
    cache s2 5 = None.
Proof.
  assert (Hinv : bio_inv one_held).
  { destruct (bread_Ok (booted ∅) 5 []) as (i & s' & Hr & Hp).
    - apply booted_inv. intros c. apply wf_zero_block.
    - klia.
    - done.
    - intros i. by rewrite (proj1 (booted_empty ∅)).
    - right. rewrite (proj1 (booted_empty ∅)). vm_compute. lia.
    - unfold one_held. rewrite Hr. apply Hp. }
  destruct (bget_recycles_last_released one_held 29 5 6) as (s1 & s2 & H1 & _ & H2 & H3);
    [done|by vm_compute|by vm_compute|by vm_compute|klia|by vm_compute|].
  exists s1, s2. by split_and!.
Defined.

(** The cache is not sound for two devices.  The hash table is indexed by
    the block number alone, so reading block 5 of device 0 while block 5 of
    device 1 is locked removes the latter from the table, and a second [bread]
    of it returns another buffer instead of sleeping: two callers hold block 5
    of device 1 at once, each with its own copy. *)
Lemma bread_two_devices_two_holders :
  exists s1 i j k s2, binit (boot ∅) = Ok tt s1 /\
    (let! i := bread 1 5 in let! k := bread 0 5 in let! j := bread 1 5 in ret (i, k, j)) s1
      = Ok (i, k, j) s2 /\ i <> j /\
    (flag B_BUSY <$> bufs s2 !! i) = Some true /\ (flag B_BUSY <$> bufs s2 !! j) = Some true /\
    (b_blockno <$> bufs s2 !! i) = Some 5 /\ (b_blockno <$> bufs s2 !! j) = Some 5 /\
    (b_dev <$> bufs s2 !! i) = Some 1 /\ (b_dev <$> bufs s2 !! j) = Some 1.
Proof.
  exists (booted ∅), 29%nat, 27%nat, 28%nat. eexists. split; [apply binit_booted|].
  split; [vm_compute; reflexivity|]. split; [lia|]. by vm_compute.
Qed.
