(* ===== verification/Block.v ===== *)
(** * Block: the interface between the file system and the block layer

    fs.c, file.c and sysfile.c reach the disk only through [bread], [brelse],
    the data of a locked buffer, [log_write] and [begin_op]/[end_op].
    [BlockOps] names these operations over the state [L] of whatever implements
    them, and [BlockLayer] states what an implementation promises, in terms of
    an abstract view of its state: the contents of every block, which buffers
    are locked, which blocks the current transaction has logged.  Log.v shows
    that bio.c and log.c keep the promise; the theorems on fs.c are proved
    against the interface. *)

From S2P Require Import Prelude Layout.
Open Scope Z_scope.
Open Scope xv6_scope.

Class BlockOps (L : Type) := {
  bread : Z -> Z -> M L nat;
  brelse : nat -> M L unit;
  bdata : nat -> M L (list Z);
  bset : nat -> list Z -> M L unit;
  log_write : nat -> M L unit;
  begin_op : M L unit;
  end_op : M L unit
}.

(** fs.c:26. *)
Definition readsb {L} `{BlockOps L} (dev : Z) : M L superblock :=
  let! bp := bread dev 1 in
  let! d := bdata bp in
  brelse bp ;;;
  ret (dec_superblock (take 16 d)).

(** The first block of the log, which ends the disk; the blocks below are the
    file system's. *)
Definition LOGSTART : Z := FSSIZE - LOGSIZE.

(** The abstract state of a block layer. *)
Class BlockView (L : Type) := {
  bl_inv : L -> Prop;
  (** the contents of a block, as the next reader sees them *)
  bl_view : L -> Z -> list Z;
  (** the locked buffers, with their blocks *)
  bl_held : L -> gmap nat Z;
  (** the blocks of the current transaction, in the order first logged *)
  bl_trans : L -> list Z;
  (** system calls between [begin_op] and [end_op] *)
  bl_outstanding : L -> Z;
  (** the buffer of the block may be released: unmodified, or logged *)
  bl_clean : L -> Z -> Prop
}.

(** Two layer states that differ only in ways [P] describes. *)
Record bl_same {L} `{BlockView L} (l l' : L) : Prop := {
  same_view : forall x, bl_view l' x = bl_view l x;
  same_trans : bl_trans l' = bl_trans l;
  same_outstanding : bl_outstanding l' = bl_outstanding l;
  same_clean : forall x, bl_clean l x -> bl_clean l' x
}.

(** Blocks a transaction can still lock: a buffer is left, or [b] is pinned. *)
Definition bl_room {L} `{BlockView L} (l : L) (b : Z) : Prop :=
  b ∈ bl_trans l \/ (size (bl_held l) + length (bl_trans l) < Z.to_nat NBUF)%nat.

(** The block's buffer is not locked by the running code. *)
Definition bl_unlocked {L} `{BlockView L} (l : L) (b : Z) : Prop :=
  forall i, bl_held l !! i <> Some b.

(** The transaction after logging [b]. *)
Definition trans_add (b : Z) (t : list Z) : list Z :=
  if decide (b ∈ t) then t else t ++ [b].

Class BlockLayer (L : Type) `{BlockOps L} `{BlockView L} := {
  bl_wf : forall l b, bl_inv l -> wf_block (bl_view l b);
  bl_nodup : forall l, bl_inv l -> NoDup (bl_trans l);

  bread_law : forall l b,
    bl_inv l -> 0 <= b < LOGSTART -> bl_unlocked l b -> bl_room l b ->
    exists i l', bread ROOTDEV b l = Ok i l' /\ bl_inv l' /\ bl_same l l' /\
      bl_held l !! i = None /\ bl_held l' = <[i := b]> (bl_held l) /\ bl_clean l' b;

  bdata_law : forall l i b,
    bl_inv l -> bl_held l !! i = Some b -> bdata i l = Ok (bl_view l b) l;

  bset_law : forall l i b d,
    bl_inv l -> bl_held l !! i = Some b -> wf_block d ->
    exists l', bset i d l = Ok tt l' /\ bl_inv l' /\ bl_held l' = bl_held l /\
      bl_trans l' = bl_trans l /\ bl_outstanding l' = bl_outstanding l /\
      (forall x, bl_view l' x = if decide (x = b) then d else bl_view l x) /\
      (forall x, x <> b -> bl_clean l x -> bl_clean l' x);

  log_write_law : forall l i b,
    bl_inv l -> bl_held l !! i = Some b -> 1 <= bl_outstanding l ->
    (length (bl_trans l) < Z.to_nat (LOGSIZE - 1))%nat ->
    exists l', log_write i l = Ok tt l' /\ bl_inv l' /\ bl_held l' = bl_held l /\
      bl_trans l' = trans_add b (bl_trans l) /\ bl_outstanding l' = bl_outstanding l /\
      (forall x, bl_view l' x = bl_view l x) /\
      (forall x, bl_clean l x -> bl_clean l' x) /\ bl_clean l' b;

  brelse_law : forall l i b,
    bl_inv l -> bl_held l !! i = Some b -> bl_clean l b ->
    exists l', brelse i l = Ok tt l' /\ bl_inv l' /\ bl_same l l' /\
      bl_held l' = delete i (bl_held l);

  begin_op_law : forall l,
    bl_inv l ->
    Z.of_nat (length (bl_trans l)) + (bl_outstanding l + 1) * MAXOPBLOCKS <= LOGSIZE ->
    exists l', begin_op l = Ok tt l' /\ bl_inv l' /\ bl_held l' = bl_held l /\
      bl_trans l' = bl_trans l /\ bl_outstanding l' = bl_outstanding l + 1 /\
      (forall x, bl_view l' x = bl_view l x) /\ (forall x, bl_clean l x -> bl_clean l' x);

  (** the last [end_op] commits: no buffer may be locked then *)
  end_op_law : forall l,
    bl_inv l -> 1 <= bl_outstanding l -> (bl_outstanding l = 1 -> bl_held l = ∅) ->
    exists l', end_op l = Ok tt l' /\ bl_inv l' /\ bl_held l' = bl_held l /\
      bl_outstanding l' = bl_outstanding l - 1 /\
      bl_trans l' = (if bl_outstanding l =? 1 then [] else bl_trans l) /\
      (forall x, 0 <= x < LOGSTART -> bl_view l' x = bl_view l x) /\ (forall x, bl_clean l x -> bl_clean l' x)
}.

(** ** Rules for clients

    The file system locks a block, works, and releases it, possibly with other
    such sections in between; what it leaves behind is described by the new
    contents and the new transaction. *)

Lemma trans_add_length b t : (length (trans_add b t) <= S (length t))%nat.
Proof. unfold trans_add. case_decide; [lia|]. rewrite length_app. cbn. lia. Qed.

Lemma trans_add_In b t x : x ∈ trans_add b t <-> x = b \/ x ∈ t.
Proof. unfold trans_add. case_decide; set_solver. Qed.

Definition upd_view (b : Z) (d : list Z) (v : Z -> list Z) (x : Z) : list Z :=
  if decide (x = b) then d else v x.

Lemma upd_view_eq b d v : upd_view b d v b = d.
Proof. unfold upd_view. by rewrite decide_True. Qed.
Lemma upd_view_ne b d v x : x <> b -> upd_view b d v x = v x.
Proof. intros. unfold upd_view. by rewrite decide_False. Qed.

(** The transaction grows by at most [n] blocks outside [u]. *)
Definition grows (u : gset Z) (n : nat) (t t' : list Z) : Prop :=
  (size (list_to_set t' ∪ u : gset Z) <= size (list_to_set t ∪ u : gset Z) + n)%nat.

Lemma grows_refl u t : grows u 0 t t.
Proof. unfold grows. lia. Qed.

Lemma grows_trans u n m t1 t2 t3 : grows u n t1 t2 -> grows u m t2 t3 -> grows u (n + m) t1 t3.
Proof. unfold grows. lia. Qed.

Lemma grows_le u n m t t' : grows u n t t' -> (n <= m)%nat -> grows u m t t'.
Proof. unfold grows. lia. Qed.

Lemma trans_add_set b t : list_to_set (trans_add b t) = ({[b]} ∪ list_to_set t : gset Z).
Proof. apply set_eq. intros x. rewrite elem_of_list_to_set, trans_add_In. set_solver. Qed.

Lemma grows_in u b t : b ∈ u -> grows u 0 t (trans_add b t).
Proof.
  intros Hb. unfold grows. rewrite trans_add_set.
  replace ({[b]} ∪ list_to_set t ∪ u) with (list_to_set t ∪ u : gset Z); [lia|set_solver].
Qed.

Lemma grows_out u b t : grows u 1 t (trans_add b t).
Proof.
  unfold grows. rewrite trans_add_set, <- (assoc_L _).
  pose proof (size_union_alt {[b]} (list_to_set t ∪ u : gset Z)) as E.
  pose proof (subseteq_size ((list_to_set t ∪ u) ∖ {[b]}) (list_to_set t ∪ u : gset Z)).
  rewrite size_singleton in E. set_solver by lia.
Qed.

Lemma size_list_le (l : list Z) : (size (list_to_set l : gset Z) <= length l)%nat.
Proof.
  induction l as [|y l IH]; cbn; [by rewrite size_empty|].
  pose proof (size_union_alt {[y]} (list_to_set l : gset Z)) as E. rewrite size_singleton in E.
  pose proof (subseteq_size (list_to_set l ∖ {[y]}) (list_to_set l : gset Z) ltac:(set_solver)). lia.
Qed.

Lemma grows_list (u : gset Z) (ks t t' : list Z) :
  (forall x, x ∈ t' -> x ∈ t \/ x ∈ u \/ x ∈ ks) -> grows u (length ks) t t'.
Proof.
  intros Hx. unfold grows.
  assert (Hsub : (list_to_set t' ∪ u : gset Z) ⊆ (list_to_set t ∪ u) ∪ list_to_set ks).
  { intros x. rewrite !elem_of_union, !elem_of_list_to_set. specialize (Hx x). tauto. }
  apply subseteq_size in Hsub. etransitivity; [exact Hsub|]. rewrite size_union_alt.
  apply Nat.add_le_mono_l. etransitivity; [apply subseteq_size, subseteq_difference_l; reflexivity|].
  apply size_list_le.
Qed.

Section Rules.
Context {L : Type} `{BlockLayer L}.

(** A balanced section: from [l] to [l'], with contents [v] and transaction [t]
    at the end. *)
Record bl_eff (l l' : L) (v : Z -> list Z) (t : list Z) : Prop := {
  ef_inv : bl_inv l';
  ef_held : bl_held l' = bl_held l;
  ef_view : forall x, bl_view l' x = v x;
  ef_trans : bl_trans l' = t;
  ef_outstanding : bl_outstanding l' = bl_outstanding l;
  ef_clean : forall x, bl_clean l x -> bl_clean l' x
}.

(** The same, with the buffer [i] of block [b] locked in addition. *)
Record bl_open (l l' : L) (i : nat) (b : Z) (v : Z -> list Z) (t : list Z) : Prop := {
  op_inv : bl_inv l';
  op_fresh : bl_held l !! i = None;
  op_held : bl_held l' = <[i := b]> (bl_held l);
  op_view : forall x, bl_view l' x = v x;
  op_trans : bl_trans l' = t;
  op_outstanding : bl_outstanding l' = bl_outstanding l;
  op_clean : forall x, bl_clean l x -> bl_clean l' x;
  op_self : bl_clean l' b
}.

(** Apart from the blocks of [u], which may all be logged, [k] more blocks can be
    locked or logged. *)
Definition budget (l : L) (u : gset Z) (k : nat) : Prop :=
  (size (list_to_set (bl_trans l) ∪ u) + size (bl_held l) + k <= 29)%nat.

Lemma eff_refl l : bl_inv l -> bl_eff l l (bl_view l) (bl_trans l).
Proof. by constructor. Qed.

Lemma eff_trans l1 l2 l3 v1 t1 v2 t2 :
  bl_eff l1 l2 v1 t1 -> bl_eff l2 l3 v2 t2 -> bl_eff l1 l3 v2 t2.
Proof.
  intros [I1 H1' V1 T1 O1 C1] [I2 H2' V2 T2 O2 C2]. constructor; try congruence; auto.
Qed.

Lemma eff_view l l' v v' t : bl_eff l l' v t -> (forall x, v x = v' x) -> bl_eff l l' v' t.
Proof. intros [I H' V T O C] E. constructor; auto. intros x. by rewrite V. Qed.

Lemma eff_budget l l' v t u k n :
  bl_eff l l' v t -> budget l u (k + n) -> grows u n (bl_trans l) t -> budget l' u k.
Proof. intros E. unfold budget, grows. rewrite (ef_held _ _ _ _ E), (ef_trans _ _ _ _ E). lia. Qed.

Lemma eff_budget_same l l' v u k :
  bl_eff l l' v (bl_trans l) -> budget l u k -> budget l' u k.
Proof. intros E Hb. eapply (eff_budget _ _ _ _ _ _ 0); [done|by rewrite Nat.add_0_r|apply grows_refl]. Qed.

Lemma budget_le l u k k' : budget l u k -> (k' <= k)%nat -> budget l u k'.
Proof. unfold budget. lia. Qed.

(** With a buffer locked and the budget kept, there is room in the log. *)
Lemma budget_log l l1 i b v t u k :
  bl_open l l1 i b v t -> budget l1 u k -> (length t < 29)%nat.
Proof.
  intros Ho. unfold budget. rewrite (op_held _ _ _ _ _ _ Ho), map_size_insert_None by apply Ho.
  pose proof (bl_nodup l1 (op_inv _ _ _ _ _ _ Ho)) as Hnd. rewrite (op_trans _ _ _ _ _ _ Ho) in *.
  rewrite <- (size_list_to_set (C := gset Z) t Hnd).
  pose proof (subseteq_size (list_to_set t) (list_to_set t ∪ u : gset Z)). set_solver by lia.
Qed.

Lemma open_eff l l1 l2 i b v t v' t' :
  bl_open l l1 i b v t -> bl_eff l1 l2 v' t' -> bl_open l l2 i b v' t'.
Proof.
  intros [I F Hh V T O C S] [I' H' V' T' O' C']. constructor; try congruence; auto.
Qed.

Lemma open_budget l l1 i b v t u k n :
  bl_open l l1 i b v t -> budget l u (S (k + n)) -> grows u n (bl_trans l) t -> budget l1 u k.
Proof.
  intros Ho. unfold budget, grows. rewrite (op_held _ _ _ _ _ _ Ho), (op_trans _ _ _ _ _ _ Ho).
  rewrite map_size_insert_None by apply Ho. lia.
Qed.

Lemma open_lookup l l1 i b v t : bl_open l l1 i b v t -> bl_held l1 !! i = Some b.
Proof. intros Ho. rewrite (op_held _ _ _ _ _ _ Ho). apply lookup_insert_eq. Qed.

Lemma open_unlocked l l1 i b v t x :
  bl_open l l1 i b v t -> bl_unlocked l x -> x <> b -> bl_unlocked l1 x.
Proof.
  intros Ho Hx Hne j. rewrite (op_held _ _ _ _ _ _ Ho), lookup_insert. case_decide; [congruence|apply Hx].
Qed.

Lemma eff_unlocked l l' v t x : bl_eff l l' v t -> bl_unlocked l x -> bl_unlocked l' x.
Proof. intros E Hx j. rewrite (ef_held _ _ _ _ E). apply Hx. Qed.

Lemma bread_rule l b u k :
  bl_inv l -> 0 <= b < LOGSTART -> bl_unlocked l b -> budget l u (S k) ->
  exists i l', bread ROOTDEV b l = Ok i l' /\ bl_open l l' i b (bl_view l) (bl_trans l) /\
    budget l' u k.
Proof.
  intros Hi Hb Hu Hk. destruct (bread_law l b) as (i & l' & R & I & S & F & Hh & C); try done.
  { right. unfold budget in Hk. rewrite <- (size_list_to_set (C := gset Z) (bl_trans l)) by (by apply bl_nodup).
    pose proof (subseteq_size (list_to_set (bl_trans l)) (list_to_set (bl_trans l) ∪ u : gset Z)).
    unfold NBUF. set_solver by lia. }
  assert (Ho : bl_open l l' i b (bl_view l) (bl_trans l)) by (constructor; try done; apply S).
  exists i, l'. split_and!; try done. eapply (open_budget _ _ _ _ _ _ _ _ 0); [done| |apply grows_refl].
  by rewrite Nat.add_0_r.
Qed.

Lemma bdata_rule l l1 i b v t : bl_open l l1 i b v t -> bdata i l1 = Ok (v b) l1.
Proof.
  intros Ho. rewrite <- (op_view _ _ _ _ _ _ Ho). apply bdata_law; [apply Ho|by eapply open_lookup].
Qed.

Lemma brelse_rule l l1 i b v t :
  bl_open l l1 i b v t -> exists l2, brelse i l1 = Ok tt l2 /\ bl_eff l l2 v t.
Proof.
  intros Ho. destruct (brelse_law l1 i b) as (l2 & R & I & S & Hh); [apply Ho|by eapply open_lookup|apply (op_self _ _ _ _ _ _ Ho)|].
  exists l2. split; [done|]. constructor; try done.
  - rewrite Hh, (op_held _ _ _ _ _ _ Ho). apply delete_insert_id, Ho.
  - intros x. rewrite (same_view _ _ S). apply Ho.
  - rewrite (same_trans _ _ S). apply Ho.
  - rewrite (same_outstanding _ _ S). apply Ho.
  - intros x Hx. apply S. by apply Ho.
Qed.

(** Change the data of a locked buffer, log it. *)
Lemma log_rule l l1 i b v t d u k :
  bl_open l l1 i b v t -> wf_block d -> 1 <= bl_outstanding l -> budget l1 u k ->
  exists l2 l3, bset i d l1 = Ok tt l2 /\ log_write i l2 = Ok tt l3 /\
    bl_open l l3 i b (upd_view b d v) (trans_add b t).
Proof.
  intros Ho Hd Hout Hk. pose proof (open_lookup _ _ _ _ _ _ Ho) as Hi.
  pose proof (budget_log _ _ _ _ _ _ _ _ Ho Hk) as Ht.
  destruct (bset_law l1 i b d) as (l2 & R2 & I2 & H2' & T2 & O2 & V2 & C2); [apply Ho|done..|].
  destruct (log_write_law l2 i b) as (l3 & R3 & I3 & H3' & T3 & O3 & V3 & C3 & C3'); try done.
  - by rewrite H2'.
  - by rewrite O2, (op_outstanding _ _ _ _ _ _ Ho).
  - rewrite T2, (op_trans _ _ _ _ _ _ Ho). exact Ht.
  - exists l2, l3. split_and!; try done. constructor; try done; try apply Ho.
    + rewrite H3', H2'. apply Ho.
    + intros x. rewrite V3, V2. unfold upd_view. case_decide; [done|apply Ho].
    + by rewrite T3, T2, (op_trans _ _ _ _ _ _ Ho).
    + rewrite O3, O2. apply Ho.
    + intros x Hx. destruct (decide (x = b)) as [->|Hne]; [done|].
      apply C3, C2; [done|]. by apply Ho.
Qed.
End Rules.
