(* ===== verification/Log.v ===== *)
(** * Log: the write-ahead log (log.c)

    The state is the buffer cache below and [struct log].  The functions of
    log.c are translated one by one; [commit] and [recover_from_log] are run on
    the model of bio.c and ide.c, whose disk remembers the order of the sector
    writes.  A crash keeps the effect of a prefix of those writes, empties the
    kernel's memory and runs [initlog] again: the theorems show that a
    transaction is then found to have happened entirely or not at all, however
    often recovery is itself cut short.  The last part shows that the log is a
    [BlockLayer]. *)

From S2P Require Import Prelude Layout Ide Bio Block.
Open Scope Z_scope.
Open Scope xv6_scope.

(** [struct log] (without its spinlock), over the buffer cache. *)
Record logst := LogSt {
  l_bio : bio;
  l_start : Z;
  l_size : Z;
  l_outstanding : Z;
  l_committing : bool;
  l_dev : Z;
  l_n : Z;
  l_block : list Z
}.

Definition set_bio (b : bio) (s : logst) : logst :=
  LogSt b (l_start s) (l_size s) (l_outstanding s) (l_committing s) (l_dev s) (l_n s) (l_block s).
Definition set_lh (n : Z) (bl : list Z) (s : logst) : logst :=
  LogSt (l_bio s) (l_start s) (l_size s) (l_outstanding s) (l_committing s) (l_dev s) n bl.
Definition set_ops (o : Z) (c : bool) (s : logst) : logst :=
  LogSt (l_bio s) (l_start s) (l_size s) o c (l_dev s) (l_n s) (l_block s).
Definition set_geom (st sz dev : Z) (s : logst) : logst :=
  LogSt (l_bio s) st sz (l_outstanding s) (l_committing s) dev (l_n s) (l_block s).

(** A call into bio.c. *)
Definition in_bio {A} (c : M bio A) : M logst A :=
  fun s => match c (l_bio s) with
           | Ok a b => Ok a (set_bio b s)
           | Stop r b => Stop r (set_bio b s)
           end.

(** [log.lh.block[i]], read and written; the array has [LOGSIZE] elements. *)
Definition lh_block (i : Z) : M logst Z :=
  let! bl := gets l_block in
  of_option (Undefined "log.lh.block") (if 0 <=? i then bl !! Z.to_nat i else None).
Definition lh_set_block (i v : Z) : M logst unit :=
  let! bl := gets l_block in
  if (0 <=? i) && (i <? Z.of_nat (length bl))
  then modify (fun s => set_lh (l_n s) (<[Z.to_nat i := v]> (l_block s)) s)
  else halt (Undefined "log.lh.block").

(** The [int]s of the [struct logheader] in a block. *)
Definition hd_n (d : list Z) : Z := i32 (get_word d 0).
Definition hd_block (d : list Z) (i : Z) : Z := i32 (get_word d (1 + i)).

(** One turn of the loop of [install_trans]. *)
Definition install_one (tail : Z) : M logst unit :=
  let! dev := gets l_dev in
  let! start := gets l_start in
  let! lbuf := in_bio (Bio.bread (u32 dev) (u32 (start + tail + 1))) in
  let! b := lh_block tail in
  let! dbuf := in_bio (Bio.bread (u32 dev) (u32 b)) in
  let! d := in_bio (Bio.bdata lbuf) in
  in_bio (Bio.bset dbuf d) ;;;
  in_bio (Bio.bwrite dbuf) ;;;
  in_bio (Bio.brelse lbuf) ;;;
  in_bio (Bio.brelse dbuf).

Definition install_trans : M logst unit :=
  let! n := gets l_n in
  for_each (seqZ 0 n) install_one.

Definition read_head : M logst unit :=
  let! dev := gets l_dev in
  let! start := gets l_start in
  let! buf := in_bio (Bio.bread (u32 dev) (u32 start)) in
  let! d := in_bio (Bio.bdata buf) in
  modify (fun s => set_lh (hd_n d) (l_block s) s) ;;;
  let! n := gets l_n in
  for_each (seqZ 0 n) (fun i => lh_set_block i (hd_block d i)) ;;;
  in_bio (Bio.brelse buf).

(** One turn of the loop of [write_head]. *)
Definition head_one (buf : nat) (i : Z) : M logst unit :=
  let! v := lh_block i in
  let! d := in_bio (Bio.bdata buf) in
  in_bio (Bio.bset buf (put_word d (1 + i) v)).

Definition write_head : M logst unit :=
  let! dev := gets l_dev in
  let! start := gets l_start in
  let! buf := in_bio (Bio.bread (u32 dev) (u32 start)) in
  let! n := gets l_n in
  let! d := in_bio (Bio.bdata buf) in
  in_bio (Bio.bset buf (put_word d 0 n)) ;;;
  for_each (seqZ 0 n) (head_one buf) ;;;
  in_bio (Bio.bwrite buf) ;;;
  in_bio (Bio.brelse buf).

Definition clear_lh : M logst unit := modify (fun s => set_lh 0 (l_block s) s).

Definition recover_from_log : M logst unit :=
  read_head ;;;
  install_trans ;;;
  clear_lh ;;;
  write_head.

Definition begin_op : M logst unit :=
  let! c := gets l_committing in
  if c then halt (Sleep ChLog) else
  let! n := gets l_n in
  let! o := gets l_outstanding in
  if LOGSIZE <? n + (o + 1) * MAXOPBLOCKS then halt (Sleep ChLog)
  else modify (fun s => set_ops (l_outstanding s + 1) (l_committing s) s).

(** One turn of the loop of [write_log]. *)
Definition write_log_one (tail : Z) : M logst unit :=
  let! dev := gets l_dev in
  let! start := gets l_start in
  let! to := in_bio (Bio.bread (u32 dev) (u32 (start + tail + 1))) in
  let! b := lh_block tail in
  let! from := in_bio (Bio.bread (u32 dev) (u32 b)) in
  let! d := in_bio (Bio.bdata from) in
  in_bio (Bio.bset to d) ;;;
  in_bio (Bio.bwrite to) ;;;
  in_bio (Bio.brelse from) ;;;
  in_bio (Bio.brelse to).

Definition write_log : M logst unit :=
  let! n := gets l_n in
  for_each (seqZ 0 n) write_log_one.

Definition commit : M logst unit :=
  let! n := gets l_n in
  if 0 <? n then
    write_log ;;;
    write_head ;;;
    install_trans ;;;
    clear_lh ;;;
    write_head
  else ret tt.

Definition end_op : M logst unit :=
  modify (fun s => set_ops (l_outstanding s - 1) (l_committing s) s) ;;;
  let! c := gets l_committing in
  if c then panic "log.committing" else
  let! o := gets l_outstanding in
  if o =? 0 then
    modify (fun s => set_ops (l_outstanding s) true s) ;;;
    commit ;;;
    modify (fun s => set_ops (l_outstanding s) false s)
  else ret tt.

(** The absorption loop: the first [i] in [is] with [block[i] == b], or [n]. *)
Fixpoint find_block (b n : Z) (js : list Z) : M logst Z :=
  match js with
  | [] => ret n
  | i :: js =>
      let! v := lh_block i in
      if u32 v =? b then ret i else find_block b n js
  end.

Definition log_write (b : nat) : M logst unit :=
  let! n := gets l_n in
  let! size := gets l_size in
  if (LOGSIZE <=? n) || (size - 1 <=? n) then panic "too big a transaction" else
  let! o := gets l_outstanding in
  if o <? 1 then panic "log_write outside of trans" else
  let! bf := in_bio (get_buf b) in
  let! i := find_block (b_blockno bf) n (seqZ 0 n) in
  lh_set_block i (i32 (b_blockno bf)) ;;;
  (if i =? n then modify (fun s => set_lh (l_n s + 1) (l_block s) s) else ret tt) ;;;
  in_bio (upd_buf b (b_or B_DIRTY)).

#[global] Instance log_ops : BlockOps logst := {
  bread dev b := in_bio (Bio.bread dev b);
  brelse i := in_bio (Bio.brelse i);
  bdata i := in_bio (Bio.bdata i);
  bset i d := in_bio (Bio.bset i d);
  log_write := log_write;
  begin_op := begin_op;
  end_op := end_op
}.

Definition initlog : M logst unit :=
  if BSIZE <=? 4 + 4 * LOGSIZE then panic "initlog: too big logheader" else
  let! sb := readsb ROOTDEV in
  modify (set_geom (i32 (sb_size sb - sb_nlog sb)) (i32 (sb_nlog sb)) ROOTDEV) ;;;
  recover_from_log.

(** ** Running the log over the cache *)

Lemma in_bio_Ok {A} (c : M bio A) s a b :
  c (l_bio s) = Ok a b -> in_bio c s = Ok a (set_bio b s).
Proof. unfold in_bio. by intros ->. Qed.

Lemma set_bio_bio b b' s : set_bio b' (set_bio b s) = set_bio b' s.
Proof. done. Qed.

Lemma lh_block_Ok s i b :
  0 <= i -> l_block s !! Z.to_nat i = Some b -> lh_block i s = Ok b s.
Proof. intros Hi Hb. unfold lh_block, gets, bind. rewrite (proj2 (Z.leb_le 0 i) Hi), Hb. done. Qed.

(** The disk after a sequence of sector writes. *)
Definition replay (w : list (sector * list Z)) (d : gmap sector (list Z)) : gmap sector (list Z) :=
  foldl (fun d w => <[w.1 := w.2]> d) d w.

Lemma replay_app w1 w2 d : replay (w1 ++ w2) d = replay w2 (replay w1 d).
Proof. apply foldl_app. Qed.

Lemma disk_get_insert d c c' v :
  disk_get (<[c := v]> d) c' = if decide (c' = c) then v else disk_get d c'.
Proof. unfold disk_get. rewrite lookup_insert. repeat case_decide; congruence || done. Qed.

Lemma replay_other w d c : c ∉ w.*1 -> disk_get (replay w d) c = disk_get d c.
Proof.
  revert d. induction w as [|[c' v] w IH]; intros d Hc; [done|]. rewrite fmap_cons in Hc.
  apply not_elem_of_cons in Hc as [H1 H2]. cbn [replay foldl fst snd].
  change (foldl _ ?d w) with (replay w d). rewrite IH by done.
  rewrite disk_get_insert. by rewrite decide_False.
Qed.

Lemma replay_in w d c v :
  NoDup w.*1 -> (c, v) ∈ w -> disk_get (replay w d) c = v.
Proof.
  revert d. induction w as [|[c' v'] w IH]; intros d Hnd Hc; [set_solver|].
  rewrite fmap_cons in Hnd. apply NoDup_cons in Hnd as [Hn Hnd]. cbn [fst] in Hn.
  change (replay ((c', v') :: w) d) with (replay w (<[c' := v']> d)).
  apply elem_of_cons in Hc as [[= -> ->]|Hc]; [|by apply IH].
  rewrite replay_other by done. rewrite disk_get_insert. by rewrite decide_True.
Qed.

(** No buffer is locked, at most 29 are pinned, all for blocks of [t]. *)
Record quiet (t : list Z) (s : bio) : Prop := {
  q_inv : bio_inv s;
  q_held : held s = ∅;
  q_dirty : forall x, dirty s x = true -> x ∈ t;
  q_len : (length t <= 29)%nat
}.

(** What [s'] is after writing [v] to block [b] of a quiet [s]. *)
Record wrote (s s' : bio) (b : Z) (v : list Z) : Prop := {
  wr_inv : bio_inv s';
  wr_held : held s' = ∅;
  wr_disk : disk s' = <[(1, b) := v]> (disk s);
  wr_writes : disk_writes s' = disk_writes s ++ [((1, b), v)];
  wr_view : forall x, view s' x = if decide (x = b) then v else view s x;
  wr_dirty : forall x, dirty s' x = negb (bool_decide (x = b)) && dirty s x
}.

Lemma quiet_bread t s b :
  quiet t s -> 0 <= b < FSSIZE ->
  exists i s', Bio.bread ROOTDEV b s = Ok i s' /\ bread_post s b i s' /\ held s' = {[i := b]}.
Proof.
  intros Hq Hb. destruct (bread_Ok s b t) as (i & s' & Hr & Hp); try apply Hq; try done.
  - intros i. by rewrite (q_held _ _ Hq), lookup_empty.
  - right. rewrite (q_held _ _ Hq), map_size_empty. pose proof (q_len _ _ Hq). lia.
  - exists i, s'. split_and!; [done..|].
    destruct Hp as (_ & _ & _ & _ & -> & _). by rewrite (q_held _ _ Hq).
Qed.

Lemma quiet_view t s b : quiet t s -> dirty s b = false -> view s b = disk_get (disk s) (1, b).
Proof.
  intros Hq. apply view_stable; [apply Hq|]. intros i. by rewrite (q_held _ _ Hq), lookup_empty.
Qed.

(** Lock a second block, pinned already or with a buffer to spare. *)
Lemma second_bread t s s1 a i b :
  quiet t s -> bread_post s a i s1 -> held s1 = {[i := a]} -> 0 <= b < FSSIZE -> b <> a ->
  (dirty s b = true \/ (length t < 29)%nat) ->
  exists j s2, Bio.bread ROOTDEV b s1 = Ok j s2 /\ bread_post s1 b j s2 /\
    held s2 = <[j := b]> {[i := a]} /\ j <> i.
Proof.
  intros Hq (Hinv & Hd & Hw & Hn & Hh & Hv & Hdi) Hh1 Hb Hne Hroom.
  destruct (bread_Ok s1 b t) as (j & s2 & Hr & Hp); try done.
  - intros x. rewrite Hdi. apply Hq.
  - intros k. rewrite Hh1, lookup_singleton. case_decide; congruence.
  - rewrite Hdi. destruct Hroom as [|]; [by left|right]. rewrite Hh1, map_size_singleton. lia.
  - exists j, s2. pose proof Hp as (_ & _ & _ & Hn2 & Hh2 & _). split_and!; try done.
    + by rewrite Hh2, Hh1.
    + intros ->. rewrite Hh1, lookup_singleton in Hn2. by rewrite decide_True in Hn2.
Qed.

(** Copy block [a], locked in [i], to block [b], locked in [j], write it to
    disk and release both: the second half of a turn of either loop. *)
Lemma copy_Ok s2 i a j b :
  bio_inv s2 -> held s2 !! i = Some a -> held s2 !! j = Some b ->
  delete j (delete i (held s2)) = ∅ -> i <> j -> a <> b ->
  (dirty s2 a = true \/ view s2 a = disk_get (disk s2) (1, a)) ->
  exists s3 s4 s5 s6, Bio.bdata i s2 = Ok (view s2 a) s2 /\
    Bio.bset j (view s2 a) s2 = Ok tt s3 /\ Bio.bwrite j s3 = Ok tt s4 /\
    Bio.brelse i s4 = Ok tt s5 /\ Bio.brelse j s5 = Ok tt s6 /\ wrote s2 s6 b (view s2 a).
Proof.
  intros Hinv Hi Hj Hdel Hij Hab Hcl.
  destruct (bset_Ok s2 j b (view s2 a)) as (s3 & R3 & I3 & D3 & W3 & H3 & V3 & F3);
    [done|done|by apply wf_view|].
  destruct (bwrite_Ok s3 j b) as (s4 & R4 & I4 & H4 & D4 & W4 & V4 & F4); [done|by rewrite H3|].
  rewrite V3, decide_True, D3 in D4 by done. rewrite V3, decide_True, W3 in W4 by done.
  destruct (brelse_Ok s4 i a) as (s5 & R5 & I5 & D5 & W5 & H5 & V5 & F5); [done|by rewrite H4, H3| |].
  { rewrite F4, F3, V4, V3, D4, disk_get_insert. rewrite bool_decide_false, !decide_False by congruence.
    done. }
  destruct (brelse_Ok s5 j b) as (s6 & R6 & I6 & D6 & W6 & H6 & V6 & F6); [done| | |].
  { rewrite H5, H4, H3. by rewrite lookup_delete_ne. }
  { right. rewrite V5, V4, V3, decide_True by done.
    by rewrite D5, D4, disk_get_insert, decide_True. }
  exists s3, s4, s5, s6. split_and!; try done; [by apply bdata_Ok|].
  constructor; try done.
  - by rewrite H6, H5, H4, H3.
  - by rewrite D6, D5.
  - by rewrite W6, W5.
  - intros x. by rewrite V6, V5, V4, V3.
  - intros x. by rewrite F6, F5, F4, F3.
Qed.

Lemma wrote_frame s s1 s2 b v :
  wrote s1 s2 b v -> disk s1 = disk s -> disk_writes s1 = disk_writes s ->
  (forall x, view s1 x = view s x) -> (forall x, dirty s1 x = dirty s x) -> wrote s s2 b v.
Proof.
  intros [I H D W V F] HD HW HV HF. constructor; try done.
  - by rewrite D, HD.
  - by rewrite W, HW.
  - intros x. by rewrite V, HV.
  - intros x. by rewrite F, HF.
Qed.

Lemma wrote_quiet t s s' b v : quiet t s -> wrote s s' b v -> quiet t s'.
Proof.
  intros Hq Hw. constructor; try apply Hw; try apply Hq. intros x Hx.
  rewrite (wr_dirty _ _ _ _ Hw) in Hx. apply andb_true_iff in Hx as [_ Hx]. by apply Hq.
Qed.

(** The geometry [initlog] reads from the superblock mkfs writes. *)
Definition geometry (s : logst) : Prop :=
  l_dev s = ROOTDEV /\ l_start s = LOGSTART /\ l_size s = LOGSIZE.

Lemma u32_small z : is_u32 z -> u32 z = z.
Proof. intros H. apply Z.mod_small, H. Qed.

Lemma log_addr_range t : 0 <= t < LOGSIZE - 1 -> 0 <= LOGSTART + t + 1 < FSSIZE.
Proof. unfold LOGSTART. klia. Qed.

Ltac bio_step H :=
  erewrite bind_Ok by (apply in_bio_Ok; cbn [l_bio set_bio]; exact H); cbv beta;
  rewrite ?set_bio_bio.

Lemma install_one_Ok t s tail b :
  quiet t (l_bio s) -> geometry s -> 0 <= tail < LOGSIZE - 1 ->
  l_block s !! Z.to_nat tail = Some b -> 0 <= b < LOGSTART ->
  dirty (l_bio s) (LOGSTART + tail + 1) = false ->
  (dirty (l_bio s) b = true \/ (length t < 29)%nat) ->
  exists b', install_one tail s = Ok tt (set_bio b' s) /\
    wrote (l_bio s) b' b (disk_get (disk (l_bio s)) (1, LOGSTART + tail + 1)).
Proof.
  intros Hq (Hdev & Hst & _) Ht Hbl Hb Hcl Hroom. set (a := LOGSTART + tail + 1) in *.
  assert (Ha : 0 <= a < FSSIZE) by (by apply log_addr_range).
  assert (Hab : b <> a) by (unfold a; lia).
  destruct (quiet_bread t (l_bio s) a Hq Ha) as (i & s1 & R1 & P1 & H1).
  destruct (second_bread t _ s1 a i b Hq P1 H1) as (j & s2 & R2 & P2 & H2 & Hij); [unfold LOGSTART in *; klia|done..|].
  pose proof P1 as (I1 & D1 & W1 & _ & _ & V1 & F1). pose proof P2 as (I2 & D2 & W2 & _ & _ & V2 & F2).
  assert (Hva : view s2 a = disk_get (disk (l_bio s)) (1, a)) by (rewrite V2, V1; by eapply quiet_view).
  destruct (copy_Ok s2 i a j b) as (s3 & s4 & s5 & s6 & R3 & R4 & R5 & R6 & R7 & Hw); try done.
  { by rewrite H2, lookup_insert_ne, lookup_singleton_eq. }
  { by rewrite H2, lookup_insert_eq. }
  { rewrite H2. apply map_eq. intros k. rewrite !lookup_delete, lookup_empty.
    repeat case_decide; try done. by rewrite lookup_insert_ne, lookup_singleton_ne. }
  { right. by rewrite Hva, D2, D1. }
  exists s6. split.
  - unfold install_one. do 2 mstep. rewrite Hdev, Hst. fold a.
    rewrite !u32_small by klia. bio_step R1.
    rewrite (bind_Ok _ _ _ b (set_bio s1 s)) by (apply lh_block_Ok; [lia|done]).
    rewrite u32_small by (unfold LOGSTART in *; klia). bio_step R2.
    bio_step R3. bio_step R4. bio_step R5. bio_step R6. exact (in_bio_Ok _ (set_bio s5 s) _ _ R7).
  - rewrite <- Hva. eapply wrote_frame; [done|..]; intros; congruence.
Qed.

(** One turn of [write_log]. *)
Lemma write_log_one_Ok t s tail b :
  quiet t (l_bio s) -> geometry s -> 0 <= tail < LOGSIZE - 1 ->
  l_block s !! Z.to_nat tail = Some b -> 0 <= b < LOGSTART -> dirty (l_bio s) b = true ->
  exists b', write_log_one tail s = Ok tt (set_bio b' s) /\
    wrote (l_bio s) b' (LOGSTART + tail + 1) (view (l_bio s) b).
Proof.
  intros Hq (Hdev & Hst & _) Ht Hbl Hb Hdirty. set (a := LOGSTART + tail + 1) in *.
  assert (Ha : 0 <= a < FSSIZE) by (by apply log_addr_range).
  assert (Hab : b <> a) by (unfold a; lia).
  destruct (quiet_bread t (l_bio s) a Hq Ha) as (i & s1 & R1 & P1 & H1).
  destruct (second_bread t _ s1 a i b Hq P1 H1) as (j & s2 & R2 & P2 & H2 & Hij);
    [unfold LOGSTART in *; klia|done|by left|].
  pose proof P1 as (I1 & D1 & W1 & _ & _ & V1 & F1). pose proof P2 as (I2 & D2 & W2 & _ & _ & V2 & F2).
  assert (Hvb : view s2 b = view (l_bio s) b) by (by rewrite V2, V1).
  destruct (copy_Ok s2 j b i a) as (s3 & s4 & s5 & s6 & R3 & R4 & R5 & R6 & R7 & Hw); try done.
  { by rewrite H2, lookup_insert_eq. }
  { by rewrite H2, lookup_insert_ne, lookup_singleton_eq. }
  { rewrite H2. apply map_eq. intros k. rewrite !lookup_delete, lookup_empty.
    repeat case_decide; try done. by rewrite lookup_insert_ne, lookup_singleton_ne. }
  { left. by rewrite F2, F1. }
  exists s6. split.
  - unfold write_log_one. do 2 mstep. rewrite Hdev, Hst. fold a.
    rewrite !u32_small by klia. bio_step R1.
    rewrite (bind_Ok _ _ _ b (set_bio s1 s)) by (apply lh_block_Ok; [lia|done]).
    rewrite u32_small by (unfold LOGSTART in *; klia). bio_step R2.
    bio_step R3. bio_step R4. bio_step R5. bio_step R6. exact (in_bio_Ok _ (set_bio s5 s) _ _ R7).
  - rewrite <- Hvb. eapply wrote_frame; [done|..]; intros; congruence.
Qed.

(** ** The loops *)

(** The blocks of the transaction in memory, in the order of the log. *)
Definition trans (s : logst) : list Z := take (Z.to_nat (l_n s)) (l_block s).

(** The sectors the loops write: the log copies of the blocks [bs], from log
    slot [k] on, and their home locations. *)
Definition log_writes (v : Z -> list Z) (k : Z) (bs : list Z) : list (sector * list Z) :=
  imap (fun j b => ((1, LOGSTART + (k + Z.of_nat j) + 1), v b)) bs.
Definition home_writes (d : gmap sector (list Z)) (k : Z) (bs : list Z) : list (sector * list Z) :=
  imap (fun j b => ((1, b), disk_get d (1, LOGSTART + (k + Z.of_nat j) + 1))) bs.

Lemma log_writes_cons v k b bs :
  log_writes v k (b :: bs) = ((1, LOGSTART + k + 1), v b) :: log_writes v (k + 1) bs.
Proof.
  unfold log_writes. cbn [imap]. rewrite Z.add_0_r. f_equal.
  apply imap_ext. intros j x _. unfold compose.
  by replace (k + 1 + Z.of_nat j) with (k + Z.of_nat (S j)) by lia.
Qed.

Lemma home_writes_cons d k b bs :
  home_writes d k (b :: bs) = ((1, b), disk_get d (1, LOGSTART + k + 1)) :: home_writes d (k + 1) bs.
Proof.
  unfold home_writes. cbn [imap]. rewrite Z.add_0_r. f_equal.
  apply imap_ext. intros j x _. unfold compose.
  by replace (k + 1 + Z.of_nat j) with (k + Z.of_nat (S j)) by lia.
Qed.

Lemma log_writes_ext v v' k bs :
  (forall b, b ∈ bs -> v b = v' b) -> log_writes v k bs = log_writes v' k bs.
Proof.
  intros H. apply imap_ext. intros j b Hj. rewrite H; [done|]. by eapply list_elem_of_lookup_2.
Qed.

Lemma home_writes_ext d d' k bs :
  0 <= k -> (forall x, LOGSTART < x -> disk_get d (1, x) = disk_get d' (1, x)) ->
  home_writes d k bs = home_writes d' k bs.
Proof. intros Hk H. apply imap_ext. intros j b Hj. rewrite H; [done|lia]. Qed.

Lemma log_slots k bs : forall s,
  drop (Z.to_nat k) (trans s) = bs -> 0 <= k -> l_n s <= Z.of_nat (length (l_block s)) ->
  match bs with
  | [] => l_n s <= k
  | b :: bs' => k < l_n s /\ l_block s !! Z.to_nat k = Some b /\ drop (Z.to_nat (k + 1)) (trans s) = bs'
  end.
Proof.
  intros s Hd Hk Hn. destruct bs as [|b bs].
  - apply (f_equal length) in Hd. unfold trans in Hd. rewrite length_drop, length_take in Hd. cbn in Hd. lia.
  - assert (Hl : trans s !! Z.to_nat k = Some b).
    { rewrite <- (Nat.add_0_r (Z.to_nat k)), <- lookup_drop, Hd. done. }
    unfold trans in Hl. apply lookup_take_Some in Hl as [Hl Hlt].
    split_and!; [lia|done|]. replace (Z.to_nat (k + 1)) with (Z.to_nat k + 1)%nat by lia.
    by rewrite <- drop_drop, Hd.
Qed.

(** [s'] differs from [s] on disk by the writes [w]. *)
Definition wrote_all (s s' : bio) (w : list (sector * list Z)) : Prop :=
  disk s' = replay w (disk s) /\ disk_writes s' = disk_writes s ++ w.

Lemma wrote_all_nil s : wrote_all s s [].
Proof. split; [done|]. by rewrite app_nil_r. Qed.

Lemma wrote_all_app s1 s2 s3 w1 w2 :
  wrote_all s1 s2 w1 -> wrote_all s2 s3 w2 -> wrote_all s1 s3 (w1 ++ w2).
Proof. intros [D1 W1] [D2 W2]. split; [by rewrite replay_app, D2, D1|by rewrite app_assoc, W2, W1]. Qed.

Lemma wrote_one s s' b v : wrote s s' b v -> wrote_all s s' [((1, b), v)].
Proof. intros Hw. split; apply Hw. Qed.

(** The in-memory header describes a transaction of the file system's blocks. *)
Definition header_ok (s : logst) : Prop :=
  0 <= l_n s <= LOGSIZE - 1 /\ length (l_block s) = Z.to_nat LOGSIZE /\
  Forall (fun b => 0 <= b < LOGSTART) (trans s).

Definition log_area_clean (s : bio) : Prop := forall x, LOGSTART <= x -> dirty s x = false.

Lemma header_ok_bio b s : header_ok s -> header_ok (set_bio b s).
Proof. done. Qed.

Lemma slot_cons s k b bs :
  header_ok s -> 0 <= k -> drop (Z.to_nat k) (trans s) = b :: bs ->
  0 <= k < LOGSIZE - 1 /\ l_block s !! Z.to_nat k = Some b /\ 0 <= b < LOGSTART /\
  drop (Z.to_nat (k + 1)) (trans s) = bs /\
  seqZ k (l_n s - k) = k :: seqZ (k + 1) (l_n s - (k + 1)).
Proof.
  intros (Hn & Hlen & Hb) Hk Hd. pose proof (log_slots k (b :: bs) s Hd Hk) as Hs.
  destruct Hs as (Hlt & Hl & Hd'); [rewrite Hlen; klia|].
  split_and!; try done; try lia.
  1,2: rewrite Forall_forall in Hb; apply Hb; rewrite <- (take_drop (Z.to_nat k) (trans s)), Hd; set_solver.
  rewrite seqZ_cons by lia. repeat f_equal; lia.
Qed.

Lemma slot_nil s k :
  header_ok s -> 0 <= k -> drop (Z.to_nat k) (trans s) = [] -> seqZ k (l_n s - k) = [].
Proof.
  intros (Hn & Hlen & _) Hk Hd. pose proof (log_slots k [] s Hd Hk) as Hs.
  apply seqZ_nil. specialize (Hs ltac:(rewrite Hlen; klia)). cbn in Hs. lia.
Qed.

Lemma write_log_loop bs : forall t s k,
  quiet t (l_bio s) -> geometry s -> header_ok s -> 0 <= k ->
  drop (Z.to_nat k) (trans s) = bs -> log_area_clean (l_bio s) ->
  (forall b, b ∈ bs -> dirty (l_bio s) b = true) ->
  exists b', for_each (seqZ k (l_n s - k)) write_log_one s = Ok tt (set_bio b' s) /\
    quiet t b' /\ wrote_all (l_bio s) b' (log_writes (view (l_bio s)) k bs) /\
    (forall x, x < LOGSTART -> view b' x = view (l_bio s) x) /\
    (forall x, dirty b' x = dirty (l_bio s) x).
Proof.
  induction bs as [|b bs IH]; intros t s k Hq Hg Hh Hk Hd Hlc Hdi.
  { exists (l_bio s). rewrite slot_nil by done. split_and!; try done; [by destruct s|apply wrote_all_nil]. }
  destruct (slot_cons s k b bs Hh Hk Hd) as (Hk' & Hl & Hb & Hd' & Hseq).
  destruct (write_log_one_Ok t s k b) as (b1 & R1 & W1); try done; [apply Hdi; set_solver|].
  assert (F1 : forall x, dirty b1 x = dirty (l_bio s) x).
  { intros x. rewrite (wr_dirty _ _ _ _ W1). case_bool_decide; [|done]. subst. symmetry. apply Hlc. lia. }
  assert (V1 : forall x, x < LOGSTART -> view b1 x = view (l_bio s) x).
  { intros x Hx. rewrite (wr_view _ _ _ _ W1), decide_False by lia. done. }
  destruct (IH t (set_bio b1 s) (k + 1)) as (b2 & R2 & Q2 & A2 & V2 & F2); try done.
  { by eapply wrote_quiet. } { lia. }
  { intros x Hx. cbn. rewrite F1. by apply Hlc. }
  { intros x Hx. cbn. rewrite F1. apply Hdi. set_solver. }
  exists b2. rewrite Hseq. split_and!; try done.
  - cbn [for_each]. rewrite (bind_Ok _ _ _ _ _ R1). apply R2.
  - rewrite log_writes_cons, <- (log_writes_ext (view b1)).
    + apply (wrote_all_app _ b1 _ [_]); [|done]. by apply wrote_one.
    + intros x Hx. apply V1. destruct Hh as (_ & _ & Hr). rewrite Forall_forall in Hr.
      apply Hr. rewrite <- (take_drop (Z.to_nat k) (trans s)), Hd. set_solver.
  - intros x Hx. rewrite V2 by done. by apply V1.
  - intros x. rewrite F2. apply F1.
Qed.

Lemma install_loop bs : forall t s k,
  quiet t (l_bio s) -> geometry s -> header_ok s -> 0 <= k ->
  drop (Z.to_nat k) (trans s) = bs -> log_area_clean (l_bio s) ->
  ((length t < 29)%nat \/ (NoDup bs /\ forall b, b ∈ bs -> dirty (l_bio s) b = true)) ->
  exists b', for_each (seqZ k (l_n s - k)) install_one s = Ok tt (set_bio b' s) /\
    quiet t b' /\ wrote_all (l_bio s) b' (home_writes (disk (l_bio s)) k bs) /\
    (forall x, dirty b' x = negb (bool_decide (x ∈ bs)) && dirty (l_bio s) x).
Proof.
  induction bs as [|b bs IH]; intros t s k Hq Hg Hh Hk Hd Hlc Hroom.
  { exists (l_bio s). rewrite slot_nil by done. split_and!; try done; [by destruct s|apply wrote_all_nil]. }
  destruct (slot_cons s k b bs Hh Hk Hd) as (Hk' & Hl & Hb & Hd' & Hseq).
  destruct (install_one_Ok t s k b) as (b1 & R1 & W1); try done.
  { apply Hlc. lia. }
  { destruct Hroom as [?|[_ Hr]]; [by right|left; apply Hr; set_solver]. }
  pose proof (wr_dirty _ _ _ _ W1) as F1.
  destruct (IH t (set_bio b1 s) (k + 1)) as (b2 & R2 & Q2 & A2 & F2); try done.
  { by eapply wrote_quiet. } { lia. }
  { intros x Hx. cbn. rewrite F1, Hlc by done. apply andb_false_r. }
  { destruct Hroom as [?|[Hnd Hr]]; [by left|right]. apply NoDup_cons in Hnd as [Hnb Hnd].
    split; [done|]. intros x Hx. cbn. rewrite F1, bool_decide_false by set_solver. apply Hr. set_solver. }
  exists b2. rewrite Hseq. split_and!; try done.
  - cbn [for_each]. rewrite (bind_Ok _ _ _ _ _ R1). apply R2.
  - rewrite home_writes_cons, <- (home_writes_ext (disk b1)).
    + apply (wrote_all_app _ b1 _ [_]); [|done]. by apply wrote_one.
    + lia.
    + intros x Hx. rewrite (wr_disk _ _ _ _ W1), disk_get_insert, decide_False; [done|]. intros [= ->]. lia.
  - intros x. rewrite F2. cbn. rewrite F1, andb_assoc. f_equal.
    rewrite <- negb_orb. f_equal. rewrite orb_comm, <- bool_decide_or.
    apply bool_decide_ext. by rewrite elem_of_cons.
Qed.

(** ** The header block *)

(** The header block [d] lists the transaction [bs]. *)
Definition lists (d : list Z) (bs : list Z) : Prop :=
  hd_n d = Z.of_nat (length bs) /\
  forall i b, bs !! i = Some b -> hd_block d (Z.of_nat i) = b.

Lemma i32_get_put d i v :
  wf_block d -> 0 <= i < NINDIRECT -> 0 <= v < 2 ^ 31 -> i32 (get_word (put_word d i v) i) = v.
Proof. intros. rewrite get_put_word by klia || done. apply i32_small. klia. Qed.

(** What a locked buffer's rewriting leaves alone. *)
Record edited (s s' : bio) (b : Z) (v : list Z) : Prop := {
  ed_inv : bio_inv s';
  ed_held : held s' = held s;
  ed_disk : disk s' = disk s;
  ed_writes : disk_writes s' = disk_writes s;
  ed_view : forall x, view s' x = if decide (x = b) then v else view s x;
  ed_dirty : forall x, dirty s' x = dirty s x
}.

Lemma bset_edited s i b d :
  bio_inv s -> held s !! i = Some b -> wf_block d ->
  exists s', Bio.bset i d s = Ok tt s' /\ edited s s' b d.
Proof.
  intros Hinv Hh Hd. destruct (bset_Ok s i b d) as (s' & ? & ? & ? & ? & ? & ? & ?); [done..|].
  exists s'. split; [done|]. by constructor.
Qed.

Lemma edited_trans s1 s2 s3 b v1 v2 : edited s1 s2 b v1 -> edited s2 s3 b v2 -> edited s1 s3 b v2.
Proof.
  intros [I1 H1 D1 W1 V1 F1] [I2 H2 D2 W2 V2 F2]. constructor; try congruence.
  intros x. rewrite V2, V1. by case_decide.
Qed.

Lemma edited_refl s b : bio_inv s -> edited s s b (view s b).
Proof. intros. constructor; try done. intros x. case_decide; by subst. Qed.

Lemma write_head_loop bs : forall s buf k d,
  bio_inv (l_bio s) -> held (l_bio s) !! buf = Some LOGSTART -> header_ok s -> 0 <= k ->
  drop (Z.to_nat k) (trans s) = bs -> view (l_bio s) LOGSTART = d -> wf_block d ->
  exists b' d', for_each (seqZ k (l_n s - k)) (head_one buf) s = Ok tt (set_bio b' s) /\
    edited (l_bio s) b' LOGSTART d' /\ wf_block d' /\
    (forall j b, bs !! j = Some b -> hd_block d' (k + Z.of_nat j) = b) /\
    (forall w, 0 <= w < 1 + k -> w < NINDIRECT -> get_word d' w = get_word d w).
Proof.
  induction bs as [|b bs IH]; intros s buf k d Hinv Hbuf Hh Hk Hd Hv Hwf.
  { exists (l_bio s), d. rewrite slot_nil by done. subst d.
    split_and!; try done; [by destruct s|by apply edited_refl]. }
  destruct (slot_cons s k b bs Hh Hk Hd) as (Hk' & Hl & Hb & Hd' & Hseq).
  assert (Hw1 : wf_block (put_word d (1 + k) b)) by (apply wf_put_word; [done|klia]).
  destruct (bset_edited (l_bio s) buf LOGSTART (put_word d (1 + k) b)) as (b1 & R1 & E1); [done..|].
  destruct (IH (set_bio b1 s) buf (k + 1) (put_word d (1 + k) b)) as (b2 & d2 & R2 & E2 & Hw2 & Hj & Hlow);
    try done; try apply E1.
  { cbn. by rewrite (ed_held _ _ _ _ E1). } { lia. }
  exists b2, d2. rewrite Hseq. split_and!; try done.
  - cbn [for_each]. erewrite bind_Ok; [apply R2|]. unfold head_one.
    rewrite (bind_Ok _ _ _ b s) by (apply lh_block_Ok; [lia|done]).
    erewrite bind_Ok by (by apply in_bio_Ok, bdata_Ok). cbv beta.
    rewrite Hv. exact (in_bio_Ok _ (set_bio (l_bio s) s) _ _ R1).
  - by eapply edited_trans.
  - intros [|j] x Hx.
    + injection Hx as <-. rewrite Z.add_0_r. unfold hd_block. rewrite Hlow by klia.
      apply i32_get_put; [done|klia|unfold LOGSTART in *; klia].
    + replace (k + Z.of_nat (S j)) with (k + 1 + Z.of_nat j) by lia. by apply Hj.
  - intros w Hw Hw'. rewrite Hlow by lia. apply get_put_word_ne; klia || done.
Qed.

Lemma write_head_Ok t s :
  quiet t (l_bio s) -> geometry s -> header_ok s -> log_area_clean (l_bio s) ->
  exists b' d', write_head s = Ok tt (set_bio b' s) /\ wrote (l_bio s) b' LOGSTART d' /\
    wf_block d' /\ lists d' (trans s).
Proof.
  intros Hq (Hdev & Hst & _) Hh Hlc.
  assert (Ha : 0 <= LOGSTART < FSSIZE) by (unfold LOGSTART; klia).
  destruct (quiet_bread t (l_bio s) LOGSTART Hq Ha) as (i & s1 & R1 & P1 & H1).
  pose proof P1 as (I1 & D1 & W1 & _ & _ & V1 & F1).
  assert (Hi : held s1 !! i = Some LOGSTART) by (by rewrite H1, lookup_singleton_eq).
  set (d0 := view s1 LOGSTART). assert (Hd0 : wf_block d0) by (by apply wf_view).
  assert (Hd1 : wf_block (put_word d0 0 (l_n s))) by (apply wf_put_word; [done|klia]).
  destruct (bset_edited s1 i LOGSTART (put_word d0 0 (l_n s))) as (s2 & R2 & E2); [done..|].
  destruct (write_head_loop (trans s) (set_bio s2 s) i 0 (put_word d0 0 (l_n s)))
    as (s3 & d' & R3 & E3 & Hw3 & Hj & Hlow); try done; try apply E2.
  { cbn. by rewrite (ed_held _ _ _ _ E2). }
  pose proof (edited_trans _ _ _ _ _ _ E2 E3) as [I3 H3 D3 W3 V3 F3]. rewrite H1 in H3.
  assert (Hi3 : held s3 !! i = Some LOGSTART) by (by rewrite H3, lookup_singleton_eq).
  destruct (bwrite_Ok s3 i LOGSTART) as (s4 & R4 & I4 & H4 & D4 & W4 & V4 & F4); [done..|].
  destruct (brelse_Ok s4 i LOGSTART) as (s5 & R5 & I5 & D5 & W5 & H5 & V5 & F5); [done|by rewrite H4| |].
  { right. by rewrite V4, D4, disk_get_insert, decide_True. }
  assert (Hvl : view s3 LOGSTART = d') by (by rewrite V3, decide_True).
  exists s5, d'. split_and!; try done.
  - unfold write_head. do 2 mstep. rewrite Hdev, Hst. rewrite !u32_small by klia.
    bio_step R1. mstep. erewrite bind_Ok by (by apply in_bio_Ok, bdata_Ok). cbv beta.
    bio_step R2. replace (l_n (set_bio s1 s)) with (l_n (set_bio s2 s) - 0) by (cbn; lia).
    rewrite (bind_Ok _ _ _ _ _ R3). rewrite set_bio_bio. bio_step R4.
    exact (in_bio_Ok _ (set_bio s4 s) _ _ R5).
  - constructor; try done.
    + rewrite H5, H4, H3. apply delete_singleton_eq.
    + by rewrite D5, D4, Hvl, D3, D1.
    + by rewrite W5, W4, Hvl, W3, W1.
    + intros x. by rewrite V5, V4, V3, V1.
    + intros x. by rewrite F5, F4, F3, F1.
  - split; [|intros j b Hb; by apply (Hj j b)].
    unfold hd_n. rewrite Hlow by klia. destruct Hh as (Hn & Hlen & _).
    rewrite i32_get_put by (try done; klia). unfold trans. rewrite length_take. klia.
Qed.

Lemma read_head_loop d m : forall s k,
  0 <= k -> 0 <= m -> k + m <= Z.of_nat (length (l_block s)) ->
  exists bl, for_each (seqZ k m) (fun i => lh_set_block i (hd_block d i)) s = Ok tt (set_lh (l_n s) bl s) /\
    length bl = length (l_block s) /\
    (forall i, k <= i < k + m -> bl !! Z.to_nat i = Some (hd_block d i)) /\
    (forall i, 0 <= i < k -> bl !! Z.to_nat i = l_block s !! Z.to_nat i).
Proof.
  intros s k Hk Hm. revert s k Hk. pattern m. apply natlike_ind; [|clear m Hm; intros m Hm IH|done];
    intros s k Hk Hlen.
  - exists (l_block s). rewrite seqZ_nil by lia. split_and!; try done; [by destruct s|lia].
  - set (s1 := set_lh (l_n s) (<[Z.to_nat k := hd_block d k]> (l_block s)) s).
    assert (Hrun : lh_set_block k (hd_block d k) s = Ok tt s1).
    { unfold lh_set_block. mstep. rewrite (proj2 (Z.leb_le 0 k)), (proj2 (Z.ltb_lt k _)) by lia. done. }
    destruct (IH s1 (k + 1)) as (bl & R & Hl & Hin & Hout); [lia| |].
    { unfold s1. cbn. rewrite length_insert. lia. }
    exists bl. rewrite seqZ_cons by lia. rewrite Z.pred_succ.
    cbn [for_each]. rewrite (bind_Ok _ _ _ _ _ Hrun). split_and!; [exact R| | |].
    + by rewrite Hl; unfold s1; cbn; rewrite length_insert.
    + intros i Hi. destruct (decide (i = k)) as [->|]; [|apply Hin; lia].
      rewrite Hout by lia. apply list_lookup_insert_eq. lia.
    + intros i Hi. rewrite Hout by lia. apply list_lookup_insert_ne. lia.
Qed.

(** The header on disk lists a transaction of the file system's blocks. *)
Definition disk_header (d : gmap sector (list Z)) (bs : list Z) : Prop :=
  lists (disk_get d (1, LOGSTART)) bs /\ (length bs <= 29)%nat /\
  Forall (fun b => 0 <= b < LOGSTART) bs.

Lemma read_head_Ok s bs :
  quiet [] (l_bio s) -> geometry s -> length (l_block s) = Z.to_nat LOGSIZE ->
  disk_header (disk (l_bio s)) bs ->
  exists b' bl, read_head s = Ok tt (set_bio b' (set_lh (Z.of_nat (length bs)) bl s)) /\
    quiet [] b' /\ wrote_all (l_bio s) b' [] /\
    length bl = Z.to_nat LOGSIZE /\ take (length bs) bl = bs.
Proof.
  intros Hq (Hdev & Hst & _) Hlen ([Hn Hbl] & Hbs & Hr).
  assert (Ha : 0 <= LOGSTART < FSSIZE) by (unfold LOGSTART; klia).
  destruct (quiet_bread [] (l_bio s) LOGSTART Hq Ha) as (i & s1 & R1 & P1 & H1).
  pose proof P1 as (I1 & D1 & W1 & _ & _ & V1 & F1).
  assert (Hdirty : forall x, dirty (l_bio s) x = false).
  { intros x. destruct (dirty (l_bio s) x) eqn:E; [|done]. apply Hq in E. set_solver. }
  assert (Hi : held s1 !! i = Some LOGSTART) by (by rewrite H1, lookup_singleton_eq).
  assert (Hv : view s1 LOGSTART = disk_get (disk (l_bio s)) (1, LOGSTART)).
  { rewrite V1. by eapply quiet_view. }
  set (d := disk_get (disk (l_bio s)) (1, LOGSTART)) in *.
  destruct (read_head_loop d (hd_n d) (set_bio s1 (set_lh (hd_n d) (l_block s) s)) 0)
    as (bl & R2 & Hl & Hin & _); [lia|lia|cbn; rewrite Hlen, Hn; klia|].
  destruct (brelse_Ok s1 i LOGSTART) as (s2 & R3 & I3 & D3 & W3 & H3 & V3 & F3); [done|done| |].
  { right. by rewrite Hv, D1. }
  exists s2, bl. split_and!.
  - unfold read_head. do 2 mstep. rewrite Hdev, Hst. rewrite !u32_small by klia.
    bio_step R1. erewrite bind_Ok by (by apply in_bio_Ok, bdata_Ok). cbv beta. cbn [l_bio set_bio]. rewrite Hv.
    erewrite bind_Ok by reflexivity. erewrite bind_Ok by reflexivity. cbv beta.
    change (l_n _) with (hd_n d) at 1.
    erewrite bind_Ok by exact R2. cbv beta. rewrite <- Hn. 
    exact (in_bio_Ok _ (set_bio s1 (set_lh (hd_n d) bl s)) _ _ R3).
  - constructor; try done; [|intros x; rewrite F3, F1, Hdirty; done|cbn; lia].
    rewrite H3, H1. apply delete_singleton_eq.
  - split; [by rewrite D3, D1|]. by rewrite W3, W1, app_nil_r.
  - rewrite Hl. cbn. exact Hlen.
  - apply list_eq. intros j. cbn in Hl. destruct (decide (j < length bs)%nat) as [Hj|Hj].
    + destruct (lookup_lt_is_Some_2 bs j Hj) as [b Hb]. rewrite Hb, lookup_take_lt by done.
      specialize (Hin (Z.of_nat j)). rewrite Nat2Z.id in Hin. rewrite Hin by lia. f_equal. by apply Hbl.
    + rewrite lookup_take_ge, lookup_ge_None_2 by lia. done.
Qed.

(** ** Recovery *)

Lemma quiet_nil_dirty s x : quiet [] s -> dirty s x = false.
Proof. intros Hq. destruct (dirty s x) eqn:E; [|done]. apply Hq in E. set_solver. Qed.

Lemma quiet_wrote_all t s s' b v :
  quiet t s -> wrote s s' b v -> wrote_all s s' [((1, b), v)] /\ quiet t s'.
Proof. intros Hq Hw. split; [by apply wrote_one|by eapply wrote_quiet]. Qed.

Lemma recover_Ok s bs :
  quiet [] (l_bio s) -> geometry s -> length (l_block s) = Z.to_nat LOGSIZE ->
  disk_header (disk (l_bio s)) bs ->
  exists b' bl hd, recover_from_log s = Ok tt (set_bio b' (set_lh 0 bl s)) /\
    quiet [] b' /\ length bl = Z.to_nat LOGSIZE /\
    wrote_all (l_bio s) b' (home_writes (disk (l_bio s)) 0 bs ++ [((1, LOGSTART), hd)]) /\
    wf_block hd /\ lists hd [].
Proof.
  intros Hq Hg Hlen Hd.
  destruct (read_head_Ok s bs Hq Hg Hlen Hd) as (b1 & bl & R1 & Q1 & A1 & Hl & Ht).
  set (s1 := set_bio b1 (set_lh (Z.of_nat (length bs)) bl s)) in *.
  assert (Htr : trans s1 = bs) by (unfold trans, s1; cbn; by rewrite Nat2Z.id).
  destruct Hd as (_ & Hbs & Hr).
  assert (Hh : header_ok s1) by (split_and!; [unfold s1; cbn; klia|unfold s1; cbn; klia|done|by rewrite Htr]).
  destruct (install_loop bs [] s1 0) as (b2 & R2 & Q2 & A2 & F2); try done; [|cbn; left; lia|].
  { intros x _. by apply quiet_nil_dirty. }
  set (s2 := set_bio b2 (set_lh 0 bl s)).
  destruct (write_head_Ok [] s2) as (b3 & hd & R3 & W3 & Hw & Hls); try done.
  { intros x _. by apply quiet_nil_dirty. }
  destruct (quiet_wrote_all [] b2 b3 LOGSTART hd Q2 W3) as [A3 Q3].
  exists b3, bl, hd. split_and!; try done.
  - unfold recover_from_log. rewrite (bind_Ok _ _ _ _ _ R1). rewrite Z.sub_0_r in R2.
    assert (R2' : install_trans s1 = Ok tt (set_bio b2 s1)) by (unfold install_trans; by mstep).
    rewrite (bind_Ok _ _ _ _ _ R2'). mstep. exact R3.
  - eapply wrote_all_app; [|done]. rewrite <- (app_nil_l (home_writes _ _ _)).
    eapply wrote_all_app; [done|]. destruct A1 as [D1 _]. cbn in D1.
    by rewrite <- D1.
Qed.

(** A disk with the superblock mkfs writes. *)
Definition valid_image (d : gmap sector (list Z)) : Prop :=
  (forall c, wf_block (disk_get d c)) /\
  sb_size (dec_superblock (take 16 (disk_get d (1, 1)))) = FSSIZE /\
  sb_nlog (dec_superblock (take 16 (disk_get d (1, 1)))) = LOGSIZE.

(** The kernel's memory at power on, over the disk [d]. *)
Definition power_on (d : gmap sector (list Z)) : logst :=
  LogSt (boot d) 0 0 0 false 0 0 (replicate (Z.to_nat LOGSIZE) 0).

(** The part of the boot sequence (main.c, proc.c [forkret]) that concerns the
    disk. *)
Definition startup : M logst unit := in_bio binit ;;; initlog.

(** The state between system calls' steps: the cache is coherent, the pinned
    blocks are those of the transaction, and the log on disk is empty. *)
Record log_inv (s : logst) : Prop := {
  li_bio : bio_inv (l_bio s);
  li_geometry : geometry s;
  li_header : header_ok s;
  li_nodup : NoDup (trans s);
  li_dirty : forall x, dirty (l_bio s) x = bool_decide (x ∈ trans s);
  li_empty : lists (disk_get (disk (l_bio s)) (1, LOGSTART)) [];
  li_outstanding : 0 <= l_outstanding s;
  li_committing : l_committing s = false;
  li_held : forall i b, held (l_bio s) !! i = Some b -> 0 <= b < LOGSTART
}.

Lemma startup_Ok d bs :
  valid_image d -> disk_header d bs ->
  exists s hd, startup (power_on d) = Ok tt s /\ log_inv s /\
    held (l_bio s) = ∅ /\ trans s = [] /\ l_outstanding s = 0 /\
    disk_writes (l_bio s) = home_writes d 0 bs ++ [((1, LOGSTART), hd)] /\
    disk (l_bio s) = replay (home_writes d 0 bs ++ [((1, LOGSTART), hd)]) d /\
    wf_block hd /\ lists hd [].
Proof.
  intros (Hwf & Hsz & Hnl) Hd.
  destruct (booted_empty d) as (Hh0 & Hdi0 & Hv0).
  assert (Q0 : quiet [] (booted d)).
  { constructor; [by apply booted_inv|done| |cbn; lia]. intros x. by rewrite Hdi0. }
  destruct (quiet_bread [] _ 1 Q0) as (i & s1 & R1 & P1 & H1); [klia|].
  pose proof P1 as (I1 & D1 & W1 & _ & _ & V1 & F1).
  assert (Hi : held s1 !! i = Some 1) by (by rewrite H1, lookup_singleton_eq).
  assert (Hv : view s1 1 = disk_get d (1, 1)) by (by rewrite V1, Hv0).
  destruct (brelse_Ok s1 i 1) as (s2 & R2 & I2 & D2 & W2 & H2 & V2 & F2); [done|done| |].
  { right. by rewrite Hv, D1. }
  assert (Q2 : quiet [] s2).
  { constructor; try done; [|intros x; by rewrite F2, F1, Hdi0|cbn; lia].
    rewrite H2, H1. apply delete_singleton_eq. }
  set (s0 := set_bio s2 (set_geom LOGSTART LOGSIZE ROOTDEV (power_on d))).
  assert (Hd2 : disk (l_bio s0) = d) by (cbn; by rewrite D2, D1).
  destruct (recover_Ok s0 bs) as (b & bl & hd & R & Q & Hl & [A1 A2] & Hw & Hls); try done.
  { by rewrite Hd2. }
  rewrite Hd2 in A1, A2. cbn in A2. rewrite W2, W1 in A2. cbn in A2.
  exists (set_bio b (set_lh 0 bl s0)), hd. split_and!; try done; [| |apply Q].
  - unfold startup. erewrite bind_Ok by (apply in_bio_Ok, binit_booted). cbv beta.
    unfold initlog. change (BSIZE <=? 4 + 4 * LOGSIZE) with false. cbv iota.
    unfold readsb. cbn [Block.bread Block.bdata Block.brelse log_ops].
    erewrite bind_Ok.
    2: { bio_step R1. erewrite bind_Ok by (by apply in_bio_Ok, bdata_Ok). cbv beta.
         cbn [l_bio set_bio]. rewrite Hv. bio_step R2. reflexivity. }
    cbv beta. mstep. rewrite Hsz, Hnl. exact R.
  - constructor; cbn; try done; [apply Q|by constructor| | |].
    + intros x. by rewrite (quiet_nil_dirty b x Q).
    + rewrite A1, replay_app. cbn. by rewrite disk_get_insert, decide_True.
    + intros j x. by rewrite (q_held _ _ Q), lookup_empty.
Qed.

(** ** Commit *)

Lemma log_writes_fst v k bs x :
  0 <= k -> (1, x) ∈ (log_writes v k bs).*1 -> LOGSTART < x.
Proof.
  intros Hk Hx. apply list_elem_of_fmap in Hx as ([c y] & [= <-] & Hy).
  apply elem_of_lookup_imap in Hy as (j & b & [= -> ->] & _). lia.
Qed.

Lemma log_writes_NoDup v k bs : NoDup (log_writes v k bs).*1.
Proof.
  unfold log_writes. rewrite fmap_imap. apply NoDup_alt. intros i j c Hi Hj.
  apply list_lookup_imap_Some in Hi as (? & _ & ->). apply list_lookup_imap_Some in Hj as (? & _ & Hj).
  cbn in Hj. injection Hj as Hj. lia.
Qed.

Lemma home_writes_fst d k bs : (home_writes d k bs).*1 = (fun b => (1, b)) <$> bs.
Proof.
  unfold home_writes. rewrite fmap_imap. revert k. induction bs as [|b bs IH]; intros k; [done|].
  cbn [imap fmap list_fmap]. f_equal. rewrite <- (IH (k + 1)). apply imap_ext. done.
Qed.

Lemma home_writes_range d k bs x :
  Forall (fun b => 0 <= b < LOGSTART) bs -> (1, x) ∈ (home_writes d k bs).*1 -> 0 <= x < LOGSTART.
Proof.
  intros Hr Hx. rewrite home_writes_fst in Hx. apply list_elem_of_fmap in Hx as (b & [= ->] & Hb).
  rewrite Forall_forall in Hr. by apply Hr.
Qed.

(** Installing a log that holds the contents [v] of the blocks [bs]. *)
Lemma installed d v bs x :
  NoDup bs -> (forall j b, bs !! j = Some b -> disk_get d (1, LOGSTART + Z.of_nat j + 1) = v b) ->
  (x ∉ bs -> disk_get d (1, x) = v x) ->
  disk_get (replay (home_writes d 0 bs) d) (1, x) = v x.
Proof.
  intros Hnd Hlog Hx. destruct (decide (x ∈ bs)) as [Hin|Hout].
  - apply list_elem_of_lookup in Hin as [j Hj]. apply replay_in.
    + rewrite home_writes_fst. apply NoDup_fmap_2; [intros ? ?; congruence|done].
    + apply elem_of_lookup_imap. exists j, x. split; [|done]. rewrite Z.add_0_l. f_equal.
      symmetry. by apply Hlog.
  - rewrite replay_other; [by apply Hx|]. rewrite home_writes_fst. intros H.
    apply list_elem_of_fmap in H as (b & [= ->] & Hb). done.
Qed.

(** The disk once the header is written: the commit point. *)
Definition committed_disk (s : bio) (bs : list Z) (hd : list Z) : gmap sector (list Z) :=
  replay (log_writes (view s) 0 bs ++ [((1, LOGSTART), hd)]) (disk s).

Lemma committed_slot s bs hd j b :
  bs !! j = Some b -> disk_get (committed_disk s bs hd) (1, LOGSTART + Z.of_nat j + 1) = view s b.
Proof.
  intros Hj. unfold committed_disk. rewrite replay_app. cbn [replay foldl fst snd].
  rewrite disk_get_insert, decide_False by (intros [= ?]; lia).
  apply replay_in; [apply log_writes_NoDup|]. apply elem_of_lookup_imap. exists j, b.
  split; [repeat f_equal; lia|done].
Qed.

Lemma committed_home s bs hd x :
  x < LOGSTART -> disk_get (committed_disk s bs hd) (1, x) = disk_get (disk s) (1, x).
Proof.
  intros Hx. unfold committed_disk. apply replay_other. rewrite fmap_app, elem_of_app.
  intros [H|H]; [apply log_writes_fst in H; lia|]. apply list_elem_of_singleton in H. cbn in H.
  injection H as H. lia.
Qed.

Lemma committed_header s bs hd : disk_get (committed_disk s bs hd) (1, LOGSTART) = hd.
Proof.
  unfold committed_disk. rewrite replay_app. cbn [replay foldl fst snd].
  by rewrite disk_get_insert, decide_True.
Qed.

Lemma li_quiet s : log_inv s -> held (l_bio s) = ∅ -> quiet (trans s) (l_bio s).
Proof.
  intros Hi Hh. destruct (li_header _ Hi) as (Hn & Hl & _). constructor; [apply Hi|done| |].
  - intros x. rewrite (li_dirty _ Hi). apply bool_decide_eq_true.
  - unfold trans. rewrite length_take. klia.
Qed.

Lemma li_clean s : log_inv s -> log_area_clean (l_bio s).
Proof.
  intros Hi x Hx. rewrite (li_dirty _ Hi). apply bool_decide_false. intros H.
  destruct (li_header _ Hi) as (_ & _ & Hr). rewrite Forall_forall in Hr. specialize (Hr x H). cbn in Hr. lia.
Qed.

(** The contents a committed disk recovers to. *)
Lemma committed_view s hd x :
  log_inv s -> held (l_bio s) = ∅ -> x < LOGSTART ->
  let d := committed_disk (l_bio s) (trans s) hd in
  disk_get (replay (home_writes d 0 (trans s)) d) (1, x) = view (l_bio s) x.
Proof.
  intros Hi Hh Hx d. apply installed; [apply Hi| |].
  - intros j b Hj. by apply committed_slot.
  - intros Hn. unfold d. rewrite committed_home by done. symmetry.
    eapply quiet_view; [by apply li_quiet|]. rewrite (li_dirty _ Hi). by apply bool_decide_false.
Qed.

(** The sector writes of [commit]. *)
Definition commit_writes (s : bio) (bs : list Z) (hd hd0 : list Z) : list (sector * list Z) :=
  (log_writes (view s) 0 bs ++ [((1, LOGSTART), hd)]) ++
  (home_writes (committed_disk s bs hd) 0 bs ++ [((1, LOGSTART), hd0)]).

Lemma commit_Ok s o c :
  log_inv s -> held (l_bio s) = ∅ -> 0 < l_n s ->
  exists b' hd hd0,
    commit (set_ops o c s) = Ok tt (set_bio b' (set_lh 0 (l_block s) (set_ops o c s))) /\
    quiet [] b' /\ wrote_all (l_bio s) b' (commit_writes (l_bio s) (trans s) hd hd0) /\
    wf_block hd /\ lists hd (trans s) /\ wf_block hd0 /\ lists hd0 [].
Proof.
  intros Hi Hh Hn. pose proof (li_quiet s Hi Hh) as Q0. pose proof (li_clean s Hi) as C0.
  set (s0 := set_ops o c s).
  assert (G : geometry s0) by apply Hi. assert (H0 : header_ok s0) by apply Hi.
  destruct (write_log_loop (trans s) (trans s) s0 0) as (b1 & R1 & Q1 & A1 & V1 & F1); try done.
  { intros b Hb. cbn. rewrite (li_dirty _ Hi). by apply bool_decide_true. }
  destruct (write_head_Ok (trans s) (set_bio b1 s0)) as (b2 & hd & R2 & W2 & Hw2 & L2); try done.
  { intros x Hx. cbn. rewrite F1. by apply C0. }
  destruct (quiet_wrote_all _ _ _ _ _ Q1 W2) as [A2 Q2]. cbn in A2.
  assert (F2 : forall x, x <> LOGSTART -> dirty b2 x = dirty (l_bio s) x).
  { intros x Hx. rewrite (wr_dirty _ _ _ _ W2). cbn. rewrite bool_decide_false by done. apply F1. }
  assert (C2 : log_area_clean b2).
  { intros x Hx. rewrite (wr_dirty _ _ _ _ W2). cbn. rewrite F1, C0 by done. apply andb_false_r. }
  destruct (install_loop (trans s) (trans s) (set_bio b2 s0) 0) as (b3 & R3 & Q3 & A3 & F3); try done.
  { right. split; [apply Hi|]. intros b Hb. cbn. rewrite F2, (li_dirty _ Hi); [by apply bool_decide_true|].
    destruct H0 as (_ & _ & Hr). rewrite Forall_forall in Hr. specialize (Hr b Hb). cbn in Hr. lia. }
  assert (Q3' : quiet [] b3).
  { constructor; try apply Q3; [|cbn; lia]. intros x Hx. rewrite F3 in Hx. cbn in Hx.
    apply andb_true_iff in Hx as [Hx1 Hx2]. destruct (decide (x = LOGSTART)) as [->|Hne].
    - rewrite C2 in Hx2 by lia. done.
    - rewrite F2, (li_dirty _ Hi) in Hx2 by done. by rewrite Hx2 in Hx1. }
  set (s3 := set_bio b3 (set_lh 0 (l_block s) s0)).
  destruct (write_head_Ok [] s3) as (b4 & hd0 & R4 & W4 & Hw4 & L4); try done.
  { split_and!; cbn; try klia; [apply H0|by constructor]. }
  { intros x _. by apply quiet_nil_dirty. }
  destruct (quiet_wrote_all _ _ _ _ _ Q3' W4) as [A4 Q4].
  exists b4, hd, hd0. split_and!; try done.
  - unfold commit. mstep. change (l_n s0) with (l_n s). rewrite (proj2 (Z.ltb_lt 0 (l_n s)) Hn).
    rewrite Z.sub_0_r in R1, R3.
    assert (R1' : write_log s0 = Ok tt (set_bio b1 s0)) by (unfold write_log; by mstep).
    rewrite (bind_Ok _ _ _ _ _ R1'), (bind_Ok _ _ _ _ _ R2). rewrite set_bio_bio.
    assert (R3' : install_trans (set_bio b2 s0) = Ok tt (set_bio b3 s0)) by (unfold install_trans; by mstep).
    rewrite (bind_Ok _ _ _ _ _ R3'). mstep. exact R4.
  - unfold commit_writes. eapply wrote_all_app; [by eapply wrote_all_app|].
    eapply wrote_all_app; [|done]. cbn in A1, A3. unfold committed_disk.
    destruct (wrote_all_app _ _ _ _ _ A1 A2) as [<- _]. done.
Qed.

Lemma end_op_commit s :
  log_inv s -> held (l_bio s) = ∅ -> l_outstanding s = 1 ->
  exists b' hd hd0,
    end_op s = Ok tt (set_bio b' (set_lh 0 (l_block s) (set_ops 0 false s))) /\ quiet [] b' /\
    wrote_all (l_bio s) b'
      (if 0 <? l_n s then commit_writes (l_bio s) (trans s) hd hd0 else []) /\
    wf_block hd /\ lists hd (trans s) /\ wf_block hd0 /\ lists hd0 [].
Proof.
  intros Hi Hh Ho. unfold end_op. mstep. mstep. cbn [l_committing set_ops]. rewrite (li_committing _ Hi).
  mstep. cbn [l_outstanding set_ops]. rewrite Ho. change (1 - 1 =? 0) with true. cbv iota. mstep.
  cbn [l_outstanding set_ops].
  destruct (li_header _ Hi) as (Hn & _).
  destruct (Z.ltb_spec 0 (l_n s)) as [Hlt|Hge].
  - destruct (commit_Ok s 0 true) as (b' & hd & hd0 & R & Q & A & Hw & L & Hw0 & L0); try done.
    exists b', hd, hd0. split_and!; try done. erewrite bind_Ok by exact R. done.
  - assert (l_n s = 0) as Hn0 by lia.
    assert (Ht : trans s = []) by (unfold trans; by rewrite Hn0).
    exists (l_bio s), (disk_get (disk (l_bio s)) (1, LOGSTART)), (disk_get (disk (l_bio s)) (1, LOGSTART)).
    assert (Hwf : wf_block (disk_get (disk (l_bio s)) (1, LOGSTART))) by apply Hi.
    rewrite Ht. pose proof (li_empty _ Hi). pose proof (li_quiet s Hi Hh) as Q. rewrite Ht in Q.
    split_and!; try done; [|apply wrote_all_nil].
    erewrite bind_Ok. 2: { unfold commit. mstep. cbn [l_n set_ops]. rewrite Hn0. reflexivity. }
    clear -Hn0. destruct s. cbn in *. by subst.
Qed.

(** ** Crashes *)

(** Starting from [d], recovery gives the file system's blocks the contents
    [v]. *)
Definition recovers (d : gmap sector (list Z)) (v : Z -> list Z) : Prop :=
  valid_image d /\ exists bs, disk_header d bs /\ (1 ∉ bs) /\
    forall b, 0 <= b < LOGSTART -> disk_get (replay (home_writes d 0 bs) d) (1, b) = v b.

Lemma wf_replay w d c :
  (forall c, wf_block (disk_get d c)) -> Forall (fun x => wf_block x.2) w ->
  wf_block (disk_get (replay w d) c).
Proof.
  revert d. induction w as [|[c' v] w IH]; intros d Hd Hw; [done|].
  apply Forall_cons in Hw as [Hv Hw].
  change (replay ((c', v) :: w) d) with (replay w (<[c' := v]> d)). apply IH; [|done].
  intros x. rewrite disk_get_insert. by case_decide.
Qed.

Lemma replay_last w d d' c :
  c ∈ w.*1 -> disk_get (replay w d) c = disk_get (replay w d') c.
Proof.
  revert d d'. induction w as [|[c' v] w IH]; intros d d' Hc; [set_solver|].
  rewrite fmap_cons in Hc. cbn [fst] in Hc.
  change (replay ((c', v) :: w) ?d) with (replay w (<[c' := v]> d)).
  destruct (decide (c ∈ w.*1)) as [Hin|Hout]; [by apply IH|].
  assert (c = c') as -> by set_solver. rewrite !replay_other by done.
  by rewrite !disk_get_insert, !decide_True.
Qed.

Lemma replay_again w k d c :
  disk_get (replay w (replay (take k w) d)) c = disk_get (replay w d) c.
Proof.
  destruct (decide (c ∈ w.*1)) as [Hin|Hout]; [by apply replay_last|].
  rewrite !replay_other; try done. intros H. apply Hout.
  rewrite <- (take_drop k w), fmap_app. apply elem_of_app. by left.
Qed.

Lemma valid_image_writes d w :
  valid_image d -> Forall (fun x => wf_block x.2) w -> (1, 1) ∉ w.*1 -> valid_image (replay w d).
Proof.
  intros (Hwf & Hs & Hn) Hw H1. split; [intros c; by apply wf_replay|].
  by rewrite (replay_other w d (1, 1)).
Qed.

Lemma home_writes_wf d k bs :
  (forall c, wf_block (disk_get d c)) -> Forall (fun x => wf_block x.2) (home_writes d k bs).
Proof.
  intros Hd. apply Forall_forall. intros x Hx. apply elem_of_lookup_imap in Hx as (j & b & -> & _).
  apply Hd.
Qed.

Lemma home_writes_no_sb d k bs j : 1 ∉ bs -> (1, 1) ∉ (take j (home_writes d k bs)).*1.
Proof.
  intros H1 H. apply H1. rewrite fmap_take, home_writes_fst, <- fmap_take in H.
  apply list_elem_of_fmap in H as (b & [= <-] & Hb). apply elem_of_take in Hb as (i & Hi & _).
  by eapply list_elem_of_lookup_2.
Qed.

Lemma take_fst_subset {A B} (w : list (A * B)) k c : c ∈ (take k w).*1 -> c ∈ w.*1.
Proof. intros H. rewrite <- (take_drop k w), fmap_app. apply elem_of_app. by left. Qed.

(** Any part of the installation of a log leaves a disk that recovers to the
    same contents. *)
Lemma recovers_install d v bs hd k :
  valid_image d -> disk_header d bs -> 1 ∉ bs ->
  (forall b, 0 <= b < LOGSTART -> disk_get (replay (home_writes d 0 bs) d) (1, b) = v b) ->
  wf_block hd -> lists hd [] ->
  recovers (replay (take k (home_writes d 0 bs ++ [((1, LOGSTART), hd)])) d) v.
Proof.
  intros Hd Hh H1 Hv Hw Hl. pose proof Hd as (Hwf & _).
  assert (Hrange : forall j x, LOGSTART <= x -> (1, x) ∉ (take j (home_writes d 0 bs)).*1).
  { intros j x Hx H. apply take_fst_subset, home_writes_range in H; [lia|apply Hh]. }
  set (w := home_writes d 0 bs) in *.
  assert (Hww : Forall (fun x => wf_block x.2) w) by (by apply home_writes_wf).
  assert (Hw1 : forall j, (1, 1) ∉ (take j w).*1) by (intros j; by apply home_writes_no_sb).
  destruct (decide (k <= length w)%nat) as [Hk|Hk].
  - rewrite take_app_le by done. split; [by apply valid_image_writes; auto using Forall_take|].
    exists bs. split_and!; [|done|].
    + split; [|apply Hh]. rewrite replay_other; [apply Hh|]. apply Hrange. lia.
    + intros b Hb. rewrite <- Hv by done.
      rewrite <- (home_writes_ext d (replay (take k w) d)); [apply replay_again|lia|].
      intros x Hx. symmetry. apply replay_other, Hrange. lia.
  - rewrite take_ge by (rewrite length_app; cbn; lia).
    split; [apply valid_image_writes; [done|apply Forall_app_2; [done|by apply Forall_singleton]|]|].
    { rewrite fmap_app. intros [H|H]%elem_of_app; [apply (Hw1 (length w)); by rewrite take_ge|].
      apply list_elem_of_singleton in H. discriminate. }
    exists []. rewrite replay_app. cbn [replay foldl fst snd]. split_and!; [|set_solver|].
    + split; [|split; [cbn; lia|by constructor]]. by rewrite disk_get_insert, decide_True.
    + intros b Hb. cbn. rewrite disk_get_insert, decide_False by (intros [= ?]; lia). by apply Hv.
Qed.

(** A machine started on [d] may crash after any number of its sector writes,
    and be started again, any number of times. *)
Inductive reboots (d : gmap sector (list Z)) : gmap sector (list Z) -> Prop :=
| reboots_none : reboots d d
| reboots_crash d' s k :
    reboots d d' -> startup (power_on d') = Ok tt s ->
    reboots d (replay (take k (disk_writes (l_bio s))) d').

Lemma recovers_startup d v :
  recovers d v ->
  exists s, startup (power_on d) = Ok tt s /\ log_inv s /\ held (l_bio s) = ∅ /\
    (forall b, 0 <= b < LOGSTART -> view (l_bio s) b = v b) /\
    forall k, recovers (replay (take k (disk_writes (l_bio s))) d) v.
Proof.
  intros (Hd & bs & Hh & H1 & Hv).
  destruct (startup_Ok d bs Hd Hh) as (s & hd & R & Hi & Hhe & Ht & _ & Hw & Hdk & Hwf & Hl).
  exists s. split; [exact R|]. split; [exact Hi|]. split; [exact Hhe|]. split.
  - intros b Hb. erewrite quiet_view; [|by apply li_quiet|].
    + rewrite Hdk, replay_app. cbn. rewrite disk_get_insert, decide_False by (intros [= ?]; lia).
      by apply Hv.
    + rewrite (li_dirty _ Hi), Ht. done.
  - intros k. rewrite Hw. by apply recovers_install.
Qed.

Lemma recovers_reboots d d' v : recovers d v -> reboots d d' -> recovers d' v.
Proof.
  intros Hr H. induction H as [|d' s k _ IH Hs]; [done|].
  destruct (recovers_startup d' v IH) as (s' & Hs' & _ & _ & _ & Hk).
  rewrite Hs in Hs'. by injection Hs' as <-.
Qed.

(** The disk after [k] of the writes of a commit: before the header is written
    it recovers to the old contents, after to the new ones. *)
Lemma recovers_commit s hd hd0 k :
  log_inv s -> held (l_bio s) = ∅ -> valid_image (disk (l_bio s)) -> 1 ∉ trans s ->
  wf_block hd -> lists hd (trans s) -> wf_block hd0 -> lists hd0 [] ->
  recovers (replay (take k (commit_writes (l_bio s) (trans s) hd hd0)) (disk (l_bio s)))
    (fun b => if decide (k <= length (trans s))%nat
              then disk_get (disk (l_bio s)) (1, b) else view (l_bio s) b).
Proof.
  intros Hi Hh Hd H1 Hw Hl Hw0 Hl0. pose proof Hd as (Hwf & _).
  destruct (li_header _ Hi) as (Hn & Hlen & Hr). set (t := trans s) in *.
  set (w1 := log_writes (view (l_bio s)) 0 t). unfold commit_writes. fold w1.
  assert (Hlw : length w1 = length t) by apply length_imap.
  assert (Hww : Forall (fun x => wf_block x.2) w1).
  { apply Forall_forall. intros x Hx. apply elem_of_lookup_imap in Hx as (j & b & -> & _).
    apply wf_view, Hi. }
  assert (Hno : forall x, x <= LOGSTART -> (1, x) ∉ w1.*1).
  { intros x Hx H. apply log_writes_fst in H; lia. }
  case_decide as Hk.
  - rewrite <- app_assoc, take_app_le by lia.
    assert (Hno' : forall x, x <= LOGSTART -> (1, x) ∉ (take k w1).*1).
    { intros x Hx H. apply take_fst_subset in H. by apply (Hno x). }
    split. { apply valid_image_writes; auto using Forall_take. apply Hno'. unfold LOGSTART. klia. }
    exists []. split_and!; [split|set_solver|].
    + rewrite replay_other by (apply Hno'; lia). apply Hi.
    + split; [cbn; lia|by constructor].
    + intros b Hb. cbn. apply replay_other, Hno'. lia.
  - rewrite take_app_ge by (rewrite length_app; cbn; lia).
    rewrite replay_app. change (replay (w1 ++ [((1, LOGSTART), hd)]) (disk (l_bio s)))
      with (committed_disk (l_bio s) t hd).
    apply recovers_install; try done.
    + unfold committed_disk. fold w1. apply valid_image_writes; [done|apply Forall_app_2; [done|by apply Forall_singleton]|].
      rewrite fmap_app. intros [H|H]%elem_of_app; [apply (Hno 1) in H; [done|unfold LOGSTART; klia]|].
      apply list_elem_of_singleton in H. discriminate.
    + split; [by rewrite committed_header|]. split; [|done]. unfold t, trans. rewrite length_take. klia.
    + intros b Hb. apply committed_view; try done. lia.
Qed.

(** C1: transactions are atomic and durable across crashes.  Let the last
    [end_op] of a transaction commit it, and let the machine stop after any
    number [k] of the sector writes this makes, and again at any point of any
    number of subsequent recoveries.  The recovery that completes finds the log
    in order and every block of the file system with its contents before the
    transaction if the header had not been written ([k] is at most the number of
    logged blocks), and with its contents after the transaction otherwise; in
    particular when [end_op] had returned. *)
Theorem commit_crash_atomic s :
  log_inv s -> held (l_bio s) = ∅ -> l_outstanding s = 1 ->
  valid_image (disk (l_bio s)) -> 1 ∉ trans s ->
  exists s' w, end_op s = Ok tt s' /\
    disk_writes (l_bio s') = disk_writes (l_bio s) ++ w /\
    forall k d, reboots (replay (take k w) (disk (l_bio s))) d ->
    exists s'', startup (power_on d) = Ok tt s'' /\ log_inv s'' /\
      forall b, 0 <= b < LOGSTART ->
        view (l_bio s'') b =
          if decide (k <= length (trans s))%nat
          then disk_get (disk (l_bio s)) (1, b) else view (l_bio s) b.
Proof.
  intros Hi Hh Ho Hd H1.
  destruct (end_op_commit s Hi Hh Ho) as (b' & hd & hd0 & R & Q & A & Hw & Hl & Hw0 & Hl0).
  eexists _, _. split; [exact R|]. split; [apply A|]. intros k d Hrb.
  assert (Hrec : recovers d (fun b => if decide (k <= length (trans s))%nat
              then disk_get (disk (l_bio s)) (1, b) else view (l_bio s) b)).
  { eapply recovers_reboots; [|done]. destruct (Z.ltb_spec 0 (l_n s)).
    - by apply recovers_commit.
    - assert (Ht : trans s = []) by (destruct (li_header _ Hi) as (Hn & _); unfold trans;
        replace (l_n s) with 0 by lia; done).
      rewrite take_nil. split; [done|]. exists []. split_and!; [|set_solver|].
      + split; [apply Hi|split; [cbn; lia|by constructor]].
      + intros b Hb. cbn. case_decide; [done|]. symmetry. eapply quiet_view; [by apply li_quiet|].
        rewrite (li_dirty _ Hi), Ht. done. }
  destruct (recovers_startup d _ Hrec) as (s'' & Hs & Hi'' & _ & Hv & _).
  exists s''. split; [exact Hs|]. split; [exact Hi''|exact Hv].
Qed.

(** ** [log_write], [begin_op] and the block layer *)

Lemma find_block_Ok b bs : forall s k,
  header_ok s -> 0 <= k -> drop (Z.to_nat k) (trans s) = bs ->
  exists j, find_block b (l_n s) (seqZ k (l_n s - k)) s = Ok j s /\
    ((b ∈ bs /\ 0 <= j < l_n s /\ l_block s !! Z.to_nat j = Some b) \/ ((b ∉ bs) /\ j = l_n s)).
Proof.
  induction bs as [|x bs IH]; intros s k Hh Hk Hd.
  { exists (l_n s). rewrite slot_nil by done. split; [done|right; set_solver]. }
  destruct (slot_cons s k x bs Hh Hk Hd) as (Hk' & Hl & Hx & Hd' & Hseq).
  pose proof (log_slots k (x :: bs) s Hd Hk) as Hs. destruct Hh as (Hn & Hlen & Hr).
  destruct Hs as (Hlt & _ & _); [rewrite Hlen; klia|].
  rewrite Hseq. cbn [find_block].
  rewrite (bind_Ok _ _ _ x s) by (apply lh_block_Ok; [lia|done]).
  rewrite u32_small by (unfold LOGSTART in *; klia).
  destruct (Z.eqb_spec x b) as [->|Hne].
  - exists k. split; [done|left]. split_and!; [set_solver|lia..|done].
  - destruct (IH s (k + 1)) as (j & R & Hj); [done|lia|done|].
    exists j. split; [done|]. destruct Hj as [(? & ? & ?)|(? & ?)]; [left|right]; set_solver.
Qed.

Lemma trans_append s b :
  header_ok s -> l_n s < LOGSIZE - 1 ->
  take (Z.to_nat (l_n s + 1)) (<[Z.to_nat (l_n s) := b]> (l_block s)) = trans s ++ [b].
Proof.
  intros (Hn & Hlen & _) Hlt. replace (Z.to_nat (l_n s + 1)) with (S (Z.to_nat (l_n s))) by lia.
  rewrite (take_S_r _ _ b).
  - f_equal. unfold trans. by rewrite take_insert_ge.
  - apply list_lookup_insert_eq. rewrite Hlen. klia.
Qed.

(** The header after logging [b]. *)
Definition logged (s : logst) (b : Z) : logst :=
  if decide (b ∈ trans s) then s
  else set_lh (l_n s + 1) (<[Z.to_nat (l_n s) := b]> (l_block s)) s.

Lemma trans_logged s b :
  header_ok s -> l_n s < LOGSIZE - 1 -> trans (logged s b) = trans_add b (trans s).
Proof.
  intros Hh Hn. unfold logged, trans_add. case_decide; [done|]. by apply trans_append.
Qed.

Lemma header_logged s b :
  header_ok s -> l_n s < LOGSIZE - 1 -> 0 <= b < LOGSTART -> header_ok (logged s b).
Proof.
  intros Hh Hn Hb. pose proof (trans_logged s b Hh Hn) as Ht. unfold logged in *.
  case_decide; [done|]. destruct Hh as (Hn' & Hlen & Hr).
  split_and!; [cbn; lia|cbn; lia|cbn; by rewrite length_insert|]. rewrite Ht.
  unfold trans_add. rewrite decide_False by done. apply Forall_app_2; [done|by apply Forall_singleton].
Qed.

Lemma log_write_run s i b b' :
  log_inv s -> held (l_bio s) !! i = Some b -> 1 <= l_outstanding s -> l_n s < LOGSIZE - 1 ->
  upd_buf i (b_or B_DIRTY) (l_bio s) = Ok tt b' ->
  log_write i s = Ok tt (set_bio b' (logged s b)).
Proof.
  intros Hi Hheld Ho Hn Hupd. pose proof (li_header _ Hi) as Hh.
  destruct (held_body _ _ _ (li_bio _ Hi) Hheld) as (bf & _ & Hbf & _ & Hbn & _).
  pose proof (li_held _ Hi _ _ Hheld) as Hb. destruct (li_geometry _ Hi) as (_ & _ & Hsz).
  unfold log_write. mstep. mstep. rewrite Hsz.
  rewrite (proj2 (Z.leb_gt LOGSIZE (l_n s))), (proj2 (Z.leb_gt (LOGSIZE - 1) (l_n s))) by lia.
  cbn [orb]. mstep. rewrite (proj2 (Z.ltb_ge (l_outstanding s) 1)) by lia.
  erewrite bind_Ok by (by apply in_bio_Ok, get_buf_Ok). cbv beta. rewrite Hbn.
  change (set_bio (l_bio s) s) with (LogSt (l_bio s) (l_start s) (l_size s) (l_outstanding s)
    (l_committing s) (l_dev s) (l_n s) (l_block s)).
  assert (Es : LogSt (l_bio s) (l_start s) (l_size s) (l_outstanding s)
    (l_committing s) (l_dev s) (l_n s) (l_block s) = s) by (by destruct s).
  rewrite Es. destruct (find_block_Ok b (trans s) s 0 Hh) as (j & R & Hj); [lia|done|].
  rewrite Z.sub_0_r in R. rewrite (bind_Ok _ _ _ _ _ R).
  rewrite i32_small by (unfold LOGSTART in *; klia).
  destruct Hh as (Hn' & Hlen & _).
  assert (Hset : lh_set_block j b s = Ok tt (set_lh (l_n s) (<[Z.to_nat j := b]> (l_block s)) s)).
  { unfold lh_set_block. mstep. rewrite (proj2 (Z.leb_le 0 j)), (proj2 (Z.ltb_lt j _)); [done| |]; klia. }
  rewrite (bind_Ok _ _ _ _ _ Hset). unfold logged.
  destruct Hj as [(Hin & Hj & Hl)|(Hout & ->)].
  - rewrite decide_True by done. rewrite (proj2 (Z.eqb_neq j (l_n s))) by lia. mstep.
    rewrite list_insert_id by done.
    assert (Es' : set_lh (l_n s) (l_block s) s = s) by (by destruct s).
    rewrite Es'. by apply in_bio_Ok.
  - rewrite decide_False by done. rewrite Z.eqb_refl. mstep.
    cbn [l_n l_block set_lh]. by apply (in_bio_Ok _ (set_lh _ _ (set_lh _ _ s))).
Qed.

Lemma log_write_Ok s i b :
  log_inv s -> held (l_bio s) !! i = Some b -> 1 <= l_outstanding s -> l_n s < LOGSIZE - 1 ->
  exists b', log_write i s = Ok tt (set_bio b' (logged s b)) /\
    log_inv (set_bio b' (logged s b)) /\ held b' = held (l_bio s) /\
    (forall x, view b' x = view (l_bio s) x) /\ disk b' = disk (l_bio s) /\
    (forall x, dirty b' x = bool_decide (x = b) || dirty (l_bio s) x).
Proof.
  intros Hi Hheld Ho Hn. pose proof (li_held _ Hi _ _ Hheld) as Hb. pose proof (li_header _ Hi) as Hh.
  destruct (mark_Ok (l_bio s) i b) as (b' & R & I & D & _ & H & V & F); [apply Hi|done|].
  pose proof (log_write_run s i b b' Hi Hheld Ho Hn R) as Hrun.
  assert (Ht : trans (set_bio b' (logged s b)) = trans_add b (trans s)) by (by apply trans_logged).
  exists b'. split; [exact Hrun|]. split_and!; try done.
  assert (Hrest : geometry (logged s b) /\ l_outstanding (logged s b) = l_outstanding s /\
                  l_committing (logged s b) = l_committing s).
  { unfold logged. pose proof (li_geometry _ Hi). case_decide; done. }
  destruct Hrest as (Hg & Hou & Hc). constructor; cbn.
  - done.
  - done.
  - by apply header_logged.
  - rewrite Ht. unfold trans_add. case_decide; [apply Hi|]. apply NoDup_app.
    split_and!; [apply Hi|set_solver|apply NoDup_singleton].
  - intros x. rewrite F, (li_dirty _ Hi), Ht, <- bool_decide_or. apply bool_decide_ext.
    unfold trans_add. case_decide; set_solver.
  - rewrite D. apply Hi.
  - rewrite Hou. apply Hi.
  - rewrite Hc. apply Hi.
  - rewrite H. apply Hi.
Qed.

#[global] Instance log_view : BlockView logst := {
  bl_inv := log_inv;
  bl_view s := view (l_bio s);
  bl_held s := held (l_bio s);
  bl_trans := trans;
  bl_outstanding := l_outstanding;
  bl_clean s b := dirty (l_bio s) b = true \/ view (l_bio s) b = disk_get (disk (l_bio s)) (1, b)
}.

(** A step of the cache alone keeps the log's invariant. *)
Lemma log_inv_bio s b' :
  log_inv s -> bio_inv b' -> (forall x, dirty b' x = dirty (l_bio s) x) ->
  disk b' = disk (l_bio s) -> (forall i b, held b' !! i = Some b -> 0 <= b < LOGSTART) ->
  log_inv (set_bio b' s).
Proof.
  intros Hi Hb Hd Hk Hh. constructor; try done; try apply Hi; cbn.
  - intros x. rewrite Hd. apply Hi.
  - rewrite Hk. apply Hi.
Qed.

Lemma trans_length s : header_ok s -> length (trans s) = Z.to_nat (l_n s).
Proof. intros (Hn & Hl & _). unfold trans. rewrite length_take. klia. Qed.

Lemma log_bread_law s b :
  log_inv s -> 0 <= b < LOGSTART -> bl_unlocked s b -> bl_room s b ->
  exists i s', Block.bread ROOTDEV b s = Ok i s' /\ bl_inv s' /\ bl_same s s' /\
    bl_held s !! i = None /\ bl_held s' = <[i := b]> (bl_held s) /\ bl_clean s' b.
Proof.
  intros Hi Hb Hu Hr. unfold bl_unlocked, bl_room in Hu, Hr. cbn in Hu, Hr.
  destruct (bread_Ok (l_bio s) b (trans s)) as (i & b' & R & I & D & W & Hn & H & V & F).
  { apply Hi. } { unfold LOGSTART in *. klia. }
  { intros x. rewrite (li_dirty _ Hi). apply bool_decide_eq_true. } { done. }
  { destruct Hr as [Hr|Hr]; [left|right; exact Hr]. rewrite (li_dirty _ Hi). by apply bool_decide_true. }
  exists i, (set_bio b' s). split_and!; try done; [by apply (in_bio_Ok _ s)| | |].
  - apply log_inv_bio; try done. intros j x. rewrite H, lookup_insert. case_decide.
    + intros [= <-]. done.
    + apply Hi.
  - constructor; cbn; try done. intros x. by rewrite F, V, D.
  - cbn. rewrite F, V, D. destruct (dirty (l_bio s) b) eqn:E; [by left|right].
    apply view_stable; [apply Hi|done|done].
Qed.

Lemma log_bset_law s i b d :
  log_inv s -> held (l_bio s) !! i = Some b -> wf_block d ->
  exists s', Block.bset i d s = Ok tt s' /\ bl_inv s' /\ bl_held s' = bl_held s /\
    bl_trans s' = bl_trans s /\ bl_outstanding s' = bl_outstanding s /\
    (forall x, bl_view s' x = if decide (x = b) then d else bl_view s x) /\
    (forall x, x <> b -> bl_clean s x -> bl_clean s' x).
Proof.
  intros Hi Hh Hd. destruct (bset_Ok (l_bio s) i b d) as (b' & R & I & D & W & H & V & F); [apply Hi|done..|].
  exists (set_bio b' s). split_and!; try done; [by apply (in_bio_Ok _ s)| |].
  - apply log_inv_bio; try done. rewrite H. apply Hi.
  - intros x Hx. cbn. by rewrite F, V, D, decide_False.
Qed.

Lemma log_brelse_law s i b :
  log_inv s -> held (l_bio s) !! i = Some b -> bl_clean s b ->
  exists s', Block.brelse i s = Ok tt s' /\ bl_inv s' /\ bl_same s s' /\
    bl_held s' = delete i (bl_held s).
Proof.
  intros Hi Hh Hc. destruct (brelse_Ok (l_bio s) i b) as (b' & R & I & D & W & H & V & F); [apply Hi|done..|].
  exists (set_bio b' s). split_and!; try done; [by apply (in_bio_Ok _ s)| |].
  - apply log_inv_bio; try done. intros j x. rewrite H, lookup_delete. case_decide; [done|]. apply Hi.
  - constructor; cbn; try done. intros x. by rewrite F, V, D.
Qed.

Lemma log_write_law s i b :
  log_inv s -> held (l_bio s) !! i = Some b -> 1 <= l_outstanding s ->
  (length (trans s) < Z.to_nat (LOGSIZE - 1))%nat ->
  exists s', log_write i s = Ok tt s' /\ bl_inv s' /\ bl_held s' = bl_held s /\
    bl_trans s' = trans_add b (bl_trans s) /\ bl_outstanding s' = bl_outstanding s /\
    (forall x, bl_view s' x = bl_view s x) /\
    (forall x, bl_clean s x -> bl_clean s' x) /\ bl_clean s' b.
Proof.
  intros Hi Hh Ho Ht. pose proof (li_header _ Hi) as Hok. rewrite (trans_length _ Hok) in Ht.
  assert (Hn : l_n s < LOGSIZE - 1) by (destruct Hok as (? & _); lia).
  destruct (log_write_Ok s i b Hi Hh Ho Hn) as (b' & R & I & H & V & D & F).
  exists (set_bio b' (logged s b)). split_and!; try done.
  - by apply trans_logged.
  - cbn. unfold logged. by case_decide.
  - intros x. cbn. rewrite F, V, D. intros [Hx|Hx]; [left|by right]. rewrite Hx. apply orb_true_r.
  - cbn. left. rewrite F. by rewrite bool_decide_true.
Qed.

Lemma log_begin_law s :
  log_inv s -> Z.of_nat (length (trans s)) + (l_outstanding s + 1) * MAXOPBLOCKS <= LOGSIZE ->
  exists s', begin_op s = Ok tt s' /\ bl_inv s' /\ bl_held s' = bl_held s /\
    bl_trans s' = bl_trans s /\ bl_outstanding s' = bl_outstanding s + 1 /\
    (forall x, bl_view s' x = bl_view s x) /\ (forall x, bl_clean s x -> bl_clean s' x).
Proof.
  intros Hi Hl. rewrite (trans_length _ (li_header _ Hi)) in Hl.
  destruct (li_header _ Hi) as ([Hn _] & _). rewrite Z2Nat.id in Hl by done.
  exists (set_ops (l_outstanding s + 1) (l_committing s) s). split_and!; try done.
  - unfold begin_op. mstep. rewrite (li_committing _ Hi). mstep. mstep.
    apply Z.ltb_ge in Hl. rewrite Hl. unfold modify. by rewrite (li_committing _ Hi).
  - constructor; cbn; try apply Hi. pose proof (li_outstanding _ Hi). lia.
Qed.

(** The disk after a commit. *)
Lemma commit_disk s hd hd0 x :
  log_inv s -> held (l_bio s) = ∅ -> x <= LOGSTART ->
  disk_get (replay (if 0 <? l_n s then commit_writes (l_bio s) (trans s) hd hd0 else [])
              (disk (l_bio s))) (1, x)
  = if decide (x = LOGSTART)
    then (if 0 <? l_n s then hd0 else disk_get (disk (l_bio s)) (1, x)) else view (l_bio s) x.
Proof.
  intros Hi Hh Hx. destruct (Z.ltb_spec 0 (l_n s)) as [Hn|Hn].
  - unfold commit_writes. rewrite !replay_app. cbn [replay foldl fst snd].
    rewrite disk_get_insert. destruct (decide (x = LOGSTART)) as [->|Hne]; [by rewrite decide_True|].
    rewrite decide_False by congruence. rewrite <- committed_view with (hd := hd) by (done || lia).
    unfold committed_disk. by rewrite replay_app.
  - assert (Ht : trans s = []) by (destruct (li_header _ Hi) as ([? _] & _); unfold trans;
      replace (l_n s) with 0 by lia; done).
    case_decide; [done|]. cbn. symmetry. eapply quiet_view; [by apply li_quiet|].
    by rewrite (li_dirty _ Hi), Ht.
Qed.

Lemma log_end_law s :
  log_inv s -> 1 <= l_outstanding s -> (l_outstanding s = 1 -> held (l_bio s) = ∅) ->
  exists s', end_op s = Ok tt s' /\ bl_inv s' /\ bl_held s' = bl_held s /\
    bl_outstanding s' = bl_outstanding s - 1 /\
    bl_trans s' = (if bl_outstanding s =? 1 then [] else bl_trans s) /\
    (forall x, 0 <= x < LOGSTART -> bl_view s' x = bl_view s x) /\
    (forall x, bl_clean s x -> bl_clean s' x).
Proof.
  intros Hi Ho Hh. destruct (Z.eqb_spec (bl_outstanding s) 1) as [E|E]; cbn in E.
  - specialize (Hh E).
    destruct (end_op_commit s Hi Hh E) as (b' & hd & hd0 & R & Q & [A _] & Hw & Hl & Hw0 & Hl0).
    assert (Hclean : forall x, view b' x = disk_get (disk b') (1, x)).
    { intros x. eapply quiet_view; [done|by apply quiet_nil_dirty]. }
    eexists. split; [exact R|]. split_and!; cbn; try done.
    + constructor; cbn; try done; try apply Hi; try apply Q.
      * split_and!; cbn; [klia|klia|apply Hi|by constructor].
      * by constructor.
      * intros x. by rewrite (quiet_nil_dirty b' x Q).
      * rewrite A, commit_disk, decide_True by (done || lia). case_match; [done|apply Hi].
      * intros i b. by rewrite (q_held _ _ Q), lookup_empty.
    + by rewrite (q_held _ _ Q).
    + lia.
    + intros x Hx. rewrite Hclean, A, commit_disk, decide_False by (done || lia). done.
    + intros x _. right. apply Hclean.
  - exists (set_ops (l_outstanding s - 1) (l_committing s) s). split_and!; try done.
    + unfold end_op. mstep. mstep. cbn [l_committing set_ops]. rewrite (li_committing _ Hi). mstep.
      cbn [l_outstanding set_ops]. rewrite (proj2 (Z.eqb_neq (l_outstanding s - 1) 0)) by lia. done.
    + constructor; cbn; try apply Hi. lia.
Qed.

#[global] Instance log_layer : BlockLayer logst.
Proof.
  constructor; cbn.
  - intros s b Hi. apply wf_view, Hi.
  - intros s Hi. apply Hi.
  - apply log_bread_law.
  - intros s i b Hi Hh. rewrite (in_bio_Ok _ s _ _ (bdata_Ok _ _ _ (li_bio _ Hi) Hh)). by destruct s.
  - apply log_bset_law.
  - apply log_write_law.
  - apply log_brelse_law.
  - apply log_begin_law.
  - apply log_end_law.
Qed.

(** C2: bio.c, ide.c and log.c together keep the promises of the block layer on
    which the file system is built: started on any disk with an empty log they
    reach a state of the layer that shows the disk's contents, and from every
    state of the layer each operation returns, with the effect the interface
    states (the current contents from [bread], modification only through the
    holder of the buffer, no lost update at [brelse], absorption in [log_write],
    admission in [begin_op], unchanged contents across a commit in [end_op]). *)
Theorem log_implements_block_layer d :
  valid_image d -> disk_header d [] ->
  BlockLayer logst /\
  exists s, startup (power_on d) = Ok tt s /\ bl_inv s /\ bl_held s = ∅ /\
    bl_trans s = [] /\ bl_outstanding s = 0 /\
    forall b, 0 <= b < LOGSTART -> bl_view s b = disk_get d (1, b).
Proof.
  intros Hd Hh. split; [apply log_layer|].
  destruct (startup_Ok d [] Hd Hh) as (s & hd & R & Hi & Hhe & Ht & Ho & _ & Hdk & _).
  exists s. split; [exact R|]. clear R. split_and!; try done. intros b Hb. cbn.
  erewrite quiet_view; [|by apply li_quiet|by rewrite (li_dirty _ Hi), Ht].
  rewrite Hdk. cbn. by rewrite disk_get_insert, decide_False by (intros [= ?]; lia).
Qed.

(** ** Witnesses *)

(** A disk with mkfs's superblock and an empty log. *)
Definition fresh_sb : list Z :=
  enc_superblock (Superblock FSSIZE 1900 200 LOGSIZE) ++ replicate 496 0.
Definition fresh_image : gmap sector (list Z) := {[(1, 1) := fresh_sb]}.

Lemma fresh_valid : valid_image fresh_image.
Proof.
  assert (Hsb : wf_block fresh_sb).
  { split; [by vm_compute|]. apply Forall_app_2; [apply enc_fields_u8|apply Forall_replicate; klia]. }
  split; [|by vm_compute]. intros c. unfold disk_get, fresh_image. rewrite lookup_singleton.
  case_decide; [done|apply wf_zero_block].
Qed.

Lemma fresh_header : disk_header fresh_image [].
Proof. split; [split; [by vm_compute|done]|split; [cbn; lia|by constructor]]. Qed.

Lemma log_implements_block_layer_witness :
  exists s, startup (power_on fresh_image) = Ok tt s /\ bl_inv s.
Proof.
  destruct (log_implements_block_layer fresh_image fresh_valid fresh_header) as (_ & s & R & I & _).
  exists s. split; [exact R|exact I].
Defined.

Lemma trans_nil_room s : header_ok s -> trans s = [] -> l_n s < LOGSIZE - 1.
Proof.
  intros Hh Ht. pose proof (trans_length s Hh) as Hl. rewrite Ht in Hl. cbn in Hl.
  destruct Hh as (Hn & _). klia.
Qed.

(** A system call that overwrites one block. *)
Definition write_block (b : Z) (v : list Z) : M logst unit :=
  begin_op ;;;
  let! i := Block.bread ROOTDEV b in
  Block.bset i v ;;;
  log_write i ;;;
  Block.brelse i.

Lemma write_block_Ok s b v :
  log_inv s -> held (l_bio s) = ∅ -> trans s = [] -> l_outstanding s = 0 ->
  0 <= b < LOGSTART -> wf_block v ->
  exists s', write_block b v s = Ok tt s' /\ log_inv s' /\ held (l_bio s') = ∅ /\
    l_outstanding s' = 1 /\ trans s' = [b] /\ disk (l_bio s') = disk (l_bio s) /\
    view (l_bio s') b = v.
Proof.
  intros Hi Hh Ht Ho Hb Hv.
  destruct (log_begin_law s) as (s0 & R0 & I0 & H0 & T0 & O0 & _); [done|rewrite Ht, Ho; cbn; klia|].
  assert (D0 : disk (l_bio s0) = disk (l_bio s)).
  { revert R0. unfold begin_op. mstep. rewrite (li_committing _ Hi). mstep. mstep.
    case_match; [done|]. by intros [= <-]. }
  cbn in H0, T0, O0. rewrite Hh in H0. rewrite Ht in T0. rewrite Ho in O0. pose proof (li_quiet s0 I0 H0) as Q0.
  destruct (quiet_bread _ _ b Q0) as (i & b1 & R1 & (I1 & D1 & _ & _ & _ & V1 & F1) & H1); [unfold LOGSTART in *; klia|].
  assert (Hi1 : held b1 !! i = Some b) by (by rewrite H1, lookup_singleton_eq).
  destruct (bset_Ok b1 i b v) as (b2 & R2 & I2 & D2 & _ & H2 & V2 & F2); [done..|].
  set (s2 := set_bio b2 s0).
  assert (Hs2 : log_inv s2).
  { apply log_inv_bio; try done; [intros x; by rewrite F2, F1|congruence|].
    intros j x. rewrite H2, H1, lookup_singleton. case_decide; [|done]. by intros [= <-]. }
  destruct (log_write_Ok s2 i b) as (b3 & R3 & I3 & H3 & V3 & D3 & F3); [done|cbn; by rewrite H2|cbn; lia| |].
  { apply trans_nil_room; [apply Hs2|done]. }
  destruct (brelse_Ok b3 i b) as (b4 & R4 & I4 & D4 & _ & H4 & V4 & F4);
    [apply I3|by rewrite H3; cbn; rewrite H2|left; by rewrite F3, bool_decide_true|].
  assert (E4 : held b4 = ∅) by (rewrite H4, H3; cbn; rewrite H2, H1; apply delete_singleton_eq).
  exists (set_bio b4 (logged s2 b)). cbn in D3. split_and!; try done.
  - unfold write_block. rewrite (bind_Ok _ _ _ _ _ R0). cbn [Block.bread Block.bset Block.brelse log_ops].
    bio_step R1. bio_step R2. fold s2. rewrite (bind_Ok _ _ _ _ _ R3). by apply (in_bio_Ok _ (set_bio b3 (logged s2 b))).
  - apply (log_inv_bio (set_bio b3 (logged s2 b))); try done. intros j x. by rewrite E4, lookup_empty.
  - cbn. unfold logged. case_decide; cbn; by rewrite O0.
  - change (trans (logged s2 b) = [b]). rewrite trans_logged; [|apply Hs2|].
    + change (trans s2) with (trans s0). rewrite T0. done.
    + apply trans_nil_room; [apply Hs2|done].
  - cbn. by rewrite D4, D3, D2, D1.
  - cbn. rewrite V4, V3. cbn. by rewrite V2, decide_True.
Qed.

Lemma commit_crash_atomic_witness :
  exists s s' w, log_inv s /\ end_op s = Ok tt s' /\ trans s = [5] /\
    (forall d, reboots (replay (take 2 w) (disk (l_bio s))) d ->
     exists s'', startup (power_on d) = Ok tt s'' /\ view (l_bio s'') 5 = demo_block).
Proof.
  destruct (startup_Ok fresh_image [] fresh_valid fresh_header)
    as (s0 & hd & R & Hi & Hh & Ht & Ho & _ & Hdk & Hhd & _).
  clear R. assert (Hb : wf_block demo_block).
  { split; [reflexivity|]. apply Forall_replicate. unfold is_u8. lia. }
  destruct (write_block_Ok s0 5 demo_block) as (s1 & _ & I1 & H1 & O1 & T1 & D1 & V1);
    [assumption..|unfold LOGSTART; klia|assumption|].
  assert (Hv1 : valid_image (disk (l_bio s1))).
  { rewrite D1, Hdk. apply valid_image_writes; [apply fresh_valid|by apply Forall_singleton|].
    cbn. set_solver. }
  destruct (commit_crash_atomic s1 I1 H1 O1 Hv1) as (s2 & w & R2 & _ & Hcrash); [rewrite T1; set_solver|].
  exists s1, s2, w. split; [exact I1|]. split; [exact R2|]. split; [exact T1|].
  intros d Hd. destruct (Hcrash 2%nat d Hd) as (s3 & R3 & _ & Hv).
  exists s3. split; [exact R3|]. rewrite Hv by (unfold LOGSTART; klia). rewrite T1. cbn. exact V1.
Defined.

(** ** The log's capacity *)

(** What a system call does with a block: lock it, change it, log it, release it. *)
Definition put_block (w : Z * list Z) : M logst unit :=
  let! i := Block.bread ROOTDEV (fst w) in
  Block.bset i (snd w) ;;;
  log_write i ;;;
  Block.brelse i.

Definition putable (w : Z * list Z) : Prop := 0 <= fst w < LOGSTART /\ wf_block (snd w).

Lemma log_write_full s i : geometry s -> LOGSIZE - 1 <= l_n s -> log_write i s = Stop (Panic "too big a transaction") s.
Proof.
  intros (_ & _ & Hsz) Hn. unfold log_write. mstep. mstep. rewrite Hsz.
  rewrite (proj2 (Z.leb_le (LOGSIZE - 1) (l_n s))) by done. by rewrite orb_true_r.
Qed.

Lemma none_held (s : logst) b : bl_held s = ∅ -> bl_unlocked s b.
Proof. intros H i. by rewrite H, lookup_empty. Qed.

(** With a block of the log left, the block is logged. *)
Lemma put_block_Ok s w :
  log_inv s -> bl_held s = ∅ -> 1 <= bl_outstanding s -> putable w -> (length (trans s) < 29)%nat ->
  exists s', put_block w s = Ok tt s' /\
    bl_eff s s' (upd_view (fst w) (snd w) (bl_view s)) (trans_add (fst w) (trans s)).
Proof.
  intros Hi Hh Ho [Hb Hv] Ht.
  assert (B : budget s ∅ 1).
  { unfold budget. rewrite Hh, map_size_empty, union_empty_r_L, size_list_to_set by apply Hi. cbn. lia. }
  destruct (bread_rule s (fst w) ∅ 0) as (i & s1 & R1 & O1 & B1); [exact Hi|exact Hb|by apply none_held|exact B|].
  destruct (log_rule _ _ _ _ _ _ (snd w) ∅ 0 O1 Hv Ho B1) as (s2 & s3 & R2 & R3 & O3).
  destruct (brelse_rule _ _ _ _ _ _ O3) as (s4 & R4 & E4). exists s4. split; [|done].
  unfold put_block. rewrite (bind_Ok _ _ _ _ _ R1), (bind_Ok _ _ _ _ _ R2). change log_write with (Block.log_write (L := logst)).
  by rewrite (bind_Ok _ _ _ _ _ R3).
Qed.

(** With none left it panics, also for a block that the transaction has. *)
Lemma put_block_full s w :
  log_inv s -> bl_held s = ∅ -> putable w -> length (trans s) = 29%nat ->
  exists s', put_block w s = Stop (Panic "too big a transaction") s'.
Proof.
  intros Hi Hh [Hb Hv] Ht.
  destruct (bread_law s (fst w)) as (i & s1 & R1 & I1 & S1 & _ & H1 & _); [exact Hi|exact Hb|by apply none_held|..].
  { right. rewrite Hh, map_size_empty. cbn [bl_trans log_view]. rewrite Ht. unfold NBUF. lia. }
  destruct (bset_law s1 i (fst w) (snd w) I1) as (s2 & R2 & I2 & _ & T2 & _); [rewrite H1; apply lookup_insert_eq|done|].
  exists s2. unfold put_block. rewrite (bind_Ok _ _ _ _ _ R1), (bind_Ok _ _ _ _ _ R2).
  apply bind_Stop, log_write_full; [apply I2|].
  pose proof (trans_length _ (li_header _ I2)) as Hl. cbn [bl_trans log_view] in T2.
  rewrite T2 in Hl. change (trans s1) with (bl_trans s1) in Hl. rewrite (same_trans _ _ S1) in Hl. cbn [bl_trans log_view] in Hl.
  unfold LOGSIZE in *. klia.
Qed.

Definition trans_adds (t bs : list Z) : list Z := foldl (fun t b => trans_add b t) t bs.
Definition put_views (v : Z -> list Z) (ws : list (Z * list Z)) : Z -> list Z :=
  foldl (fun v w => upd_view (fst w) (snd w) v) v ws.

Lemma put_views_ext ws : forall v v', (forall x, v x = v' x) -> forall x, put_views v ws x = put_views v' ws x.
Proof.
  induction ws as [|w ws IH]; intros v v' E x; [apply E|]. apply IH. intros y. unfold upd_view. by case_decide.
Qed.

Lemma put_blocks_run ws : forall s (bs := removelast ws.*1),
  log_inv s -> bl_held s = ∅ -> 1 <= bl_outstanding s -> Forall putable ws -> ws <> [] ->
  if decide (size (list_to_set (trans s) ∪ list_to_set bs : gset Z) < 29)%nat
  then exists s', for_each ws put_block s = Ok tt s' /\ trans s' = trans_adds (trans s) ws.*1 /\
    forall x, view (l_bio s') x = put_views (view (l_bio s)) ws x
  else exists s', for_each ws put_block s = Stop (Panic "too big a transaction") s'.
Proof.
  induction ws as [|w ws IH]; intros s bs Hi Hh Ho Hw Hne; [done|]. apply Forall_cons in Hw as [Hw Hws].
  pose proof (size_list_to_set (C := gset Z) (trans s) (li_nodup _ Hi)) as Hsz.
  pose proof (subseteq_size (list_to_set (trans s)) (list_to_set (trans s) ∪ list_to_set bs : gset Z) ltac:(set_solver)) as Hsub.
  assert (Hmax : (length (trans s) <= 29)%nat).
  { rewrite (trans_length _ (li_header _ Hi)). destruct (li_header _ Hi) as (? & _). unfold LOGSIZE in *. lia. }
  cbn [for_each]. destruct (decide (length (trans s) = 29%nat)) as [Hfull|Hroom].
  { rewrite decide_False by lia. destruct (put_block_full s w Hi Hh Hw Hfull) as (s' & R). exists s'. by apply bind_Stop. }
  destruct (put_block_Ok s w Hi Hh Ho Hw) as (s1 & R1 & E1); [lia|].
  destruct ws as [|w2 ws].
  { rewrite decide_True by (cbn; rewrite union_empty_r_L; lia). exists s1. rewrite (bind_Ok _ _ _ _ _ R1).
    split_and!; [done|apply E1|]. intros x. apply (ef_view _ _ _ _ E1). }
  pose proof (ef_trans _ _ _ _ E1) as T1. cbn [bl_trans log_view] in T1.
  specialize (IH s1). cbn zeta in IH. rewrite (bind_Ok _ _ _ _ _ R1).
  assert (Hset : list_to_set (trans s1) ∪ list_to_set (removelast (w2 :: ws).*1) =
    (list_to_set (trans s) ∪ list_to_set bs : gset Z)).
  { rewrite T1, trans_add_set. unfold bs. change (removelast (w :: w2 :: ws).*1) with (fst w :: removelast (w2 :: ws).*1).
    rewrite list_to_set_cons. set_solver. }
  rewrite Hset in IH. case_decide.
  - destruct IH as (s' & R & T & V); [apply E1|by rewrite (ef_held _ _ _ _ E1)|by rewrite (ef_outstanding _ _ _ _ E1)|done|done|].
    exists s'. split_and!; [done|by rewrite T, T1|]. intros x. rewrite V. apply (put_views_ext (w2 :: ws)), E1.
  - destruct IH as (s' & R); [apply E1|by rewrite (ef_held _ _ _ _ E1)|by rewrite (ef_outstanding _ _ _ _ E1)|done|done|].
    by exists s'.
Qed.

Lemma begin_op_admits s : log_inv s -> trans s = [] -> l_outstanding s = 0 -> bl_held s = ∅ ->
  exists s3, (begin_op ;;; begin_op ;;; begin_op) s = Ok tt s3 /\ log_inv s3 /\ bl_held s3 = ∅ /\
    trans s3 = [] /\ l_outstanding s3 = 3 /\ forall x, view (l_bio s3) x = view (l_bio s) x.
Proof.
  intros Hi Ht Ho Hh. change begin_op with (Block.begin_op (L := logst)).
  assert (Hadm : forall u n, log_inv u -> bl_trans u = [] -> bl_outstanding u = n -> n <= 2 ->
    exists u', Block.begin_op u = Ok tt u' /\ bl_inv u' /\ bl_held u' = bl_held u /\ bl_trans u' = [] /\
      bl_outstanding u' = n + 1 /\ forall x, bl_view u' x = bl_view u x).
  { intros u n Iu Tu Ou Hn. destruct (begin_op_law u) as (u' & R & I & H & T & O & V & _); [exact Iu|..].
    { rewrite Tu, Ou. cbn [length]. unfold LOGSIZE, MAXOPBLOCKS. lia. }
    exists u'. split_and!; try done; congruence. }
  destruct (Hadm s 0 Hi Ht Ho) as (s1 & R1 & I1 & H1 & T1 & O1 & V1); [lia|].
  destruct (Hadm s1 1 I1 T1 O1) as (s2 & R2 & I2 & H2 & T2 & O2 & V2); [lia|].
  destruct (Hadm s2 2 I2 T2 O2) as (s3 & R3 & I3 & H3 & T3 & O3 & V3); [lia|].
  exists s3. rewrite (bind_Ok _ _ _ _ _ R1), (bind_Ok _ _ _ _ _ R2). split_and!; try done; [congruence|].
  intros x. pose proof (V1 x). pose proof (V2 x). pose proof (V3 x). cbn [bl_view log_view] in *. congruence.
Qed.

(** C21: the capacity of the log.  From an idle log [begin_op] admits three system
    calls together, each entitled to [MAXOPBLOCKS] blocks, and makes a fourth
    wait.  Whatever blocks they then change, in whatever order and however often,
    all changes are logged if fewer than [LOGSIZE - 1] distinct blocks come before
    the last change; then the transaction lists each block once, in the order
    first logged, and the blocks show what was written last.  Otherwise
    [log_write] panics: so the last of the thirty blocks that the three calls are
    entitled to, if all are distinct, is one too many, and once the log is full
    even a block that it already holds is. *)
Theorem log_capacity s ws :
  log_inv s -> bl_held s = ∅ -> trans s = [] -> l_outstanding s = 0 -> Forall putable ws -> ws <> [] ->
  exists s3, (begin_op ;;; begin_op ;;; begin_op) s = Ok tt s3 /\ begin_op s3 = Stop (Sleep ChLog) s3 /\
    if decide (Z.of_nat (size (list_to_set (removelast ws.*1) : gset Z)) < LOGSIZE - 1)
    then exists s', for_each ws put_block s3 = Ok tt s' /\ trans s' = trans_adds [] ws.*1 /\
      forall x, view (l_bio s') x = put_views (view (l_bio s)) ws x
    else exists s', for_each ws put_block s3 = Stop (Panic "too big a transaction") s'.
Proof.
  intros Hi Hh Ht Ho Hw Hne. destruct (begin_op_admits s Hi Ht Ho Hh) as (s3 & R & I3 & H3 & T3 & O3 & V3).
  exists s3. split; [done|]. split.
  { unfold begin_op. mstep. rewrite (li_committing _ I3). mstep. mstep. rewrite O3.
    rewrite (proj2 (Z.ltb_lt _ _)); [done|]. destruct (li_header _ I3) as (Hn & _). unfold LOGSIZE, MAXOPBLOCKS in *. lia. }
  pose proof (put_blocks_run ws s3 I3 H3 ltac:(cbn; lia) Hw Hne) as H. cbn zeta in H. rewrite T3 in H.
  cbn [list_to_set] in H. rewrite (union_empty_l_L (list_to_set (removelast ws.*1) : gset Z)) in H.
  unfold LOGSIZE. destruct (decide (_ < 30 - 1)); [rewrite decide_True in H by lia|rewrite decide_False in H by lia; exact H].
  destruct H as (s' & R' & T' & V'). exists s'. split_and!; try done. intros x. rewrite V'. by apply put_views_ext.
Qed.

(** Thirty distinct blocks. *)
Definition demo_puts : list (Z * list Z) := (fun b => (b, zero_block)) <$> seqZ 100 (3 * MAXOPBLOCKS).

Lemma log_capacity_witness :
  exists s s3 s', log_inv s /\ (begin_op ;;; begin_op ;;; begin_op) s = Ok tt s3 /\
    length demo_puts = 30%nat /\ for_each demo_puts put_block s3 = Stop (Panic "too big a transaction") s'.
Proof.
  destruct (startup_Ok fresh_image [] fresh_valid fresh_header) as (s0 & hd & R & Hi & Hh & Ht & Ho & _). clear R.
  assert (Hw : Forall putable demo_puts).
  { unfold demo_puts. apply Forall_fmap, Forall_seqZ. intros b Hb. split; [|apply wf_zero_block].
    cbn [compose fst]. unfold LOGSTART, MAXOPBLOCKS, FSSIZE, LOGSIZE in *. lia. }
  destruct (log_capacity s0 demo_puts Hi Hh Ht Ho Hw) as (s3 & R3 & _ & H); [discriminate|].
  assert (Hn : ~ Z.of_nat (size (list_to_set (removelast demo_puts.*1) : gset Z)) < LOGSIZE - 1) by (vm_compute; congruence).
  rewrite decide_False in H by exact Hn. destruct H as (s' & R').
  exists s0, s3, s'. split; [exact Hi|]. split; [exact R3|]. split; [reflexivity|exact R'].
Defined.
