(* ===== verification/FsBlock.v ===== *)
(** * FsBlock: the file system's state and its block allocator (fs.c)

    The state of the file system above the block layer: the inode cache and the
    current directory of the running process.  Then [bzero], [balloc] and
    [bfree], proved against the block-layer interface: allocation finds the
    first free block, even one of the log if the bitmap has it free, marks it and
    clears it. *)

From S2P Require Import Prelude Layout Block.
Open Scope Z_scope.
Open Scope xv6_scope.

(** ** State *)

(** [struct inode] (file.h). *)
Record inode := Inode {
  i_dev : Z;
  i_inum : Z;
  i_ref : Z;
  i_flags : Z;
  i_d : dinode
}.
Definition I_BUSY : Z := 1.
Definition I_VALID : Z := 2.

Definition i_type (ip : inode) : Z := di_type (i_d ip).
Definition i_major (ip : inode) : Z := di_major (i_d ip).
Definition i_minor (ip : inode) : Z := di_minor (i_d ip).
Definition i_nlink (ip : inode) : Z := di_nlink (i_d ip).
Definition i_size (ip : inode) : Z := di_size (i_d ip).
Definition i_addrs (ip : inode) : list Z := di_addrs (i_d ip).
Definition i_child1 (ip : inode) : Z := di_child1 (i_d ip).
Definition i_child2 (ip : inode) : Z := di_child2 (i_d ip).
Definition i_checksum (ip : inode) : Z := di_checksum (i_d ip).

(** Assignments to the fields of a copy of the disk inode. *)
Definition d_set_type (t : Z) (d : dinode) : dinode :=
  Dinode t (di_major d) (di_minor d) (di_nlink d) (di_size d) (di_addrs d)
         (di_child1 d) (di_child2 d) (di_checksum d).
Definition d_set_dev (ma mi : Z) (d : dinode) : dinode :=
  Dinode (di_type d) ma mi (di_nlink d) (di_size d) (di_addrs d)
         (di_child1 d) (di_child2 d) (di_checksum d).
Definition d_set_nlink (n : Z) (d : dinode) : dinode :=
  Dinode (di_type d) (di_major d) (di_minor d) n (di_size d) (di_addrs d)
         (di_child1 d) (di_child2 d) (di_checksum d).
Definition d_set_size (n : Z) (d : dinode) : dinode :=
  Dinode (di_type d) (di_major d) (di_minor d) (di_nlink d) n (di_addrs d)
         (di_child1 d) (di_child2 d) (di_checksum d).
Definition d_set_addr (i : nat) (a : Z) (d : dinode) : dinode :=
  Dinode (di_type d) (di_major d) (di_minor d) (di_nlink d) (di_size d) (<[i := a]> (di_addrs d))
         (di_child1 d) (di_child2 d) (di_checksum d).
Definition d_set_children (c1 c2 : Z) (d : dinode) : dinode :=
  Dinode (di_type d) (di_major d) (di_minor d) (di_nlink d) (di_size d) (di_addrs d)
         c1 c2 (di_checksum d).
Definition d_set_checksum (c : Z) (d : dinode) : dinode :=
  Dinode (di_type d) (di_major d) (di_minor d) (di_nlink d) (di_size d) (di_addrs d)
         (di_child1 d) (di_child2 d) c.

Definition i_set_ref (r : Z) (ip : inode) : inode := Inode (i_dev ip) (i_inum ip) r (i_flags ip) (i_d ip).
Definition i_set_flags (f : Z) (ip : inode) : inode := Inode (i_dev ip) (i_inum ip) (i_ref ip) f (i_d ip).
Definition i_set_d (d : dinode) (ip : inode) : inode :=
  Inode (i_dev ip) (i_inum ip) (i_ref ip) (i_flags ip) d.
Definition i_upd_d (f : dinode -> dinode) (ip : inode) : inode := i_set_d (f (i_d ip)) ip.
Definition i_flag (m : Z) (ip : inode) : bool := negb (Z.land (i_flags ip) m =? 0).

(** The file system over a block layer [L]: [icache.inode] and [proc->cwd].  A
    [struct inode *] into the cache is an index. *)
Record fsst (L : Type) := FsSt {
  low : L;
  icache : list inode;
  cwd : nat
}.
Arguments FsSt {L} _ _ _.
Arguments low {L} _.
Arguments icache {L} _.
Arguments cwd {L} _.

Definition set_low {L} (l : L) (s : fsst L) : fsst L := FsSt l (icache s) (cwd s).
Definition set_icache {L} (c : list inode) (s : fsst L) : fsst L := FsSt (low s) c (cwd s).

(** A call into the block layer. *)
Definition in_low {L A} (c : M L A) : M (fsst L) A :=
  fun s => match c (low s) with
           | Ok a l => Ok a (set_low l s)
           | Stop r l => Stop r (set_low l s)
           end.

(** [*ip], and assignment through [ip]. *)
Definition get_inode {L} (ip : nat) : M (fsst L) inode :=
  let! c := gets icache in of_option (Undefined "inode pointer") (c !! ip).
Definition upd_inode {L} (ip : nat) (f : inode -> inode) : M (fsst L) unit :=
  let! c := gets icache in
  match c !! ip with
  | Some i => modify (set_icache (<[ip := f i]> c))
  | None => halt (Undefined "inode pointer")
  end.

(** ** Blocks *)

(** A byte of a block, as [bp->data[i]]. *)
Definition get_byte (d : list Z) (i : nat) : Z := default 0 (d !! i).

Section Blocks.
Context {L : Type} `{BlockOps L}.

Definition bzero (dev bno : Z) : M L unit :=
  let! bp := bread dev bno in
  bset bp zero_block ;;;
  log_write bp ;;;
  brelse bp.

(** The scan of one bitmap block for a zero bit: the first [bi] in [bis] with
    [b + bi < size] still in range and its bit clear. *)
Fixpoint balloc_bit (d : list Z) (b size : Z) (bis : list Z) : option Z :=
  match bis with
  | [] => None
  | bi :: bis =>
      if b + bi <? size then
        if Z.land (get_byte d (Z.to_nat (bi / 8))) (Z.shiftl 1 (bi mod 8)) =? 0
        then Some bi else balloc_bit d b size bis
      else None
  end.

(** [bp->data[bi/8] |= m] and [&= ~m]. *)
Definition set_bit (d : list Z) (bi : Z) : list Z :=
  let i := Z.to_nat (bi / 8) in
  <[i := Z.lor (get_byte d i) (Z.shiftl 1 (bi mod 8))]> d.
Definition clear_bit (d : list Z) (bi : Z) : list Z :=
  let i := Z.to_nat (bi / 8) in
  <[i := Z.ldiff (get_byte d i) (Z.shiftl 1 (bi mod 8))]> d.

(** The loop over the bitmap blocks; [bs] are the values of [b]. *)
Fixpoint balloc_loop (dev : Z) (sb : superblock) (bs : list Z) : M L Z :=
  match bs with
  | [] => panic "balloc: out of blocks"
  | b :: bs =>
      let! bp := bread dev (BBLOCK b (sb_ninodes sb)) in
      let! d := bdata bp in
      match balloc_bit d b (sb_size sb) (seqZ 0 BPB) with
      | Some bi =>
          bset bp (set_bit d bi) ;;;
          log_write bp ;;;
          brelse bp ;;;
          bzero dev (b + bi) ;;;
          ret (b + bi)
      | None => brelse bp ;;; balloc_loop dev sb bs
      end
  end.

(** [b = 0, BPB, 2*BPB, ...] while [b < sb.size]. *)
Definition balloc (dev : Z) : M L Z :=
  let! sb := readsb dev in
  balloc_loop dev sb ((fun k => k * BPB) <$> seqZ 0 ((sb_size sb + BPB - 1) / BPB)).

Definition bfree (dev b : Z) : M L unit :=
  let! sb := readsb dev in
  let! bp := bread dev (BBLOCK b (sb_ninodes sb)) in
  let! d := bdata bp in
  let bi := b mod BPB in
  if Z.land (get_byte d (Z.to_nat (bi / 8))) (Z.shiftl 1 (bi mod 8)) =? 0
  then panic "freeing free block"
  else
    bset bp (clear_bit d bi) ;;;
    log_write bp ;;;
    brelse bp.
End Blocks.

(** ** The free bitmap *)

(** The bit of block [b] in its bitmap block [d]. *)
Definition used (d : list Z) (b : Z) : bool :=
  Z.testbit (get_byte d (Z.to_nat (b mod BPB / 8))) (b mod BPB mod 8).

Lemma land_bit x k : 0 <= k -> (Z.land x (Z.shiftl 1 k) =? 0) = negb (Z.testbit x k).
Proof.
  intros Hk. rewrite Z.shiftl_1_l, land_pow2 by done. destruct (Z.testbit x k); [|done].
  apply Z.eqb_neq. pose proof (Z.pow_pos_nonneg 2 k). lia.
Qed.

Lemma u8_bits x : is_u8 x <-> 0 <= x /\ forall n, 8 <= n -> Z.testbit x n = false.
Proof.
  unfold is_u8. split.
  - intros Hx. split; [lia|]. intros n Hn. rewrite <- (Z.mod_small x (2 ^ 8)) by lia.
    apply Z.mod_pow2_bits_high. lia.
  - intros [H0 Hb]. assert (E : x = x mod 2 ^ 8).
    { apply Z.bits_inj'. intros n Hn. destruct (Z.ltb_spec n 8).
      - by rewrite Z.mod_pow2_bits_low by lia.
      - rewrite Z.mod_pow2_bits_high by lia. by apply Hb. }
    rewrite E. apply Z.mod_pos_bound. lia.
Qed.

Lemma u8_lor x k : is_u8 x -> 0 <= k < 8 -> is_u8 (Z.lor x (Z.shiftl 1 k)).
Proof.
  intros [H0 Hx]%u8_bits Hk. apply u8_bits. rewrite Z.shiftl_1_l. split.
  - apply Z.lor_nonneg. split; [done|]. apply Z.pow_nonneg. lia.
  - intros n Hn. rewrite Z.lor_spec, Hx, Z.pow2_bits_false by lia. done.
Qed.

Lemma u8_ldiff x k : is_u8 x -> 0 <= k < 8 -> is_u8 (Z.ldiff x (Z.shiftl 1 k)).
Proof.
  intros [H0 Hx]%u8_bits Hk. apply u8_bits. split; [apply Z.ldiff_nonneg; by left|].
  intros n Hn. by rewrite Z.ldiff_spec, Hx by lia.
Qed.

Lemma get_byte_u8 d i : Forall is_u8 d -> is_u8 (get_byte d i).
Proof.
  intros Hd. unfold get_byte. destruct (d !! i) eqn:E; cbn; [|klia].
  by apply (Forall_lookup_1 _ _ _ _ Hd E).
Qed.

Lemma wf_insert_byte d i x : wf_block d -> is_u8 x -> wf_block (<[i := x]> d).
Proof. intros [Hl Hd] Hx. split; [by rewrite length_insert|by apply Forall_insert]. Qed.

Lemma wf_set_bit d b : wf_block d -> wf_block (set_bit d b).
Proof.
  intros Hd. apply wf_insert_byte; [done|]. apply u8_lor; [apply get_byte_u8, Hd|].
  apply Z.mod_pos_bound. lia.
Qed.

Lemma wf_clear_bit d b : wf_block d -> wf_block (clear_bit d b).
Proof.
  intros Hd. apply wf_insert_byte; [done|]. apply u8_ldiff; [apply get_byte_u8, Hd|].
  apply Z.mod_pos_bound. lia.
Qed.

(** Two bit positions of a byte array are the same bit only if equal. *)
Lemma bit_pos a b : 0 <= a -> 0 <= b ->
  Z.to_nat (a / 8) = Z.to_nat (b / 8) -> a mod 8 = b mod 8 -> a = b.
Proof.
  intros Ha Hb H1 H2. pose proof (Z.div_mod a 8). pose proof (Z.div_mod b 8).
  pose proof (Z.div_pos a 8). pose proof (Z.div_pos b 8). lia.
Qed.

Lemma get_byte_insert d i j x :
  (i < length d)%nat -> get_byte (<[i := x]> d) j = if decide (j = i) then x else get_byte d j.
Proof.
  intros Hi. unfold get_byte. case_decide as E.
  - subst. by rewrite list_lookup_insert_eq.
  - by rewrite list_lookup_insert_ne.
Qed.

(** Changing one bit of the byte that holds it. *)
Lemma used_update d a b (f : Z -> Z) v :
  wf_block d -> 0 <= a < BPB -> 0 <= b < BPB ->
  (forall x n, 0 <= n -> Z.testbit (f x) n = if decide (n = a mod 8) then v else Z.testbit x n) ->
  used (<[Z.to_nat (a / 8) := f (get_byte d (Z.to_nat (a / 8)))]> d) b
  = if decide (b = a) then v else used d b.
Proof.
  intros [Hl _] Ha Hb Hf. unfold used. rewrite (Z.mod_small b BPB) by done.
  assert (Z.to_nat (a / 8) < length d)%nat.
  { rewrite Hl. unfold BPB in Ha. pose proof (Z.div_lt_upper_bound a 8 512). klia. }
  pose proof (Z.mod_pos_bound b 8). rewrite get_byte_insert by done.
  destruct (decide (b = a)) as [->|Hne].
  - rewrite decide_True by done. rewrite Hf by lia. by rewrite decide_True.
  - case_decide as E; [|done]. rewrite Hf by lia. rewrite decide_False; [by rewrite E|].
    intros E2. apply Hne, bit_pos; auto; lia.
Qed.

Lemma used_set d a b :
  wf_block d -> 0 <= a < BPB -> 0 <= b < BPB ->
  used (set_bit d a) b = if decide (b = a) then true else used d b.
Proof.
  intros Hd Ha Hb. apply (used_update d a b (fun x => Z.lor x (Z.shiftl 1 (a mod 8))) true); try done.
  intros x n Hn. rewrite Z.shiftl_1_l, Z.lor_spec. pose proof (Z.mod_pos_bound a 8).
  case_decide as E.
  - subst. rewrite Z.pow2_bits_true by lia. apply orb_true_r.
  - rewrite Z.pow2_bits_false by lia. apply orb_false_r.
Qed.

Lemma used_clear d a b :
  wf_block d -> 0 <= a < BPB -> 0 <= b < BPB ->
  used (clear_bit d a) b = if decide (b = a) then false else used d b.
Proof.
  intros Hd Ha Hb. apply (used_update d a b (fun x => Z.ldiff x (Z.shiftl 1 (a mod 8))) false); try done.
  intros x n Hn. rewrite Z.shiftl_1_l, Z.ldiff_spec. pose proof (Z.mod_pos_bound a 8).
  case_decide as E.
  - subst. rewrite Z.pow2_bits_true by lia. apply andb_false_r.
  - rewrite Z.pow2_bits_false by lia. apply andb_true_r.
Qed.

Lemma balloc_bit_Ok d size n : forall k,
  0 <= k -> 0 <= n -> k + n <= BPB ->
  (forall b, balloc_bit d 0 size (seqZ k n) = Some b ->
     k <= b < k + n /\ b < size /\ used d b = false /\
     forall x, k <= x < b -> used d x = true) /\
  (balloc_bit d 0 size (seqZ k n) = None ->
     forall x, k <= x < k + n -> x < size -> used d x = true).
Proof.
  intros k Hk Hn. revert k Hk. pattern n. apply natlike_ind; [|clear n Hn; intros n Hn IH|done];
    intros k Hk Hb.
  { rewrite seqZ_nil by lia. split; [done|]. intros _ x Hx. lia. }
  rewrite seqZ_cons, Z.pred_succ by lia. cbn [balloc_bit]. rewrite Z.add_0_l.
  destruct (Z.ltb_spec k size) as [Hks|Hks].
  2: { split; [done|]. intros _ x Hx Hxs. lia. }
  assert (Hu : (Z.land (get_byte d (Z.to_nat (k / 8))) (Z.shiftl 1 (k mod 8)) =? 0) = negb (used d k)).
  { rewrite land_bit by (apply Z.mod_pos_bound; lia). unfold used. rewrite (Z.mod_small k BPB) by lia. done. }
  rewrite Hu. destruct (used d k) eqn:E; cbn [negb].
  - destruct (IH (Z.succ k)) as [H1 H2]; [lia..|]. split.
    + intros b Hbb. destruct (H1 b Hbb) as (? & ? & ? & Hlow). split_and!; try done; try lia.
      intros x Hx. destruct (decide (x = k)) as [->|]; [done|]. apply Hlow. lia.
    + intros Hnone x Hx Hxs. destruct (decide (x = k)) as [->|]; [done|]. apply (H2 Hnone); lia.
  - split; [|done]. intros b [= <-]. split_and!; try done; try lia.
Qed.

(** ** The allocator *)

(** The geometry of a file system whose bitmap is the one block [bm]. *)
Record fs_geometry (v : Z -> list Z) (sb : superblock) : Prop := {
  g_sb : dec_superblock (take 16 (v 1)) = sb;
  g_size : 0 < sb_size sb <= FSSIZE;
  g_ninodes : 0 <= sb_ninodes sb < LOGSTART
}.
Definition bm (sb : superblock) : Z := BBLOCK 0 (sb_ninodes sb).

Lemma bm_block v sb b : fs_geometry v sb -> 0 <= b < BPB -> BBLOCK b (sb_ninodes sb) = bm sb.
Proof. intros G Hb. unfold bm, BBLOCK. by rewrite (Z.div_small b) by done. Qed.

Lemma bm_range v sb : fs_geometry v sb -> 3 <= bm sb < LOGSTART.
Proof.
  intros G. unfold bm, BBLOCK. pose proof (g_ninodes _ _ G) as Hn.
  change IPB with 8. change (0 / BPB) with 0. change LOGSTART with 1970 in *.
  pose proof (Z.div_pos (sb_ninodes sb) 8). pose proof (Z.div_lt_upper_bound (sb_ninodes sb) 8 300). lia.
Qed.

Section BlockProofs.
Context {L : Type} {HO : BlockOps L} {HV : BlockView L} {HL : BlockLayer L}.
Implicit Types l : L.

Lemma readsb_Ok l sb u k :
  bl_inv l -> fs_geometry (bl_view l) sb -> bl_unlocked l 1 -> budget l u (S k) ->
  exists l', readsb ROOTDEV l = Ok sb l' /\ bl_eff l l' (bl_view l) (bl_trans l).
Proof.
  intros Hi G Hu Hk. destruct (bread_rule l 1 u k) as (i & l1 & R1 & O1 & _); [done|unfold LOGSTART; klia|done..|].
  destruct (brelse_rule _ _ _ _ _ _ O1) as (l2 & R2 & E2). exists l2. split; [|done].
  unfold readsb. rewrite (bind_Ok _ _ _ _ _ R1), (bind_Ok _ _ _ _ _ (bdata_rule _ _ _ _ _ _ O1)).
  rewrite (bind_Ok _ _ _ _ _ R2). unfold ret. by rewrite (g_sb _ _ G).
Qed.

Lemma bzero_Ok l b u k :
  bl_inv l -> 0 <= b < LOGSTART -> bl_unlocked l b -> budget l u (S k) -> 1 <= bl_outstanding l ->
  exists l', bzero ROOTDEV b l = Ok tt l' /\
    bl_eff l l' (upd_view b zero_block (bl_view l)) (trans_add b (bl_trans l)).
Proof.
  intros Hi Hb Hu Hk Ho. destruct (bread_rule l b u k) as (i & l1 & R1 & O1 & B1); [done..|].
  destruct (log_rule _ _ _ _ _ _ zero_block u k O1) as (l2 & l3 & R2 & R3 & O3);
    [apply wf_zero_block|done|done|].
  destruct (brelse_rule _ _ _ _ _ _ O3) as (l4 & R4 & E4). exists l4. split; [|done].
  unfold bzero. rewrite (bind_Ok _ _ _ _ _ R1), (bind_Ok _ _ _ _ _ R2), (bind_Ok _ _ _ _ _ R3).
  exact R4.
Qed.

(** The contents and the transaction after block [b] is allocated. *)
Definition alloc_view (sb : superblock) (b : Z) (v : Z -> list Z) : Z -> list Z :=
  upd_view b zero_block (upd_view (bm sb) (set_bit (v (bm sb)) b) v).
Definition alloc_trans (sb : superblock) (b : Z) (t : list Z) : list Z :=
  trans_add b (trans_add (bm sb) t).

(** The first free block. *)
Definition first_free (sb : superblock) (v : Z -> list Z) (b : Z) : Prop :=
  0 <= b < sb_size sb /\ used (v (bm sb)) b = false /\
  forall x, 0 <= x < b -> used (v (bm sb)) x = true.

Lemma first_free_bit sb v b :
  fs_geometry v sb -> first_free sb v b ->
  balloc_bit (v (bm sb)) 0 (sb_size sb) (seqZ 0 BPB) = Some b.
Proof.
  intros G (Hb & Hfree & Hlow). pose proof (g_size _ _ G).
  destruct (balloc_bit_Ok (v (bm sb)) (sb_size sb) BPB 0) as [B1 B2]; [klia..|].
  destruct (balloc_bit _ 0 (sb_size sb) (seqZ 0 BPB)) as [x|].
  - destruct (B1 x eq_refl) as (? & ? & Hx & Hxl). f_equal.
    destruct (Z.lt_total x b) as [Hlt|[?|Hgt]]; [|done|].
    + specialize (Hlow x). rewrite Hlow in Hx by lia. done.
    + specialize (Hxl b). rewrite Hxl in Hfree by lia. done.
  - specialize (B2 eq_refl b). rewrite B2 in Hfree by klia. done.
Qed.

Lemma balloc_blocks v sb : fs_geometry v sb ->
  ((fun k => k * BPB) <$> seqZ 0 ((sb_size sb + BPB - 1) / BPB)) = [0].
Proof.
  intros G. pose proof (g_size _ _ G). replace ((sb_size sb + BPB - 1) / BPB) with 1; [done|].
  apply (Z.div_unique_pos _ _ 1 (sb_size sb - 1)); klia.
Qed.

Lemma grows_alloc sb b u t : bm sb ∈ u -> grows u 1 t (alloc_trans sb b t).
Proof. intros Hu. apply (grows_trans u 0 1 _ (trans_add (bm sb) t)); [by apply grows_in|apply grows_out]. Qed.

(** [balloc] marks the first free block, whatever block that is, and goes on to
    clear it. *)
Lemma balloc_marks l sb b u k :
  bl_inv l -> fs_geometry (bl_view l) sb -> 1 <= bl_outstanding l -> budget l u (S k) -> bm sb ∈ u ->
  bl_unlocked l 1 -> bl_unlocked l (bm sb) -> first_free sb (bl_view l) b ->
  exists l', balloc ROOTDEV l = (bzero ROOTDEV b ;;; ret b) l' /\
    bl_eff l l' (upd_view (bm sb) (set_bit (bl_view l (bm sb)) b) (bl_view l)) (trans_add (bm sb) (bl_trans l)).
Proof.
  intros Hi G Ho Hk Hu U1 Um Hfree. pose proof (g_size _ _ G) as Hsz.
  destruct (readsb_Ok l sb u k) as (l1 & R1 & E1); [done..|].
  destruct (bread_rule l1 (bm sb) u k) as (i & l2 & R2 & O2 & B2).
  { apply E1. } { pose proof (bm_range _ _ G). lia. } { by eapply eff_unlocked. }
  { by eapply eff_budget_same. }
  set (d := bl_view l (bm sb)) in *.
  assert (Hd : bl_view l1 (bm sb) = d) by apply E1.
  assert (Hbit : balloc_bit d 0 (sb_size sb) (seqZ 0 BPB) = Some b) by (by apply first_free_bit).
  rewrite (ef_trans _ _ _ _ E1) in O2.
  destruct (log_rule _ _ _ _ _ _ (set_bit d b) u k O2) as (l3 & l4 & R3 & R4 & O4);
    [by apply wf_set_bit, bl_wf|by rewrite (ef_outstanding _ _ _ _ E1)|done|].
  destruct (brelse_rule _ _ _ _ _ _ O4) as (l5 & R5 & E5). exists l5. split.
  - unfold balloc. rewrite (bind_Ok _ _ _ _ _ R1), (balloc_blocks _ _ G). cbn [balloc_loop].
    rewrite (bm_block _ _ _ G) by klia. rewrite (bind_Ok _ _ _ _ _ R2).
    rewrite (bind_Ok _ _ _ _ _ (bdata_rule _ _ _ _ _ _ O2)). rewrite Hd, Hbit.
    by rewrite (bind_Ok _ _ _ _ _ R3), (bind_Ok _ _ _ _ _ R4), (bind_Ok _ _ _ _ _ R5), Z.add_0_l.
  - eapply eff_view; [eapply eff_trans; [exact E1|exact E5]|].
    intros x. unfold upd_view. case_decide; [done|]. apply E1.
Qed.

Lemma balloc_Ok l sb b u k :
  bl_inv l -> fs_geometry (bl_view l) sb -> 1 <= bl_outstanding l -> budget l u (S k) -> bm sb ∈ u ->
  bl_unlocked l 1 -> bl_unlocked l (bm sb) -> bl_unlocked l b ->
  first_free sb (bl_view l) b -> b < LOGSTART -> b <> bm sb ->
  exists l', balloc ROOTDEV l = Ok b l' /\
    bl_eff l l' (alloc_view sb b (bl_view l)) (alloc_trans sb b (bl_trans l)).
Proof.
  intros Hi G Ho Hk Hu U1 Um Ub Hfree HbL Hbm.
  destruct (balloc_marks l sb b u k) as (l5 & R5 & E5); [done..|].
  destruct (bzero_Ok l5 b u k) as (l6 & R6 & E6).
  { apply E5. } { destruct Hfree as (? & _). lia. } { by eapply eff_unlocked. }
  { eapply (eff_budget l l5 _ _ _ _ 0); [done|by rewrite Nat.add_0_r|by apply grows_in]. }
  { by rewrite (ef_outstanding _ _ _ _ E5). }
  exists l6. split; [by rewrite R5, (bind_Ok _ _ _ _ _ R6)|].
  eapply eff_view; [eapply eff_trans; [exact E5|]|].
  - rewrite (ef_trans _ _ _ _ E5) in E6. exact E6.
  - intros x. unfold alloc_view, upd_view. case_decide; [done|]. by rewrite (ef_view _ _ _ _ E5).
Qed.

Lemma balloc_full l sb u k :
  bl_inv l -> fs_geometry (bl_view l) sb -> budget l u (S k) ->
  bl_unlocked l 1 -> bl_unlocked l (bm sb) ->
  (forall x, 0 <= x < sb_size sb -> used (bl_view l (bm sb)) x = true) ->
  exists l', balloc ROOTDEV l = Stop (Panic "balloc: out of blocks") l'.
Proof.
  intros Hi G Hk U1 Um Hall. pose proof (g_size _ _ G) as Hsz.
  destruct (readsb_Ok l sb u k) as (l1 & R1 & E1); [done..|].
  destruct (bread_rule l1 (bm sb) u k) as (i & l2 & R2 & O2 & _).
  { apply E1. } { pose proof (bm_range _ _ G). lia. } { by eapply eff_unlocked. }
  { by eapply eff_budget_same. }
  destruct (brelse_rule _ _ _ _ _ _ O2) as (l3 & R3 & E3). exists l3.
  unfold balloc. rewrite (bind_Ok _ _ _ _ _ R1), (balloc_blocks _ _ G). cbn [balloc_loop].
  rewrite (bm_block _ _ _ G) by klia. rewrite (bind_Ok _ _ _ _ _ R2).
  rewrite (bind_Ok _ _ _ _ _ (bdata_rule _ _ _ _ _ _ O2)), (ef_view _ _ _ _ E1).
  destruct (balloc_bit_Ok (bl_view l (bm sb)) (sb_size sb) BPB 0) as [B1 _]; [klia..|].
  destruct (balloc_bit _ 0 (sb_size sb) (seqZ 0 BPB)) as [x|].
  - destruct (B1 x eq_refl) as (? & ? & Hx & _). rewrite Hall in Hx by lia. done.
  - by rewrite (bind_Ok _ _ _ _ _ R3).
Qed.

Lemma bfree_Ok l sb b u k :
  bl_inv l -> fs_geometry (bl_view l) sb -> 1 <= bl_outstanding l -> budget l u (S k) ->
  bl_unlocked l 1 -> bl_unlocked l (bm sb) -> 0 <= b < sb_size sb ->
  used (bl_view l (bm sb)) b = true ->
  exists l', bfree ROOTDEV b l = Ok tt l' /\
    bl_eff l l' (upd_view (bm sb) (clear_bit (bl_view l (bm sb)) b) (bl_view l))
           (trans_add (bm sb) (bl_trans l)).
Proof.
  intros Hi G Ho Hk U1 Um Hb Hused. pose proof (g_size _ _ G) as Hsz.
  destruct (readsb_Ok l sb u k) as (l1 & R1 & E1); [done..|].
  destruct (bread_rule l1 (bm sb) u k) as (i & l2 & R2 & O2 & B2).
  { apply E1. } { pose proof (bm_range _ _ G). lia. } { by eapply eff_unlocked. }
  { by eapply eff_budget_same. }
  rewrite (ef_trans _ _ _ _ E1) in O2.
  destruct (log_rule _ _ _ _ _ _ (clear_bit (bl_view l (bm sb)) b) u k O2) as (l3 & l4 & R3 & R4 & O4).
  { by apply wf_clear_bit, bl_wf. } { by rewrite (ef_outstanding _ _ _ _ E1). } { done. }
  destruct (brelse_rule _ _ _ _ _ _ O4) as (l5 & R5 & E5). exists l5. split.
  - unfold bfree. rewrite (bind_Ok _ _ _ _ _ R1), (bm_block _ _ _ G) by klia.
    rewrite (bind_Ok _ _ _ _ _ R2), (bind_Ok _ _ _ _ _ (bdata_rule _ _ _ _ _ _ O2)), (ef_view _ _ _ _ E1).
    assert (Hbit : (Z.land (get_byte (bl_view l (bm sb)) (Z.to_nat (b mod BPB / 8)))
                      (Z.shiftl 1 (b mod BPB mod 8)) =? 0) = false).
    { rewrite land_bit by (apply Z.mod_pos_bound; lia). change (negb (used (bl_view l (bm sb)) b) = false).
      by rewrite Hused. }
    rewrite Hbit, (Z.mod_small b BPB) by klia.
    by rewrite (bind_Ok _ _ _ _ _ R3), (bind_Ok _ _ _ _ _ R4).
  - eapply eff_view; [eapply eff_trans; [exact E1|exact E5]|].
    intros x. unfold upd_view. case_decide; [done|]. apply E1.
Qed.

Lemma used_alloc v sb b x :
  fs_geometry v sb -> wf_block (v (bm sb)) -> b <> bm sb -> 0 <= b < sb_size sb -> 0 <= x < sb_size sb ->
  used (alloc_view sb b v (bm sb)) x = if decide (x = b) then true else used (v (bm sb)) x.
Proof.
  intros G Hw Hne Hb Hx. pose proof (g_size _ _ G). unfold alloc_view.
  rewrite upd_view_ne, upd_view_eq by done. apply used_set; [done|klia|klia].
Qed.

Lemma alloc_other v sb b x : x <> b -> x <> bm sb -> alloc_view sb b v x = v x.
Proof. intros. unfold alloc_view. by rewrite !upd_view_ne. Qed.

Lemma alloc_self v sb b : alloc_view sb b v b = zero_block.
Proof. apply upd_view_eq. Qed.

(** C15: the block allocator, in a transaction with room for it, on a file system
    whose bitmap is one block that marks itself used, when the superblock, the
    bitmap and the free blocks are not locked.  If the lowest free block is in
    front of the log, [balloc] returns it; afterwards it reads as zeroes and is
    in use, the use of every other block and the contents of every block but it
    and the bitmap are unchanged, and the bitmap and the block are in the
    transaction.  If the lowest free block is in the log, which a bitmap of
    [mkfs] does not mark used, it is taken all the same: it is marked and then
    cleared.  When no block is free [balloc] panics. *)
Theorem balloc_spec l sb :
  bl_inv l -> fs_geometry (bl_view l) sb -> 1 <= bl_outstanding l -> budget l {[bm sb]} 1 ->
  bl_unlocked l 1 -> bl_unlocked l (bm sb) ->
  (forall x, used (bl_view l (bm sb)) x = false -> bl_unlocked l x) -> used (bl_view l (bm sb)) (bm sb) = true ->
  (exists b l', balloc ROOTDEV l = Ok b l' /\ first_free sb (bl_view l) b /\ b < LOGSTART /\
     bl_view l' b = zero_block /\
     (forall x, 0 <= x < sb_size sb ->
        used (bl_view l' (bm sb)) x = if decide (x = b) then true else used (bl_view l (bm sb)) x) /\
     (forall x, x <> b -> x <> bm sb -> bl_view l' x = bl_view l x) /\
     (forall x, x ∈ bl_trans l' <-> x = b \/ x = bm sb \/ x ∈ bl_trans l)) \/
  (exists b l', balloc ROOTDEV l = (bzero ROOTDEV b ;;; ret b) l' /\ first_free sb (bl_view l) b /\ LOGSTART <= b /\
     (forall x, 0 <= x < sb_size sb ->
        used (bl_view l' (bm sb)) x = if decide (x = b) then true else used (bl_view l (bm sb)) x) /\
     (forall x, x <> bm sb -> bl_view l' x = bl_view l x)) \/
  ((forall x, 0 <= x < sb_size sb -> used (bl_view l (bm sb)) x = true) /\
   exists l', balloc ROOTDEV l = Stop (Panic "balloc: out of blocks") l').
Proof.
  intros Hi G Ho Hk U1 Um Hu Hbm. pose proof (g_size _ _ G) as Hsz.
  destruct (balloc_bit_Ok (bl_view l (bm sb)) (sb_size sb) BPB 0) as [B1 B2]; [klia..|].
  destruct (balloc_bit _ 0 (sb_size sb) (seqZ 0 BPB)) as [b|].
  - destruct (B1 b eq_refl) as (Hb & Hbs & Hfree & Hlow).
    assert (Hff : first_free sb (bl_view l) b) by (split_and!; try done; lia).
    assert (Hne : b <> bm sb) by (intros ->; congruence). assert (Hw : wf_block (bl_view l (bm sb))) by (by apply bl_wf).
    destruct (Z.lt_ge_cases b LOGSTART) as [HbL|HbL]; [left|right; left].
    + destruct (balloc_Ok l sb b {[bm sb]} 0) as (l' & R & E); auto; [set_solver|]. exists b, l'.
      rewrite !(ef_view _ _ _ _ E). split_and!; try done.
      * apply alloc_self.
      * intros x Hx. apply used_alloc; auto; lia.
      * intros x Hx1 Hx2. rewrite (ef_view _ _ _ _ E). by apply alloc_other.
      * intros x. rewrite (ef_trans _ _ _ _ E). unfold alloc_trans. rewrite !trans_add_In. done.
    + destruct (balloc_marks l sb b {[bm sb]} 0) as (l' & R & E); auto; [set_solver|]. exists b, l'.
      rewrite !(ef_view _ _ _ _ E). split_and!; try done.
      * intros x Hx. rewrite <- (used_alloc (bl_view l)) by (done || lia). unfold alloc_view.
        by rewrite (upd_view_ne b) by done.
      * intros x Hx. rewrite (ef_view _ _ _ _ E). by rewrite upd_view_ne.
  - right; right. assert (Hall : forall x, 0 <= x < sb_size sb -> used (bl_view l (bm sb)) x = true).
    { intros x Hx. apply (B2 eq_refl); klia. }
    split; [done|]. by eapply balloc_full.
Qed.

(** Freeing undoes allocation: [bfree] of the block just allocated marks it
    free again and restores the use of every block. *)
Lemma bfree_after_balloc l sb b :
  bl_inv l -> fs_geometry (bl_view l) sb -> 1 <= bl_outstanding l -> budget l {[bm sb]} 2 ->
  (forall x, bl_unlocked l x) -> first_free sb (bl_view l) b -> b < LOGSTART -> b <> bm sb -> b <> 1 ->
  exists l1 l2, balloc ROOTDEV l = Ok b l1 /\ bfree ROOTDEV b l1 = Ok tt l2 /\
    forall x, 0 <= x < sb_size sb -> used (bl_view l2 (bm sb)) x = used (bl_view l (bm sb)) x.
Proof.
  intros Hi G Ho Hk Hu Hf HbL Hne H1. pose proof Hf as (Hb & Hfree & _). pose proof (g_size _ _ G).
  pose proof (bm_range _ _ G).
  destruct (balloc_Ok l sb b {[bm sb]} 1) as (l1 & R1 & E1); auto; [set_solver|].
  assert (Hw : wf_block (bl_view l (bm sb))) by (by apply bl_wf).
  assert (G1 : fs_geometry (bl_view l1) sb).
  { constructor; try apply G. rewrite (ef_view _ _ _ _ E1), alloc_other by lia. apply G. }
  destruct (bfree_Ok l1 sb b {[bm sb]} 0) as (l2 & R2 & E2).
  { apply E1. } { done. } { by rewrite (ef_outstanding _ _ _ _ E1). }
  { eapply (eff_budget l l1 _ _ _ 1 1); [done..|]. apply grows_alloc. set_solver. }
  { by eapply eff_unlocked. } { by eapply eff_unlocked. } { done. }
  { rewrite (ef_view _ _ _ _ E1), used_alloc by (done || lia). by rewrite decide_True. }
  exists l1, l2. split_and!; try done. intros x Hx.
  rewrite (ef_view _ _ _ _ E2), upd_view_eq, used_clear by (try klia; by apply bl_wf, E1).
  rewrite (ef_view _ _ _ _ E1), used_alloc by (done || lia). case_decide; [by subst|done].
Qed.
End BlockProofs.
