(* ===== verification/FsInode.v ===== *)
(** * FsInode: inodes and their contents (fs.c)

    The inode cache ([iget], [idup], [ilock], [iunlock], [iput]), the contents
    of a file ([bmap], [readi], [writei], [itrunc]), and what this file system
    adds to them: the checksum of the contents kept in every inode, verified
    when the inode is read, and the replica ("ditto") inodes that every write
    is copied to and that a corrupted inode is rescued from.

    The functions call one another: reading verifies, verifying reads, writing
    updates the inode, which writes its replicas.  The chain along replicas of
    replicas carries fuel; every other function is defined by the ones before
    it. *)

From S2P Require Import Prelude Layout Block FsBlock.
Open Scope Z_scope.
Open Scope xv6_scope.

(** [n] bytes of a buffer from [off] on. *)
Definition slice {S} (buf : list Z) (off n : Z) : M S (list Z) :=
  let r := sub_bytes (Z.to_nat off) (Z.to_nat n) buf in
  if Z.of_nat (length r) =? n then ret r else halt (Undefined "read past the end of a buffer").

(** The XOR of the words of a buffer, as [ichecksum] accumulates it. *)
Fixpoint xor_words (k : nat) (i : Z) (buf : list Z) (acc : Z) : Z :=
  match k with
  | O => acc
  | S k => xor_words k (i + 1) buf (Z.lxor acc (get_word buf i))
  end.

Section Inode.
Context {L : Type} `{BlockOps L}.

(** [devsw]: the device functions installed at boot, by major number.  Reading
    returns the result and the bytes stored. *)
Context (devsw_read : Z -> option (nat -> Z -> M (fsst L) (Z * list Z))).
Context (devsw_write : Z -> option (nat -> list Z -> Z -> M (fsst L) Z)).

(** ** The inode cache *)

(** The search of [iget]: the entry in use for [inum], and the first free entry. *)
Fixpoint iget_scan (dev inum : Z) (k : nat) (c : list inode) (empty : option nat)
  : option nat * option nat :=
  match c with
  | [] => (None, empty)
  | ip :: c =>
      if (0 <? i_ref ip) && (i_dev ip =? dev) && (i_inum ip =? inum) then (Some k, empty)
      else
        let empty := match empty with
                     | Some e => Some e
                     | None => if i_ref ip =? 0 then Some k else None
                     end in
        iget_scan dev inum (S k) c empty
  end.

Definition iget (dev inum : Z) : M (fsst L) nat :=
  let! c := gets icache in
  match iget_scan dev inum 0 c None with
  | (Some ip, _) => upd_inode ip (fun i => i_set_ref (i_ref i + 1) i) ;;; ret ip
  | (None, None) => panic "iget: no inodes"
  | (None, Some ip) =>
      upd_inode ip (fun i => Inode dev inum 1 0 (i_d i)) ;;; ret ip
  end.

Definition idup (ip : nat) : M (fsst L) nat :=
  upd_inode ip (fun i => i_set_ref (i_ref i + 1) i) ;;; ret ip.

(** The loop of [ialloc] over the inode numbers [is]. *)
Fixpoint ialloc_loop (dev type : Z) (inums : list Z) : M (fsst L) nat :=
  match inums with
  | [] => panic "ialloc: no inodes"
  | inum :: inums =>
      let! bp := in_low (bread dev (IBLOCK inum)) in
      let! d := in_low (bdata bp) in
      if di_type (get_dinode d inum) =? 0 then
        in_low (bset bp (put_dinode d inum (d_set_type type dinode_zero))) ;;;
        in_low (log_write bp) ;;;
        in_low (brelse bp) ;;;
        iget dev inum
      else
        in_low (brelse bp) ;;;
        ialloc_loop dev type inums
  end.

Definition ialloc (dev type : Z) : M (fsst L) nat :=
  let! sb := in_low (readsb dev) in
  ialloc_loop dev type (seqZ 1 (sb_ninodes sb - 1)).

(** [iunlock]; [wakeup(ip)] concerns other processes. *)
Definition iunlock (ip : nat) : M (fsst L) unit :=
  let! i := get_inode ip in
  if negb (i_flag I_BUSY i) || (i_ref i <? 1) then panic "iunlock"
  else upd_inode ip (fun i => i_set_flags (Z.ldiff (i_flags i) I_BUSY) i).

(** ** Contents *)

(** The entry [bn] of the indirect block [addr], allocated if necessary. *)
Definition bmap_entry (dev addr bn : Z) : M (fsst L) Z :=
  let! bp := in_low (bread dev addr) in
  let! a := in_low (bdata bp) in
  let! addr :=
    (if get_word a bn =? 0 then
       let! addr := in_low (balloc dev) in
       let! a := in_low (bdata bp) in
       in_low (bset bp (put_word a bn addr)) ;;;
       in_low (log_write bp) ;;;
       ret addr
     else ret (get_word a bn)) in
  in_low (brelse bp) ;;;
  ret addr.

Definition bmap (ip : nat) (bn : Z) : M (fsst L) Z :=
  let! i := get_inode ip in
  if bn <? NDIRECT then
    let! addr := of_option (Undefined "addrs") (i_addrs i !! Z.to_nat bn) in
    if addr =? 0 then
      let! addr := in_low (balloc (i_dev i)) in
      upd_inode ip (i_upd_d (d_set_addr (Z.to_nat bn) addr)) ;;;
      ret addr
    else ret addr
  else
    let bn := bn - NDIRECT in
    if bn <? NINDIRECT then
      let! addr := of_option (Undefined "addrs") (i_addrs i !! Z.to_nat NDIRECT) in
      let! addr :=
        (if addr =? 0 then
           let! addr := in_low (balloc (i_dev i)) in
           upd_inode ip (i_upd_d (d_set_addr (Z.to_nat NDIRECT) addr)) ;;;
           ret addr
         else ret addr) in
      bmap_entry (i_dev i) addr bn
    else panic "bmap: out of range".

(** The turns of the loops of [readi] and [writei]: every turn after the first
    starts a block, and [bmap] stops at block [MAXFILE], so this many are
    always enough. *)
Definition RWFUEL : nat := Z.to_nat (MAXFILE + 2).

Fixpoint readi_loop (fuel : nat) (ip : nat) (tot off n : Z) : M (fsst L) (list Z) :=
  if n <=? tot then ret [] else
  match fuel with
  | O => halt OutOfFuel
  | S fuel =>
      let! i := get_inode ip in
      let! addr := bmap ip (off / BSIZE) in
      let! bp := in_low (bread (i_dev i) addr) in
      let m := Z.min (n - tot) (BSIZE - off mod BSIZE) in
      let! d := in_low (bdata bp) in
      let! bytes := slice d (off mod BSIZE) m in
      in_low (brelse bp) ;;;
      let! rest := readi_loop fuel ip (u32 (tot + m)) (u32 (off + m)) n in
      ret (bytes ++ rest)
  end.

(** [readi]: the result and the bytes stored at [dst]. *)
Definition readi (ip : nat) (off n : Z) : M (fsst L) (Z * list Z) :=
  let! i := get_inode ip in
  if i_type i =? T_DEV then
    match (if (i_major i <? 0) || (NDEV <=? i_major i) then None else devsw_read (i_major i)) with
    | None => ret (-1, [])
    | Some f => f ip (i32 n)
    end
  else if (i_size i <? off) || (u32 (off + n) <? off) then ret (-1, [])
  else
    let n := if i_size i <? u32 (off + n) then i_size i - off else n in
    let! bytes := readi_loop RWFUEL ip 0 off n in
    ret (i32 n, bytes).

(** [ichecksum]: the words of the contents, 512 at a time, the last batch padded
    with zeroes.  A turn reads four blocks, and [bmap] stops at [MAXFILE]. *)
Definition CKFUEL : nat := Z.to_nat (MAXFILE / 4 + 3).

Fixpoint ichecksum_loop (fuel : nat) (ip : nat) (off checksum : Z) : M (fsst L) Z :=
  match fuel with
  | O => halt OutOfFuel
  | S fuel =>
      let! rb := readi ip off 2048 in
      let r := u32 (fst rb) in
      if 0 <? r then
        let buf := snd rb ++ replicate (2048 - length (snd rb)) 0 in
        ichecksum_loop fuel ip (u32 (off + r)) (xor_words 512 0 buf checksum)
      else ret checksum
  end.

Definition ichecksum (ip : nat) : M (fsst L) Z :=
  let! i := get_inode ip in
  if i_type i =? T_DEV then ret 0 else ichecksum_loop CKFUEL ip 0 0.

(** ** Locking, with verification of the checksum *)

(** [i_verify:] of [ilock_ext]: compare the contents with the checksum; failing
    that, look for a replica with the right contents, first [child1], then
    [child2] ([replicas] are those still to be tried).  [None] is success;
    otherwise the value to return, the inode being unlocked again. *)
Fixpoint i_verify (ilock : nat -> M (fsst L) Z) (ip : nat) (replicas : list (inode -> Z))
  : M (fsst L) (option Z) :=
  let! c := ichecksum ip in
  let! i := get_inode ip in
  if c =? i_checksum i then ret None else
  match replicas with
  | [] => iunlock ip ;;; ret (Some E_CORRUPTED)
  | child :: replicas =>
      let rinum := u16 (child i) in
      if rinum =? 0 then iunlock ip ;;; ret (Some E_CORRUPTED) else
      let! rinode := iget (i_dev i) rinum in
      let! rc := ichecksum rinode in
      if negb (i_checksum i =? rc) then i_verify ilock ip replicas else
      let! r := ilock rinode in
      if r =? 0 then
        iunlock rinode ;;;
        iunlock ip ;;;
        ret (Some rinum)
      else i_verify ilock ip replicas
  end.

(** Locking follows replicas of replicas; each inode on the way is locked, and
    there are [NINODE] of them. *)
Definition LOCKFUEL : nat := Z.to_nat (NINODE + 1).

Fixpoint ilock_ext_fuel (fuel : nat) (ip : nat) (checksum : Z) : M (fsst L) Z :=
  let! i := get_inode ip in
  if i_ref i <? 1 then panic "ilock" else
  if i_flag I_BUSY i then halt (Sleep (ChInode ip)) else
  upd_inode ip (fun i => i_set_flags (Z.lor (i_flags i) I_BUSY) i) ;;;
  if i_flag I_VALID i then ret 0 else
  let! bp := in_low (bread (i_dev i) (IBLOCK (i_inum i))) in
  let! d := in_low (bdata bp) in
  upd_inode ip (i_set_d (get_dinode d (i_inum i))) ;;;
  in_low (brelse bp) ;;;
  let! r :=
    (if checksum =? 0 then ret None
     else i_verify (fun r => match fuel with
                             | O => halt OutOfFuel
                             | S fuel => ilock_ext_fuel fuel r 1
                             end) ip [i_child1; i_child2]) in
  match r with
  | Some r => ret r
  | None =>
      upd_inode ip (fun i => i_set_flags (Z.lor (i_flags i) I_VALID) i) ;;;
      let! i := get_inode ip in
      if i_type i =? 0 then panic "ilock: none type" else ret 0
  end.

Definition ilock_ext (ip : nat) (checksum : Z) : M (fsst L) Z := ilock_ext_fuel LOCKFUEL ip checksum.
Definition ilock (ip : nat) : M (fsst L) Z := ilock_ext ip 1.

(** ** Updating inodes and their replicas *)

Definition cupdate (ip ic : nat) : M (fsst L) unit :=
  ilock_ext ic 0 ;;;
  let! c := get_inode ic in
  if negb (i_type c =? T_DITTO) then panic "trying to update a non-ditto block child" else
  let! bp := in_low (bread (i_dev c) (IBLOCK (i_inum c))) in
  let! p := get_inode ip in
  upd_inode ic (i_upd_d (d_set_size (i_size p))) ;;;
  upd_inode ic (i_upd_d (d_set_checksum (i_checksum p))) ;;;
  let! c := get_inode ic in
  let! d := in_low (bdata bp) in
  in_low (bset bp (put_dinode d (i_inum c) (d_set_nlink 1 (i_d c)))) ;;;
  in_low (log_write bp) ;;;
  in_low (brelse bp) ;;;
  iunlock ic.

Definition iupdate_ext (ip : nat) (skip : Z) : M (fsst L) unit :=
  let! i := get_inode ip in
  let! bp := in_low (bread (i_dev i) (IBLOCK (i_inum i))) in
  let! c := ichecksum ip in
  upd_inode ip (i_upd_d (d_set_checksum c)) ;;;
  let! i := get_inode ip in
  let! d := in_low (bdata bp) in
  in_low (bset bp (put_dinode d (i_inum i) (i_d i))) ;;;
  in_low (log_write bp) ;;;
  in_low (brelse bp) ;;;
  if skip =? 0 then
    (if negb (i_child1 i =? 0)
     then let! ic := iget (i_dev i) (u32 (i_child1 i)) in cupdate ip ic else ret tt) ;;;
    let! i := get_inode ip in
    (if negb (i_child2 i =? 0)
     then let! ic := iget (i_dev i) (u32 (i_child2 i)) in cupdate ip ic else ret tt)
  else ret tt.

Definition iupdate (ip : nat) : M (fsst L) unit := iupdate_ext ip 0.

(** ** Writing *)

Fixpoint writei_loop (fuel : nat) (ip : nat) (src : list Z) (tot off n : Z) : M (fsst L) Z :=
  if n <=? tot then ret off else
  match fuel with
  | O => halt OutOfFuel
  | S fuel =>
      let! i := get_inode ip in
      let! addr := bmap ip (off / BSIZE) in
      let! bp := in_low (bread (i_dev i) addr) in
      let m := Z.min (n - tot) (BSIZE - off mod BSIZE) in
      let! bytes := slice src tot m in
      let! d := in_low (bdata bp) in
      in_low (bset bp (splice (Z.to_nat (off mod BSIZE)) bytes d)) ;;;
      in_low (log_write bp) ;;;
      in_low (brelse bp) ;;;
      writei_loop fuel ip src (u32 (tot + m)) (u32 (off + m)) n
  end.

(** The write of one replica, by the [writei] given. *)
Definition write_child (writei : nat -> M (fsst L) Z) (dev child : Z) : M (fsst L) unit :=
  if child =? 0 then ret tt else
  let! ic := iget dev (u32 child) in
  ilock_ext ic 0 ;;;
  writei ic ;;;
  iunlock ic.

(** Replicas of replicas again; each of them is locked in turn. *)
Fixpoint writei_ext_fuel (fuel : nat) (ip : nat) (src : list Z) (off n skip : Z) : M (fsst L) Z :=
  let! i := get_inode ip in
  if i_type i =? T_DEV then
    match (if (i_major i <? 0) || (NDEV <=? i_major i) then None else devsw_write (i_major i)) with
    | None => ret (-1)
    | Some f => f ip src (i32 n)
    end
  else if (i_size i <? off) || (u32 (off + n) <? off) then ret (-1)
  else if MAXFILE * BSIZE <? u32 (off + n) then ret (-1)
  else
    let! off' := writei_loop RWFUEL ip src 0 off n in
    (if skip =? 0 then
       let writei := fun ic => match fuel with
                               | O => halt OutOfFuel
                               | S fuel => writei_ext_fuel fuel ic src off n 0
                               end in
       let! i := get_inode ip in
       write_child writei (i_dev i) (i_child1 i) ;;;
       let! i := get_inode ip in
       write_child writei (i_dev i) (i_child2 i)
     else ret tt) ;;;
    let! i := get_inode ip in
    if i_type i =? T_DITTO then ret (i32 n) else
    (if (0 <? n) && (i_size i <? off') then upd_inode ip (i_upd_d (d_set_size off')) else ret tt) ;;;
    let! i := get_inode ip in
    (if negb (i_type i =? T_DEV) then iupdate_ext ip skip else ret tt) ;;;
    ret (i32 n).

Definition writei_ext (ip : nat) (src : list Z) (off n skip : Z) : M (fsst L) Z :=
  writei_ext_fuel LOCKFUEL ip src off n skip.
Definition writei (ip : nat) (src : list Z) (off n : Z) : M (fsst L) Z := writei_ext ip src off n 0.

(** ** Truncation and release *)

(** One turn of the first loop of [itrunc]. *)
Definition itrunc_direct (ip : nat) (k : nat) : M (fsst L) unit :=
  let! i := get_inode ip in
  let! a := of_option (Undefined "addrs") (i_addrs i !! k) in
  if a =? 0 then ret tt else
  in_low (bfree (i_dev i) a) ;;;
  upd_inode ip (i_upd_d (d_set_addr k 0)).

(** One turn of the second loop, over the indirect block in [bp]. *)
Definition itrunc_indirect (dev : Z) (bp : nat) (j : Z) : M (fsst L) unit :=
  let! a := in_low (bdata bp) in
  if get_word a j =? 0 then ret tt else in_low (bfree dev (get_word a j)).

Definition itrunc (ip : nat) : M (fsst L) unit :=
  for_each (seq 0 (Z.to_nat NDIRECT)) (itrunc_direct ip) ;;;
  let! i := get_inode ip in
  let! a := of_option (Undefined "addrs") (i_addrs i !! Z.to_nat NDIRECT) in
  (if a =? 0 then ret tt else
     let! bp := in_low (bread (i_dev i) a) in
     for_each (seqZ 0 NINDIRECT) (itrunc_indirect (i_dev i) bp) ;;;
     in_low (brelse bp) ;;;
     in_low (bfree (i_dev i) a) ;;;
     upd_inode ip (i_upd_d (d_set_addr (Z.to_nat NDIRECT) 0))) ;;;
  upd_inode ip (i_upd_d (d_set_size 0)) ;;;
  iupdate ip.

Definition iput (ip : nat) : M (fsst L) unit :=
  let! i := get_inode ip in
  (if (i_ref i =? 1) && i_flag I_VALID i && (i_nlink i =? 0) then
     if i_flag I_BUSY i then panic "iput busy" else
     upd_inode ip (fun i => i_set_flags (Z.lor (i_flags i) I_BUSY) i) ;;;
     itrunc ip ;;;
     upd_inode ip (i_upd_d (d_set_type 0)) ;;;
     iupdate ip ;;;
     upd_inode ip (i_set_flags 0)
   else ret tt) ;;;
  upd_inode ip (fun i => i_set_ref (i_ref i - 1) i).

Definition iunlockput (ip : nat) : M (fsst L) unit := iunlock ip ;;; iput ip.

(** ** Rescue from a replica *)

(** The loop of [iduplicate].  The offset advances by what was read; a turn that
    reads past the end of [src] steps back by one ([readi] returns -1), so the
    loop ends within this fuel. *)
Fixpoint iduplicate_loop (fuel : nat) (src dst : nat) (off coff tot : Z) : M (fsst L) unit :=
  match fuel with
  | O => halt OutOfFuel
  | S fuel =>
      let! rb := readi src off 512 in
      let r := u32 (fst rb) in
      if (0 <? r) && (off <? u32 (tot + coff)) then
        let buf := snd rb ++ replicate (512 - length (snd rb)) 0 in
        writei_ext dst buf off r 1 ;;;
        iduplicate_loop fuel src dst (u32 (off + r)) coff tot
      else ret tt
  end.

Definition iduplicate (src dst : nat) (off tot : Z) : M (fsst L) unit :=
  let! s := get_inode src in
  upd_inode dst (i_upd_d (d_set_checksum (i_checksum s))) ;;;
  upd_inode dst (i_upd_d (d_set_size (i_size s))) ;;;
  iduplicate_loop (Z.to_nat (tot + off + 2)) src dst off off tot.

(** The bytes copied in one transaction. *)
Definition RESCUE_MAX : Z := ((LOGSIZE - 1 - 1 - 2) / 4) * 512.

(** One turn of the loop of [irescue], at [i = off]. *)
Definition irescue_step (ip rinode : nat) (n off : Z) : M (fsst L) unit :=
  let n1 := Z.min (n - off) RESCUE_MAX in
  in_low begin_op ;;;
  iduplicate rinode ip off n1 ;;;
  in_low end_op.

Definition irescue (ip rinode : nat) : M (fsst L) unit :=
  ilock_ext rinode 0 ;;;
  ilock_ext ip 0 ;;;
  let! i := get_inode ip in
  let n := i32 (i_size i) in
  for_each ((fun k => k * RESCUE_MAX) <$> seqZ 0 ((n + RESCUE_MAX - 1) / RESCUE_MAX))
           (irescue_step ip rinode n) ;;;
  iunlock rinode ;;;
  iunlock ip.

Definition ilock_trans (ip : nat) : M (fsst L) Z :=
  let! r := ilock ip in
  if r =? 0 then ret 0 else
  if r =? E_CORRUPTED then ret E_CORRUPTED else
  (if 0 <? r then
     let! i := get_inode ip in
     let! ic := iget (i_dev i) r in
     irescue ip ic
   else ret tt) ;;;
  let! r := ilock ip in
  if r =? 0 then ret 0 else panic "ilock_trans attempted to recover but still failed".

(** [stati]: the fields of [struct stat]. *)
Record stat := Stat {
  st_type : Z; st_dev : Z; st_ino : Z; st_nlink : Z; st_size : Z;
  st_child1 : Z; st_child2 : Z; st_checksum : Z
}.

Definition stati (ip : nat) : M (fsst L) stat :=
  let! i := get_inode ip in
  ret (Stat (i_type i) (i32 (i_dev i)) (i_inum i) (i_nlink i) (i_size i)
            (i_child1 i) (i_child2 i) (i_checksum i)).
End Inode.
