(* ===== verification/FsDir.v ===== *)
(** * FsDir: directories and path names (fs.c)

    [dirlookup] and [dirlink] on the contents of a directory, [skipelem] and
    the walk [namex] of a path, from the root or from the current directory.
    The theorems characterise [skipelem] by a reference splitting of paths and
    show that the walk ends; those on the entries of directories are in Dirs. *)

From S2P Require Import Prelude Layout CString Block FsBlock FsInode.
Open Scope Z_scope.
Open Scope xv6_scope.

(** ** Path elements *)

Definition SLASH : Z := 47.

(** [while (star path == '/') path++]. *)
Fixpoint skip_slashes (path : list Z) : option (list Z) :=
  match path with
  | [] => None
  | c :: rest => if c =? SLASH then skip_slashes rest else Some path
  end.

(** [while (star path != '/' && star path != 0) path++]: the bytes passed over, and the
    rest. *)
Fixpoint take_elem (path : list Z) : option (list Z * list Z) :=
  match path with
  | [] => None
  | c :: rest =>
      if (c =? SLASH) || (c =? 0) then Some ([], path)
      else '(e, r) ← take_elem rest; Some (c :: e, r)
  end.

(** What [memmove(name, s, ...)] and [name[len] = 0] leave in [name]. *)
Definition store_name (e name : list Z) : list Z :=
  if (Z.to_nat DIRSIZ <=? length e)%nat
  then splice 0 (take (Z.to_nat DIRSIZ) e) name
  else <[length e := 0]> (splice 0 e name).

(** [skipelem]: [None] reads past the end of the path; [Some None] is the null
    pointer; otherwise the rest of the path and the new contents of [name]. *)
Definition skipelem (path name : list Z) : option (option (list Z * list Z)) :=
  path ← skip_slashes path;
  if bool_decide (head path = Some 0) then Some None else
  '(e, path) ← take_elem path;
  path ← skip_slashes path;
  Some (Some (path, store_name e name)).

(** The reference: a path is split at the slashes, and empty elements do not
    count. *)
Fixpoint split (p : list Z) : list (list Z) :=
  match p with
  | [] => [[]]
  | c :: p =>
      if c =? SLASH then [] :: split p
      else match split p with e :: es => (c :: e) :: es | [] => [[c]] end
  end.
Definition elements (p : list Z) : list (list Z) := filter (fun e => e <> []) (split p).

Lemma elements_slash p : elements (SLASH :: p) = elements p.
Proof. done. Qed.

Lemma split_app e r : SLASH ∉ e ->
  split (e ++ r) = match split r with f :: fs => (e ++ f) :: fs | [] => [e] end.
Proof.
  induction e as [|c e IH]; intros He; cbn [app split].
  - destruct (split r) eqn:E; [|done]. destruct r as [|c r]; [done|]. cbn in E.
    destruct (c =? SLASH); [done|]. by destruct (split r).
  - rewrite (proj2 (Z.eqb_neq c SLASH)) by set_solver. rewrite IH by set_solver. by destruct (split r).
Qed.

Lemma elements_app e r : SLASH ∉ e -> e <> [] -> head r = None \/ head r = Some SLASH ->
  elements (e ++ r) = e :: elements r.
Proof.
  intros He Hn Hr. unfold elements. rewrite split_app by done.
  assert (exists fs, split r = [] :: fs) as [fs ->].
  { destruct r as [|c r]; [by exists []|]. destruct Hr as [Hr|[= ->]]; [done|]. by exists (split r). }
  rewrite app_nil_r, !filter_cons. rewrite decide_True by done. by rewrite decide_False by auto.
Qed.

Lemma skip_slashes_spec p : 0 ∉ p ->
  exists q, skip_slashes (p ++ [0]) = Some (q ++ [0]) /\ elements q = elements p /\ head q <> Some SLASH /\
    (0 ∉ q) /\ (length q <= length p)%nat.
Proof.
  induction p as [|c p IH]; intros H0; cbn [app skip_slashes]; [by exists []|].
  destruct (Z.eqb_spec c SLASH) as [->|Hc].
  - destruct IH as (q & ? & Hq & ? & ? & ?); [set_solver|]. exists q. rewrite elements_slash. cbn. split_and!; try done. lia.
  - exists (c :: p). split_and!; try done. by intros [= ->].
Qed.

Lemma take_elem_spec q : 0 ∉ q ->
  exists e r, take_elem (q ++ [0]) = Some (e, r ++ [0]) /\ q = e ++ r /\ (SLASH ∉ e) /\
    (head r = None \/ head r = Some SLASH).
Proof.
  induction q as [|c q IH]; intros H0; cbn [app take_elem].
  - exists [], []. split_and!; try done; [set_solver|by left].
  - destruct (Z.eqb_spec c SLASH) as [->|Hc]; cbn [orb].
    + exists [], (SLASH :: q). split_and!; try done; [set_solver|by right].
    + rewrite (proj2 (Z.eqb_neq c 0)) by set_solver. destruct IH as (e & r & -> & -> & He & Hr); [set_solver|].
      exists (c :: e), r. split_and!; try done. set_solver.
Qed.

Lemma field_take n (l : list Z) : 0 ∉ l -> field n l = take n l.
Proof.
  revert l. induction n; intros [|c l] Hl; cbn; try done.
  rewrite (proj2 (Z.eqb_neq c 0)) by set_solver. f_equal. apply IHn. set_solver.
Qed.

Lemma field_app_zeros_mid n (e rest : list Z) : 0 ∉ e -> (length e < n)%nat -> field n (e ++ 0 :: rest) = e.
Proof.
  revert n. induction e as [|c e IH]; intros n He Hl; destruct n; cbn in *; try lia; [done|].
  rewrite (proj2 (Z.eqb_neq c 0)) by set_solver. f_equal. apply IH; [set_solver|lia].
Qed.

Lemma store_name_spec e name : 0 ∉ e -> length name = Z.to_nat DIRSIZ ->
  field (Z.to_nat DIRSIZ) (store_name e name) = take (Z.to_nat DIRSIZ) e /\
  length (store_name e name) = Z.to_nat DIRSIZ.
Proof.
  intros He Hn. unfold store_name. set (n := Z.to_nat DIRSIZ) in *.
  destruct (Nat.leb_spec n (length e)) as [Hl|Hl].
  - assert (Ht : length (take n e) = n) by (rewrite length_take; lia).
    unfold splice. rewrite Ht. cbn [take app Nat.add]. rewrite drop_ge by lia. rewrite app_nil_r. split; [|done].
    rewrite field_take; [apply take_ge; lia|]. intros Hin. apply He. by apply (subseteq_take n e).
  - change (splice 0 e name) with (e ++ drop (length e) name).
    split; [|rewrite length_insert, length_app, length_drop; lia]. destruct (drop (length e) name) as [|x rest] eqn:E.
    { apply (f_equal length) in E. rewrite length_drop in E. cbn in E. lia. }
    rewrite insert_app_r_alt, Nat.sub_diag by lia. cbn [insert list_insert].
    rewrite (field_app_zeros_mid n e rest) by (done || lia). rewrite take_ge by lia. done.
Qed.

Lemma skipelem_Ok p name : 0 ∉ p -> length name = Z.to_nat DIRSIZ ->
  match elements p with
  | [] => skipelem (p ++ [0]) name = Some None
  | e :: es => exists p' name', skipelem (p ++ [0]) name = Some (Some (p' ++ [0], name')) /\
      elements p' = es /\ field (Z.to_nat DIRSIZ) name' = take (Z.to_nat DIRSIZ) e /\
      (head (p' ++ [0]) = Some 0 <-> es = []) /\ (0 ∉ p') /\ (length p' < length p)%nat /\
      length name' = Z.to_nat DIRSIZ
  end.
Proof.
  intros Hp Hn. destruct (skip_slashes_spec p Hp) as (q & S1 & <- & Hh & Hq & Hl). unfold skipelem. rewrite S1. cbn [mbind option_bind].
  destruct (take_elem_spec q Hq) as (e & r & T1 & -> & He & Hr).
  destruct e as [|c e].
  { destruct r as [|c r]; [done|]. destruct Hr as [Hr|Hr]; done. }
  rewrite elements_app by done. cbn [app head]. rewrite bool_decide_eq_false_2 by (intros [= ->]; set_solver).
  change ((c :: e) ++ r ++ [0]) with (((c :: e) ++ r) ++ [0]) in *.
  change (c :: (e ++ r) ++ [0]) with (((c :: e) ++ r) ++ [0]). rewrite T1. cbn [mbind option_bind].
  destruct (skip_slashes_spec r) as (p' & S2 & Hp' & Hh' & H0' & Hl'); [set_solver|]. rewrite S2. cbn [mbind option_bind].
  destruct (store_name_spec (c :: e) name) as [F1 F2]; [set_solver|done|].
  exists p', (store_name (c :: e) name). split_and!; try done.
  - rewrite <- Hp'. destruct p' as [|x p']; [done|]. split.
    + cbn. intros [= ->]. set_solver.
    + intros Hx. exfalso. destruct (take_elem_spec (x :: p') H0') as (e' & r' & _ & E & He' & Hr'). destruct e' as [|y e'].
      * cbn in E. subst r'. destruct Hr' as [|[= ->]]; done.
      * rewrite E in Hx. by rewrite elements_app in Hx.
  - cbn [length app] in Hl |- *. rewrite length_app in Hl. lia.
Qed.

(** [skipelem] splits paths.  On a string [p], with any number of slashes
    anywhere, it reports the end exactly when no element is left, and otherwise
    stores the first element, cut to [DIRSIZ] bytes, and leaves a shorter path
    with the elements after it, at its end exactly when there are none. *)
Lemma skipelem_splits p name : 0 ∉ p -> length name = Z.to_nat DIRSIZ ->
  match elements p with
  | [] => skipelem (p ++ [0]) name = Some None
  | e :: es => exists p' name', skipelem (p ++ [0]) name = Some (Some (p' ++ [0], name')) /\
      elements p' = es /\ field (Z.to_nat DIRSIZ) name' = take (Z.to_nat DIRSIZ) e /\
      (head (p' ++ [0]) = Some 0 <-> es = []) /\ (0 ∉ p') /\ (length p' < length p)%nat /\
      length name' = Z.to_nat DIRSIZ
  end.
Proof.
  intros Hp Hn. apply (skipelem_Ok p name Hp Hn).
Qed.

Lemma skipelem_splits_witness :
  exists p' name', skipelem [47; 47; 97; 47; 98; 47; 0] (replicate 14 7) = Some (Some (p' ++ [0], name')) /\
    elements p' = [[98]] /\ field 14 name' = [97].
Proof.
  destruct (skipelem_splits [47; 47; 97; 47; 98; 47] (replicate 14 7)) as (p' & name' & H1 & H2 & H3 & _).
  - intros H. repeat (apply elem_of_cons in H as [H|H]; [discriminate|]). by apply not_elem_of_nil in H.
  - reflexivity.
  - exists p', name'. split_and!; [exact H1|exact H2|exact H3].
Defined.

Section Dir.
Context {L : Type} `{BlockOps L}.
Context (devsw_read : Z -> option (nat -> Z -> M (fsst L) (Z * list Z))).
Context (devsw_write : Z -> option (nat -> list Z -> Z -> M (fsst L) Z)).
Local Abbreviation readi := (readi devsw_read).
Local Abbreviation writei := (writei devsw_read devsw_write).
Local Abbreviation iput := (iput devsw_read).
Local Abbreviation iunlockput := (iunlockput devsw_read).
Local Abbreviation ilock := (ilock devsw_read).
Local Abbreviation ilock_trans := (ilock_trans devsw_read devsw_write).

(** ** Directories *)

Definition namecmp (s t : list Z) : M (fsst L) Z :=
  of_option (Undefined "namecmp") (strncmp s t (Z.to_nat DIRSIZ)).

(** The byte offsets of the entries of a directory of [size] bytes. *)
Definition dir_offs (size : Z) : list Z :=
  (fun k => k * dirent_size) <$> seqZ 0 ((size + dirent_size - 1) / dirent_size).

(** [readi] of one entry. *)
Definition read_dirent (msg : string) (dp : nat) (off : Z) : M (fsst L) dirent :=
  let! rb := readi dp off dirent_size in
  if negb (fst rb =? dirent_size) then panic msg else ret (dec_dirent (snd rb)).

Fixpoint dirlookup_loop (dp : nat) (name : list Z) (offs : list Z) : M (fsst L) (option (nat * Z)) :=
  match offs with
  | [] => ret None
  | off :: offs =>
      let! de := read_dirent "dirlookup read" dp off in
      if de_inum de =? 0 then dirlookup_loop dp name offs else
      let! c := namecmp name (de_name de) in
      if c =? 0 then
        let! d := get_inode dp in
        let! ip := iget (i_dev d) (de_inum de) in
        ret (Some (ip, off))
      else dirlookup_loop dp name offs
  end.

(** [dirlookup]: the inode found and the offset stored at [poff]. *)
Definition dirlookup (dp : nat) (name : list Z) : M (fsst L) (option (nat * Z)) :=
  let! d := get_inode dp in
  if negb (i_type d =? T_DIR) then panic "dirlookup not DIR" else
  dirlookup_loop dp name (dir_offs (i_size d)).

(** The search of [dirlink] for an empty entry; [end_] is where the loop ends. *)
Fixpoint dirlink_scan (dp : nat) (end_ : Z) (offs : list Z) : M (fsst L) Z :=
  match offs with
  | [] => ret end_
  | off :: offs =>
      let! de := read_dirent "dirlink read" dp off in
      if de_inum de =? 0 then ret off else dirlink_scan dp end_ offs
  end.

Definition dirlink (dp : nat) (name : list Z) (inum : Z) : M (fsst L) Z :=
  let! r := dirlookup dp name in
  match r with
  | Some (ip, _) => iput ip ;;; ret (-1)
  | None =>
      let! d := get_inode dp in
      let! off := dirlink_scan dp ((i_size d + dirent_size - 1) / dirent_size * dirent_size)
                    (dir_offs (i_size d)) in
      let! nm := of_option (Undefined "strncpy")
                   (strncpy (replicate (Z.to_nat DIRSIZ) 0) name (Z.to_nat DIRSIZ)) in
      let! r := writei dp (enc_dirent (Dirent (u16 inum) nm)) off dirent_size in
      if negb (r =? dirent_size) then panic "dirlink" else ret 0
  end.

(** ** Paths *)

(** The loop of [namex], with the rest of the path; each turn consumes a byte of
    it. *)
Fixpoint namex_loop (fuel : nat) (ip : nat) (path : list Z) (nameiparent : bool) (name : list Z)
    (trans : bool) : M (fsst L) (option nat * list Z) :=
  let! r := of_option (Undefined "skipelem") (skipelem path name) in
  match r with
  | None =>
      if nameiparent then iput ip ;;; ret (None, name) else ret (Some ip, name)
  | Some (path, name) =>
      match fuel with
      | O => halt OutOfFuel
      | S fuel =>
          let! r := (if trans then ilock_trans ip else ilock ip) in
          if negb (r =? 0) then ret (None, name) else
          let! i := get_inode ip in
          if negb (i_type i =? T_DIR) then iunlockput ip ;;; ret (None, name) else
          if nameiparent && bool_decide (head path = Some 0)
          then iunlock ip ;;; ret (Some ip, name) else
          let! next := dirlookup ip name in
          match next with
          | None => iunlockput ip ;;; ret (None, name)
          | Some (next, _) => iunlockput ip ;;; namex_loop fuel next path nameiparent name trans
          end
      end
  end.

Definition namex (path : list Z) (nameiparent : bool) (name : list Z) (trans : bool)
  : M (fsst L) (option nat * list Z) :=
  let! ip := (if bool_decide (head path = Some SLASH) then iget ROOTDEV ROOTINO
              else let! c := gets cwd in idup c) in
  namex_loop (length path) ip path nameiparent name trans.

(** [char name[DIRSIZ]] on the stack. *)
Definition name_buf : list Z := replicate (Z.to_nat DIRSIZ) 0.

Definition namei_ext (path : list Z) (trans : bool) : M (fsst L) (option nat) :=
  let! r := namex path false name_buf trans in ret (fst r).
Definition namei (path : list Z) : M (fsst L) (option nat) := namei_ext path false.
Definition namei_trans (path : list Z) : M (fsst L) (option nat) := namei_ext path true.
Definition nameiparent_ext (path name : list Z) (trans : bool) : M (fsst L) (option nat * list Z) :=
  namex path true name trans.
Definition nameiparent (path name : list Z) : M (fsst L) (option nat * list Z) :=
  nameiparent_ext path name false.
Definition nameiparent_trans (path name : list Z) : M (fsst L) (option nat * list Z) :=
  nameiparent_ext path name true.

(** [dist2root].  [count] is never initialised: it is the argument [count0].  The
    walk up ends at the root, which is its own parent; a cycle of other
    directories would never end, and uses up the fuel here. *)
Fixpoint dist2root_loop (fuel : nat) (dp : nat) (count : Z) : M (fsst L) Z :=
  let! r := dirlookup dp [46; 46; 0] in
  match r with
  | None => ret count
  | Some (ip, _) =>
      match fuel with
      | O => halt OutOfFuel
      | S fuel =>
          let! d := get_inode dp in
          iunlockput ip ;;;
          ilock_trans ip ;;;
          let! i := get_inode ip in
          if i_inum d =? i_inum i then iunlockput ip ;;; ret count
          else dist2root_loop fuel ip (i32 (count + 1))
      end
  end.

Definition dist2root (fuel : nat) (count0 : Z) (path : list Z) : M (fsst L) Z :=
  let! r := nameiparent_trans path name_buf in
  match fst r with
  | None => panic "ilock"
  | Some dp => ilock_trans dp ;;; dist2root_loop fuel dp count0
  end.

Lemma namex_loop_fuel n : forall f1 f2 ip p np name tr s,
  (length p <= n)%nat -> 0 ∉ p -> length name = Z.to_nat DIRSIZ -> (length p <= f1)%nat -> (length p <= f2)%nat ->
  namex_loop f1 ip (p ++ [0]) np name tr s = namex_loop f2 ip (p ++ [0]) np name tr s.
Proof.
  induction n as [|n IH]; intros f1 f2 ip p np name tr s Hn H0 Hname H1 H2;
    pose proof (skipelem_Ok p name H0 Hname) as Hsk; destruct (elements p) as [|e es] eqn:E.
  - destruct f1, f2; cbn [namex_loop]; rewrite Hsk; done.
  - destruct Hsk as (p' & name' & _ & _ & _ & _ & _ & ? & _). lia.
  - destruct f1, f2; cbn [namex_loop]; rewrite Hsk; done.
  - destruct Hsk as (p' & name' & Hsk & _ & _ & _ & H0' & Hl & Hname').
    destruct f1 as [|f1]; [lia|]. destruct f2 as [|f2]; [lia|]. cbn [namex_loop]. rewrite Hsk.
    unfold of_option, ret, bind. destruct ((if tr then ilock_trans ip else ilock ip) s) as [r s1|]; [|done].
    destruct (negb (r =? 0)); [done|]. destruct (get_inode ip s1) as [i s2|]; [|done].
    destruct (negb (i_type i =? T_DIR)); [done|].
    destruct (np && bool_decide (head (p' ++ [0]) = Some 0)); [done|].
    destruct (dirlookup ip name' s2) as [[[next off]|] s3|]; [|done..].
    destruct (iunlockput ip s3) as [[] s4|]; [|done]. apply IH; try done; lia.
Qed.

(** Path lookup ends.  Each turn of the loop of [namex] consumes an element of
    the path, so that its length bounds the turns: with more fuel than that, for
    every path and from every state, the loop does the same. *)
Lemma namex_terminates path np tr fuel ip s :
  0 ∉ path -> (length (path ++ [0%Z]) <= fuel)%nat ->
  namex_loop fuel ip (path ++ [0]) np name_buf tr s =
  namex_loop (length (path ++ [0])) ip (path ++ [0]) np name_buf tr s.
Proof. intros H0 Hl. rewrite length_app in Hl. apply (namex_loop_fuel (length path)); try done; rewrite ?length_app; cbn in *; lia. Qed.

End Dir.
