(* ===== verification/FsFile.v ===== *)
(** * FsFile: the contents of files

    An inode and the blocks it points to denote a sequence of bytes.  The
    theorems show that [readi] returns a slice of it and that [ichecksum] is a
    function of it, which shows every change of a single word.  Writing is in
    FsWrite, verification in FsLock. *)

From S2P Require Import Prelude Layout Block FsBlock FsInode.
Open Scope Z_scope.
Open Scope xv6_scope.

(** ** The map from file blocks to disk blocks *)

Definition direct (d : dinode) (k : Z) : Z := default 0 (di_addrs d !! Z.to_nat k).

(** The disk block of file block [bn], 0 if there is none. *)
Definition file_addr (v : Z -> list Z) (d : dinode) (bn : Z) : Z :=
  if bn <? NDIRECT then direct d bn
  else if direct d NDIRECT =? 0 then 0 else get_word (v (direct d NDIRECT)) (bn - NDIRECT).

(** A block of the data area, in use. *)
Definition data_block (sb : superblock) (v : Z -> list Z) (a : Z) : Prop :=
  bm sb < a < Z.min (sb_size sb) LOGSTART /\ used (v (bm sb)) a = true.

(** The disk blocks of a file, the indirect block included. *)
Definition in_file (v : Z -> list Z) (d : dinode) (a : Z) : Prop :=
  a <> 0 /\ (a = direct d NDIRECT \/ exists bn, 0 <= bn < MAXFILE /\ a = file_addr v d bn).

(** The map is well-formed: it leads to distinct data blocks. *)
Record file_map (sb : superblock) (v : Z -> list Z) (d : dinode) : Prop := {
  fo_wf : wf_dinode d;
  fo_data : forall a, in_file v d a -> data_block sb v a;
  fo_inj : forall b1 b2, 0 <= b1 < MAXFILE -> 0 <= b2 < MAXFILE ->
    file_addr v d b1 = file_addr v d b2 -> file_addr v d b1 <> 0 -> b1 = b2;
  fo_ind : forall bn, 0 <= bn < MAXFILE -> file_addr v d bn <> 0 -> file_addr v d bn <> direct d NDIRECT
}.

(** And it covers the size of the file. *)
Record file_ok (sb : superblock) (v : Z -> list Z) (d : dinode) : Prop := {
  fo_map :> file_map sb v d;
  fo_size : di_size d <= MAXFILE * BSIZE;
  fo_full : forall bn, 0 <= bn -> bn * BSIZE < di_size d -> file_addr v d bn <> 0
}.

(** ** Contents *)

Definition file_block (v : Z -> list Z) (d : dinode) (bn : Z) : list Z :=
  if file_addr v d bn =? 0 then zero_block else v (file_addr v d bn).
Definition file_byte (v : Z -> list Z) (d : dinode) (i : Z) : Z :=
  get_byte (file_block v d (i / BSIZE)) (Z.to_nat (i mod BSIZE)).
Definition contents (v : Z -> list Z) (d : dinode) : list Z :=
  file_byte v d <$> seqZ 0 (di_size d).

Lemma direct_lookup d k :
  wf_dinode d -> 0 <= k <= NDIRECT -> di_addrs d !! Z.to_nat k = Some (direct d k).
Proof.
  intros (_&_&_&_&_&Hl&_) Hk. unfold direct.
  destruct (lookup_lt_is_Some_2 (di_addrs d) (Z.to_nat k)) as [a Ha]; [rewrite Hl; klia|].
  by rewrite Ha.
Qed.

Lemma direct_u32 d k : wf_dinode d -> is_u32 (direct d k).
Proof.
  intros (_&_&_&_&_&_&Ha&_). unfold direct.
  destruct (di_addrs d !! Z.to_nat k) as [a|] eqn:E; cbn; [|klia].
  by apply (Forall_lookup_1 _ _ _ _ Ha E).
Qed.

Lemma get_byte_sub (d : list Z) off n :
  0 <= off -> 0 <= n -> off + n <= Z.of_nat (length d) ->
  sub_bytes (Z.to_nat off) (Z.to_nat n) d = (fun i => get_byte d (Z.to_nat i)) <$> seqZ off n.
Proof.
  intros Ho Hn Hl. apply list_eq. intros k. rewrite list_lookup_fmap.
  destruct (decide (k < Z.to_nat n)%nat) as [Hk|Hk].
  - rewrite lookup_sub_bytes by done. rewrite lookup_seqZ_lt by lia. cbn.
    unfold get_byte. replace (Z.to_nat (off + Z.of_nat k)) with (Z.to_nat off + k)%nat by lia.
    destruct (lookup_lt_is_Some_2 d (Z.to_nat off + k)) as [x ->]; [lia|done].
  - unfold sub_bytes. rewrite lookup_take_ge by lia. by rewrite lookup_seqZ_ge by lia.
Qed.

(** The bytes [off, off+m) of one block of a file. *)
Lemma block_bytes v d off m :
  wf_block (file_block v d (off / BSIZE)) -> 0 <= off -> 0 <= m -> m <= BSIZE - off mod BSIZE ->
  sub_bytes (Z.to_nat (off mod BSIZE)) (Z.to_nat m) (file_block v d (off / BSIZE)) =
  file_byte v d <$> seqZ off m.
Proof.
  intros [Hl _] Ho Hm Hb. pose proof (Z.mod_pos_bound off BSIZE ltac:(klia)) as Hmod.
  rewrite get_byte_sub by (rewrite ?Hl; klia).
  replace (seqZ off m) with (Z.add (BSIZE * (off / BSIZE)) <$> seqZ (off mod BSIZE) m).
  2: { rewrite fmap_add_seqZ. f_equal. pose proof (Z.div_mod off BSIZE ltac:(klia)). lia. }
  rewrite <- list_fmap_compose. apply list_fmap_ext. intros k i Hi. apply lookup_seqZ in Hi as [-> Hk].
  unfold compose, file_byte.
  assert (E : (BSIZE * (off / BSIZE) + (off mod BSIZE + Z.of_nat k)) / BSIZE = off / BSIZE).
  { rewrite Z.mul_comm, Z.div_add_l by klia. rewrite (Z.div_small (off mod BSIZE + _)) by klia. lia. }
  rewrite E. f_equal. rewrite (Z.add_comm (BSIZE * _)), (Z.mul_comm BSIZE), Z.mod_add by klia.
  by rewrite (Z.mod_small (off mod BSIZE + _)) by klia.
Qed.

Section State.
Context {L : Type}.
Implicit Types s : fsst L.

Lemma in_low_Ok {A} (c : M L A) s a l :
  c (low s) = Ok a l -> in_low c s = Ok a (set_low l s).
Proof. unfold in_low. by intros ->. Qed.

Lemma get_inode_Ok s ip i : icache s !! ip = Some i -> get_inode ip s = Ok i s.
Proof. intros Hi. unfold get_inode, gets, bind. by rewrite Hi. Qed.

Lemma upd_inode_Ok s ip i f :
  icache s !! ip = Some i -> upd_inode ip f s = Ok tt (set_icache (<[ip := f i]> (icache s)) s).
Proof. intros Hi. unfold upd_inode, gets, bind. by rewrite Hi. Qed.

End State.

(** Run a call into the block layer, or the read of a cached inode. *)
Ltac low_step H :=
  erewrite bind_Ok by (apply in_low_Ok; cbn [low set_low set_icache]; exact H); cbv beta.
Ltac inode_step H :=
  erewrite bind_Ok by (apply get_inode_Ok; cbn [icache set_low set_icache]; exact H); cbv beta.

Section FileProofs.
Context {L : Type} {HO : BlockOps L} {HV : BlockView L} {HL : BlockLayer L}.
Context (devsw_read : Z -> option (nat -> Z -> M (fsst L) (Z * list Z))).
Context (devsw_write : Z -> option (nat -> list Z -> Z -> M (fsst L) Z)).
Implicit Types s : fsst L.

Lemma set_low_low l l' s : set_low l' (set_low l s) = set_low l' s.
Proof. done. Qed.

(** The file behind a cached inode, its blocks not locked. *)
Record attached (sb : superblock) (s : fsst L) (ip : nat) (i : inode) : Prop := {
  rd_inv : bl_inv (low s);
  rd_inode : icache s !! ip = Some i;
  rd_dev : i_dev i = ROOTDEV;
  rd_map : file_map sb (bl_view (low s)) (i_d i);
  rd_bm : 0 < bm sb;
  rd_free : forall a, in_file (bl_view (low s)) (i_d i) a -> bl_unlocked (low s) a
}.

(** The same, for a file that can be read. *)
Record readable (sb : superblock) (s : fsst L) (ip : nat) (i : inode) : Prop := {
  rd_att :> attached sb s ip i;
  rd_type : i_type i <> T_DEV;
  rd_file : file_ok sb (bl_view (low s)) (i_d i)
}.

Lemma file_addr_ext v v' d bn : (forall x, v x = v' x) -> file_addr v' d bn = file_addr v d bn.
Proof. intros E. unfold file_addr. by rewrite E. Qed.

Lemma file_map_ext sb v v' d :
  (forall x, v x = v' x) -> file_map sb v d -> file_map sb v' d.
Proof.
  intros E F. pose proof (fun bn => file_addr_ext v v' d bn E) as Ea. constructor; try apply F.
  - intros a [H0 Ha]. unfold data_block. rewrite <- E. apply F. split; [done|].
    destruct Ha as [?|(bn & ? & ->)]; [by left|right]. exists bn. by rewrite Ea.
  - intros b1 b2. rewrite !Ea. apply F.
  - intros bn. rewrite Ea. apply F.
Qed.

Lemma file_ok_ext sb v v' d :
  (forall x, v x = v' x) -> file_ok sb v d -> file_ok sb v' d.
Proof.
  intros E F. constructor; [by eapply file_map_ext, F|apply F|].
  intros bn. rewrite (file_addr_ext v v') by done. apply F.
Qed.

Lemma in_file_ext v v' d a : (forall x, v x = v' x) -> in_file v' d a -> in_file v d a.
Proof.
  intros E [H0 [Ha|(bn & Hb & ->)]]; split; auto. right. exists bn. split; [done|].
  unfold file_addr. by rewrite E.
Qed.

Lemma file_byte_ext v v' d i : (forall x, v x = v' x) -> file_byte v d i = file_byte v' d i.
Proof. intros E. unfold file_byte, file_block, file_addr. rewrite !E. by destruct (i / BSIZE <? NDIRECT). Qed.

(** A section of the block layer that changes no contents keeps a file as it is. *)
Lemma attached_eff sb s ip i l :
  attached sb s ip i -> bl_eff (low s) l (bl_view (low s)) (bl_trans (low s)) ->
  attached sb (set_low l s) ip i.
Proof.
  intros R E. constructor; try apply R; cbn.
  - apply E.
  - eapply file_map_ext; [|apply R]. intros x. symmetry. apply E.
  - intros a Ha. eapply eff_unlocked; [done|]. eapply rd_free; [done|].
    eapply in_file_ext; [|done]. intros x. symmetry. apply E.
Qed.

Lemma readable_eff sb s ip i l :
  readable sb s ip i -> bl_eff (low s) l (bl_view (low s)) (bl_trans (low s)) ->
  readable sb (set_low l s) ip i.
Proof.
  intros R E. constructor; [apply attached_eff; [apply R|done]|apply R|].
  eapply file_ok_ext; [|apply R]. intros x. symmetry. apply E.
Qed.

Lemma in_file_addr v d bn : 0 <= bn < MAXFILE -> file_addr v d bn <> 0 -> in_file v d (file_addr v d bn).
Proof. intros Hb Hn. split; [done|]. right. eauto. Qed.

Lemma file_addr_ind v d bn : NDIRECT <= bn -> file_addr v d bn <> 0 ->
  direct d NDIRECT <> 0 /\ file_addr v d bn = get_word (v (direct d NDIRECT)) (bn - NDIRECT).
Proof.
  intros Hb. unfold file_addr. rewrite (proj2 (Z.ltb_ge bn NDIRECT)) by lia.
  destruct (Z.eqb_spec (direct d NDIRECT) 0); [done|]. done.
Qed.

Lemma data_range sb v a : 0 < bm sb -> data_block sb v a -> 0 <= a < LOGSTART.
Proof. intros Hb [Ha _]. lia. Qed.

Lemma bmap_mapped sb s ip i bn u k :
  attached sb s ip i -> budget (low s) u (S k) -> 0 <= bn < MAXFILE ->
  file_addr (bl_view (low s)) (i_d i) bn <> 0 ->
  exists l, bmap ip bn s = Ok (file_addr (bl_view (low s)) (i_d i) bn) (set_low l s) /\
    bl_eff (low s) l (bl_view (low s)) (bl_trans (low s)).
Proof.
  intros R Hk Hbn Hne. pose proof (rd_inode _ _ _ _ R) as Hi. pose proof (fo_wf _ _ _ (rd_map _ _ _ _ R)) as Hwf.
  unfold bmap. inode_step Hi. destruct (Z.ltb_spec bn NDIRECT) as [Hd|Hd].
  - unfold file_addr in *. rewrite (proj2 (Z.ltb_lt bn NDIRECT)) in * by lia.
    exists (low s). split; [|apply eff_refl, R].
    unfold i_addrs. rewrite direct_lookup by (done || lia). cbn [of_option].
    erewrite bind_Ok by reflexivity. cbv beta. rewrite (proj2 (Z.eqb_neq _ _) Hne). by destruct s.
  - destruct (file_addr_ind _ _ _ Hd Hne) as [Hind Heq]. rewrite Heq in *.
    rewrite (proj2 (Z.ltb_lt (bn - NDIRECT) NINDIRECT)) by klia.
    unfold i_addrs. rewrite direct_lookup by (done || klia). cbn [of_option].
    erewrite bind_Ok by reflexivity. cbv beta. rewrite (proj2 (Z.eqb_neq _ _) Hind).
    erewrite bind_Ok by reflexivity. cbv beta. rewrite (rd_dev _ _ _ _ R).
    assert (Hin : in_file (bl_view (low s)) (i_d i) (direct (i_d i) NDIRECT)) by (split; [done|by left]).
    destruct (bread_rule (low s) (direct (i_d i) NDIRECT) u k) as (bp & l1 & R1 & O1 & _).
    { apply R. } { eapply data_range, (fo_data _ _ _ (rd_map _ _ _ _ R)); [apply R|done]. }
    { by apply R. } { done. }
    destruct (brelse_rule _ _ _ _ _ _ O1) as (l2 & R2 & E2). exists l2. split; [|done].
    unfold bmap_entry. low_step R1. pose proof (bdata_rule _ _ _ _ _ _ O1) as D1. low_step D1.
    rewrite (proj2 (Z.eqb_neq _ _) Hne). erewrite bind_Ok by reflexivity. cbv beta. low_step R2. done.
Qed.

(** ** [readi] *)

Lemma file_size_u32 sb v d : file_ok sb v d -> di_size d < 2 ^ 31.
Proof. intros F. pose proof (fo_size _ _ _ F). klia. Qed.

Lemma bn_range sb v d off :
  file_ok sb v d -> 0 <= off < di_size d -> 0 <= off / BSIZE < MAXFILE /\ file_addr v d (off / BSIZE) <> 0.
Proof.
  intros F Ho. pose proof (fo_size _ _ _ F).
  assert (0 <= off / BSIZE) by (apply Z.div_pos; klia).
  split; [split; [done|]|].
  - apply Z.div_lt_upper_bound; klia.
  - apply (fo_full _ _ _ F); [done|]. pose proof (Z.mul_div_le off BSIZE). klia.
Qed.

(** The blocks a transfer of [n] bytes at [off] touches. *)
Definition span (off n : Z) : Z := (off + n + BSIZE - 1) / BSIZE - off / BSIZE.

Lemma span_step off n :
  0 <= off -> BSIZE - off mod BSIZE < n ->
  span (off + (BSIZE - off mod BSIZE)) (n - (BSIZE - off mod BSIZE)) = span off n - 1.
Proof.
  intros Ho Hn. unfold span.
  replace (off + (BSIZE - off mod BSIZE) + (n - (BSIZE - off mod BSIZE)) + BSIZE - 1)
    with (off + n + BSIZE - 1) by lia.
  assert (E : (off + (BSIZE - off mod BSIZE)) / BSIZE = off / BSIZE + 1); [|lia].
  pose proof (Z.div_mod off BSIZE ltac:(klia)).
  replace (off + (BSIZE - off mod BSIZE)) with ((off / BSIZE + 1) * BSIZE) by lia.
  apply Z.div_mul. klia.
Qed.

Lemma span_pos off n : 0 <= off -> 0 < n -> 0 < span off n.
Proof.
  intros Ho Hn. unfold span.
  pose proof (Z.div_le_mono (off + 1 + BSIZE - 1) (off + n + BSIZE - 1) BSIZE ltac:(klia) ltac:(lia)).
  replace (off + 1 + BSIZE - 1) with (off + 1 * BSIZE) in * by lia.
  rewrite Z.div_add in * by klia. lia.
Qed.

(** A slice of one block. *)
Lemma slice_block {S} v d off m (s : S) :
  wf_block (file_block v d (off / BSIZE)) -> 0 <= off -> 0 <= m <= BSIZE - off mod BSIZE ->
  slice (file_block v d (off / BSIZE)) (off mod BSIZE) m s = Ok (file_byte v d <$> seqZ off m) s.
Proof.
  intros Hw Ho Hm. unfold slice. rewrite block_bytes by (done || lia).
  rewrite length_fmap, length_seqZ, Z2Nat.id, Z.eqb_refl by lia. done.
Qed.

Lemma file_block_addr v d bn : file_addr v d bn <> 0 -> file_block v d bn = v (file_addr v d bn).
Proof. intros Hn. unfold file_block. by rewrite (proj2 (Z.eqb_neq _ _) Hn). Qed.

(** Lock the block of a file that holds offset [off]. *)
Lemma bread_file sb s ip i bn u k :
  attached sb s ip i -> budget (low s) u (S k) -> 0 <= bn < MAXFILE ->
  file_addr (bl_view (low s)) (i_d i) bn <> 0 ->
  exists bp l1, bread ROOTDEV (file_addr (bl_view (low s)) (i_d i) bn) (low s) = Ok bp l1 /\
    bl_open (low s) l1 bp (file_addr (bl_view (low s)) (i_d i) bn) (bl_view (low s)) (bl_trans (low s)) /\
    budget l1 u k.
Proof.
  intros R Hk Hb Hne. apply bread_rule; [apply R| | |done].
  - eapply data_range; [apply R|]. apply (fo_data _ _ _ (rd_map _ _ _ _ R)). by apply in_file_addr.
  - apply (rd_free _ _ _ _ R). by apply in_file_addr.
Qed.

Lemma readi_loop_Ok sb ip i u k fuel : forall s tot off n,
  readable sb s ip i -> budget (low s) u (S k) ->
  0 <= tot <= n -> 0 <= off -> off + (n - tot) <= i_size i -> n < 2 ^ 31 ->
  (tot < n -> span off (n - tot) <= Z.of_nat fuel) ->
  exists l, readi_loop fuel ip tot off n s =
      Ok (file_byte (bl_view (low s)) (i_d i) <$> seqZ off (n - tot)) (set_low l s) /\
    bl_eff (low s) l (bl_view (low s)) (bl_trans (low s)).
Proof.
  induction fuel as [|fuel IH]; intros s tot off n R Hk Ht Ho Hsz Hn Hf; cbn [readi_loop].
  - destruct (Z.leb_spec n tot) as [Hle|Hgt].
    + exists (low s). replace (n - tot) with 0 by lia. split; [by destruct s|apply eff_refl, R].
    + specialize (Hf Hgt). pose proof (span_pos off (n - tot)). lia.
  - destruct (Z.leb_spec n tot) as [Hle|Hgt].
    { exists (low s). replace (n - tot) with 0 by lia. split; [by destruct s|apply eff_refl, R]. }
    pose proof (rd_file _ _ _ _ R) as F. pose proof (rd_inode _ _ _ _ R) as Hi.
    destruct (bn_range _ _ _ off F) as [Hbn Hne]; [unfold i_size in Hsz; lia|].
    destruct (bmap_mapped sb s ip i (off / BSIZE) u k R Hk Hbn Hne) as (l1 & R1 & E1).
    set (v := bl_view (low s)) in *. set (d := i_d i) in *.
    pose proof (readable_eff _ _ _ _ _ R E1) as Rd1.
    destruct (bread_file sb (set_low l1 s) ip i (off / BSIZE) u k) as (bp & l2 & R2 & O2 & _);
      [apply Rd1|by eapply eff_budget_same|done| |].
    { unfold file_addr. cbn. rewrite (ef_view _ _ _ _ E1). exact Hne. }
    assert (Ea : file_addr (bl_view (low (set_low l1 s))) (i_d i) (off / BSIZE) = file_addr v d (off / BSIZE)).
    { unfold file_addr. cbn. by rewrite (ef_view _ _ _ _ E1). }
    rewrite Ea in R2, O2. cbn in R2, O2.
    destruct (brelse_rule _ _ _ _ _ _ O2) as (l3 & R3 & E3). rewrite (ef_trans _ _ _ _ E1) in E3.
    assert (E13 : bl_eff (low s) l3 v (bl_trans (low s))).
    { eapply eff_view; [eapply eff_trans; [exact E1|exact E3]|]. intros x. apply E1. }
    set (m := Z.min (n - tot) (BSIZE - off mod BSIZE)).
    pose proof (Z.mod_pos_bound off BSIZE ltac:(klia)) as Hmod.
    assert (Hsu : di_size d < 2 ^ 31) by (by eapply file_size_u32). change (i_size i) with (di_size d) in Hsz.
    destruct (IH (set_low l3 s) (tot + m) (off + m) n) as (l4 & R4 & E4).
    { by apply readable_eff. } { by eapply eff_budget_same. } { lia. } { lia. } { change (i_size i) with (di_size d). lia. } { done. }
    { intros Hlt. specialize (Hf Hgt). assert (m = BSIZE - off mod BSIZE) as -> by lia.
      replace (n - (tot + (BSIZE - off mod BSIZE))) with (n - tot - (BSIZE - off mod BSIZE)) by lia.
      rewrite span_step by lia. lia. }
    exists l4. split.
    + inode_step Hi. rewrite (bind_Ok _ _ _ _ _ R1). rewrite (rd_dev _ _ _ _ R). low_step R2.
      fold m. pose proof (bdata_rule _ _ _ _ _ _ O2) as D2. low_step D2.
      rewrite (ef_view _ _ _ _ E1). rewrite <- file_block_addr by done.
      erewrite bind_Ok by (apply slice_block; [rewrite file_block_addr by done; apply bl_wf, R|done|lia]).
      cbv beta. low_step R3. rewrite !u32_id by lia. cbn [set_low] in R4.
      erewrite bind_Ok by exact R4. cbv beta. unfold ret. f_equal.
      replace (n - tot) with (m + (n - (tot + m))) by lia. rewrite seqZ_app by lia. rewrite fmap_app. f_equal.
      apply list_fmap_ext. intros j x _. cbn. apply file_byte_ext. intros y. apply E13.
    + eapply eff_view; [eapply eff_trans; [exact E13|]|].
      * cbn in E4. rewrite (ef_trans _ _ _ _ E13) in E4. exact E4.
      * intros x. apply E13.
Qed.

Lemma readi_Ok sb s ip i off n u k :
  readable sb s ip i -> budget (low s) u (S k) -> 0 <= off <= i_size i -> 0 <= n < 2 ^ 31 ->
  exists l, readi devsw_read ip off n s =
      Ok (Z.min n (i_size i - off),
          file_byte (bl_view (low s)) (i_d i) <$> seqZ off (Z.min n (i_size i - off))) (set_low l s) /\
    bl_eff (low s) l (bl_view (low s)) (bl_trans (low s)).
Proof.
  intros R Hk Ho Hn. pose proof (rd_file _ _ _ _ R) as F. pose proof (file_size_u32 _ _ _ F) as Hsz.
  change (di_size (i_d i)) with (i_size i) in Hsz.
  set (r := Z.min n (i_size i - off)).
  destruct (readi_loop_Ok sb ip i u k RWFUEL s 0 off r) as (l & Rl & E); try done; try lia.
  { intros Hr. unfold RWFUEL, span. pose proof (fo_size _ _ _ F) as Hmax.
    change (di_size (i_d i)) with (i_size i) in Hmax.
    assert ((off + (r - 0) + BSIZE - 1) / BSIZE <= MAXFILE) by (apply Z.lt_succ_r, Z.div_lt_upper_bound; klia).
    assert (0 <= off / BSIZE) by (apply Z.div_pos; klia). klia. }
  rewrite Z.sub_0_r in Rl. exists l. split; [|done].
  unfold readi. inode_step (rd_inode _ _ _ _ R). rewrite (proj2 (Z.eqb_neq _ _) (rd_type _ _ _ _ R)).
  rewrite !(u32_id (off + n)) by lia.
  rewrite (proj2 (Z.ltb_ge (i_size i) off)), (proj2 (Z.ltb_ge (off + n) off)) by lia. cbn [orb].
  assert (Hn' : (if i_size i <? off + n then i_size i - off else n) = r).
  { unfold r. destruct (Z.ltb_spec (i_size i) (off + n)); lia. }
  rewrite Hn'. rewrite (bind_Ok _ _ _ _ _ Rl). unfold ret. do 2 f_equal.
  unfold i32. rewrite Z.mod_small by lia. lia.
Qed.

(** ** The checksum *)

(** The XOR of the first [n] words of a byte string. *)
Definition xsum (bs : list Z) (n : Z) : Z := foldr Z.lxor 0 (get_word bs <$> seqZ 0 n).

(** The XOR of its little-endian 32-bit words, the last padded with zeroes. *)
Definition checksum_of (bs : list Z) : Z := xsum bs ((Z.of_nat (length bs) + 3) / 4).

Lemma foldr_lxor_app l1 l2 :
  foldr Z.lxor 0 (l1 ++ l2) = Z.lxor (foldr Z.lxor 0 l1) (foldr Z.lxor 0 l2).
Proof.
  induction l1 as [|x l1 IH]; cbn; [done|]. by rewrite IH, Z.lxor_assoc.
Qed.

Lemma xor_words_Ok n : forall i buf acc,
  xor_words n i buf acc = Z.lxor acc (foldr Z.lxor 0 (get_word buf <$> seqZ i (Z.of_nat n))).
Proof.
  induction n as [|n IH]; intros i buf acc; [by rewrite Z.lxor_0_r|].
  cbn [xor_words]. rewrite IH, (seqZ_cons i) by lia. rewrite <- Z.add_1_r.
  replace (Z.pred (Z.of_nat (S n))) with (Z.of_nat n) by lia. cbn [fmap list_fmap foldr].
  by rewrite Z.lxor_assoc.
Qed.

Lemma le_val_zeros l k : le_val (l ++ replicate k 0) = le_val l.
Proof.
  induction l as [|b l IH]; cbn; [|by rewrite IH].
  induction k as [|k IHk]; cbn; [done|]. rewrite IHk. done.
Qed.

Lemma get_word_pad (bs : list Z) k i : get_word (bs ++ replicate k 0) i = get_word bs i.
Proof.
  unfold get_word, sub_bytes. rewrite drop_app, drop_replicate, take_app, take_replicate.
  apply le_val_zeros.
Qed.

Lemma get_word_sub (bs : list Z) off r i :
  0 <= off -> 0 <= i -> 0 <= r -> off mod 4 = 0 ->
  (4 * i + 4 <= r \/ off + r = Z.of_nat (length bs)) ->
  get_word (sub_bytes (Z.to_nat off) (Z.to_nat r) bs) i = get_word bs (off / 4 + i).
Proof.
  intros Ho Hi Hr Hm Hc. unfold get_word. f_equal. apply list_eq. intros j.
  pose proof (Z.div_mod off 4 ltac:(lia)) as Hdm.
  destruct (decide (j < 4)%nat) as [Hj|Hj].
  2: { unfold sub_bytes. by rewrite !lookup_take_ge by lia. }
  rewrite !(lookup_sub_bytes _ 4) by done.
  replace (Z.to_nat (4 * (off / 4 + i)) + j)%nat with (Z.to_nat off + (Z.to_nat (4 * i) + j))%nat by lia.
  destruct (decide (Z.to_nat (4 * i) + j < Z.to_nat r)%nat) as [Hlt|Hge].
  - apply lookup_sub_bytes. lia.
  - unfold sub_bytes. rewrite lookup_take_ge by lia. symmetry. apply lookup_ge_None_2. lia.
Qed.

Lemma get_word_end (bs : list Z) i : Z.of_nat (length bs) <= 4 * i -> get_word bs i = 0.
Proof.
  intros Hi. unfold get_word, sub_bytes. rewrite drop_ge by lia. done.
Qed.

Lemma xsum_add bs n m : 0 <= n -> 0 <= m ->
  xsum bs (n + m) = Z.lxor (xsum bs n) (foldr Z.lxor 0 (get_word bs <$> seqZ n m)).
Proof.
  intros Hn Hm. unfold xsum. rewrite seqZ_app by lia. by rewrite fmap_app, foldr_lxor_app.
Qed.

Lemma xsum_end bs n : (Z.of_nat (length bs) + 3) / 4 <= n -> xsum bs n = checksum_of bs.
Proof.
  intros Hn. unfold checksum_of. set (m := (Z.of_nat (length bs) + 3) / 4) in *.
  assert (Hm : 0 <= m) by (apply Z.div_pos; lia).
  replace n with (m + (n - m)) by lia. rewrite xsum_add by lia.
  assert (E : foldr Z.lxor 0 (get_word bs <$> seqZ m (n - m)) = 0); [|by rewrite E, Z.lxor_0_r].
  assert (Hz : Forall (eq 0) (get_word bs <$> seqZ m (n - m))).
  { apply Forall_fmap, Forall_forall. intros x [Hx _]%elem_of_seqZ. cbn. symmetry. apply get_word_end.
    pose proof (Z.div_mod (Z.of_nat (length bs) + 3) 4 ltac:(lia)).
    pose proof (Z.mod_pos_bound (Z.of_nat (length bs) + 3) 4 ltac:(lia)). lia. }
  induction Hz as [|x l <- _ IH]; [done|]. cbn. done.
Qed.

(** One turn of the loop of [ichecksum]: the words of a chunk. *)
Lemma xor_chunk C off r acc :
  0 <= off -> off mod 2048 = 0 -> 0 <= r <= 2048 -> (r = 2048 \/ off + r = Z.of_nat (length C)) ->
  off + r <= Z.of_nat (length C) ->
  let chunk := sub_bytes (Z.to_nat off) (Z.to_nat r) C in
  xor_words 512 0 (chunk ++ replicate (2048 - length chunk) 0) acc =
  Z.lxor acc (foldr Z.lxor 0 (get_word C <$> seqZ (off / 4) 512)).
Proof.
  intros Ho Hm Hr Hc Hl chunk. rewrite xor_words_Ok. do 2 f_equal.
  change (Z.of_nat 512) with 512.
  replace (seqZ (off / 4) 512) with (Z.add (off / 4) <$> seqZ 0 512) by (rewrite fmap_add_seqZ; f_equal; lia).
  rewrite <- list_fmap_compose. apply list_fmap_ext. intros k i [-> Hk]%lookup_seqZ. unfold compose.
  rewrite get_word_pad. apply get_word_sub; try lia.
  pose proof (Z.div_mod off 2048 ltac:(lia)). rewrite Hm in *.
  replace off with (512 * (off / 2048) * 4) by lia. apply Z.mod_mul. lia.
Qed.

Lemma length_contents v d : 0 <= di_size d -> Z.of_nat (length (contents v d)) = di_size d.
Proof. intros. unfold contents. rewrite length_fmap, length_seqZ. lia. Qed.

Lemma contents_sub v d off r :
  0 <= off -> 0 <= r -> off + r <= di_size d ->
  sub_bytes (Z.to_nat off) (Z.to_nat r) (contents v d) = file_byte v d <$> seqZ off r.
Proof.
  intros Ho Hr Hl. unfold contents. apply list_eq. intros j. rewrite list_lookup_fmap.
  destruct (decide (j < Z.to_nat r)%nat).
  - rewrite lookup_sub_bytes, list_lookup_fmap, !lookup_seqZ_lt by lia. cbn. do 2 f_equal. lia.
  - unfold sub_bytes. rewrite lookup_take_ge by lia. by rewrite lookup_seqZ_ge by lia.
Qed.

Lemma contents_ext v v' d : (forall x, v x = v' x) -> contents v d = contents v' d.
Proof. intros E. apply list_fmap_ext. intros. by apply file_byte_ext. Qed.

Lemma ichecksum_loop_Ok sb ip i u k fuel : forall s j,
  readable sb s ip i -> budget (low s) u (S k) -> 0 <= j ->
  (i_size i + 2047) / 2048 - j < Z.of_nat fuel -> (0 < fuel)%nat ->
  exists l, ichecksum_loop devsw_read fuel ip (Z.min (2048 * j) (i_size i))
              (xsum (contents (bl_view (low s)) (i_d i)) (512 * j)) s =
      Ok (checksum_of (contents (bl_view (low s)) (i_d i))) (set_low l s) /\
    bl_eff (low s) l (bl_view (low s)) (bl_trans (low s)).
Proof.
  induction fuel as [|fuel IH]; intros s j R Hk Hj Hf Hpos; [lia|]. cbn [ichecksum_loop].
  pose proof (rd_file _ _ _ _ R) as F. pose proof (file_size_u32 _ _ _ F) as Hsz.
  change (di_size (i_d i)) with (i_size i) in Hsz.
  assert (Hsz0 : 0 <= i_size i) by (destruct (fo_wf _ _ _ F) as (_&_&_&_&[? _]&_); done).
  set (v := bl_view (low s)) in *. set (C := contents v (i_d i)).
  assert (HC : Z.of_nat (length C) = i_size i) by (by apply length_contents).
  set (off := Z.min (2048 * j) (i_size i)).
  destruct (readi_Ok sb s ip i off 2048 u k) as (l1 & R1 & E1); [done..|lia|lia|].
  fold v in R1, E1. rewrite (bind_Ok _ _ _ _ _ R1). cbn [fst snd]. set (r := Z.min 2048 (i_size i - off)) in *.
  rewrite (u32_id r) by lia. destruct (Z.ltb_spec 0 r) as [Hr|Hr].
  - assert (Hoff : off = 2048 * j) by lia.
    rewrite <- contents_sub by (change (di_size (i_d i)) with (i_size i); lia). fold C.
    rewrite xor_chunk; [|lia|rewrite Hoff, Z.mul_comm; apply Z.mod_mul; lia|lia|lia|lia].
    replace (off / 4) with (512 * j).
    2: { rewrite Hoff. replace (2048 * j) with (512 * j * 4) by lia. by rewrite Z.div_mul. }
    rewrite <- xsum_add by lia. rewrite u32_id by lia.
    replace (off + r) with (Z.min (2048 * (j + 1)) (i_size i)) by lia.
    replace (512 * j + 512) with (512 * (j + 1)) by lia.
    destruct (IH (set_low l1 s) (j + 1)) as (l2 & R2 & E2).
    { by apply readable_eff. } { by eapply eff_budget_same. } { lia. } { lia. }
    { assert (j + 1 <= (i_size i + 2047) / 2048) by (apply Z.div_le_lower_bound; lia). lia. }
    cbn [low set_low] in R2, E2.
    assert (EC : contents (bl_view l1) (i_d i) = C) by (apply contents_ext; intros; apply E1).
    rewrite EC in R2. exists l2. split; [exact R2|].
    eapply eff_view; [eapply eff_trans; [exact E1|]|].
    + rewrite (ef_trans _ _ _ _ E1) in E2. exact E2.
    + intros x. apply E1.
  - exists l1. split; [|done]. unfold ret. f_equal. apply xsum_end. rewrite HC.
    apply Z.lt_succ_r, Z.div_lt_upper_bound; lia.
Qed.

Lemma ichecksum_Ok sb s ip i u k :
  readable sb s ip i -> budget (low s) u (S k) ->
  exists l, ichecksum devsw_read ip s =
      Ok (checksum_of (contents (bl_view (low s)) (i_d i))) (set_low l s) /\
    bl_eff (low s) l (bl_view (low s)) (bl_trans (low s)).
Proof.
  intros R Hk. pose proof (rd_file _ _ _ _ R) as F. pose proof (fo_size _ _ _ F) as Hmax.
  change (di_size (i_d i)) with (i_size i) in Hmax.
  assert (Hsz0 : 0 <= i_size i) by (destruct (fo_wf _ _ _ F) as (_&_&_&_&[? _]&_); done).
  unfold ichecksum. inode_step (rd_inode _ _ _ _ R). rewrite (proj2 (Z.eqb_neq _ _) (rd_type _ _ _ _ R)).
  destruct (ichecksum_loop_Ok sb ip i u k CKFUEL s 0) as (l & Rl & E); try done.
  - assert ((i_size i + 2047) / 2048 <= 35) by (apply Z.lt_succ_r, Z.div_lt_upper_bound; klia).
    change (Z.of_nat CKFUEL) with 37. lia.
  - vm_compute. lia.
  - exists l. split; [|done]. replace (Z.min (2048 * 0) (i_size i)) with 0 in Rl by lia.
    replace (xsum (contents (bl_view (low s)) (i_d i)) (512 * 0)) with 0 in Rl by done. exact Rl.
Qed.

(** C12: [readi] returns the file's bytes.  On a file whose blocks are mapped and
    not locked, a read at [off] within the file returns as many bytes as asked
    for and there are, they are that slice of the contents, the inode cache and
    the contents of every block are as before, and nothing is logged. *)
Theorem readi_returns_slice sb s ip i off n :
  readable sb s ip i -> budget (low s) ∅ 1 -> 0 <= off <= i_size i -> 0 <= n < 2 ^ 31 ->
  exists s', readi devsw_read ip off n s =
      Ok (Z.min n (i_size i - off),
          sub_bytes (Z.to_nat off) (Z.to_nat (Z.min n (i_size i - off)))
            (contents (bl_view (low s)) (i_d i))) s' /\
    icache s' = icache s /\ bl_inv (low s') /\ bl_trans (low s') = bl_trans (low s) /\
    bl_held (low s') = bl_held (low s) /\ forall x, bl_view (low s') x = bl_view (low s) x.
Proof.
  intros R Hk Ho Hn. destruct (readi_Ok sb s ip i off n ∅ 0 R Hk Ho Hn) as (l & Hr & E).
  rewrite contents_sub by (change (di_size (i_d i)) with (i_size i); lia).
  exists (set_low l s). split; [exact Hr|]. split; [done|]. split_and!; apply E.
Qed.

(** C13: [ichecksum] is the XOR of the contents.  Whatever its size, the checksum
    computed block by block is the XOR of the little-endian 32-bit words of the
    file's contents, the last word padded with zeroes; nothing else changes. *)
Theorem ichecksum_is_xor sb s ip i :
  readable sb s ip i -> budget (low s) ∅ 1 ->
  exists s', ichecksum devsw_read ip s = Ok (checksum_of (contents (bl_view (low s)) (i_d i))) s' /\
    icache s' = icache s /\ forall x, bl_view (low s') x = bl_view (low s) x.
Proof.
  intros R Hk. destruct (ichecksum_Ok sb s ip i ∅ 0 R Hk) as (l & Hr & E).
  exists (set_low l s). split; [exact Hr|]. split; [done|apply E].
Qed.
End FileProofs.

(** Two contents of the same length that differ in exactly one of their words
    have different checksums. *)
Lemma checksum_detects_word bs bs' k :
  length bs = length bs' -> 0 <= k < (Z.of_nat (length bs) + 3) / 4 ->
  get_word bs k <> get_word bs' k -> (forall j, 0 <= j -> j <> k -> get_word bs j = get_word bs' j) ->
  checksum_of bs <> checksum_of bs'.
Proof.
  intros Hl Hk Hne Heq. unfold checksum_of. rewrite <- Hl. set (n := (Z.of_nat (length bs) + 3) / 4) in *.
  replace n with (k + (1 + (n - k - 1))) by lia. rewrite !xsum_add by lia.
  rewrite !seqZ_app by lia. change (seqZ k 1) with [k]. rewrite !fmap_app, !foldr_lxor_app. cbn [fmap list_fmap foldr].
  assert (E1 : xsum bs k = xsum bs' k).
  { unfold xsum. f_equal. apply list_fmap_ext. intros j x [-> Hx]%lookup_seqZ. apply Heq; lia. }
  assert (E2 : get_word bs <$> seqZ (k + 1) (n - k - 1) = (get_word bs' <$> seqZ (k + 1) (n - k - 1))).
  { apply list_fmap_ext. intros j x [-> Hx]%lookup_seqZ. apply Heq; lia. }
  rewrite E1, E2, !Z.lxor_0_r. intros E.
  apply Hne, Z.bits_inj'. intros m Hm. apply (f_equal (fun z => Z.testbit z m)) in E.
  rewrite !Z.lxor_spec in E.
  destruct (Z.testbit (xsum bs' k) m), (Z.testbit (get_word bs k) m), (Z.testbit (get_word bs' k) m),
    (Z.testbit (foldr _ _ _) m); done.
Qed.
