(* ===== verification/FsWrite.v ===== *)
(** * FsWrite: writing files (fs.c)

    Block allocation seen from a file: [bmap] of a hole extends the map of the
    file by fresh, zeroed blocks and disturbs no block in use.  On top of it,
    [writei] replaces a range of the contents, extends the file when the range
    ends past its size, and leaves on disk an inode whose checksum is that of
    the new contents. *)

From S2P Require Import Prelude Layout Block FsBlock FsInode FsFile.
Open Scope Z_scope.
Open Scope xv6_scope.

(** ** Adding a block to a file *)

Lemma direct_set d n a k :
  wf_dinode d -> (n <= 10)%nat -> 0 <= k ->
  direct (d_set_addr n a d) k = if decide (Z.to_nat k = n) then a else direct d k.
Proof.
  intros (_&_&_&_&_&Hl&_) Hn Hk. unfold direct. cbn. case_decide as E.
  - subst. rewrite list_lookup_insert_eq by lia. done.
  - by rewrite list_lookup_insert_ne.
Qed.

Lemma wf_set_addr d n a : wf_dinode d -> is_u32 a -> wf_dinode (d_set_addr n a d).
Proof.
  intros (?&?&?&?&?&Hl&Ha&?) Hu. unfold wf_dinode. cbn.
  rewrite length_insert. split_and!; try tauto. by apply Forall_insert.
Qed.

Lemma get_word_zero i : get_word zero_block i = 0.
Proof.
  unfold get_word, sub_bytes, zero_block. rewrite drop_replicate, take_replicate.
  apply (le_val_zeros []).
Qed.

(** A block that is free and can be handed out. *)
Definition free_block (sb : superblock) (v : Z -> list Z) (b : Z) : Prop :=
  bm sb < b < Z.min (sb_size sb) LOGSTART /\ used (v (bm sb)) b = false.

(** From [(v, d)] to [(v', d')]: the disk blocks [new] are allocated, to extend
    the map of the file; what was in use keeps its use, and its contents unless
    it is the bitmap or the indirect block. *)
Record extended (sb : superblock) (v v' : Z -> list Z) (d d' : dinode) : Prop := {
  ex_map : file_map sb v' d';
  ex_addr : forall bn, 0 <= bn < MAXFILE -> file_addr v d bn <> 0 -> file_addr v' d' bn = file_addr v d bn;
  ex_zero : forall bn, 0 <= bn < MAXFILE -> file_addr v d bn = 0 -> file_addr v' d' bn <> 0 ->
    v' (file_addr v' d' bn) = zero_block;
  ex_view : forall x, x <> bm sb -> used (v (bm sb)) x = true -> 0 <= x < sb_size sb ->
    (x <> 0 -> x <> direct d' NDIRECT) -> v' x = v x;
  ex_used : forall x, 0 <= x < sb_size sb -> used (v (bm sb)) x = true -> used (v' (bm sb)) x = true;
  ex_fresh : forall a, in_file v' d' a -> in_file v d a \/ used (v (bm sb)) a = false;
  ex_ind : direct d NDIRECT <> 0 -> direct d' NDIRECT = direct d NDIRECT;
  ex_fields : d' = Dinode (di_type d) (di_major d) (di_minor d) (di_nlink d) (di_size d)
                     (di_addrs d') (di_child1 d) (di_child2 d) (di_checksum d)
}.

Section Extend.
Context (sb : superblock) (v : Z -> list Z) (d : dinode) (b : Z).
Context (G : fs_geometry v sb) (Hw : forall x, wf_block (v x)) (F : file_map sb v d) (Hb : free_block sb v b).

Lemma ext_range : 3 <= bm sb /\ 0 <= b < sb_size sb /\ b < LOGSTART /\ b <> bm sb /\ b <> 0 /\ is_u32 b.
Proof.
  destruct Hb as [Hr _]. pose proof (bm_range _ _ G). unfold is_u32, LOGSTART in *. klia.
Qed.

Lemma alloc_view_used x : 0 <= x < sb_size sb ->
  used (alloc_view sb b v (bm sb)) x = if decide (x = b) then true else used (v (bm sb)) x.
Proof. intros Hx. destruct ext_range as (?&?&?&?&?&?). by apply used_alloc. Qed.

Lemma alloc_view_same x : used (v (bm sb)) x = true -> x <> bm sb -> alloc_view sb b v x = v x.
Proof. intros Hu Hx. apply alloc_other; [|done]. intros ->. destruct Hb as [_ Hf]. congruence. Qed.

Lemma data_alloc a : data_block sb v a -> data_block sb (alloc_view sb b v) a.
Proof.
  intros [Hr Hu]. split; [done|]. pose proof ext_range. rewrite alloc_view_used by lia. by case_decide.
Qed.

Lemma data_new : data_block sb (alloc_view sb b v) b.
Proof.
  destruct Hb as [Hr _]. split; [done|]. pose proof ext_range.
  rewrite alloc_view_used by lia. by rewrite decide_True.
Qed.

Lemma in_file_not_new a : in_file v d a -> a <> b.
Proof. intros Ha ->. destruct (fo_data _ _ _ F _ Ha) as [_ Hu]. destruct Hb as [_ Hf]. congruence. Qed.

(** The indirect block is not touched by the allocation. *)
Lemma alloc_view_ind : direct d NDIRECT <> 0 ->
  alloc_view sb b v (direct d NDIRECT) = v (direct d NDIRECT).
Proof.
  intros Hi. assert (Hin : in_file v d (direct d NDIRECT)) by (split; [done|by left]).
  destruct (fo_data _ _ _ F _ Hin) as [Hr Hu]. apply alloc_view_same; [done|lia].
Qed.

Lemma file_addr_alloc bn : file_addr (alloc_view sb b v) d bn = file_addr v d bn.
Proof.
  unfold file_addr. destruct (bn <? NDIRECT); [done|].
  destruct (Z.eqb_spec (direct d NDIRECT) 0); [done|]. by rewrite alloc_view_ind.
Qed.

(** A map that gains the block [b] at [bn], its indirect block staying in place. *)
Lemma extend_by v' d' bn :
  0 <= bn < MAXFILE -> wf_dinode d' -> direct d' NDIRECT = direct d NDIRECT -> file_addr v d bn = 0 ->
  (forall k, 0 <= k < MAXFILE -> file_addr v' d' k = if decide (k = bn) then b else file_addr v d k) ->
  (forall x, 0 <= x < sb_size sb ->
     used (v' (bm sb)) x = if decide (x = b) then true else used (v (bm sb)) x) ->
  (forall x, used (v (bm sb)) x = true -> x <> bm sb -> (x <> 0 -> x <> direct d NDIRECT) -> v' x = v x) ->
  v' b = zero_block ->
  d' = Dinode (di_type d) (di_major d) (di_minor d) (di_nlink d) (di_size d)
         (di_addrs d') (di_child1 d) (di_child2 d) (di_checksum d) ->
  extended sb v v' d d'.
Proof.
  intros Hbn Hwf Hind Hold Haddr Hused Hview Hself Hfields.
  pose proof ext_range as (Hbm & Hb1 & Hb2 & Hb3 & Hb4 & Hb5).
  assert (Hdata : forall a, data_block sb v a -> data_block sb v' a).
  { intros a [Hr Hu]. split; [done|]. rewrite Hused by lia. by case_decide. }
  assert (Hnew : data_block sb v' b).
  { destruct Hb as [Hr _]. split; [done|]. rewrite Hused by lia. by rewrite decide_True. }
  constructor; try done.
  - constructor; [done| | |].
    + intros a [Ha0 [Ha|(k & Hk & Ha)]].
      * rewrite Hind in Ha. apply Hdata, F. split; [done|by left].
      * rewrite Haddr in Ha by lia. case_decide; subst a; [apply Hnew|].
        apply Hdata, F. by apply in_file_addr.
    + intros b1 b2 Hb1' Hb2'. rewrite !Haddr by lia. repeat case_decide; subst; try done.
      * intros E Hn. exfalso. apply (in_file_not_new (file_addr v d b2)); [|done]. apply in_file_addr; [done|congruence].
      * intros E Hn. exfalso. by apply (in_file_not_new (file_addr v d b1)); [apply in_file_addr|].
      * by apply F.
    + intros k Hk. rewrite Haddr, Hind by lia. case_decide.
      * intros _ E. destruct (Z.eqb_spec (direct d NDIRECT) 0); [congruence|].
        apply (in_file_not_new (direct d NDIRECT)); [split; [done|by left]|done].
      * by apply F.
  - intros k Hk Hn. rewrite Haddr by lia. rewrite decide_False by (intros ->; done). done.
  - intros k Hk Hz. rewrite Haddr by lia. by case_decide.
  - intros x Hx Hu Hxs Hi. apply Hview; [done|done|]. by rewrite <- Hind.
  - intros x Hx Hu. rewrite Hused by done. by case_decide.
  - intros a [Ha0 [Ha|(k & Hk & Ha)]].
    + left. split; [done|left]. by rewrite Ha.
    + rewrite Haddr in Ha by lia. case_decide; subst a; [right; apply Hb|left; by apply in_file_addr].
Qed.

(** A new direct block. *)
Lemma extend_direct bn :
  0 <= bn < NDIRECT -> direct d bn = 0 ->
  let v' := alloc_view sb b v in let d' := d_set_addr (Z.to_nat bn) b d in
  extended sb v v' d d' /\ file_addr v' d' bn = b.
Proof.
  intros Hbn H0 v' d'. pose proof ext_range as (Hbm & Hb1 & Hb2 & Hb3 & Hb4 & Hb5).
  pose proof (fo_wf _ _ _ F) as Hwf.
  assert (Hdir : forall k, 0 <= k -> direct d' k = if decide (k = bn) then b else direct d k).
  { intros k Hk. unfold d'. rewrite direct_set by (done || klia).
    destruct (decide (k = bn)) as [->|]; [by rewrite decide_True|]. rewrite decide_False by lia. done. }
  assert (Hind : direct d' NDIRECT = direct d NDIRECT) by (rewrite Hdir by klia; rewrite decide_False by lia; done).
  assert (Haddr : forall k, 0 <= k < MAXFILE -> file_addr v' d' k = if decide (k = bn) then b else file_addr v d k).
  { intros k Hk. rewrite <- (file_addr_alloc k). fold v'. unfold file_addr. rewrite Hind.
    destruct (Z.ltb_spec k NDIRECT); [apply Hdir; lia|]. by rewrite decide_False by lia. }
  assert (Hold : file_addr v d bn = 0).
  { unfold file_addr. by rewrite (proj2 (Z.ltb_lt bn NDIRECT)) by lia. }
  assert (Hmax : NDIRECT < MAXFILE) by klia.
  split; [|rewrite Haddr by lia; by rewrite decide_True].
  apply (extend_by v' d' bn); try done; try lia.
  - by apply wf_set_addr.
  - intros x. apply alloc_view_used.
  - intros x Hu Hx _. by apply alloc_view_same.
  - apply alloc_self.
Qed.

(** A new entry in the indirect block. *)
Lemma extend_indirect bn :
  NDIRECT <= bn < MAXFILE -> direct d NDIRECT <> 0 -> get_word (v (direct d NDIRECT)) (bn - NDIRECT) = 0 ->
  let v' := upd_view (direct d NDIRECT) (put_word (v (direct d NDIRECT)) (bn - NDIRECT) b) (alloc_view sb b v) in
  extended sb v v' d d /\ file_addr v' d bn = b.
Proof.
  intros Hbn Hi Hw0 v'. pose proof ext_range as (Hbm & Hb1 & Hb2 & Hb3 & Hb4 & Hb5).
  pose proof (fo_wf _ _ _ F) as Hwf. set (I := direct d NDIRECT) in *.
  assert (Hin : in_file v d I) by (split; [done|by left]).
  pose proof (in_file_not_new _ Hin) as HIb. destruct (fo_data _ _ _ F _ Hin) as [HIr HIu].
  assert (Haddr : forall k, 0 <= k < MAXFILE -> file_addr v' d k = if decide (k = bn) then b else file_addr v d k).
  { intros k Hk. unfold file_addr. fold I. destruct (Z.ltb_spec k NDIRECT); [by rewrite decide_False by lia|].
    rewrite (proj2 (Z.eqb_neq I 0) Hi). unfold v'. rewrite upd_view_eq. case_decide as E.
    - subst. apply get_put_word; [apply Hw|klia|done].
    - apply get_put_word_ne; [apply Hw|klia|klia|lia]. }
  assert (Hold : file_addr v d bn = 0).
  { unfold file_addr. fold I. rewrite (proj2 (Z.ltb_ge bn NDIRECT)), (proj2 (Z.eqb_neq I 0)) by (done || lia). done. }
  assert (Hmax : NDIRECT < MAXFILE /\ 0 < NDIRECT) by klia.
  split; [|rewrite Haddr by lia; by rewrite decide_True].
  apply (extend_by v' d bn); try done; try lia.
  - intros x Hx. unfold v'. rewrite upd_view_ne by lia. by apply alloc_view_used.
  - intros x Hu Hx Hxi. unfold v'. rewrite upd_view_ne by (intros ->; by apply Hxi). by apply alloc_view_same.
  - unfold v'. rewrite upd_view_ne by done. apply alloc_self.
  - by destruct d.
Qed.

(** A new, empty indirect block. *)
Lemma extend_ind_block :
  direct d NDIRECT = 0 ->
  let v' := alloc_view sb b v in let d' := d_set_addr (Z.to_nat NDIRECT) b d in
  extended sb v v' d d' /\ direct d' NDIRECT = b /\
  (forall bn, 0 <= bn < MAXFILE -> file_addr v' d' bn = file_addr v d bn).
Proof.
  intros H0 v' d'. pose proof ext_range as (Hbm & Hb1 & Hb2 & Hb3 & Hb4 & Hb5).
  pose proof (fo_wf _ _ _ F) as Hwf.
  assert (Hdir : forall k, 0 <= k -> direct d' k = if decide (k = NDIRECT) then b else direct d k).
  { intros k Hk. unfold d'. rewrite direct_set by (done || klia).
    destruct (decide (k = NDIRECT)) as [->|]; [by rewrite decide_True|]. by rewrite decide_False by klia. }
  assert (Hind : direct d' NDIRECT = b) by (rewrite Hdir by klia; by rewrite decide_True).
  assert (Haddr : forall bn, 0 <= bn < MAXFILE -> file_addr v' d' bn = file_addr v d bn).
  { intros bn Hbn. unfold file_addr. rewrite Hind, H0, Z.eqb_refl.
    destruct (Z.ltb_spec bn NDIRECT); [rewrite Hdir by lia; by rewrite decide_False by lia|].
    rewrite (proj2 (Z.eqb_neq b 0) Hb4). unfold v'. rewrite alloc_self. apply get_word_zero. }
  split_and!; try done. constructor.
  - constructor; [by apply wf_set_addr| | |].
    + intros a [Ha0 [Ha|(k & Hk & Ha)]].
      * rewrite Hind in Ha. subst a. apply data_new.
      * rewrite Haddr in Ha by lia. subst a. apply data_alloc, F. by apply in_file_addr.
    + intros b1 b2 Hb1' Hb2'. rewrite !Haddr by lia. by apply F.
    + intros k Hk. rewrite Haddr, Hind by lia. intros Hn. by apply in_file_not_new, in_file_addr.
  - intros k Hk _. by apply Haddr.
  - intros k Hk E. rewrite Haddr by lia. done.
  - intros x Hx Hu _ _. by apply alloc_view_same.
  - intros x Hx Hu. unfold v'. rewrite alloc_view_used by done. by case_decide.
  - intros a [Ha0 [Ha|(k & Hk & Ha)]].
    + right. rewrite Hind in Ha. subst a. apply Hb.
    + left. rewrite Haddr in Ha by lia. subst a. by apply in_file_addr.
  - done.
  - done.
Qed.
End Extend.

Lemma extended_refl sb v d : file_map sb v d -> extended sb v v d d.
Proof. intros F. constructor; intros; try done; by (left || destruct d). Qed.

Lemma extended_trans sb v1 v2 v3 d1 d2 d3 :
  0 <= bm sb -> extended sb v1 v2 d1 d2 -> extended sb v2 v3 d2 d3 ->
  (forall x, 0 <= x < sb_size sb -> used (v1 (bm sb)) x = true -> (x <> 0 -> x <> direct d3 NDIRECT) ->
     x <> bm sb -> x <> 0 -> x <> direct d2 NDIRECT) ->
  (forall bn, 0 <= bn < MAXFILE -> file_addr v1 d1 bn = 0 -> file_addr v2 d2 bn <> 0 ->
     v3 (file_addr v2 d2 bn) = zero_block) ->
  extended sb v1 v3 d1 d3.
Proof.
  intros Hbm E1 E2 Hind Hz. constructor; try apply E2.
  - intros bn Hb Hn. rewrite (ex_addr _ _ _ _ _ E2); [|done|]; rewrite (ex_addr _ _ _ _ _ E1); done.
  - intros bn Hb H0 H3. destruct (decide (file_addr v2 d2 bn = 0)) as [E|E].
    + by apply (ex_zero _ _ _ _ _ E2).
    + rewrite (ex_addr _ _ _ _ _ E2) by done. by apply Hz.
  - intros x Hx Hu Hr Hi. rewrite (ex_view _ _ _ _ _ E2); try done; [|by apply (ex_used _ _ _ _ _ E1)].
    apply (ex_view _ _ _ _ _ E1); auto.
  - intros x Hx Hu. apply (ex_used _ _ _ _ _ E2); [done|]. by apply (ex_used _ _ _ _ _ E1).
  - intros a Ha. destruct (ex_fresh _ _ _ _ _ E2 a Ha) as [H|H]; [by apply E1|].
    right. destruct (used (v1 (bm sb)) a) eqn:Eu; [|done].
    destruct (fo_data _ _ _ (ex_map _ _ _ _ _ E2) a Ha) as [Hr _].
    rewrite (ex_used _ _ _ _ _ E1) in H; [done|lia|done].
  - intros Hn. rewrite (ex_ind _ _ _ _ _ E2); rewrite (ex_ind _ _ _ _ _ E1); done.
  - rewrite (ex_fields _ _ _ _ _ E2) at 1. rewrite (ex_fields _ _ _ _ _ E1). done.
Qed.

Lemma extended_ext sb v v' v'' d d' :
  (forall x, v' x = v'' x) -> extended sb v v' d d' -> extended sb v v'' d d'.
Proof.
  intros E X. pose proof (fun bn => file_addr_ext v' v'' d' bn E) as Ea. constructor; try apply X.
  - by eapply file_map_ext, X.
  - intros bn. rewrite Ea. apply X.
  - intros bn. rewrite Ea, <- E. apply X.
  - intros x. rewrite <- E. apply X.
  - intros x. rewrite <- E. apply X.
  - intros a Ha. eapply (ex_fresh _ _ _ _ _ X), in_file_ext, Ha. done.
Qed.

(** The extended file reads as before: a hole reads as zeroes, and so does a new
    block. *)
Lemma extended_block sb v v' d d' bn :
  0 < bm sb -> file_map sb v d -> extended sb v v' d d' -> 0 <= bn < MAXFILE ->
  file_block v' d' bn = file_block v d bn.
Proof.
  intros Hbm F X Hb. unfold file_block. destruct (Z.eqb_spec (file_addr v d bn) 0) as [H0|H0].
  - destruct (Z.eqb_spec (file_addr v' d' bn) 0); [done|]. by apply (ex_zero _ _ _ _ _ X).
  - rewrite (ex_addr _ _ _ _ _ X) by done. rewrite (proj2 (Z.eqb_neq _ _) H0).
    destruct (fo_data _ _ _ F (file_addr v d bn)) as [Hr Hu]; [by apply in_file_addr|].
    apply (ex_view _ _ _ _ _ X); [lia|done|lia|]. intros _. rewrite <- (ex_addr _ _ _ _ _ X) by done.
    apply (fo_ind _ _ _ (ex_map _ _ _ _ _ X)); [done|]. by rewrite (ex_addr _ _ _ _ _ X).
Qed.

Lemma extended_byte sb v v' d d' x :
  0 < bm sb -> file_map sb v d -> extended sb v v' d d' -> 0 <= x < MAXFILE * BSIZE ->
  file_byte v' d' x = file_byte v d x.
Proof.
  intros Hbm F X Hx. unfold file_byte. erewrite extended_block; try done.
  split; [apply Z.div_pos; klia|apply Z.div_lt_upper_bound; klia].
Qed.

(** ** Storing bytes in a block of a file *)

Section Store.
Context (sb : superblock) (v : Z -> list Z) (d : dinode) (bn : Z) (o : nat) (bytes : list Z).
Context (F : file_map sb v d) (Hbm : 0 < bm sb) (Hbn : 0 <= bn < MAXFILE) (Ha : file_addr v d bn <> 0).
Context (Hw : wf_block (v (file_addr v d bn))) (Hl : (o + length bytes <= Z.to_nat BSIZE)%nat).
Local Abbreviation a := (file_addr v d bn).
Local Abbreviation v' := (upd_view a (splice o bytes (v a)) v).

Lemma store_addr k : file_addr v' d k = file_addr v d k.
Proof.
  unfold file_addr at 1 4. destruct (k <? NDIRECT); [done|].
  destruct (direct d NDIRECT =? 0); [done|]. rewrite upd_view_ne; [done|].
  intros E. by apply (fo_ind _ _ _ F bn Hbn Ha).
Qed.

Lemma store_map : file_map sb v' d.
Proof.
  assert (Hu : v' (bm sb) = v (bm sb)).
  { apply upd_view_ne. destruct (fo_data _ _ _ F a); [by apply in_file_addr|lia]. }
  constructor; try apply F.
  - intros x [Hx [E|(k & Hk & E)]]; unfold data_block; rewrite Hu; apply F; split; auto.
    right. exists k. by rewrite <- store_addr.
  - intros b1 b2. rewrite !store_addr. apply F.
  - intros k. rewrite store_addr. apply F.
Qed.

Lemma store_byte x : 0 <= x < MAXFILE * BSIZE ->
  file_byte v' d x =
  if decide (bn * BSIZE + Z.of_nat o <= x < bn * BSIZE + Z.of_nat (o + length bytes))
  then get_byte bytes (Z.to_nat (x - (bn * BSIZE + Z.of_nat o))) else file_byte v d x.
Proof.
  intros Hx. pose proof (Z.div_mod x BSIZE ltac:(klia)) as Hdm.
  pose proof (Z.mod_pos_bound x BSIZE ltac:(klia)) as Hmod.
  assert (Hxb : 0 <= x / BSIZE < MAXFILE) by (split; [apply Z.div_pos; klia|apply Z.div_lt_upper_bound; klia]).
  assert (Hs : (o + length bytes <= length (v a))%nat) by (destruct Hw as [-> _]; done).
  unfold file_byte, file_block. rewrite store_addr.
  destruct (decide (x / BSIZE = bn)) as [E|E].
  - rewrite E, (proj2 (Z.eqb_neq _ _) Ha), upd_view_eq. unfold get_byte. case_decide.
    + rewrite lookup_splice_in by klia. do 2 f_equal. klia.
    + rewrite lookup_splice_out by klia. done.
  - rewrite decide_False by klia. destruct (Z.eqb_spec (file_addr v d (x / BSIZE)) 0) as [|Hn]; [done|].
    rewrite upd_view_ne; [done|]. intros Ea. apply E. by apply (fo_inj _ _ _ F).
Qed.
End Store.

(** ** The loop of [writei] *)

(** From [(v0, d0)] to [(v, d)]: the bytes [lo, hi) of the file are those of
    [src], every other byte of it, and every block in use by others, is as
    before. *)
Record wrote (sb : superblock) (v0 v : Z -> list Z) (d0 d : dinode) (lo hi : Z) (src : list Z) : Prop := {
  wr_map : file_map sb v d;
  wr_fields : d = Dinode (di_type d0) (di_major d0) (di_minor d0) (di_nlink d0) (di_size d0)
                    (di_addrs d) (di_child1 d0) (di_child2 d0) (di_checksum d0);
  wr_byte : forall x, 0 <= x < MAXFILE * BSIZE ->
    file_byte v d x = if decide (lo <= x < hi) then get_byte src (Z.to_nat (x - lo)) else file_byte v0 d0 x;
  wr_addr : forall bn, 0 <= bn < MAXFILE ->
    file_addr v0 d0 bn <> 0 \/ (lo < hi /\ lo / BSIZE <= bn /\ bn * BSIZE < hi) -> file_addr v d bn <> 0;
  wr_view : forall x, 0 <= x < sb_size sb -> used (v0 (bm sb)) x = true -> x <> bm sb ->
    ~ in_file v0 d0 x -> v x = v0 x;
  wr_used : forall x, 0 <= x < sb_size sb -> used (v0 (bm sb)) x = true -> used (v (bm sb)) x = true;
  wr_fresh : forall a, in_file v d a -> in_file v0 d0 a \/ used (v0 (bm sb)) a = false
}.

(** The blocks logged on the way. *)
Definition logged (sb : superblock) (t0 t : list Z) (v : Z -> list Z) (d : dinode) (lo hi : Z) : Prop :=
  forall x, x ∈ t -> x ∈ t0 \/ x = bm sb \/ (x = direct d NDIRECT /\ x <> 0) \/
    exists bn, lo < hi /\ lo / BSIZE <= bn /\ bn * BSIZE < hi /\ bn < MAXFILE /\ x = file_addr v d bn.

Lemma wrote_refl sb v d lo src : file_map sb v d -> wrote sb v v d d lo lo src.
Proof.
  intros F. constructor; try done; [by destruct d|..].
  - intros x Hx. by rewrite decide_False by lia.
  - intros bn Hb [?|?]; [done|lia].
  - auto.
Qed.

Lemma wrote_ext sb v0 v v' d0 d lo hi src :
  (forall x, v x = v' x) -> wrote sb v0 v d0 d lo hi src -> wrote sb v0 v' d0 d lo hi src.
Proof.
  intros E W. pose proof (fun bn => file_addr_ext v v' d bn E) as Ea. constructor; try apply W.
  - by eapply file_map_ext, W.
  - intros x Hx. rewrite <- (file_byte_ext v v') by done. by apply (wr_byte _ _ _ _ _ _ _ _ W).
  - intros bn. rewrite Ea. apply W.
  - intros x. rewrite <- E. apply W.
  - intros x. rewrite <- E. apply W.
  - intros a Ha. eapply (wr_fresh _ _ _ _ _ _ _ _ W), in_file_ext, Ha. done.
Qed.

(** One turn: [bmap] extends the map, then bytes are stored in the block. *)
Lemma wrote_turn sb v0 v v1 d0 d d1 lo hi m src :
  0 < bm sb -> 0 <= lo <= hi -> 0 < m <= BSIZE - hi mod BSIZE -> hi + m <= MAXFILE * BSIZE ->
  (forall x, wf_block (v1 x)) -> hi - lo + m <= Z.of_nat (length src) ->
  wrote sb v0 v d0 d lo hi src -> extended sb v v1 d d1 -> file_addr v1 d1 (hi / BSIZE) <> 0 ->
  wrote sb v0 (upd_view (file_addr v1 d1 (hi / BSIZE))
                (splice (Z.to_nat (hi mod BSIZE)) (sub_bytes (Z.to_nat (hi - lo)) (Z.to_nat m) src)
                   (v1 (file_addr v1 d1 (hi / BSIZE)))) v1) d0 d1 lo (hi + m) src.
Proof.
  intros Hbm Hlo Hm Hmax Hw Hsrc W X Ha. set (bn := hi / BSIZE) in *. set (a := file_addr v1 d1 bn) in *.
  set (bytes := sub_bytes _ _ src). pose proof (Z.mod_pos_bound hi BSIZE ltac:(klia)) as Hmod.
  pose proof (Z.div_mod hi BSIZE ltac:(klia)) as Hdm.
  assert (Hbn : 0 <= bn < MAXFILE) by (split; [apply Z.div_pos; klia|apply Z.div_lt_upper_bound; klia]).
  assert (Hlen : length bytes = Z.to_nat m) by (apply length_sub_bytes; lia).
  assert (Hl : (Z.to_nat (hi mod BSIZE) + length bytes <= Z.to_nat BSIZE)%nat) by (rewrite Hlen; klia).
  pose proof (ex_map _ _ _ _ _ X) as F1. pose proof (wr_map _ _ _ _ _ _ _ _ W) as F.
  assert (Hin : in_file v1 d1 a) by (by apply in_file_addr).
  destruct (fo_data _ _ _ F1 a Hin) as [Har Hau].
  assert (Hau0 : forall x, used (v0 (bm sb)) x = true -> 0 <= x < sb_size sb -> ~ in_file v0 d0 x -> ~ in_file v1 d1 x).
  { intros x Hx Hxs Hnf Hx1. destruct (ex_fresh _ _ _ _ _ X x Hx1) as [Hx2|Hx2].
    - destruct (wr_fresh _ _ _ _ _ _ _ _ W x Hx2); [done|congruence].
    - rewrite (wr_used _ _ _ _ _ _ _ _ W x) in Hx2 by done. done. }
  constructor.
  - by apply store_map.
  - rewrite (ex_fields _ _ _ _ _ X) at 1. by rewrite (wr_fields _ _ _ _ _ _ _ _ W).
  - intros x Hx. unfold a. rewrite (store_byte sb) by done. fold a. rewrite Hlen.
    rewrite (extended_byte sb v v1 d d1) by done. rewrite (wr_byte _ _ _ _ _ _ _ _ W) by done.
    replace (bn * BSIZE + Z.of_nat (Z.to_nat (hi mod BSIZE))) with hi by lia.
    replace (bn * BSIZE + Z.of_nat (Z.to_nat (hi mod BSIZE) + Z.to_nat m)) with (hi + m) by lia.
    repeat case_decide; try lia; try done. unfold get_byte, bytes. rewrite lookup_sub_bytes by lia.
    do 2 f_equal. lia.
  - intros k Hk Hc. unfold a. rewrite (store_addr sb) by done. destruct (decide (k = bn)) as [->|]; [done|].
    assert (file_addr v d k <> 0).
    { apply (wr_addr _ _ _ _ _ _ _ _ W); [done|]. destruct Hc as [?|(? & ? & ?)]; [by left|right].
      assert (k < bn) by (unfold bn in *; nia). split; [|split; [done|klia]].
      destruct (decide (lo = hi)) as [->|]; [unfold bn in *; lia|lia]. }
    by rewrite (ex_addr _ _ _ _ _ X).
  - intros x Hx Hu Hxb Hnf. assert (x <> a) by (intros ->; by apply (Hau0 a)).
    rewrite upd_view_ne by done. rewrite (ex_view _ _ _ _ _ X); [by apply (wr_view _ _ _ _ _ _ _ _ W)|done|by apply (wr_used _ _ _ _ _ _ _ _ W)|done|].
    intros Hx0 E. apply (Hau0 x); try done. split; [done|by left].
  - intros x Hx Hu. rewrite upd_view_ne by lia. apply (ex_used _ _ _ _ _ X); [done|]. by apply (wr_used _ _ _ _ _ _ _ _ W).
  - intros x Hx. assert (Hx1 : in_file v1 d1 x).
    { destruct Hx as [? [?|(k & ? & E)]]; split; auto. right. exists k. split; [done|].
      unfold a in E. by rewrite (store_addr sb) in E by done. }
    destruct (ex_fresh _ _ _ _ _ X x Hx1) as [Hx2|Hx2]; [by apply W|]. right.
    destruct (used (v0 (bm sb)) x) eqn:E; [|done]. destruct (fo_data _ _ _ F1 x Hx1).
    rewrite (wr_used _ _ _ _ _ _ _ _ W x) in Hx2; [done|lia|done].
Qed.

Lemma logged_grows sb t0 t v d lo hi u :
  logged sb t0 t v d lo hi -> bm sb ∈ u -> 0 <= lo <= hi ->
  grows u (1 + Z.to_nat (span lo (hi - lo))) t0 t.
Proof.
  intros Hl Hu Hlo.
  eapply grows_le; [apply (grows_list _ (direct d NDIRECT :: (file_addr v d <$> seqZ (lo / BSIZE) (span lo (hi - lo)))))|].
  - intros x Hx. destruct (Hl x Hx) as [?|[->|[[-> _]|(bn & Hlh & Hb1 & Hb2 & _ & ->)]]]; [by auto|by auto|set_solver|].
    right; right. apply list_elem_of_further, list_elem_of_fmap_2, elem_of_seqZ.
    split; [done|]. unfold span. replace (lo + (hi - lo)) with hi by lia.
    assert (bn + 1 <= (hi + BSIZE - 1) / BSIZE) by (apply Z.div_le_lower_bound; klia). lia.
  - cbn. rewrite length_fmap, length_seqZ. done.
Qed.

Lemma logged_turn sb t0 t t1 v v1 v2 d d1 lo hi m a :
  logged sb t0 t v d lo hi -> extended sb v v1 d d1 ->
  (forall x, x ∈ t1 -> x ∈ t \/ x = bm sb \/ (x = direct d1 NDIRECT /\ x <> 0) \/ x = file_addr v1 d1 (hi / BSIZE)) ->
  (forall k, file_addr v2 d1 k = file_addr v1 d1 k) ->
  (forall bn, lo < hi -> lo / BSIZE <= bn -> bn * BSIZE < hi -> bn < MAXFILE -> file_addr v d bn <> 0) ->
  a = file_addr v1 d1 (hi / BSIZE) -> 0 <= lo <= hi -> 0 < m -> hi / BSIZE < MAXFILE ->
  logged sb t0 (trans_add a t1) v2 d1 lo (hi + m).
Proof.
  intros Hl X Ht Ha Hn -> Hlo Hm Hmax x. rewrite trans_add_In. intros Hx.
  assert (Hcur : x = file_addr v1 d1 (hi / BSIZE) ->
    exists bn, lo < hi + m /\ lo / BSIZE <= bn /\ bn * BSIZE < hi + m /\ bn < MAXFILE /\ x = file_addr v2 d1 bn).
  { intros ->. exists (hi / BSIZE). rewrite Ha. split_and!; try done; [lia|apply Z.div_le_mono; klia|].
    pose proof (Z.mul_div_le hi BSIZE ltac:(klia)). lia. }
  destruct Hx as [->|Hx]; [by auto|].
  destruct (Ht x Hx) as [Hx1|[->|[?| ->]]]; [|by auto..].
  destruct (Hl x Hx1) as [?|[->|[[-> ?]|(bn & Hlh & Hb1 & Hb2 & Hb3 & ->)]]]; [by auto..| |].
  - right; right; left. split; [|done]. by rewrite (ex_ind _ _ _ _ _ X).
  - right; right; right. exists bn. rewrite Ha, (ex_addr _ _ _ _ _ X); [split_and!; auto; lia| |by apply Hn].
    split; [|done]. pose proof (Z.div_pos lo BSIZE). klia.
Qed.

(** ** [writei] *)

Section Wrote.
Context (sb : superblock) (v0 v : Z -> list Z) (d0 d : dinode) (lo n : Z) (src : list Z).
Context (W : wrote sb v0 v d0 d lo (lo + n) src) (F : file_ok sb v0 d0).
Context (Hlo : 0 <= lo <= di_size d0) (Hn : 0 <= n) (Hmax : lo + n <= MAXFILE * BSIZE).
Local Abbreviation d' := (d_set_size (Z.max (di_size d0) (lo + n)) d).

Lemma wrote_file_ok : file_ok sb v d'.
Proof.
  pose proof (fo_size _ _ _ F) as Hsz. pose proof (wr_map _ _ _ _ _ _ _ _ W) as M.
  constructor; [constructor|cbn; lia|]; try apply M.
  - destruct (fo_wf _ _ _ M) as (?&?&?&?&?&?&?&?&?&?). split_and!; try done; cbn; klia.
  - intros bn Hb. cbn. intros Hlt. change (file_addr v d' bn) with (file_addr v d bn).
    assert (bn < MAXFILE) by klia. apply (wr_addr _ _ _ _ _ _ _ _ W); [done|].
    destruct (Z.lt_ge_cases (bn * BSIZE) (di_size d0)) as [Ho|Ho].
    + left. by apply (fo_full _ _ _ F).
    + right. split_and!; [lia| |lia]. assert (lo / BSIZE < bn + 1); [|lia].
      apply Z.div_lt_upper_bound; klia.
Qed.

Lemma wrote_contents : n <= Z.of_nat (length src) ->
  contents v d' = splice (Z.to_nat lo) (take (Z.to_nat n) src) (contents v0 d0).
Proof.
  intros Hl. pose proof (fo_size _ _ _ F) as Hsz.
  assert (HC : length (contents v0 d0) = Z.to_nat (di_size d0)) by (pose proof (length_contents v0 d0); lia).
  assert (Ht : length (take (Z.to_nat n) src) = Z.to_nat n) by (rewrite length_take; lia).
  apply list_eq. intros k. unfold contents at 1. rewrite list_lookup_fmap. cbn [di_size d_set_size].
  destruct (decide (Z.of_nat k < Z.max (di_size d0) (lo + n))) as [Hk|Hk].
  - rewrite lookup_seqZ_lt by lia. cbn [fmap option_fmap option_map].
    change (file_byte v d' (0 + Z.of_nat k)) with (file_byte v d (0 + Z.of_nat k)).
    rewrite (wr_byte _ _ _ _ _ _ _ _ W) by lia. unfold splice. rewrite lookup_app, length_take, HC.
    rewrite Nat.min_l by lia. destruct (decide (k < Z.to_nat lo)%nat) as [Hkl|Hkl].
    + rewrite decide_False by lia. rewrite lookup_take_lt by done. unfold contents.
      rewrite list_lookup_fmap, lookup_seqZ_lt by lia. done.
    + rewrite lookup_take_ge by lia. rewrite lookup_app, Ht. case_decide.
      * rewrite lookup_take_lt by lia. destruct (lookup_lt_is_Some_2 src (k - Z.to_nat lo)) as [y Hy]; [lia|].
        rewrite Hy. unfold get_byte. replace (Z.to_nat (0 + Z.of_nat k - lo)) with (k - Z.to_nat lo)%nat by lia.
        by rewrite Hy.
      * rewrite lookup_take_ge by lia. rewrite lookup_drop. unfold contents. rewrite list_lookup_fmap.
        rewrite lookup_seqZ_lt by lia. cbn. do 2 f_equal. lia.
  - rewrite lookup_seqZ_ge by lia. cbn. symmetry. apply lookup_ge_None_2. unfold splice.
    rewrite !length_app, length_take, length_drop, HC, Ht. lia.
Qed.

Lemma wrote_size : (if (0 <? n) && (di_size d0 <? lo + n) then d_set_size (lo + n) d else d) = d'.
Proof.
  rewrite (wr_fields _ _ _ _ _ _ _ _ W). unfold d_set_size. cbn.
  destruct (Z.ltb_spec 0 n), (Z.ltb_spec (di_size d0) (lo + n)); cbn; f_equal; lia.
Qed.
End Wrote.

(** ** Free space *)

(** The blocks up to the bitmap are in use, and [n] data blocks are free. *)
Definition avail (sb : superblock) (v : Z -> list Z) (n : nat) : Prop :=
  bm sb < sb_size sb /\ (forall x, 0 <= x <= bm sb -> used (v (bm sb)) x = true) /\
  exists F : gset Z, (n <= size F)%nat /\ forall x, x ∈ F -> free_block sb v x.

Lemma avail_le sb v n m : avail sb v n -> (m <= n)%nat -> avail sb v m.
Proof. intros (Hs & Hu & F & HF & Hx) Hm. split_and!; try done. exists F. split; [lia|done]. Qed.

Lemma avail_ext sb v v' n : v (bm sb) = v' (bm sb) -> avail sb v n -> avail sb v' n.
Proof. unfold avail, free_block. by intros ->. Qed.

Lemma avail_first sb v n :
  fs_geometry v sb -> avail sb v (S n) -> exists b, first_free sb v b /\ free_block sb v b.
Proof.
  intros G (Hs & Hlow & F & HF & Hfree). pose proof (g_size _ _ G). pose proof (bm_range _ _ G) as Hbm.
  destruct (size_pos_elem_of F) as [x Hx]; [lia|]. destruct (Hfree x Hx) as [Hxr Hxu].
  destruct (balloc_bit_Ok (v (bm sb)) (sb_size sb) BPB 0) as [B1 B2]; [klia..|].
  destruct (balloc_bit _ 0 (sb_size sb) (seqZ 0 BPB)) as [b|].
  - destruct (B1 b eq_refl) as (Hb & Hbs & Hbf & Hbl). exists b.
    assert (bm sb < b). { destruct (Z.lt_ge_cases (bm sb) b); [done|]. rewrite Hlow in Hbf by lia. done. }
    assert (b <= x). { destruct (Z.le_gt_cases b x); [done|]. rewrite Hbl in Hxu by lia. done. }
    split; [split_and!; try done; lia|split; [lia|done]].
  - rewrite (B2 eq_refl x) in Hxu by klia. done.
Qed.

Lemma avail_alloc sb v b n :
  fs_geometry v sb -> (forall x, wf_block (v x)) -> free_block sb v b -> avail sb v (S n) ->
  avail sb (alloc_view sb b v) n.
Proof.
  intros G Hw Hb (Hs & Hlow & F & HF & Hfree). pose proof (bm_range _ _ G). pose proof (proj1 Hb) as Hbr.
  pose proof (ext_range sb v b G Hb) as (? & ? & ? & ? & ? & ?). split; [done|split].
  - intros x Hx. rewrite (alloc_view_used sb v b G Hw Hb) by lia. case_decide; [done|]. by apply Hlow.
  - exists (F ∖ {[b]}). split.
    + pose proof (size_difference_alt F {[b]}).
      pose proof (subseteq_size (F ∩ {[b]}) {[b]} ltac:(set_solver)) as Hc. rewrite size_singleton in Hc. lia.
    + intros x [Hx Hne]%elem_of_difference. destruct (Hfree x Hx) as [Hr Hu]. split; [done|].
      rewrite (alloc_view_used sb v b G Hw Hb) by lia. rewrite decide_False by set_solver. done.
Qed.

Section WriteProofs.
Context {L : Type} {HO : BlockOps L} {HV : BlockView L} {HL : BlockLayer L}.
Implicit Types (s : fsst L) (l : L).

Lemma balloc_avail l sb u k n :
  bl_inv l -> fs_geometry (bl_view l) sb -> 1 <= bl_outstanding l -> budget l u (S k) -> bm sb ∈ u ->
  bl_unlocked l 1 -> bl_unlocked l (bm sb) -> (forall b, free_block sb (bl_view l) b -> bl_unlocked l b) ->
  avail sb (bl_view l) (S n) ->
  exists b l', balloc ROOTDEV l = Ok b l' /\ free_block sb (bl_view l) b /\
    bl_eff l l' (alloc_view sb b (bl_view l)) (alloc_trans sb b (bl_trans l)) /\
    avail sb (bl_view l') n /\ budget l' u k.
Proof.
  intros Hi G Ho Hk Hu U1 Um Uf Ha.
  destruct (avail_first _ _ _ G Ha) as (b & Hff & Hfb).
  pose proof (ext_range sb _ b G Hfb) as (? & ? & ? & ? & ? & ?).
  destruct (balloc_Ok l sb b u k) as (l' & R & E); auto. exists b, l'. split_and!; try done.
  - eapply avail_ext; [|apply avail_alloc; try done; intros; by apply bl_wf]. symmetry. apply E.
  - eapply (eff_budget l l' _ _ _ k 1); [done| |by apply grows_alloc]. by rewrite Nat.add_1_r.
Qed.

(** Ready to write to the file behind a cached inode: in a transaction, with no
    buffer locked, [n] free blocks and a budget of [k] blocks. *)
Record wready (sb : superblock) (s : fsst L) (ip : nat) (i : inode) (u : gset Z) (n k : nat) : Prop := {
  wt_att :> attached sb s ip i;
  wt_geo : fs_geometry (bl_view (low s)) sb;
  wt_out : 1 <= bl_outstanding (low s);
  wt_avail : avail sb (bl_view (low s)) n;
  wt_budget : budget (low s) u k;
  wt_bm : bm sb ∈ u;
  wt_free : forall x, bl_unlocked (low s) x
}.

(** What [bmap] leaves: the map extended at [bn], the blocks it logged. *)
Record mapped (sb : superblock) (s : fsst L) (l : L) (d d' : dinode) (bn : Z) (n : nat) : Prop := {
  mp_ext : extended sb (bl_view (low s)) (bl_view l) d d';
  mp_addr : file_addr (bl_view l) d' bn <> 0;
  mp_eff : bl_eff (low s) l (bl_view l) (bl_trans l);
  mp_trans : forall x, x ∈ bl_trans l ->
    x ∈ bl_trans (low s) \/ x = bm sb \/ (x = direct d' NDIRECT /\ x <> 0) \/ x = file_addr (bl_view l) d' bn;
  mp_avail : avail sb (bl_view l) n
}.

Lemma eff_self l l' v t : bl_eff l l' v t -> bl_eff l l' (bl_view l') (bl_trans l').
Proof. intros [I H V T O C]. by constructor. Qed.

Lemma bmap_entry_Ok sb s ip i u n k bn :
  wready sb s ip i u (S n) (3 + k) -> NDIRECT <= bn < MAXFILE -> direct (i_d i) NDIRECT <> 0 ->
  get_word (bl_view (low s) (direct (i_d i) NDIRECT)) (bn - NDIRECT) = 0 ->
  exists l, bmap_entry ROOTDEV (direct (i_d i) NDIRECT) (bn - NDIRECT) s =
      Ok (file_addr (bl_view l) (i_d i) bn) (set_low l s) /\
    mapped sb s l (i_d i) (i_d i) bn n.
Proof.
  intros W Hbn HI H0. set (I := direct (i_d i) NDIRECT) in *. pose proof (wt_geo _ _ _ _ _ _ _ W) as G.
  assert (Hin : in_file (bl_view (low s)) (i_d i) I) by (split; [done|by left]).
  destruct (fo_data _ _ _ (rd_map _ _ _ _ W) I Hin) as [HIr HIu].
  pose proof (bm_range _ _ G) as Hbm.
  destruct (bread_rule (low s) I u (2 + k)) as (bp & l1 & R1 & O1 & B1);
    [apply W|lia|apply (wt_free _ _ _ _ _ _ _ W)|apply (wt_budget _ _ _ _ _ _ _ W)|].
  assert (HIb : forall b, free_block sb (bl_view (low s)) b -> b <> I).
  { intros b [_ Hb] ->. congruence. }
  assert (U : forall x, x <> I -> bl_unlocked l1 x).
  { intros x Hx. eapply open_unlocked; [done|apply (wt_free _ _ _ _ _ _ _ W)|done]. }
  assert (V1 : forall x, bl_view l1 x = bl_view (low s) x) by apply O1.
  destruct (balloc_avail l1 sb u (1 + k) n) as (b & l2 & R2 & Hfb & E2 & A2 & B2); try done.
  { apply O1. } { constructor; rewrite ?V1; apply G. } { rewrite (op_outstanding _ _ _ _ _ _ O1). apply W. }
  { apply W. } { apply U. lia. } { apply U. lia. }
  { intros b Hb. apply U, HIb. unfold free_block in *. by rewrite <- V1. }
  { eapply avail_ext; [|apply W]. by rewrite V1. }
  unfold free_block in Hfb. rewrite V1 in Hfb. change (free_block sb (bl_view (low s)) b) in Hfb.
  pose proof (open_eff _ _ _ _ _ _ _ _ _ O1 E2) as O2.
  assert (V2 : forall x, alloc_view sb b (bl_view l1) x = alloc_view sb b (bl_view (low s)) x).
  { intros x. unfold alloc_view, upd_view. by rewrite !V1. }
  assert (VI : alloc_view sb b (bl_view l1) I = bl_view (low s) I).
  { rewrite V2. apply alloc_view_same; [done|done|lia]. }
  destruct (log_rule _ _ _ _ _ _ (put_word (bl_view (low s) I) (bn - NDIRECT) b) u (1 + k) O2)
    as (l3 & l4 & R3 & R4 & O4).
  { apply wf_put_word; [by apply bl_wf, W|klia]. } { apply W. } { done. }
  destruct (brelse_rule _ _ _ _ _ _ O4) as (l5 & R5 & E5). exists l5.
  destruct (extend_indirect sb (bl_view (low s)) (i_d i) b G) with (bn := bn) as [X Ha]; try done.
  { intros x. by apply bl_wf, W. } { apply W. }
  fold I in X, Ha.
  assert (V5 : forall x, upd_view I (put_word (bl_view (low s) I) (bn - NDIRECT) b)
                (alloc_view sb b (bl_view (low s))) x = bl_view l5 x).
  { intros x. rewrite (ef_view _ _ _ _ E5). unfold upd_view. by rewrite V2. }
  rewrite <- (file_addr_ext _ _ _ _ V5) in Ha. pose proof (ext_range sb _ b G Hfb) as (? & ? & ? & ? & ? & ?).
  split; [|constructor].
  - unfold bmap_entry. low_step R1. pose proof (bdata_rule _ _ _ _ _ _ O1) as D1. low_step D1.
    rewrite H0, Z.eqb_refl. pose proof (bdata_rule _ _ _ _ _ _ O2) as D2. rewrite VI in D2.
    erewrite (bind_Ok _ _ _ b); [|low_step R2; low_step D2; low_step R3; low_step R4; reflexivity].
    cbn [set_low]. low_step R5. by rewrite Ha.
  - by eapply extended_ext.
  - by rewrite Ha.
  - by eapply eff_self.
  - intros x. rewrite (ef_trans _ _ _ _ E5), (op_trans _ _ _ _ _ _ O1). unfold alloc_trans.
    rewrite !trans_add_In, Ha. fold I. intros [->|?]; tauto.
  - eapply avail_ext; [|exact A2]. rewrite (ef_view _ _ _ _ E5), upd_view_ne by lia. exact (ef_view _ _ _ _ E2 (bm sb)).
Qed.

(** The state after [bmap]: the block layer and the cached inode change. *)
Definition after (s : fsst L) (ip : nat) (i : inode) (d : dinode) (l : L) : fsst L :=
  set_icache (<[ip := i_set_d d i]> (icache s)) (set_low l s).

Lemma after_same s ip i l : icache s !! ip = Some i -> after s ip i (i_d i) l = set_low l s.
Proof.
  intros Hi. unfold after, set_icache, set_low. cbn. rewrite list_insert_id; [done|]. by destruct i.
Qed.

Lemma after_after s ip i d l d' l' : after (after s ip i d l) ip (i_set_d d i) d' l' = after s ip i d' l'.
Proof. unfold after, set_icache, set_low. cbn. by rewrite list_insert_insert_eq. Qed.

Lemma geometry_ext sb v v' d d' :
  fs_geometry v sb -> avail sb v 0 -> extended sb v v' d d' -> fs_geometry v' sb.
Proof.
  intros G (Hs & Hlow & _) X. pose proof (bm_range _ _ G). constructor; try apply G.
  rewrite (ex_view _ _ _ _ _ X 1); [apply G|lia|apply Hlow; lia|lia|]. intros _ E.
  destruct (fo_data _ _ _ (ex_map _ _ _ _ _ X) 1); [|lia]. split; [lia|by left].
Qed.

Lemma geometry_wrote sb v0 v d0 d lo hi src :
  fs_geometry v0 sb -> avail sb v0 0 -> file_map sb v0 d0 -> wrote sb v0 v d0 d lo hi src ->
  fs_geometry v sb.
Proof.
  intros G (Hs & Hlow & _) F W. pose proof (bm_range _ _ G). constructor; try apply G.
  rewrite (wr_view _ _ _ _ _ _ _ _ W 1); [apply G|lia|apply Hlow; lia|lia|]. intros E.
  destruct (fo_data _ _ _ F 1 E). lia.
Qed.

Lemma wready_ext sb s ip i u n k l d' n' k' :
  wready sb s ip i u n k -> extended sb (bl_view (low s)) (bl_view l) (i_d i) d' ->
  bl_eff (low s) l (bl_view l) (bl_trans l) -> avail sb (bl_view l) n' -> budget l u k' ->
  wready sb (after s ip i d' l) ip (i_set_d d' i) u n' k'.
Proof.
  intros W X E A B. pose proof (rd_inode _ _ _ _ W) as Hi. constructor; cbn; try done.
  - constructor; cbn; try apply W; [apply E| |apply X|].
    + apply list_lookup_insert_eq. by eapply lookup_lt_Some.
    + intros a _. eapply eff_unlocked; [done|apply (wt_free _ _ _ _ _ _ _ W)].
  - eapply geometry_ext; [apply W|eapply avail_le; [apply W|lia]|done].
  - rewrite (ef_outstanding _ _ _ _ E). apply W.
  - apply W.
  - intros x. eapply eff_unlocked; [done|apply (wt_free _ _ _ _ _ _ _ W)].
Qed.

Lemma balloc_ready sb s ip i u n k :
  wready sb s ip i u (S n) (S k) ->
  exists b l, balloc ROOTDEV (low s) = Ok b l /\ free_block sb (bl_view (low s)) b /\
    (forall x, alloc_view sb b (bl_view (low s)) x = bl_view l x) /\
    bl_eff (low s) l (bl_view l) (bl_trans l) /\ bl_trans l = alloc_trans sb b (bl_trans (low s)) /\
    avail sb (bl_view l) n /\ budget l u k.
Proof.
  intros W. pose proof (wt_free _ _ _ _ _ _ _ W) as U.
  destruct (balloc_avail (low s) sb u k n) as (b & l & R & Hfb & E & A & B); try apply U; try apply W; auto.
  exists b, l. split_and!; try done; [|by eapply eff_self|apply E].
  intros x. symmetry. apply E.
Qed.

Lemma bmap_direct_Ok sb s ip i u n k bn :
  wready sb s ip i u (S n) (S k) -> 0 <= bn < NDIRECT -> direct (i_d i) bn = 0 ->
  exists l d', bmap ip bn s = Ok (file_addr (bl_view l) d' bn) (after s ip i d' l) /\
    mapped sb s l (i_d i) d' bn n.
Proof.
  intros W Hbn H0. pose proof (rd_inode _ _ _ _ W) as Hi. pose proof (wt_geo _ _ _ _ _ _ _ W) as G.
  destruct (balloc_ready _ _ _ _ _ _ _ W) as (b & l & R & Hfb & V & E & T & A & _).
  destruct (extend_direct sb _ (i_d i) b G ltac:(intros; by apply bl_wf, W) (rd_map _ _ _ _ W) Hfb bn)
    as [X Ha]; [lia|done|].
  exists l, (d_set_addr (Z.to_nat bn) b (i_d i)). rewrite <- (file_addr_ext _ _ _ _ V) in Ha.
  pose proof (ext_range sb _ b G Hfb) as (? & ? & ? & ? & ? & ?). rewrite Ha. split; [|constructor].
  - unfold bmap. inode_step Hi. rewrite (rd_dev _ _ _ _ W), (proj2 (Z.ltb_lt bn NDIRECT)) by lia.
    unfold i_addrs. rewrite direct_lookup by (apply W || klia). cbn [of_option].
    erewrite bind_Ok by reflexivity. cbv beta. rewrite H0, Z.eqb_refl. low_step R.
    erewrite bind_Ok by (apply upd_inode_Ok; cbn; exact Hi). done.
  - by eapply extended_ext.
  - by rewrite Ha.
  - done.
  - intros x. rewrite T, Ha. unfold alloc_trans. rewrite !trans_add_In. tauto.
  - done.
Qed.

(** A hole behind the indirect block, which may itself be missing. *)
Lemma bmap_indirect_Ok sb s ip i u n k bn :
  wready sb s ip i u (2 + n) (4 + k) -> NDIRECT <= bn < MAXFILE ->
  file_addr (bl_view (low s)) (i_d i) bn = 0 ->
  exists l d', bmap ip bn s = Ok (file_addr (bl_view l) d' bn) (after s ip i d' l) /\
    mapped sb s l (i_d i) d' bn n.
Proof.
  intros W Hbn H0. pose proof (rd_inode _ _ _ _ W) as Hi. pose proof (wt_geo _ _ _ _ _ _ _ W) as G.
  pose proof (bm_range _ _ G) as Hbm. unfold bmap. inode_step Hi. rewrite (rd_dev _ _ _ _ W).
  rewrite (proj2 (Z.ltb_ge bn NDIRECT)), (proj2 (Z.ltb_lt (bn - NDIRECT) NINDIRECT)) by klia.
  unfold i_addrs. rewrite direct_lookup by (apply W || klia). cbn [of_option].
  erewrite bind_Ok by reflexivity. cbv beta.
  destruct (decide (direct (i_d i) NDIRECT = 0)) as [HI|HI].
  - destruct (balloc_ready _ _ _ _ _ _ _ W) as (b & l1 & R1 & Hfb & V1 & E1 & T1 & A1 & B1).
    destruct (extend_ind_block sb _ (i_d i) b G ltac:(intros; by apply bl_wf, W) (rd_map _ _ _ _ W) Hfb HI) as (X1 & Hb & Ha1).
    set (d1 := d_set_addr (Z.to_nat NDIRECT) b (i_d i)) in *.
    pose proof (extended_ext _ _ _ _ _ _ V1 X1) as X1'.
    pose proof (wready_ext _ _ _ _ _ _ _ _ _ _ _ W X1' E1 A1 B1) as W1.
    pose proof (ext_range sb _ b G Hfb) as (? & ? & ? & ? & ? & ?).
    destruct (bmap_entry_Ok sb _ ip _ u n k bn W1) as (l2 & R2 & [X2 Ha2 E2 T2 A2]); [done|..].
    { cbn. by rewrite Hb. }
    { cbn. rewrite Hb, <- V1, alloc_self. apply get_word_zero. }
    cbn in R2, X2, Ha2, E2, T2. rewrite Hb in R2, T2. exists l2, d1. split; [|constructor; try done].
    + rewrite HI, Z.eqb_refl. erewrite bind_Ok; [|low_step R1;
        erewrite bind_Ok by (apply upd_inode_Ok; cbn; exact Hi); reflexivity]. exact R2.
    + eapply extended_trans; [lia|exact X1'|exact X2|auto|].
      intros x Hx Hz Hn. rewrite (file_addr_ext _ _ _ _ V1), Ha1 in Hn by done. done.
    + eapply eff_trans; done.
    + intros x Hx. apply T2 in Hx. rewrite T1 in Hx. unfold alloc_trans in Hx. rewrite !trans_add_In in Hx.
      rewrite Hb. destruct Hx as [[->|?]|?]; tauto.
  - destruct (bmap_entry_Ok sb s ip i u n k bn) as (l & R & Mp); [|done|done| |].
    { constructor; try apply W; [eapply avail_le|eapply budget_le]; try apply W; lia. }
    { unfold file_addr in H0. rewrite (proj2 (Z.ltb_ge bn NDIRECT)), (proj2 (Z.eqb_neq _ _) HI) in H0 by lia. done. }
    exists l, (i_d i). split; [|done]. rewrite (proj2 (Z.eqb_neq _ _) HI), after_same by done. exact R.
Qed.

Lemma bmap_Ok sb s ip i u n k bn :
  wready sb s ip i u (2 + n) (4 + k) -> 0 <= bn < MAXFILE ->
  exists l d', bmap ip bn s = Ok (file_addr (bl_view l) d' bn) (after s ip i d' l) /\
    mapped sb s l (i_d i) d' bn n.
Proof.
  intros W Hbn. destruct (decide (file_addr (bl_view (low s)) (i_d i) bn = 0)) as [H0|Hne].
  - destruct (Z.lt_ge_cases bn NDIRECT) as [Hd|Hd]; [|eapply bmap_indirect_Ok; [done|lia|done]].
    apply (bmap_direct_Ok sb s ip i u n (3 + k)); [|lia|].
    + constructor; try apply W. eapply avail_le; [apply W|lia].
    + unfold file_addr in H0. by rewrite (proj2 (Z.ltb_lt bn NDIRECT)) in H0.
  - destruct (bmap_mapped sb s ip i bn u (3 + k) W (wt_budget _ _ _ _ _ _ _ W) Hbn Hne) as (l & R & E).
    assert (V : forall x, bl_view (low s) x = bl_view l x) by (intros; symmetry; apply E).
    exists l, (i_d i). rewrite after_same by apply W. rewrite (file_addr_ext _ _ _ _ V). split; [done|].
    constructor.
    + eapply extended_ext; [done|]. apply extended_refl, W.
    + by rewrite (file_addr_ext _ _ _ _ V).
    + by eapply eff_self.
    + rewrite (ef_trans _ _ _ _ E). auto.
    + eapply avail_ext; [apply V|]. eapply avail_le; [apply W|lia].
Qed.

(** The free blocks the loop may still need, and those left after it. *)
Context (r : nat).
Definition todo (lo n tot : Z) : nat :=
  (r + if decide (tot < n)%Z then 2 * Z.to_nat (span (lo + tot) (n - tot)) else 0)%nat.

Lemma todo_step lo n tot (m := Z.min (n - tot) (BSIZE - (lo + tot) mod BSIZE)) :
  0 <= lo -> 0 <= tot < n -> (2 + todo lo n (tot + m) <= todo lo n tot)%nat.
Proof.
  intros Hlo Ht. unfold todo. pose proof (Z.mod_pos_bound (lo + tot) BSIZE ltac:(klia)).
  pose proof (span_pos (lo + tot) (n - tot) ltac:(lia) ltac:(lia)). rewrite (decide_True (P := tot < n)) by lia.
  case_decide; [|lia]. assert (m = BSIZE - (lo + tot) mod BSIZE) as -> by lia.
  pose proof (span_step (lo + tot) (n - tot) ltac:(lia) ltac:(lia)) as E.
  rewrite Z.add_assoc, Z.sub_add_distr, E. lia.
Qed.

(** The invariant of the loop of [writei], [tot] bytes of [n] being written. *)
Record winv (sb : superblock) (s0 : fsst L) (i0 : inode) (lo n : Z) (src : list Z)
    (tot : Z) (d : dinode) (l : L) : Prop := {
  wi_wrote : wrote sb (bl_view (low s0)) (bl_view l) (i_d i0) d lo (lo + tot) src;
  wi_log : logged sb (bl_trans (low s0)) (bl_trans l) (bl_view l) d lo (lo + tot);
  wi_eff : bl_eff (low s0) l (bl_view l) (bl_trans l);
  wi_geo : fs_geometry (bl_view l) sb;
  wi_avail : avail sb (bl_view l) (todo lo n tot)
}.

Lemma span_le lo tot n : 0 <= lo -> 0 <= tot <= n -> span lo tot <= span lo n.
Proof. intros. unfold span. pose proof (Z.div_le_mono (lo + tot + BSIZE - 1) (lo + n + BSIZE - 1) BSIZE). klia. Qed.

Lemma winv_ready sb s0 ip i0 lo n src u k tot d l n1 :
  wready sb s0 ip i0 u n1 (1 + Z.to_nat (span lo n) + k) -> 0 <= lo -> 0 <= tot <= n ->
  winv sb s0 i0 lo n src tot d l ->
  wready sb (after s0 ip i0 d l) ip (i_set_d d i0) u (todo lo n tot) k.
Proof.
  intros W Hlo Ht [Hw Hl E G A]. pose proof (rd_inode _ _ _ _ W) as Hi.
  pose proof (wt_free _ _ _ _ _ _ _ W) as U. constructor; cbn; try done.
  - constructor; cbn; try apply W; [apply E| |apply Hw|intros a _; by eapply eff_unlocked].
    apply list_lookup_insert_eq. by eapply lookup_lt_Some.
  - rewrite (ef_outstanding _ _ _ _ E). apply W.
  - pose proof (span_le lo tot n Hlo Ht).
    eapply (eff_budget _ _ _ _ _ k (1 + Z.to_nat (span lo n))); [exact E| |].
    + eapply budget_le; [apply W|lia].
    + eapply grows_le; [apply (logged_grows _ _ _ _ _ _ _ _ Hl); [apply W|lia]|].
      replace (lo + tot - lo) with tot by lia. lia.
  - apply W.
  - intros x. by eapply eff_unlocked.
Qed.

Lemma slice_Ok {S} buf off m (s : S) :
  0 <= off -> 0 <= m -> off + m <= Z.of_nat (length buf) ->
  slice buf off m s = Ok (sub_bytes (Z.to_nat off) (Z.to_nat m) buf) s.
Proof.
  intros. unfold slice. rewrite length_sub_bytes by lia. rewrite Z2Nat.id, Z.eqb_refl by done. done.
Qed.

(** One turn of the loop, from the invariant to the invariant. *)
Lemma writei_turn sb s0 ip i0 lo n src u n1 tot d l (m := Z.min (n - tot) (BSIZE - (lo + tot) mod BSIZE)) :
  wready sb s0 ip i0 u n1 (1 + Z.to_nat (span lo n) + 4) -> 0 <= lo -> 0 <= tot < n ->
  lo + n <= MAXFILE * BSIZE -> n <= Z.of_nat (length src) -> Forall is_u8 src ->
  winv sb s0 i0 lo n src tot d l ->
  exists l1 d1 bp l2 l3 l4 l5 (a := file_addr (bl_view l1) d1 ((lo + tot) / BSIZE)),
    bmap ip ((lo + tot) / BSIZE) (after s0 ip i0 d l) = Ok a (after s0 ip i0 d1 l1) /\
    bread ROOTDEV a l1 = Ok bp l2 /\ bdata bp l2 = Ok (bl_view l1 a) l2 /\
    bset bp (splice (Z.to_nat ((lo + tot) mod BSIZE)) (sub_bytes (Z.to_nat tot) (Z.to_nat m) src)
               (bl_view l1 a)) l2 = Ok tt l3 /\
    log_write bp l3 = Ok tt l4 /\ brelse bp l4 = Ok tt l5 /\
    winv sb s0 i0 lo n src (tot + m) d1 l5.
Proof.
  intros W Hlo Ht Hmax Hsrc Hu8 Inv. set (hi := lo + tot) in *. assert (Hhi : hi = lo + tot) by done.
  pose proof (Z.mod_pos_bound hi BSIZE ltac:(klia)) as Hmod.
  assert (Ht' : 0 <= tot <= n) by lia.
  pose proof (winv_ready _ _ _ _ _ _ _ _ _ _ _ _ _ W Hlo Ht' Inv) as Wr.
  destruct Inv as [Hw Hl E G A]. fold hi in Hw, Hl.
  assert (Wr' : wready sb (after s0 ip i0 d l) ip (i_set_d d i0) u (2 + todo lo n (tot + m)) 4).
  { constructor; try apply Wr. eapply avail_le; [apply Wr|]. by apply todo_step. }
  assert (Hbn : 0 <= hi / BSIZE < MAXFILE) by (split; [apply Z.div_pos; klia|apply Z.div_lt_upper_bound; klia]).
  destruct (bmap_Ok sb _ ip _ u (todo lo n (tot + m)) 0 (hi / BSIZE) Wr' Hbn)
    as (l1 & d1 & R1 & [X Ha E1 T1 A1]).
  rewrite after_after in R1. cbn in X, Ha, E1, T1.
  pose proof (eff_trans _ _ _ _ _ _ _ E E1) as E01. pose proof (ex_map _ _ _ _ _ X) as F1.
  set (a := file_addr (bl_view l1) d1 (hi / BSIZE)) in *.
  destruct (fo_data _ _ _ F1 a) as [Har _]; [by apply in_file_addr|]. pose proof (rd_bm _ _ _ _ W) as Hbm.
  assert (B1 : budget l1 u 2).
  { eapply (eff_budget _ _ _ _ _ 2 2); [exact E1|apply Wr|]. apply (grows_list _ [direct d1 NDIRECT; a]).
    intros x Hx. destruct (T1 x Hx) as [?|[->|[[-> _]| ->]]]; [by auto|right; left; apply W|set_solver..]. }
  destruct (bread_rule l1 a u 1) as (bp & l2 & R2 & O2 & B2);
    [apply E1|lia|eapply eff_unlocked; [exact E01|apply (wt_free _ _ _ _ _ _ _ W)]|done|].
  assert (Hm : 0 < m <= BSIZE - hi mod BSIZE) by (unfold m; fold hi; lia).
  set (bytes := sub_bytes (Z.to_nat tot) (Z.to_nat m) src).
  assert (Hlen : length bytes = Z.to_nat m) by (apply length_sub_bytes; lia).
  assert (Hwf : wf_block (splice (Z.to_nat (hi mod BSIZE)) bytes (bl_view l1 a))).
  { destruct (bl_wf l1 a (ef_inv _ _ _ _ E1)) as [Hl1 Hu1]. split.
    - rewrite length_splice; [done|]. rewrite Hlen, Hl1. klia.
    - apply splice_u8; [by apply sub_bytes_u8|done]. }
  destruct (log_rule _ _ _ _ _ _ _ u 1 O2 Hwf) as (l3 & l4 & R3 & R4 & O4);
    [rewrite (ef_outstanding _ _ _ _ E01); apply W|done|].
  destruct (brelse_rule _ _ _ _ _ _ O4) as (l5 & R5 & E5).
  exists l1, d1, bp, l2, l3, l4, l5. split_and!; try done.
  { by apply (bdata_rule _ _ _ _ _ _ O2). }
  pose proof (wrote_turn sb _ _ (bl_view l1) _ _ d1 lo hi m src Hbm ltac:(lia) Hm ltac:(lia)
                ltac:(intros; by apply bl_wf, E1) ltac:(lia) Hw X Ha) as Hw5.
  replace (hi - lo) with tot in Hw5 by lia. fold a bytes in Hw5.
  assert (V5 : forall x, upd_view a (splice (Z.to_nat (hi mod BSIZE)) bytes (bl_view l1 a)) (bl_view l1) x = bl_view l5 x).
  { intros x. symmetry. apply E5. }
  constructor; rewrite ?Z.add_assoc; fold hi.
  - by eapply wrote_ext.
  - rewrite (ef_trans _ _ _ _ E5). eapply logged_turn; try done; try lia.
    + intros j. rewrite <- (store_addr sb (bl_view l1) d1 (hi / BSIZE)
        (Z.to_nat (hi mod BSIZE)) bytes F1 Hbn Ha). apply file_addr_ext. done.
    + intros k ? ? ? ?. apply (wr_addr _ _ _ _ _ _ _ _ Hw); [|auto].
      split; [pose proof (Z.div_pos lo BSIZE); klia|done].
  - eapply eff_trans; [exact E01|]. by eapply eff_self.
  - eapply geometry_wrote; [apply W|eapply avail_le; [apply W|lia]|apply W|]. by eapply wrote_ext.
  - eapply avail_ext; [|exact A1]. rewrite <- V5. rewrite upd_view_ne by lia. done.
Qed.

Lemma writei_loop_Ok sb s0 ip i0 lo n src u n1 fuel : forall tot d l,
  wready sb s0 ip i0 u n1 (1 + Z.to_nat (span lo n) + 4) -> 0 <= lo -> 0 <= tot <= n ->
  lo + n <= MAXFILE * BSIZE -> n <= Z.of_nat (length src) -> Forall is_u8 src ->
  winv sb s0 i0 lo n src tot d l -> (tot < n -> span (lo + tot) (n - tot) <= Z.of_nat fuel) ->
  exists d' l', writei_loop fuel ip src tot (lo + tot) n (after s0 ip i0 d l) =
      Ok (lo + n) (after s0 ip i0 d' l') /\ winv sb s0 i0 lo n src n d' l'.
Proof.
  induction fuel as [|fuel IH]; intros tot d l W Hlo Ht Hmax Hsrc Hu8 Inv Hf; cbn [writei_loop];
    destruct (Z.leb_spec n tot) as [Hle|Hgt];
    try (exists d, l; replace tot with n in * by lia; done).
  { specialize (Hf Hgt). pose proof (span_pos (lo + tot) (n - tot)). lia. }
  destruct (writei_turn sb s0 ip i0 lo n src u n1 tot d l) as (l1 & d1 & bp & l2 & l3 & l4 & l5 & R1 & R2 & D2 & R3 & R4 & R5 & Inv5);
    try done; [lia|].
  set (m := Z.min (n - tot) (BSIZE - (lo + tot) mod BSIZE)) in *.
  pose proof (Z.mod_pos_bound (lo + tot) BSIZE ltac:(klia)) as Hmod.
  destruct (IH (tot + m) d1 l5) as (d' & l' & R & Inv'); try done; [lia| |].
  { intros Hlt. specialize (Hf Hgt). assert (m = BSIZE - (lo + tot) mod BSIZE) as -> by lia.
    rewrite Z.add_assoc, Z.sub_add_distr, span_step by lia. lia. }
  exists d', l'. split; [|done].
  assert (Hi : icache (after s0 ip i0 d l) !! ip = Some (i_set_d d i0)).
  { apply list_lookup_insert_eq. eapply lookup_lt_Some, W. }
  inode_step Hi. rewrite (bind_Ok _ _ _ _ _ R1). cbn [i_dev i_set_d]. rewrite (rd_dev _ _ _ _ W).
  low_step R2. erewrite bind_Ok by (apply slice_Ok; lia). cbv beta. low_step D2. low_step R3. low_step R4. low_step R5.
  rewrite !u32_id by klia. rewrite <- Z.add_assoc. exact R.
Qed.

Lemma loop_Ok sb s ip i u src off n :
  wready sb s ip i u (r + 2 * Z.to_nat (span off n)) (5 + Z.to_nat (span off n)) ->
  0 <= off -> 0 <= n <= Z.of_nat (length src) -> off + n <= MAXFILE * BSIZE -> Forall is_u8 src ->
  exists d l, writei_loop RWFUEL ip src 0 off n s = Ok (off + n) (after s ip i d l) /\
    winv sb s i off n src n d l.
Proof.
  intros W Ho Hn Hm Hs.
  destruct (writei_loop_Ok sb s ip i off n src u (r + 2 * Z.to_nat (span off n)) RWFUEL 0 (i_d i) (low s))
    as (d & l & R & Inv); try lia; try done.
  { constructor; try apply W. eapply budget_le; [apply W|]. lia. }
  { constructor; try apply W.
    - rewrite Z.add_0_r. apply wrote_refl, W.
    - intros x Hx. by left.
    - apply eff_refl, W.
    - eapply avail_le; [apply W|]. unfold todo. case_decide; [|lia]. by rewrite Z.add_0_r, Z.sub_0_r. }
  { intros Hlt. unfold RWFUEL, span. rewrite Z.add_0_r, Z.sub_0_r.
    assert ((off + n + BSIZE - 1) / BSIZE <= MAXFILE) by (apply Z.lt_succ_r, Z.div_lt_upper_bound; klia).
    assert (0 <= off / BSIZE) by (apply Z.div_pos; klia). klia. }
  exists d, l. split; [|done]. rewrite after_same in R by apply W. rewrite Z.add_0_r in R. by destruct s.
Qed.

(** ** Updating the inode on disk *)

Lemma lxor_u32 a b : is_u32 a -> is_u32 b -> is_u32 (Z.lxor a b).
Proof.
  unfold is_u32. intros Ha Hb. assert (0 <= Z.lxor a b) by (apply Z.lxor_nonneg; lia). split; [done|].
  destruct (decide (Z.lxor a b = 0)) as [->|Hn]; [lia|]. apply Z.log2_lt_pow2; [lia|].
  pose proof (Z.log2_lxor a b ltac:(lia) ltac:(lia)).
  assert (forall x, 0 <= x < 2 ^ 32 -> Z.log2 x < 32) as Hlog.
  { intros x Hx. destruct (decide (x = 0)) as [->|]; [done|]. apply Z.log2_lt_pow2; lia. }
  pose proof (Hlog a Ha). pose proof (Hlog b Hb). lia.
Qed.

Lemma checksum_u32 bs : Forall is_u8 bs -> is_u32 (checksum_of bs).
Proof.
  intros Hb. unfold checksum_of, xsum. induction (seqZ _ _) as [|k ks IH]; cbn; [done|].
  apply lxor_u32; [|done]. unfold get_word. set (w := sub_bytes _ _ _).
  pose proof (le_val_bound w ltac:(by apply sub_bytes_u8)).
  assert (length w <= 4)%nat by (unfold w, sub_bytes; rewrite length_take; lia).
  pose proof (Z.pow_le_mono_r 256 (Z.of_nat (length w)) 4). unfold is_u32. lia.
Qed.

Lemma contents_u8 v d : (forall x, wf_block (v x)) -> Forall is_u8 (contents v d).
Proof.
  intros Hw. apply Forall_fmap, Forall_forall. intros x _. cbn. unfold file_byte, get_byte.
  destruct (_ !! _) as [y|] eqn:E; cbn; [|done]. revert E. unfold file_block.
  destruct (_ =? 0); intros E; eapply Forall_lookup_1; [apply wf_zero_block|exact E|apply Hw|exact E].
Qed.

Lemma wf_set_checksum d c : wf_dinode d -> is_u32 c -> wf_dinode (d_set_checksum c d).
Proof. intros (?&?&?&?&?&?&?&?&?&_) Hc. by split_and!. Qed.

Lemma iblock_range v sb inum :
  fs_geometry v sb -> 0 <= inum < sb_ninodes sb -> 2 <= IBLOCK inum < bm sb.
Proof.
  intros G Hn. unfold IBLOCK, bm, BBLOCK. change IPB with 8. change (0 / BPB) with 0.
  pose proof (Z.div_pos inum 8). pose proof (Z.div_le_mono inum (sb_ninodes sb) 8). lia.
Qed.

(** Blocks outside the file do not affect it. *)
Lemma file_addr_other v d x y bn : ~ in_file v d x -> x <> 0 -> file_addr (upd_view x y v) d bn = file_addr v d bn.
Proof.
  intros Hx H0. unfold file_addr. destruct (bn <? NDIRECT); [done|].
  destruct (Z.eqb_spec (direct d NDIRECT) 0); [done|]. rewrite upd_view_ne; [done|].
  intros E. apply Hx. split; [done|by left].
Qed.

Lemma contents_other sb v d x y :
  file_ok sb v d -> ~ in_file v d x -> x <> 0 -> contents (upd_view x y v) d = contents v d.
Proof.
  intros F Hx H0. apply list_fmap_ext. intros k z [-> Hz]%lookup_seqZ.
  unfold file_byte, file_block. rewrite file_addr_other by done.
  destruct (bn_range _ _ _ (0 + Z.of_nat k) F ltac:(lia)) as [Hb Hn].
  rewrite (proj2 (Z.eqb_neq _ _) Hn), upd_view_ne; [done|]. intros E. apply Hx. rewrite <- E.
  by apply in_file_addr.
Qed.

Lemma file_ok_other sb v d x y :
  file_ok sb v d -> ~ in_file v d x -> x <> 0 -> x <> bm sb -> file_ok sb (upd_view x y v) d.
Proof.
  intros F Hx H0 Hbm. pose proof (fun bn => file_addr_other v d x y bn Hx H0) as Ea.
  constructor; [constructor|apply F|]; try apply F.
  - intros a [Ha0 [Ha|(bn & Hb & Ha)]]; unfold data_block; rewrite upd_view_ne by done; apply F; split; auto.
    right. exists bn. by rewrite <- Ea.
  - intros b1 b2. rewrite !Ea. apply F.
  - intros bn. rewrite Ea. apply F.
  - intros bn. rewrite Ea. apply F.
Qed.

Lemma budget_empty l u k : budget l u k -> budget l ∅ k.
Proof.
  unfold budget. intros Hb.
  pose proof (subseteq_size (list_to_set (bl_trans l) ∪ ∅) (list_to_set (bl_trans l) ∪ u : gset Z) ltac:(set_solver)). lia.
Qed.

Context (devsw_read : Z -> option (nat -> Z -> M (fsst L) (Z * list Z))).
Context (devsw_write : Z -> option (nat -> list Z -> Z -> M (fsst L) Z)).

(** [iupdate] stores the inode; then come its replicas. *)
Definition iupdate_replicas (ip : nat) (i : inode) : M (fsst L) unit :=
  (if negb (i_child1 i =? 0)
   then let! ic := iget (i_dev i) (u32 (i_child1 i)) in cupdate devsw_read ip ic else ret tt) ;;;
  let! i := get_inode ip in
  (if negb (i_child2 i =? 0)
   then let! ic := iget (i_dev i) (u32 (i_child2 i)) in cupdate devsw_read ip ic else ret tt).

Lemma iupdate_self sb s ip i u k skip :
  readable sb s ip i -> fs_geometry (bl_view (low s)) sb -> 0 <= i_inum i < sb_ninodes sb ->
  1 <= bl_outstanding (low s) -> budget (low s) u (2 + k) -> bl_unlocked (low s) (IBLOCK (i_inum i)) ->
  exists l (d' := d_set_checksum (checksum_of (contents (bl_view (low s)) (i_d i))) (i_d i)),
    iupdate_ext devsw_read ip skip s =
      (if skip =? 0 then iupdate_replicas ip (i_set_d d' i) else ret tt) (after s ip i d' l) /\
    bl_eff (low s) l (upd_view (IBLOCK (i_inum i)) (put_dinode (bl_view (low s) (IBLOCK (i_inum i))) (i_inum i) d')
                        (bl_view (low s))) (trans_add (IBLOCK (i_inum i)) (bl_trans (low s))).
Proof.
  intros R G Hn Ho Hk Hu. pose proof (rd_inode _ _ _ _ R) as Hi.
  pose proof (iblock_range _ _ _ G Hn) as Hib. set (ib := IBLOCK (i_inum i)) in *. pose proof (bm_range _ _ G).
  destruct (bread_rule (low s) ib u (S k)) as (bp & l1 & R1 & O1 & B1); [apply R|lia|done|done|].
  assert (V1 : forall x, bl_view (low s) x = bl_view l1 x) by (intros; symmetry; apply O1).
  assert (Rd1 : readable sb (set_low l1 s) ip i).
  { constructor; [constructor|apply R|]; cbn; try apply R; [apply O1|..].
    - eapply file_map_ext; [exact V1|apply R].
    - intros a Ha. eapply in_file_ext in Ha; [|exact V1]. eapply open_unlocked; [done|by apply R|].
      destruct (fo_data _ _ _ (rd_map _ _ _ _ R) a Ha). lia.
    - eapply file_ok_ext; [exact V1|apply R]. }
  destruct (ichecksum_Ok devsw_read sb _ ip i u k Rd1 B1) as (l2 & R2 & E2). cbn in R2, E2.
  rewrite <- (contents_ext _ _ _ V1) in R2. set (c := checksum_of _) in *.
  pose proof (open_eff _ _ _ _ _ _ _ _ _ O1 E2) as O2. rewrite (op_trans _ _ _ _ _ _ O1) in O2.
  destruct (log_rule _ _ _ _ _ _ (put_dinode (bl_view (low s) ib) (i_inum i) (d_set_checksum c (i_d i))) u (S k) O2)
    as (l3 & l4 & R3 & R4 & O4).
  { apply wf_put_dinode; [by apply bl_wf, R|lia|]. apply wf_set_checksum; [apply R|].
    apply checksum_u32, contents_u8. intros x. by apply bl_wf, R. } { done. }
  { eapply eff_budget_same; [exact E2|]. exact B1. }
  destruct (brelse_rule _ _ _ _ _ _ O4) as (l5 & R5 & E5).
  exists l5. split.
  - unfold iupdate_ext. inode_step Hi. rewrite (rd_dev _ _ _ _ R). fold ib. low_step R1.
    erewrite bind_Ok by exact R2. cbv beta. erewrite bind_Ok by (apply upd_inode_Ok; cbn; exact Hi). cbv beta.
    assert (Hi2 : <[ip := i_upd_d (d_set_checksum c) i]> (icache s) !! ip = Some (i_upd_d (d_set_checksum c) i)).
    { apply list_lookup_insert_eq. by eapply lookup_lt_Some. }
    inode_step Hi2. pose proof (bdata_rule _ _ _ _ _ _ O2) as D2. rewrite <- V1 in D2. low_step D2.
    low_step R3. low_step R4. low_step R5. done.
  - eapply eff_view; [exact E5|]. intros x. unfold upd_view. case_decide; [done|]. by rewrite V1.
Qed.

Lemma iupdate_Ok sb s ip i u k skip :
  readable sb s ip i -> fs_geometry (bl_view (low s)) sb -> 0 <= i_inum i < sb_ninodes sb ->
  1 <= bl_outstanding (low s) -> budget (low s) u (2 + k) -> bl_unlocked (low s) (IBLOCK (i_inum i)) ->
  i_child1 i = 0 -> i_child2 i = 0 ->
  exists l (d' := d_set_checksum (checksum_of (contents (bl_view (low s)) (i_d i))) (i_d i)),
    iupdate_ext devsw_read ip skip s = Ok tt (after s ip i d' l) /\
    bl_eff (low s) l (upd_view (IBLOCK (i_inum i)) (put_dinode (bl_view (low s) (IBLOCK (i_inum i))) (i_inum i) d')
                        (bl_view (low s))) (trans_add (IBLOCK (i_inum i)) (bl_trans (low s))).
Proof.
  intros R G Hn Ho Hk Hu Hc1 Hc2. destruct (iupdate_self sb s ip i u k skip R G Hn Ho Hk Hu) as (l & Ru & E).
  exists l. split; [|done]. rewrite Ru. destruct (skip =? 0); [|done]. unfold iupdate_replicas.
  change (i_child1 (i_set_d _ i)) with (i_child1 i). rewrite Hc1. erewrite bind_Ok by reflexivity. cbv beta.
  erewrite bind_Ok by (apply get_inode_Ok; apply list_lookup_insert_eq; eapply lookup_lt_Some, R). cbv beta.
  change (i_child2 (i_set_d _ i)) with (i_child2 i). by rewrite Hc2.
Qed.

(** What the write of a plain file needs: the file and its inode on disk, no
    replicas, and the arguments in range. *)
Record plain_write (sb : superblock) (s : fsst L) (ip : nat) (i : inode) (src : list Z) (off n : Z) : Prop := {
  pw_ready : wready sb s ip i {[bm sb; IBLOCK (i_inum i)]} (r + 2 * Z.to_nat (span off n)) (6 + Z.to_nat (span off n));
  pw_file : file_ok sb (bl_view (low s)) (i_d i);
  pw_inum : 0 <= i_inum i < sb_ninodes sb;
  pw_type : i_type i <> T_DEV /\ i_type i <> T_DITTO;
  pw_children : i_child1 i = 0 /\ i_child2 i = 0;
  pw_off : 0 <= off <= i_size i;
  pw_n : 0 <= n <= Z.of_nat (length src);
  pw_max : off + n <= MAXFILE * BSIZE;
  pw_src : Forall is_u8 src
}.

Lemma upd_after s ip i d l f :
  icache s !! ip = Some i ->
  upd_inode ip (i_upd_d f) (after s ip i d l) = Ok tt (after s ip i (f d) l).
Proof.
  intros Hi. erewrite upd_inode_Ok by (apply list_lookup_insert_eq; by eapply lookup_lt_Some).
  unfold after, set_icache, set_low. cbn. by rewrite list_insert_insert_eq.
Qed.

Lemma writei_Ok sb s ip i src off n :
  plain_write sb s ip i src off n ->
  exists d l l' (d1 := d_set_size (Z.max (i_size i) (off + n)) d)
    (d2 := d_set_checksum (checksum_of (contents (bl_view l) d1)) d1),
    writei devsw_read devsw_write ip src off n s = Ok n (after s ip i d2 l') /\
    winv sb s i off n src n d l /\
    bl_eff l l' (upd_view (IBLOCK (i_inum i)) (put_dinode (bl_view l (IBLOCK (i_inum i))) (i_inum i) d2) (bl_view l))
      (trans_add (IBLOCK (i_inum i)) (bl_trans l)).
Proof.
  intros P. pose proof (pw_ready _ _ _ _ _ _ _ P) as W. pose proof (rd_inode _ _ _ _ W) as Hi.
  pose proof P as [_ F Hnum [Ht1 Ht2] [Hc1 Hc2] Ho Hn Hm Hs]. pose proof (fo_size _ _ _ F) as Hsz.
  change (di_size (i_d i)) with (i_size i) in Hsz.
  destruct (loop_Ok sb s ip i {[bm sb; IBLOCK (i_inum i)]} src off n) as (d & l & R & Inv); try done; [|lia|].
  { constructor; try apply W. eapply budget_le; [apply W|]. lia. }
  exists d, l.
  set (d1 := d_set_size (Z.max (i_size i) (off + n)) d).
  pose proof (wi_wrote _ _ _ _ _ _ _ _ _ Inv) as Wr.
  assert (Wy : wready sb (after s ip i d l) ip (i_set_d d i) {[bm sb; IBLOCK (i_inum i)]} (todo off n n) 5).
  { eapply winv_ready; [|lia|lia|exact Inv]. constructor; try apply W. eapply budget_le; [apply W|lia]. }
  assert (Wf : d = Dinode (i_type i) (i_major i) (i_minor i) (i_nlink i) (i_size i)
                     (di_addrs d) (i_child1 i) (i_child2 i) (i_checksum i)) by apply Wr.
  assert (Rd : readable sb (after s ip i d1 l) ip (i_set_d d1 i)).
  { constructor; [constructor|..]; try apply Wy.
    - apply list_lookup_insert_eq. by eapply lookup_lt_Some.
    - eapply wrote_file_ok; [exact Wr|done..].
    - cbn. unfold i_type. cbn. rewrite Wf. done.
    - eapply wrote_file_ok; [exact Wr|done..]. }
  assert (Ec : i_child1 (i_set_d d i) = 0 /\ i_child2 (i_set_d d i) = 0 /\ i_type (i_set_d d i) = i_type i /\
    i_size (i_set_d d i) = i_size i).
  { unfold i_child1, i_child2, i_type, i_size. cbn [i_d i_set_d]. rewrite Wf. done. }
  destruct Ec as (Ec1 & Ec2 & Et & Es).
  destruct (iupdate_Ok sb _ ip _ {[bm sb; IBLOCK (i_inum i)]} 3 0 Rd) as (l' & R' & E');
    [apply Wy|done|apply Wy|apply Wy|apply (wt_free _ _ _ _ _ _ _ Wy)|exact Ec1|exact Ec2|].
  rewrite after_after in R'. cbn in R', E'. exists l'. split; [|done].
  unfold writei, writei_ext. change LOCKFUEL with (S (pred LOCKFUEL)). cbn [writei_ext_fuel].
  inode_step Hi. rewrite (proj2 (Z.eqb_neq _ _) Ht1). rewrite u32_id by klia.
  rewrite (proj2 (Z.ltb_ge (i_size i) off)), (proj2 (Z.ltb_ge (off + n) off)),
    (proj2 (Z.ltb_ge (MAXFILE * BSIZE) (off + n))) by lia. cbn [orb].
  rewrite (bind_Ok _ _ _ _ _ R). cbn [Z.eqb].
  assert (Hi1 : icache (after s ip i d l) !! ip = Some (i_set_d d i)).
  { apply list_lookup_insert_eq. by eapply lookup_lt_Some. }
  unfold write_child. erewrite bind_Ok.
  2: { inode_step Hi1. rewrite Ec1. cbn [Z.eqb]. erewrite bind_Ok by reflexivity. cbv beta. inode_step Hi1.
       rewrite Ec2. reflexivity. }
  cbv beta. inode_step Hi1. rewrite Et, Es. rewrite (proj2 (Z.eqb_neq _ _) Ht2).
  erewrite bind_Ok.
  2: { instantiate (1 := after s ip i d1 l). instantiate (1 := tt).
       unfold d1. change (i_size i) with (di_size (i_d i)). rewrite <- (wrote_size _ _ _ _ _ _ _ _ Wr) by (done || lia).
       destruct (_ && _); [|done]. by apply upd_after. }
  cbv beta. assert (Hi2 : icache (after s ip i d1 l) !! ip = Some (i_set_d d1 i)) by apply Rd.
  inode_step Hi2. replace (i_type (i_set_d d1 i)) with (i_type i) by done.
  rewrite (proj2 (Z.eqb_neq _ _) Ht1). cbn [negb]. rewrite (bind_Ok _ _ _ _ _ R'). unfold ret. f_equal.
  unfold i32. rewrite Z.mod_small by klia. lia.
Qed.

Lemma file_ok_checksum sb v d c : file_ok sb v d -> is_u32 c -> file_ok sb v (d_set_checksum c d).
Proof. intros F Hc. constructor; [constructor|..]; try apply F. apply wf_set_checksum; [apply F|done]. Qed.

(** What the write leaves for the next one. *)
Record left_over (sb : superblock) (s s' : fsst L) (i i' : inode) : Prop := {
  lo_geo : fs_geometry (bl_view (low s')) sb;
  lo_avail : avail sb (bl_view (low s')) r;
  lo_out : bl_outstanding (low s') = bl_outstanding (low s);
  lo_held : bl_held (low s') = bl_held (low s);
  lo_entry : i_dev i' = i_dev i /\ i_ref i' = i_ref i /\ i_flags i' = i_flags i /\ i_type i' = i_type i /\
             i_nlink i' = i_nlink i /\ i_child1 i' = i_child1 i /\ i_child2 i' = i_child2 i;
  lo_cwd : cwd s' = cwd s
}.

(** The state after the write of a plain file. *)
Lemma writei_post sb s ip i src off n :
  plain_write sb s ip i src off n ->
  exists s' i', writei devsw_read devsw_write ip src off n s = Ok n s' /\
    icache s' = <[ip := i']> (icache s) /\ readable sb s' ip i' /\ i_inum i' = i_inum i /\
    i_size i' = Z.max (i_size i) (off + n) /\
    contents (bl_view (low s')) (i_d i') =
      splice (Z.to_nat off) (take (Z.to_nat n) src) (contents (bl_view (low s)) (i_d i)) /\
    i_checksum i' = checksum_of (contents (bl_view (low s')) (i_d i')) /\
    get_dinode (bl_view (low s') (IBLOCK (i_inum i))) (i_inum i) = i_d i' /\
    (forall x, 0 <= x < sb_size sb -> used (bl_view (low s) (bm sb)) x = true -> x <> bm sb ->
       x <> IBLOCK (i_inum i) -> ~ in_file (bl_view (low s)) (i_d i) x -> bl_view (low s') x = bl_view (low s) x) /\
    budget (low s') ∅ 1 /\ left_over sb s s' i i'.
Proof.
  intros P. pose proof (pw_ready _ _ _ _ _ _ _ P) as W. pose proof P as [_ F Hnum [Ht1 Ht2] [Hc1 Hc2] Ho Hn Hm Hs].
  destruct (writei_Ok _ _ _ _ _ _ _ P) as (d & l & l' & R & Inv & E).
  set (d1 := d_set_size _ d) in *. set (d2 := d_set_checksum _ d1) in *.
  pose proof (wi_wrote _ _ _ _ _ _ _ _ _ Inv) as Wr. pose proof (wi_geo _ _ _ _ _ _ _ _ _ Inv) as G.
  assert (F1 : file_ok sb (bl_view l) d1) by (eapply wrote_file_ok; [exact Wr|done..]).
  pose proof (iblock_range _ _ _ G Hnum) as Hib. set (ib := IBLOCK (i_inum i)) in *.
  assert (Hnf : ~ in_file (bl_view l) d1 ib).
  { intros Hin. destruct (fo_data _ _ _ F1 _ Hin). lia. }
  assert (V : forall x, upd_view ib (put_dinode (bl_view l ib) (i_inum i) d2) (bl_view l) x = bl_view l' x).
  { intros x. symmetry. apply E. }
  assert (C : contents (bl_view l') d1 = contents (bl_view l) d1).
  { rewrite <- (contents_ext _ _ _ V). by eapply contents_other; [|done|lia]. }
  assert (F2 : file_ok sb (bl_view l') d1).
  { eapply file_ok_ext; [exact V|]. apply file_ok_other; [done|done|lia|lia]. }
  assert (E0 : bl_eff (low s) l' (bl_view l') (bl_trans l')).
  { eapply eff_trans; [apply Inv|by eapply eff_self]. }
  assert (Hc : is_u32 (checksum_of (contents (bl_view l) d1))).
  { apply checksum_u32, contents_u8. intros x. by apply bl_wf, Inv. }
  exists (after s ip i d2 l'), (i_set_d d2 i). split_and!; try done.
  - constructor; [constructor|..]; cbn; try apply W.
    + apply E0.
    + apply list_lookup_insert_eq. eapply lookup_lt_Some, W.
    + by apply file_ok_checksum.
    + intros a _. eapply eff_unlocked; [exact E0|apply (wt_free _ _ _ _ _ _ _ W)].
    + unfold i_type. cbn. rewrite (wr_fields _ _ _ _ _ _ _ _ Wr). exact Ht1.
    + by apply file_ok_checksum.
  - change (contents (bl_view l') d1 = splice (Z.to_nat off) (take (Z.to_nat n) src) (contents (bl_view (low s)) (i_d i))).
    rewrite C. eapply wrote_contents; [exact Wr|done..|lia|done|lia].
  - change (checksum_of (contents (bl_view l) d1) = checksum_of (contents (bl_view l') d1)). by rewrite C.
  - cbn. rewrite <- V, upd_view_eq. apply get_put_dinode; [by apply bl_wf, Inv|lia|].
    apply wf_set_checksum; [apply F1|done].
  - intros x Hx Hu Hxb Hxi Hnx. cbn. rewrite <- V, upd_view_ne by done.
    by apply (wr_view _ _ _ _ _ _ _ _ Wr).
  - eapply budget_empty, (eff_budget l l' _ _ {[bm sb; ib]} 1 0); [exact E| |apply grows_in; set_solver].
    eapply (eff_budget (low s) l _ _ _ _ (1 + Z.to_nat (span off n))); [apply Inv| |].
    + eapply budget_le; [apply W|lia].
    + eapply grows_le; [apply (logged_grows _ _ _ _ _ _ _ _ (wi_log _ _ _ _ _ _ _ _ _ Inv)); [set_solver|lia]|].
      replace (off + n - off) with n by lia. lia.
  - assert (Hb : forall x, x <> ib -> bl_view l' x = bl_view l x) by (intros x Hx; rewrite <- V; by apply upd_view_ne).
    constructor; cbn; try done.
    + destruct G as [G1 G2 G3]. constructor; try done. rewrite Hb by lia. done.
    + apply (avail_ext _ (bl_view l)); [symmetry; apply Hb; lia|].
      eapply avail_le; [apply Inv|]. unfold todo. lia.
    + apply E0.
    + apply E0.
    + pose proof (wr_fields _ _ _ _ _ _ _ _ Wr) as Wf. unfold d2, d1. rewrite Wf. done.
Qed.

(** C4: [writei] replaces a slice of the contents.  On a plain file (a file or
    directory without replicas), in a transaction with room for the blocks and
    enough free blocks, a write of [n] bytes within the maximal file size stores
    them at [off], extends the file when they end past its size, and returns
    [n]; every other byte of the file keeps its value, no block in use by
    anything else changes, and the inode on disk is the one in the cache, its
    checksum that of the new contents. *)
Theorem writei_splices sb s ip i src off n :
  plain_write sb s ip i src off n ->
  exists s' i', writei devsw_read devsw_write ip src off n s = Ok n s' /\
    icache s' = <[ip := i']> (icache s) /\ readable sb s' ip i' /\
    contents (bl_view (low s')) (i_d i') =
      splice (Z.to_nat off) (take (Z.to_nat n) src) (contents (bl_view (low s)) (i_d i)) /\
    i_checksum i' = checksum_of (contents (bl_view (low s')) (i_d i')) /\
    get_dinode (bl_view (low s') (IBLOCK (i_inum i))) (i_inum i) = i_d i' /\
    (forall x, 0 <= x < sb_size sb -> used (bl_view (low s) (bm sb)) x = true -> x <> bm sb ->
       x <> IBLOCK (i_inum i) -> ~ in_file (bl_view (low s)) (i_d i) x -> bl_view (low s') x = bl_view (low s) x).
Proof.
  intros P. destruct (writei_post _ _ _ _ _ _ _ P) as (s' & i' & R & Hc & Rd & _ & _ & C & K & D & V & _ & _).
  exists s', i'. by split_and!.
Qed.

(** What is written is read back.  After the write above, [readi] of the same
    range returns the bytes written, whatever blocks the write had to allocate. *)
Lemma read_after_write sb s ip i src off n :
  plain_write sb s ip i src off n ->
  exists s1 s2, writei devsw_read devsw_write ip src off n s = Ok n s1 /\
    readi devsw_read ip off n s1 = Ok (n, take (Z.to_nat n) src) s2.
Proof.
  intros P. pose proof P as [_ _ _ _ _ Ho Hn Hm _].
  destruct (writei_post _ _ _ _ _ _ _ P) as (s1 & i1 & R & Hc & Rd & _ & Hsz & C & _ & _ & _ & B & _).
  destruct (readi_Ok devsw_read sb s1 ip i1 off n ∅ 0 Rd B) as (l & R2 & _); [lia|klia|].
  exists s1, (set_low l s1). split; [done|]. rewrite R2.
  replace (Z.min n (i_size i1 - off)) with n by lia. do 2 f_equal.
  rewrite <- contents_sub by (change (di_size (i_d i1)) with (i_size i1); lia).
  rewrite C. assert (Ht : length (take (Z.to_nat n) src) = Z.to_nat n) by (rewrite length_take; lia).
  unfold sub_bytes, splice. pose proof (length_contents (bl_view (low s)) (i_d i)).
  change (di_size (i_d i)) with (i_size i) in *.
  rewrite drop_app_length' by (rewrite length_take; lia). by rewrite take_app_length' by done.
Qed.

(** Writes that would leave a hole or exceed the maximal size are refused:
    [writei] returns -1 and changes nothing when the offset is past the end of
    the file, when offset and count overflow, and when the file would become
    larger than [MAXFILE] blocks. *)
Lemma writei_refuses (s : fsst L) ip i src off n :
  icache s !! ip = Some i -> i_type i <> T_DEV -> is_u32 off -> is_u32 n ->
  i_size i < off \/ 2 ^ 32 <= off + n \/ MAXFILE * BSIZE < off + n ->
  writei devsw_read devsw_write ip src off n s = Ok (-1) s.
Proof.
  intros Hi Ht Ho Hn Hbad. unfold writei, writei_ext. change LOCKFUEL with (S (pred LOCKFUEL)).
  cbn [writei_ext_fuel]. inode_step Hi. rewrite (proj2 (Z.eqb_neq _ _) Ht). unfold is_u32, u32 in *.
  destruct (Z.ltb_spec (i_size i) off); [done|]. cbn [orb].
  destruct (Z.lt_ge_cases (off + n) (2 ^ 32)) as [Hs|Hs].
  - rewrite !Z.mod_small by lia. rewrite (proj2 (Z.ltb_ge _ off)), (proj2 (Z.ltb_lt (MAXFILE * BSIZE) _)) by lia. done.
  - replace ((off + n) mod 2 ^ 32) with (off + n - 2 ^ 32); [by rewrite (proj2 (Z.ltb_lt _ off)) by lia|].
    apply (Z.mod_unique _ _ 1); lia.
Qed.

End WriteProofs.
