(* ===== verification/FsLock.v ===== *)
(** * FsLock: reading inodes, with verification (fs.c)

    [ilock] reads an inode from disk, compares the checksum stored in it with
    that of the contents, and falls back on a replica.  The theorems show when
    it accepts, that it refuses a file in which one word was damaged after it
    was written, and that the search for a replica misses one that is not in
    the inode cache. *)

From S2P Require Import Prelude Layout Block FsBlock FsInode FsFile FsWrite.
Open Scope Z_scope.
Open Scope xv6_scope.

Section LockProofs.
Context {L : Type} {HO : BlockOps L} {HV : BlockView L} {HL : BlockLayer L}.
Context (devsw_read : Z -> option (nat -> Z -> M (fsst L) (Z * list Z))).
Context (devsw_write : Z -> option (nat -> list Z -> Z -> M (fsst L) Z)).
Implicit Types (s : fsst L) (l : L).

(** The inode on disk. *)
Definition disk_inode (s : fsst L) (inum : Z) : dinode := get_dinode (bl_view (low s) (IBLOCK inum)) inum.

(** A referenced cache entry that was not read from disk yet. *)
Record cold (sb : superblock) (s : fsst L) (ip : nat) (i : inode) (k : nat) : Prop := {
  cd_inv : bl_inv (low s);
  cd_geo : fs_geometry (bl_view (low s)) sb;
  cd_inode : icache s !! ip = Some i;
  cd_dev : i_dev i = ROOTDEV;
  cd_inum : 0 <= i_inum i < sb_ninodes sb;
  cd_ref : 1 <= i_ref i;
  cd_flags : i_flags i = 0;
  cd_free : forall x, bl_unlocked (low s) x;
  cd_budget : budget (low s) ∅ k
}.

(** The entry after the inode is read, locked. *)
Definition filled (i : inode) (d : dinode) (f : Z) : inode := Inode (i_dev i) (i_inum i) (i_ref i) f d.

(** The state after the entry [ip] changes to [i']. *)
Definition entry (s : fsst L) (ip : nat) (i' : inode) (l : L) : fsst L :=
  set_icache (<[ip := i']> (icache s)) (set_low l s).

Lemma entry_lookup s ip i i' l : icache s !! ip = Some i -> icache (entry s ip i' l) !! ip = Some i'.
Proof. intros Hi. apply list_lookup_insert_eq. by eapply lookup_lt_Some. Qed.

Lemma upd_entry s ip i i' l f :
  icache s !! ip = Some i -> upd_inode ip f (entry s ip i' l) = Ok tt (entry s ip (f i') l).
Proof.
  intros Hi. erewrite upd_inode_Ok by (by eapply entry_lookup).
  unfold entry, set_icache, set_low. cbn. by rewrite list_insert_insert_eq.
Qed.

(** The part of [ilock_ext] before the verification: lock the entry, fill it. *)
Lemma ilock_fill sb s ip i k fuel c :
  cold sb s ip i (S k) ->
  exists l, bl_eff (low s) l (bl_view (low s)) (bl_trans (low s)) /\
    ilock_ext_fuel devsw_read (S fuel) ip c s =
    (let! r := (if c =? 0 then ret None
                else i_verify devsw_read (fun r => ilock_ext_fuel devsw_read fuel r 1) ip [i_child1; i_child2]) in
     match r with
     | Some r => ret r
     | None =>
         upd_inode ip (fun i => i_set_flags (Z.lor (i_flags i) I_VALID) i) ;;;
         let! i := get_inode ip in
         if i_type i =? 0 then panic "ilock: none type" else ret 0
     end) (entry s ip (filled i (disk_inode s (i_inum i)) I_BUSY) l).
Proof.
  intros C. pose proof (cd_inode _ _ _ _ _ C) as Hi. pose proof (iblock_range _ _ _ (cd_geo _ _ _ _ _ C) (cd_inum _ _ _ _ _ C)) as Hib.
  pose proof (bm_range _ _ (cd_geo _ _ _ _ _ C)).
  destruct (bread_rule (low s) (IBLOCK (i_inum i)) ∅ k) as (bp & l1 & R1 & O1 & _);
    [apply C|lia|apply (cd_free _ _ _ _ _ C)|apply C|].
  destruct (brelse_rule _ _ _ _ _ _ O1) as (l2 & R2 & E2). exists l2. split; [done|].
  cbn [ilock_ext_fuel]. inode_step Hi. rewrite (proj2 (Z.ltb_ge _ _) (cd_ref _ _ _ _ _ C)).
  unfold i_flag. rewrite (cd_flags _ _ _ _ _ C), !Z.land_0_l. cbn [negb Z.eqb].
  assert (R0 : upd_inode ip (fun i => i_set_flags (Z.lor (i_flags i) I_BUSY) i) s =
    Ok tt (entry s ip (i_set_flags I_BUSY i) (low s))).
  { erewrite upd_inode_Ok by exact Hi. rewrite (cd_flags _ _ _ _ _ C). by destruct s. }
    rewrite (bind_Ok _ _ _ _ _ R0). rewrite (cd_dev _ _ _ _ _ C). low_step R1.
  pose proof (bdata_rule _ _ _ _ _ _ O1) as D1. low_step D1.
  erewrite bind_Ok by (apply (upd_entry s ip i _ l1); exact Hi). cbv beta.
  low_step R2. done.
Qed.

Lemma filled_readable sb s ip i k l d f :
  cold sb s ip i k -> bl_eff (low s) l (bl_view (low s)) (bl_trans (low s)) ->
  file_ok sb (bl_view (low s)) d -> di_type d <> T_DEV ->
  readable sb (entry s ip (filled i d f) l) ip (filled i d f).
Proof.
  intros C E F Ht. pose proof (bm_range _ _ (cd_geo _ _ _ _ _ C)).
  assert (V : forall x, bl_view (low s) x = bl_view l x) by (intros; symmetry; apply E).
  constructor; [constructor|..]; cbn; try done.
  - exact (ef_inv _ _ _ _ E).
  - eapply (entry_lookup _ _ _ _ l). exact (cd_inode _ _ _ _ _ C).
  - exact (cd_dev _ _ _ _ _ C).
  - eapply file_map_ext; [exact V|apply F].
  - lia.
  - intros a _. eapply eff_unlocked; [exact E|apply (cd_free _ _ _ _ _ C)].
  - eapply file_ok_ext; [exact V|done].
Qed.

(** ** The checksum of an inode *)

(** What [ichecksum] computes: 0 for a device. *)
Definition inode_sum (v : Z -> list Z) (d : dinode) : Z :=
  if decide (di_type d = T_DEV) then 0 else checksum_of (contents v d).

Lemma inode_sum_file v d : di_type d <> T_DEV -> inode_sum v d = checksum_of (contents v d).
Proof. intros. unfold inode_sum. by rewrite decide_False. Qed.

(** A block layer that shows the blocks [v], from which a block can be read. *)
Record can_read (sb : superblock) (v : Z -> list Z) (l : L) : Prop := {
  cr_inv : bl_inv l;
  cr_view : forall x, bl_view l x = v x;
  cr_bm : 0 < bm sb;
  cr_free : forall x, bl_unlocked l x;
  cr_budget : budget l ∅ 1
}.

Lemma can_read_eff sb v l l' : can_read sb v l -> bl_eff l l' v (bl_trans l) -> can_read sb v l'.
Proof.
  intros [I V B F K] E. constructor; [apply E|apply E|done| |by eapply eff_budget_same].
  intros x. by eapply eff_unlocked.
Qed.

Lemma ichecksum_any sb v s ip i :
  can_read sb v (low s) -> icache s !! ip = Some i -> i_dev i = ROOTDEV ->
  (di_type (i_d i) <> T_DEV -> file_ok sb v (i_d i)) ->
  exists l, ichecksum devsw_read ip s = Ok (inode_sum v (i_d i)) (set_low l s) /\
    bl_eff (low s) l v (bl_trans (low s)).
Proof.
  intros [I V B F K] Hi Hdev Hf. unfold inode_sum. case_decide as Ht.
  - exists (low s). split; [|eapply eff_view; [by apply eff_refl|done]].
    unfold ichecksum. inode_step Hi. unfold i_type. rewrite Ht, Z.eqb_refl. by destruct s.
  - assert (V' : forall x, v x = bl_view (low s) x) by (intros; symmetry; apply V).
    assert (Rd : readable sb s ip i).
    { pose proof (file_ok_ext _ _ _ _ V' (Hf Ht)) as F'. by constructor; [constructor; try done; apply F'|..]. }
    destruct (ichecksum_Ok devsw_read sb _ ip _ ∅ 0 Rd K) as (l & R & E). exists l.
    rewrite <- (contents_ext _ _ _ V') in R. split; [exact R|]. by eapply eff_view.
Qed.

(** What follows the verification in [ilock]. *)
Definition ilock_rest (ip : nat) (r : option Z) : M (fsst L) Z :=
  match r with
  | Some r => ret r
  | None =>
      upd_inode ip (fun i => i_set_flags (Z.lor (i_flags i) I_VALID) i) ;;;
      let! i := get_inode ip in
      if i_type i =? 0 then panic "ilock: none type" else ret 0
  end.

(** [ilock] of a cold inode [d] comes down to the comparison of its checksum, in
    a state that differs only in the locked entry. *)
Lemma ilock_check sb s ip i d :
  disk_inode s (i_inum i) = d -> cold sb s ip i 1 -> (di_type d <> T_DEV -> file_ok sb (bl_view (low s)) d) ->
  exists l1 l2 (s1 := entry s ip (filled i d I_BUSY) l1),
    ilock devsw_read ip s =
      bind (i_verify devsw_read (fun r => ilock_ext_fuel devsw_read (pred LOCKFUEL) r 1) ip [i_child1; i_child2])
        (ilock_rest ip) s1 /\
    can_read sb (bl_view (low s)) l1 /\ bl_eff (low s) l1 (bl_view (low s)) (bl_trans (low s)) /\
    ichecksum devsw_read ip s1 = Ok (inode_sum (bl_view (low s)) d) (entry s ip (filled i d I_BUSY) l2) /\
    bl_eff (low s) l2 (bl_view (low s)) (bl_trans (low s)).
Proof.
  intros Hd C F. destruct (ilock_fill sb s ip i 0 (pred LOCKFUEL) 1 C) as (l1 & E1 & R1). rewrite Hd in R1.
  assert (Rd : can_read sb (bl_view (low s)) l1).
  { pose proof (bm_range _ _ (cd_geo _ _ _ _ _ C)). eapply (can_read_eff _ _ (low s)); [|exact E1].
    constructor; [apply C|done|lia|apply C|apply C]. }
  destruct (ichecksum_any sb _ (entry s ip (filled i d I_BUSY) l1) ip (filled i d I_BUSY) Rd) as (l2 & R2 & E2);
    [eapply entry_lookup, C|apply C|done|].
  exists l1, l2. split_and!; [exact R1|done|done|exact R2|]. eapply eff_trans; [exact E1|].
  rewrite <- (ef_trans _ _ _ _ E1). exact E2.
Qed.

(** The checksum is right: the inode is taken, if it is in use. *)
Lemma ilock_matches sb s ip i d :
  disk_inode s (i_inum i) = d -> cold sb s ip i 1 -> (di_type d <> T_DEV -> file_ok sb (bl_view (low s)) d) ->
  inode_sum (bl_view (low s)) d = di_checksum d ->
  exists l, bl_eff (low s) l (bl_view (low s)) (bl_trans (low s)) /\
    ilock devsw_read ip s = (if di_type d =? 0 then panic "ilock: none type" else ret 0)
      (entry s ip (filled i d (Z.lor I_BUSY I_VALID)) l).
Proof.
  intros Hd C F Hc. pose proof (cd_inode _ _ _ _ _ C) as Hi.
  destruct (ilock_check _ _ _ _ _ Hd C F) as (l1 & l2 & R1 & _ & _ & R2 & E2). exists l2. split; [done|].
  rewrite R1. erewrite bind_Ok.
  2: { cbn [i_verify]. erewrite bind_Ok by exact R2. cbv beta.
       erewrite bind_Ok by (apply get_inode_Ok; eapply entry_lookup; exact Hi). cbv beta.
       rewrite Hc, Z.eqb_refl. reflexivity. }
  cbn [ilock_rest]. erewrite bind_Ok by (apply (upd_entry s ip i _ l2); exact Hi). cbv beta.
  erewrite bind_Ok by (apply get_inode_Ok; eapply entry_lookup; exact Hi). done.
Qed.

Lemma ilock_accepts sb s ip i d :
  disk_inode s (i_inum i) = d -> cold sb s ip i 1 -> file_ok sb (bl_view (low s)) d ->
  di_type d <> T_DEV -> di_type d <> 0 ->
  checksum_of (contents (bl_view (low s)) d) = di_checksum d ->
  exists l, ilock devsw_read ip s = Ok 0 (entry s ip (filled i d (Z.lor I_BUSY I_VALID)) l) /\
    bl_eff (low s) l (bl_view (low s)) (bl_trans (low s)).
Proof.
  intros Hd C F Ht Ht0 Hc. destruct (ilock_matches sb s ip i d) as (l & E & R); [done..|by rewrite inode_sum_file|].
  exists l. split; [|done]. by rewrite R, (proj2 (Z.eqb_neq _ _) Ht0).
Qed.

Lemma iunlock_entry s ip i d l :
  icache s !! ip = Some i -> 1 <= i_ref i ->
  iunlock ip (entry s ip (filled i d I_BUSY) l) = Ok tt (entry s ip (filled i d 0) l).
Proof.
  intros Hi Hr. unfold iunlock. erewrite bind_Ok by (apply get_inode_Ok; eapply entry_lookup; exact Hi).
  cbv beta. change (i_flag I_BUSY (filled i d I_BUSY)) with true. cbn [negb orb].
  change (i_ref (filled i d I_BUSY)) with (i_ref i). rewrite (proj2 (Z.ltb_ge _ _) Hr).
  erewrite (upd_entry s ip i _ l); [done|exact Hi].
Qed.

(** ** The search for a replica *)

(** The end of the search: no replica is left. *)
Lemma verify_end sb v s ip i d ilk fs :
  can_read sb v (low s) -> icache s !! ip = Some i -> i_dev i = ROOTDEV -> 1 <= i_ref i ->
  (di_type d <> T_DEV -> file_ok sb v d) -> inode_sum v d <> di_checksum d ->
  (fs = [] \/ exists f fs', fs = f :: fs' /\ f (filled i d I_BUSY) = 0) ->
  exists l, i_verify devsw_read ilk ip fs (entry s ip (filled i d I_BUSY) (low s)) =
      Ok (Some E_CORRUPTED) (entry s ip (filled i d 0) l) /\
    bl_eff (low s) l v (bl_trans (low s)).
Proof.
  intros Rd Hi Hdev Hr F Hne Hfs.
  destruct (ichecksum_any sb v (entry s ip (filled i d I_BUSY) (low s)) ip (filled i d I_BUSY)) as (l & R & E);
    [exact Rd|by eapply entry_lookup|done|done|].
  exists l. split; [|exact E].
  assert (Hu : (iunlock ip ;;; ret (Some E_CORRUPTED)) (entry s ip (filled i d I_BUSY) l) =
    Ok (Some E_CORRUPTED) (entry s ip (filled i d 0) l)).
  { erewrite bind_Ok by (by eapply iunlock_entry). done. }
  change (set_low l _) with (entry s ip (filled i d I_BUSY) l) in R.
  destruct Hfs as [->|(f & fs' & -> & Hf)]; cbn [i_verify]; rewrite (bind_Ok _ _ _ _ _ R);
    (erewrite bind_Ok by (apply get_inode_Ok; eapply entry_lookup; exact Hi)); cbv beta;
    change (i_d (filled i d I_BUSY)) with d; change (i_checksum (filled i d I_BUSY)) with (di_checksum d);
    rewrite (proj2 (Z.eqb_neq _ _) Hne); [exact Hu|]. rewrite Hf. exact Hu.
Qed.

Lemma ilock_differs sb s ip i d :
  disk_inode s (i_inum i) = d -> cold sb s ip i 1 -> (di_type d <> T_DEV -> file_ok sb (bl_view (low s)) d) ->
  di_child1 d = 0 -> inode_sum (bl_view (low s)) d <> di_checksum d ->
  exists l, bl_eff (low s) l (bl_view (low s)) (bl_trans (low s)) /\
    ilock devsw_read ip s = Ok E_CORRUPTED (entry s ip (filled i d 0) l).
Proof.
  intros Hd C F Hc1 Hc. destruct (ilock_check _ _ _ _ _ Hd C F) as (l1 & _ & R1 & Rd & E1 & _).
  destruct (verify_end sb (bl_view (low s)) (set_low l1 s) ip i d
    (fun r => ilock_ext_fuel devsw_read (pred LOCKFUEL) r 1) [i_child1; i_child2] Rd) as (l & R & E);
    [apply C|apply C|apply C|done|done|right; by exists i_child1, [i_child2]|].
  exists l. split; [eapply eff_trans; [exact E1|]; rewrite <- (ef_trans _ _ _ _ E1); exact E|].
  rewrite R1. by rewrite (bind_Ok _ _ _ _ _ R).
Qed.

Lemma ilock_refuses sb s ip i d :
  disk_inode s (i_inum i) = d -> cold sb s ip i 1 -> file_ok sb (bl_view (low s)) d ->
  di_type d <> T_DEV -> di_child1 d = 0 ->
  checksum_of (contents (bl_view (low s)) d) <> di_checksum d ->
  exists l, ilock devsw_read ip s = Ok E_CORRUPTED (entry s ip (filled i d 0) l) /\
    bl_eff (low s) l (bl_view (low s)) (bl_trans (low s)).
Proof.
  intros Hd C F Ht Hc1 Hc. destruct (ilock_differs sb s ip i d) as (l & E & R); [done..|by rewrite inode_sum_file|].
  by exists l.
Qed.

Lemma iget_scan_filled dev inum d f i c : forall ip k e,
  c !! ip = Some i ->
  iget_scan dev inum k (<[ip := filled i d f]> c) e = iget_scan dev inum k c e.
Proof.
  induction c as [|j c IH]; intros [|ip] k e Hc; try done; cbn in Hc |- *.
  - by injection Hc as ->.
  - destruct (_ && _); [done|]. by apply IH.
Qed.

(** No entry of the cache is the inode [c]; entries of the cache not in use. *)
Definition uncached (c : Z) (ca : list inode) : Prop :=
  forall k j, ca !! k = Some j -> ~ (0 < i_ref j /\ i_dev j = ROOTDEV /\ i_inum j = c).
Definition unused (j : inode) : Prop := i_ref j = 0.
#[global] Instance unused_dec j : Decision (unused j).
Proof. unfold unused. apply _. Defined.
Definition unused_entries (ca : list inode) : nat := length (filter unused ca).

(** What an entry not in use was last used for has another checksum. *)
Definition stale (sb : superblock) (v : Z -> list Z) (ck : Z) (j : inode) : Prop :=
  unused j -> (di_type (i_d j) <> T_DEV -> file_ok sb v (i_d j)) /\ inode_sum v (i_d j) <> ck.

Lemma scan_found c ca : forall k e, uncached c ca -> iget_scan ROOTDEV c k ca (Some e) = (None, Some e).
Proof.
  induction ca as [|i ca IH]; intros k e Hu; cbn [iget_scan]; [done|].
  destruct (_ && _) eqn:E; [exfalso; apply (Hu 0%nat i eq_refl); lia|].
  apply IH. intros n j Hn. by apply (Hu (S n)).
Qed.

Lemma scan_uncached c ca : forall k, uncached c ca -> (0 < unused_entries ca)%nat ->
  exists e j, iget_scan ROOTDEV c k ca None = (None, Some (k + e)%nat) /\ ca !! e = Some j /\ unused j.
Proof.
  unfold unused_entries. induction ca as [|i ca IH]; intros k Hu Hn; [cbn in Hn; lia|]. cbn [iget_scan].
  destruct (_ && _) eqn:E; [exfalso; apply (Hu 0%nat i eq_refl); lia|].
  assert (Hu' : uncached c ca) by (intros n j Hj; by apply (Hu (S n))).
  destruct (Z.eqb_spec (i_ref i) 0) as [Hz|Hz].
  - exists 0%nat, i. rewrite Nat.add_0_r. split_and!; [by apply scan_found|done|done].
  - rewrite filter_cons_False in Hn by done. destruct (IH (S k) Hu' Hn) as (e & j & R & Hj & Hr).
    exists (S e), j. rewrite R. split_and!; [do 2 f_equal; lia|done|done].
Qed.

Lemma unused_insert ca e j j' :
  ca !! e = Some j -> unused j -> ~ unused j' -> unused_entries ca = S (unused_entries (<[e := j']> ca)).
Proof.
  intros He Hj Hj'. unfold unused_entries. rewrite (insert_take_drop ca e j' ltac:(by eapply lookup_lt_Some)).
  rewrite <- (take_drop_middle ca e j He) at 1. rewrite !filter_app, !length_app, filter_cons_True, filter_cons_False by done.
  cbn. lia.
Qed.

Lemma unused_filled ca ip i d f : ca !! ip = Some i -> unused_entries (<[ip := filled i d f]> ca) = unused_entries ca.
Proof.
  intros Hi. unfold unused_entries. rewrite (insert_take_drop ca ip _ ltac:(by eapply lookup_lt_Some)).
  rewrite <- (take_drop_middle ca ip i Hi) at 3. rewrite !filter_app, !length_app.
  rewrite !filter_cons. change (decide (unused (filled i d f))) with (decide (unused i)). by destruct (decide (unused i)).
Qed.

(** The state in which the replica [c] was looked up, at the entry [e] which was [j]. *)
Definition replica_entry (s : fsst L) (e : nat) (j : inode) (c : Z) : fsst L :=
  set_icache (<[e := Inode ROOTDEV c 1 0 (i_d j)]> (icache s)) s.

(** The search at the replica [c], which is not in the cache: the checksum
    compared with is that of the entry [c] is given, which has not been read. *)
Lemma verify_misses sb v s ip i d ilk f fs c :
  can_read sb v (low s) -> icache s !! ip = Some i -> i_dev i = ROOTDEV -> 1 <= i_ref i ->
  (di_type d <> T_DEV -> file_ok sb v d) -> inode_sum v d <> di_checksum d ->
  f (filled i d I_BUSY) = c -> 0 < c < 2 ^ 15 -> uncached c (icache s) -> (0 < unused_entries (icache s))%nat ->
  (forall k j, icache s !! k = Some j -> stale sb v (di_checksum d) j) ->
  exists e j l (s' := set_low l (replica_entry s e j c)),
    icache s !! e = Some j /\ unused j /\ e <> ip /\
    i_verify devsw_read ilk ip (f :: fs) (entry s ip (filled i d I_BUSY) (low s)) =
      i_verify devsw_read ilk ip fs (entry s' ip (filled i d I_BUSY) l) /\
    bl_eff (low s) l v (bl_trans (low s)).
Proof.
  intros Rd Hi Hdev Hr F Hne Hf Hc Hu Hn Hst.
  destruct (ichecksum_any sb v (entry s ip (filled i d I_BUSY) (low s)) ip (filled i d I_BUSY)) as (l1 & R1 & E1);
    [exact Rd|by eapply entry_lookup|done|done|]. cbn [low entry set_low set_icache] in E1.
  change (set_low l1 _) with (entry s ip (filled i d I_BUSY) l1) in R1.
  destruct (scan_uncached c (icache s) 0 Hu Hn) as (e & j & Hs & He & Hj). cbn [Nat.add] in Hs.
  assert (Hep : e <> ip) by (intros ->; unfold unused in Hj; assert (j = i) by congruence; subst; lia).
  set (s2 := replica_entry (entry s ip (filled i d I_BUSY) l1) e j c).
  assert (Rg : iget ROOTDEV c (entry s ip (filled i d I_BUSY) l1) = Ok e s2).
  { unfold iget, gets. unfold bind at 1. cbn [icache entry set_icache]. rewrite iget_scan_filled, Hs by done.
    erewrite bind_Ok by (apply upd_inode_Ok; cbn; rewrite list_lookup_insert_ne by done; exact He). done. }
  destruct (Hst e j He Hj) as [Fj Hsum].
  destruct (ichecksum_any sb v s2 e (Inode ROOTDEV c 1 0 (i_d j))) as (l2 & R2 & E2).
  { by eapply can_read_eff. } { cbn. apply list_lookup_insert_eq. rewrite length_insert. by eapply lookup_lt_Some. }
  { done. } { done. }
  cbn [low s2 replica_entry set_icache entry set_low i_d] in E2, R2.
  exists e, j, l2. split; [done|]. split; [done|]. split; [done|]. split.
  - cbn [i_verify]. rewrite (bind_Ok _ _ _ _ _ R1).
    erewrite bind_Ok by (apply get_inode_Ok; eapply entry_lookup; exact Hi). cbv beta.
    change (i_checksum (filled i d I_BUSY)) with (di_checksum d). change (i_d (filled i d I_BUSY)) with d.
    rewrite (proj2 (Z.eqb_neq _ _) Hne), Hf. replace (u16 c) with c by (symmetry; apply Z.mod_small; lia).
    rewrite (proj2 (Z.eqb_neq c 0)) by lia. change (i_dev (filled i d I_BUSY)) with (i_dev i).
    rewrite Hdev, (bind_Ok _ _ _ _ _ Rg), (bind_Ok _ _ _ _ _ R2).
    rewrite (proj2 (Z.eqb_neq _ _) (not_eq_sym Hsum)). cbn [negb]. f_equal.
    unfold s2, entry, replica_entry, set_icache, set_low. cbn. by rewrite list_insert_insert_ne.
  - rewrite (ef_trans _ _ _ _ E1) in E2. by eapply eff_trans.
Qed.

Lemma replica_uncached s e j c c' :
  uncached c' (icache s) -> c' <> c -> uncached c' (icache (replica_entry s e j c)).
Proof.
  intros Hu Hne k x [(-> & <- & _)|(_ & Hk)]%list_lookup_insert_Some; [cbn; intros (_ & _ & E); by apply Hne|by eapply Hu].
Qed.

Lemma replica_stale sb v ck s e j c :
  (forall k x, icache s !! k = Some x -> stale sb v ck x) ->
  forall k x, icache (replica_entry s e j c) !! k = Some x -> stale sb v ck x.
Proof.
  intros Hs k x [(-> & <- & _)|(_ & Hk)]%list_lookup_insert_Some; [done|by eapply Hs].
Qed.

(** An entry of the cache that was not in use has become one of [c], referenced once. *)
Definition taken_for (s s' : fsst L) (c : Z) : Prop :=
  exists e j r, icache s !! e = Some j /\ unused j /\
    icache s' !! e = Some r /\ i_dev r = ROOTDEV /\ i_inum r = c /\ i_ref r = 1.

(** The replicas [c1] and [c2] ([c2] may be 0, none) are not in the cache, and what
    is left in the entries not in use has another checksum than [ck]. *)
Record replicas_cold (sb : superblock) (s : fsst L) (ck c1 c2 : Z) : Prop := {
  rc_first : 0 < c1 < 2 ^ 15 /\ uncached c1 (icache s);
  rc_second : c2 = 0 \/ 0 < c2 < 2 ^ 15 /\ c2 <> c1 /\ uncached c2 (icache s);
  rc_room : ((if decide (c2 = 0)%Z then 1 else 2) <= unused_entries (icache s))%nat;
  rc_stale : forall k j, icache s !! k = Some j -> stale sb (bl_view (low s)) ck j
}.

(** C10: [ilock] verifies what it reads from disk.  A busy inode is waited for; an
    inode valid in the cache is locked without any verification; an inode that
    is neither is read from disk and its checksum, that of its contents or 0 for
    a device, is compared with the stored one.  If they agree the result is 0,
    or a panic when the inode is free, and the entry holds that inode, locked
    and valid.  If they differ and there is no replica the result is
    [E_CORRUPTED] and the entry is neither locked nor valid.  No block
    changes. *)
Theorem ilock_verifies sb s ip i :
  icache s !! ip = Some i -> 1 <= i_ref i ->
  (i_flag I_BUSY i = true -> ilock devsw_read ip s = Stop (Sleep (ChInode ip)) s) /\
  (i_flag I_BUSY i = false -> i_flag I_VALID i = true ->
     ilock devsw_read ip s = Ok 0 (entry s ip (i_set_flags (Z.lor (i_flags i) I_BUSY) i) (low s))) /\
  (forall d, disk_inode s (i_inum i) = d -> cold sb s ip i 1 -> (di_type d <> T_DEV -> file_ok sb (bl_view (low s)) d) ->
     exists l, bl_eff (low s) l (bl_view (low s)) (bl_trans (low s)) /\
       if decide (inode_sum (bl_view (low s)) d = di_checksum d)
       then ilock devsw_read ip s = (if di_type d =? 0 then panic "ilock: none type" else ret 0)
              (entry s ip (filled i d (Z.lor I_BUSY I_VALID)) l)
       else di_child1 d = 0 -> ilock devsw_read ip s = Ok E_CORRUPTED (entry s ip (filled i d 0) l)).
Proof.
  intros Hi Hr. split_and!.
  - intros Hb. unfold ilock, ilock_ext. change LOCKFUEL with (S (pred LOCKFUEL)). cbn [ilock_ext_fuel].
    inode_step Hi. by rewrite (proj2 (Z.ltb_ge _ _) Hr), Hb.
  - intros Hb Hv. unfold ilock, ilock_ext. change LOCKFUEL with (S (pred LOCKFUEL)). cbn [ilock_ext_fuel].
    inode_step Hi. rewrite (proj2 (Z.ltb_ge _ _) Hr), Hb. erewrite bind_Ok by (apply upd_inode_Ok; exact Hi).
    rewrite Hv. unfold entry. by destruct s.
  - intros d Hd C F. case_decide as Hc; [by eapply ilock_matches|].
    destruct (decide (di_child1 d = 0)) as [H1|H1].
    + destruct (ilock_differs sb s ip i d) as (l & E & R); [done..|]. by exists l.
    + exists (low s). split; [apply eff_refl, C|done].
Qed.

(** Damage on disk is noticed.  Take an inode that is not in the cache, is
    not a device and has no replica.  If the inode on disk has the checksum of
    contents [bs] and the contents found now have the same length but differ
    from [bs] in one 32-bit word, locking the inode returns [E_CORRUPTED]. *)
Lemma ilock_detects_damage sb s ip i d bs k :
  disk_inode s (i_inum i) = d -> cold sb s ip i 1 -> file_ok sb (bl_view (low s)) d ->
  di_type d <> T_DEV -> di_child1 d = 0 -> di_checksum d = checksum_of bs ->
  let found := contents (bl_view (low s)) d in
  length found = length bs -> 0 <= k < (Z.of_nat (length bs) + 3) / 4 ->
  get_word found k <> get_word bs k -> (forall j, 0 <= j -> j <> k -> get_word found j = get_word bs j) ->
  exists s', ilock devsw_read ip s = Ok E_CORRUPTED s'.
Proof.
  intros Hd C F Ht Hc1 Hck found Hl Hk Hne Heq.
  destruct (ilock_refuses _ _ _ _ _ Hd C F Ht Hc1) as (l & R & _); [|by eauto].
  rewrite Hck. apply (checksum_detects_word found bs k); [exact Hl|by rewrite Hl|done|done].
Qed.

(** C19: a replica is found only if it is cached.  [ilock_ext] computes the
    checksum of the replica's cache entry before it locks it, that is, before
    the entry is read from disk, so that it compares with whatever the entry was
    used for last.  When the replicas of a damaged inode are not in the cache
    and nothing left over in the unused entries happens to have the stored
    checksum (in a cache not used before: when that is not 0), locking the
    inode returns [E_CORRUPTED] whatever the replicas contain on disk, and the
    references to the replicas are never dropped. *)
Theorem ilock_misses_cold_replica sb s ip i d :
  disk_inode s (i_inum i) = d -> cold sb s ip i 1 -> (di_type d <> T_DEV -> file_ok sb (bl_view (low s)) d) ->
  inode_sum (bl_view (low s)) d <> di_checksum d ->
  replicas_cold sb s (di_checksum d) (di_child1 d) (di_child2 d) ->
  exists s', ilock devsw_read ip s = Ok E_CORRUPTED s' /\
    taken_for s s' (di_child1 d) /\ (di_child2 d <> 0 -> taken_for s s' (di_child2 d)).
Proof.
  intros Hd C F Hc [(Hr1 & Hu1) H2 Hn Hst].
  set (v := bl_view (low s)) in *. destruct (ilock_check _ _ _ _ _ Hd C F) as (l1 & _ & R1 & Rd & _).
  pose proof (cd_inode _ _ _ _ _ C) as Hi. pose proof (cd_dev _ _ _ _ _ C) as Hdev. pose proof (cd_ref _ _ _ _ _ C) as Hr.
  set (ilk := fun r => ilock_ext_fuel devsw_read (pred LOCKFUEL) r 1) in *.
  destruct (verify_misses sb v (set_low l1 s) ip i d ilk i_child1 [i_child2] (di_child1 d) Rd)
    as (e1 & j1 & l2 & He1 & Hj1 & Hp1 & R2 & E2); try done; [cbn [icache set_low]; revert Hn; case_decide; lia|].
  set (s2 := set_low l2 (replica_entry (set_low l1 s) e1 j1 (di_child1 d))) in *.
  assert (Rd2 : can_read sb v (low s2)) by (by eapply can_read_eff).
  assert (Hi2 : icache s2 !! ip = Some i) by (cbn; by rewrite list_lookup_insert_ne).
  assert (Hl2 : icache s2 !! e1 = Some (Inode ROOTDEV (di_child1 d) 1 0 (i_d j1)))
    by (apply list_lookup_insert_eq; by eapply lookup_lt_Some).
  destruct H2 as [H2|(Hr2 & Hne & Hu2)].
  - destruct (verify_end sb v s2 ip i d ilk [i_child2] Rd2) as (l3 & R3 & _); try done; [right; by exists i_child2, []|].
    eexists. split; [rewrite R1; by rewrite (bind_Ok _ _ _ _ _ (eq_trans R2 R3))|]. split; [|by rewrite H2].
    exists e1, j1, (Inode ROOTDEV (di_child1 d) 1 0 (i_d j1)). split; [exact He1|]. split; [done|]. split; [|done].
    cbn [icache entry set_icache]. rewrite list_lookup_insert_ne by done. exact Hl2.
  - destruct (verify_misses sb v s2 ip i d ilk i_child2 [] (di_child2 d) Rd2)
      as (e2 & j2 & l3 & He2 & Hj2 & Hp2 & R3 & E3); try done.
    { by apply replica_uncached. }
    { pose proof (unused_insert _ _ _ (Inode ROOTDEV (di_child1 d) 1 0 (i_d j1)) He1 Hj1 ltac:(done)) as Hcount.
      rewrite decide_False in Hn by lia. cbn [icache s2 replica_entry set_low set_icache] in *. lia. }
    { intros k x. by apply (replica_stale sb v (di_checksum d) (set_low l1 s) e1 j1 (di_child1 d)). }
    set (s3 := set_low l3 (replica_entry s2 e2 j2 (di_child2 d))) in *.
    assert (He12 : e2 <> e1) by (intros ->; rewrite Hl2 in He2; by injection He2 as <-).
    destruct (verify_end sb v s3 ip i d ilk []) as (l4 & R4 & _); try done.
    { by eapply can_read_eff. } { cbn. by rewrite list_lookup_insert_ne. } { by left. }
    eexists. split; [rewrite R1; by rewrite (bind_Ok _ _ _ _ _ (eq_trans R2 (eq_trans R3 R4)))|]. split.
    + exists e1, j1, (Inode ROOTDEV (di_child1 d) 1 0 (i_d j1)). split; [exact He1|]. split; [done|]. split; [|done].
      cbn [icache entry set_icache s3 set_low replica_entry]. rewrite !list_lookup_insert_ne by done. exact Hl2.
    + intros _. exists e2, j2, (Inode ROOTDEV (di_child2 d) 1 0 (i_d j2)). cbn [icache s2 set_low replica_entry set_icache] in He2.
      rewrite list_lookup_insert_ne in He2 by done. split; [exact He2|]. split; [done|]. split; [|done].
      cbn [icache entry set_icache s3 set_low replica_entry]. rewrite list_lookup_insert_ne by done.
      apply list_lookup_insert_eq. cbn. rewrite length_insert. by eapply lookup_lt_Some.
Qed.
End LockProofs.
