(* ===== verification/FsReplica.v ===== *)
(** * FsReplica: writing files that have replicas (fs.c)

    A file or directory can have up to two replicas, inodes of type [T_DITTO]
    with the same contents.  [writei] writes them after the file itself, and
    [iupdate] stores the size and the checksum of the file in them.  The theorem
    shows that a write leaves the file and all its replicas with the new contents
    and, on disk, the size and checksum that go with them. *)

From S2P Require Import Prelude Layout Block FsBlock FsInode FsFile FsWrite FsLock.
Open Scope Z_scope.
Open Scope xv6_scope.

(** ** Files that a write does not touch *)

Definition same_file (v0 v : Z -> list Z) (d : dinode) : Prop := forall a, in_file v0 d a -> v a = v0 a.
Definition apart_files (v : Z -> list Z) (d e : dinode) : Prop := forall a, in_file v d a -> ~ in_file v e a.

Lemma same_addr v0 v d bn : same_file v0 v d -> file_addr v d bn = file_addr v0 d bn.
Proof.
  intros E. unfold file_addr. destruct (bn <? NDIRECT); [done|].
  destruct (Z.eqb_spec (direct d NDIRECT) 0) as [|Hn]; [done|]. rewrite E; [done|]. split; [done|by left].
Qed.

Lemma same_in_file v0 v d a : same_file v0 v d -> in_file v d a <-> in_file v0 d a.
Proof.
  intros E. unfold in_file. setoid_rewrite (fun bn => same_addr v0 v d bn E). done.
Qed.

Lemma same_file_ok sb v0 v d :
  same_file v0 v d -> (forall a, data_block sb v0 a -> data_block sb v a) -> file_ok sb v0 d -> file_ok sb v d.
Proof.
  intros E Hd F. pose proof (fun bn => same_addr v0 v d bn E) as Ea. constructor; [constructor|apply F|]; try apply F.
  - intros a Ha. apply Hd, F. by apply (same_in_file v0 v).
  - intros b1 b2. rewrite !Ea. apply F.
  - intros bn. rewrite Ea. apply F.
  - intros bn. rewrite Ea. apply F.
Qed.

Lemma same_contents sb v0 v d : file_ok sb v0 d -> same_file v0 v d -> contents v d = contents v0 d.
Proof.
  intros F E. apply list_fmap_ext. intros k z [-> Hz]%lookup_seqZ.
  unfold file_byte, file_block. rewrite (same_addr v0 v) by done.
  destruct (bn_range _ _ _ (0 + Z.of_nat k) F ltac:(lia)) as [Hb Hn].
  rewrite (proj2 (Z.eqb_neq _ _) Hn), E; [done|]. by apply in_file_addr.
Qed.

Lemma same_apart v0 v d e : same_file v0 v d -> same_file v0 v e -> apart_files v0 d e -> apart_files v d e.
Proof. intros Sd Se A a. rewrite (same_in_file v0 v d), (same_in_file v0 v e) by done. apply A. Qed.

Section Wrote.
Context (sb : superblock) (v0 v : Z -> list Z) (d0 d : dinode) (lo hi : Z) (src : list Z).
Context (W : wrote sb v0 v d0 d lo hi src) (Hbm : 0 < bm sb).

Lemma wrote_data a : data_block sb v0 a -> data_block sb v a.
Proof. intros [Hr Hu]. split; [done|]. apply (wr_used _ _ _ _ _ _ _ _ W); [lia|done]. Qed.

Lemma wrote_same e : file_map sb v0 e -> apart_files v0 e d0 -> same_file v0 v e.
Proof.
  intros F A a Ha. destruct (fo_data _ _ _ F a Ha) as [Hr Hu].
  apply (wr_view _ _ _ _ _ _ _ _ W); [lia|done|lia|by apply A].
Qed.

Lemma wrote_apart e : file_map sb v0 e -> apart_files v0 e d0 -> apart_files v e d.
Proof.
  intros F A a Ha Hd. rewrite (same_in_file v0 v) in Ha by (by apply wrote_same).
  destruct (wr_fresh _ _ _ _ _ _ _ _ W a Hd) as [?|Hu]; [by eapply A|].
  destruct (fo_data _ _ _ F a Ha) as [_ Hu']. congruence.
Qed.
End Wrote.

Lemma wrote_ext_l sb v0 v0' v d0 d lo hi src :
  (forall x, v0 x = v0' x) -> wrote sb v0 v d0 d lo hi src -> wrote sb v0' v d0 d lo hi src.
Proof.
  intros E [W1 W2 W3 W4 W5 W6 W7]. pose proof (fun bn => file_addr_ext v0 v0' d0 bn E) as Ea.
  assert (Ei : forall a, in_file v0' d0 a <-> in_file v0 d0 a) by (intros a; unfold in_file; by setoid_rewrite Ea).
  constructor; try done.
  - intros x Hx. by rewrite W3, (file_byte_ext v0 v0').
  - intros bn. rewrite Ea. apply W4.
  - intros x Hx. rewrite <- !E, Ei. by apply W5.
  - intros x. rewrite <- E. apply W6.
  - intros a. rewrite <- E, Ei. apply W7.
Qed.

(** The inode table is not part of any file. *)
Lemma upd_same sb v x y d : file_map sb v d -> x <= bm sb -> same_file v (upd_view x y v) d.
Proof. intros F Hx a Ha. apply upd_view_ne. destruct (fo_data _ _ _ F a Ha). lia. Qed.

Lemma upd_data sb v x y a : x <> bm sb -> data_block sb v a -> data_block sb (upd_view x y v) a.
Proof. intros Hx [Hr Hu]. split; [done|]. by rewrite upd_view_ne. Qed.

(** ** Entries of the inode cache *)

Definition is_inode (c : Z) (j : inode) : Prop := 0 < i_ref j /\ i_dev j = ROOTDEV /\ i_inum j = c.
#[global] Instance is_inode_dec c j : Decision (is_inode c j).
Proof. unfold is_inode. apply _. Defined.

Definition find_inode (c : Z) (ca : list inode) : option (nat * inode) := list_find (is_inode c) ca.

Lemma find_uncached c ca : find_inode c ca = None <-> uncached c ca.
Proof.
  unfold find_inode. rewrite list_find_None, Forall_forall. split.
  - intros Hf k j Hk. apply Hf. by eapply list_elem_of_lookup_2.
  - intros Hu j (k & Hk)%list_elem_of_lookup_1. by eapply Hu.
Qed.

Lemma scan_hit c ca : forall k e0 e j, find_inode c ca = Some (e, j) ->
  exists o, iget_scan ROOTDEV c k ca e0 = (Some (k + e)%nat, o).
Proof.
  unfold find_inode. induction ca as [|i ca IH]; intros k e0 e j; cbn [list_find iget_scan]; [done|].
  destruct (decide (is_inode c i)) as [(H1 & H2 & H3)|Hn].
  - intros [= <- <-]. rewrite (proj2 (Z.ltb_lt _ _) H1), H2, H3, !Z.eqb_refl. eexists. by rewrite Nat.add_0_r.
  - destruct (list_find _ ca) as [[e' j']|] eqn:E; [|done]. intros [= <- <-].
    destruct (_ && _) eqn:Eb; [exfalso; apply Hn; unfold is_inode; lia|].
    destruct (IH (S k) (match e0 with Some e => Some e | None => if i_ref i =? 0 then Some k else None end) e' j' eq_refl)
      as (o & R). exists o. rewrite R. do 2 f_equal. lia.
Qed.

Lemma find_insert_other c ca e x y :
  ca !! e = Some y -> ~ is_inode c x -> ~ is_inode c y -> find_inode c (<[e := x]> ca) = find_inode c ca.
Proof.
  unfold find_inode. revert e. induction ca as [|i ca IH]; intros [|e] Hy Hx Hn; [done..| |]; cbn in *.
  - injection Hy as ->. by rewrite !decide_False.
  - destruct (decide (is_inode c i)); [done|]. by rewrite IH.
Qed.

Lemma find_insert_self c ca e x :
  (e < length ca)%nat -> is_inode c x -> (find_inode c ca = None \/ exists y, find_inode c ca = Some (e, y)) ->
  find_inode c (<[e := x]> ca) = Some (e, x).
Proof.
  unfold find_inode. intros He Hx Hc. apply list_find_Some. split_and!; [by apply list_lookup_insert_eq|done|].
  intros k y Hk Hlt. rewrite list_lookup_insert_ne in Hk by lia. destruct Hc as [Hc|(z & Hc)].
  - rewrite list_find_None, Forall_forall in Hc. apply Hc. by eapply list_elem_of_lookup_2.
  - apply list_find_Some in Hc as (_ & _ & Hc). by eapply Hc.
Qed.

(** The inodes of [cs] that have no cache entry. *)
Definition cold_count (cs : list Z) (ca : list inode) : nat := length (filter (fun c => find_inode c ca = None) cs).

Lemma cold_count_ext cs ca ca' :
  (forall c, c ∈ cs -> find_inode c ca' = None <-> find_inode c ca = None) -> cold_count cs ca' = cold_count cs ca.
Proof.
  unfold cold_count. intros E. f_equal. induction cs as [|c cs IH]; [done|]. rewrite !filter_cons, IH by set_solver.
  pose proof (E c ltac:(set_solver)). repeat case_decide; by try tauto.
Qed.

Lemma cold_count_drop cs ca ca' c :
  NoDup cs -> c ∈ cs -> (forall c', c' ∈ cs -> c' <> c -> find_inode c' ca' = find_inode c' ca) ->
  find_inode c ca' <> None -> find_inode c ca = None -> cold_count cs ca = S (cold_count cs ca').
Proof.
  intros Hd (cs1 & cs2 & ->)%list_elem_of_split E Hs Hn. apply NoDup_app in Hd as (_ & Hx & Hd). apply NoDup_cons in Hd as [Hc2 _].
  assert (Hc1 : c ∉ cs1) by (intros Hc; apply (Hx c Hc); set_solver).
  assert (E1 : cold_count cs1 ca' = cold_count cs1 ca) by (apply cold_count_ext; intros c' Hc'; rewrite E; [done|set_solver..]).
  assert (E2 : cold_count cs2 ca' = cold_count cs2 ca) by (apply cold_count_ext; intros c' Hc'; rewrite E; [done|set_solver..]).
  unfold cold_count in *. rewrite !filter_app, !length_app, filter_cons_True, filter_cons_False by done. cbn. lia.
Qed.

Lemma disk_put v c d c' :
  (forall x, wf_block (v x)) -> wf_dinode d -> 0 <= c -> 0 <= c' -> c <> c' ->
  get_dinode (upd_view (IBLOCK c) (put_dinode (v (IBLOCK c)) c d) v (IBLOCK c')) c' = get_dinode (v (IBLOCK c')) c'.
Proof.
  intros Hw Hd Hc Hc' Hne. unfold upd_view. case_decide as E; [|done]. rewrite E.
  apply get_put_dinode_ne; try done. intros Em. apply Hne. unfold IBLOCK in E. change IPB with 8 in *.
  Z.div_mod_to_equations. lia.
Qed.

(** The replicas of an inode, and what they cost. *)
Definition children (i : inode) : list Z := filter (fun c => c <> 0) [i_child1 i; i_child2 i].
Definition cost (c : Z) : nat := if c =? 0 then 0%nat else 1%nat.

Lemma children_cost i : length (children i) = (cost (i_child1 i) + cost (i_child2 i))%nat.
Proof.
  unfold children, cost. rewrite !filter_cons.
  destruct (Z.eqb_spec (i_child1 i) 0), (Z.eqb_spec (i_child2 i) 0); repeat case_decide; done.
Qed.

Lemma child_first i : i_child1 i = 0 \/ i_child1 i ∈ children i /\ i_child1 i ∉ @nil Z.
Proof.
  destruct (decide (i_child1 i = 0)); [by left|right]. split; [|apply not_elem_of_nil].
  apply list_elem_of_filter. set_solver.
Qed.

Lemma child_second i : NoDup (children i) -> i_child2 i = 0 \/ i_child2 i ∈ children i /\ i_child2 i ∉ [i_child1 i].
Proof.
  intros Hd. destruct (decide (i_child2 i = 0)) as [|H2]; [by left|right]. split; [apply list_elem_of_filter; set_solver|].
  intros E%list_elem_of_singleton. unfold children in Hd. rewrite !filter_cons in Hd.
  rewrite decide_True in Hd by congruence. rewrite decide_True in Hd by done. rewrite E in Hd.
  apply NoDup_cons in Hd as [Hd _]. set_solver.
Qed.

Lemma child_all i done c : c ∈ children i -> c ∈ i_child2 i :: i_child1 i :: done.
Proof. intros (_ & Hc)%list_elem_of_filter. set_solver. Qed.

(** The blocks that a write logs besides those of the files. *)
Definition write_set (sb : superblock) (i : inode) : gset Z :=
  {[bm sb; IBLOCK (i_inum i)]} ∪ list_to_set (IBLOCK <$> children i).

Lemma write_set_in sb i : bm sb ∈ write_set sb i /\ IBLOCK (i_inum i) ∈ write_set sb i /\
  forall c, c ∈ children i -> IBLOCK c ∈ write_set sb i.
Proof.
  unfold write_set. split_and!; [set_solver|set_solver|]. intros c Hc. apply elem_of_union_r, elem_of_list_to_set.
  by apply list_elem_of_fmap_2.
Qed.

Section ReplicaProofs.
Context {L : Type} {HO : BlockOps L} {HV : BlockView L} {HL : BlockLayer L}.
Context (devsw_read : Z -> option (nat -> Z -> M (fsst L) (Z * list Z))).
Context (devsw_write : Z -> option (nat -> list Z -> Z -> M (fsst L) Z)).
Implicit Types (s : fsst L) (l : L).

(** The inode [c] is [d]: in its cache entry if that is valid, else on disk.  The
    entry is not locked. *)
Definition located (s : fsst L) (c : Z) (d : dinode) : Prop :=
  match find_inode c (icache s) with
  | Some (_, j) => (i_flags j = I_VALID /\ i_d j = d) \/ (i_flags j = 0 /\ disk_inode s c = d)
  | None => disk_inode s c = d
  end.

(** The entry [e] of the cache is that of [c], or it is free and [c] has none. *)
Definition slot (s : fsst L) (c : Z) (e : nat) (j : inode) : Prop :=
  icache s !! e = Some j /\ (find_inode c (icache s) = Some (e, j) \/ unused j /\ find_inode c (icache s) = None).

Lemma entry_entry s e x l y l' : entry (entry s e x l) e y l' = entry s e y l'.
Proof. unfold entry, set_icache, set_low. cbn. by rewrite list_insert_insert_eq. Qed.

Lemma iget_slot s c :
  (find_inode c (icache s) = None -> (0 < unused_entries (icache s))%nat) ->
  exists e j (x := match find_inode c (icache s) with
                   | Some _ => i_set_ref (i_ref j + 1) j
                   | None => Inode ROOTDEV c 1 0 (i_d j)
                   end),
    slot s c e j /\ iget ROOTDEV c s = Ok e (entry s e x (low s)).
Proof.
  intros Hroom. unfold iget, gets. unfold bind at 1. unfold slot. destruct (find_inode c (icache s)) as [[e j]|] eqn:Hf.
  - exists e, j. pose proof Hf as (Hj & _)%list_find_Some. split; [by auto|].
    destruct (scan_hit c (icache s) 0 None e j Hf) as (o & R). rewrite R. cbn [Nat.add].
    erewrite bind_Ok by (apply upd_inode_Ok; exact Hj). unfold entry. by destruct s.
  - destruct (scan_uncached c (icache s) 0) as (e & j & R & Hj & Hu); [by apply find_uncached|by apply Hroom|].
    exists e, j. split; [by auto|]. rewrite R. cbn [Nat.add].
    erewrite bind_Ok by (apply upd_inode_Ok; exact Hj). unfold entry. by destruct s.
Qed.

Lemma ilock_ext_valid s e j :
  icache s !! e = Some j -> 1 <= i_ref j -> i_flags j = I_VALID ->
  ilock_ext devsw_read e 0 s = Ok 0 (entry s e (i_set_flags (Z.lor I_BUSY I_VALID) j) (low s)).
Proof.
  intros Hj Hr Hf. unfold ilock_ext. change LOCKFUEL with (S (pred LOCKFUEL)). cbn [ilock_ext_fuel].
  inode_step Hj. rewrite (proj2 (Z.ltb_ge _ _) Hr). unfold i_flag. rewrite Hf.
  change (negb (Z.land I_VALID I_BUSY =? 0)) with false. change (negb (Z.land I_VALID I_VALID =? 0)) with true. cbv iota.
  erewrite bind_Ok by (apply upd_inode_Ok; exact Hj). cbv beta. rewrite Hf. unfold entry. by destruct s.
Qed.

Lemma ilock_ext_read sb s e j d :
  cold sb s e j 1 -> disk_inode s (i_inum j) = d -> di_type d <> 0 ->
  exists l, ilock_ext devsw_read e 0 s = Ok 0 (entry s e (filled j d (Z.lor I_BUSY I_VALID)) l) /\
    bl_eff (low s) l (bl_view (low s)) (bl_trans (low s)).
Proof.
  intros C Hd Ht. destruct (ilock_fill devsw_read sb s e j 0 (pred LOCKFUEL) 0 C) as (l & E & R).
  exists l. split; [|done]. unfold ilock_ext. change LOCKFUEL with (S (pred LOCKFUEL)). rewrite R, Hd. cbn [Z.eqb].
  pose proof (cd_inode _ _ _ _ _ C) as Hj. erewrite bind_Ok by reflexivity. cbv beta iota.
  erewrite bind_Ok by (apply (upd_entry s e j _ l); exact Hj). cbv beta.
  erewrite bind_Ok by (apply get_inode_Ok; eapply entry_lookup; exact Hj). cbv beta.
  change (i_type (i_set_flags _ _)) with (di_type d). by rewrite (proj2 (Z.eqb_neq _ _) Ht).
Qed.

(** [iget] and [ilock_ext] without verification: the entry of [c] is locked and holds [d]. *)
Lemma acquire sb s c d :
  can_read sb (bl_view (low s)) (low s) -> fs_geometry (bl_view (low s)) sb -> 0 <= c < sb_ninodes sb ->
  located s c d -> di_type d <> 0 -> (find_inode c (icache s) = None -> (0 < unused_entries (icache s))%nat) ->
  exists e j r s1 l, slot s c e j /\ 1 <= r /\ iget ROOTDEV c s = Ok e s1 /\
    ilock_ext devsw_read e 0 s1 = Ok 0 (entry s e (Inode ROOTDEV c r (Z.lor I_BUSY I_VALID) d) l) /\
    bl_eff (low s) l (bl_view (low s)) (bl_trans (low s)).
Proof.
  intros Rd G Hc Hl Ht Hroom. destruct (iget_slot s c Hroom) as (e & j & Hs & Rg). pose proof Hs as [Hj Hf].
  unfold located in Hl. destruct (find_inode c (icache s)) as [[e' j']|] eqn:Ef.
  - destruct Hf as [[= -> ->]|[_ ?]]; [|done]. pose proof Ef as (_ & (Hr & Hdev & Hin) & _)%list_find_Some.
    set (s1 := entry s e (i_set_ref (i_ref j + 1) j) (low s)) in *.
    assert (Hj1 : icache s1 !! e = Some (i_set_ref (i_ref j + 1) j)) by (by eapply entry_lookup).
    assert (Ej : forall f d', filled (i_set_ref (i_ref j + 1) j) d' f = Inode ROOTDEV c (i_ref j + 1) f d')
      by (intros; unfold filled; cbn; by rewrite Hdev, Hin).
    destruct Hl as [[Hv Hd]|[Hv Hd]].
    + exists e, j, (i_ref j + 1), s1, (low s). split_and!; [done|lia|done| |apply eff_refl, Rd].
      rewrite (ilock_ext_valid _ _ _ Hj1); [|cbn; lia|exact Hv]. unfold s1 at 1. rewrite entry_entry. do 2 f_equal.
      rewrite <- Hd, <- Ej. done.
    + destruct (ilock_ext_read sb s1 e (i_set_ref (i_ref j + 1) j) d) as (l & R & E); [| |done|].
      * constructor; try done; try apply Rd; cbn; lia.
      * cbn [i_inum i_set_ref]. by rewrite Hin.
      * exists e, j, (i_ref j + 1), s1, l. split_and!; [done|lia|done| |exact E].
        rewrite R. unfold s1. by rewrite entry_entry, Ej.
  - destruct Hf as [|[Hu _]]; [done|]. set (s1 := entry s e (Inode ROOTDEV c 1 0 (i_d j)) (low s)) in *.
    destruct (ilock_ext_read sb s1 e (Inode ROOTDEV c 1 0 (i_d j)) d) as (l & R & E); [|exact Hl|done|].
    + constructor; try done; try apply Rd. by eapply entry_lookup.
    + exists e, j, 1, s1, l. split_and!; [done|lia|done| |exact E].
      rewrite R. unfold s1. by rewrite entry_entry.
Qed.

Lemma unlock_entry s e j l :
  icache s !! e = Some j -> forall r c d, 1 <= r ->
  iunlock e (entry s e (Inode ROOTDEV c r (Z.lor I_BUSY I_VALID) d) l) =
  Ok tt (entry s e (Inode ROOTDEV c r I_VALID d) l).
Proof.
  intros Hj r c d Hr. unfold iunlock. erewrite bind_Ok by (apply get_inode_Ok; eapply entry_lookup; exact Hj).
  cbv beta. change (i_flag I_BUSY (Inode ROOTDEV c r (Z.lor I_BUSY I_VALID) d)) with true. cbn [negb orb].
  change (i_ref (Inode _ _ r _ _)) with r. rewrite (proj2 (Z.ltb_ge _ _) Hr). erewrite (upd_entry s e j _ l); [done|exact Hj].
Qed.

(** ** A file and its replicas *)

(** A replica is an inode of type [T_DITTO] without replicas of its own. *)
Record replica (sb : superblock) (s : fsst L) (c : Z) (d : dinode) : Prop := {
  rp_inum : 0 < c < 2 ^ 15 /\ c < sb_ninodes sb;
  rp_loc : located s c d;
  rp_file : file_ok sb (bl_view (low s)) d;
  rp_kind : di_type d = T_DITTO /\ di_child1 d = 0 /\ di_child2 d = 0
}.

(** The file at the entry [ip], ready to be written, and its replicas [cs], which are the inodes
    [D]; they share no blocks, and there are cache entries for those that have none. *)
Record group (sb : superblock) (s : fsst L) (ip : nat) (i : inode) (cs : list Z) (D : Z -> dinode)
    (u : gset Z) (n k : nat) : Prop := {
  g_ready :> wready sb s ip i u n k;
  g_file : file_ok sb (bl_view (low s)) (i_d i);
  g_self : 1 <= i_ref i /\ i_inum i ∉ cs;
  g_rep : forall c, c ∈ cs -> replica sb s c (D c);
  g_apart : forall c, c ∈ cs -> apart_files (bl_view (low s)) (D c) (i_d i);
  g_apart2 : forall c c', c ∈ cs -> c' ∈ cs -> c <> c' -> apart_files (bl_view (low s)) (D c) (D c');
  g_nodup : NoDup cs;
  g_room : (cold_count cs (icache s) <= unused_entries (icache s))%nat
}.

Definition fupd (D : Z -> dinode) (c : Z) (d : dinode) : Z -> dinode := fun x => if decide (x = c) then d else D x.

Lemma fupd_eq D c d : fupd D c d c = d.
Proof. unfold fupd. by rewrite decide_True. Qed.
Lemma fupd_ne D c d x : x <> c -> fupd D c d x = D x.
Proof. intros. unfold fupd. by rewrite decide_False. Qed.

Lemma apart_sym v d e : apart_files v d e -> apart_files v e d.
Proof. intros A a He Hd. by eapply A. Qed.

(** The entry of a replica is not that of another inode. *)
Lemma slot_other s c e j c' : slot s c e j -> c' <> c -> ~ is_inode c' j.
Proof.
  intros [_ [Hf|[Hu _]]] Hne (Hr & _ & Hn); [|unfold unused in Hu; lia].
  apply list_find_Some in Hf as (_ & (_ & _ & ?) & _). congruence.
Qed.

Lemma slot_find s c e j c' x l :
  slot s c e j -> c' <> c -> i_inum x = c -> find_inode c' (icache (entry s e x l)) = find_inode c' (icache s).
Proof.
  intros Hs Hne Hx. cbn. eapply find_insert_other; [apply Hs| |by eapply slot_other].
  intros (_ & _ & ?). congruence.
Qed.

Lemma slot_self s c e j x l :
  slot s c e j -> is_inode c x -> find_inode c (icache (entry s e x l)) = Some (e, x).
Proof.
  intros [Hj Hf] Hx. apply find_insert_self; [by eapply lookup_lt_Some|done|].
  destruct Hf as [Hf|[_ Hf]]; eauto.
Qed.

Lemma find_not_unused c ca e j : find_inode c ca = Some (e, j) -> ~ unused j.
Proof. intros (_ & (Hr & _) & _)%list_find_Some. unfold unused. lia. Qed.

(** Taking the slot of [c] keeps room for the others. *)
Lemma slot_room s c e j x l cs :
  slot s c e j -> c ∈ cs -> NoDup cs -> is_inode c x ->
  (cold_count cs (icache s) <= unused_entries (icache s))%nat ->
  (cold_count cs (icache (entry s e x l)) <= unused_entries (icache (entry s e x l)))%nat.
Proof.
  intros Hs Hc Hd Hx Hroom. pose proof (slot_self _ _ _ _ _ l Hs Hx) as Hself. pose proof Hx as (Hr & _ & Hn).
  assert (E : forall c', c' ∈ cs -> c' <> c -> find_inode c' (icache (entry s e x l)) = find_inode c' (icache s))
    by (intros; by eapply slot_find).
  assert (Hxu : ~ unused x) by (unfold unused; lia). pose proof Hs as [Hj [Hf|[Hu Hf]]].
  - rewrite (cold_count_ext cs (icache s)).
    + etransitivity; [exact Hroom|]. unfold unused_entries. cbn [icache entry set_icache].
      rewrite (insert_take_drop _ e x ltac:(by eapply lookup_lt_Some)). rewrite <- (take_drop_middle _ e j Hj) at 1.
      rewrite !filter_app, !length_app, !filter_cons_False; [done|done|by eapply find_not_unused].
    + intros c' Hc'. destruct (decide (c' = c)) as [->|]; [by rewrite Hself, Hf|by rewrite E].
  - rewrite (cold_count_drop _ _ _ c Hd Hc E) in Hroom; [|by rewrite Hself|done].
    rewrite (unused_insert _ _ _ x Hj Hu Hxu) in Hroom. cbn [icache entry set_icache] in *. lia.
Qed.

Lemma g_not_replica sb s ip i cs D u n k c e j :
  group sb s ip i cs D u n k -> c ∈ cs -> slot s c e j -> e <> ip.
Proof.
  intros G Hc Hs ->. destruct (g_self _ _ _ _ _ _ _ _ _ G) as [Hr Hn]. destruct Hs as [Hj Hf].
  rewrite (rd_inode _ _ _ _ G) in Hj. injection Hj as <-. destruct Hf as [Hf|[Hu _]]; [|unfold unused in Hu; lia].
  apply list_find_Some in Hf as (_ & (_ & _ & <-) & _). done.
Qed.

(** A change of the block layer that keeps the group ready for writing. *)
Record moved (sb : superblock) (s : fsst L) (l : L) (u : gset Z) (n k : nat) : Prop := {
  mv_eff : bl_eff (low s) l (bl_view l) (bl_trans l);
  mv_geo : fs_geometry (bl_view l) sb;
  mv_avail : avail sb (bl_view l) n;
  mv_budget : budget l u k;
  mv_data : forall a, data_block sb (bl_view (low s)) a -> data_block sb (bl_view l) a
}.

Lemma moved_ready sb s ip0 i0 u n k l n' k' e x ip i' :
  wready sb s ip0 i0 u n k -> moved sb s l u n' k' -> icache (entry s e x l) !! ip = Some i' -> i_dev i' = ROOTDEV ->
  file_map sb (bl_view l) (i_d i') -> wready sb (entry s e x l) ip i' u n' k'.
Proof.
  intros W [E G A B _] Hi Hd F. pose proof (wt_free _ _ _ _ _ _ _ W) as U. constructor; cbn [low entry set_icache set_low]; try done.
  - constructor; try done; [apply E|apply W|]. intros a _. by eapply eff_unlocked.
  - rewrite (ef_outstanding _ _ _ _ E). apply W.
  - apply W.
  - intros y. by eapply eff_unlocked.
Qed.

(** The replica [c] becomes [d'], valid and unlocked in its entry. *)
Lemma group_child sb s ip i cs D u n k c e j r d' l n' k' :
  group sb s ip i cs D u n k -> c ∈ cs -> slot s c e j -> 1 <= r -> moved sb s l u n' k' ->
  same_file (bl_view (low s)) (bl_view l) (i_d i) ->
  (forall c', c' ∈ cs -> c' <> c -> same_file (bl_view (low s)) (bl_view l) (D c') /\
     get_dinode (bl_view l (IBLOCK c')) c' = disk_inode s c') ->
  file_ok sb (bl_view l) d' -> di_type d' = T_DITTO /\ di_child1 d' = 0 /\ di_child2 d' = 0 ->
  apart_files (bl_view l) d' (i_d i) ->
  (forall c', c' ∈ cs -> c' <> c -> apart_files (bl_view l) d' (D c')) ->
  group sb (entry s e (Inode ROOTDEV c r I_VALID d') l) ip i cs (fupd D c d') u n' k'.
Proof.
  intros G Hc Hs Hr Mv Si So F K A A2. pose proof (g_not_replica _ _ _ _ _ _ _ _ _ _ _ _ G Hc Hs) as Hep.
  pose proof (mv_data _ _ _ _ _ _ Mv) as Hdata. set (x := Inode ROOTDEV c r I_VALID d').
  assert (Hx : is_inode c x) by (split_and!; cbn; [lia|done|done]).
  assert (Fi : file_ok sb (bl_view l) (i_d i)) by (eapply same_file_ok; [done|done|apply G]).
  constructor; cbn [low entry set_icache set_low].
  - eapply moved_ready; [apply G|done| |apply G|apply Fi]. cbn. rewrite list_lookup_insert_ne by done. apply G.
  - done.
  - apply G.
  - intros c' Hc'. destruct (decide (c' = c)) as [->|Hne].
    + rewrite fupd_eq. constructor; [apply (g_rep _ _ _ _ _ _ _ _ _ G c Hc)| |done|done].
      unfold located. rewrite (slot_self _ _ _ _ _ l Hs Hx). by left.
    + rewrite fupd_ne by done. destruct (g_rep _ _ _ _ _ _ _ _ _ G c' Hc') as [R1 R2 R3 R4]. destruct (So c' Hc' Hne) as [S1 S2].
      constructor; [done| |by eapply same_file_ok|done].
      unfold located in *. rewrite (slot_find _ _ _ _ c' x l Hs Hne) by done. unfold disk_inode at 1 2. cbn [low entry set_icache set_low].
      by rewrite S2.
  - intros c' Hc'. destruct (decide (c' = c)) as [->|Hne]; [by rewrite fupd_eq|]. rewrite fupd_ne by done.
    eapply same_apart; [by apply So|done|by apply G].
  - intros c1 c2 H1 H2 H12. destruct (decide (c1 = c)) as [->|Hn1], (decide (c2 = c)) as [->|Hn2]; [done|..];
      rewrite ?fupd_eq, ?fupd_ne by done.
    + by apply A2.
    + by apply apart_sym, A2.
    + eapply same_apart; [by apply So|by apply So|by apply G].
  - apply G.
  - eapply slot_room; try done; apply G.
Qed.

(** The file itself becomes [d']. *)
Lemma group_parent sb s ip i cs D u n k d' l n' k' :
  group sb s ip i cs D u n k -> moved sb s l u n' k' ->
  (forall c, c ∈ cs -> same_file (bl_view (low s)) (bl_view l) (D c) /\
     get_dinode (bl_view l (IBLOCK c)) c = disk_inode s c) ->
  file_ok sb (bl_view l) d' -> (forall c, c ∈ cs -> apart_files (bl_view l) (D c) d') ->
  group sb (after s ip i d' l) ip (i_set_d d' i) cs D u n' k'.
Proof.
  intros G Mv So F A. pose proof (mv_data _ _ _ _ _ _ Mv) as Hdata. pose proof (rd_inode _ _ _ _ G) as Hi.
  destruct (g_self _ _ _ _ _ _ _ _ _ G) as [Hr Hn].
  assert (Ef : forall c, c ∈ cs -> find_inode c (icache (after s ip i d' l)) = find_inode c (icache s)).
  { intros c Hc. cbn. eapply find_insert_other; [exact Hi|..]; intros (_ & _ & <-); by apply Hn. }
  constructor.
  - apply (moved_ready _ _ _ _ _ _ _ _ _ _ ip (i_set_d d' i) _ _ (g_ready _ _ _ _ _ _ _ _ _ G) Mv); [by eapply entry_lookup|apply G|apply F].
  - exact F.
  - done.
  - intros c Hc. destruct (g_rep _ _ _ _ _ _ _ _ _ G c Hc) as [R1 R2 R3 R4]. destruct (So c Hc) as [S1 S2].
    constructor; [done| |by eapply same_file_ok|done].
    unfold located in *. rewrite Ef by done. unfold disk_inode at 1 2. cbn [low after set_icache set_low]. by rewrite S2.
  - exact A.
  - intros c1 c2 H1 H2 H12. eapply same_apart; [by apply So|by apply So|by apply G].
  - apply G.
  - rewrite (cold_count_ext cs (icache s)) by (intros c Hc; by rewrite Ef). etransitivity; [apply (g_room _ _ _ _ _ _ _ _ _ G)|].
    cbn [icache after set_icache]. change (i_set_d d' i) with (filled i d' (i_flags i)). by rewrite unused_filled.
Qed.

(** ** Writing a replica *)

Record write_args (src : list Z) (off n size : Z) : Prop := {
  wa_off : 0 <= off <= size;
  wa_n : 0 <= n <= Z.of_nat (length src);
  wa_max : off + n <= MAXFILE * BSIZE;
  wa_src : Forall is_u8 src
}.

Lemma wrote_ok sb v0 v d0 d lo hi src : file_ok sb v0 d0 -> wrote sb v0 v d0 d lo hi src -> file_ok sb v d.
Proof.
  intros F W. assert (Es : di_size d = di_size d0) by (rewrite (wr_fields _ _ _ _ _ _ _ _ W); done).
  pose proof (fo_size _ _ _ F). constructor; [apply W|lia|]. intros bn Hb Hs. rewrite Es in Hs.
  apply (wr_addr _ _ _ _ _ _ _ _ W); [klia|]. left. by apply F.
Qed.

Lemma wrote_iblock sb v0 v d0 d lo hi src c :
  fs_geometry v0 sb -> avail sb v0 0 -> file_map sb v0 d0 -> wrote sb v0 v d0 d lo hi src -> 0 <= c < sb_ninodes sb ->
  v (IBLOCK c) = v0 (IBLOCK c).
Proof.
  intros G (Hs & Hlow & _) F W Hc. pose proof (iblock_range _ _ _ G Hc). pose proof (bm_range _ _ G).
  apply (wr_view _ _ _ _ _ _ _ _ W); [lia|apply Hlow; lia|lia|]. intros Hin. destruct (fo_data _ _ _ F _ Hin). lia.
Qed.

Lemma loop_moved r sb s ip i u src off n d l k :
  wready sb s ip i u (r + 2 * Z.to_nat (span off n)) (1 + Z.to_nat (span off n) + k) ->
  0 <= off -> 0 <= n -> winv r sb s i off n src n d l -> moved sb s l u r k.
Proof.
  intros W Ho Hn Inv. pose proof (winv_ready r _ _ _ _ _ _ _ _ _ _ _ _ _ W Ho (conj Hn (Z.le_refl n)) Inv) as Wr.
  constructor; try apply Inv; [|apply Wr|].
  - eapply avail_le; [apply Wr|]. unfold todo. lia.
  - intros a. apply (wrote_data _ _ _ _ _ _ _ _ (wi_wrote _ _ _ _ _ _ _ _ _ _ Inv)). apply W.
Qed.

Lemma ditto_written r sb s e j u fuel src off n :
  wready sb s e j u (r + 2 * Z.to_nat (span off n)) (5 + Z.to_nat (span off n)) -> write_args src off n (i_size j) ->
  i_type j = T_DITTO -> i_child1 j = 0 -> i_child2 j = 0 ->
  exists d l, writei_ext_fuel devsw_read devsw_write fuel e src off n 0 s = Ok n (after s e j d l) /\
    winv r sb s j off n src n d l.
Proof.
  intros W [Ho Hn Hm Hs] Ht Hc1 Hc2. destruct (loop_Ok r sb s e j u src off n) as (d & l & R & Inv); try done; [lia|].
  exists d, l. split; [|done]. pose proof (rd_inode _ _ _ _ W) as Hj.
  pose proof (wr_fields _ _ _ _ _ _ _ _ (wi_wrote _ _ _ _ _ _ _ _ _ _ Inv)) as Wf.
  assert (Hj1 : icache (after s e j d l) !! e = Some (i_set_d d j)) by (by eapply entry_lookup).
  assert (Ec : i_child1 (i_set_d d j) = 0 /\ i_child2 (i_set_d d j) = 0 /\ i_type (i_set_d d j) = T_DITTO).
  { unfold i_child1, i_child2, i_type. cbn [i_d i_set_d]. by rewrite Wf. }
  destruct Ec as (Ec1 & Ec2 & Et).
  destruct fuel as [|fuel]; cbn [writei_ext_fuel]; inode_step Hj; rewrite Ht; change (T_DITTO =? T_DEV) with false; cbv iota;
    rewrite u32_id by klia; rewrite (proj2 (Z.ltb_ge (i_size j) off)), (proj2 (Z.ltb_ge (off + n) off)),
      (proj2 (Z.ltb_ge (MAXFILE * BSIZE) (off + n))) by lia; cbn [orb];
    rewrite (bind_Ok _ _ _ _ _ R); cbn [Z.eqb]; unfold write_child; (erewrite bind_Ok;
      [|inode_step Hj1; rewrite Ec1; cbn [Z.eqb]; erewrite bind_Ok by reflexivity; cbv beta; inode_step Hj1; rewrite Ec2; reflexivity]);
    cbv beta; inode_step Hj1; rewrite Et; change (T_DITTO =? T_DITTO) with true; unfold ret; f_equal;
    unfold i32; rewrite Z.mod_small by klia; lia.
Qed.

Lemma group_acquire sb s ip i cs D u n k c :
  group sb s ip i cs D u n (S k) -> c ∈ cs ->
  exists e j r s1 l, slot s c e j /\ 1 <= r /\ iget ROOTDEV c s = Ok e s1 /\
    ilock_ext devsw_read e 0 s1 = Ok 0 (entry s e (Inode ROOTDEV c r (Z.lor I_BUSY I_VALID) (D c)) l) /\
    bl_eff (low s) l (bl_view (low s)) (bl_trans (low s)).
Proof.
  intros G Hc. pose proof (g_rep _ _ _ _ _ _ _ _ _ G c Hc) as [Hin Hl F Hk].
  pose proof (g_ready _ _ _ _ _ _ _ _ _ G) as W0.
  apply (acquire sb); [|apply W0|lia|done|by rewrite (proj1 Hk)|].
  - constructor; try done; [apply W0|apply W0|apply (wt_free _ _ _ _ _ _ _ W0)|].
    apply (budget_empty _ u). eapply budget_le; [exact (wt_budget _ _ _ _ _ _ _ W0)|lia].
  - intros Hf. pose proof (g_room _ _ _ _ _ _ _ _ _ G) as Hroom.
    assert (Hcc : (0 < cold_count cs (icache s))%nat); [|lia]. unfold cold_count.
    apply list_elem_of_split in Hc as (c1 & c2 & ->). rewrite filter_app, filter_cons_True, length_app by done. cbn. lia.
Qed.

Lemma write_child_Ok r sb s ip i cs D u k c w fuel src off n :
  group sb s ip i cs D u (r + 2 * Z.to_nat (span off n)) (1 + Z.to_nat (span off n) + (4 + k)) -> c ∈ cs ->
  write_args src off n (di_size (D c)) ->
  (forall e s, w e s = writei_ext_fuel devsw_read devsw_write fuel e src off n 0 s) ->
  exists e j rf d' l', slot s c e j /\
    write_child devsw_read w ROOTDEV c s = Ok tt (entry s e (Inode ROOTDEV c rf I_VALID d') l') /\
    wrote sb (bl_view (low s)) (bl_view l') (D c) d' off (off + n) src /\
    group sb (entry s e (Inode ROOTDEV c rf I_VALID d') l') ip i cs (fupd D c d') u r (4 + k).
Proof.
  intros G Hc Ar Hw. pose proof (g_rep _ _ _ _ _ _ _ _ _ G c Hc) as [Hin Hl F Hk].
  pose proof (g_ready _ _ _ _ _ _ _ _ _ G) as W0. pose proof (wt_geo _ _ _ _ _ _ _ W0) as Geo.
  destruct (group_acquire _ _ _ _ _ _ _ _ _ _ G Hc) as (e & j & rf & s1 & l1 & Hs & Hr & R1 & R2 & E1).
  set (x := Inode ROOTDEV c rf (Z.lor I_BUSY I_VALID) (D c)) in *. set (s2 := entry s e x l1) in *.
  assert (V1 : forall y, bl_view (low s) y = bl_view l1 y) by (intros; symmetry; apply E1).
  assert (Mv1 : moved sb s l1 u (r + 2 * Z.to_nat (span off n)) (1 + Z.to_nat (span off n) + (4 + k))).
  { constructor; [by eapply eff_self| | | |].
    - destruct Geo as [G1 G2 G3]. constructor; try done. by rewrite <- V1.
    - eapply avail_ext; [apply V1|apply W0].
    - eapply eff_budget_same; [exact E1|apply W0].
    - intros a [Ha1 Ha2]. split; [done|]. by rewrite <- V1. }
  assert (W2 : wready sb s2 e x u (r + 2 * Z.to_nat (span off n)) (1 + Z.to_nat (span off n) + (4 + k))).
  { eapply moved_ready; [exact W0|done|eapply entry_lookup, Hs|done|]. eapply file_map_ext; [exact V1|apply F]. }
  destruct (ditto_written r sb s2 e x u fuel src off n) as (d' & l' & R3 & Inv); [|done|apply Hk|apply Hk|apply Hk|].
  { constructor; try apply W2. eapply budget_le; [apply W2|lia]. }
  destruct Ar as [Ho Hn Hm Hsrc].
  pose proof (loop_moved _ _ _ _ _ _ _ _ _ _ _ _ W2 ltac:(lia) ltac:(lia) Inv) as [E2 G2 A2 B2 D2].
  pose proof (wi_wrote _ _ _ _ _ _ _ _ _ _ Inv) as Wr. cbn [low s2 entry set_icache set_low i_d x] in Wr, E2, D2.
  apply (wrote_ext_l _ _ (bl_view (low s))) in Wr; [|intros; by rewrite V1].
  assert (Mv : moved sb s l' u r (4 + k)).
  { constructor; try done; [by eapply eff_trans|]. intros a [Ha1 Ha2]. apply D2. split; [done|]. by rewrite <- V1. }
  pose proof (rd_bm _ _ _ _ W0) as Hbm.
  assert (Hio : forall c', c' ∈ cs -> get_dinode (bl_view l' (IBLOCK c')) c' = disk_inode s c').
  { intros c' Hc'. pose proof (g_rep _ _ _ _ _ _ _ _ _ G c' Hc') as [Hin' _ _ _]. unfold disk_inode.
    erewrite wrote_iblock; [done|exact Geo|eapply avail_le; [apply W0|lia]|apply F|exact Wr|lia]. }
  exists e, j, rf, d', l'. split; [done|]. split; [|split; [done|]].
  - unfold write_child. rewrite (proj2 (Z.eqb_neq c 0)) by lia. replace (u32 c) with c by (symmetry; apply Z.mod_small; lia).
    rewrite (bind_Ok _ _ _ _ _ R1), (bind_Ok _ _ _ _ _ R2). rewrite (bind_Ok _ _ _ n (after s2 e x d' l')) by (by rewrite Hw).
    unfold after, s2. change (set_icache _ _) with (entry (entry s e x l1) e (i_set_d d' x) l'). rewrite entry_entry.
    by eapply unlock_entry; [apply Hs|].
  - eapply group_child; try done.
    + eapply wrote_same; [exact Wr|done|apply W0|]. by apply apart_sym, G.
    + intros c' Hc' Hne. split; [|by apply Hio]. eapply wrote_same; [exact Wr|done|apply (g_rep _ _ _ _ _ _ _ _ _ G c' Hc')|by apply G].
    + eapply wrote_ok; [exact F|exact Wr].
    + rewrite (wr_fields _ _ _ _ _ _ _ _ Wr). exact Hk.
    + apply apart_sym. eapply wrote_apart; [exact Wr|done|apply W0|]. by apply apart_sym, G.
    + intros c' Hc' Hne. apply apart_sym. eapply wrote_apart; [exact Wr|done|apply (g_rep _ _ _ _ _ _ _ _ _ G c' Hc')|by apply G].
Qed.

(** ** Updating the inodes on disk *)

Lemma put_moved sb s ip i u n k m y l :
  wready sb s ip i u n k -> 0 <= m < sb_ninodes sb -> IBLOCK m ∈ u ->
  bl_eff (low s) l (upd_view (IBLOCK m) y (bl_view (low s))) (trans_add (IBLOCK m) (bl_trans (low s))) ->
  moved sb s l u n k.
Proof.
  intros W Hm Hu E. pose proof (wt_geo _ _ _ _ _ _ _ W) as G. pose proof (iblock_range _ _ _ G Hm) as Hib.
  assert (V : forall x, x <> IBLOCK m -> bl_view l x = bl_view (low s) x).
  { intros x Hx. rewrite (ef_view _ _ _ _ E). by apply upd_view_ne. }
  constructor.
  - by eapply eff_self.
  - destruct G as [G1 G2 G3]. constructor; try done. by rewrite V by lia.
  - eapply avail_ext; [symmetry; apply V; lia|apply W].
  - eapply (eff_budget _ _ _ _ _ _ 0); [exact E|rewrite Nat.add_0_r; apply W|by apply grows_in].
  - intros a [Hr Ha]. split; [done|]. by rewrite V by lia.
Qed.

Lemma update_child_Ok sb s ip i cs D u n k c (d' := d_set_checksum (i_checksum i) (d_set_size (i_size i) (D c))) :
  group sb s ip i cs D u n (2 + k) -> c ∈ cs -> IBLOCK c ∈ u ->
  file_ok sb (bl_view (low s)) (d_set_size (i_size i) (D c)) ->
  exists e j rf l', slot s c e j /\
    (let! ic := iget ROOTDEV c in cupdate devsw_read ip ic) s = Ok tt (entry s e (Inode ROOTDEV c rf I_VALID d') l') /\
    (forall x, bl_view l' x =
       upd_view (IBLOCK c) (put_dinode (bl_view (low s) (IBLOCK c)) c (d_set_nlink 1 d')) (bl_view (low s)) x) /\
    group sb (entry s e (Inode ROOTDEV c rf I_VALID d') l') ip i cs (fupd D c d') u n (2 + k).
Proof.
  intros G Hc Hu F'. pose proof (g_rep _ _ _ _ _ _ _ _ _ G c Hc) as [Hin Hl F Hk].
  pose proof (g_ready _ _ _ _ _ _ _ _ _ G) as W0. pose proof (wt_geo _ _ _ _ _ _ _ W0) as Geo.
  pose proof (iblock_range _ _ c Geo ltac:(lia)) as Hib. pose proof (bm_range _ _ Geo) as Hbm.
  assert (Hck : is_u32 (i_checksum i)) by (by destruct (fo_wf _ _ _ (rd_map _ _ _ _ W0)) as (_&_&_&_&_&_&_&_&_&?)).
  assert (F1 : file_ok sb (bl_view (low s)) d') by (by apply file_ok_checksum).
  destruct (group_acquire _ _ _ _ _ _ _ _ _ _ G Hc) as (e & j & rf & s1 & l1 & Hs & Hr & R1 & R2 & E1).
  pose proof (g_not_replica _ _ _ _ _ _ _ _ _ _ _ _ G Hc Hs) as Hep. pose proof Hs as [Hj _].
  assert (V1 : forall y, bl_view (low s) y = bl_view l1 y) by (intros; symmetry; apply E1).
  destruct (bread_rule l1 (IBLOCK c) u (1 + k)) as (bp & l2 & R3 & O2 & B2).
  { apply E1. } { lia. } { eapply eff_unlocked; [exact E1|]. apply (wt_free _ _ _ _ _ _ _ W0). }
  { eapply eff_budget_same; [exact E1|]. apply (wt_budget _ _ _ _ _ _ _ W0). }
  rewrite (ef_trans _ _ _ _ E1) in O2.
  assert (Hwd : wf_dinode (d_set_nlink 1 d')).
  { destruct (fo_wf _ _ _ F1) as (?&?&?&_&?&?&?&?&?&?). split_and!; try done; unfold is_i16; cbn; lia. }
  assert (Hwv : forall x, wf_block (bl_view (low s) x)) by (intros; by apply bl_wf, W0).
  destruct (log_rule _ _ _ _ _ _ (put_dinode (bl_view (low s) (IBLOCK c)) c (d_set_nlink 1 d')) u (1 + k) O2)
    as (l3 & l4 & R4 & R5 & O4); [by apply wf_put_dinode; [|lia|]|rewrite (ef_outstanding _ _ _ _ E1); apply W0|done|].
  destruct (brelse_rule _ _ _ _ _ _ O4) as (l5 & R6 & E5).
  assert (E : bl_eff (low s) l5 (upd_view (IBLOCK c) (put_dinode (bl_view (low s) (IBLOCK c)) c (d_set_nlink 1 d'))
                                   (bl_view (low s))) (trans_add (IBLOCK c) (bl_trans (low s)))).
  { eapply eff_view; [eapply eff_trans; [exact E1|exact E5]|]. intros x. unfold upd_view. case_decide; [done|]. by rewrite V1. }
  pose proof (put_moved sb s ip i u n (2 + k) c _ l5 W0 ltac:(lia) Hu E) as Mv.
  exists e, j, rf, l5. split; [done|]. split; [|split; [apply E|]].
  - rewrite (bind_Ok _ _ _ _ _ R1). unfold cupdate. rewrite (bind_Ok _ _ _ _ _ R2).
    erewrite bind_Ok by (apply get_inode_Ok; eapply entry_lookup; exact Hj). cbv beta.
    change (i_type (Inode ROOTDEV c rf (Z.lor I_BUSY I_VALID) (D c))) with (di_type (D c)). rewrite (proj1 Hk). cbn [Z.eqb negb].
    change (T_DITTO =? T_DITTO) with true. cbn [negb i_dev i_inum]. low_step R3.
    assert (Hip : forall x l, icache (entry s e x l) !! ip = Some i) by (intros; cbn; rewrite list_lookup_insert_ne by done; apply W0).
    erewrite bind_Ok by (apply get_inode_Ok, Hip). cbv beta.
    erewrite bind_Ok by (apply (upd_entry s e j _ l2); exact Hj). cbv beta.
    erewrite bind_Ok by (apply (upd_entry s e j _ l2); exact Hj). cbv beta.
    erewrite bind_Ok by (apply get_inode_Ok; eapply entry_lookup; exact Hj). cbv beta.
    pose proof (bdata_rule _ _ _ _ _ _ O2) as D2. rewrite <- V1 in D2. low_step D2. cbn [i_inum i_d i_upd_d i_set_d].
    low_step R4. low_step R5. low_step R6. exact (unlock_entry s e j l5 Hj rf c d' Hr).
  - eapply group_child; try done.
    + intros a Ha. rewrite (ef_view _ _ _ _ E). eapply (upd_same sb); [apply W0|lia|exact Ha].
    + intros c' Hc' Hne. pose proof (g_rep _ _ _ _ _ _ _ _ _ G c' Hc') as [Hin' _ Fc' _]. split.
      * intros a Ha. rewrite (ef_view _ _ _ _ E). eapply (upd_same sb); [apply Fc'|lia|exact Ha].
      * rewrite (ef_view _ _ _ _ E). apply disk_put; try done; lia.
    + eapply same_file_ok; [|exact (mv_data _ _ _ _ _ _ Mv)|exact F1]. intros a Ha. rewrite (ef_view _ _ _ _ E).
      eapply (upd_same sb); [apply F1|lia|exact Ha].
    + eapply same_apart; [| |apply (g_apart _ _ _ _ _ _ _ _ _ G c Hc)]; intros a Ha; rewrite (ef_view _ _ _ _ E);
        eapply (upd_same sb); [apply F|lia|exact Ha|apply W0|lia|exact Ha].
    + intros c' Hc' Hne. pose proof (g_rep _ _ _ _ _ _ _ _ _ G c' Hc') as [_ _ Fc' _].
      eapply same_apart; [| |apply (g_apart2 _ _ _ _ _ _ _ _ _ G c c' Hc Hc' (not_eq_sym Hne))]; intros a Ha; rewrite (ef_view _ _ _ _ E);
        eapply (upd_same sb); [apply F|lia|exact Ha|apply Fc'|lia|exact Ha].
Qed.

(** ** The whole write *)

Section Write.
Context (sb : superblock) (s0 : fsst L) (ip : nat) (i0 : inode) (D0 : Z -> dinode) (u : gset Z).
Context (src : list Z) (off n : Z) (Ar : write_args src off n (i_size i0)).
Local Abbreviation v0 := (bl_view (low s0)).
Local Abbreviation cs := (children i0).
Local Abbreviation sz := (Z.max (i_size i0) (off + n)).
Local Abbreviation sp := (Z.to_nat (span off n)).
(** The contents that are to replace those of [d]. *)
Definition replaced (d : dinode) : list Z := splice (Z.to_nat off) (take (Z.to_nat n) src) (contents v0 d).

Definition written (v : Z -> list Z) (d : dinode) (C : list Z) : Prop :=
  file_ok sb v (d_set_size sz d) /\ contents v (d_set_size sz d) = C.

Lemma written_same v v' d C :
  written v d C -> same_file v v' d -> (forall a, data_block sb v a -> data_block sb v' a) -> written v' d C.
Proof.
  intros [F E] S Hd. assert (S' : same_file v v' (d_set_size sz d)) by exact S.
  split; [by eapply same_file_ok|]. by rewrite (same_contents sb v v').
Qed.

Lemma wrote_written v v' d d' :
  file_ok sb v d -> di_size d = i_size i0 -> wrote sb v v' d d' off (off + n) src ->
  written v' d' (splice (Z.to_nat off) (take (Z.to_nat n) src) (contents v d)).
Proof.
  destruct Ar as [Ho Hn Hm Hs]. intros F Hsz W. unfold written. rewrite <- Hsz in *. split.
  - eapply wrote_file_ok; try exact W; try done; lia.
  - eapply wrote_contents; try exact W; try done; lia.
Qed.

(** The file is written and so are the replicas in [done]; nothing else of what
    was in use has changed. *)
Record phase1 (i : inode) (s : fsst L) (D : Z -> dinode) (done : list Z) : Prop := {
  p1_parent : written (bl_view (low s)) (i_d i) (replaced (i_d i0));
  p1_done : forall c, c ∈ cs -> c ∈ done -> written (bl_view (low s)) (D c) (replaced (D0 c));
  p1_todo : forall c, c ∈ cs -> c ∉ done -> D c = D0 c /\ same_file v0 (bl_view (low s)) (D0 c);
  p1_used : forall x, 0 <= x < sb_size sb -> used (v0 (bm sb)) x = true -> used (bl_view (low s) (bm sb)) x = true;
  p1_frame : forall x, 0 <= x < sb_size sb -> used (v0 (bm sb)) x = true -> x <> bm sb ->
    ~ in_file v0 (i_d i0) x -> (forall c, c ∈ cs -> ~ in_file v0 (D0 c) x) -> bl_view (low s) x = v0 x
}.

Lemma write_step r k i s D done c w fuel :
  group sb s ip i cs D u (r + cost c * (2 * sp)) (cost c * (1 + sp) + (4 + k)) -> phase1 i s D done ->
  c = 0 \/ c ∈ cs /\ c ∉ done -> (forall c, c ∈ cs -> file_ok sb v0 (D0 c) /\ di_size (D0 c) = i_size i0) ->
  (forall e s, w e s = writei_ext_fuel devsw_read devsw_write fuel e src off n 0 s) ->
  exists s' D', write_child devsw_read w ROOTDEV c s = Ok tt s' /\
    group sb s' ip i cs D' u r (4 + k) /\ phase1 i s' D' (c :: done).
Proof.
  intros G P Hc HD Hw. unfold cost in G. destruct Hc as [->|[Hc Hnd]].
  { exists s, D. cbn in G. rewrite Nat.add_0_r in G. split_and!; [done|done|]. destruct P as [P1 P2 P3 P4 P5]. constructor; try done.
    - intros c Hc Hd. destruct (g_rep _ _ _ _ _ _ _ _ _ G c Hc) as [Hin _ _ _]. apply P2; [done|].
      apply elem_of_cons in Hd as [->|]; [lia|done].
    - intros c Hc Hd. apply P3; [done|]. set_solver. }
  pose proof (g_rep _ _ _ _ _ _ _ _ _ G c Hc) as [Hin _ F _]. rewrite (proj2 (Z.eqb_neq c 0)), !Nat.mul_1_l in G by lia.
  destruct (p1_todo _ _ _ _ P c Hc Hnd) as [Ec Sc]. destruct (HD c Hc) as [Fc Hsz].
  destruct (write_child_Ok r sb s ip i cs D u k c w fuel src off n G Hc) as (e & j & rf & d' & l' & Hs & R & Wr & G'); [by rewrite Ec, Hsz|done|].
  rewrite Ec in Wr, F. set (s' := entry _ _ _ _) in *. pose proof (rd_bm _ _ _ _ (g_ready _ _ _ _ _ _ _ _ _ G)) as Hbm.
  pose proof (wrote_data _ _ _ _ _ _ _ _ Wr Hbm) as Hdata.
  exists s', (fupd D c d'). split_and!; [done|done|]. destruct P as [P1 P2 P3 P4 P5]. constructor; cbn [low s' entry set_icache set_low].
  - eapply written_same; [exact P1| |exact Hdata]. eapply wrote_same; [exact Wr|done|apply G|].
    rewrite <- Ec. by apply apart_sym, G.
  - intros c' Hc' Hd. destruct (decide (c' = c)) as [->|Hne].
    + rewrite fupd_eq. unfold replaced. rewrite <- (same_contents sb _ (bl_view (low s)) (D0 c) Fc Sc). by eapply wrote_written.
    + rewrite fupd_ne by done. eapply written_same; [apply P2; [done|set_solver]| |exact Hdata].
      eapply wrote_same; [exact Wr|done|apply (g_rep _ _ _ _ _ _ _ _ _ G c' Hc')|]. rewrite <- Ec. by apply G.
  - intros c' Hc' Hd. destruct (P3 c' Hc' ltac:(set_solver)) as [Ec' Sc']. rewrite fupd_ne by set_solver. split; [done|].
    intros a Ha. rewrite <- (Sc' a Ha). eapply (wrote_same _ _ _ _ _ _ _ _ Wr Hbm (D0 c')).
    + rewrite <- Ec'. apply (g_rep _ _ _ _ _ _ _ _ _ G c' Hc').
    + rewrite <- Ec, <- Ec'. apply G; [done|done|set_solver].
    + by apply (same_in_file v0).
  - intros x Hx Hu. apply (wr_used _ _ _ _ _ _ _ _ Wr); [done|by apply P4].
  - intros x Hx Hu Hxb Hf Hfs. rewrite <- (P5 x Hx Hu Hxb Hf Hfs). apply (wr_view _ _ _ _ _ _ _ _ Wr); [done|by apply P4|done|].
    rewrite (same_in_file v0) by done. by apply Hfs.
Qed.

(** The inode is on disk, and so are the replicas in [done]; the others are written. *)
Record phase2 (i : inode) (s : fsst L) (D : Z -> dinode) (done : list Z) : Prop := {
  p2_parent : disk_inode s (i_inum i) = i_d i /\ contents (bl_view (low s)) (i_d i) = replaced (i_d i0);
  p2_done : forall c, c ∈ cs -> c ∈ done -> disk_inode s c = d_set_nlink 1 (D c) /\
    di_size (D c) = sz /\ di_checksum (D c) = i_checksum i /\ contents (bl_view (low s)) (D c) = replaced (D0 c);
  p2_todo : forall c, c ∈ cs -> c ∉ done -> written (bl_view (low s)) (D c) (replaced (D0 c));
  p2_frame : forall x, 0 <= x < sb_size sb -> used (v0 (bm sb)) x = true -> x <> bm sb ->
    x <> IBLOCK (i_inum i) -> (forall c, c ∈ cs -> x <> IBLOCK c) ->
    ~ in_file v0 (i_d i0) x -> (forall c, c ∈ cs -> ~ in_file v0 (D0 c) x) -> bl_view (low s) x = v0 x
}.

Lemma update_step r k i s D done c :
  group sb s ip i cs D u r (2 + k) -> phase2 i s D done -> c = 0 \/ c ∈ cs /\ c ∉ done ->
  i_size i = sz -> 0 <= i_inum i -> (forall c, c ∈ cs -> IBLOCK c ∈ u) ->
  exists s' D', (if negb (c =? 0) then let! ic := iget ROOTDEV (u32 c) in cupdate devsw_read ip ic else ret tt) s = Ok tt s' /\
    group sb s' ip i cs D' u r (2 + k) /\ phase2 i s' D' (c :: done).
Proof.
  intros G P Hc Esz Hnum HU. destruct Hc as [->|[Hc Hnd]].
  { exists s, D. split_and!; [done|done|]. destruct P as [P1 P2 P3 P4]. constructor; try done.
    - intros c Hc Hd. destruct (g_rep _ _ _ _ _ _ _ _ _ G c Hc) as [Hin _ _ _]. apply P2; [done|].
      apply elem_of_cons in Hd as [->|]; [lia|done].
    - intros c Hc Hd. apply P3; [done|]. set_solver. }
  pose proof (g_rep _ _ _ _ _ _ _ _ _ G c Hc) as [Hin _ F _]. pose proof P as [P1 P2 P3 P4].
  pose proof (g_ready _ _ _ _ _ _ _ _ _ G) as W0. pose proof (bm_range _ _ (wt_geo _ _ _ _ _ _ _ W0)).
  pose proof (iblock_range _ _ c (wt_geo _ _ _ _ _ _ _ W0) ltac:(lia)).
  destruct (P3 c Hc Hnd) as [Fw Cw]. rewrite <- Esz in Fw, Cw.
  destruct (update_child_Ok sb s ip i cs D u r k c G Hc (HU c Hc) Fw) as (e & j & rf & l' & Hs & R & V & G').
  set (d' := d_set_checksum _ _) in *. set (s' := entry _ _ _ _) in *.
  assert (Sm : forall d, file_map sb (bl_view (low s)) d -> same_file (bl_view (low s)) (bl_view l') d).
  { intros d Fd a Ha. rewrite V. by eapply (upd_same sb); [exact Fd|lia|]. }
  assert (Hdata : forall a, data_block sb (bl_view (low s)) a -> data_block sb (bl_view l') a).
  { intros a [Ha1 Ha2]. split; [done|]. rewrite V, upd_view_ne by lia. done. }
  assert (Hwd : wf_dinode (d_set_nlink 1 d')).
  { destruct (g_rep _ _ _ _ _ _ _ _ _ G' c Hc) as [_ _ F' _]. rewrite fupd_eq in F'.
    destruct (fo_wf _ _ _ F') as (?&?&?&_&?&?&?&?&?&?). split_and!; try done; unfold is_i16; cbn; lia. }
  assert (Hwv : forall x, wf_block (bl_view (low s) x)) by (intros; by apply bl_wf, W0).
  assert (Hdi : forall m, 0 <= m -> m <> c -> disk_inode s' m = disk_inode s m).
  { intros m Hm Hne. unfold disk_inode. cbn [low s' entry set_icache set_low]. rewrite V. apply disk_put; try done; lia. }
  destruct (g_self _ _ _ _ _ _ _ _ _ G) as [_ Hself].
  exists s', (fupd D c d'). split_and!; [|done|].
  { rewrite (proj2 (Z.eqb_neq c 0)) by lia. cbn [negb]. replace (u32 c) with c by (symmetry; apply Z.mod_small; lia). exact R. }
  constructor; cbn [low s' entry set_icache set_low].
  - rewrite Hdi; [|done|intros E; apply Hself; by rewrite E]. split; [apply P1|]. rewrite <- (proj2 P1). eapply same_contents; [apply G|apply Sm, G].
  - intros c' Hc' Hd. destruct (decide (c' = c)) as [->|Hne].
    + rewrite fupd_eq. split_and!; [|done|done|].
      * unfold disk_inode. cbn [low s' entry set_icache set_low]. rewrite V, upd_view_eq. apply get_put_dinode; try done; lia.
      * rewrite <- Cw. change (contents (bl_view l') d') with (contents (bl_view l') (d_set_size (i_size i) (D c))).
        eapply same_contents; [exact Fw|apply Sm, Fw].
    + rewrite fupd_ne by done. destruct (g_rep _ _ _ _ _ _ _ _ _ G c' Hc') as [Hin' _ Fc' _].
      destruct (P2 c' Hc' ltac:(set_solver)) as (Q1 & Q2 & Q3 & Q4). rewrite Hdi by (done || lia). split_and!; try done.
      rewrite <- Q4. eapply same_contents; [exact Fc'|apply Sm, Fc'].
  - intros c' Hc' Hd. rewrite fupd_ne by set_solver. eapply written_same; [apply P3; [done|set_solver]| |exact Hdata].
    apply Sm, (g_rep _ _ _ _ _ _ _ _ _ G c' Hc').
  - intros x Hx Hu Hxb Hxi Hxc Hf Hfs. rewrite V, upd_view_ne by (by apply Hxc). by apply P4.
Qed.
End Write.

(** What the write of a file with replicas needs: in a transaction, room and free
    blocks for the file and each of its replicas, and replicas of the same size. *)
Record replicated_write (r : nat) (sb : superblock) (s : fsst L) (ip : nat) (i : inode) (D : Z -> dinode)
    (src : list Z) (off n : Z) : Prop := {
  rw_group : group sb s ip i (children i) D (write_set sb i)
    (r + (1 + length (children i)) * (2 * Z.to_nat (span off n)))
    ((1 + length (children i)) * (1 + Z.to_nat (span off n)) + 5);
  rw_inum : 0 <= i_inum i < sb_ninodes sb;
  rw_type : i_type i <> T_DEV /\ i_type i <> T_DITTO;
  rw_args : write_args src off n (i_size i);
  rw_sizes : forall c, c ∈ children i -> di_size (D c) = i_size i
}.

(** The loop of the file itself. *)
Lemma parent_written r1 k1 sb s ip i D u src off n :
  group sb s ip i (children i) D u (r1 + 2 * Z.to_nat (span off n)) (1 + Z.to_nat (span off n) + (4 + k1)) ->
  write_args src off n (i_size i) ->
  exists d l, writei_loop RWFUEL ip src 0 off n s = Ok (off + n) (after s ip i d l) /\
    d = Dinode (i_type i) (i_major i) (i_minor i) (i_nlink i) (i_size i) (di_addrs d) (i_child1 i) (i_child2 i) (i_checksum i) /\
    group sb (after s ip i d l) ip (i_set_d d i) (children i) D u r1 (4 + k1) /\
    phase1 sb s i D src off n (i_set_d d i) (after s ip i d l) D [].
Proof.
  intros G Ar. pose proof Ar as [Ho Hn Hm Hs]. pose proof (g_ready _ _ _ _ _ _ _ _ _ G) as W0.
  destruct (loop_Ok r1 sb s ip i u src off n) as (d & l & R & Inv); try done; [|lia|].
  { constructor; try apply W0. eapply budget_le; [apply W0|lia]. }
  exists d, l. pose proof (wi_wrote _ _ _ _ _ _ _ _ _ _ Inv) as Wr. pose proof (rd_bm _ _ _ _ W0) as Hbm.
  pose proof (loop_moved _ _ _ _ _ _ _ _ _ _ _ _ W0 ltac:(lia) ltac:(lia) Inv) as Mv.
  assert (Sc : forall c, c ∈ children i -> same_file (bl_view (low s)) (bl_view l) (D c)).
  { intros c Hc. eapply wrote_same; [exact Wr|done|apply (g_rep _ _ _ _ _ _ _ _ _ G c Hc)|by apply G]. }
  split_and!; [done|apply Wr| |].
  - eapply group_parent; [done|exact Mv| | |].
    + intros c Hc. split; [by apply Sc|]. pose proof (g_rep _ _ _ _ _ _ _ _ _ G c Hc) as [Hin _ _ _]. unfold disk_inode.
      erewrite wrote_iblock; [done|apply W0|eapply avail_le; [apply W0|lia]|apply W0|exact Wr|lia].
    + eapply wrote_ok; [apply G|exact Wr].
    + intros c Hc. eapply wrote_apart; [exact Wr|done|apply (g_rep _ _ _ _ _ _ _ _ _ G c Hc)|by apply G].
  - constructor.
    + eapply wrote_written; [done|apply G|done|exact Wr].
    + intros c _ Hd. by apply not_elem_of_nil in Hd.
    + intros c Hc _. split; [done|by apply Sc].
    + apply Wr.
    + intros x Hx Hu Hxb Hf _. by apply (wr_view _ _ _ _ _ _ _ _ Wr).
Qed.

(** The inode, given its size, is stored, with its replicas still to come. *)
Lemma parent_stored r k sb s0 i0 D0 s ip i D u src off n done (i2 := i_set_d (d_set_size (Z.max (i_size i0) (off + n)) (i_d i)) i) :
  group sb s ip i (children i0) D u r (2 + k) -> phase1 sb s0 i0 D0 src off n i s D done ->
  (forall c, c ∈ children i0 -> c ∈ done) -> 0 <= i_inum i < sb_ninodes sb -> IBLOCK (i_inum i) ∈ u -> i_type i <> T_DEV ->
  exists d l, di_checksum d = checksum_of (replaced s0 src off n (i_d i0)) /\
    d = d_set_checksum (di_checksum d) (i_d i2) /\
    iupdate_ext devsw_read ip 0 (after s ip i (i_d i2) (low s)) =
      iupdate_replicas devsw_read ip (i_set_d d i) (after s ip i d l) /\
    group sb (after s ip i d l) ip (i_set_d d i) (children i0) D u r (2 + k) /\
    phase2 sb s0 i0 D0 src off n (i_set_d d i) (after s ip i d l) D [].
Proof.
  intros G P Hall Hnum HU Ht. pose proof (g_ready _ _ _ _ _ _ _ _ _ G) as W0. pose proof P as [[F C] P2 _ P4 P5].
  pose proof (wt_geo _ _ _ _ _ _ _ W0) as Geo. pose proof (bm_range _ _ Geo). pose proof (iblock_range _ _ _ Geo Hnum).
  set (s2 := after s ip i (i_d i2) (low s)).
  assert (Rd : readable sb s2 ip i2).
  { constructor; [constructor|exact Ht|exact F]; try apply W0; [by eapply entry_lookup, W0|apply F]. }
  destruct (iupdate_self devsw_read sb s2 ip i2 u k 0 Rd) as (l & R & E);
    [apply W0|done|apply W0|apply W0|apply (wt_free _ _ _ _ _ _ _ W0)|].
  cbn [low s2 after set_icache set_low] in R, E. change (i_d i2) with (d_set_size (Z.max (i_size i0) (off + n)) (i_d i)) in R, E.
  set (d1 := d_set_size _ (i_d i)) in *. rewrite C in R, E. set (d := d_set_checksum _ d1) in *.
  assert (Hwv : forall x, wf_block (bl_view (low s) x)) by (intros; by apply bl_wf, W0).
  assert (Hck : is_u32 (checksum_of (replaced s0 src off n (i_d i0)))) by (rewrite <- C; by apply checksum_u32, contents_u8).
  assert (Fd : file_ok sb (bl_view (low s)) d) by (by apply file_ok_checksum).
  change (i_inum i2) with (i_inum i) in E.
  pose proof (put_moved sb s ip i u r (2 + k) (i_inum i) _ l W0 Hnum HU E) as Mv.
  assert (Sm : forall e, file_map sb (bl_view (low s)) e -> same_file (bl_view (low s)) (bl_view l) e).
  { intros e Fe a Ha. rewrite (ef_view _ _ _ _ E). by eapply (upd_same sb); [exact Fe|lia|]. }
  assert (Fd' : file_ok sb (bl_view l) d) by (eapply same_file_ok; [apply Sm, Fd|apply Mv|done]).
  exists d, l. split_and!; [done|done| | |].
  - etransitivity; [exact R|]. cbn [Z.eqb]. unfold s2, i2. by rewrite after_after.
  - eapply group_parent; [done|exact Mv| |done|].
    + intros c Hc. pose proof (g_rep _ _ _ _ _ _ _ _ _ G c Hc) as [Hin _ Fc _]. split; [apply Sm, Fc|].
      unfold disk_inode. rewrite (ef_view _ _ _ _ E). apply disk_put; try done; [apply Fd|lia|lia|].
      intros Ec. apply (g_self _ _ _ _ _ _ _ _ _ G). by rewrite Ec.
    + intros c Hc. eapply same_apart; [apply Sm, (g_rep _ _ _ _ _ _ _ _ _ G c Hc)|apply (Sm (i_d i)), G|by apply G].
  - constructor; cbn [low after set_icache set_low].
    + split.
      * unfold disk_inode. cbn [low after set_icache set_low i_inum i_set_d]. rewrite (ef_view _ _ _ _ E), upd_view_eq.
        apply get_put_dinode; [done|lia|apply Fd].
      * rewrite <- C. change (contents (bl_view l) d1 = contents (bl_view (low s)) d1). eapply same_contents; [exact F|apply Sm, F].
    + intros c _ Hd. by apply not_elem_of_nil in Hd.
    + intros c Hc _. eapply written_same; [by apply P2; [|apply Hall]| |apply Mv]. apply Sm, (g_rep _ _ _ _ _ _ _ _ _ G c Hc).
    + intros x Hx Hu Hxb Hxi _ Hf Hfs. cbn [i_inum i_set_d] in Hxi. rewrite (ef_view _ _ _ _ E), upd_view_ne by done. by apply P5.
Qed.

Lemma set_size_Ok s ip i off n :
  icache s !! ip = Some i -> 0 <= n -> 0 <= off <= i_size i ->
  (if (0 <? n) && (i_size i <? off + n) then upd_inode ip (i_upd_d (d_set_size (off + n))) else ret tt) s =
  Ok tt (after s ip i (d_set_size (Z.max (i_size i) (off + n)) (i_d i)) (low s)).
Proof.
  intros Hi Hn Ho. destruct (_ && _) eqn:E.
  - erewrite upd_inode_Ok by exact Hi. rewrite Z.max_r by lia. by destruct s.
  - rewrite Z.max_l by lia. replace (d_set_size (i_size i) (i_d i)) with (i_d i) by (by destruct i as [? ? ? ? []]).
    rewrite after_same by done. by destruct s.
Qed.

(** Both replicas, in turn: their contents, and their inodes. *)
Lemma replicas_written r k sb s0 ip i0 D0 u src off n i s D w fuel (c1 := i_child1 i0) (c2 := i_child2 i0) (sp := Z.to_nat (span off n)) :
  write_args src off n (i_size i0) ->
  group sb s ip i (children i0) D u (r + (cost c1 + cost c2) * (2 * sp)) ((cost c1 + cost c2) * (1 + sp) + (4 + k)) ->
  phase1 sb s0 i0 D0 src off n i s D [] -> i_child1 i = c1 -> i_child2 i = c2 ->
  (forall c, c ∈ children i0 -> file_ok sb (bl_view (low s0)) (D0 c) /\ di_size (D0 c) = i_size i0) ->
  (forall e s, w e s = writei_ext_fuel devsw_read devsw_write fuel e src off n 0 s) ->
  exists s' D', (let! i := get_inode ip in
      write_child devsw_read w (i_dev i) (i_child1 i) ;;;
      let! i := get_inode ip in
      write_child devsw_read w (i_dev i) (i_child2 i)) s = Ok tt s' /\
    group sb s' ip i (children i0) D' u r (4 + k) /\ phase1 sb s0 i0 D0 src off n i s' D' [c2; c1].
Proof.
  intros Ar G P Ec1 Ec2 HD Hw. pose proof (rd_inode _ _ _ _ (g_ready _ _ _ _ _ _ _ _ _ G)) as Hi.
  pose proof (rd_dev _ _ _ _ (g_ready _ _ _ _ _ _ _ _ _ G)) as Hdev. pose proof (g_nodup _ _ _ _ _ _ _ _ _ G) as Hnd.
  replace (r + (cost c1 + cost c2) * (2 * sp))%nat with (r + cost c2 * (2 * sp) + cost c1 * (2 * sp))%nat in G by lia.
  replace ((cost c1 + cost c2) * (1 + sp) + (4 + k))%nat with (cost c1 * (1 + sp) + (4 + (cost c2 * (1 + sp) + k)))%nat in G by lia.
  destruct (write_step sb s0 ip i0 D0 u src off n Ar _ _ _ _ _ _ c1 w fuel G P (child_first i0) HD Hw) as (s2 & D2 & R2 & G2 & P2).
  pose proof (rd_inode _ _ _ _ (g_ready _ _ _ _ _ _ _ _ _ G2)) as Hi2.
  replace (4 + (cost c2 * (1 + sp) + k))%nat with (cost c2 * (1 + sp) + (4 + k))%nat in G2 by lia.
  destruct (write_step sb s0 ip i0 D0 u src off n Ar _ _ _ _ _ _ c2 w fuel G2 P2 (child_second i0 Hnd) HD Hw) as (s3 & D3 & R3 & G3 & P3).
  exists s3, D3. split; [|done]. inode_step Hi. rewrite Hdev, Ec1. erewrite bind_Ok by exact R2. cbv beta.
  inode_step Hi2. rewrite Hdev, Ec2. exact R3.
Qed.

Lemma replicas_stored r k sb s0 ip i0 D0 u src off n i s D (c1 := i_child1 i0) (c2 := i_child2 i0) :
  write_args src off n (i_size i0) -> group sb s ip i (children i0) D u r (2 + k) ->
  phase2 sb s0 i0 D0 src off n i s D [] -> i_child1 i = c1 -> i_child2 i = c2 ->
  i_size i = Z.max (i_size i0) (off + n) -> 0 <= i_inum i -> (forall c, c ∈ children i0 -> IBLOCK c ∈ u) ->
  exists s' D', iupdate_replicas devsw_read ip i s = Ok tt s' /\
    group sb s' ip i (children i0) D' u r (2 + k) /\ phase2 sb s0 i0 D0 src off n i s' D' [c2; c1].
Proof.
  intros Ar G P Ec1 Ec2 Esz Hnum HU. pose proof (rd_dev _ _ _ _ (g_ready _ _ _ _ _ _ _ _ _ G)) as Hdev.
  pose proof (g_nodup _ _ _ _ _ _ _ _ _ G) as Hnd.
  destruct (update_step sb s0 ip i0 D0 u src off n Ar r k i s D [] c1 G P (child_first i0) Esz Hnum HU) as (s2 & D2 & R2 & G2 & P2).
  pose proof (rd_inode _ _ _ _ (g_ready _ _ _ _ _ _ _ _ _ G2)) as Hi2.
  destruct (update_step sb s0 ip i0 D0 u src off n Ar r k i s2 D2 [c1] c2 G2 P2 (child_second i0 Hnd) Esz Hnum HU) as (s3 & D3 & R3 & G3 & P3).
  exists s3, D3. split; [|done]. unfold iupdate_replicas. rewrite Ec1, Hdev, (bind_Ok _ _ _ _ _ R2).
  inode_step Hi2. rewrite Hdev, Ec2. exact R3.
Qed.

Lemma writei_group r sb s ip i D src off n :
  replicated_write r sb s ip i D src off n ->
  exists s' d D', writei devsw_read devsw_write ip src off n s = Ok n s' /\
    group sb s' ip (i_set_d d i) (children i) D' (write_set sb i) r 5 /\
    phase2 sb s i D src off n (i_set_d d i) s' D' [i_child2 i; i_child1 i] /\
    d = Dinode (i_type i) (i_major i) (i_minor i) (i_nlink i) (Z.max (i_size i) (off + n)) (di_addrs d)
          (i_child1 i) (i_child2 i) (checksum_of (replaced s src off n (i_d i))).
Proof.
  intros [G Hnum [Ht1 Ht2] Ar Hsz]. rewrite children_cost in G. pose proof Ar as [Ho Hn Hm Hs].
  destruct (write_set_in sb i) as (_ & Ui & Uc). set (u := write_set sb i) in *. set (cc := (cost (i_child1 i) + cost (i_child2 i))%nat) in G.
  pose proof (rd_inode _ _ _ _ (g_ready _ _ _ _ _ _ _ _ _ G)) as Hi.
  pose proof (fo_size _ _ _ (g_file _ _ _ _ _ _ _ _ _ G)) as Hmax. change (di_size (i_d i)) with (i_size i) in Hmax.
  assert (HD : forall c, c ∈ children i -> file_ok sb (bl_view (low s)) (D c) /\ di_size (D c) = i_size i).
  { intros c Hc. split; [apply (g_rep _ _ _ _ _ _ _ _ _ G c Hc)|by apply Hsz]. }
  set (sp := Z.to_nat (span off n)) in *.
  destruct (parent_written (r + cc * (2 * sp)) (cc * (1 + sp) + 1) sb s ip i D u src off n) as (d & l & R & Ed & G1 & P1); [|done|].
  { fold sp. replace (r + cc * (2 * sp) + 2 * sp)%nat with (r + (1 + cc) * (2 * sp))%nat by lia.
    replace (1 + sp + (4 + (cc * (1 + sp) + 1)))%nat with ((1 + cc) * (1 + sp) + 5)%nat by lia. exact G. }
  set (i1 := i_set_d d i) in *. set (s1 := after s ip i d l) in *.
  assert (Ei1 : i_child1 i1 = i_child1 i /\ i_child2 i1 = i_child2 i /\ i_type i1 = i_type i /\ i_size i1 = i_size i)
    by (unfold i_child1, i_child2, i_type, i_size; cbn [i_d i_set_d i1]; rewrite Ed; done).
  destruct Ei1 as (Ec1 & Ec2 & Et & Es).
  set (w := fun ic => writei_ext_fuel devsw_read devsw_write (pred LOCKFUEL) ic src off n 0).
  replace (4 + (cc * (1 + sp) + 1))%nat with (cc * (1 + sp) + (4 + 1))%nat in G1 by lia.
  destruct (replicas_written r 1 sb s ip i D u src off n i1 s1 D w (pred LOCKFUEL) Ar G1 P1 Ec1 Ec2 HD) as (s3 & D3 & R3 & G3 & P3); [done|].
  destruct (parent_stored r 3 sb s i D s3 ip i1 D3 u src off n _ G3 P3) as (d4 & l4 & Eck & Ed4 & R4 & G4 & P4); try done.
  { intros c Hc. by apply child_all. } { by rewrite Et. }
  set (i4 := i_set_d d4 i1) in *. set (s4 := after s3 ip i1 d4 l4) in *. set (sz := Z.max (i_size i) (off + n)) in *.
  assert (Ed4' : d4 = Dinode (i_type i) (i_major i) (i_minor i) (i_nlink i) sz (di_addrs d4) (i_child1 i) (i_child2 i) (di_checksum d4)).
  { rewrite Ed4. cbn. by rewrite Ed. }
  assert (Ei4 : i_child1 i4 = i_child1 i /\ i_child2 i4 = i_child2 i /\ i_size i4 = sz)
    by (unfold i_child1, i_child2, i_size; cbn [i_d i_set_d i4]; rewrite Ed4'; done).
  destruct Ei4 as (Ec41 & Ec42 & Es4).
  destruct (replicas_stored r 3 sb s ip i D u src off n i4 s4 D3 Ar G4 P4 Ec41 Ec42 Es4) as (s6 & D6 & R6 & G6 & P6); [apply Hnum|done|].
  exists s6, d4, D6. split_and!; [|exact G6|exact P6|by rewrite <- Eck].
  pose proof (rd_inode _ _ _ _ (g_ready _ _ _ _ _ _ _ _ _ G3)) as Hi3.
  unfold writei, writei_ext. change LOCKFUEL with (S (pred LOCKFUEL)). cbn [writei_ext_fuel]. fold w.
  inode_step Hi. rewrite (proj2 (Z.eqb_neq _ _) Ht1). rewrite u32_id by klia.
  rewrite (proj2 (Z.ltb_ge (i_size i) off)), (proj2 (Z.ltb_ge (off + n) off)),
    (proj2 (Z.ltb_ge (MAXFILE * BSIZE) (off + n))) by lia. cbn [orb].
  rewrite (bind_Ok _ _ _ _ _ R). cbn [Z.eqb]. rewrite (bind_Ok _ _ _ _ _ R3). inode_step Hi3.
  rewrite Et. rewrite (proj2 (Z.eqb_neq _ _) Ht2). rewrite (bind_Ok _ _ s3 tt (after s3 ip i1 (d_set_size sz (i_d i1)) (low s3))).
  2: { unfold sz. rewrite <- Es in Ho |- *. by apply set_size_Ok; [|lia|]. }
  erewrite bind_Ok by (apply get_inode_Ok; eapply entry_lookup; exact Hi3). cbv beta.
  change (i_type (i_set_d (d_set_size sz (i_d i1)) i1)) with (i_type i1). rewrite Et, (proj2 (Z.eqb_neq _ _) Ht1). cbn [negb].
  rewrite (bind_Ok _ _ _ tt s6); [unfold ret; f_equal; unfold i32; rewrite Z.mod_small by klia; lia|].
  etransitivity; [exact R4|exact R6].
Qed.

(** C11: a write keeps the replicas of a file.  [writei] of a file or directory
    with up to two replicas of the same size, in a transaction with log space and
    free blocks for all of them, stores the bytes in the file and in every
    replica and returns [n].  Afterwards each has its old contents with the range
    replaced, and all inodes on disk (those of the replicas with a link count of
    1) hold the same size and the same checksum, which is that of the file's
    contents; so replicas that were equal to the file are equal to it again.  No
    other block in use changes. *)
Theorem writei_replicates r sb s ip i D src off n :
  replicated_write r sb s ip i D src off n ->
  exists s' i' D', writei devsw_read devsw_write ip src off n s = Ok n s' /\
    readable sb s' ip i' /\ disk_inode s' (i_inum i) = i_d i' /\
    i' = i_set_d (Dinode (i_type i) (i_major i) (i_minor i) (i_nlink i) (Z.max (i_size i) (off + n)) (di_addrs (i_d i'))
                    (i_child1 i) (i_child2 i) (i_checksum i')) i /\
    contents (bl_view (low s')) (i_d i') =
      splice (Z.to_nat off) (take (Z.to_nat n) src) (contents (bl_view (low s)) (i_d i)) /\
    i_checksum i' = checksum_of (contents (bl_view (low s')) (i_d i')) /\
    (forall c, c ∈ children i -> replica sb s' c (D' c) /\ disk_inode s' c = d_set_nlink 1 (D' c) /\
       di_size (D' c) = i_size i' /\ di_checksum (D' c) = i_checksum i' /\
       contents (bl_view (low s')) (D' c) =
         splice (Z.to_nat off) (take (Z.to_nat n) src) (contents (bl_view (low s)) (D c))) /\
    (forall x, 0 <= x < sb_size sb -> used (bl_view (low s) (bm sb)) x = true -> x <> bm sb ->
       x <> IBLOCK (i_inum i) -> (forall c, c ∈ children i -> x <> IBLOCK c) ->
       ~ in_file (bl_view (low s)) (i_d i) x -> (forall c, c ∈ children i -> ~ in_file (bl_view (low s)) (D c) x) ->
       bl_view (low s') x = bl_view (low s) x).
Proof.
  intros W. destruct (writei_group _ _ _ _ _ _ _ _ _ W) as (s' & d & D' & R & G & [[Pd Pc] P2 _ P4] & Ed).
  exists s', (i_set_d d i), D'. cbn [i_d i_set_d] in Pd, Pc.
  assert (Es : i_size (i_set_d d i) = Z.max (i_size i) (off + n) /\ i_type (i_set_d d i) = i_type i /\
    i_checksum (i_set_d d i) = checksum_of (replaced s src off n (i_d i)))
    by (unfold i_size, i_type, i_checksum; cbn [i_d i_set_d]; rewrite Ed; done).
  destruct Es as (Es & Et & Ek). split_and!; [done| |done|by rewrite Ek; cbn; f_equal|done|by rewrite Ek, <- Pc| |done].
  - constructor; [apply G|rewrite Et; apply W|apply G].
  - intros c Hc. destruct (P2 c Hc (child_all _ _ _ Hc)) as (Q1 & Q2 & Q3 & Q4). rewrite Es. split_and!; try done. by apply G.
Qed.
End ReplicaProofs.
