(* ===== verification/FsDemo.v ===== *)
(** * FsDemo: the file system on a concrete disk

    A disk image with a superblock, a bitmap and one file, started with the log
    and the buffer cache of the other files.  The file system's theorems are
    stated against the interface of the block layer; the lemmas here apply them
    to this system. *)

From S2P Require Import Prelude Layout Ide Bio Block Log FsBlock FsInode FsFile FsWrite FsLock FsReplica.
Open Scope Z_scope.
Open Scope xv6_scope.

(** The bits [bs] of a bitmap block. *)
Definition bitmap (bs : list Z) : list Z := foldl set_bit zero_block bs.

Definition demo_sb : superblock := Superblock FSSIZE 1900 200 LOGSIZE.
Definition demo_bitmap : list Z := bitmap (seqZ 0 32).

(** A file of 600 bytes in blocks 29 and 30; they are [5, 0, 0, ...].  Inode 2 is
    such a file with the right checksum, inode 3 has a wrong one, and inode 4
    has a wrong one and a replica, inode 7. *)
Definition demo_dinode (child1 checksum : Z) : dinode :=
  Dinode T_FILE 0 0 1 600 [29; 30; 0; 0; 0; 0; 0; 0; 0; 0; 0] child1 0 checksum.
Definition demo_file : dinode := demo_dinode 0 5.
Definition demo_inodes : list Z :=
  put_dinode (put_dinode (put_dinode zero_block 2 demo_file) 3 (demo_dinode 0 9)) 4 (demo_dinode 7 9).
Definition demo_data : list Z := <[0%nat := 5]> zero_block.
Definition demo_image : gmap sector (list Z) :=
  <[(1, 2) := demo_inodes]> (<[(1, 28) := demo_bitmap]> (<[(1, 29) := demo_data]> fresh_image)).

Definition block_ok (b : list Z) : bool := (length b =? 512)%nat && forallb (fun x => (0 <=? x) && (x <? 256)) b.

Lemma block_ok_wf b : block_ok b = true -> wf_block b.
Proof.
  unfold block_ok. intros [Hl Hf]%andb_true_iff. apply Nat.eqb_eq in Hl. split; [done|].
  apply Forall_forall. intros x Hx. rewrite forallb_forall in Hf. apply list_elem_of_In in Hx.
  specialize (Hf x Hx). unfold is_u8. lia.
Qed.

Lemma demo_valid : valid_image demo_image.
Proof.
  destruct fresh_valid as (Hw & Hsz). split; [|by vm_compute].
  intros c. unfold demo_image. rewrite !disk_get_insert. repeat case_decide; try apply Hw;
    by apply block_ok_wf; vm_compute.
Qed.

Lemma demo_header : disk_header demo_image [].
Proof. split; [split; [by vm_compute|done]|split; [cbn; lia|by constructor]]. Qed.

(** A transaction on the image: what it shows is the image. *)
Definition demo_view (b : Z) : list Z := disk_get demo_image (1, b).

Lemma demo_start : exists l : logst,
  bl_inv l /\ bl_held l = ∅ /\ bl_trans l = [] /\ bl_outstanding l = 1 /\
  forall b, 0 <= b < LOGSTART -> bl_view l b = demo_view b.
Proof.
  destruct (startup_Ok demo_image [] demo_valid demo_header) as (s & hd & R & Hi & Hhe & Ht & Ho & _ & Hdk & _).
  clear R. destruct (log_begin_law s) as (l & R & I & Hh & T & O & V & _); [done|rewrite Ht, Ho; cbn; klia|].
  clear R. exists l. split_and!; [done|cbn in *; congruence|cbn in *; congruence|cbn in *; rewrite O, Ho; done|].
  intros b Hb. cbn in *. rewrite V.
  erewrite quiet_view; [|by apply li_quiet|by rewrite (li_dirty _ Hi), Ht].
  rewrite Hdk. cbn. rewrite disk_get_insert, decide_False by (intros [= ?]; lia). done.
Qed.

(** Any view of the disk that shows the image. *)
Section View.
Context (v : Z -> list Z) (Hv : forall b, 0 <= b < LOGSTART -> v b = demo_view b).

Lemma demo_bm : bm demo_sb = 28.
Proof. done. Qed.

Lemma view_geometry : fs_geometry v demo_sb.
Proof.
  constructor; [rewrite Hv by (unfold LOGSTART; klia)|cbn; klia|cbn; unfold LOGSTART; klia].
  by vm_compute.
Qed.

Lemma view_used x : 0 <= x < FSSIZE -> used (v (bm demo_sb)) x = (x <? 32).
Proof.
  intros Hx. rewrite demo_bm, Hv by (unfold LOGSTART; klia).
  assert (forallb (fun x => eqb (used (demo_view 28) x) (x <? 32)) (seqZ 0 FSSIZE) = true) as H
    by (vm_compute; reflexivity).
  rewrite forallb_forall in H. apply eqb_prop, H, list_elem_of_In, elem_of_seqZ. klia.
Qed.

Lemma demo_addr w c1 ck k : 0 <= k ->
  file_addr w (demo_dinode c1 ck) k = if decide (k = 0) then 29 else if decide (k = 1) then 30 else 0.
Proof.
  intros H0. unfold file_addr. destruct (Z.ltb_spec k NDIRECT) as [Hk|Hk].
  - assert (k = 0 \/ k = 1 \/ k = 2 \/ k = 3 \/ k = 4 \/ k = 5 \/ k = 6 \/ k = 7 \/ k = 8 \/ k = 9) as Hc by klia.
    by repeat (destruct Hc as [->|Hc]; [done|]); subst.
  - by rewrite !decide_False by klia.
Qed.

Lemma view_dinode_ok c1 ck : is_i16 c1 -> is_u32 ck -> file_ok demo_sb v (demo_dinode c1 ck).
Proof.
  intros Hc1 Hck. assert (Hd : forall a, in_file v (demo_dinode c1 ck) a -> a = 29 \/ a = 30).
  { intros a [Ha [->|(k & Hk & ->)]]; [done|]. rewrite demo_addr in * by lia. repeat case_decide; first [by auto|done]. }
  constructor; [constructor|..].
  - unfold wf_dinode, is_i16, is_u32. cbn. split_and!; try klia. repeat apply Forall_cons_2; try lia; by apply Forall_nil.
  - intros a Ha. destruct (Hd a Ha) as [-> | ->];
      (split; [vm_compute; split; reflexivity|rewrite view_used by klia; reflexivity]).
  - intros b1 b2 H1 H2. rewrite !demo_addr by lia. repeat case_decide; subst; done.
  - intros bn Hb Hn E. apply Hn. by rewrite E.
  - cbn. klia.
  - intros bn Hb Hs. rewrite demo_addr by lia. cbn in Hs. repeat case_decide; klia.
Qed.
End View.

Section Demo.
Context (l : logst) (Hi : bl_inv l) (Hh : bl_held l = ∅) (Ht : bl_trans l = []) (Ho : bl_outstanding l = 1).
Context (Hv : forall b, 0 <= b < LOGSTART -> bl_view l b = demo_view b).

Lemma demo_geometry : fs_geometry (bl_view l) demo_sb.
Proof. by apply view_geometry. Qed.

Lemma demo_unlocked x : bl_unlocked l x.
Proof. intros i. by rewrite Hh, lookup_empty. Qed.

Lemma demo_budget u k : (size u + k <= 29)%nat -> budget l u k.
Proof.
  intros Hu. unfold budget. rewrite Ht, Hh, map_size_empty. cbn [list_to_set].
  replace (∅ ∪ u) with u by set_solver. lia.
Qed.

Lemma demo_used x : 0 <= x < FSSIZE ->
  used (bl_view l (bm demo_sb)) x = (x <? 32).
Proof. by apply view_used. Qed.

Lemma demo_dinode_ok c1 ck : is_i16 c1 -> is_u32 ck -> file_ok demo_sb (bl_view l) (demo_dinode c1 ck).
Proof. by apply view_dinode_ok. Qed.

Lemma demo_file_ok : file_ok demo_sb (bl_view l) demo_file.
Proof. apply demo_dinode_ok; klia. Qed.

(** The file is open: entry 0 of a cache of two, valid and locked. *)
Definition demo_inode : inode := Inode ROOTDEV 2 1 (Z.lor I_BUSY I_VALID) demo_file.
Definition demo_state : fsst logst := FsSt l [demo_inode; Inode 0 0 0 0 dinode_zero] 0.

Lemma demo_readable : readable demo_sb demo_state 0 demo_inode.
Proof.
  constructor; [constructor|..]; try done; [apply demo_file_ok|intros; apply demo_unlocked|apply demo_file_ok].
Qed.

Lemma demo_avail : avail demo_sb (bl_view l) 8.
Proof.
  split; [done|split].
  - intros x Hx. rewrite demo_bm in Hx. rewrite demo_used by klia. by rewrite (proj2 (Z.ltb_lt x 32)) by lia.
  - exists (list_to_set (seqZ 100 8)). split; [by vm_compute|].
    intros x Hx. apply elem_of_list_to_set, elem_of_seqZ in Hx. change (bm demo_sb) with 28 in *.
    split; [rewrite demo_bm; unfold LOGSTART; cbn; klia|].
    rewrite demo_used by klia. apply Z.ltb_ge. klia.
Qed.

Lemma demo_plain_write src :
  length src = 500%nat -> Forall is_u8 src -> plain_write 0 demo_sb demo_state 0 demo_inode src 600 500.
Proof.
  intros Hl Hs. constructor; try done; try (cbn; lia).
  - constructor; try done.
    + apply demo_readable.
    + apply demo_geometry.
    + cbn [low demo_state]. lia.
    + cbn [low demo_state]. eapply avail_le; [apply demo_avail|by vm_compute; lia].
    + apply demo_budget. by vm_compute; lia.
    + intros x. apply demo_unlocked.
  - apply demo_file_ok.
Qed.

Lemma demo_contents c1 ck : contents (bl_view l) (demo_dinode c1 ck) = 5 :: replicate 599 0.
Proof.
  transitivity (contents demo_view (demo_dinode c1 ck)); [|by vm_compute].
  apply list_fmap_ext. intros k x [-> Hx]%lookup_seqZ. cbn in Hx. unfold file_byte, file_block.
  assert (0 <= (0 + Z.of_nat k) / BSIZE < 2) as Hb.
  { split; [apply Z.div_pos; klia|apply Z.div_lt_upper_bound; klia]. }
  rewrite !demo_addr by lia. repeat case_decide; try (exfalso; lia); rewrite Hv by (unfold LOGSTART; klia); done.
Qed.

(** The files not read yet: entry 0 refers to one of them, entry 1 is unused. *)
Definition cold_inode (inum : Z) : inode := Inode ROOTDEV inum 1 0 dinode_zero.
Definition cold_state (inum : Z) : fsst logst := FsSt l [cold_inode inum; Inode 0 0 0 0 dinode_zero] 0.

Lemma demo_cold inum : 0 <= inum < 200 -> cold demo_sb (cold_state inum) 0 (cold_inode inum) 1.
Proof.
  intros Hn. constructor; try done.
  - apply demo_geometry.
  - intros x. apply demo_unlocked.
  - apply demo_budget. vm_compute. lia.
Qed.

Lemma demo_disk_inode inum d :
  0 <= inum < 8 -> get_dinode demo_inodes inum = d -> disk_inode (cold_state inum) inum = d.
Proof.
  intros Hn <-. unfold disk_inode, IBLOCK. change IPB with 8. rewrite Z.div_small by lia. cbn [low cold_state].
  by rewrite Hv by (unfold LOGSTART; klia).
Qed.
(** Blocks 30 and 31, which are zero, as a file or directory and its replica,
    inode 2. *)
Definition twin (type child1 a : Z) : dinode := Dinode type 0 0 1 512 [a; 0; 0; 0; 0; 0; 0; 0; 0; 0; 0] child1 0 0.
Definition twin_inode (type : Z) : inode := Inode ROOTDEV 1 1 (Z.lor I_BUSY I_VALID) (twin type 2 30).
Definition twin_ditto : dinode := twin T_DITTO 0 31.
Definition twin_state (type : Z) : fsst logst := FsSt l [twin_inode type; Inode ROOTDEV 2 1 I_VALID twin_ditto] 0.

Lemma twin_addr v type c1 a k : 0 <= k -> file_addr v (twin type c1 a) k = if decide (k = 0) then a else 0.
Proof.
  intros H0. unfold file_addr. destruct (Z.ltb_spec k NDIRECT) as [Hk|Hk]; [|by rewrite decide_False by klia].
  assert (k = 0 \/ k = 1 \/ k = 2 \/ k = 3 \/ k = 4 \/ k = 5 \/ k = 6 \/ k = 7 \/ k = 8 \/ k = 9) as Hc by klia.
  by repeat (destruct Hc as [->|Hc]; [done|]); subst.
Qed.

Lemma twin_in v type c1 a x : in_file v (twin type c1 a) x -> x = a.
Proof. intros [Ha [->|(k & Hk & ->)]]; [done|]. rewrite twin_addr in * by lia. by case_decide. Qed.

Lemma twin_ok type c1 a : is_i16 type -> is_i16 c1 -> 30 <= a <= 31 -> file_ok demo_sb (bl_view l) (twin type c1 a).
Proof.
  intros Ht' Hc1 Ha. constructor; [constructor|..].
  - unfold wf_dinode, is_i16, is_u32 in *. cbn. split_and!; try klia. repeat apply Forall_cons_2; try lia; by apply Forall_nil.
  - intros x ->%twin_in. split; [rewrite demo_bm; unfold LOGSTART; cbn; klia|]. rewrite demo_used by klia. by apply Z.ltb_lt; lia.
  - intros b1 b2 H1 H2. rewrite !twin_addr by lia. repeat case_decide; subst; done.
  - intros bn Hb. rewrite twin_addr by lia. by case_decide.
  - cbn. klia.
  - intros bn Hb Hs. rewrite twin_addr by lia. cbn in Hs. case_decide; klia.
Qed.

Lemma twin_contents type c1 a : 30 <= a <= 31 -> contents (bl_view l) (twin type c1 a) = zero_block.
Proof.
  intros Ha. transitivity (contents (fun _ => zero_block) (twin T_DIR 0 30)); [|by vm_compute].
  apply list_fmap_ext. intros k x [-> Hx]%lookup_seqZ. cbn in Hx. unfold file_byte, file_block.
  rewrite (Z.div_small (0 + Z.of_nat k) BSIZE) by klia. rewrite !twin_addr, !decide_True by done.
  rewrite (proj2 (Z.eqb_neq a 0)), Hv by (unfold LOGSTART; klia). assert (a = 30 \/ a = 31) as [-> | ->] by lia; done.
Qed.

Lemma twin_readable type : is_i16 type -> type <> T_DEV -> readable demo_sb (twin_state type) 0 (twin_inode type).
Proof.
  intros Ht' Hd. pose proof (twin_ok type 2 30 Ht' ltac:(klia) ltac:(lia)) as F.
  constructor; [constructor|..]; try done; [apply F|intros; apply demo_unlocked].
Qed.

Lemma twin_group type n k :
  is_i16 type -> type <> T_DEV -> (n <= 8)%nat -> (size (write_set demo_sb (twin_inode type)) + k <= 29)%nat ->
  group demo_sb (twin_state type) 0 (twin_inode type) (children (twin_inode type)) (fun _ => twin_ditto)
    (write_set demo_sb (twin_inode type)) n k.
Proof.
  intros Ht' Hd Hn Hk. change (children (twin_inode type)) with [2].
  pose proof (twin_ok T_DITTO 0 31 ltac:(klia) ltac:(klia) ltac:(lia)) as F. constructor.
  - constructor; [by apply twin_readable|apply demo_geometry|..].
    + cbn [low twin_state]. lia.
    + cbn [low twin_state]. eapply avail_le; [apply demo_avail|done].
    + by apply demo_budget.
    + apply write_set_in.
    + intros x. apply demo_unlocked.
  - by apply (twin_readable type).
  - split; [done|]. cbn. set_solver.
  - intros c ->%list_elem_of_singleton. constructor; [by compute| |exact F|done]. by left.
  - intros c _ x ->%twin_in ?%twin_in. lia.
  - intros c c' ->%list_elem_of_singleton ->%list_elem_of_singleton. done.
  - apply NoDup_singleton.
  - vm_compute. lia.
Qed.

End Demo.

(** No device is installed. *)
Definition no_read (_ : Z) : option (nat -> Z -> M (fsst logst) (Z * list Z)) := None.
Definition no_write (_ : Z) : option (nat -> list Z -> Z -> M (fsst logst) Z) := None.

(** ** The theorems, applied *)

Lemma balloc_spec_witness : exists l l' : logst, balloc ROOTDEV l = Ok 32 l'.
Proof.
  destruct demo_start as (l & Hi & Hh & Ht & Ho & Hv).
  destruct (balloc_spec l demo_sb) as [(b & l' & R & (Hb & Hf & Hlow) & _)|[(b & _ & _ & (_ & _ & Hlow) & Hb & _)|[Hall _]]].
  - exact Hi.
  - exact (demo_geometry l Hv).
  - rewrite Ho. reflexivity.
  - apply demo_budget; try assumption. vm_compute; lia.
  - exact (demo_unlocked l Hh 1).
  - exact (demo_unlocked l Hh (bm demo_sb)).
  - intros x _. exact (demo_unlocked l Hh x).
  - rewrite demo_used by (done || klia). reflexivity.
  - exists l, l'. replace 32 with b; [exact R|]. change (sb_size demo_sb) with FSSIZE in Hb.
    rewrite demo_used in Hf by (done || klia). apply Z.ltb_ge in Hf.
    destruct (Z.le_gt_cases b 32) as [|Hgt]; [lia|]. specialize (Hlow 32 ltac:(lia)).
    rewrite demo_used in Hlow by (done || klia). discriminate Hlow.
  - specialize (Hlow 32). rewrite demo_used in Hlow by (done || klia). discriminate Hlow. unfold LOGSTART in Hb. klia.
  - specialize (Hall 32). rewrite demo_used in Hall by (done || klia). discriminate Hall. cbn. klia.
Defined.

Lemma bfree_after_balloc_witness : exists l l1 l2 : logst,
  balloc ROOTDEV l = Ok 32 l1 /\ bfree ROOTDEV 32 l1 = Ok tt l2.
Proof.
  destruct demo_start as (l & Hi & Hh & Ht & Ho & Hv).
  destruct (bfree_after_balloc l demo_sb 32) as (l1 & l2 & R1 & R2 & _).
  - exact Hi.
  - exact (demo_geometry l Hv).
  - rewrite Ho. reflexivity.
  - apply demo_budget; try assumption. vm_compute; lia.
  - intros x. exact (demo_unlocked l Hh x).
  - split_and!; [klia|cbn; klia|rewrite demo_used by (done || klia); reflexivity|].
    intros x Hx. rewrite demo_used by (done || klia). by rewrite (proj2 (Z.ltb_lt x 32)) by lia.
  - unfold LOGSTART. klia.
  - discriminate.
  - discriminate.
  - exists l, l1, l2. split; [exact R1|exact R2].
Defined.

Lemma readi_returns_slice_witness : exists (s s' : fsst logst) bs,
  readi no_read 0 100 20 s = Ok (20, bs) s' /\ length bs = 20%nat.
Proof.
  destruct demo_start as (l & Hi & Hh & Ht & Ho & Hv).
  destruct (readi_returns_slice no_read demo_sb (demo_state l) 0 demo_inode 100 20) as (s' & R & _).
  - by apply demo_readable.
  - apply demo_budget; try assumption. vm_compute; lia.
  - cbn. lia.
  - lia.
  - eexists (demo_state l), s', _. split; [exact R|]. apply length_sub_bytes.
    pose proof (length_contents (bl_view l) demo_file). cbn in *. lia.
Defined.

Lemma ichecksum_is_xor_witness : exists (s s' : fsst logst) c, ichecksum no_read 0 s = Ok c s'.
Proof.
  destruct demo_start as (l & Hi & Hh & Ht & Ho & Hv).
  destruct (ichecksum_is_xor no_read demo_sb (demo_state l) 0 demo_inode) as (s' & R & _).
  - by apply demo_readable.
  - apply demo_budget; try assumption. vm_compute; lia.
  - eexists (demo_state l), s', _. exact R.
Defined.

(** 500 bytes written at the end of the file, into its last block and a new one. *)
Definition demo_src : list Z := replicate 500 7.

Lemma demo_src_u8 : Forall is_u8 demo_src.
Proof. apply Forall_replicate. klia. Qed.

Lemma writei_splices_witness : exists (s s' : fsst logst) i',
  writei no_read no_write 0 demo_src 600 500 s = Ok 500 s' /\ readable demo_sb s' 0 i'.
Proof.
  destruct demo_start as (l & Hi & Hh & Ht & Ho & Hv).
  destruct (writei_splices 0 no_read no_write demo_sb (demo_state l) 0 demo_inode demo_src 600 500) as (s' & i' & R & _ & Rd & _).
  - by apply demo_plain_write; [..|apply demo_src_u8].
  - exists (demo_state l), s', i'. split; [exact R|exact Rd].
Defined.

Lemma writei_replicates_witness : exists (s s' : fsst logst) i' d',
  writei no_read no_write 0 demo_src 500 500 s = Ok 500 s' /\
  readable demo_sb s' 0 i' /\ replica demo_sb s' 2 d' /\
  contents (bl_view (low s')) (i_d i') = contents (bl_view (low s')) d'.
Proof.
  destruct demo_start as (l & Hi & Hh & Ht & Ho & Hv).
  destruct (writei_replicates no_read no_write 0 demo_sb (twin_state l T_FILE) 0 (twin_inode T_FILE) (fun _ => twin_ditto)
    demo_src 500 500) as (s' & i' & D' & R & Rd & _ & _ & C & _ & HD & _).
  - constructor; [|by compute|done| |done].
    + apply twin_group; try assumption; [klia|done|vm_compute; lia|vm_compute; lia].
    + constructor; [cbn; lia|by compute|klia|apply demo_src_u8].
  - destruct (HD 2) as (H2 & _ & _ & _ & C2); [by left|].
    exists (twin_state l T_FILE), s', i', (D' 2). split_and!; [exact R|exact Rd|exact H2|]. rewrite C, C2. f_equal.
    transitivity zero_block; [|symmetry]; apply twin_contents; assumption || lia.
Defined.

Lemma read_after_write_witness : exists s s1 s2 : fsst logst,
  writei no_read no_write 0 demo_src 600 500 s = Ok 500 s1 /\
  readi no_read 0 600 500 s1 = Ok (500, demo_src) s2.
Proof.
  destruct demo_start as (l & Hi & Hh & Ht & Ho & Hv).
  destruct (read_after_write 0 no_read no_write demo_sb (demo_state l) 0 demo_inode demo_src 600 500) as (s1 & s2 & R1 & R2).
  - by apply demo_plain_write; [..|apply demo_src_u8].
  - exists (demo_state l), s1, s2. split; [exact R1|exact R2].
Defined.

Lemma writei_refuses_witness : exists s : fsst logst,
  writei no_read no_write 0 demo_src 601 500 s = Ok (-1) s.
Proof.
  destruct demo_start as (l & _). exists (demo_state l).
  apply (writei_refuses no_read no_write (demo_state l) 0 demo_inode); [reflexivity|discriminate|klia|klia|].
  left. reflexivity.
Defined.

Lemma ilock_verifies_witness : exists (s s' : fsst logst), ilock no_read 0 s = Ok 0 s'.
Proof.
  destruct demo_start as (l & Hi & Hh & Ht & Ho & Hv).
  destruct (ilock_verifies no_read demo_sb (cold_state l 2) 0 (cold_inode 2)) as (_ & _ & V); [reflexivity|cbn; lia|].
  destruct (V demo_file) as (l' & _ & R).
  - apply demo_disk_inode; try assumption; [cbn; lia|by vm_compute].
  - apply demo_cold; try assumption. lia.
  - intros _. by apply demo_file_ok.
  - rewrite decide_True in R; [eexists _, _; exact R|]. unfold demo_file. cbn [low cold_state].
    rewrite inode_sum_file by discriminate. rewrite (demo_contents l) by assumption. by vm_compute.
Defined.

Lemma get_word_other (bs : list Z) x y j : 0 <= j -> j <> 0 -> get_word (x :: bs) j = get_word (y :: bs) j.
Proof.
  intros H0 Hj. unfold get_word, sub_bytes. destruct (Z.to_nat (4 * j)) eqn:E; [lia|done].
Qed.

Lemma ilock_detects_damage_witness : exists (s s' : fsst logst), ilock no_read 0 s = Ok E_CORRUPTED s'.
Proof.
  destruct demo_start as (l & Hi & Hh & Ht & Ho & Hv).
  destruct (ilock_detects_damage no_read demo_sb (cold_state l 3) 0 (cold_inode 3) (demo_dinode 0 9)
              (9 :: replicate 599 0) 0) as (s' & R).
  - apply demo_disk_inode; try assumption; [cbn; lia|by vm_compute].
  - apply demo_cold; try assumption. lia.
  - by apply demo_dinode_ok.
  - discriminate.
  - reflexivity.
  - by vm_compute.
  - cbn [low cold_state]. rewrite (demo_contents l) by assumption. reflexivity.
  - vm_compute. split; congruence.
  - cbn [low cold_state]. rewrite (demo_contents l) by assumption. by vm_compute.
  - intros j Hj Hne. cbn [low cold_state]. rewrite (demo_contents l) by assumption. by apply get_word_other.
  - exists (cold_state l 3), s'. exact R.
Defined.

(** What a cache entry holds that was never used. *)
Lemma zero_file_ok sb w : file_ok sb w dinode_zero.
Proof.
  assert (Hz : forall k, file_addr w dinode_zero k = 0).
  { intros k. unfold file_addr, direct. cbn [di_addrs dinode_zero]. destruct (k <? NDIRECT); [|done].
    by destruct (replicate 11 0 !! Z.to_nat k) eqn:E; [apply lookup_replicate in E as [-> _]|]. }
  assert (Hn : forall a, ~ in_file w dinode_zero a) by (intros a [Ha [->|(k & _ & ->)]]; [done|by rewrite Hz in Ha]).
  constructor; [constructor|cbn; klia|].
  - unfold wf_dinode, is_i16, is_u32. cbn. split_and!; try klia. repeat apply Forall_cons_2; try lia; by apply Forall_nil.
  - intros a Ha. by destruct (Hn a).
  - intros b1 b2 _ _ _ H2. by rewrite Hz in H2.
  - intros bn _ H2. by rewrite Hz in H2.
  - intros bn Hb Hs. cbn in Hs. klia.
Qed.

Lemma ilock_misses_cold_replica_witness : exists (s s' : fsst logst), ilock no_read 0 s = Ok E_CORRUPTED s'.
Proof.
  destruct demo_start as (l & Hi & Hh & Ht & Ho & Hv).
  destruct (ilock_misses_cold_replica no_read demo_sb (cold_state l 4) 0 (cold_inode 4) (demo_dinode 7 9)) as (s' & R & _).
  - apply demo_disk_inode; try assumption; [cbn; lia|by vm_compute].
  - apply demo_cold; try assumption. lia.
  - intros _. by apply demo_dinode_ok.
  - cbn [low cold_state]. rewrite inode_sum_file by discriminate. rewrite (demo_contents l) by assumption. by vm_compute.
  - constructor.
    + split; [cbn; lia|]. by intros [|[|k]] j [= <-]; cbn; intros (_ & _ & ?).
    + by left.
    + vm_compute. lia.
    + intros [|[|k]] j [= <-] Hj; [done|]. cbn [i_d]. split; [intros _; apply zero_file_ok|].
      by rewrite inode_sum_file.
  - exists (cold_state l 4), s'. exact R.
Defined.
