(* ===== verification/Kalloc.v ===== *)
(** * Kalloc: the physical page allocator (kalloc.c)

    Memory is a function from addresses to bytes.  The free pages are linked
    through their own first word, as in the code: [freelist] points to the
    first, and [r->next] is read from and written to memory.  The theorems show
    that the list is a stack of distinct pages: [kalloc] never returns a page
    that is in use, and what the owner of an allocated page stores in it cannot
    affect the allocator. *)

From S2P Require Import Prelude.
Open Scope Z_scope.
Open Scope xv6_scope.

(** ** Memory *)

Definition PGSIZE : Z := 4096.
Definition KERNBASE : Z := 2147483648.
Definition PHYSTOP : Z := 234881024.
Definition EXTMEM : Z := 1048576.
Definition DEVSPACE : Z := 4261412864.
Definition KERNLINK : Z := KERNBASE + EXTMEM.

Definition PGROUNDDOWN (a : Z) : Z := Z.land a (u32 (Z.lnot (PGSIZE - 1))).
Definition PGROUNDUP (sz : Z) : Z := Z.land (u32 (sz + PGSIZE - 1)) (u32 (Z.lnot (PGSIZE - 1))).
Definition v2p (a : Z) : Z := u32 (a - KERNBASE).
Definition p2v (a : Z) : Z := u32 (a + KERNBASE).

(** The bytes at the kernel's virtual addresses. *)
Definition memory : Type := Z -> Z.
Definition fill (m : memory) (a n c : Z) : memory :=
  fun x => if (a <=? x) && (x <? a + n) then c else m x.
Definition read32 (m : memory) (a : Z) : Z :=
  m a + 256 * (m (a + 1) + 256 * (m (a + 2) + 256 * m (a + 3))).
Definition write32 (m : memory) (a v : Z) : memory :=
  fun x => if (a <=? x) && (x <? a + 4) then (v / 256 ^ (x - a)) mod 256 else m x.

(** ** The allocator *)

(** [kmem], and the memory it manages; [end_] is the first address after the
    kernel, chosen by the linker. *)
Record kst := Kst { kmem : memory; freelist : Z; use_lock : bool }.
Definition set_kmem (m : memory) (s : kst) : kst := Kst m (freelist s) (use_lock s).

Section Kalloc.
Context (end_ : Z).

(** [acquire] and [release] of [kmem.lock] are the subject of Spinlock. *)
Definition kfree (v : Z) : M kst unit :=
  if negb (v mod PGSIZE =? 0) || (v <? end_) || (PHYSTOP <=? v2p v) then panic "kfree" else
  modify (fun s => set_kmem (fill (kmem s) v PGSIZE 1) s) ;;;
  modify (fun s => Kst (write32 (kmem s) v (freelist s)) v (use_lock s)).

Definition kalloc : M kst Z :=
  let! s := gets id in
  let r := freelist s in
  (if negb (r =? 0) then modify (fun s => Kst (kmem s) (read32 (kmem s) r) (use_lock s)) else ret tt) ;;;
  ret r.

(** The loop of [freerange]: one turn for every page that fits. *)
Fixpoint freerange_loop (fuel : nat) (p vend : Z) : M kst unit :=
  if u32 (p + PGSIZE) <=? vend then
    match fuel with
    | O => halt OutOfFuel
    | S fuel => kfree p ;;; freerange_loop fuel (u32 (p + PGSIZE)) vend
    end
  else ret tt.

Definition RANGEFUEL : nat := Z.to_nat (2 ^ 32 / PGSIZE).

Definition freerange (vstart vend : Z) : M kst unit :=
  freerange_loop RANGEFUEL (PGROUNDUP vstart) vend.

Definition kinit1 (vstart vend : Z) : M kst unit :=
  modify (fun s => Kst (kmem s) (freelist s) false) ;;;
  freerange vstart vend.

Definition kinit2 (vstart vend : Z) : M kst unit :=
  freerange vstart vend ;;;
  modify (fun s => Kst (kmem s) (freelist s) true).

(** ** Pages *)

(** The page that contains an address. *)
Definition page_of (a : Z) : Z := a - a mod PGSIZE.

(** An address [kfree] accepts. *)
Definition page_ok (p : Z) : Prop :=
  p mod PGSIZE = 0 /\ end_ <= p /\ KERNBASE <= p < KERNBASE + PHYSTOP /\ p <> 0.

(** The list of free pages, as it is threaded through memory. *)
Fixpoint chain (m : memory) (p : Z) (l : list Z) : Prop :=
  match l with
  | [] => p = 0
  | q :: l => p = q /\ chain m (read32 m q) l
  end.

(** The free pages are [l]. *)
Record kinv (s : kst) (l : list Z) : Prop := {
  ki_chain : chain (kmem s) (freelist s) l;
  ki_pages : Forall page_ok l;
  ki_nodup : NoDup l
}.

Definition is_byte_mem (m : memory) : Prop := forall a, is_u8 (m a).

Lemma read_write32 m a v : is_u32 v -> read32 (write32 m a v) a = v.
Proof.
  intros Hv. unfold read32, write32, is_u32 in *.
  replace ((a <=? a) && (a <? a + 4)) with true by lia.
  replace ((a <=? a + 1) && (a + 1 <? a + 4)) with true by lia.
  replace ((a <=? a + 2) && (a + 2 <? a + 4)) with true by lia.
  replace ((a <=? a + 3) && (a + 3 <? a + 4)) with true by lia.
  replace (a - a) with 0 by lia. replace (a + 1 - a) with 1 by lia.
  replace (a + 2 - a) with 2 by lia. replace (a + 3 - a) with 3 by lia.
  change (256 ^ 0) with 1. change (256 ^ 1) with 256. change (256 ^ 2) with 65536. change (256 ^ 3) with 16777216.
  rewrite Z.div_1_r. Z.div_mod_to_equations. lia.
Qed.

Lemma read32_ext m m' a :
  (forall x, a <= x < a + 4 -> m x = m' x) -> read32 m a = read32 m' a.
Proof. intros E. unfold read32. rewrite !E by lia. done. Qed.

Lemma read32_u32 m a : is_byte_mem m -> is_u32 (read32 m a).
Proof.
  intros Hm. unfold read32, is_u32. pose proof (Hm a). pose proof (Hm (a + 1)). pose proof (Hm (a + 2)).
  pose proof (Hm (a + 3)). unfold is_u8 in *. lia.
Qed.

Lemma write32_other m a v x : x < a \/ a + 4 <= x -> write32 m a v x = m x.
Proof. intros Hx. unfold write32. by replace ((a <=? x) && (x <? a + 4)) with false by lia. Qed.

Lemma fill_other m a n c x : x < a \/ a + n <= x -> fill m a n c x = m x.
Proof. intros Hx. unfold fill. by replace ((a <=? x) && (x <? a + n)) with false by lia. Qed.

Lemma fill_in m a n c x : a <= x < a + n -> fill m a n c x = c.
Proof. intros Hx. unfold fill. by replace ((a <=? x) && (x <? a + n)) with true by lia. Qed.

(** Two different pages do not overlap. *)
Lemma pages_apart p q :
  p mod PGSIZE = 0 -> q mod PGSIZE = 0 -> p <> q -> p + PGSIZE <= q \/ q + PGSIZE <= p.
Proof. unfold PGSIZE. intros. Z.div_mod_to_equations. lia. Qed.

Lemma chain_frame m m' p l :
  (forall q, q ∈ l -> read32 m' q = read32 m q) -> chain m p l -> chain m' p l.
Proof.
  revert p. induction l as [|q l IH]; intros p E; cbn; [done|]. intros [-> Hc]. split; [done|].
  rewrite E by set_solver. apply IH; [|done]. intros x Hx. apply E. set_solver.
Qed.

(** The allocator does not depend on memory outside the free pages. *)
Lemma kinv_frame s m' l :
  (forall q x, q ∈ l -> q <= x < q + PGSIZE -> m' x = kmem s x) ->
  kinv s l -> kinv (set_kmem m' s) l.
Proof.
  intros E [C P N]. constructor; try done. cbn. eapply chain_frame; [|done].
  intros q Hq. apply read32_ext. intros x Hx. apply (E q); [done|]. unfold PGSIZE. lia.
Qed.

Lemma kfree_Ok s l v :
  kinv s l -> page_ok v -> v ∉ l ->
  exists s', kfree v s = Ok tt s' /\ kinv s' (v :: l) /\ use_lock s' = use_lock s /\
    forall x, x < v \/ v + PGSIZE <= x -> kmem s' x = kmem s x.
Proof.
  intros [C P N] Hv Hn. pose proof Hv as (Ha & He & Hr & H0).
  set (m := write32 (fill (kmem s) v PGSIZE 1) v (freelist s)).
  assert (Hother : forall x, x < v \/ v + PGSIZE <= x -> m x = kmem s x).
  { intros x Hx. unfold m. rewrite write32_other, fill_other; [done|lia|unfold PGSIZE in *; lia]. }
  exists (Kst m v (use_lock s)). split_and!; try done.
  - unfold kfree. rewrite Ha. change (0 =? 0) with true. cbn [negb orb].
    replace (v <? end_) with false by lia. replace (PHYSTOP <=? v2p v) with false; [done|].
    unfold v2p, u32. rewrite Z.mod_small; unfold KERNBASE, PHYSTOP in *; lia.
  - constructor; cbn; [|by constructor|by constructor]. split; [done|]. unfold m.
    rewrite read_write32.
    + eapply chain_frame; [|done]. intros q Hq. apply read32_ext. intros x Hx.
      rewrite Forall_forall in P. destruct (P q Hq) as (Hqa & _).
      destruct (pages_apart v q Ha Hqa) as [?|?]; [congruence|..]; unfold PGSIZE in *;
        rewrite write32_other, fill_other by lia; done.
    + destruct l as [|q l]; cbn in C; [rewrite C; unfold is_u32; lia|]. destruct C as [-> _].
      rewrite Forall_cons in P. destruct P as [(_ & _ & ? & _) _]. unfold is_u32, KERNBASE, PHYSTOP in *. lia.
Qed.

Lemma kalloc_Ok s l :
  kinv s l ->
  kalloc s = match l with
             | [] => Ok 0 s
             | p :: l' => Ok p (Kst (kmem s) (read32 (kmem s) p) (use_lock s))
             end /\
  match l with
  | [] => True
  | p :: l' => kinv (Kst (kmem s) (read32 (kmem s) p) (use_lock s)) l'
  end.
Proof.
  intros [C P N]. unfold kalloc. unfold gets, bind at 1. cbn [id]. destruct l as [|p l]; cbn in C.
  - rewrite C. done.
  - destruct C as [-> C]. rewrite Forall_cons in P. destruct P as [(Hp & _ & _ & H0) P].
    apply NoDup_cons in N as [Hn N]. rewrite (proj2 (Z.eqb_neq p 0) H0). split; [done|]. by constructor.
Qed.

(** ** Rounding to pages *)

Lemma land_page a : 0 <= a < 2 ^ 32 -> Z.land a (u32 (Z.lnot (PGSIZE - 1))) = a - a mod PGSIZE.
Proof.
  intros Ha. change (u32 (Z.lnot (PGSIZE - 1))) with (Z.shiftl (Z.ones 20) 12).
  assert (E : Z.land a (Z.shiftl (Z.ones 20) 12) = Z.shiftl (Z.shiftr a 12) 12).
  { apply Z.bits_inj'. intros n Hn. rewrite Z.land_spec, !Z.shiftl_spec by done.
    destruct (Z.lt_ge_cases n 12).
    - rewrite !(Z.testbit_neg_r _ (n - 12)) by lia. apply andb_false_r.
    - rewrite Z.shiftr_spec by lia. replace (n - 12 + 12) with n by lia. rewrite Z.testbit_ones_nonneg by lia.
      destruct (Z.ltb_spec (n - 12) 20).
      + by rewrite andb_true_r.
      + rewrite andb_false_r. symmetry.
        destruct (decide (a = 0)) as [->|]; [by rewrite Z.testbit_0_l|].
        apply Z.bits_above_log2; [lia|]. assert (Z.log2 a < 32) by (apply Z.log2_lt_pow2; lia). lia. }
  rewrite E, Z.shiftl_mul_pow2, Z.shiftr_div_pow2 by lia. change (2 ^ 12) with PGSIZE.
  pose proof (Z.div_mod a PGSIZE ltac:(done)). lia.
Qed.

Lemma PGROUNDUP_spec a : 0 <= a -> a + PGSIZE < 2 ^ 32 ->
  PGROUNDUP a mod PGSIZE = 0 /\ a <= PGROUNDUP a < a + PGSIZE.
Proof.
  intros Ha Hb.
  assert (E : PGROUNDUP a = (a + PGSIZE - 1) / PGSIZE * PGSIZE).
  { unfold PGROUNDUP. replace (u32 (a + PGSIZE - 1)) with (a + PGSIZE - 1)
      by (symmetry; apply Z.mod_small; unfold PGSIZE in *; lia).
    rewrite land_page by (unfold PGSIZE in *; lia).
    pose proof (Z.div_mod (a + PGSIZE - 1) PGSIZE ltac:(done)). lia. }
  rewrite E. split; [by apply Z.mod_mul|].
  pose proof (Z.mod_pos_bound (a + PGSIZE - 1) PGSIZE ltac:(done)).
  pose proof (Z.div_mod (a + PGSIZE - 1) PGSIZE ltac:(done)). lia.
Qed.

(** ** [freerange] *)

(** The pages of [[p, vend)], from the first on. *)
Definition pages_from (p : Z) (n : nat) : list Z := (fun k => p + PGSIZE * k) <$> seqZ 0 (Z.of_nat n).

Lemma pages_from_S p n : pages_from p (S n) = p :: pages_from (p + PGSIZE) n.
Proof.
  unfold pages_from. rewrite seqZ_cons by lia. rewrite fmap_cons. f_equal; [lia|].
  replace (Z.pred (Z.of_nat (S n))) with (Z.of_nat n) by lia. 
  replace (seqZ (Z.succ 0) (Z.of_nat n)) with (Z.add 1 <$> seqZ 0 (Z.of_nat n)) by (by rewrite fmap_add_seqZ).
  rewrite <- list_fmap_compose.
  apply list_fmap_ext. intros. cbn. lia.
Qed.

Lemma pages_from_ge p n q : q ∈ pages_from p n -> p <= q.
Proof.
  intros (k & -> & Hk)%list_elem_of_fmap. apply elem_of_seqZ in Hk. unfold PGSIZE. lia.
Qed.

Lemma freerange_loop_Ok n : forall fuel p vend s l,
  kinv s l -> p mod PGSIZE = 0 -> end_ <= p -> KERNBASE <= p -> vend <= KERNBASE + PHYSTOP ->
  n = 0%nat \/ p + PGSIZE * Z.of_nat n <= vend -> vend < p + PGSIZE * (Z.of_nat n + 1) -> p < KERNBASE + PHYSTOP + PGSIZE ->
  Forall (fun q => q ∉ l) (pages_from p n) -> (n <= fuel)%nat ->
  exists s', freerange_loop fuel p vend s = Ok tt s' /\ kinv s' (reverse (pages_from p n) ++ l) /\
    use_lock s' = use_lock s.
Proof.
  induction n as [|n IH]; intros fuel p vend s l Hk Ha He Hp Hv Hn Hn1 Hpt Hl Hf.
  - exists s. split_and!; try done. destruct fuel; cbn [freerange_loop];
      (unfold u32; rewrite Z.mod_small by (unfold KERNBASE, PHYSTOP, PGSIZE in *; lia);
       by replace (p + PGSIZE <=? vend) with false by lia).
  - destruct fuel as [|fuel]; [lia|]. cbn [freerange_loop].
    assert (Hs : u32 (p + PGSIZE) = p + PGSIZE).
    { apply Z.mod_small. unfold KERNBASE, PHYSTOP, PGSIZE in *. lia. }
    rewrite !Hs. replace (p + PGSIZE <=? vend) with true by (unfold PGSIZE in *; lia).
    rewrite pages_from_S in Hl |- *. apply Forall_cons in Hl as [Hpl Hl].
    destruct (kfree_Ok s l p) as (s1 & R1 & K1 & U1 & _); [done| |done|].
    { split_and!; try done; unfold KERNBASE, PHYSTOP, PGSIZE in *; lia. }
    destruct (IH fuel (p + PGSIZE) vend s1 (p :: l)) as (s2 & R2 & K2 & U2); try done; try (unfold PGSIZE in *; lia).
    + rewrite Z.add_mod, Ha by done. done.
    + apply Forall_forall. intros q Hq. rewrite Forall_forall in Hl. specialize (Hl q Hq).
      apply pages_from_ge in Hq. unfold PGSIZE in *. rewrite not_elem_of_cons. split; [lia|done].
    + exists s2. split_and!.
      * by rewrite (bind_Ok _ _ _ _ _ R1).
      * by rewrite reverse_cons, <- app_assoc.
      * congruence.
Qed.

(** ** Clients *)

(** What the kernel can do with the allocator: take a page, store anything in
    the pages it took, give one back.  The second component is the pages taken. *)
Inductive krun (s0 : kst) : kst -> list Z -> Prop :=
| krun_start : krun s0 s0 []
| krun_alloc s o p s' : krun s0 s o -> kalloc s = Ok p s' -> p <> 0 -> krun s0 s' (p :: o)
| krun_store s o m : krun s0 s o ->
    (forall x, (forall p, p ∈ o -> x < p \/ p + PGSIZE <= x) -> m x = kmem s x) ->
    krun s0 (set_kmem m s) o
| krun_free s o1 p o2 s' : krun s0 s (o1 ++ p :: o2) -> kfree p s = Ok tt s' -> krun s0 s' (o1 ++ o2).

Lemma krun_inv s0 l0 s o : kinv s0 l0 -> krun s0 s o -> exists l, kinv s l /\ l ++ o ≡ₚ l0.
Proof.
  intros K0 R. induction R as [|s o p s' _ (l & K & P) R Hp|s o m _ (l & K & P) E|s o1 p o2 s' _ (l & K & P) R].
  - exists l0. by rewrite app_nil_r.
  - destruct (kalloc_Ok s l K) as [Hk Hl]. rewrite R in Hk. destruct l as [|q l]; [by injection Hk as -> _|].
    injection Hk as -> ->. exists l. split; [done|]. rewrite <- P. cbn. by rewrite <- Permutation_middle.
  - exists l. split; [|done]. apply kinv_frame; [|done]. intros q x Hq Hx. apply E. intros p Hp.
    assert (Hall : Forall page_ok (l ++ o)) by (rewrite P; apply K0).
    assert (Hnd : NoDup (l ++ o)) by (rewrite P; apply K0).
    apply Forall_app in Hall as [Hl Ho]. rewrite Forall_forall in Hl, Ho.
    destruct (Hl q Hq) as (Hqa & _). destruct (Ho p Hp) as (Hpa & _).
    apply NoDup_app in Hnd as (_ & Hd & _). assert (Hne : p <> q) by (intros ->; by apply (Hd q)).
    destruct (pages_apart p q Hpa Hqa Hne); unfold PGSIZE in *; lia.
  - assert (Hall : Forall page_ok (l ++ o1 ++ p :: o2)) by (rewrite P; apply K0).
    assert (Hnd : NoDup (l ++ o1 ++ p :: o2)) by (rewrite P; apply K0).
    destruct (kfree_Ok s l p) as (s1 & R1 & K1 & _); [done|..].
    + rewrite Forall_forall in Hall. apply Hall. set_solver.
    + apply NoDup_app in Hnd as (_ & Hd & _). intros Hp. apply (Hd p); [done|set_solver].
    + rewrite R in R1. injection R1 as <-. exists (p :: l). split; [done|]. rewrite <- P. cbn.
      by rewrite <- !Permutation_middle.
Qed.

(** C22: the allocator never hands out a page twice.  After any sequence of
    allocations, frees of allocated pages and arbitrary stores into them, the
    pages taken and the free pages are together the pages the allocator was
    given; the next [kalloc] returns a page that is not taken, or 0 exactly when
    all are taken, and [kfree] of a taken page does not panic. *)
Theorem kalloc_exclusive s0 l0 s o :
  kinv s0 l0 -> krun s0 s o ->
  (exists p s', kalloc s = Ok p s' /\ (p ∉ o) /\ (p = 0 <-> o ≡ₚ l0) /\ (p <> 0 -> p ∈ l0)) /\
  (forall p, p ∈ o -> exists s', kfree p s = Ok tt s').
Proof.
  intros K0 R. destruct (krun_inv _ _ _ _ K0 R) as (l & K & P). destruct (kalloc_Ok s l K) as [Hk _].
  assert (Hall : Forall page_ok (l ++ o)) by (rewrite P; apply K0). rewrite Forall_forall in Hall.
  assert (Hnd : NoDup (l ++ o)) by (rewrite P; apply K0). apply NoDup_app in Hnd as (_ & Hd & _).
  split.
  - destruct l as [|q l].
    + exists 0, s. split; [exact Hk|]. split; [|by split].
      intros H0. destruct (Hall 0) as (_ & _ & _ & ?); [set_solver|done].
    + eexists q, _. split_and!; [exact Hk|apply Hd; set_solver| |intros _; rewrite <- P; set_solver].
      split; [intros ->; destruct (Hall 0) as (_ & _ & _ & ?); [set_solver|done]|].
      intros E. rewrite <- P in E. apply Permutation_length in E. cbn in E. rewrite length_app in E. lia.
  - intros p Hp. destruct (kfree_Ok s l p) as (s' & R' & _); [done|apply Hall; set_solver| |by eauto].
    intros Hl. by apply (Hd p).
Qed.

(** [freerange] terminates and frees every whole page.  For a range above the
    kernel, it returns, and the free list is extended by exactly the pages that
    lie within the range, each once. *)
Lemma freerange_frees s l vstart vend :
  kinv s l -> end_ <= vstart -> KERNBASE <= vstart <= vend -> vend <= KERNBASE + PHYSTOP ->
  (forall q, q ∈ l -> q + PGSIZE <= vstart \/ vend <= q) ->
  exists s' l', freerange vstart vend s = Ok tt s' /\ kinv s' (l' ++ l) /\
    forall q, q ∈ l' <-> q mod PGSIZE = 0 /\ vstart <= q /\ q + PGSIZE <= vend.
Proof.
  intros K He Hv Hp Hl.
  destruct (PGROUNDUP_spec vstart) as (Ha & Hr); [unfold KERNBASE in *; lia|unfold KERNBASE, PHYSTOP, PGSIZE in *; lia|].
  set (p := PGROUNDUP vstart) in *. set (n := Z.to_nat ((vend - p) / PGSIZE)).
  assert (Hmem : forall q, q ∈ pages_from p n <-> q mod PGSIZE = 0 /\ vstart <= q /\ q + PGSIZE <= vend).
  { intros q. unfold pages_from. rewrite list_elem_of_fmap. setoid_rewrite elem_of_seqZ. unfold n, PGSIZE in *. split.
    - intros (k & -> & Hk). Z.div_mod_to_equations. lia.
    - intros (Hq & Hq1 & Hq2). exists ((q - p) / 4096). Z.div_mod_to_equations. lia. }
  destruct (freerange_loop_Ok n RANGEFUEL p vend s l) as (s' & R & K' & _); try done; try lia.
  - destruct (Z.le_gt_cases PGSIZE (vend - p)) as [Hc|Hc].
    + right. unfold n, PGSIZE in *. Z.div_mod_to_equations. lia.
    + left. unfold n. destruct (Z.lt_ge_cases (vend - p) 0).
      * pose proof (Z.div_lt_upper_bound (vend - p) PGSIZE 0). unfold PGSIZE in *. lia.
      * rewrite Z.div_small by lia. done.
  - unfold n, PGSIZE in *. Z.div_mod_to_equations. lia.
  - apply Forall_forall. intros q Hq Hql. apply Hmem in Hq. destruct (Hl q Hql); unfold PGSIZE in *; lia.
  - pose proof (Z.div_le_mono (vend - p) (2 ^ 32) PGSIZE ltac:(done)). unfold n, RANGEFUEL, KERNBASE, PHYSTOP in *. lia.
  - exists s', (reverse (pages_from p n)). split_and!; try done. intros q. by rewrite <- Hmem, elem_of_reverse.
Qed.
End Kalloc.

(** Two free pages, one of which is taken. *)
Definition two_pages : kst := Kst (write32 (fun _ => 0) KERNLINK (KERNLINK + PGSIZE)) KERNLINK false.

Lemma two_pages_inv : kinv KERNLINK two_pages [KERNLINK; KERNLINK + PGSIZE].
Proof.
  assert (Hp : forall p, p = KERNLINK \/ p = KERNLINK + PGSIZE -> page_ok KERNLINK p).
  { intros p [-> | ->]; (split; [reflexivity|]); unfold KERNLINK, KERNBASE, EXTMEM, PHYSTOP, PGSIZE; lia. }
  constructor.
  - cbn [chain two_pages kmem freelist]. vm_compute. done.
  - repeat constructor; apply Hp; auto.
  - repeat constructor; [by rewrite list_elem_of_singleton|by apply not_elem_of_nil].
Qed.

Lemma kalloc_exclusive_witness :
  exists s p s', krun KERNLINK two_pages s [KERNLINK] /\ kalloc s = Ok p s' /\ p <> KERNLINK.
Proof.
  set (s1 := Kst (kmem two_pages) (read32 (kmem two_pages) KERNLINK) false).
  assert (R : krun KERNLINK two_pages s1 [KERNLINK]).
  { eapply (krun_alloc _ _ _ []); [apply krun_start|reflexivity|discriminate]. }
  destruct (kalloc_exclusive KERNLINK two_pages _ s1 [KERNLINK] two_pages_inv R) as [(p & s' & Hk & Hn & _) _].
  exists s1, p, s'. split_and!; [exact R|exact Hk|]. intros ->. apply Hn, list_elem_of_singleton. reflexivity.
Defined.

Lemma freerange_frees_witness :
  exists s' l', freerange KERNLINK (KERNLINK + 5) (KERNLINK + 3 * PGSIZE) (Kst (fun _ => 0) 0 false) = Ok tt s' /\
    kinv KERNLINK s' (l' ++ []) /\ KERNLINK + PGSIZE ∈ l'.
Proof.
  destruct (freerange_frees KERNLINK (Kst (fun _ => 0) 0 false) [] (KERNLINK + 5) (KERNLINK + 3 * PGSIZE))
    as (s' & l' & R & K & Hl).
  - constructor; [reflexivity|constructor|constructor].
  - lia.
  - unfold KERNLINK, EXTMEM, PGSIZE. lia.
  - unfold KERNLINK, EXTMEM, PGSIZE, PHYSTOP. lia.
  - intros q Hq. by apply not_elem_of_nil in Hq.
  - exists s', l'. split_and!; [exact R|exact K|]. apply Hl. split; [reflexivity|]. unfold PGSIZE. lia.
Defined.
