(* ===== verification/Vm.v ===== *)
(** * Vm: page tables (vm.c)

    Two-level page tables in the memory of Kalloc: a page directory and page
    tables are pages of 1024 words, read and written as the code and the
    hardware do.  [translate] is the hardware's walk.  The theorems show what
    the mapping functions do to the translation: [mappages] maps the pages it
    is asked to map and changes no other translation, [allocuvm] adds zeroed
    pages that belong to nobody else, [deallocuvm] gives pages back. *)

From S2P Require Import Prelude Kalloc.
Open Scope Z_scope.
Open Scope xv6_scope.

Definition PTE_P : Z := 1.
Definition PTE_W : Z := 2.
Definition PTE_U : Z := 4.
Definition NPDENTRIES : Z := 1024.
Definition NPTENTRIES : Z := 1024.

Definition PDX (va : Z) : Z := Z.land (Z.shiftr va 22) 1023.
Definition PTX (va : Z) : Z := Z.land (Z.shiftr va 12) 1023.
Definition PTE_ADDR (pte : Z) : Z := Z.land pte (u32 (Z.lnot 4095)).
Definition PTE_FLAGS (pte : Z) : Z := Z.land pte 4095.
Definition pte_has (f pte : Z) : bool := negb (Z.land pte f =? 0).

Section Vm.
(** [end_] and [data_]: symbols of the linker script. *)
Context (end_ data_ : Z).
Local Abbreviation kfree := (kfree end_).

Definition rd (a : Z) : M kst Z := gets (fun s => read32 (kmem s) a).
Definition wrt (a v : Z) : M kst unit := modify (fun s => set_kmem (write32 (kmem s) a v) s).
Definition memset_page (a c n : Z) : M kst unit := modify (fun s => set_kmem (fill (kmem s) a n c) s).
(** [memmove] between different pages, or from [src] bytes elsewhere. *)
Definition copy_bytes (m : memory) (dst src n : Z) : memory :=
  fun x => if (dst <=? x) && (x <? dst + n) then m (src + (x - dst)) else m x.
Definition store_bytes (m : memory) (dst : Z) (bs : list Z) : memory :=
  fun x => if (dst <=? x) && (x <? dst + Z.of_nat (length bs)) then default 0 (bs !! Z.to_nat (x - dst)) else m x.

(** The address of the entry of [va], 0 if there is no page table for it. *)
Definition walkpgdir (pgdir va : Z) (alloc : bool) : M kst Z :=
  let pde := pgdir + 4 * PDX va in
  let! e := rd pde in
  if pte_has PTE_P e then ret (p2v (PTE_ADDR e) + 4 * PTX va)
  else if negb alloc then ret 0
  else
    let! pgtab := kalloc in
    if pgtab =? 0 then ret 0 else
    memset_page pgtab 0 PGSIZE ;;;
    wrt pde (Z.lor (Z.lor (Z.lor (v2p pgtab) PTE_P) PTE_W) PTE_U) ;;;
    ret (pgtab + 4 * PTX va).

(** The loop of [mappages]; a turn maps one page, and a 32-bit address space has
    this many. *)
Definition MAPFUEL : nat := Z.to_nat (2 ^ 32 / PGSIZE).

Fixpoint mappages_loop (fuel : nat) (pgdir a last pa perm : Z) : M kst Z :=
  match fuel with
  | O => halt OutOfFuel
  | S fuel =>
      let! pte := walkpgdir pgdir a true in
      if pte =? 0 then ret (-1) else
      let! e := rd pte in
      if pte_has PTE_P e then panic "remap" else
      wrt pte (Z.lor (Z.lor pa perm) PTE_P) ;;;
      if a =? last then ret 0
      else mappages_loop fuel pgdir (u32 (a + PGSIZE)) last (u32 (pa + PGSIZE)) perm
  end.

Definition mappages (pgdir va size pa perm : Z) : M kst Z :=
  mappages_loop MAPFUEL pgdir (PGROUNDDOWN va) (PGROUNDDOWN (u32 (va + size - 1))) pa perm.

(** The table of the kernel's mappings. *)
Record kmap := Kmap { virt : Z; phys_start : Z; phys_end : Z; perm : Z }.
Definition kmaps : list kmap :=
  [ Kmap KERNBASE 0 EXTMEM PTE_W;
    Kmap KERNLINK (v2p KERNLINK) (v2p data_) 0;
    Kmap data_ (v2p data_) PHYSTOP PTE_W;
    Kmap DEVSPACE DEVSPACE 0 PTE_W ].

Fixpoint setupkvm_loop (pgdir : Z) (ks : list kmap) : M kst Z :=
  match ks with
  | [] => ret pgdir
  | k :: ks =>
      let! r := mappages pgdir (virt k) (u32 (phys_end k - phys_start k)) (phys_start k) (perm k) in
      if r <? 0 then ret 0 else setupkvm_loop pgdir ks
  end.

Definition setupkvm : M kst Z :=
  let! pgdir := kalloc in
  if pgdir =? 0 then ret 0 else
  memset_page pgdir 0 PGSIZE ;;;
  if DEVSPACE <? p2v PHYSTOP then panic "PHYSTOP too high" else
  setupkvm_loop pgdir kmaps.

(** [inituvm]: [init] is the code of the first process, [sz] bytes of it. *)
Definition inituvm (pgdir : Z) (init : list Z) (sz : Z) : M kst unit :=
  if PGSIZE <=? sz then panic "inituvm: more than a page" else
  let! mem := kalloc in
  memset_page mem 0 PGSIZE ;;;
  mappages pgdir 0 PGSIZE (v2p mem) (Z.lor PTE_W PTE_U) ;;;
  modify (fun s => set_kmem (store_bytes (kmem s) mem (take (Z.to_nat sz) init)) s).

(** ** Growing and shrinking processes *)

Fixpoint deallocuvm_loop (fuel : nat) (pgdir a oldsz : Z) : M kst unit :=
  if oldsz <=? a then ret tt else
  match fuel with
  | O => halt OutOfFuel
  | S fuel =>
      let! pte := walkpgdir pgdir a false in
      if pte =? 0 then
        deallocuvm_loop fuel pgdir (u32 (u32 (a + (NPTENTRIES - 1) * PGSIZE) + PGSIZE)) oldsz
      else
        let! e := rd pte in
        (if pte_has PTE_P e then
           let pa := PTE_ADDR e in
           if pa =? 0 then panic "kfree" else
           kfree (p2v pa) ;;;
           wrt pte 0
         else ret tt) ;;;
        deallocuvm_loop fuel pgdir (u32 (a + PGSIZE)) oldsz
  end.

Definition deallocuvm (pgdir oldsz newsz : Z) : M kst Z :=
  if oldsz <=? newsz then ret oldsz else
  deallocuvm_loop MAPFUEL pgdir (PGROUNDUP newsz) oldsz ;;;
  ret newsz.

(** [allocuvm] ignores the result of [mappages]. *)
Fixpoint allocuvm_loop (fuel : nat) (pgdir a oldsz newsz : Z) : M kst Z :=
  if newsz <=? a then ret newsz else
  match fuel with
  | O => halt OutOfFuel
  | S fuel =>
      let! mem := kalloc in
      if mem =? 0 then
        deallocuvm pgdir newsz oldsz ;;;
        ret 0
      else
        memset_page mem 0 PGSIZE ;;;
        mappages pgdir a PGSIZE (v2p mem) (Z.lor PTE_W PTE_U) ;;;
        allocuvm_loop fuel pgdir (u32 (a + PGSIZE)) oldsz newsz
  end.

Definition allocuvm (pgdir oldsz newsz : Z) : M kst Z :=
  if KERNBASE <=? newsz then ret 0 else
  if newsz <? oldsz then ret oldsz else
  allocuvm_loop MAPFUEL pgdir (PGROUNDUP oldsz) oldsz newsz.

(** One turn of the loop of [freevm]. *)
Definition freevm_entry (pgdir i : Z) : M kst unit :=
  let! e := rd (pgdir + 4 * i) in
  if pte_has PTE_P e then kfree (p2v (PTE_ADDR e)) else ret tt.

Definition freevm (pgdir : Z) : M kst unit :=
  if pgdir =? 0 then panic "freevm: no pgdir" else
  deallocuvm pgdir KERNBASE 0 ;;;
  for_each (seqZ 0 NPDENTRIES) (freevm_entry pgdir) ;;;
  kfree pgdir.

Definition clearpteu (pgdir uva : Z) : M kst unit :=
  let! pte := walkpgdir pgdir uva false in
  if pte =? 0 then panic "clearpteu" else
  let! e := rd pte in
  wrt pte (Z.land e (u32 (Z.lnot PTE_U))).

(** One turn of the loop of [copyuvm]: true to go on, false for [goto bad]. *)
Definition copyuvm_page (pgdir d i : Z) : M kst bool :=
  let! pte := walkpgdir pgdir i false in
  if pte =? 0 then panic "copyuvm: pte should exist" else
  let! e := rd pte in
  if negb (pte_has PTE_P e) then panic "copyuvm: page not present" else
  let! mem := kalloc in
  if mem =? 0 then ret false else
  modify (fun s => set_kmem (copy_bytes (kmem s) mem (p2v (PTE_ADDR e)) PGSIZE) s) ;;;
  let! r := mappages d i PGSIZE (v2p mem) (PTE_FLAGS e) in
  ret (0 <=? r).

Fixpoint copyuvm_loop (fuel : nat) (pgdir d i sz : Z) : M kst Z :=
  if sz <=? i then ret d else
  match fuel with
  | O => halt OutOfFuel
  | S fuel =>
      let! ok := copyuvm_page pgdir d i in
      if ok : bool then copyuvm_loop fuel pgdir d (u32 (i + PGSIZE)) sz
      else freevm d ;;; ret 0
  end.

Definition copyuvm (pgdir sz : Z) : M kst Z :=
  let! d := setupkvm in
  if d =? 0 then ret 0 else copyuvm_loop MAPFUEL pgdir d 0 sz.

(** [uva2ka] dereferences the result of [walkpgdir] unchecked. *)
Definition uva2ka (pgdir uva : Z) : M kst Z :=
  let! pte := walkpgdir pgdir uva false in
  if pte =? 0 then halt (Undefined "null page table entry") else
  let! e := rd pte in
  if negb (pte_has PTE_P e) then ret 0 else
  if negb (pte_has PTE_U e) then ret 0 else
  ret (p2v (PTE_ADDR e)).

(** The loop of [copyout]; every turn finishes a page. *)
Fixpoint copyout_loop (fuel : nat) (pgdir va : Z) (buf : list Z) (len : Z) : M kst Z :=
  if len <=? 0 then ret 0 else
  match fuel with
  | O => halt OutOfFuel
  | S fuel =>
      let va0 := PGROUNDDOWN va in
      let! pa0 := uva2ka pgdir va0 in
      if pa0 =? 0 then ret (-1) else
      let n := Z.min (PGSIZE - (va - va0)) len in
      modify (fun s => set_kmem (store_bytes (kmem s) (pa0 + (va - va0)) (take (Z.to_nat n) buf)) s) ;;;
      copyout_loop fuel pgdir (u32 (va0 + PGSIZE)) (drop (Z.to_nat n) buf) (len - n)
  end.

Definition copyout (pgdir va : Z) (p : list Z) (len : Z) : M kst Z :=
  copyout_loop (S MAPFUEL) pgdir va p len.

(** The hardware's translation: the physical page and the flags of the entry. *)
Definition translate (m : memory) (pgdir va : Z) : option (Z * Z) :=
  let pde := read32 m (pgdir + 4 * PDX va) in
  if pte_has PTE_P pde then
    let pte := read32 m (p2v (PTE_ADDR pde) + 4 * PTX va) in
    if pte_has PTE_P pte then Some (PTE_ADDR pte, PTE_FLAGS pte) else None
  else None.

(** ** Bits of table entries *)

Lemma land_low x g : x mod PGSIZE = 0 -> 0 <= g < PGSIZE -> Z.land x g = 0.
Proof.
  intros Hx Hg. apply Z.bits_inj'. intros n Hn. rewrite Z.land_spec, Z.testbit_0_l.
  destruct (Z.lt_ge_cases n 12).
  - rewrite <- (Z.mod_pow2_bits_low x 12 n) by lia. change (2 ^ 12) with PGSIZE. by rewrite Hx, Z.testbit_0_l.
  - rewrite <- (Z.mod_small g (2 ^ 12)) by done. by rewrite Z.mod_pow2_bits_high, andb_false_r by lia.
Qed.

Lemma lor_add x f : x mod PGSIZE = 0 -> 0 <= f < PGSIZE -> Z.lor x f = x + f.
Proof.
  intros Hx Hf. rewrite Z.add_nocarry_lxor by (by apply land_low). symmetry.
  apply Z.lxor_lor. by apply land_low.
Qed.

Lemma pte_addr x f : x mod PGSIZE = 0 -> 0 <= x < 2 ^ 32 -> 0 <= f < PGSIZE -> PTE_ADDR (x + f) = x.
Proof.
  intros Hx Hr Hf. unfold PTE_ADDR. change (u32 (Z.lnot 4095)) with (u32 (Z.lnot (PGSIZE - 1))).
  assert ((x + f) mod PGSIZE = f).
  { rewrite Z.add_mod, Hx, Z.add_0_l, Z.mod_mod by done. by apply Z.mod_small. }
  rewrite land_page; [lia|]. unfold PGSIZE in *. Z.div_mod_to_equations. lia.
Qed.

Lemma pte_flags x f : x mod PGSIZE = 0 -> 0 <= f < PGSIZE -> PTE_FLAGS (x + f) = f.
Proof.
  intros Hx Hf. unfold PTE_FLAGS. change 4095 with (Z.ones 12). rewrite Z.land_ones by done.
  change (2 ^ 12) with PGSIZE. rewrite Z.add_mod, Hx, Z.add_0_l, Z.mod_mod by done. by apply Z.mod_small.
Qed.

Lemma pte_has_low x f g : x mod PGSIZE = 0 -> 0 <= f < PGSIZE -> 0 <= g < PGSIZE ->
  pte_has g (x + f) = pte_has g f.
Proof.
  intros Hx Hf Hg. unfold pte_has. rewrite <- lor_add by done. rewrite Z.land_lor_distr_l, land_low by done. done.
Qed.

Lemma PDX_range va : 0 <= PDX va < 1024.
Proof. unfold PDX. change 1023 with (Z.ones 10). rewrite Z.land_ones by done. by apply Z.mod_pos_bound. Qed.

Lemma PTX_range va : 0 <= PTX va < 1024.
Proof. unfold PTX. change 1023 with (Z.ones 10). rewrite Z.land_ones by done. by apply Z.mod_pos_bound. Qed.

(** An address is determined up to its offset by its indices. *)
Lemma same_page va va' :
  0 <= va < 2 ^ 32 -> 0 <= va' < 2 ^ 32 -> PDX va = PDX va' -> PTX va = PTX va' ->
  va / PGSIZE = va' / PGSIZE.
Proof.
  intros Hv Hv'. unfold PDX, PTX. change 1023 with (Z.ones 10). rewrite !Z.land_ones by done.
  rewrite !Z.shiftr_div_pow2 by done. change (2 ^ 22) with 4194304. change (2 ^ 12) with 4096. change (2 ^ 10) with 1024.
  unfold PGSIZE. intros H1 H2. rewrite !(Z.mod_small (_ / 4194304)) in H1 by (Z.div_mod_to_equations; lia).
  Z.div_mod_to_equations. lia.
Qed.

Lemma v2p_p2v p : KERNBASE <= p < KERNBASE + PHYSTOP -> p2v (v2p p) = p /\ 0 <= v2p p < PHYSTOP.
Proof.
  intros Hp. unfold p2v, v2p, u32, KERNBASE, PHYSTOP in *.
  rewrite (Z.mod_small (p - 2147483648)) by lia. rewrite Z.mod_small by lia. lia.
Qed.

Lemma v2p_aligned p : KERNBASE <= p < KERNBASE + PHYSTOP -> p mod PGSIZE = 0 -> v2p p mod PGSIZE = 0.
Proof.
  intros Hp Ha. unfold v2p, u32, KERNBASE, PHYSTOP, PGSIZE in *. rewrite (Z.mod_small (p - _)) by lia.
  Z.div_mod_to_equations. lia.
Qed.

(** ** Well-formed page tables *)

Definition pde (m : memory) (pgdir i : Z) : Z := read32 m (pgdir + 4 * i).
Definition table (m : memory) (pgdir i : Z) : Z := p2v (PTE_ADDR (pde m pgdir i)).
Definition present (m : memory) (pgdir i : Z) : Prop := pte_has PTE_P (pde m pgdir i) = true.

(** The tables of [pgdir] are different pages, in use; [l] are the free pages and
    [us] other pages in use. *)
Record pgd_ok (s : kst) (pgdir : Z) (l us : list Z) : Prop := {
  pg_kinv : kinv end_ s l;
  pg_byte : is_byte_mem (kmem s);
  pg_dir : page_ok end_ pgdir /\ (pgdir ∉ l) /\ (pgdir ∉ us);
  pg_tab : forall i, 0 <= i < 1024 -> present (kmem s) pgdir i ->
    page_ok end_ (table (kmem s) pgdir i) /\ (table (kmem s) pgdir i ∉ l) /\
    (table (kmem s) pgdir i ∉ us) /\ table (kmem s) pgdir i <> pgdir;
  pg_inj : forall i j, 0 <= i < 1024 -> 0 <= j < 1024 -> present (kmem s) pgdir i -> present (kmem s) pgdir j ->
    table (kmem s) pgdir i = table (kmem s) pgdir j -> i = j;
  pg_us : Forall (page_ok end_) us /\ forall q, q ∈ us -> q ∉ l
}.

Definition in_page (p x : Z) : Prop := p <= x < p + PGSIZE.

(** [q] is a page table of [pgdir]; the tables of [m] are those of [m'] too. *)
Definition is_table (m : memory) (pgdir q : Z) : Prop :=
  exists i, 0 <= i < 1024 /\ present m pgdir i /\ table m pgdir i = q.
Definition tables_kept (m m' : memory) (pgdir : Z) : Prop :=
  forall i, 0 <= i < 1024 -> present m pgdir i -> pde m' pgdir i = pde m pgdir i.

Lemma kept_present m m' pgdir i : tables_kept m m' pgdir -> 0 <= i < 1024 -> present m pgdir i -> present m' pgdir i.
Proof. intros K Hi Hp. unfold present. rewrite (K i Hi Hp). exact Hp. Qed.

Lemma kept_table m m' pgdir q : tables_kept m m' pgdir -> is_table m pgdir q -> is_table m' pgdir q.
Proof.
  intros K (i & Hi & Hp & <-). exists i. split; [done|]. split; [by eapply kept_present|]. unfold table. by rewrite (K i Hi Hp).
Qed.

Lemma kept_all m m' pgdir : (forall i, 0 <= i < 1024 -> pde m' pgdir i = pde m pgdir i) -> tables_kept m m' pgdir.
Proof. intros E i Hi _. by apply E. Qed.

Lemma kept_tables_trans m1 m2 m3 pgdir : tables_kept m1 m2 pgdir -> tables_kept m2 m3 pgdir -> tables_kept m1 m3 pgdir.
Proof. intros K1 K2 i Hi Hp. rewrite (K2 i Hi); [by apply K1|by eapply kept_present]. Qed.

Lemma in_page_inj p q x : p mod PGSIZE = 0 -> q mod PGSIZE = 0 -> in_page p x -> in_page q x -> p = q.
Proof. unfold in_page, PGSIZE. intros. Z.div_mod_to_equations. lia. Qed.

Lemma read32_page m m' p i :
  (forall x, in_page p x -> m x = m' x) -> 0 <= i < 1024 -> read32 m (p + 4 * i) = read32 m' (p + 4 * i).
Proof. intros E Hi. apply read32_ext. intros x Hx. apply E. unfold in_page, PGSIZE. lia. Qed.

Lemma byte_write32 m a v : is_byte_mem m -> is_byte_mem (write32 m a v).
Proof.
  intros Hm x. unfold write32. destruct (_ && _); [|apply Hm]. apply Z.mod_pos_bound. lia.
Qed.
Lemma byte_fill m a n c : is_byte_mem m -> is_u8 c -> is_byte_mem (fill m a n c).
Proof. intros Hm Hc x. unfold fill. destruct (_ && _); [done|apply Hm]. Qed.

Lemma read_write32_ne m p i j v :
  0 <= i -> 0 <= j -> i <> j -> read32 (write32 m (p + 4 * i) v) (p + 4 * j) = read32 m (p + 4 * j).
Proof. intros. apply read32_ext. intros x Hx. apply write32_other. lia. Qed.

(** A page taken from the free list belongs to its owner. *)
Lemma pgd_take s pgdir p l us :
  pgd_ok s pgdir (p :: l) us ->
  exists s', kalloc s = Ok p s' /\ kmem s' = kmem s /\ pgd_ok s' pgdir l (p :: us).
Proof.
  intros [K B (D1 & D2 & D3) T I (U1 & U2)]. destruct (kalloc_Ok end_ s _ K) as [R K']. cbn in R.
  pose proof (ki_pages _ _ _ K) as Hp. apply Forall_cons in Hp as [Hp _].
  pose proof (ki_nodup _ _ _ K) as Hn. apply NoDup_cons in Hn as [Hn _].
  eexists. split; [exact R|]. split; [done|]. constructor; cbn; try done.
  - set_solver.
  - intros i Hi Hpr. destruct (T i Hi Hpr) as (? & ? & ? & ?). split_and!; set_solver.
  - split; [by constructor|]. intros q [->|Hq]%elem_of_cons; [done|]. specialize (U2 q Hq). set_solver.
Qed.

(** Stores into the pages of others do not matter. *)
Lemma pgd_store s m' pgdir l us :
  pgd_ok s pgdir l us -> is_byte_mem m' ->
  (forall x, (exists q, q ∈ us /\ in_page q x) \/ m' x = kmem s x) ->
  pgd_ok (set_kmem m' s) pgdir l us /\ (forall va, translate m' pgdir va = translate (kmem s) pgdir va) /\
  (forall i, 0 <= i < 1024 -> pde m' pgdir i = pde (kmem s) pgdir i).
Proof.
  intros [K B (D1 & D2 & D3) T I (U1 & U2)] B' E. rewrite Forall_forall in U1.
  assert (Hkeep : forall p, p mod PGSIZE = 0 -> p ∉ us -> forall x, in_page p x -> m' x = kmem s x).
  { intros p Hp Hu x Hx. destruct (E x) as [(q & Hq & Hqx)|]; [|done].
    destruct (U1 q Hq) as (Hqa & _). rewrite (in_page_inj p q x) in Hu; done. }
  assert (Hpde : forall i, 0 <= i < 1024 -> pde m' pgdir i = pde (kmem s) pgdir i).
  { intros i Hi. apply read32_page; [|done]. apply Hkeep; [apply D1|done]. }
  split; [|split; [|done]].
  - constructor; cbn; try done.
    + apply kinv_frame; [|done]. intros q x Hq Hx. apply (Hkeep q); [|by intros Hu; apply (U2 q)|done].
      pose proof (ki_pages _ _ _ K) as Hp. rewrite Forall_forall in Hp. by apply Hp.
    + intros i Hi. unfold present, table. rewrite Hpde by done. by apply T.
    + intros i j Hi Hj. unfold present, table. rewrite !Hpde by done. by apply I.
    + by rewrite Forall_forall.
  - intros va. unfold translate. fold (pde m' pgdir (PDX va)) (pde (kmem s) pgdir (PDX va)).
    rewrite Hpde by apply PDX_range. destruct (pte_has PTE_P (pde (kmem s) pgdir (PDX va))) eqn:Hp; [|done].
    destruct (T _ (PDX_range va) Hp) as ((Ha & _) & _ & Hu & _).
    rewrite (read32_page m' (kmem s)); [done| |apply PTX_range]. by apply Hkeep.
Qed.

Definition PDE (p : Z) : Z := Z.lor (Z.lor (Z.lor (v2p p) PTE_P) PTE_W) PTE_U.

Lemma PDE_spec p : page_ok end_ p ->
  is_u32 (PDE p) /\ pte_has PTE_P (PDE p) = true /\ p2v (PTE_ADDR (PDE p)) = p.
Proof.
  intros (Ha & _ & Hr & _). destruct (v2p_p2v p Hr) as [Hv Hp]. pose proof (v2p_aligned p Hr Ha) as Hva.
  assert (E : PDE p = v2p p + 7).
  { unfold PDE. rewrite <- !Z.lor_assoc. apply lor_add; [done|]. unfold PGSIZE. vm_compute. split; congruence. }
  rewrite E. split_and!.
  - unfold is_u32, PHYSTOP in *. lia.
  - by rewrite pte_has_low.
  - rewrite pte_addr; [done|done| |done]. unfold PHYSTOP in *. lia.
Qed.

(** A zeroed page becomes the table [i] of [pgdir]. *)
Lemma pgd_link s pgdir l us p i :
  pgd_ok s pgdir l (p :: us) -> p ∉ us -> 0 <= i < 1024 -> ~ present (kmem s) pgdir i ->
  (forall x, in_page p x -> kmem s x = 0) ->
  let m' := write32 (kmem s) (pgdir + 4 * i) (PDE p) in
  pgd_ok (set_kmem m' s) pgdir l us /\ present m' pgdir i /\ table m' pgdir i = p /\
  (forall va, translate m' pgdir va = translate (kmem s) pgdir va) /\
  (forall x, in_page p x -> m' x = 0) /\ tables_kept (kmem s) m' pgdir.
Proof.
  intros [K B (D1 & D2 & D3) T I (U1 & U2)] Hpu Hi Hnp Hz m'.
  pose proof D1 as (Da & _). apply Forall_cons in U1 as [Hp U1]. pose proof Hp as (Hpa & _).
  destruct (PDE_spec p Hp) as (Hu & HP & Haddr).
  assert (Hne : p <> pgdir) by set_solver.
  assert (Hkeep : forall q x, q mod PGSIZE = 0 -> q <> pgdir -> in_page q x -> m' x = kmem s x).
  { intros q x Hq Hqd Hx. apply write32_other. destruct (pages_apart q pgdir Hq Da Hqd);
      unfold in_page, PGSIZE in *; lia. }
  assert (Hpde : forall j, 0 <= j < 1024 -> pde m' pgdir j = if decide (j = i) then PDE p else pde (kmem s) pgdir j).
  { intros j Hj. unfold pde, m'. case_decide as E; [subst; by apply read_write32|].
    apply read_write32_ne; lia. }
  assert (Htab : table m' pgdir i = p) by (unfold table; rewrite Hpde by done; by rewrite decide_True).
  assert (Hpr : present m' pgdir i) by (unfold present; rewrite Hpde by done; by rewrite decide_True).
  split_and!; [constructor; cbn|done|done| | |].
  - apply kinv_frame; [|done]. intros q x Hq Hx. pose proof (ki_pages _ _ _ K) as Hk. rewrite Forall_forall in Hk.
    apply (Hkeep q); [by apply Hk|by intros ->|done].
  - by apply byte_write32.
  - set_solver.
  - intros j Hj. unfold present, table. rewrite Hpde by done. case_decide as E.
    + intros _. rewrite Haddr. split_and!; [done| |done|done]. apply U2. set_solver.
    + intros Hj'. destruct (T j Hj Hj') as (? & ? & ? & ?). split_and!; try done. set_solver.
  - intros j k Hj Hk. unfold present, table. rewrite !Hpde by done. repeat case_decide; try subst j; try subst k; try done.
    + intros _ Hk' E. rewrite Haddr in E. destruct (T k Hk Hk') as (_ & _ & Hn & _). unfold table in Hn.
      rewrite <- E in Hn. set_solver.
    + intros Hj' _ E. rewrite Haddr in E. destruct (T j Hj Hj') as (_ & _ & Hn & _). unfold table in Hn.
      rewrite E in Hn. set_solver.
    + by apply I.
  - split; [done|]. intros q Hq. apply U2. set_solver.
  - intros va. unfold translate. fold (pde m' pgdir (PDX va)) (pde (kmem s) pgdir (PDX va)).
    rewrite Hpde by apply PDX_range. case_decide as E.
    + rewrite HP, Haddr. unfold present in Hnp. rewrite E. destruct (pte_has PTE_P (pde (kmem s) pgdir i)); [done|].
      rewrite (read32_page m' (fun _ => 0)); [done| |apply PTX_range].
      intros x Hx. rewrite (Hkeep p x); [by apply Hz|done|done|done].
    + destruct (pte_has PTE_P (pde (kmem s) pgdir (PDX va))) eqn:Hp'; [|done].
      destruct (T _ (PDX_range va) Hp') as ((Ha & _) & _ & _ & Hd).
      rewrite (read32_page m' (kmem s)); [done| |apply PTX_range]. intros x Hx. by eapply Hkeep.
  - intros x Hx. rewrite (Hkeep p x); [by apply Hz|done|done|done].
  - intros j Hj Hp'. rewrite Hpde by done. rewrite decide_False; [done|by intros ->].
Qed.

(** What a change of the tables leaves alone. *)
Definition frame (s s' : kst) (us : list Z) : Prop :=
  forall q x, q ∈ us -> in_page q x -> kmem s' x = kmem s x.

Lemma frame_refl s us : frame s s us.
Proof. done. Qed.
Lemma frame_trans s1 s2 s3 us : frame s1 s2 us -> frame s2 s3 us -> frame s1 s3 us.
Proof. intros F1 F2 q x Hq Hx. rewrite (F2 q x), (F1 q x); done. Qed.

(** [walkpgdir] with allocation finds the entry, or memory is exhausted. *)
Lemma walk_Ok s pgdir l us va :
  pgd_ok s pgdir l us ->
  (l = [] /\ ~ present (kmem s) pgdir (PDX va) /\ walkpgdir pgdir va true s = Ok 0 s) \/
  exists s' l', walkpgdir pgdir va true s = Ok (table (kmem s') pgdir (PDX va) + 4 * PTX va) s' /\
    pgd_ok s' pgdir l' us /\ present (kmem s') pgdir (PDX va) /\
    (forall va', translate (kmem s') pgdir va' = translate (kmem s) pgdir va') /\
    frame s s' us /\ tables_kept (kmem s) (kmem s') pgdir /\
    (l' = l \/ exists p, l = p :: l' /\ is_table (kmem s') pgdir p).
Proof.
  intros P. unfold walkpgdir. rewrite (bind_Ok _ _ _ (pde (kmem s) pgdir (PDX va)) s) by done.
  destruct (pte_has PTE_P (pde (kmem s) pgdir (PDX va))) eqn:Hp.
  - right. exists s, l. split; [done|]. split; [done|]. split; [exact Hp|]. split; [done|]. split; [apply frame_refl|]. split; [done|by left].
  - cbn [negb]. assert (Hnp : ~ present (kmem s) pgdir (PDX va)) by (unfold present; by rewrite Hp).
    destruct l as [|p l].
    + left. destruct (kalloc_Ok end_ s _ (pg_kinv _ _ _ _ P)) as [R _]. split_and!; try done.
      by rewrite (bind_Ok _ _ _ _ _ R).
    + right. destruct (pgd_take _ _ _ _ _ P) as (s1 & R1 & M1 & P1).
      assert (Hp0 : page_ok end_ p /\ p ∉ us).
      { pose proof (ki_pages _ _ _ (pg_kinv _ _ _ _ P)) as Hk. apply Forall_cons in Hk as [? _]. split; [done|].
        destruct (pg_us _ _ _ _ P) as [_ Hu]. intros Hpu. apply (Hu p Hpu). set_solver. }
      destruct Hp0 as [Hpok Hpu].
      destruct (pgd_store s1 (fill (kmem s1) p PGSIZE 0) _ _ _ P1) as (P2 & T2 & D2).
      { apply byte_fill; [apply P1|done]. }
      { intros x. destruct (decide (in_page p x)) as [Hx|Hx]; [left; exists p; set_solver|right].
        apply fill_other. unfold in_page in Hx. lia. }
      set (s2 := set_kmem (fill (kmem s1) p PGSIZE 0) s1) in *.
      destruct (pgd_link s2 pgdir l us p (PDX va) P2 Hpu (PDX_range va)) as (P3 & Hpr & Htab & T3 & Z3 & K3).
      { unfold present. cbn [kmem s2 set_kmem]. rewrite D2, M1 by apply PDX_range. exact Hnp. }
      { intros x Hx. apply fill_in. exact Hx. }
      exists (set_kmem (write32 (kmem s2) (pgdir + 4 * PDX va) (PDE p)) s2), l. split_and!; try done.
      * rewrite (bind_Ok _ _ _ _ _ R1), (proj2 (Z.eqb_neq p 0)) by apply Hpok. cbn [kmem set_kmem]. by rewrite Htab.
      * intros va'. cbn [kmem set_kmem]. rewrite T3. cbn [kmem s2 set_kmem]. by rewrite T2, M1.
      * intros q x Hq Hx. cbn [kmem set_kmem].
        destruct (pg_us _ _ _ _ P) as [Hu _]. rewrite Forall_forall in Hu. destruct (Hu q Hq) as (Hqa & _).
        rewrite write32_other; [change (fill (kmem s1) p PGSIZE 0 x = kmem s x); rewrite fill_other; [by rewrite M1|]|].
        -- destruct (pages_apart q p Hqa (proj1 Hpok)) as [?|?]; [by intros ->|..]; unfold in_page in *; lia.
        -- destruct (pg_dir _ _ _ _ P) as ((Hda & _) & _ & Hdu). pose proof (PDX_range va).
           destruct (pages_apart q pgdir Hqa Hda) as [?|?]; [by intros ->|..]; unfold in_page, PGSIZE in *; lia.
      * eapply kept_tables_trans; [apply kept_all; intros i Hi|exact K3]. cbn [kmem s2 set_kmem]. by rewrite D2, M1.
      * right. exists p. split; [done|]. exists (PDX va). split; [apply PDX_range|done].
Qed.

(** Setting the entry of [va] changes the translation of its page only. *)
Lemma pgd_set s pgdir l us va v :
  pgd_ok s pgdir l us -> present (kmem s) pgdir (PDX va) -> is_u32 v -> 0 <= va < 2 ^ 32 ->
  let t := table (kmem s) pgdir (PDX va) in
  let s' := set_kmem (write32 (kmem s) (t + 4 * PTX va) v) s in
  pgd_ok s' pgdir l us /\ frame s s' us /\
  translate (kmem s') pgdir va = (if pte_has PTE_P v then Some (PTE_ADDR v, PTE_FLAGS v) else None) /\
  (forall va', 0 <= va' < 2 ^ 32 -> va' / PGSIZE <> va / PGSIZE ->
     translate (kmem s') pgdir va' = translate (kmem s) pgdir va') /\
  tables_kept (kmem s) (kmem s') pgdir.
Proof.
  intros P Hpr Hv Hva t s'. pose proof P as [K B (D1 & D2 & D3) T I (U1 & U2)]. pose proof D1 as (Da & _).
  destruct (T _ (PDX_range va) Hpr) as ((Hta & _) & Htl & Htu & Htd). fold t in Hta, Htl, Htu, Htd.
  pose proof (PTX_range va) as Hx. set (m' := write32 (kmem s) (t + 4 * PTX va) v) in *.
  assert (Hkeep : forall q x, q mod PGSIZE = 0 -> q <> t -> in_page q x -> m' x = kmem s x).
  { intros q x Hq Hqt Hqx. apply write32_other. destruct (pages_apart q t Hq Hta Hqt);
      unfold in_page, PGSIZE in *; lia. }
  assert (Hpde : forall i, 0 <= i < 1024 -> pde m' pgdir i = pde (kmem s) pgdir i).
  { intros i Hi. apply read32_page; [|done]. intros x Hxp. apply (Hkeep pgdir x); done. }
  split_and!; [constructor; cbn [kmem s' set_kmem]; try done| | | |by apply kept_all].
  - apply kinv_frame; [|done]. intros q x Hq Hqx. pose proof (ki_pages _ _ _ K) as Hk. rewrite Forall_forall in Hk.
    apply (Hkeep q); [by apply Hk|by intros ->|done].
  - by apply byte_write32.
  - intros i Hi. unfold present, table. rewrite Hpde by done. by apply T.
  - intros i j Hi Hj. unfold present, table. rewrite !Hpde by done. by apply I.
  - intros q x Hq Hqx. rewrite Forall_forall in U1. apply (Hkeep q); [by apply U1|by intros ->|done].
  - cbn [kmem s' set_kmem]. unfold translate. fold (pde m' pgdir (PDX va)). rewrite Hpde by apply PDX_range.
    rewrite Hpr. fold (table (kmem s) pgdir (PDX va)). fold t. unfold m'. by rewrite read_write32.
  - intros va' Hva' Hne. cbn [kmem s' set_kmem]. unfold translate.
    fold (pde m' pgdir (PDX va')) (pde (kmem s) pgdir (PDX va')). rewrite Hpde by apply PDX_range.
    destruct (pte_has PTE_P (pde (kmem s) pgdir (PDX va'))) eqn:Hp'; [|done].
    fold (table (kmem s) pgdir (PDX va')). destruct (T _ (PDX_range va') Hp') as ((Ha' & _) & _).
    destruct (decide (PDX va' = PDX va)) as [E|E].
    + rewrite E. fold t. unfold m'. rewrite read_write32_ne; [done|lia|apply PTX_range|].
      intros Ex. apply Hne. by apply same_page.
    + rewrite (read32_page m' (kmem s)); [done| |apply PTX_range]. intros x Hxp.
      apply (Hkeep (table (kmem s) pgdir (PDX va'))); [done| |done].
      intros Et. apply E. apply (I _ _ (PDX_range va') (PDX_range va)); done.
Qed.

Lemma translate_entry m pgdir va :
  present m pgdir (PDX va) ->
  translate m pgdir va =
  (let e := read32 m (table m pgdir (PDX va) + 4 * PTX va) in
   if pte_has PTE_P e then Some (PTE_ADDR e, PTE_FLAGS e) else None).
Proof. intros Hp. unfold translate. fold (pde m pgdir (PDX va)). by rewrite Hp. Qed.

(** ** [mappages] *)

(** The entry [mappages] writes. *)
Lemma entry_flags pa perm :
  pa mod PGSIZE = 0 -> 0 <= pa < 2 ^ 32 -> 0 <= perm < PGSIZE ->
  is_u32 (Z.lor (Z.lor pa perm) PTE_P) /\ pte_has PTE_P (Z.lor (Z.lor pa perm) PTE_P) = true /\
  PTE_ADDR (Z.lor (Z.lor pa perm) PTE_P) = pa /\ PTE_FLAGS (Z.lor (Z.lor pa perm) PTE_P) = Z.lor perm PTE_P.
Proof.
  intros Ha Hr Hp. rewrite <- Z.lor_assoc. change PTE_P with 1.
  assert (Hf : 0 <= Z.lor perm 1 < PGSIZE).
  { split; [apply Z.lor_nonneg; lia|]. apply Z.log2_lt_cancel. change (Z.log2 PGSIZE) with 12.
    rewrite Z.log2_lor by lia. change (Z.log2 1) with 0.
    destruct (decide (perm = 0)) as [->|]; [done|].
    assert (Z.log2 perm < 12) by (apply Z.log2_lt_pow2; [lia|unfold PGSIZE in Hp; lia]). lia. }
  rewrite lor_add by done. split_and!.
  - unfold is_u32. assert (pa + PGSIZE <= 2 ^ 32) by (unfold PGSIZE in *; Z.div_mod_to_equations; lia). lia.
  - rewrite pte_has_low by done. unfold pte_has. apply negb_true_iff, Z.eqb_neq.
    rewrite Z.land_lor_distr_l. by intros [_ ?]%Z.lor_eq_0_iff.
  - by apply pte_addr.
  - by apply pte_flags.
Qed.

(** The pages [a, a + n) are mapped to [pa, pa + n). *)
Definition mapped_to (m : memory) (pgdir a pa perm : Z) (n : Z) : Prop :=
  forall va, a <= va < a + PGSIZE * n ->
    translate m pgdir va = Some (pa + PGSIZE * ((va - a) / PGSIZE), Z.lor perm PTE_P).
Definition unmapped (m : memory) (pgdir a n : Z) : Prop :=
  forall va, a <= va < a + PGSIZE * n -> translate m pgdir va = None.
Definition elsewhere (m m' : memory) (pgdir a n : Z) : Prop :=
  forall va, 0 <= va < 2 ^ 32 -> va < a \/ a + PGSIZE * n <= va -> translate m' pgdir va = translate m pgdir va.

Lemma translate_page m pgdir va va' :
  0 <= va < 2 ^ 32 -> 0 <= va' < 2 ^ 32 -> va / PGSIZE = va' / PGSIZE -> translate m pgdir va = translate m pgdir va'.
Proof.
  intros Hv Hv' E. assert (PDX va = PDX va' /\ PTX va = PTX va') as [E1 E2].
  { unfold PDX, PTX. rewrite !Z.shiftr_div_pow2 by done. change (2 ^ 22) with (PGSIZE * 1024). change (2 ^ 12) with PGSIZE.
    rewrite <- !Z.div_div by done. by rewrite E. }
  unfold translate. by rewrite E1, E2.
Qed.

Lemma map_one s pgdir l us a pa perm :
  pgd_ok s pgdir l us -> a mod PGSIZE = 0 -> 0 <= a < 2 ^ 32 -> pa mod PGSIZE = 0 -> 0 <= pa < 2 ^ 32 ->
  0 <= perm < PGSIZE -> translate (kmem s) pgdir a = None ->
  (l = [] /\ walkpgdir pgdir a true s = Ok 0 s) \/
  exists pte s1 s' l', walkpgdir pgdir a true s = Ok pte s1 /\ pte <> 0 /\
    pte_has PTE_P (read32 (kmem s1) pte) = false /\
    s' = set_kmem (write32 (kmem s1) pte (Z.lor (Z.lor pa perm) PTE_P)) s1 /\
    pgd_ok s' pgdir l' us /\ frame s s' us /\ tables_kept (kmem s) (kmem s') pgdir /\
    (l' = l \/ exists p, l = p :: l' /\ is_table (kmem s') pgdir p) /\
    translate (kmem s') pgdir a = Some (pa, Z.lor perm PTE_P) /\
    (forall va, 0 <= va < 2 ^ 32 -> va / PGSIZE <> a / PGSIZE ->
       translate (kmem s') pgdir va = translate (kmem s) pgdir va).
Proof.
  intros P Ha Hr Hpa Hpr Hp Hn.
  destruct (walk_Ok s pgdir l us a P) as [(-> & _ & R)|(s1 & l' & R & P1 & Hpres & T1 & F1 & K1 & Hl)]; [by left|right].
  destruct (entry_flags pa perm Hpa Hpr Hp) as (Hv & Hhas & Haddr & Hfl).
  destruct (pgd_set s1 pgdir l' us a (Z.lor (Z.lor pa perm) PTE_P) P1 Hpres Hv Hr) as (P2 & F2 & T2 & O2 & K2).
  eexists _, s1, _, l'. split; [exact R|]. split_and!.
  - destruct (pg_tab _ _ _ _ P1 _ (PDX_range a) Hpres) as ((_ & _ & Hk & _) & _). pose proof (PTX_range a).
    unfold KERNBASE in Hk. lia.
  - rewrite <- T1 in Hn. rewrite translate_entry in Hn by done. cbn in Hn. by destruct (pte_has _ _).
  - reflexivity.
  - exact P2.
  - by eapply frame_trans.
  - by eapply kept_tables_trans.
  - destruct Hl as [?|(p & ? & ?)]; [by left|right]. exists p. split; [done|]. by eapply kept_table.
  - rewrite T2, Hhas, Haddr, Hfl. done.
  - intros va Hva Hne. rewrite O2 by done. apply T1.
Qed.

Lemma mappages_turn fuel s pgdir l us a last pa perm :
  pgd_ok s pgdir l us -> a mod PGSIZE = 0 -> 0 <= a < 2 ^ 32 -> pa mod PGSIZE = 0 -> 0 <= pa < 2 ^ 32 ->
  0 <= perm < PGSIZE -> translate (kmem s) pgdir a = None ->
  (l = [] /\ mappages_loop (S fuel) pgdir a last pa perm s = Ok (-1) s) \/
  exists s' l', mappages_loop (S fuel) pgdir a last pa perm s =
      (if a =? last then ret 0
       else mappages_loop fuel pgdir (u32 (a + PGSIZE)) last (u32 (pa + PGSIZE)) perm) s' /\
    pgd_ok s' pgdir l' us /\ frame s s' us /\ (exists k, (k <= 1)%nat /\ l' = drop k l) /\
    tables_kept (kmem s) (kmem s') pgdir /\ (forall q, q ∈ l -> q ∈ l' \/ is_table (kmem s') pgdir q) /\
    translate (kmem s') pgdir a = Some (pa, Z.lor perm PTE_P) /\
    (forall va, 0 <= va < 2 ^ 32 -> va / PGSIZE <> a / PGSIZE ->
       translate (kmem s') pgdir va = translate (kmem s) pgdir va).
Proof.
  intros P Ha Hr Hpa Hpr Hp Hn. cbn [mappages_loop].
  destruct (map_one s pgdir l us a pa perm P Ha Hr Hpa Hpr Hp Hn)
    as [[-> R]|(pte & s1 & s' & l' & R & Hpte & Hnp & Es & P' & F' & K' & Hl & Hm & Ho)].
  - left. split; [done|]. by rewrite (bind_Ok _ _ _ _ _ R).
  - right. exists s', l'. rewrite (bind_Ok _ _ _ _ _ R), (proj2 (Z.eqb_neq _ _) Hpte).
    rewrite (bind_Ok _ _ s1 (read32 (kmem s1) pte) s1) by done. rewrite Hnp.
    rewrite (bind_Ok _ _ s1 tt s') by (by rewrite Es). split_and!; try done.
    + destruct Hl as [->|(p & -> & _)]; [exists 0%nat|exists 1%nat]; by split; [lia|].
    + intros q Hq. destruct Hl as [->|(p & -> & Hp')]; [by left|]. apply elem_of_cons in Hq as [->|]; [by right|by left].
Qed.

(** One page more at the front. *)
Lemma div_page a va : a mod PGSIZE = 0 -> va / PGSIZE = a / PGSIZE <-> a <= va < a + PGSIZE.
Proof. unfold PGSIZE. intros Ha. Z.div_mod_to_equations. lia. Qed.

Lemma mappages_loop_Ok pgdir us perm n : forall fuel s l a pa,
  pgd_ok s pgdir l us -> a mod PGSIZE = 0 -> 0 <= a -> a + PGSIZE * (Z.of_nat n + 1) <= 2 ^ 32 ->
  pa mod PGSIZE = 0 -> 0 <= pa -> pa + PGSIZE * (Z.of_nat n + 1) <= 2 ^ 32 -> 0 <= perm < PGSIZE ->
  unmapped (kmem s) pgdir a (Z.of_nat n + 1) -> (n < fuel)%nat ->
  exists r s' l', mappages_loop fuel pgdir a (a + PGSIZE * Z.of_nat n) pa perm s = Ok r s' /\
    pgd_ok s' pgdir l' us /\ frame s s' us /\ elsewhere (kmem s) (kmem s') pgdir a (Z.of_nat n + 1) /\
    (r = 0 /\ mapped_to (kmem s') pgdir a pa perm (Z.of_nat n + 1) \/ r = -1 /\ l' = [] /\ (length l <= n)%nat) /\
    (exists k, (k <= S n)%nat /\ l' = drop k l).
Proof.
  induction n as [|n IH]; intros fuel s l a pa P Ha Hr0 Hr Hpa Hpr0 Hpr Hp Hu Hf;
    (destruct fuel as [|fuel]; [lia|]); (match goal with |- context [mappages_loop _ _ _ ?e] => set (last := e) end);
    (assert (Hta : translate (kmem s) pgdir a = None) by (apply Hu; unfold PGSIZE in *; lia));
    (assert (Hra : 0 <= a < 2 ^ 32) by (unfold PGSIZE in *; lia));
    (assert (Hrp : 0 <= pa < 2 ^ 32) by (unfold PGSIZE in *; lia));
    (destruct (mappages_turn fuel s pgdir l us a last pa perm P Ha Hra Hpa Hrp Hp Hta)
      as [[-> R]|(s1 & l1 & R & P1 & F1 & (k1 & Hk1 & ->) & _ & _ & Hm1 & Ho1)];
     [exists (-1), s, []; split_and!; [done..|right; split_and!; [done|done|cbn; lia]|exists 0%nat; split; [lia|done]]|]);
    rewrite R; clear R; subst last.
  - rewrite (proj2 (Z.eqb_eq a (a + PGSIZE * Z.of_nat 0))) by lia. exists 0, s1, (drop k1 l). split_and!; try done.
    + intros va Hva Hc. apply Ho1; [done|]. rewrite div_page by done. unfold PGSIZE in *. lia.
    + left. split; [done|]. intros va Hva. assert (E : va / PGSIZE = a / PGSIZE) by (apply div_page; unfold PGSIZE in *; [done|lia]).
      rewrite (translate_page _ _ va a); [|unfold PGSIZE in *; lia|done|done]. rewrite Hm1. do 2 f_equal.
      rewrite Z.div_small; unfold PGSIZE in *; lia.
    + exists k1. split; [lia|done].
  - rewrite (proj2 (Z.eqb_neq a (a + PGSIZE * Z.of_nat (S n)))) by (unfold PGSIZE; lia).
    replace (u32 (a + PGSIZE)) with (a + PGSIZE) by (symmetry; apply Z.mod_small; unfold PGSIZE in *; lia).
    replace (u32 (pa + PGSIZE)) with (pa + PGSIZE) by (symmetry; apply Z.mod_small; unfold PGSIZE in *; lia).
    replace (a + PGSIZE * Z.of_nat (S n)) with (a + PGSIZE + PGSIZE * Z.of_nat n) by lia.
    destruct (IH fuel s1 (drop k1 l) (a + PGSIZE) (pa + PGSIZE)) as (r & s2 & l2 & R2 & P2 & F2 & O2 & M2 & k2 & Hk2 & ->);
      try done; try (unfold PGSIZE in *; lia).
    + rewrite Z.add_mod, Ha by done. done.
    + rewrite Z.add_mod, Hpa by done. done.
    + intros va Hva. rewrite Ho1; [apply Hu; unfold PGSIZE in *; lia|unfold PGSIZE in *; lia|].
      rewrite div_page by done. unfold PGSIZE in *. lia.
    + exists r, s2, (drop k2 (drop k1 l)). split_and!; try done.
      * by eapply frame_trans.
      * intros va Hva Hc. rewrite O2; [|done|unfold PGSIZE in *; lia]. apply Ho1; [done|].
        rewrite div_page by done. unfold PGSIZE in *. lia.
      * destruct M2 as [[-> M2]|(-> & M2 & Hlen)]; [left|right; split_and!; [done|done|rewrite length_drop in Hlen; lia]]. split; [done|]. intros va Hva.
        destruct (Z.lt_ge_cases va (a + PGSIZE)) as [Hlt|Hge].
        -- rewrite O2; [|unfold PGSIZE in *; lia|by left].
           rewrite (translate_page _ _ va a); [|unfold PGSIZE in *; lia|done|apply div_page; [done|lia]].
           rewrite Hm1. do 2 f_equal. rewrite Z.div_small; unfold PGSIZE in *; lia.
        -- rewrite M2 by (unfold PGSIZE in *; lia). do 2 f_equal.
           replace (va - a) with (va - (a + PGSIZE) + 1 * PGSIZE) by lia. rewrite Z.div_add by done. lia.
      * exists (k1 + k2)%nat. split; [lia|]. by rewrite drop_drop.
Qed.

Lemma PGROUNDDOWN_spec a : 0 <= a < 2 ^ 32 -> PGROUNDDOWN a = a - a mod PGSIZE.
Proof. intros Ha. unfold PGROUNDDOWN. by apply land_page. Qed.

Lemma mappages_Ok s pgdir l us va n pa perm :
  pgd_ok s pgdir l us -> va mod PGSIZE = 0 -> 0 <= va -> 0 < n -> va + PGSIZE * n <= 2 ^ 32 ->
  pa mod PGSIZE = 0 -> 0 <= pa -> pa + PGSIZE * n <= 2 ^ 32 -> 0 <= perm < PGSIZE ->
  unmapped (kmem s) pgdir va n ->
  exists r s' l', mappages pgdir va (PGSIZE * n) pa perm s = Ok r s' /\
    pgd_ok s' pgdir l' us /\ frame s s' us /\ elsewhere (kmem s) (kmem s') pgdir va n /\
    (r = 0 /\ mapped_to (kmem s') pgdir va pa perm n \/ r = -1 /\ l' = [] /\ Z.of_nat (length l) < n) /\
    (exists k, (k <= Z.to_nat n)%nat /\ l' = drop k l).
Proof.
  intros P Ha Hr0 Hn Hr Hpa Hpr0 Hpr Hp Hu. set (k := Z.to_nat (n - 1)).
  assert (En : n = Z.of_nat k + 1) by lia.
  destruct (mappages_loop_Ok pgdir us perm k MAPFUEL s l va pa) as (r & s' & l' & R & P' & F' & O' & Hc & H'); try done.
  - by rewrite <- En.
  - by rewrite <- En.
  - by rewrite <- En.
  - change MAPFUEL with (Z.to_nat 1048576). unfold PGSIZE in *. lia.
  - exists r, s', l'. rewrite En. replace (Z.to_nat (Z.of_nat k + 1)) with (S k) by lia.
    split; [|split_and!; try done; destruct Hc as [?|(? & ? & ?)]; [by left|right; split_and!; [done|done|lia]]].
    unfold mappages. rewrite PGROUNDDOWN_spec by (unfold PGSIZE in *; lia). rewrite Ha, Z.sub_0_r.
    replace (PGROUNDDOWN _) with (va + PGSIZE * Z.of_nat k); [done|].
    unfold u32. rewrite Z.mod_small by (unfold PGSIZE in *; lia). rewrite PGROUNDDOWN_spec by (unfold PGSIZE in *; lia).
    replace (va + PGSIZE * (Z.of_nat k + 1) - 1) with (PGSIZE - 1 + (va + PGSIZE * Z.of_nat k)) by lia.
    rewrite (Z.add_mod (PGSIZE - 1)) by done.
    replace ((va + PGSIZE * Z.of_nat k) mod PGSIZE) with 0; [change ((PGSIZE - 1) mod PGSIZE + 0) with (PGSIZE - 1); rewrite Z.mod_small by done; lia|].
    rewrite Z.mul_comm, Z.mod_add by done. done.
Qed.

(** ** [allocuvm] *)

Lemma MAPFUEL_S : exists k, MAPFUEL = S k.
Proof. exists (pred MAPFUEL). unfold MAPFUEL. change (2 ^ 32 / PGSIZE) with 1048576. lia. Qed.

Lemma pgd_perm s pgdir l us us' : us ≡ₚ us' -> pgd_ok s pgdir l us -> pgd_ok s pgdir l us'.
Proof. intros E [K B D T I U]. constructor; try done; setoid_rewrite <- E; done. Qed.

(** A page taken and zeroed. *)
Lemma zeroed_page s pgdir p l us :
  pgd_ok s pgdir (p :: l) us ->
  exists s1, kalloc s = Ok p s1 /\ page_ok end_ p /\ (p ∉ l) /\ (p ∉ us) /\
    let s2 := set_kmem (fill (kmem s1) p PGSIZE 0) s1 in
    memset_page p 0 PGSIZE s1 = Ok tt s2 /\ pgd_ok s2 pgdir l (p :: us) /\ frame s s2 us /\
    (forall va, translate (kmem s2) pgdir va = translate (kmem s) pgdir va) /\
    (forall i, 0 <= i < 1024 -> pde (kmem s2) pgdir i = pde (kmem s) pgdir i) /\
    (forall x, in_page p x -> kmem s2 x = 0).
Proof.
  intros P. pose proof (ki_pages _ _ _ (pg_kinv _ _ _ _ P)) as Hpk. apply Forall_cons in Hpk as [Hp _].
  pose proof (ki_nodup _ _ _ (pg_kinv _ _ _ _ P)) as Hd. apply NoDup_cons in Hd as [Hpl _].
  destruct (pgd_take _ _ _ _ _ P) as (s1 & R1 & M1 & P1). destruct (pg_us _ _ _ _ P) as [Hu Hul].
  assert (Hpu : p ∉ us) by (intros Hpu; apply (Hul p Hpu); set_solver).
  destruct (pgd_store s1 (fill (kmem s1) p PGSIZE 0) _ _ _ P1) as (P2 & T2 & D2).
  { apply byte_fill; [apply P1|done]. }
  { intros x. destruct (decide (in_page p x)) as [Hx|Hx]; [left; exists p; set_solver|right].
    apply fill_other. unfold in_page in Hx. lia. }
  exists s1. do 4 (split; [done|]). intros s2. split_and!; try done; unfold s2; cbn [kmem set_kmem].
  - intros q x Hq Hx. cbn [kmem set_kmem]. rewrite fill_other; [by rewrite M1|].
    rewrite Forall_forall in Hu. destruct (pages_apart q p) as [?|?];
      [by apply Hu|by apply Hp|by intros ->|..]; unfold in_page in *; lia.
  - intros va. by rewrite T2, M1.
  - intros i Hi. by rewrite D2, M1.
  - intros x Hx. by apply fill_in.
Qed.

(** [mappages] for one page. *)
Lemma map_page s pgdir l us a pa perm :
  pgd_ok s pgdir l us -> a mod PGSIZE = 0 -> 0 <= a -> a + PGSIZE <= 2 ^ 32 ->
  pa mod PGSIZE = 0 -> 0 <= pa < 2 ^ 32 -> 0 <= perm < PGSIZE -> translate (kmem s) pgdir a = None ->
  (l = [] /\ mappages pgdir a PGSIZE pa perm s = Ok (-1) s) \/
  exists s' l', mappages pgdir a PGSIZE pa perm s = Ok 0 s' /\
    pgd_ok s' pgdir l' us /\ frame s s' us /\ (exists k, (k <= 1)%nat /\ l' = drop k l) /\
    tables_kept (kmem s) (kmem s') pgdir /\ (forall q, q ∈ l -> q ∈ l' \/ is_table (kmem s') pgdir q) /\
    translate (kmem s') pgdir a = Some (pa, Z.lor perm PTE_P) /\ elsewhere (kmem s) (kmem s') pgdir a 1.
Proof.
  intros P Ha Hr0 Hr Hpa Hpr Hp Hn. destruct MAPFUEL_S as (k & Ek).
  assert (Hra : 0 <= a < 2 ^ 32) by (unfold PGSIZE in *; lia).
  assert (Hlast : PGROUNDDOWN (u32 (a + PGSIZE - 1)) = a).
  { unfold u32. rewrite Z.mod_small by (unfold PGSIZE in *; lia). rewrite PGROUNDDOWN_spec by (unfold PGSIZE in *; lia).
    unfold PGSIZE in *. Z.div_mod_to_equations. lia. }
  unfold mappages. rewrite Hlast, PGROUNDDOWN_spec, Ha, Z.sub_0_r by done. rewrite Ek.
  destruct (mappages_turn k s pgdir l us a a pa perm P Ha Hra Hpa Hpr Hp Hn)
    as [[-> R]|(s' & l' & R & P' & F' & Hl & K' & A' & Hm & Ho)]; [by left|right].
  exists s', l'. rewrite Z.eqb_refl in R. split_and!; try done.
  intros va Hva Hc. apply Ho; [done|]. rewrite div_page by done. unfold PGSIZE in *. lia.
Qed.

(** The pages [ps], zeroed and mapped from [a] on. *)
Definition user_pages (m : memory) (pgdir a : Z) (ps : list Z) : Prop :=
  forall k p, ps !! k = Some p ->
    translate m pgdir (a + PGSIZE * Z.of_nat k) = Some (v2p p, 7) /\ forall x, in_page p x -> m x = 0.

(** ** Giving pages back *)

Lemma kfree_byte v s s' : kfree v s = Ok tt s' -> is_byte_mem (kmem s) -> is_byte_mem (kmem s').
Proof.
  unfold Kalloc.kfree. case_match; [done|]. intros E Hb. injection E as <-. cbn.
  apply byte_write32, byte_fill; done.
Qed.

Lemma pgd_free s pgdir p l us :
  pgd_ok s pgdir l (p :: us) -> p ∉ us ->
  exists s', kfree p s = Ok tt s' /\ pgd_ok s' pgdir (p :: l) us /\ frame s s' us /\
    (forall va, translate (kmem s') pgdir va = translate (kmem s) pgdir va) /\
    (forall i, 0 <= i < 1024 -> pde (kmem s') pgdir i = pde (kmem s) pgdir i).
Proof.
  intros P Hpu. pose proof P as [K B (D1 & D2 & D3) T I (U1 & U2)]. apply Forall_cons in U1 as [Hp U1].
  destruct (kfree_Ok end_ s l p K Hp) as (s' & R & K' & _ & Ho); [apply U2; set_solver|].
  pose proof (kfree_byte _ _ _ R B) as B'.
  destruct (pgd_store s (kmem s') _ _ _ P) as (P2 & T2 & E2); [done| |].
  { intros x. destruct (decide (in_page p x)) as [Hx|Hx]; [left; exists p; set_solver|right].
    apply Ho. unfold in_page in Hx. lia. }
  exists s'. split; [done|]. destruct P2 as [_ _ _ T' I' _]. cbn [kmem set_kmem] in T', I'.
  split; [constructor; try done|split; [|done]].
  - set_solver.
  - intros i Hi Hpr. destruct (T' i Hi Hpr) as (? & ? & ? & ?). set_solver.
  - split; [done|]. intros q Hq. specialize (U2 q ltac:(set_solver)). set_solver.
  - intros q x Hq Hx. apply Ho. rewrite Forall_forall in U1. destruct (pages_apart q p) as [?|?];
      [by apply U1|by apply Hp|by intros ->|..]; unfold in_page in *; lia.
Qed.

Lemma walk_find s pgdir va :
  walkpgdir pgdir va false s =
  Ok (if pte_has PTE_P (pde (kmem s) pgdir (PDX va)) then table (kmem s) pgdir (PDX va) + 4 * PTX va else 0) s.
Proof.
  unfold walkpgdir. rewrite (bind_Ok _ _ _ (pde (kmem s) pgdir (PDX va)) s) by done. by destruct (pte_has _ _).
Qed.

Lemma entry_nonzero s pgdir l us va :
  pgd_ok s pgdir l us -> present (kmem s) pgdir (PDX va) -> table (kmem s) pgdir (PDX va) + 4 * PTX va <> 0.
Proof.
  intros P Hp. destruct (pg_tab _ _ _ _ P _ (PDX_range va) Hp) as ((_ & _ & Hk & _) & _). pose proof (PTX_range va).
  unfold KERNBASE in Hk. lia.
Qed.

(** Memory that is not mapped is passed over: by pages where there is a page
    table, by 4 megabytes where there is none. *)
Lemma dealloc_unmapped pgdir top : forall fuel s l us a,
  pgd_ok s pgdir l us -> 0 <= a -> top < KERNBASE -> top <= a + PGSIZE * Z.of_nat fuel ->
  (forall va, a <= va < top -> translate (kmem s) pgdir va = None) ->
  deallocuvm_loop fuel pgdir a top s = Ok tt s.
Proof.
  induction fuel as [|fuel IH]; intros s l us a P Ha Ht Hf Hu; cbn [deallocuvm_loop];
    destruct (Z.leb_spec top a); try done; [unfold PGSIZE in *; lia|].
  assert (Hw : forall k, 0 <= k <= 2 ^ 22 -> u32 (a + k) = a + k).
  { intros k Hk. apply Z.mod_small. unfold KERNBASE in *. lia. }
  rewrite (bind_Ok _ _ _ _ _ (walk_find s pgdir a)).
  destruct (pte_has PTE_P (pde (kmem s) pgdir (PDX a))) eqn:Hp.
  - rewrite (proj2 (Z.eqb_neq _ _) (entry_nonzero _ _ _ _ _ P Hp)).
    rewrite (bind_Ok _ _ _ (read32 (kmem s) (table (kmem s) pgdir (PDX a) + 4 * PTX a)) s) by done.
    pose proof (Hu a ltac:(lia)) as Hna. rewrite translate_entry in Hna by done. cbn zeta in Hna.
    destruct (pte_has PTE_P (read32 (kmem s) (table (kmem s) pgdir (PDX a) + 4 * PTX a))); [discriminate Hna|]. rewrite (bind_Ok _ _ _ tt s) by done. rewrite Hw by (unfold PGSIZE; lia).
    eapply IH; [done|unfold PGSIZE in *; lia|done|unfold PGSIZE in *; lia|].
    intros va Hva. apply Hu. unfold PGSIZE in *. lia.
  - cbn [Z.eqb]. rewrite Hw by (unfold NPTENTRIES, PGSIZE; lia). rewrite <- Z.add_assoc.
    rewrite Hw by (unfold NPTENTRIES, PGSIZE; lia).
    eapply IH; [done|unfold NPTENTRIES, PGSIZE in *; lia|done|unfold NPTENTRIES, PGSIZE in *; lia|].
    intros va Hva. apply Hu. unfold NPTENTRIES, PGSIZE in *. lia.
Qed.

(** A mapped page is freed and its entry cleared. *)
Lemma dealloc_one fuel s pgdir top p l us a :
  KERNBASE < end_ -> pgd_ok s pgdir l (p :: us) -> p ∉ us -> a mod PGSIZE = 0 -> 0 <= a < top -> top < KERNBASE ->
  translate (kmem s) pgdir a = Some (v2p p, 7) ->
  exists s', deallocuvm_loop (S fuel) pgdir a top s = deallocuvm_loop fuel pgdir (a + PGSIZE) top s' /\
    pgd_ok s' pgdir (p :: l) us /\ frame s s' us /\ tables_kept (kmem s) (kmem s') pgdir /\
    unmapped (kmem s') pgdir a 1 /\ elsewhere (kmem s) (kmem s') pgdir a 1.
Proof.
  intros He P Hpu Ha Hr Ht Hm. pose proof P as [_ _ _ _ _ (U1 & _)]. apply Forall_cons in U1 as [Hp _].
  pose proof Hp as (_ & Hpe & Hpr & _). destruct (v2p_p2v p Hpr) as [Ev Hv].
  assert (Hpres : present (kmem s) pgdir (PDX a)).
  { unfold translate in Hm. fold (pde (kmem s) pgdir (PDX a)) in Hm. unfold present. by destruct (pte_has _ _). }
  pose proof Hm as Hm'. rewrite translate_entry in Hm' by done. cbn zeta in Hm'.
  set (pte := table (kmem s) pgdir (PDX a) + 4 * PTX a) in *.
  destruct (pte_has PTE_P (read32 (kmem s) pte)) eqn:HP; [|done]. injection Hm' as Hm1 Hm2.
  destruct (pgd_free s pgdir p l us P Hpu) as (s1 & R1 & P1 & F1 & T1 & E1).
  assert (Hpres1 : present (kmem s1) pgdir (PDX a)) by (unfold present; rewrite E1 by apply PDX_range; exact Hpres).
  assert (Ha32 : 0 <= a < 2 ^ 32) by (unfold KERNBASE in *; lia).
  destruct (pgd_set s1 pgdir (p :: l) us a 0 P1 Hpres1 ltac:(done) Ha32) as (P2 & F2 & T2 & O2 & K2).
  assert (Et : table (kmem s1) pgdir (PDX a) + 4 * PTX a = pte)
    by (unfold pte, table; by rewrite E1 by apply PDX_range).
  rewrite Et in P2, F2, T2, O2, K2. eexists. split; [|split_and!; [exact P2|by eapply frame_trans| | |]].
  - cbn [deallocuvm_loop]. replace (top <=? a) with false by lia. rewrite (bind_Ok _ _ _ _ _ (walk_find s pgdir a)).
    unfold present in Hpres. rewrite Hpres. fold pte. rewrite (proj2 (Z.eqb_neq pte 0) (entry_nonzero _ _ _ _ _ P Hpres)).
    rewrite (bind_Ok _ _ _ (read32 (kmem s) pte) s) by done. rewrite HP, Hm1, Ev.
    rewrite (proj2 (Z.eqb_neq (v2p p) 0)).
    2:{ intros E0. rewrite E0 in Ev. unfold p2v, u32 in Ev. rewrite Z.mod_small in Ev by (unfold KERNBASE; lia). lia. }
    replace (u32 (a + PGSIZE)) with (a + PGSIZE) by (symmetry; apply Z.mod_small; unfold KERNBASE, PGSIZE in *; lia).
    rewrite (bind_Ok _ _ _ tt (set_kmem (write32 (kmem s1) pte 0) s1)); [done|].
    by rewrite (bind_Ok _ _ _ _ _ R1).
  - eapply kept_tables_trans; [|exact K2]. by apply kept_all.
  - intros va Hva. rewrite (translate_page _ _ va a); [exact T2|unfold KERNBASE, PGSIZE in *; lia|done|].
    apply div_page; [done|lia].
  - intros va Hva Hc. rewrite O2, T1; [done..|]. rewrite div_page by done. unfold PGSIZE in *. lia.
Qed.

Lemma dealloc_pages pgdir top ps : forall fuel s l us a,
  KERNBASE < end_ -> pgd_ok s pgdir l (ps ++ us) -> NoDup ps -> (forall q, q ∈ ps -> q ∉ us) -> a mod PGSIZE = 0 -> 0 <= a ->
  top < KERNBASE -> a + PGSIZE * Z.of_nat (length ps) < top + PGSIZE -> top <= a + PGSIZE * Z.of_nat fuel ->
  (forall k p, ps !! k = Some p -> translate (kmem s) pgdir (a + PGSIZE * Z.of_nat k) = Some (v2p p, 7)) ->
  (forall va, a + PGSIZE * Z.of_nat (length ps) <= va < top -> translate (kmem s) pgdir va = None) ->
  exists s', deallocuvm_loop fuel pgdir a top s = Ok tt s' /\ pgd_ok s' pgdir (reverse ps ++ l) us /\
    frame s s' us /\ tables_kept (kmem s) (kmem s') pgdir /\
    unmapped (kmem s') pgdir a (Z.of_nat (length ps)) /\
    elsewhere (kmem s) (kmem s') pgdir a (Z.of_nat (length ps)).
Proof.
  induction ps as [|p ps IH]; intros fuel s l us a He P Hd Hx Ha Hr Ht Hn Hf Hm Hu.
  - exists s. split_and!; try done.
    + eapply dealloc_unmapped; try done. intros va Hva. apply Hu. cbn. lia.
    + intros va Hva. cbn in Hva. lia.
  - cbn [length app] in *. apply NoDup_cons in Hd as [Hp Hd]. destruct fuel as [|fuel]; [unfold PGSIZE in *; lia|].
    destruct (dealloc_one fuel s pgdir top p l (ps ++ us) a) as (s1 & R1 & P1 & F1 & K1 & U1 & O1); try done.
    { specialize (Hx p). set_solver. }
    { unfold PGSIZE in *. lia. } { rewrite <- (Hm 0%nat p eq_refl). f_equal. lia. }
    destruct (IH fuel s1 (p :: l) us (a + PGSIZE)) as (s' & R & P' & F' & K' & U' & O'); try done; try (unfold PGSIZE in *; lia).
    + intros q Hq. apply Hx. set_solver.
    + rewrite Z.add_mod, Ha by done. done.
    + intros k q Hk. pose proof (lookup_lt_Some _ _ _ Hk). rewrite O1; [|unfold KERNBASE, PGSIZE in *; lia..].
      rewrite <- (Hm (S k) q Hk). f_equal. lia.
    + intros va Hva. rewrite O1; [|unfold KERNBASE, PGSIZE in *; lia..]. apply Hu. unfold PGSIZE in *. lia.
    + exists s'. rewrite R1, R, reverse_cons, <- app_assoc. split_and!; try done.
      * intros q x Hq Hqx. rewrite (F' q x Hq Hqx). apply (F1 q x); [set_solver|done].
      * by eapply kept_tables_trans.
      * intros va Hva. destruct (Z.lt_ge_cases va (a + PGSIZE)) as [Hlt|Hge].
        -- rewrite O'; [apply U1; lia|unfold KERNBASE, PGSIZE in *; lia|by left].
        -- apply U'. unfold PGSIZE in *. lia.
      * intros va Hva Hc. rewrite O', O1; [done|done|unfold PGSIZE in *; lia|done|unfold PGSIZE in *; lia].
Qed.

(** ** Growing a process *)

Ltac in_list := repeat first [rewrite elem_of_app|rewrite elem_of_cons|rewrite elem_of_nil]; tauto.

(** What [allocuvm] has done to the state [s0] with the free pages [l0], at the
    pages [a, a + n): the free pages are now [l], the pages [ps] are mapped in
    order from [a] on and the rest is not mapped, and the pages [lost] belong to
    nobody.  Every page that was free is accounted for: it is free, mapped,
    lost or a page table. *)
Record grown (pgdir : Z) (s0 : kst) (l0 us : list Z) (a : Z) (n : nat) (s : kst) (l lost ps : list Z) : Prop := {
  gr_ok : pgd_ok s pgdir l (lost ++ ps ++ us);
  gr_nodup : NoDup (lost ++ ps);
  gr_from : forall p, p ∈ l \/ p ∈ lost ++ ps -> p ∈ l0;
  gr_spent : forall p, p ∈ l0 -> p ∈ l \/ p ∈ lost ++ ps \/ is_table (kmem s) pgdir p;
  gr_pages : user_pages (kmem s) pgdir a ps;
  gr_rest : unmapped (kmem s) pgdir (a + PGSIZE * Z.of_nat (length ps)) (Z.of_nat n - Z.of_nat (length ps));
  gr_frame : frame s0 s us;
  gr_else : elsewhere (kmem s0) (kmem s) pgdir a (Z.of_nat n)
}.

Lemma user_pages_app m m' pgdir a ps p :
  user_pages m pgdir a ps ->
  (forall k, (k < length ps)%nat ->
     translate m' pgdir (a + PGSIZE * Z.of_nat k) = translate m pgdir (a + PGSIZE * Z.of_nat k)) ->
  (forall q x, q ∈ ps -> in_page q x -> m' x = m x) ->
  translate m' pgdir (a + PGSIZE * Z.of_nat (length ps)) = Some (v2p p, 7) -> (forall x, in_page p x -> m' x = 0) ->
  user_pages m' pgdir a (ps ++ [p]).
Proof.
  intros Hu Ht Hk Hp Hz k q [Hkq|(Hlen & Hkq)]%lookup_app_Some.
  - destruct (Hu k q Hkq) as [Hq1 Hq2]. rewrite Ht by (by eapply lookup_lt_Some). split; [done|].
    intros x Hx. rewrite (Hk q x); [by apply Hq2|by eapply list_elem_of_lookup_2|done].
  - apply list_lookup_singleton_Some in Hkq as [Hk0 ->]. by replace k with (length ps) by lia.
Qed.

Section Growing.
Context (pgdir : Z) (s0 : kst) (l0 us : list Z) (oldsz newsz : Z) (n : nat).
Let a0 := PGROUNDUP oldsz.
Context (Hend : KERNBASE < end_) (Hold : 0 <= oldsz) (Hk : newsz < KERNBASE) (Ha0 : a0 mod PGSIZE = 0) (Ho : oldsz <= a0)
  (Hn : n = 0%nat /\ newsz <= a0 \/ a0 + PGSIZE * (Z.of_nat n - 1) < newsz <= a0 + PGSIZE * Z.of_nat n)
  (H0 : pgd_ok s0 pgdir l0 us).
Local Abbreviation state := (grown pgdir s0 l0 us a0 n).

Lemma grown_start : unmapped (kmem s0) pgdir a0 (Z.of_nat n) -> state s0 l0 [] [].
Proof.
  intros Hu. constructor; try done; [constructor|set_solver|set_solver|].
  intros va Hva. apply Hu. cbn in Hva. lia.
Qed.

(** Running out of memory undoes everything but the page tables. *)
Lemma rollback s l lost ps :
  state s l lost ps -> (length ps < n)%nat ->
  exists s', deallocuvm pgdir newsz oldsz s = Ok oldsz s' /\ state s' (reverse ps ++ l) lost [].
Proof.
  intros [P Hd Hf Hs Hp Hr Fr El] Hlt. destruct Hn as [[-> _]|Hnn]; [lia|]. clear Hn.
  apply NoDup_app in Hd as (Hd1 & Hd2 & Hd3).
  destruct (dealloc_pages pgdir newsz ps MAPFUEL s l (lost ++ us) a0) as (s' & R & P' & F' & K' & U' & O'); try done.
  - eapply pgd_perm; [|exact P]. rewrite !app_assoc. by rewrite (Permutation_app_comm lost).
  - intros q Hq [Hq'|Hq']%elem_of_app; [by eapply Hd2|]. destruct (pg_us _ _ _ _ H0) as [_ Hl].
    apply (Hl q Hq'), Hf. right. apply elem_of_app. by right.
  - lia.
  - unfold PGSIZE in *. lia.
  - change MAPFUEL with (Z.to_nat 1048576). unfold KERNBASE, PGSIZE in *. lia.
  - intros k p Hkp. by apply (Hp k p).
  - intros va Hva. apply Hr. unfold PGSIZE in *. lia.
  - exists s'. split.
    + unfold deallocuvm. replace (newsz <=? oldsz) with false by (unfold PGSIZE in *; lia). fold a0.
      by rewrite (bind_Ok _ _ _ _ _ R).
    + constructor; rewrite ?app_nil_r in *; try done.
      * intros q Hq. apply Hf. rewrite elem_of_app, elem_of_reverse in Hq. rewrite elem_of_app. tauto.
      * intros q Hq. specialize (Hs q Hq). rewrite elem_of_app in Hs. rewrite elem_of_app, elem_of_reverse.
        pose proof (kept_table _ _ pgdir q K'). tauto.
      * intros va Hva. cbn in Hva. destruct (Z.lt_ge_cases va (a0 + PGSIZE * Z.of_nat (length ps))) as [?|?].
        -- apply U'. lia.
        -- rewrite O'; [apply Hr; unfold PGSIZE in *; lia|unfold KERNBASE, PGSIZE in *; lia|by right].
      * intros q x Hq Hx. rewrite (F' q x); [by apply (Fr q x)|apply elem_of_app; by right|done].
      * intros va Hva Hc. rewrite O'; [by apply El|done|unfold PGSIZE in *; lia].
Qed.

(** A turn with a free page: the page is mapped next, or it was the last page
    and is lost for want of a page table. *)
Lemma grow_turn s p l ps (a := a0 + PGSIZE * Z.of_nat (length ps)) :
  state s (p :: l) [] ps -> (length ps < n)%nat ->
  exists s1 s2, kalloc s = Ok p s1 /\ p <> 0 /\ memset_page p 0 PGSIZE s1 = Ok tt s2 /\
    ((exists s3 l', mappages pgdir a PGSIZE (v2p p) (Z.lor PTE_W PTE_U) s2 = Ok 0 s3 /\
        state s3 l' [] (ps ++ [p]) /\ (length l <= S (length l'))%nat) \/
     l = [] /\ mappages pgdir a PGSIZE (v2p p) (Z.lor PTE_W PTE_U) s2 = Ok (-1) s2 /\ state s2 [] [p] ps).
Proof.
  intros [P Hd Hf Hs Hp Hr Fr El] Hlt. destruct Hn as [[-> _]|Hnn]; [lia|]. clear Hn. cbn [app] in *.
  destruct (zeroed_page _ _ _ _ _ P) as (s1 & R1 & Hpok & Hpl & Hpu & R2 & P2 & F2 & T2 & E2 & Z2).
  set (s2 := set_kmem _ s1) in *. exists s1, s2. pose proof Hpok as (Hpa & _ & Hpr & Hp0).
  split; [done|]. split; [done|]. split; [done|]. destruct (v2p_p2v p Hpr) as [_ Hv].
  assert (Ha : a mod PGSIZE = 0) by (unfold a; rewrite Z.mul_comm, Z.mod_add by done; exact Ha0).
  assert (Hra : 0 <= a /\ a + PGSIZE <= KERNBASE).
  { unfold a, KERNBASE, PGSIZE in *. Z.div_mod_to_equations. lia. }
  assert (Hd' : NoDup (ps ++ [p])).
  { apply NoDup_app. split_and!; [done| |apply NoDup_singleton]. intros q Hq ->%list_elem_of_singleton. apply Hpu, elem_of_app. by left. }
  destruct (map_page s2 pgdir l (p :: ps ++ us) a (v2p p) (Z.lor PTE_W PTE_U) P2 Ha)
    as [[-> R3]|(s3 & l' & R3 & P3 & F3 & (k & Hk1 & ->) & K3 & A3 & M3 & O3)];
    try (unfold KERNBASE, PHYSTOP in *; lia); [by apply v2p_aligned|done| |right|left].
  { rewrite T2. apply Hr. unfold a, PGSIZE in *. lia. }
  - split; [done|]. split; [done|]. constructor; cbn [app]; [exact P2| | | | | | |].
    + by rewrite (Permutation_app_comm [p] ps).
    + intros q Hq. apply Hf. revert Hq. in_list.
    + intros q Hq. pose proof (Hs q Hq) as Hq'. pose proof (kept_table _ (kmem s2) pgdir q (kept_all _ _ _ E2)).
      revert Hq'. in_list.
    + intros k q Hkq. destruct (Hp k q Hkq) as [Ht Hz]. split; [by rewrite T2|]. intros x Hx.
      rewrite (F2 q x); [by apply Hz| |done]. apply elem_of_app. left. by eapply list_elem_of_lookup_2.
    + intros va Hva. rewrite T2. by apply Hr.
    + intros q x Hq Hx. rewrite (F2 q x); [by apply (Fr q x)|in_list|done].
    + intros va Hva Hc. rewrite T2. by apply El.
  - exists s3, (drop k l). split; [done|]. split; [|rewrite length_drop; lia].
    assert (Hdrop : forall q, q ∈ drop k l -> q ∈ l).
    { intros q Hq. rewrite <- (take_drop k l). apply elem_of_app. by right. }
    constructor; cbn [app]; [|exact Hd'| | | | | |].
    + eapply pgd_perm; [|exact P3]. rewrite <- app_assoc. by rewrite Permutation_middle.
    + intros q Hq. apply Hf. specialize (Hdrop q). revert Hq. in_list.
    + intros q Hq. pose proof (Hs q Hq) as Hq'. pose proof (A3 q) as Hq3.
      pose proof (kept_table _ _ pgdir q (kept_tables_trans _ _ _ _ (kept_all _ _ _ E2) K3)).
      revert Hq'. in_list.
    + eapply user_pages_app; [exact Hp| | |exact M3|].
      * intros k' Hk'. rewrite O3, T2; [done| |left]; unfold a, KERNBASE, PGSIZE in *; lia.
      * intros q x Hq Hx. rewrite (F3 q x), (F2 q x); [done|in_list|done|in_list|done].
      * intros x Hx. rewrite (F3 p x); [by apply Z2|in_list|done].
    + rewrite length_app. cbn [length]. intros va Hva.
      rewrite O3, T2; [apply Hr| |right]; unfold a, KERNBASE, PGSIZE in *; lia.
    + intros q x Hq Hx. rewrite (F3 q x), (F2 q x); [by apply (Fr q x)|in_list|done|in_list|done].
    + intros va Hva Hc. rewrite O3, T2; [by apply El|done|]. unfold a, PGSIZE in *. lia.
Qed.

(** How it ends: the memory is there; all but its last page, which is lost,
    though the new size is returned; or nothing, and 0 is returned. *)
Definition grow_outcome (r : Z) (l lost ps : list Z) : Prop :=
  (r = newsz /\ length ps = n /\ lost = []) \/
  (r = newsz /\ S (length ps) = n /\ length lost = 1%nat /\ l = []) \/
  (r = 0 /\ (0 < n)%nat /\ ps = [] /\ (length lost <= 1)%nat).

Lemma out_of_memory fuel s lost ps (a := a0 + PGSIZE * Z.of_nat (length ps + length lost)) :
  state s [] lost ps -> (length ps + length lost < n)%nat -> (length lost <= 1)%nat ->
  exists s' l', allocuvm_loop (S fuel) pgdir a oldsz newsz s = Ok 0 s' /\ state s' l' lost [].
Proof.
  intros G Hlt Hlost. cbn [allocuvm_loop]. replace (newsz <=? a) with false.
  2:{ symmetry. apply Z.leb_gt. destruct Hn as [[Hn0 _]|Hnn]; [lia|]. unfold a, PGSIZE in *. lia. }
  destruct (kalloc_Ok end_ s _ (pg_kinv _ _ _ _ (gr_ok _ _ _ _ _ _ _ _ _ _ G))) as [R _].
  rewrite (bind_Ok _ _ _ _ _ R). change (0 =? 0) with true. cbv iota.
  destruct (rollback s [] lost ps G ltac:(lia)) as (s' & R' & G'). exists s', (reverse ps ++ []).
  by rewrite (bind_Ok _ _ _ _ _ R').
Qed.

Lemma grow_loop : forall fuel s l ps, state s l [] ps -> (length ps <= n)%nat -> (n <= length ps + fuel)%nat ->
  (length l0 <= length l + 2 * length ps)%nat ->
  exists r s' l' lost ps', allocuvm_loop fuel pgdir (a0 + PGSIZE * Z.of_nat (length ps)) oldsz newsz s = Ok r s' /\
    state s' l' lost ps' /\ grow_outcome r l' lost ps' /\ ((2 * n <= length l0)%nat -> length ps' = n /\ lost = []).
Proof.
  induction fuel as [|fuel IH]; intros s l ps G Hle Hf Hl.
  - exists newsz, s, l, [], ps. assert (length ps = n) by lia. split_and!; try done; [|by left].
    cbn [allocuvm_loop]. replace (newsz <=? _) with true; [done|]. destruct Hn; unfold PGSIZE in *; lia.
  - destruct (decide (length ps = n)) as [E|E].
    { exists newsz, s, l, [], ps. split_and!; try done; [|by left].
      cbn [allocuvm_loop]. replace (newsz <=? _) with true; [done|]. destruct Hn; unfold PGSIZE in *; lia. }
    destruct l as [|p l].
    { destruct (out_of_memory fuel s [] ps G) as (s' & l' & R & G'); [cbn; lia|cbn; lia|].
      cbn [length] in R. rewrite Nat.add_0_r in R. exists 0, s', l', [], []. split_and!; try done.
      - right; right. split_and!; [done|lia|done|cbn; lia].
      - intros ?. cbn in Hl. lia. }
    destruct (grow_turn s p l ps G ltac:(lia)) as (s1 & s2 & R1 & Hp0 & R2 & Hc). cbn [allocuvm_loop].
    replace (newsz <=? _) with false by (destruct Hn; unfold PGSIZE in *; lia).
    rewrite (bind_Ok _ _ _ _ _ R1), (proj2 (Z.eqb_neq _ _) Hp0), (bind_Ok _ _ _ _ _ R2).
    assert (Hnext : u32 (a0 + PGSIZE * Z.of_nat (length ps) + PGSIZE) = a0 + PGSIZE * Z.of_nat (length ps + 1)).
    { unfold u32. rewrite Z.mod_small; [lia|]. destruct Hn; unfold KERNBASE, PGSIZE in *; lia. }
    destruct Hc as [(s3 & l3 & R3 & G3 & Hl3)|(-> & R3 & G3)]; rewrite (bind_Ok _ _ _ _ _ R3), Hnext.
    + destruct (IH s3 l3 (ps ++ [p]) G3) as (r & s' & l' & lost & ps' & R & H').
      1-3: rewrite length_app; cbn in *; lia. rewrite length_app in R. by exists r, s', l', lost, ps'.
    + destruct (decide (S (length ps) = n)) as [E1|E1].
      * exists newsz, s2, [], [p], ps. split_and!; try done.
        -- destruct fuel; cbn [allocuvm_loop]; (rewrite (proj2 (Z.leb_le _ _)); [done|]); destruct Hn; unfold PGSIZE in *; lia.
        -- by right; left.
        -- intros ?. cbn in Hl. lia.
      * destruct fuel as [|fuel]; [lia|].
        destruct (out_of_memory fuel s2 [p] ps G3) as (s' & l' & R & G'); [cbn; lia|done|].
        cbn [length] in R. exists 0, s', l', [p], []. split_and!; try done.
        -- right; right. split_and!; [done|lia|done|done].
        -- intros ?. cbn in Hl. lia.
Qed.
End Growing.

(** C24: [mappages] maps exactly the pages asked for.  On a well-formed page table
    in which the pages are not mapped yet, it returns 0 with every address of
    the range translated to the corresponding physical address with the given
    permissions, or -1 when the free pages run out; either way no other
    translation changes, the page table stays well-formed, and no page in use
    by others is touched. *)
Theorem mappages_maps s pgdir l us va n pa perm :
  pgd_ok s pgdir l us -> va mod PGSIZE = 0 -> 0 <= va -> 0 < n -> va + PGSIZE * n <= 2 ^ 32 ->
  pa mod PGSIZE = 0 -> 0 <= pa -> pa + PGSIZE * n <= 2 ^ 32 -> 0 <= perm < PGSIZE ->
  unmapped (kmem s) pgdir va n ->
  exists r s' l', mappages pgdir va (PGSIZE * n) pa perm s = Ok r s' /\
    pgd_ok s' pgdir l' us /\ frame s s' us /\ elsewhere (kmem s) (kmem s') pgdir va n /\
    (r = 0 /\ mapped_to (kmem s') pgdir va pa perm n \/ r = -1 /\ l' = [] /\ Z.of_nat (length l) < n).
Proof.
  intros P Ha Hr0 Hn Hr Hpa Hpr0 Hpr Hp Hu.
  destruct (mappages_Ok s pgdir l us va n pa perm) as (r & s' & l' & R & P' & F' & O' & Hc & _); try done.
  by exists r, s', l'.
Qed.

(** C25: a process grows by fresh, zeroed memory, or not at all, whatever memory
    is left.  For a size in user space, not below the old one, whose new pages
    are not mapped yet, [allocuvm] returns, and one of three things has
    happened.  It returns the new size and every new page was free, is
    different from the others, contains zeroes and is mapped writable for the
    user, in order; this is the case whenever two free pages were left for each
    new page.  Or memory ran out: it returns 0, the new range is not mapped and
    the pages it took are free again, but for page tables and at most one lost
    page.  Or it returns the new size although the last page is missing,
    because its page table could not be allocated; that page is lost.  In every
    case no other translation changes and no page in use by others is
    touched. *)
Theorem allocuvm_fresh s pgdir l us oldsz newsz (a := PGROUNDUP oldsz)
    (n := Z.to_nat ((newsz - a + PGSIZE - 1) / PGSIZE)) :
  KERNBASE < end_ -> pgd_ok s pgdir l us -> 0 <= oldsz <= newsz -> newsz < KERNBASE ->
  unmapped (kmem s) pgdir a (Z.of_nat n) ->
  exists r s' l' lost ps, allocuvm pgdir oldsz newsz s = Ok r s' /\
    grown pgdir s l us a n s' l' lost ps /\
    ((r = newsz /\ length ps = n /\ lost = []) \/
     (r = newsz /\ S (length ps) = n /\ length lost = 1%nat /\ l' = []) \/
     (r = 0 /\ (0 < n)%nat /\ ps = [] /\ (length lost <= 1)%nat)) /\
    ((2 * n <= length l)%nat -> length ps = n /\ lost = []).
Proof.
  intros He P Hsz Hk Hu.
  destruct (PGROUNDUP_spec oldsz) as [Ha Hr]; [lia|unfold KERNBASE, PGSIZE in *; lia|]. fold a in Ha, Hr.
  unfold allocuvm. replace (KERNBASE <=? newsz) with false by lia. replace (newsz <? oldsz) with false by lia.
  assert (Hn : n = 0%nat /\ newsz <= a \/ a + PGSIZE * (Z.of_nat n - 1) < newsz <= a + PGSIZE * Z.of_nat n).
  { unfold n. destruct (Z.le_gt_cases newsz a) as [Hc|Hc].
    - left. split; [|done]. assert ((newsz - a + PGSIZE - 1) / PGSIZE < 1) by (apply Z.div_lt_upper_bound; unfold PGSIZE in *; lia). lia.
    - right. unfold PGSIZE in *. Z.div_mod_to_equations. lia. }
  assert (Hf : (n <= MAPFUEL)%nat).
  { unfold n, MAPFUEL. assert ((newsz - a + PGSIZE - 1) / PGSIZE <= 2 ^ 32 / PGSIZE); [|lia].
    apply Z.div_le_mono; [done|]. unfold KERNBASE, PGSIZE in *. lia. }
  destruct (grow_loop pgdir s l us oldsz newsz n He (proj1 Hsz) Hk Ha (proj1 Hr) Hn P MAPFUEL s l [])
    as (r & s' & l' & lost & ps & R & H'); try (cbn; lia); [eapply (grown_start pgdir s l us oldsz newsz n); try done; lia|].
  exists r, s', l', lost, ps. split; [|exact H'].
  cbn [length] in R. by rewrite Z.mul_0_r, Z.add_0_r in R.
Qed.

Lemma walk_none s pgdir us va :
  pgd_ok s pgdir [] us -> ~ present (kmem s) pgdir (PDX va) -> walkpgdir pgdir va true s = Ok 0 s.
Proof.
  intros P Hnp. unfold walkpgdir. rewrite (bind_Ok _ _ _ (pde (kmem s) pgdir (PDX va)) s) by done.
  unfold present in Hnp. destruct (pte_has PTE_P (pde (kmem s) pgdir (PDX va))); [done|]. cbn [negb].
  destruct (kalloc_Ok end_ s _ (pg_kinv _ _ _ _ P)) as [R _]. by rewrite (bind_Ok _ _ _ _ _ R).
Qed.

(** [allocuvm] does not notice that a page could not be mapped.  With one free
    page and no page table for the address, it takes the page, ignores that
    [mappages] fails for want of a page table, and reports the new size; the
    memory is not mapped and the page is lost. *)
Lemma allocuvm_ignores_failure s pgdir us p :
  pgd_ok s pgdir [p] us -> ~ present (kmem s) pgdir (PDX 0) ->
  exists s', allocuvm pgdir 0 PGSIZE s = Ok PGSIZE s' /\
    translate (kmem s') pgdir 0 = None /\ kinv end_ s' [].
Proof.
  intros P Hnp. pose proof (ki_pages _ _ _ (pg_kinv _ _ _ _ P)) as Hpk. apply Forall_cons in Hpk as [(_ & _ & _ & Hp0) _].
  destruct (pgd_take _ _ _ _ _ P) as (s1 & R1 & M1 & P1).
  destruct (pgd_store s1 (fill (kmem s1) p PGSIZE 0) _ _ _ P1) as (P2 & T2 & D2).
  { apply byte_fill; [apply P1|done]. }
  { intros x. destruct (decide (in_page p x)) as [Hx|Hx]; [left; exists p; set_solver|right].
    apply fill_other. unfold in_page in Hx. lia. }
  set (s2 := set_kmem (fill (kmem s1) p PGSIZE 0) s1) in *.
  assert (Hnp2 : ~ present (kmem s2) pgdir (PDX 0)).
  { unfold present. cbn [kmem s2 set_kmem]. rewrite D2, M1 by apply PDX_range. exact Hnp. }
  pose proof (walk_none _ _ _ _ P2 Hnp2) as R. destruct MAPFUEL_S as (k & Ek). exists s2. split_and!.
  - unfold allocuvm. change (KERNBASE <=? PGSIZE) with false. change (PGSIZE <? 0) with false.
    change (PGROUNDUP 0) with 0. rewrite Ek. cbn [allocuvm_loop].
    change (PGSIZE <=? 0) with false. cbv iota. rewrite (bind_Ok _ _ _ _ _ R1), (proj2 (Z.eqb_neq _ _) Hp0).
    rewrite (bind_Ok _ _ s1 tt s2) by done. rewrite (bind_Ok _ _ s2 (-1) s2).
    + change (u32 (0 + PGSIZE)) with PGSIZE. by destruct k.
    + unfold mappages. change (PGROUNDDOWN 0) with 0. rewrite Ek.
      cbn [mappages_loop]. by rewrite (bind_Ok _ _ _ _ _ R).
  - unfold translate. fold (pde (kmem s2) pgdir (PDX 0)). unfold present in Hnp2. by destruct (pte_has _ _).
  - apply P2.
Qed.

Lemma copyout_loop_null fuel s pgdir va bs len :
  0 < len -> ~ present (kmem s) pgdir (PDX (PGROUNDDOWN va)) ->
  copyout_loop (S fuel) pgdir va bs len s = Stop (Undefined "null page table entry") s.
Proof.
  intros Hl Hnp. cbn [copyout_loop]. rewrite (proj2 (Z.leb_gt len 0)) by lia. apply bind_Stop.
  unfold uva2ka. rewrite (bind_Ok _ _ s 0 s); [done|]. unfold walkpgdir.
  rewrite (bind_Ok _ _ s (pde (kmem s) pgdir (PDX (PGROUNDDOWN va))) s) by done.
  unfold present in Hnp. by destruct (pte_has _ _).
Qed.

(** The kernel's copy to user space can crash on an unmapped address: when
    there is no page table for the address, [uva2ka] dereferences the null
    pointer that [walkpgdir] returned. *)
Lemma copyout_null_entry s pgdir va bs :
  0 <= va < 2 ^ 32 -> ~ present (kmem s) pgdir (PDX (PGROUNDDOWN va)) -> bs <> [] ->
  copyout pgdir va bs (Z.of_nat (length bs)) s = Stop (Undefined "null page table entry") s.
Proof.
  intros Hva Hnp Hbs. apply copyout_loop_null; [|done]. destruct bs; [done|]. cbn [length]. lia.
Qed.

End Vm.

(** ** Witnesses *)

(** An empty page directory and [n] free pages after it. *)
Definition DIR : Z := KERNLINK.
Fixpoint link_pages (m : memory) (p : Z) (n : nat) : memory :=
  match n with
  | O => m
  | S n => match n with
           | O => m
           | S _ => link_pages (write32 m p (p + PGSIZE)) (p + PGSIZE) n
           end
  end.
Definition fresh_dir (n : nat) : kst := Kst (link_pages (fun _ => 0) (DIR + PGSIZE) n) (DIR + PGSIZE) true.
Definition four_pages : list Z := [DIR + PGSIZE; DIR + 2 * PGSIZE; DIR + 3 * PGSIZE; DIR + 4 * PGSIZE].

Lemma fresh_byte n : forall m p, is_byte_mem m -> is_byte_mem (link_pages m p n).
Proof.
  induction n as [|[|n] IH]; intros m p Hm; try done. apply IH. by apply byte_write32.
Qed.

Lemma fresh_page_ok k : 0 <= k <= 4 -> page_ok KERNLINK (DIR + k * PGSIZE).
Proof.
  intros Hk. unfold page_ok, DIR, KERNLINK, KERNBASE, EXTMEM, PHYSTOP. split_and!; try (unfold PGSIZE; lia).
  rewrite Z.mod_add by done. done.
Qed.

Lemma fresh_empty m i : (forall x, in_page DIR x -> m x = 0) -> 0 <= i < 1024 -> ~ present m DIR i.
Proof.
  intros Hm Hi. unfold present, pde. rewrite (read32_page m (fun _ => 0)) by done. done.
Qed.

Lemma fresh_zero n : forall m p x, DIR + PGSIZE <= p -> in_page DIR x -> m x = 0 -> link_pages m p n x = 0.
Proof.
  induction n as [|[|n] IH]; intros m p x Hp Hx Hm; try done.
  change (link_pages m p (S (S n))) with (link_pages (write32 m p (p + PGSIZE)) (p + PGSIZE) (S n)).
  apply IH; [unfold PGSIZE in *; lia|done|]. rewrite write32_other; [done|]. unfold in_page in Hx. lia.
Qed.

Lemma fresh_dir_ok l n :
  kinv KERNLINK (fresh_dir n) l -> DIR ∉ l -> pgd_ok KERNLINK (fresh_dir n) DIR l [].
Proof.
  intros K Hd.
  assert (Hno : forall i, 0 <= i < 1024 -> ~ present (kmem (fresh_dir n)) DIR i).
  { intros i Hi. apply fresh_empty; [|done]. intros x Hx. by apply fresh_zero. }
  constructor; try done.
  - by apply fresh_byte.
  - split_and!; [|done|by apply not_elem_of_nil]. apply (fresh_page_ok 0). lia.
  - intros i Hi Hp. by destruct (Hno i Hi).
  - intros i j Hi Hj Hp. by destruct (Hno i Hi).
  - split; [constructor|]. intros q Hq. by apply not_elem_of_nil in Hq.
Qed.

Lemma four_pages_ok : pgd_ok KERNLINK (fresh_dir 4) DIR four_pages [].
Proof.
  apply fresh_dir_ok.
  - constructor.
    + vm_compute. done.
    + repeat constructor; (apply (fresh_page_ok 1) || apply (fresh_page_ok 2) || apply (fresh_page_ok 3) || apply (fresh_page_ok 4)); lia.
    + refine (bool_decide_eq_true_1 _ _). vm_compute. reflexivity.
  - refine (bool_decide_eq_true_1 _ _). vm_compute. reflexivity.
Qed.

Lemma mappages_maps_witness :
  exists s', mappages DIR (2 * PGSIZE) (PGSIZE * 3) 0 PTE_W (fresh_dir 4) = Ok 0 s' /\
    translate (kmem s') DIR (4 * PGSIZE + 5) = Some (2 * PGSIZE, Z.lor PTE_W PTE_P).
Proof.
  destruct (mappages_maps KERNLINK (fresh_dir 4) DIR four_pages [] (2 * PGSIZE) 3 0 PTE_W) as (r & s' & l' & R & _ & _ & _ & Hc).
  - apply four_pages_ok.
  - reflexivity.
  - unfold PGSIZE. lia.
  - lia.
  - unfold PGSIZE. lia.
  - reflexivity.
  - lia.
  - unfold PGSIZE. lia.
  - split; [discriminate|reflexivity].
  - intros va Hva. unfold translate. fold (pde (kmem (fresh_dir 4)) DIR (PDX va)).
    assert (Hn : ~ present (kmem (fresh_dir 4)) DIR (PDX va)).
    { apply fresh_empty; [|apply PDX_range]. intros x Hx. by apply fresh_zero. }
    unfold present in Hn. by destruct (pte_has _ _).
  - destruct Hc as [[-> Hm]|(_ & _ & Hl)]; [|exfalso; cbn in Hl; lia].
    exists s'. split; [exact R|]. rewrite Hm by (unfold PGSIZE; lia). reflexivity.
Defined.

Lemma fresh_unmapped n va : translate (kmem (fresh_dir n)) DIR va = None.
Proof.
  unfold translate. fold (pde (kmem (fresh_dir n)) DIR (PDX va)).
  assert (Hn : ~ present (kmem (fresh_dir n)) DIR (PDX va)).
  { apply fresh_empty; [|apply PDX_range]. intros x Hx. by apply fresh_zero. }
  unfold present in Hn. by destruct (pte_has _ _).
Qed.

Lemma allocuvm_fresh_witness :
  exists s' p, allocuvm KERNLINK DIR 100 5000 (fresh_dir 4) = Ok 5000 s' /\
    translate (kmem s') DIR PGSIZE = Some (v2p p, 7) /\ kmem s' p = 0.
Proof.
  destruct (allocuvm_fresh KERNLINK (fresh_dir 4) DIR four_pages [] 100 5000)
    as (r & s' & l' & lost & ps & R & [_ _ _ _ Hu _ _ _] & Hc & Hl).
  - reflexivity.
  - apply four_pages_ok.
  - lia.
  - reflexivity.
  - intros va _. apply fresh_unmapped.
  - destruct (Hl ltac:(vm_compute; lia)) as [Hps ->].
    destruct ps as [|p ps]; [discriminate Hps|]. destruct (Hu 0%nat p eq_refl) as [Ht Hz].
    assert (r = 5000) as -> by (destruct Hc as [(? & _)|[(? & _)|(_ & _ & ? & _)]]; [done|done|discriminate]).
    exists s', p. split_and!; [exact R|exact Ht|]. apply Hz. unfold in_page, PGSIZE. lia.
Defined.

Lemma allocuvm_ignores_failure_witness :
  exists s', allocuvm KERNLINK DIR 0 PGSIZE (fresh_dir 1) = Ok PGSIZE s' /\ translate (kmem s') DIR 0 = None.
Proof.
  destruct (allocuvm_ignores_failure KERNLINK (fresh_dir 1) DIR [] (DIR + PGSIZE)) as (s' & R & Ht & _).
  - apply fresh_dir_ok.
    + constructor; [vm_compute; done| |].
      * constructor; [apply (fresh_page_ok 1); lia|constructor].
      * constructor; [by apply not_elem_of_nil|constructor].
    + refine (bool_decide_eq_true_1 _ _). vm_compute. reflexivity.
  - apply fresh_empty; [|apply PDX_range]. intros x Hx. by apply fresh_zero.
  - exists s'. split; [exact R|exact Ht].
Defined.

Lemma copyout_null_entry_witness :
  copyout DIR 5 [1; 2; 3] 3 (fresh_dir 4) = Stop (Undefined "null page table entry") (fresh_dir 4).
Proof.
  apply (copyout_null_entry (fresh_dir 4) DIR 5 [1; 2; 3]); [lia| |discriminate].
  apply fresh_empty; [|apply PDX_range]. intros x Hx. by apply fresh_zero.
Defined.
