(* ===== verification/Pipe.v ===== *)
(** * Pipe: pipes (pipe.c)

    The circular buffer of a pipe, with its 32-bit counters.  A reader or writer
    that sleeps is a result that says how to go on: the process runs the rest of
    its loop when it is woken.  The theorems are about every interleaving of
    such sections: the bytes read are the bytes written, in order, and a writer
    whose bytes are read gets to the end. *)

From S2P Require Import Prelude.
Open Scope Z_scope.
Open Scope xv6_scope.

Definition PIPESIZE : Z := 512.

Record pipe := Pipe {
  p_data : list Z;
  nread : Z;
  nwrite : Z;
  readopen : bool;
  writeopen : bool
}.

(** [p->data[p->nwrite++ % PIPESIZE] = c] and [p->data[p->nread++ % PIPESIZE]]. *)
Definition put (c : Z) (p : pipe) : pipe :=
  Pipe (<[Z.to_nat (nwrite p mod PIPESIZE) := c]> (p_data p)) (nread p) (u32 (nwrite p + 1))
    (readopen p) (writeopen p).
Definition get (p : pipe) : Z := default 0 (p_data p !! Z.to_nat (nread p mod PIPESIZE)).
Definition skip (p : pipe) : pipe :=
  Pipe (p_data p) (u32 (nread p + 1)) (nwrite p) (readopen p) (writeopen p).

(** What a section of [pipewrite] ends with: all bytes are written, the call
    fails, or the process sleeps on [&p->nwrite] with bytes left. *)
Inductive wresult :=
| WDone (p : pipe)
| WFail (p : pipe) (rest : list Z)
| WSleep (p : pipe) (rest : list Z).

Fixpoint pipewrite (killed : bool) (p : pipe) (src : list Z) : wresult :=
  match src with
  | [] => WDone p
  | c :: rest =>
      if nwrite p =? u32 (nread p + PIPESIZE) then
        if negb (readopen p) || killed then WFail p src else WSleep p src
      else pipewrite killed (put c p) rest
  end.

(** The copying loop of [piperead]. *)
Fixpoint piperead_copy (n : nat) (p : pipe) : pipe * list Z :=
  match n with
  | O => (p, [])
  | S n =>
      if nread p =? nwrite p then (p, [])
      else let (p', bs) := piperead_copy n (skip p) in (p', get p :: bs)
  end.

Inductive rresult :=
| RDone (p : pipe) (bs : list Z)
| RFail
| RSleep.

Definition piperead (killed : bool) (p : pipe) (n : Z) : rresult :=
  if (nread p =? nwrite p) && writeopen p then
    if killed then RFail else RSleep
  else let (p', bs) := piperead_copy (Z.to_nat n) p in RDone p' bs.

(** [pipeclose]: the pipe, or nothing when its page is freed. *)
Definition pipeclose (p : pipe) (writable : bool) : option pipe :=
  let p := if writable then Pipe (p_data p) (nread p) (nwrite p) (readopen p) false
           else Pipe (p_data p) (nread p) (nwrite p) false (writeopen p) in
  if negb (readopen p) && negb (writeopen p) then None else Some p.

(** What [pipealloc] stores in the page [data] it got. *)
Definition pipeinit (data : list Z) : pipe := Pipe data 0 0 true true.

(** ** The bytes in a pipe *)

Definition pending (p : pipe) : Z := (nwrite p - nread p) mod 2 ^ 32.
Definition buffered (p : pipe) : list Z :=
  (fun k => default 0 (p_data p !! Z.to_nat ((nread p + k) mod PIPESIZE))) <$> seqZ 0 (pending p).

Record pipe_ok (p : pipe) : Prop := {
  po_data : length (p_data p) = Z.to_nat PIPESIZE;
  po_read : is_u32 (nread p);
  po_write : is_u32 (nwrite p);
  po_room : pending p <= PIPESIZE
}.

Lemma pipeinit_ok data : length data = Z.to_nat PIPESIZE -> pipe_ok (pipeinit data) /\ buffered (pipeinit data) = [].
Proof. intros Hd. split; [|done]. constructor; try done; unfold is_u32; cbn; lia. Qed.

Lemma full_pending p : pipe_ok p -> (nwrite p =? u32 (nread p + PIPESIZE)) = (pending p =? PIPESIZE).
Proof.
  intros [_ Hr Hw Hp]. unfold pending, u32, is_u32, PIPESIZE in *.
  apply eq_true_iff_eq. rewrite !Z.eqb_eq. Z.div_mod_to_equations. lia.
Qed.

Lemma empty_pending p : pipe_ok p -> (nread p =? nwrite p) = (pending p =? 0).
Proof.
  intros [_ Hr Hw Hp]. unfold pending, is_u32 in *.
  apply eq_true_iff_eq. rewrite !Z.eqb_eq. Z.div_mod_to_equations. lia.
Qed.

Lemma pending_put c p : pipe_ok p -> pending p < PIPESIZE -> pending (put c p) = pending p + 1.
Proof.
  intros [_ Hr Hw Hp] Hl. unfold pending, put, u32, is_u32, PIPESIZE in *. cbn. Z.div_mod_to_equations. lia.
Qed.

Lemma pending_skip p : pipe_ok p -> 0 < pending p -> pending (skip p) = pending p - 1.
Proof.
  intros [_ Hr Hw Hp] Hl. unfold pending, skip, u32, is_u32, PIPESIZE in *. cbn. Z.div_mod_to_equations. lia.
Qed.

Lemma u32_range z : is_u32 (u32 z).
Proof. unfold is_u32, u32. apply Z.mod_pos_bound. lia. Qed.

(** The slot of a byte depends on its number modulo [PIPESIZE], across the wrap
    of the counter. *)
Lemma slot_u32 z k : (u32 z + k) mod PIPESIZE = (z + k) mod PIPESIZE.
Proof. unfold u32, PIPESIZE. Z.div_mod_to_equations. lia. Qed.

Lemma put_ok c p : pipe_ok p -> pending p < PIPESIZE ->
  pipe_ok (put c p) /\ buffered (put c p) = buffered p ++ [c].
Proof.
  intros P Hl. pose proof P as [Hd Hr Hw Hp]. pose proof (pending_put c p P Hl) as Hpp.
  assert (Hp0 : 0 <= pending p) by (apply Z.mod_pos_bound; lia). split.
  - constructor; cbn; try done; [by rewrite length_insert|apply u32_range|lia].
  - unfold buffered. rewrite Hpp, seqZ_app, fmap_app by lia. f_equal.
    + apply list_fmap_ext. intros i k [-> Hk]%lookup_seqZ. cbn. rewrite list_lookup_insert_ne; [done|].
      unfold pending, PIPESIZE, is_u32 in *. Z.div_mod_to_equations. lia.
    + replace (seqZ (0 + pending p) 1) with [pending p] by (unfold seqZ; cbn; f_equal; lia).
      cbn. f_equal. replace ((nread p + pending p) mod PIPESIZE) with (nwrite p mod PIPESIZE).
      * rewrite list_lookup_insert_eq; [done|]. rewrite Hd. pose proof (Z.mod_pos_bound (nwrite p) PIPESIZE ltac:(done)). lia.
      * unfold pending, PIPESIZE, is_u32 in *. Z.div_mod_to_equations. lia.
Qed.

Lemma skip_ok p : pipe_ok p -> 0 < pending p ->
  pipe_ok (skip p) /\ buffered p = get p :: buffered (skip p).
Proof.
  intros P Hl. pose proof P as [Hd Hr Hw Hp]. pose proof (pending_skip p P Hl) as Hpp. split.
  - constructor; cbn; try done; [apply u32_range|lia].
  - unfold buffered. rewrite Hpp. rewrite (seqZ_cons 0) by lia. rewrite fmap_cons. f_equal.
    + by rewrite Z.add_0_r.
    + replace (Z.pred (pending p)) with (pending p - 1) by lia.
      replace (seqZ (Z.succ 0) (pending p - 1)) with (Z.add 1 <$> seqZ 0 (pending p - 1)) by (by rewrite fmap_add_seqZ).
      rewrite <- list_fmap_compose. apply list_fmap_ext. intros i k _. cbn. rewrite slot_u32. do 4 f_equal. lia.
Qed.

Lemma pipewrite_ok killed src : forall p, pipe_ok p ->
  match pipewrite killed p src with
  | WDone p' => pipe_ok p' /\ buffered p' = buffered p ++ src /\ readopen p' = readopen p /\ writeopen p' = writeopen p
  | WFail p' rest => pipe_ok p' /\ readopen p' = readopen p /\ writeopen p' = writeopen p /\
      pending p' = PIPESIZE /\ exists pre, src = pre ++ rest /\ buffered p' = buffered p ++ pre
  | WSleep p' rest => pipe_ok p' /\ readopen p' = readopen p /\ writeopen p' = writeopen p /\ rest <> [] /\
      readopen p = true /\ killed = false /\
      pending p' = PIPESIZE /\ exists pre, src = pre ++ rest /\ buffered p' = buffered p ++ pre
  end.
Proof.
  induction src as [|c src IH]; intros p P; cbn [pipewrite].
  - rewrite app_nil_r. done.
  - rewrite full_pending by done. destruct (Z.eqb_spec (pending p) PIPESIZE) as [Hf|Hf].
    + destruct (readopen p) eqn:Er, killed; cbn [negb orb]; split_and!; try done; exists []; by rewrite app_nil_r.
    + destruct (put_ok c p P) as [P' B']; [pose proof (po_room _ P); lia|].
      specialize (IH (put c p) P'). destruct (pipewrite killed (put c p) src).
      * destruct IH as (? & -> & ? & ?). rewrite B', <- app_assoc. done.
      * destruct IH as (? & ? & ? & ? & pre & -> & ->). split_and!; try done.
        exists (c :: pre). by rewrite B', <- app_assoc.
      * destruct IH as (? & ? & ? & ? & ? & ? & ? & pre & -> & ->). split_and!; try done.
        exists (c :: pre). by rewrite B', <- app_assoc.
Qed.

Lemma piperead_copy_ok n : forall p, pipe_ok p ->
  let (p', bs) := piperead_copy n p in
  pipe_ok p' /\ buffered p = bs ++ buffered p' /\ Z.of_nat (length bs) = Z.min (Z.of_nat n) (pending p) /\
  readopen p' = readopen p /\ writeopen p' = writeopen p.
Proof.
  induction n as [|n IH]; intros p P; cbn [piperead_copy].
  - assert (0 <= pending p) by (apply Z.mod_pos_bound; lia). split_and!; try done. cbn. lia.
  - rewrite empty_pending by done. assert (Hp : 0 <= pending p) by (apply Z.mod_pos_bound; lia).
    destruct (Z.eqb_spec (pending p) 0) as [H0|H0]; [split_and!; try done; cbn; lia|].
    destruct (skip_ok p P) as [P' B']; [lia|]. specialize (IH (skip p) P').
    destruct (piperead_copy n (skip p)) as [p' bs]. destruct IH as (? & HB & HL & ? & ?).
    rewrite pending_skip in HL by (done || lia). split_and!; try done.
    + by rewrite B', HB.
    + cbn [length]. lia.
Qed.

(** ** Processes that share a pipe *)

(** Where a process is: outside the pipe's code, asleep on [&p->nread] or
    [&p->nwrite], or about to enter a loop, for the first time or after it was
    woken. *)
Inductive pstate :=
| Idle
| ReadReady (n : Z)
| ReadAsleep (n : Z)
| WriteReady (src : list Z)
| WriteAsleep (src : list Z).

(** [wakeup(&p->nread)], [wakeup(&p->nwrite)] and the wakeup of [kill]. *)
Definition wake_readers (q : pstate) : pstate := match q with ReadAsleep n => ReadReady n | q => q end.
Definition wake_writers (q : pstate) : pstate := match q with WriteAsleep src => WriteReady src | q => q end.
Definition wake_any (q : pstate) : pstate := wake_readers (wake_writers q).

(** The pipe while its page is allocated, the processes, and what has been
    written and read since it was created. *)
Record psys := PSys {
  s_pipe : option pipe;
  s_procs : gmap nat pstate;
  s_written : list Z;
  s_read : list Z
}.

(** A section of [pipewrite] or [piperead] that process [i] runs under the lock. *)
Definition write_section (killed : bool) (i : nat) (src : list Z) (p : pipe) (s : psys) : psys :=
  let wrote rest := s_written s ++ take (length src - length rest) src in
  match pipewrite killed p src with
  | WDone p' => PSys (Some p') (<[i := Idle]> (wake_readers <$> s_procs s)) (wrote []) (s_read s)
  | WFail p' rest => PSys (Some p') (<[i := Idle]> (s_procs s)) (wrote rest) (s_read s)
  | WSleep p' rest => PSys (Some p') (<[i := WriteAsleep rest]> (wake_readers <$> s_procs s)) (wrote rest) (s_read s)
  end.

Definition read_section (killed : bool) (i : nat) (n : Z) (p : pipe) (s : psys) : psys :=
  match piperead killed p n with
  | RDone p' bs => PSys (Some p') (<[i := Idle]> (wake_writers <$> s_procs s)) (s_written s) (s_read s ++ bs)
  | RFail => PSys (Some p) (<[i := Idle]> (s_procs s)) (s_written s) (s_read s)
  | RSleep => PSys (Some p) (<[i := ReadAsleep n]> (s_procs s)) (s_written s) (s_read s)
  end.

Definition close_section (writable : bool) (p : pipe) (s : psys) : psys :=
  PSys (pipeclose p writable) ((if writable then wake_readers else wake_writers) <$> s_procs s)
    (s_written s) (s_read s).

(** The file table closes an end with the last reference to it, so a process in
    a call on an end keeps that end open. *)
Definition uses (writable : bool) (q : pstate) : bool :=
  match q with
  | Idle => false
  | ReadReady _ | ReadAsleep _ => negb writable
  | WriteReady _ | WriteAsleep _ => writable
  end.
Definition is_open (writable : bool) (p : pipe) : bool := if writable then writeopen p else readopen p.

(** The steps: a process calls, runs a section, closes an end or is killed;
    with [kills] a killed process may run a section of [pipewrite]. *)
Inductive pstep (kills : bool) : psys -> psys -> Prop :=
| step_call s p i q : s_pipe s = Some p -> s_procs s !! i = Some Idle ->
    (exists n, q = ReadReady n) \/ (exists src, q = WriteReady src) -> is_open (uses true q) p = true ->
    pstep kills s (PSys (Some p) (<[i := q]> (s_procs s)) (s_written s) (s_read s))
| step_write s p i src killed : s_pipe s = Some p -> s_procs s !! i = Some (WriteReady src) ->
    (killed = true -> kills = true) -> pstep kills s (write_section killed i src p s)
| step_read s p i n killed : s_pipe s = Some p -> s_procs s !! i = Some (ReadReady n) ->
    pstep kills s (read_section killed i n p s)
| step_close s p writable : s_pipe s = Some p -> is_open writable p = true ->
    map_Forall (fun _ q => uses writable q = false) (s_procs s) ->
    pstep kills s (close_section writable p s)
| step_kill s i : pstep kills s (PSys (s_pipe s) (alter wake_any i (s_procs s)) (s_written s) (s_read s)).

Definition psys_start (data : list Z) (procs : gset nat) : psys :=
  PSys (Some (pipeinit data)) (gset_to_gmap Idle procs) [] [].

(** A process in a call finds its end open, so the page is allocated. *)
Definition use_ok (op : option pipe) (q : pstate) : Prop :=
  forall w, uses w q = true -> exists p, op = Some p /\ is_open w p = true.

Record psys_ok (s : psys) : Prop := {
  so_use : map_Forall (fun _ q => use_ok (s_pipe s) q) (s_procs s);
  so_pipe : forall p, s_pipe s = Some p -> pipe_ok p /\ s_written s = s_read s ++ buffered p
}.

(** A sleeping reader waits for a pipe that is empty and still open for
    writing, a sleeping writer for one that is full and open for reading. *)
Definition waits_ok (op : option pipe) (q : pstate) : Prop :=
  match q with
  | ReadAsleep _ => exists p, op = Some p /\ pending p = 0 /\ writeopen p = true
  | WriteAsleep _ => exists p, op = Some p /\ pending p = PIPESIZE /\ readopen p = true
  | _ => True
  end.
Definition awake_ok (s : psys) : Prop := map_Forall (fun _ q => waits_ok (s_pipe s) q) (s_procs s).

Lemma forall_wake (P Q : pstate -> Prop) (f : pstate -> pstate) (m : gmap nat pstate) :
  map_Forall (fun _ q => P q) m -> (forall q, P q -> Q (f q)) -> map_Forall (fun _ q => Q q) (f <$> m).
Proof. intros Hm Hf i q. rewrite lookup_fmap. intros (q0 & Hq & ->)%fmap_Some. apply Hf, (Hm i). done. Qed.

Lemma forall_alter (P : pstate -> Prop) (f : pstate -> pstate) i (m : gmap nat pstate) :
  map_Forall (fun _ q => P q) m -> (forall q, P q -> P (f q)) -> map_Forall (fun _ q => P q) (alter f i m).
Proof.
  intros Hm Hf j q. destruct (decide (j = i)) as [->|Hj].
  - rewrite lookup_alter_eq. intros (q0 & Hq & ->)%fmap_Some. apply Hf, (Hm i). done.
  - rewrite lookup_alter_ne by done. apply Hm.
Qed.

Lemma uses_wake w q : uses w (wake_readers q) = uses w q /\ uses w (wake_writers q) = uses w q.
Proof. by destruct q. Qed.

Lemma use_ok_mono op p' q q' : use_ok op q -> (forall w, uses w q' = uses w q) ->
  (forall p w, op = Some p -> is_open w p = true -> is_open w p' = true) -> use_ok (Some p') q'.
Proof. intros Hq Hu Hp w Hw. rewrite Hu in Hw. destruct (Hq w Hw) as (p & -> & Ho). eauto. Qed.

(** A step under the lock that keeps the ends keeps every process's end open. *)
Lemma use_keep (m : gmap nat pstate) (f : pstate -> pstate) i q p p' :
  map_Forall (fun _ q => use_ok (Some p) q) m -> (forall w q, uses w (f q) = uses w q) ->
  readopen p' = readopen p -> writeopen p' = writeopen p -> use_ok (Some p) q ->
  map_Forall (fun _ q => use_ok (Some p') q) (<[i := q]> (f <$> m)).
Proof.
  intros Hm Hf Hr Hw Hq.
  assert (Hmono : forall q q', (forall w, uses w q' = uses w q) -> use_ok (Some p) q -> use_ok (Some p') q').
  { intros q1 q2 Hu H1. apply (use_ok_mono _ _ _ _ H1 Hu). intros p0 w [= <-] Ho.
    destruct w; cbn in *; congruence. }
  apply map_Forall_insert_2; [by apply (Hmono q)|]. apply (forall_wake _ _ _ _ Hm). intros q0. by apply Hmono.
Qed.

Lemma write_full killed p src : pipe_ok p -> pending p = PIPESIZE -> src <> [] ->
  pipewrite killed p src = if negb (readopen p) || killed then WFail p src else WSleep p src.
Proof. intros P Hf Hs. destruct src as [|c src]; [done|]. cbn [pipewrite]. by rewrite full_pending, Hf. Qed.

Lemma take_prefix {A} (pre rest : list A) : take (length (pre ++ rest) - length rest) (pre ++ rest) = pre.
Proof. rewrite length_app, Nat.add_sub. apply take_app_length. Qed.

Lemma write_section_ok killed i src p s :
  psys_ok s -> s_pipe s = Some p -> s_procs s !! i = Some (WriteReady src) -> psys_ok (write_section killed i src p s).
Proof.
  intros [HU HP] Hp Hi. destruct (HP p Hp) as [P HW]. rewrite Hp in HU. pose proof (HU i _ Hi) as Hu.
  pose proof (pipewrite_ok killed src p P) as H. unfold write_section.
  destruct (pipewrite killed p src) as [p'|p' rest|p' rest].
  - destruct H as (P' & HB & Hr & Hw). split; cbn [s_pipe s_procs s_written s_read].
    + apply (use_keep _ _ _ _ p); try done. apply uses_wake.
    + intros ? [= <-]. rewrite Nat.sub_0_r, firstn_all, HB, HW, app_assoc. done.
  - destruct H as (P' & Hr & Hw & Hf & pre & -> & HB). split; cbn [s_pipe s_procs s_written s_read].
    + rewrite <- (map_fmap_id (s_procs s)). apply (use_keep _ _ _ _ p); try done.
    + intros ? [= <-]. rewrite take_prefix, HB, HW, app_assoc. done.
  - destruct H as (P' & Hr & Hw & _ & _ & _ & Hf & pre & -> & HB). split; cbn [s_pipe s_procs s_written s_read].
    + apply (use_keep _ _ _ _ p); try done. apply uses_wake.
    + intros ? [= <-]. rewrite take_prefix, HB, HW, app_assoc. done.
Qed.

Lemma read_section_ok killed i n p s :
  psys_ok s -> s_pipe s = Some p -> s_procs s !! i = Some (ReadReady n) -> psys_ok (read_section killed i n p s).
Proof.
  intros [HU HP] Hp Hi. destruct (HP p Hp) as [P HW]. rewrite Hp in HU. pose proof (HU i _ Hi) as Hu.
  unfold read_section, piperead. destruct ((nread p =? nwrite p) && writeopen p); [destruct killed|].
  1, 2: split; cbn [s_pipe s_procs s_written s_read]; [|by intros ? [= <-]];
    rewrite <- (map_fmap_id (s_procs s)); by apply (use_keep _ _ _ _ p).
  pose proof (piperead_copy_ok (Z.to_nat n) p P) as H. destruct (piperead_copy (Z.to_nat n) p) as [p' bs].
  destruct H as (P' & HB & _ & Hr & Hw). split; cbn [s_pipe s_procs s_written s_read].
  - apply (use_keep _ _ _ _ p); try done. apply uses_wake.
  - intros ? [= <-]. by rewrite <- app_assoc, <- HB.
Qed.

Lemma close_section_ok w p s :
  psys_ok s -> s_pipe s = Some p -> map_Forall (fun _ q => uses w q = false) (s_procs s) -> psys_ok (close_section w p s).
Proof.
  intros [HU HP] Hp Hf. destruct (HP p Hp) as [P HW]. rewrite Hp in HU.
  split; cbn [close_section s_pipe s_procs s_written s_read].
  - apply (forall_wake (fun q => use_ok (Some p) q /\ uses w q = false)).
    { intros i q Hi. split; [by apply (HU i)|by apply (Hf i)]. }
    intros q [Hq Hw] v Hv. assert (Hv' : uses v q = true) by (destruct w, v, q; done).
    destruct (Hq v Hv') as (p0 & [= <-] & Ho). unfold pipeclose. destruct w, v; cbn in *; try congruence;
      rewrite Ho; rewrite ?andb_false_r; cbn; eexists; split; try done.
  - intros p' Hc. assert (Hs : pending p' = pending p /\ buffered p' = buffered p /\ pipe_ok p').
    { unfold pipeclose in Hc. destruct P as [Hd Hr Hw Hm]. destruct w; cbn in Hc;
        match type of Hc with context [if ?b then _ else _] => destruct b end; simplify_eq; by split_and!. }
    destruct Hs as (_ & -> & ?). done.
Qed.

Lemma pstep_ok kills s s' : pstep kills s s' -> psys_ok s -> psys_ok s'.
Proof.
  intros H Hok. destruct H as [s p i q Hp Hi Hq Ho|s p i src killed Hp Hi _|s p i n killed Hp Hi|s p w Hp _ Hf|s i].
  - destruct Hok as [HU HP]. split; cbn [s_pipe s_procs s_written s_read]; [|by rewrite <- Hp].
    rewrite Hp in HU. apply map_Forall_insert_2; [|done].
    intros w Hw. exists p. split; [done|]. destruct Hq as [[n ->]|[src ->]]; destruct w; cbn in *; congruence.
  - by apply write_section_ok.
  - by apply read_section_ok.
  - by apply close_section_ok.
  - destruct Hok as [HU HP]. split; cbn [s_pipe s_procs s_written s_read]; [|done].
    apply forall_alter; [done|]. intros q Hq w Hw. apply Hq. by destruct q.
Qed.

Lemma psys_start_ok data procs : length data = Z.to_nat PIPESIZE ->
  psys_ok (psys_start data procs) /\ awake_ok (psys_start data procs).
Proof.
  intros Hd. assert (Hi : forall i q, gset_to_gmap Idle procs !! i = Some q -> q = Idle).
  { intros i q Hq. apply lookup_gset_to_gmap_Some in Hq. by destruct Hq. }
  split; [split|].
  - intros i q ->%Hi w. done.
  - intros p [= <-]. destruct (pipeinit_ok data Hd) as [P ->]. done.
  - intros i q ->%Hi. done.
Qed.

(** ** Nobody sleeps on a condition that holds *)

Lemma waits_write p p' q : waits_ok (Some p) q ->
  (pending p = PIPESIZE -> readopen p = true -> pending p' = PIPESIZE /\ readopen p' = true) ->
  waits_ok (Some p') (wake_readers q).
Proof. destruct q; cbn; try done. intros (p0 & E & Hf & Hr) Hk. injection E as <-. exists p'. destruct (Hk Hf Hr). done. Qed.

Lemma write_section_awake i src p s :
  psys_ok s -> awake_ok s -> s_pipe s = Some p -> awake_ok (write_section false i src p s).
Proof.
  intros [HU HP] HA Hp. destruct (HP p Hp) as [P _]. unfold awake_ok in *. rewrite Hp in HA, HU.
  pose proof (pipewrite_ok false src p P) as H. unfold write_section.
  destruct (pipewrite false p src) as [p'|p' rest|p' rest] eqn:E; cbn [s_pipe s_procs].
  - destruct H as (P' & _ & Hr & Hw). apply map_Forall_insert_2; [done|].
    apply (forall_wake _ _ _ _ HA). intros q Hq. apply (waits_write p); [done|]. intros Hf Ho.
    destruct src as [|c src]; [by injection E as <-|]. rewrite write_full, Ho in E by done. done.
  - destruct H as (P' & Hr & Hw & _).
    assert (Hclosed : readopen p = false).
    { clear -E. revert p E. induction src as [|c src IH]; intros p E; cbn [pipewrite] in E; [done|].
      destruct (nwrite p =? u32 (nread p + PIPESIZE)); [|apply (IH _ E)]. by destruct (readopen p). }
    apply map_Forall_insert_2; [done|]. intros j q Hj. specialize (HA j q Hj). specialize (HU j q Hj).
    destruct q; cbn in *; try done.
    + destruct (HU false eq_refl) as (p0 & [= <-] & Ho). cbn in Ho. congruence.
    + destruct HA as (p0 & [= <-] & _ & Ho). congruence.
  - destruct H as (P' & Hr & Hw & _ & Ho & _ & Hf & _). apply map_Forall_insert_2.
    + exists p'. split_and!; congruence.
    + apply (forall_wake _ _ _ _ HA). intros q Hq. apply (waits_write p); [done|]. intros _ _. split; congruence.
Qed.

Lemma read_section_awake killed i n p s :
  psys_ok s -> awake_ok s -> s_pipe s = Some p -> awake_ok (read_section killed i n p s).
Proof.
  intros [HU HP] HA Hp. destruct (HP p Hp) as [P _]. unfold awake_ok in *. rewrite Hp in HA.
  unfold read_section, piperead. rewrite empty_pending by done.
  destruct ((pending p =? 0) && writeopen p) eqn:E.
  - apply andb_true_iff in E as [E Ew].
    apply Z.eqb_eq in E. destruct killed; apply map_Forall_insert_2; try done. by exists p.
  - pose proof (piperead_copy_ok (Z.to_nat n) p P) as H. destruct (piperead_copy (Z.to_nat n) p) as [p' bs].
    cbn [s_pipe s_procs]. apply map_Forall_insert_2; [done|]. apply (forall_wake _ _ _ _ HA). intros q Hq.
    destruct q; cbn in *; try done. destruct Hq as (p0 & [= <-] & H0 & Hw). by rewrite H0, Hw in E.
Qed.

Lemma pstep_awake s s' : pstep false s s' -> psys_ok s -> awake_ok s -> awake_ok s'.
Proof.
  intros H Hok HA. destruct H as [s p i q Hp Hi Hq Ho|s p i src killed Hp Hi Hk|s p i n killed Hp Hi|s p w Hp _ Hf|s i].
  - unfold awake_ok in *. rewrite Hp in HA. apply map_Forall_insert_2; [|done]. by destruct Hq as [[n ->]|[src ->]].
  - destruct killed; [by specialize (Hk eq_refl)|]. by apply write_section_awake.
  - by apply read_section_awake.
  - unfold awake_ok in *. rewrite Hp in HA. cbn [close_section s_pipe s_procs].
    intros i q. rewrite lookup_fmap. intros (q0 & Hi & ->)%fmap_Some. specialize (HA i q0 Hi). specialize (Hf i q0 Hi).
    by destruct w, q0.
  - apply forall_alter; [done|]. by intros [].
Qed.

Lemma psys_run_ok kills data procs s : length data = Z.to_nat PIPESIZE ->
  rtc (pstep kills) (psys_start data procs) s -> psys_ok s /\ (kills = false -> awake_ok s).
Proof.
  intros Hd Hs. destruct (psys_start_ok data procs Hd) as [H1 H2].
  assert (H2' : kills = false -> awake_ok (psys_start data procs)) by done. clear H2. revert H1 H2'.
  induction Hs as [s|s t u Hst _ IH]; intros H1 H2; [done|]. apply IH; [by eapply pstep_ok|].
  intros ->. eapply pstep_awake; eauto.
Qed.

(** C26: a pipe is a queue.  Whatever processes read, write, close an end or are
    killed, in any order and sleeping as often as they do, the bytes written so
    far are the bytes read so far followed by those in the buffer, which holds
    at most [PIPESIZE] of them. *)
Theorem pipe_fifo kills data procs s p :
  length data = Z.to_nat PIPESIZE -> rtc (pstep kills) (psys_start data procs) s -> s_pipe s = Some p ->
  s_written s = s_read s ++ buffered p /\ Z.of_nat (length (buffered p)) = pending p /\ pending p <= PIPESIZE.
Proof.
  intros Hd Hs Hp. destruct (psys_run_ok _ _ _ _ Hd Hs) as [Hok _]. destruct (so_pipe _ Hok p Hp) as [P HB].
  split_and!; [done| |apply P]. unfold buffered. rewrite length_fmap, length_seqZ.
  assert (0 <= pending p) by (apply Z.mod_pos_bound; lia). lia.
Qed.

(** C27: no wakeup of a pipe is lost.  As long as no process is killed inside
    [pipewrite], a process that sleeps in [piperead] finds the pipe empty and
    still open for writing, and one that sleeps in [pipewrite] finds it full and
    still open for reading; so there is never a sleeping reader beside a sleeping
    writer, and nobody sleeps in a pipe whose page is freed. *)
Theorem pipe_no_lost_wakeup data procs s i q :
  length data = Z.to_nat PIPESIZE -> rtc (pstep false) (psys_start data procs) s -> s_procs s !! i = Some q ->
  match q with
  | ReadAsleep _ => exists p, s_pipe s = Some p /\ pending p = 0 /\ writeopen p = true
  | WriteAsleep _ => exists p, s_pipe s = Some p /\ pending p = PIPESIZE /\ readopen p = true
  | _ => True
  end.
Proof.
  intros Hd Hs Hq. destruct (psys_run_ok _ _ _ _ Hd Hs) as [_ HA]. exact (HA eq_refl i q Hq).
Qed.

Lemma length_buffered p : Z.of_nat (length (buffered p)) = pending p.
Proof. unfold buffered. rewrite length_fmap, length_seqZ. pose proof (Z.mod_pos_bound (nwrite p - nread p) (2 ^ 32)). unfold pending. lia. Qed.

Lemma killed_write_fails p src : pipe_ok p -> PIPESIZE < pending p + Z.of_nat (length src) ->
  exists p' rest, pipewrite true p src = WFail p' rest /\ pending p' = PIPESIZE /\ writeopen p' = writeopen p.
Proof.
  intros P Hl. pose proof (pipewrite_ok true src p P) as H. destruct (pipewrite true p src) as [p'|p' rest|p' rest].
  - destruct H as (P' & HB & _). apply (f_equal length) in HB. rewrite length_app in HB.
    pose proof (length_buffered p). pose proof (length_buffered p'). pose proof (po_room _ P'). lia.
  - exists p', rest. naive_solver.
  - naive_solver.
Qed.

(** A killed writer strands a reader.  It fills the pipe and returns -1
    without waking the readers: a reader then sleeps beside a full buffer, with
    no process left inside the pipe's code that would wake it. *)
Lemma pipe_killed_writer_strands data : length data = Z.to_nat PIPESIZE ->
  exists s p n, rtc (pstep true) (psys_start data {[1; 2]}%nat) s /\ s_pipe s = Some p /\
    s_procs s = {[1 := ReadAsleep n; 2 := Idle]}%nat /\ pending p = PIPESIZE /\ writeopen p = true.
Proof.
  intros Hd. destruct (pipeinit_ok data Hd) as [P _].
  destruct (killed_write_fails (pipeinit data) (repeat 7 513%nat) P) as (p' & rest & E & Hf & Hw).
  { rewrite repeat_length. done. }
  set (s0 := psys_start data {[1; 2]}%nat).
  set (s1 := PSys (s_pipe s0) (<[1%nat := ReadReady 1]> (s_procs s0)) [] []).
  set (s2 := read_section false 1%nat 1 (pipeinit data) s1).
  set (s3 := PSys (s_pipe s2) (<[2%nat := WriteReady (repeat 7 513%nat)]> (s_procs s2)) [] []).
  set (s4 := write_section true 2%nat (repeat 7 513%nat) (pipeinit data) s3).
  assert (H4 : s4 = PSys (Some p') (<[2%nat := Idle]> (s_procs s3)) (take (513 - length rest) (repeat 7 513%nat)) []).
  { unfold s4, write_section. rewrite E, repeat_length. reflexivity. }
  exists s4, p', 1. rewrite H4. split_and!; [rewrite <- H4|reflexivity|reflexivity|exact Hf|exact Hw].
  - eapply rtc_l; [apply (step_call true s0 (pipeinit data) 1%nat (ReadReady 1)); [reflexivity|reflexivity|left; by eexists|reflexivity]|].
    eapply rtc_l; [apply (step_read true s1 (pipeinit data) 1%nat 1 false); reflexivity|].
    eapply rtc_l; [apply (step_call true s2 (pipeinit data) 2%nat (WriteReady (repeat 7 513%nat))); [reflexivity|reflexivity|right; by eexists|reflexivity]|].
    apply rtc_once. apply (step_write true s3 (pipeinit data) 2%nat _ true); reflexivity.
Qed.

(** ** A writer whose bytes are read gets to the end *)

(** A writer and a reader that take turns: the writer runs until it sleeps or is
    done, then the reader takes up to [n] bytes. *)
Fixpoint pump (fuel : nat) (n : Z) (p : pipe) (src : list Z) : option (pipe * list Z) :=
  match fuel with
  | O => None
  | S fuel =>
      match pipewrite false p src with
      | WDone p' => Some (p', [])
      | WFail _ _ => None
      | WSleep p' rest =>
          match piperead false p' n with
          | RDone p'' bs => '(q, out) ← pump fuel n p'' rest; Some (q, bs ++ out)
          | _ => None
          end
      end
  end.

Lemma pipewrite_open src : forall p p' rest, readopen p = true -> pipewrite false p src <> WFail p' rest.
Proof.
  induction src as [|c src IH]; intros p p' rest Hr; cbn [pipewrite]; [done|].
  destruct (nwrite p =? _); [by rewrite Hr|]. by apply IH.
Qed.

(** A read of a pipe that is not empty takes at least one byte. *)
Lemma piperead_some n p : 0 < n -> pipe_ok p -> 0 < pending p ->
  exists p' bs, piperead false p n = RDone p' bs /\ pipe_ok p' /\ buffered p = bs ++ buffered p' /\ bs <> [] /\
    pending p' < pending p /\ readopen p' = readopen p /\ writeopen p' = writeopen p.
Proof.
  intros Hn P Hp. unfold piperead. rewrite empty_pending by done.
  rewrite (proj2 (Z.eqb_neq (pending p) 0)) by lia. cbn [andb].
  pose proof (piperead_copy_ok (Z.to_nat n) p P) as H. destruct (piperead_copy (Z.to_nat n) p) as [p' bs].
  destruct H as (P' & HB & Hl & Hr & Hw). pose proof (length_buffered p). pose proof (length_buffered p').
  pose proof (f_equal length HB) as HL. rewrite length_app in HL.
  exists p', bs. split_and!; try done; [|lia]. intros ->. cbn in Hl. lia.
Qed.

Lemma pump_done n fuel : 0 < n -> forall p src, pipe_ok p -> readopen p = true ->
  (length src + (if decide (pending p < PIPESIZE)%Z then 0 else 1) < fuel)%nat ->
  exists q out, pump fuel n p src = Some (q, out) /\ pipe_ok q /\ readopen q = true /\
    out ++ buffered q = buffered p ++ src.
Proof.
  intros Hn. induction fuel as [|fuel IH]; intros p src P Hr Hl; [lia|]. cbn [pump].
  pose proof (pipewrite_ok false src p P) as H. destruct (pipewrite false p src) as [p'|p' rest|p' rest] eqn:E.
  - destruct H as (P' & HB & Hr' & _). exists p', []. split_and!; try done. congruence.
  - by apply pipewrite_open in E.
  - destruct H as (P' & Hr' & _ & _ & _ & _ & Hf & pre & -> & HB).
    destruct (piperead_some n p' Hn P') as (p2 & bs & -> & P2 & HB2 & _ & Hlt & Hr2 & _); [by rewrite Hf|].
    rewrite length_app in Hl.
    assert (Hpre : pending p < PIPESIZE -> (0 < length pre)%nat).
    { intros Hroom. destruct pre; [|cbn; lia]. rewrite app_nil_r in HB. apply (f_equal length) in HB.
      pose proof (length_buffered p). pose proof (length_buffered p'). lia. }
    destruct (IH p2 rest) as (q & out & -> & Q & Hq & HQ); try done; [congruence| |].
    { rewrite decide_True by lia. case_decide; [specialize (Hpre H)|]; lia. }
    exists q, (bs ++ out). split_and!; try done. rewrite <- app_assoc, HQ, app_assoc, <- HB2, HB, <- app_assoc. done.
Qed.

(** A reader that reads until it is told the end of the file, which is a read
    that returns no byte. *)
Fixpoint drain (fuel : nat) (n : Z) (p : pipe) : option (pipe * list Z) :=
  match fuel with
  | O => None
  | S fuel =>
      match piperead false p n with
      | RDone p' [] => Some (p', [])
      | RDone p' bs => '(q, out) ← drain fuel n p'; Some (q, bs ++ out)
      | _ => None
      end
  end.

Lemma drain_done n fuel : 0 < n -> forall p, pipe_ok p -> writeopen p = false -> pending p < Z.of_nat fuel ->
  exists q, drain fuel n p = Some (q, buffered p) /\ buffered q = [].
Proof.
  intros Hn. induction fuel as [|fuel IH]; intros p P Hw Hf; pose proof (length_buffered p); [lia|]. cbn [drain].
  destruct (decide (pending p = 0)) as [H0|H0].
  - exists p. assert (HB : buffered p = []) by (apply nil_length_inv; lia). rewrite HB. split; [|done].
    unfold piperead. rewrite empty_pending, H0, Hw by done. cbn [Z.eqb andb].
    replace (Z.to_nat n) with (S (pred (Z.to_nat n))) by lia. cbn [piperead_copy].
    by rewrite empty_pending, H0 by done.
  - destruct (piperead_some n p Hn P) as (p' & bs & -> & P' & HB & Hne & Hlt & _ & Hw'); [lia|].
    destruct (IH p' P') as (q & Hq & HQ); [congruence|lia|]. exists q. split; [|done].
    destruct bs; [done|]. rewrite Hq. cbn. by rewrite HB.
Qed.

(** A writer that writes [src] and then closes its end, and a reader that reads
    [n] bytes at a time: while the writer sleeps, and then to the end. *)
Definition transfer (n : Z) (p : pipe) (src : list Z) : option (pipe * list Z) :=
  '(q, out) ← pump (length src + 2) n p src;
  q ← pipeclose q true;
  '(q, rest) ← drain (S (Z.to_nat PIPESIZE)) n q;
  Some (q, out ++ rest).

(** C28: a pipe delivers.  A writer writes any bytes to a pipe, however full, and
    then closes its end; a reader reads [n] bytes at a time, each time the writer
    sleeps and then until a read returns nothing.  Both get to the end, within
    one turn for each byte, and what the reader got is what was buffered at first
    followed by all the bytes written, in order; nothing is left in the pipe. *)
Theorem pipe_pump_delivers n p src :
  0 < n -> pipe_ok p -> readopen p = true ->
  exists q, transfer n p src = Some (q, buffered p ++ src) /\ buffered q = [].
Proof.
  intros Hn P Hr. unfold transfer.
  destruct (pump_done n (length src + 2) Hn p src P Hr) as (q & out & -> & Q & Hq & HQ); [case_decide; lia|].
  set (q' := Pipe (p_data q) (nread q) (nwrite q) (readopen q) false).
  assert (Q' : pipe_ok q') by (constructor; apply Q).
  assert (Hclose : pipeclose q true = Some q') by (unfold pipeclose, q'; cbn; by rewrite Hq).
  destruct (drain_done n (S (Z.to_nat PIPESIZE)) Hn q' Q' eq_refl) as (q2 & Hd & H2).
  { pose proof (po_room _ Q'). lia. }
  exists q2. split; [|done]. unfold mbind, option_bind. cbv beta iota.
  rewrite Hclose, Hd. by rewrite <- HQ.
Qed.

(** ** Witnesses *)

Definition demo_data : list Z := repeat 0 512%nat.

Lemma pipe_fifo_witness : exists s p, s_written s = [1; 2; 3] /\ s_read s = [1; 2] /\
  s_written s = s_read s ++ buffered p /\ Z.of_nat (length (buffered p)) = pending p /\ pending p <= PIPESIZE.
Proof.
  set (s0 := psys_start demo_data {[1; 2]}%nat).
  set (p0 := pipeinit demo_data).
  set (s1 := PSys (Some p0) (<[1%nat := WriteReady [1; 2; 3]]> (s_procs s0)) [] []).
  set (s2 := write_section false 1%nat [1; 2; 3] p0 s1).
  set (p2 := put 3 (put 2 (put 1 p0))).
  set (s3 := PSys (Some p2) (<[2%nat := ReadReady 2]> (s_procs s2)) (s_written s2) (s_read s2)).
  set (s4 := read_section false 2%nat 2 p2 s3).
  exists s4, (skip (skip p2)). split; [by vm_compute|]. split; [by vm_compute|].
  apply (pipe_fifo false demo_data {[1; 2]}%nat); [reflexivity| |by vm_compute].
  eapply rtc_l; [apply (step_call false s0 p0 1%nat (WriteReady [1; 2; 3])); eauto|].
  eapply rtc_l; [apply (step_write false s1 p0 1%nat [1; 2; 3] false); done|].
  eapply rtc_l; [apply (step_call false s2 p2 2%nat (ReadReady 2)); eauto|].
  apply rtc_once. apply (step_read false s3 p2 2%nat 2 false); done.
Defined.

Lemma pipe_no_lost_wakeup_witness : exists s,
  s_procs s !! 1%nat = Some (ReadAsleep 5) /\ exists p, s_pipe s = Some p /\ pending p = 0 /\ writeopen p = true.
Proof.
  set (s0 := psys_start demo_data {[1]}%nat).
  set (p0 := pipeinit demo_data).
  set (s1 := PSys (Some p0) (<[1%nat := ReadReady 5]> (s_procs s0)) [] []).
  set (s2 := read_section false 1%nat 5 p0 s1).
  exists s2. split; [by vm_compute|].
  apply (pipe_no_lost_wakeup demo_data {[1]}%nat s2 1%nat (ReadAsleep 5)); [reflexivity| |by vm_compute].
  eapply rtc_l; [apply (step_call false s0 p0 1%nat (ReadReady 5)); eauto|].
  apply rtc_once. apply (step_read false s1 p0 1%nat 5 false); done.
Defined.

Lemma pipe_killed_writer_strands_witness :
  exists s p n, rtc (pstep true) (psys_start demo_data {[1; 2]}%nat) s /\ s_pipe s = Some p /\
    s_procs s = {[1 := ReadAsleep n; 2 := Idle]}%nat /\ pending p = PIPESIZE /\ writeopen p = true.
Proof. apply pipe_killed_writer_strands. reflexivity. Defined.

Lemma pipe_pump_delivers_witness :
  exists q, transfer 5 (put 3 (pipeinit demo_data)) (repeat 9 1200%nat) = Some (q, 3 :: repeat 9 1200%nat) /\ buffered q = [].
Proof.
  destruct (pipeinit_ok demo_data eq_refl) as [P _].
  apply (pipe_pump_delivers 5 (put 3 (pipeinit demo_data)) (repeat 9 1200%nat)); [lia| |reflexivity].
  apply put_ok; [exact P|reflexivity].
Defined.
