(* ===== verification/Spinlock.v ===== *)
(** * Spinlock: mutual exclusion between processors (spinlock.c)

    The processors of the machine run [acquire] and [release] instruction by
    instruction, interleaved in any order, over shared lock words; every access
    to shared memory is a step of its own.  The theorems justify the sequential
    model of the other components: code between [acquire] and [release] of a
    lock runs on one processor at a time and is not interrupted there. *)

From S2P Require Import Prelude Kalloc.
Open Scope Z_scope.
Open Scope xv6_scope.

Record spinlock := Spinlock {
  locked : Z;
  lname : string;
  lcpu : option nat;
  pcs : list Z
}.

Definition initlock (name : string) (lk : spinlock) : spinlock := Spinlock 0 name None (pcs lk).

(** Following the chain of saved frame pointers, with zeros after its end. *)
Fixpoint getcallerpcs_loop (n : nat) (m : memory) (ebp : Z) : list Z :=
  match n with
  | O => []
  | S n' =>
      if (ebp =? 0) || (ebp <? KERNBASE) || (ebp =? 2 ^ 32 - 1) then repeat 0 n
      else read32 m (ebp + 4) :: getcallerpcs_loop n' m (read32 m ebp)
  end.
Definition getcallerpcs (m : memory) (v : Z) : list Z := getcallerpcs_loop 10 m (u32 (v - 8)).

(** Where a processor is: elsewhere, at an instruction of [acquire] or
    [release], or stopped in [panic]. *)
Inductive pc :=
| Elsewhere
| AcqPush (lk : nat)
| AcqTestLocked (lk : nat)
| AcqTestCpu (lk : nat)
| AcqXchg (lk : nat)
| AcqRecord (lk : nat)
| RelTestLocked (lk : nat)
| RelTestCpu (lk : nat)
| RelClear (lk : nat)
| RelXchg (lk : nat)
| RelPop (lk : nat)
| Panicked (msg : string).

(** [struct cpu], with the interrupt flag of its [eflags] register, the address
    of the argument of [acquire] on its stack, and the locks whose [acquire] has
    returned and whose [release] has not been called. *)
Record cpu := Cpu {
  ncli : Z;
  intena : bool;
  fl_if : bool;
  frame_at : Z;
  at_pc : pc;
  held : list nat
}.

Definition pushcli (c : cpu) : cpu :=
  Cpu (ncli c + 1) (if ncli c =? 0 then fl_if c else intena c) false (frame_at c) (at_pc c) (held c).

(** [popcli]: the message of its panic, or the processor after it. *)
Definition popcli (c : cpu) : string + cpu :=
  if fl_if c then inl "popcli - interruptible"%string
  else if ncli c - 1 <? 0 then inl "popcli"%string
  else inr (Cpu (ncli c - 1) (intena c) (if (ncli c - 1 =? 0) && intena c then true else fl_if c)
              (frame_at c) (at_pc c) (held c)).

Record machine := Machine { cpus : nat -> cpu; locks : nat -> spinlock }.

Definition upd {A} (f : nat -> A) (k : nat) (v : A) : nat -> A := fun j => if decide (j = k) then v else f j.
Definition set_cpu (c : nat) (p : cpu) (s : machine) : machine := Machine (upd (cpus s) c p) (locks s).
Definition set_lock (lk : nat) (l : spinlock) (s : machine) : machine := Machine (cpus s) (upd (locks s) lk l).
Definition go (p : pc) (c : cpu) : cpu := Cpu (ncli c) (intena c) (fl_if c) (frame_at c) p (held c).
Definition jump (c : nat) (p : pc) (s : machine) : machine := set_cpu c (go p (cpus s c)) s.

(** [x = xchg(&lk->locked, v)]: the old value and the lock. *)
Definition xchg (v : Z) (l : spinlock) : Z * spinlock :=
  (locked l, Spinlock v (lname l) (lcpu l) (pcs l)).

Section Machine.
Context (mem : memory).

Definition step (c : nat) (s : machine) : machine :=
  let me := cpus s c in
  match at_pc me with
  | Elsewhere | Panicked _ => s
  | AcqPush lk => set_cpu c (go (AcqTestLocked lk) (pushcli me)) s
  | AcqTestLocked lk => jump c (if locked (locks s lk) =? 0 then AcqXchg lk else AcqTestCpu lk) s
  | AcqTestCpu lk =>
      jump c (if decide (lcpu (locks s lk) = Some c) then Panicked "acquire" else AcqXchg lk) s
  | AcqXchg lk =>
      let (old, l) := xchg 1 (locks s lk) in
      jump c (if old =? 0 then AcqRecord lk else AcqXchg lk) (set_lock lk l s)
  | AcqRecord lk =>
      let l := locks s lk in
      set_cpu c (Cpu (ncli me) (intena me) (fl_if me) (frame_at me) Elsewhere (lk :: held me))
        (set_lock lk (Spinlock (locked l) (lname l) (Some c) (getcallerpcs mem (frame_at me))) s)
  | RelTestLocked lk => jump c (if locked (locks s lk) =? 0 then Panicked "release" else RelTestCpu lk) s
  | RelTestCpu lk =>
      jump c (if decide (lcpu (locks s lk) = Some c) then RelClear lk else Panicked "release") s
  | RelClear lk =>
      let l := locks s lk in
      jump c (RelXchg lk) (set_lock lk (Spinlock (locked l) (lname l) None (<[0%nat := 0]> (pcs l))) s)
  | RelXchg lk => jump c (RelPop lk) (set_lock lk (snd (xchg 0 (locks s lk))) s)
  | RelPop lk =>
      match popcli me with
      | inl msg => jump c (Panicked msg) s
      | inr me' => set_cpu c (go Elsewhere me') s
      end
  end.

Definition call_acquire (c lk : nat) (s : machine) : machine := jump c (AcqPush lk) s.
Definition call_release (c lk : nat) (s : machine) : machine :=
  let me := cpus s c in
  set_cpu c (Cpu (ncli me) (intena me) (fl_if me) (frame_at me) (RelTestLocked lk) (filter (.≠ lk) (held me))) s.

(** The runs of a kernel that acquires only locks of its table that it does not
    hold, and releases only locks that it holds. *)
Inductive run (n : nat) : machine -> machine -> Prop :=
| run_step s c : run n s (step c s)
| run_acquire s c lk : at_pc (cpus s c) = Elsewhere -> (lk < n)%nat -> lk ∉ held (cpus s c) ->
    run n s (call_acquire c lk s)
| run_release s c lk : at_pc (cpus s c) = Elsewhere -> lk ∈ held (cpus s c) ->
    run n s (call_release c lk s).
End Machine.

(** The machine after every lock was initialised, each processor with
    interrupts on or off. *)
Definition boot (fl : nat -> bool) (name : nat -> string) (old : nat -> spinlock) (fr : nat -> Z) : machine :=
  Machine (fun c => Cpu 0 false (fl c) (fr c) Elsewhere []) (fun lk => initlock (name lk) (old lk)).

(** ** The invariant *)

(** A processor owns a lock from the exchange that sets it to the one that
    clears it; its name is in the lock for a shorter time. *)
Definition cnamed (x : cpu) (lk : nat) : Prop :=
  lk ∈ held x \/ match at_pc x with RelTestLocked k | RelTestCpu k | RelClear k => k = lk | _ => False end.
Definition cowns (x : cpu) (lk : nat) : Prop :=
  cnamed x lk \/ match at_pc x with AcqRecord k | RelXchg k => k = lk | _ => False end.
Definition owns (s : machine) (c lk : nat) : Prop := cowns (cpus s c) lk.

(** Interrupts pushed by the call a processor is in. *)
Definition depth (p : pc) : Z :=
  match p with
  | Elsewhere | AcqPush _ | Panicked _ => 0
  | _ => 1
  end.
(** The lock a processor is acquiring or releasing. *)
Definition subject (p : pc) : option nat :=
  match p with
  | Elsewhere | Panicked _ => None
  | AcqPush lk | AcqTestLocked lk | AcqTestCpu lk | AcqXchg lk | AcqRecord lk
  | RelTestLocked lk | RelTestCpu lk | RelClear lk | RelXchg lk | RelPop lk => Some lk
  end.

Record cpu_ok (n : nat) (fl : bool) (c : cpu) : Prop := {
  ok_panic : forall msg, at_pc c <> Panicked msg;
  ok_ncli : ncli c = Z.of_nat (length (held c)) + depth (at_pc c);
  ok_flag : if ncli c =? 0 then fl_if c = fl else fl_if c = false /\ intena c = fl;
  ok_nodup : NoDup (held c);
  ok_held : forall lk, lk ∈ held c -> (lk < n)%nat /\ subject (at_pc c) <> Some lk;
  ok_subject : forall lk, subject (at_pc c) = Some lk -> (lk < n)%nat
}.

Record machine_ok (n : nat) (fl : nat -> bool) (s : machine) : Prop := {
  mo_cpu : forall c, cpu_ok n (fl c) (cpus s c);
  mo_own : forall c c' lk, owns s c lk -> owns s c' lk -> c = c';
  mo_free : forall lk, locked (locks s lk) = 0 -> forall c, ~ owns s c lk;
  mo_taken : forall lk, locked (locks s lk) <> 0 -> exists c, owns s c lk;
  mo_name : forall c lk, lcpu (locks s lk) = Some c <-> cnamed (cpus s c) lk
}.

Lemma boot_ok n fl name old fr : machine_ok n fl (boot fl name old fr).
Proof.
  assert (Hno : forall c lk, ~ owns (boot fl name old fr) c lk).
  { intros c lk [[H|H]|H]; cbn in H; try done. by apply not_elem_of_nil in H. }
  constructor.
  - intros c. constructor; cbn; try done; [constructor|]. intros lk H. by apply not_elem_of_nil in H.
  - intros c c' lk H. by apply Hno in H.
  - intros lk _ c. apply Hno.
  - done.
  - intros c lk. cbn. split; [done|]. intros H. exfalso. apply (Hno c lk). by left.
Qed.

(** A step of processor [c] that touches only lock [lk] keeps the invariant when
    it does so for that lock and leaves what [c] owns of the others. *)
Lemma step_ok n fl s s' c lk :
  machine_ok n fl s -> cpu_ok n (fl c) (cpus s' c) ->
  (forall c', c' <> c -> cpus s' c' = cpus s c') -> (forall k, k <> lk -> locks s' k = locks s k) ->
  (forall k, k <> lk -> (cowns (cpus s' c) k <-> owns s c k) /\ (cnamed (cpus s' c) k <-> cnamed (cpus s c) k)) ->
  (cowns (cpus s' c) lk -> locked (locks s' lk) <> 0 /\ forall c', c' <> c -> ~ owns s c' lk) ->
  (forall c', c' <> c -> owns s c' lk -> locked (locks s' lk) <> 0) ->
  (locked (locks s' lk) <> 0 -> cowns (cpus s' c) lk \/ exists c', c' <> c /\ owns s c' lk) ->
  (lcpu (locks s' lk) = Some c <-> cnamed (cpus s' c) lk) ->
  (forall c', c' <> c -> (lcpu (locks s' lk) = Some c' <-> cnamed (cpus s c') lk)) ->
  machine_ok n fl s'.
Proof.
  intros [MC MO MF MT MN] Hc Hcpu Hlock Hkeep Hown Hoth Htaken Hname Hnames.
  assert (HO : forall c' k, owns s' c' k <-> (c' = c /\ k = lk /\ cowns (cpus s' c) lk) \/ ((c' <> c \/ k <> lk) /\ owns s c' k)).
  { intros c' k. unfold owns. destruct (decide (c' = c)) as [->|Hn].
    - destruct (decide (k = lk)) as [->|Hk]; [naive_solver|]. rewrite (proj1 (Hkeep k Hk)). unfold owns. naive_solver.
    - rewrite Hcpu by done. naive_solver. }
  constructor.
  - intros c'. destruct (decide (c' = c)) as [->|Hn]; [done|]. by rewrite Hcpu.
  - intros c1 c2 k H1%HO H2%HO. naive_solver.
  - intros k Hk c' Hc'%HO. destruct (decide (k = lk)) as [->|Hn]; [naive_solver|].
    rewrite Hlock in Hk by done. specialize (MF k Hk c'). naive_solver.
  - intros k Hk. destruct (decide (k = lk)) as [->|Hn].
    + destruct (Htaken Hk) as [?|(c' & ? & ?)]; [exists c|exists c']; apply HO; naive_solver.
    + rewrite Hlock in Hk by done. destruct (MT k Hk) as [c' ?]. exists c'. apply HO. naive_solver.
  - intros c' k. destruct (decide (k = lk)) as [->|Hk].
    + destruct (decide (c' = c)) as [->|Hn]; [done|]. rewrite (Hcpu c' Hn). by apply Hnames.
    + rewrite (Hlock k Hk), MN. destruct (decide (c' = c)) as [->|Hn]; [by rewrite (proj2 (Hkeep k Hk))|by rewrite Hcpu].
Qed.

Lemma upd_eq {A} (f : nat -> A) k v : upd f k v k = v.
Proof. unfold upd. by case_decide. Qed.
Lemma upd_ne {A} (f : nat -> A) k v j : j <> k -> upd f k v j = f j.
Proof. unfold upd. intros. by case_decide. Qed.

Lemma set_cpu_ok n fl s c x :
  machine_ok n fl s -> cpu_ok n (fl c) x ->
  (forall k, cnamed x k <-> cnamed (cpus s c) k) -> (forall k, cowns x k <-> owns s c k) ->
  machine_ok n fl (set_cpu c x s).
Proof.
  intros Hs Hx HN HO. apply (step_ok n fl s _ c 0 Hs); cbn; rewrite ?upd_eq; try done.
  - intros c' Hc'. by apply upd_ne.
  - intros H%HO. split; [intros H0; by apply (mo_free _ _ _ Hs _ H0 c)|]. intros c' Hn H'. by apply Hn, (mo_own _ _ _ Hs c' c 0%nat).
  - intros c' _ H' H0. by apply (mo_free _ _ _ Hs _ H0 c').
  - intros H. destruct (mo_taken _ _ _ Hs _ H) as [c' Hc']. destruct (decide (c' = c)) as [->|Hn]; [left; by apply HO|eauto].
  - rewrite HN. apply (mo_name _ _ _ Hs).
  - intros c' _. apply (mo_name _ _ _ Hs).
Qed.

Lemma go_ok n fl p x :
  cpu_ok n fl x -> depth p = depth (at_pc x) -> subject p = subject (at_pc x) -> (forall msg, p <> Panicked msg) ->
  cpu_ok n fl (go p x).
Proof. intros [H1 H2 H3 H4 H5 H6] Hd Hs Hp. constructor; cbn; rewrite ?Hd, ?Hs; done. Qed.

(** A step inside a call that changes neither locks nor what is owned. *)
Lemma jump_ok n fl s c p :
  machine_ok n fl s -> depth p = depth (at_pc (cpus s c)) -> subject p = subject (at_pc (cpus s c)) ->
  (forall msg, p <> Panicked msg) ->
  (forall k, cnamed (go p (cpus s c)) k <-> cnamed (cpus s c) k) ->
  (forall k, cowns (go p (cpus s c)) k <-> owns s c k) -> machine_ok n fl (jump c p s).
Proof. intros Hs Hd Hsub Hp HN HO. apply set_cpu_ok; try done. apply go_ok; try done. apply Hs. Qed.

(** A step inside a call by which [c] changes lock [lk], which no other processor
    owns. *)
Lemma lock_step_ok n fl s s' c lk :
  machine_ok n fl s -> cpu_ok n (fl c) (cpus s' c) ->
  (forall c', c' <> c -> cpus s' c' = cpus s c') -> (forall k, k <> lk -> locks s' k = locks s k) ->
  (forall k, k <> lk -> (cowns (cpus s' c) k <-> owns s c k) /\ (cnamed (cpus s' c) k <-> cnamed (cpus s c) k)) ->
  (forall c', c' <> c -> ~ owns s c' lk) ->
  (cowns (cpus s' c) lk <-> locked (locks s' lk) <> 0) ->
  (cnamed (cpus s' c) lk /\ lcpu (locks s' lk) = Some c \/ ~ cnamed (cpus s' c) lk /\ lcpu (locks s' lk) = None) ->
  machine_ok n fl s'.
Proof.
  intros Hs Hc Hcpu Hlock Hkeep Hoth Hown Hname. apply (step_ok n fl s s' c lk); try done.
  - intros H. split; [by apply Hown|done].
  - intros c' Hn H. by apply Hoth in H.
  - intros H. left. by apply Hown.
  - naive_solver.
  - intros c' Hn. split; [naive_solver|]. intros H. exfalso. apply (Hoth c' Hn). by left.
Qed.

Lemma not_held n fl x lk : cpu_ok n fl x -> subject (at_pc x) = Some lk -> lk ∉ held x.
Proof. intros [? ? ? ? H5 ?] Hs Hin. by apply (H5 lk Hin). Qed.

Lemma owner_alone n fl s c lk : machine_ok n fl s -> owns s c lk -> forall c', c' <> c -> ~ owns s c' lk.
Proof. intros Hs Ho c' Hn H. by apply Hn, (mo_own _ _ _ Hs c' c lk). Qed.

Lemma pushcli_ok n fl x lk : cpu_ok n fl x -> at_pc x = AcqPush lk -> cpu_ok n fl (go (AcqTestLocked lk) (pushcli x)).
Proof.
  intros [H1 H2 H3 H4 H5 H6] Hp. rewrite Hp in *. constructor; cbn in *; try done.
  - lia.
  - rewrite (proj2 (Z.eqb_neq _ _)) by lia. split; [done|]. destruct (ncli x =? 0); [done|by destruct H3].
Qed.

Lemma popcli_ok n fl x lk : cpu_ok n fl x -> at_pc x = RelPop lk ->
  exists x', popcli x = inr x' /\ cpu_ok n fl (go Elsewhere x') /\ held x' = held x.
Proof.
  intros [H1 H2 H3 H4 H5 H6] Hp. rewrite Hp in *. cbn in *.
  rewrite (proj2 (Z.eqb_neq _ _)) in H3 by lia. destruct H3 as [Hf Hi]. unfold popcli. rewrite Hf.
  rewrite (proj2 (Z.ltb_ge _ _)) by lia. eexists. split_and!; [done| |done].
  constructor; cbn; try done.
  - lia.
  - destruct (Z.eqb_spec (ncli x - 1) 0) as [E|E]; cbn; rewrite ?Hi; [by destruct fl|done].
  - intros k Hk. by destruct (H5 k Hk).
Qed.

Lemma filter_ne_id (l : list nat) k : k ∉ l -> filter (.≠ k) l = l.
Proof.
  induction l as [|x l IH]; intros Hk; [done|]. apply not_elem_of_cons in Hk as [Hx Hk].
  rewrite filter_cons_True by done. by rewrite IH.
Qed.

Lemma length_filter_ne (l : list nat) k : NoDup l -> k ∈ l -> length l = S (length (filter (.≠ k) l)).
Proof.
  intros Hl. induction Hl as [|x l Hx Hl IH]; intros Hk; [by apply not_elem_of_nil in Hk|].
  destruct (decide (x = k)) as [->|E].
  - rewrite filter_cons_False by naive_solver. by rewrite filter_ne_id.
  - rewrite filter_cons_True by done. apply elem_of_cons in Hk as [->|Hk]; [done|]. cbn. by rewrite IH.
Qed.


Section Steps.
Context (mem : memory) (n : nat) (fl : nat -> bool) (s : machine) (c : nat).
Hypothesis Hs : machine_ok n fl s.

Lemma xchg_ok lk : at_pc (cpus s c) = AcqXchg lk -> machine_ok n fl (step mem c s).
Proof.
  intros Hp. unfold step. rewrite Hp. cbn. pose proof (mo_cpu _ _ _ Hs c) as Hc.
  assert (Hh := not_held _ _ _ lk Hc). rewrite Hp in Hh. specialize (Hh eq_refl).
  destruct (Z.eqb_spec (locked (locks s lk)) 0) as [E|E].
  - apply (lock_step_ok n fl s _ c lk Hs); cbn; rewrite ?upd_eq; cbn.
    + apply go_ok; rewrite ?Hp; done.
    + intros. by apply upd_ne.
    + intros. by apply upd_ne.
    + intros k Hk. unfold owns, cowns, cnamed. rewrite Hp. cbn. naive_solver.
    + intros c' _. by apply (mo_free _ _ _ Hs).
    + unfold cowns. cbn. naive_solver.
    + right. unfold cnamed. cbn. split; [naive_solver|].
      destruct (lcpu (locks s lk)) as [c'|] eqn:El; [|done]. apply (mo_name _ _ _ Hs) in El.
      exfalso. apply (mo_free _ _ _ Hs lk E c'). by left.
  - apply (step_ok n fl s _ c lk Hs); cbn; rewrite ?upd_eq; cbn.
    + apply go_ok; rewrite ?Hp; done.
    + intros. by apply upd_ne.
    + intros. by apply upd_ne.
    + intros k Hk. unfold owns, cowns, cnamed. rewrite Hp. done.
    + unfold cowns, cnamed. cbn. naive_solver.
    + done.
    + intros _. destruct (mo_taken _ _ _ Hs lk E) as [c' Hc']. destruct (decide (c' = c)) as [->|]; [|eauto].
      left. revert Hc'. unfold owns, cowns, cnamed. by rewrite Hp.
    + rewrite (mo_name _ _ _ Hs). unfold cnamed. by rewrite Hp.
    + intros c' _. apply (mo_name _ _ _ Hs).
Qed.

Lemma record_ok lk : at_pc (cpus s c) = AcqRecord lk -> machine_ok n fl (step mem c s).
Proof.
  intros Hp. unfold step. rewrite Hp. cbn. pose proof (mo_cpu _ _ _ Hs c) as Hc.
  assert (Hh := not_held _ _ _ lk Hc). rewrite Hp in Hh. specialize (Hh eq_refl).
  assert (Ho : owns s c lk) by (right; by rewrite Hp).
  apply (lock_step_ok n fl s _ c lk Hs); cbn; rewrite ?upd_eq; cbn.
  - destruct Hc as [H1 H2 H3 H4 H5 H6]. rewrite Hp in *. constructor; cbn in *; try done.
    + lia.
    + by constructor.
    + intros k [->|Hk]%elem_of_cons; [by split; [apply H6|]|]. by destruct (H5 k Hk).
  - intros. by apply upd_ne.
  - intros. by apply upd_ne.
  - intros k Hk. unfold owns, cowns, cnamed. rewrite Hp. cbn. rewrite elem_of_cons. naive_solver.
  - by apply (owner_alone n fl).
  - unfold cowns, cnamed. cbn. split; [|intros _; left; left; by left].
    intros _ H0. by apply (mo_free _ _ _ Hs lk H0 c).
  - left. split; [|done]. left. by left.
Qed.

Lemma clear_ok lk : at_pc (cpus s c) = RelClear lk -> machine_ok n fl (step mem c s).
Proof.
  intros Hp. unfold step. rewrite Hp. cbn. pose proof (mo_cpu _ _ _ Hs c) as Hc.
  assert (Hh := not_held _ _ _ lk Hc). rewrite Hp in Hh. specialize (Hh eq_refl).
  assert (Ho : owns s c lk) by (left; right; by rewrite Hp).
  apply (lock_step_ok n fl s _ c lk Hs); cbn; rewrite ?upd_eq; cbn.
  - apply go_ok; rewrite ?Hp; done.
  - intros. by apply upd_ne.
  - intros. by apply upd_ne.
  - intros k Hk. unfold owns, cowns, cnamed. rewrite Hp. cbn. naive_solver.
  - by apply (owner_alone n fl).
  - unfold cowns, cnamed. cbn. split; [|intros _; by right].
    intros _ H0. by apply (mo_free _ _ _ Hs lk H0 c).
  - right. unfold cnamed. cbn. naive_solver.
Qed.

Lemma unlock_ok lk : at_pc (cpus s c) = RelXchg lk -> machine_ok n fl (step mem c s).
Proof.
  intros Hp. unfold step. rewrite Hp. cbn. pose proof (mo_cpu _ _ _ Hs c) as Hc.
  assert (Hh := not_held _ _ _ lk Hc). rewrite Hp in Hh. specialize (Hh eq_refl).
  assert (Ho : owns s c lk) by (right; by rewrite Hp).
  assert (Hn : lcpu (locks s lk) = None).
  { destruct (lcpu (locks s lk)) as [c'|] eqn:El; [|done]. apply (mo_name _ _ _ Hs) in El.
    assert (c' = c) as -> by (apply (mo_own _ _ _ Hs c' c lk); [by left|done]).
    destruct El as [El|El]; [done|]. by rewrite Hp in El. }
  apply (lock_step_ok n fl s _ c lk Hs); cbn; rewrite ?upd_eq; cbn.
  - apply go_ok; rewrite ?Hp; done.
  - intros. by apply upd_ne.
  - intros. by apply upd_ne.
  - intros k Hk. unfold owns, cowns, cnamed. rewrite Hp. cbn. naive_solver.
  - by apply (owner_alone n fl).
  - unfold cowns, cnamed. cbn. naive_solver.
  - right. unfold cnamed. cbn. naive_solver.
Qed.

Lemma owner_locked lk : owns s c lk -> locked (locks s lk) <> 0.
Proof. intros Ho H0. by apply (mo_free _ _ _ Hs lk H0 c). Qed.

Ltac pc_solver Hp := rewrite ?Hp; cbn; unfold owns, cowns, cnamed; cbn; rewrite ?Hp; done.

Lemma step_keeps : machine_ok n fl (step mem c s).
Proof.
  pose proof (mo_cpu _ _ _ Hs c) as Hc.
  destruct (at_pc (cpus s c)) as [|lk|lk|lk|lk|lk|lk|lk|lk|lk|lk|msg] eqn:Hp;
    [| | | |by apply (xchg_ok lk)|by apply (record_ok lk)| | |by apply (clear_ok lk)|by apply (unlock_ok lk)| |];
    unfold step; rewrite Hp; cbn.
  - done.
  - apply set_cpu_ok; [done|by apply pushcli_ok| |]; intros k; pc_solver Hp.
  - destruct (_ =? _); apply jump_ok; try done; try intros k; pc_solver Hp.
  - case_decide as E.
    + exfalso. apply (mo_name _ _ _ Hs) in E. assert (Hh := not_held _ _ _ lk Hc). rewrite Hp in Hh.
      destruct E as [E|E]; [by apply Hh|by rewrite Hp in E].
    + apply jump_ok; try done; try intros k; pc_solver Hp.
  - destruct (Z.eqb_spec (locked (locks s lk)) 0) as [E|E].
    + exfalso. apply (owner_locked lk); [|done]. left. right. by rewrite Hp.
    + apply jump_ok; try done; try intros k; pc_solver Hp.
  - case_decide as E; [apply jump_ok; try done; try intros k; pc_solver Hp|].
    exfalso. apply E, (mo_name _ _ _ Hs). right. by rewrite Hp.
  - destruct (popcli_ok _ _ _ lk Hc Hp) as (x & -> & Hx & Hh).
    apply set_cpu_ok; [done|done| |]; intros k; unfold owns, cowns, cnamed; cbn; rewrite Hp, Hh; done.
  - done.
Qed.

Lemma acquire_keeps lk : at_pc (cpus s c) = Elsewhere -> (lk < n)%nat -> lk ∉ held (cpus s c) ->
  machine_ok n fl (call_acquire c lk s).
Proof.
  intros Hp Hlk Hn. pose proof (mo_cpu _ _ _ Hs c) as [H1 H2 H3 H4 H5 H6]. rewrite Hp in *.
  apply set_cpu_ok; [done| | |]; [|intros k; pc_solver Hp..].
  constructor; cbn in *; try done.
  - intros k Hk. split; [by apply H5|]. congruence.
  - congruence.
Qed.

Lemma release_keeps lk : at_pc (cpus s c) = Elsewhere -> lk ∈ held (cpus s c) -> machine_ok n fl (call_release c lk s).
Proof.
  intros Hp Hin. pose proof (mo_cpu _ _ _ Hs c) as [H1 H2 H3 H4 H5 H6]. rewrite Hp in *.
  assert (HN : forall k, k ∈ filter (.≠ lk) (held (cpus s c)) \/ lk = k <-> k ∈ held (cpus s c)).
  { intros k. rewrite list_elem_of_filter. destruct (decide (k = lk)) as [->|]; naive_solver. }
  apply set_cpu_ok; [done| | |].
  - pose proof (length_filter_ne _ _ H4 Hin). constructor; cbn in *; try done.
    + lia.
    + by apply NoDup_filter.
    + intros k [Hk Hk']%list_elem_of_filter. split; [by apply H5|congruence].
    + intros k [= <-]. by apply H5.
  - intros k. unfold cnamed. cbn. rewrite Hp, HN. naive_solver.
  - intros k. unfold owns, cowns, cnamed. cbn. rewrite Hp, HN. naive_solver.
Qed.
End Steps.

Lemma run_ok mem n fl s s' : machine_ok n fl s -> rtc (run mem n) s s' -> machine_ok n fl s'.
Proof.
  intros Hs Hr. induction Hr as [s|s t u H _ IH]; [done|]. apply IH.
  destruct H; [by apply step_keeps|by apply acquire_keeps|by apply release_keeps].
Qed.

Lemma held_bound n fl x : cpu_ok n fl x -> (length (held x) <= n)%nat.
Proof.
  intros [_ _ _ H4 H5 _]. transitivity (length (seq 0 n)); [|by rewrite length_seq]. apply submseteq_length, NoDup_submseteq; [done|].
  intros k Hk. apply elem_of_seq. destruct (H5 k Hk). lia.
Qed.

(** C29: spin locks exclude.  Whatever instructions of [acquire] and [release] the
    processors interleave, from locks initialised by [initlock]: no processor
    panics; a lock is held by at most one processor, also while that processor
    is still entering or leaving it; a processor that holds a lock has
    interrupts off; one that holds none and is in no call has them as they were
    at the start; and the nesting depth stays within the number of locks. *)
Theorem spinlock_exclusive mem n fl name old fr s c :
  rtc (run mem n) (boot fl name old fr) s ->
  (forall msg, at_pc (cpus s c) <> Panicked msg) /\
  (forall c' lk, owns s c lk -> owns s c' lk -> c = c') /\
  (held (cpus s c) <> [] -> fl_if (cpus s c) = false) /\
  (held (cpus s c) = [] -> at_pc (cpus s c) = Elsewhere -> fl_if (cpus s c) = fl c) /\
  0 <= ncli (cpus s c) <= Z.of_nat n + 1.
Proof.
  intros Hr. pose proof (run_ok _ n fl _ _ (boot_ok n fl name old fr) Hr) as Hs.
  pose proof (mo_cpu _ _ _ Hs c) as Hc. pose proof (held_bound _ _ _ Hc) as Hb.
  destruct Hc as [H1 H2 H3 H4 H5 H6].
  assert (Hd : 0 <= depth (at_pc (cpus s c)) <= 1) by (destruct (at_pc (cpus s c)); cbn; lia).
  split_and!; try lia.
  - done.
  - intros c' lk. apply (mo_own _ _ _ Hs).
  - intros Hh. destruct (held (cpus s c)); [done|]. rewrite (proj2 (Z.eqb_neq _ _)) in H3; [by destruct H3|].
    rewrite H2. cbn [length]. lia.
  - intros Hh Hp. rewrite Hh, Hp in H2. by rewrite H2 in H3.
Qed.

(** ** Progress *)

(** The runs of a kernel that, in addition, takes nested locks in increasing
    order. *)
Inductive orun (mem : memory) (n : nat) : machine -> machine -> Prop :=
| orun_step s c : orun mem n s (step mem c s)
| orun_acquire s c lk : at_pc (cpus s c) = Elsewhere -> (lk < n)%nat -> (forall k, k ∈ held (cpus s c) -> (k < lk)%nat) ->
    orun mem n s (call_acquire c lk s)
| orun_release s c lk : at_pc (cpus s c) = Elsewhere -> lk ∈ held (cpus s c) ->
    orun mem n s (call_release c lk s).

(** The lock a processor in [acquire] does not have yet, and the lock of a
    processor in [release]. *)
Definition acquiring (p : pc) : option nat :=
  match p with AcqPush lk | AcqTestLocked lk | AcqTestCpu lk | AcqXchg lk => Some lk | _ => None end.
Definition releasing (p : pc) : option nat :=
  match p with RelTestLocked lk | RelTestCpu lk | RelClear lk | RelXchg lk | RelPop lk => Some lk | _ => None end.

Definition ordered (s : machine) : Prop :=
  forall c lk k, acquiring (at_pc (cpus s c)) = Some lk -> k ∈ held (cpus s c) -> (k < lk)%nat.

Lemma orun_run mem n s s' : orun mem n s s' -> run mem n s s'.
Proof. intros []; constructor; try done. intros Hin. specialize (H1 _ Hin). lia. Qed.

Lemma orun_ok mem n fl s s' : machine_ok n fl s -> rtc (orun mem n) s s' -> machine_ok n fl s'.
Proof. intros Hs Hr. eapply run_ok; [exact Hs|]. eapply rtc_subrel; [|exact Hr]. intros x y. apply orun_run. Qed.

Lemma step_other mem c s c' : c' <> c -> cpus (step mem c s) c' = cpus s c'.
Proof.
  intros Hn. unfold step. destruct (at_pc (cpus s c)); cbn; try destruct (popcli _); cbn; rewrite ?upd_ne by done; done.
Qed.

(** A step does not enter [acquire], and inside it the locks held stay. *)
Lemma step_acquiring mem c s lk : acquiring (at_pc (cpus (step mem c s) c)) = Some lk ->
  acquiring (at_pc (cpus s c)) = Some lk /\ held (cpus (step mem c s) c) = held (cpus s c).
Proof.
  unfold step. destruct (at_pc (cpus s c)) eqn:Hp; cbn; rewrite ?Hp; try done;
    try (rewrite upd_eq; cbn; done);
    try (rewrite upd_eq; cbn; repeat case_match; cbn; intros [= ->]; done).
  destruct (popcli _); cbn; rewrite upd_eq; cbn; done.
Qed.

Lemma orun_ordered mem n s s' : ordered s -> rtc (orun mem n) s s' -> ordered s'.
Proof.
  intros Ho Hr. induction Hr as [s|s t u H _ IH]; [done|]. apply IH. clear IH.
  intros c lk k. destruct H as [s c1|s c1 l Hp Hl Hh|s c1 l Hp Hl].
  - destruct (decide (c = c1)) as [->|Hn]; [|rewrite step_other by done; apply Ho].
    intros Ha. destruct (step_acquiring _ _ _ _ Ha) as [Ha' ->]. by apply Ho.
  - cbn. destruct (decide (c = c1)) as [->|Hn]; [rewrite upd_eq|rewrite upd_ne by done; apply Ho].
    cbn. intros [= <-]. apply Hh.
  - cbn. destruct (decide (c = c1)) as [->|Hn]; [rewrite upd_eq; done|rewrite upd_ne by done; apply Ho].
Qed.

(** Steps of one processor. *)
Definition solo (mem : memory) (c : nat) : machine -> machine -> Prop := rtc (fun s s' => s' = step mem c s).

Section Progress.
Context (mem : memory) (n : nat) (fl : nat -> bool).
Implicit Types s : machine.

Lemma solo_orun c s s' : solo mem c s s' -> rtc (orun mem n) s s'.
Proof. intros H. eapply rtc_subrel; [|exact H]. intros x y ->. apply orun_step. Qed.

Lemma solo_other c s s' c' : solo mem c s s' -> c' <> c -> cpus s' c' = cpus s c'.
Proof. intros H Hn. induction H as [|s t u -> _ IH]; [done|]. by rewrite IH, step_other. Qed.

Lemma solo_step c s s' : solo mem c (step mem c s) s' -> solo mem c s s'.
Proof. intros H. by eapply rtc_l. Qed.

Lemma step_mok c s : machine_ok n fl s -> machine_ok n fl (step mem c s).
Proof. apply step_keeps. Qed.

(** Inside [acquire], a processor gets to the exchange. *)
Lemma solo_acquiring c s k : machine_ok n fl s -> acquiring (at_pc (cpus s c)) = Some k ->
  exists s', solo mem c s s' /\ at_pc (cpus s' c) = AcqXchg k /\ held (cpus s' c) = held (cpus s c) /\ locks s' = locks s.
Proof.
  assert (H3 : forall s, machine_ok n fl s -> at_pc (cpus s c) = AcqTestCpu k ->
    exists s', solo mem c s s' /\ at_pc (cpus s' c) = AcqXchg k /\ held (cpus s' c) = held (cpus s c) /\ locks s' = locks s).
  { clear s. intros s Hs Hp. exists (step mem c s). split; [by apply rtc_once|].
    pose proof (ok_panic _ _ _ (mo_cpu _ _ _ (step_mok c s Hs) c)) as Hn. revert Hn.
    unfold step. rewrite Hp. cbn. rewrite upd_eq. cbn. case_decide; [|done]. intros Hn. by destruct (Hn "acquire"%string). }
  assert (H2 : forall s, machine_ok n fl s -> at_pc (cpus s c) = AcqTestLocked k ->
    exists s', solo mem c s s' /\ at_pc (cpus s' c) = AcqXchg k /\ held (cpus s' c) = held (cpus s c) /\ locks s' = locks s).
  { clear s. intros s Hs Hp.
    assert (E : (at_pc (cpus (step mem c s) c) = AcqXchg k \/ at_pc (cpus (step mem c s) c) = AcqTestCpu k) /\
      held (cpus (step mem c s) c) = held (cpus s c) /\ locks (step mem c s) = locks s).
    { unfold step. rewrite Hp. cbn. rewrite upd_eq. cbn. destruct (_ =? _); auto. }
    destruct E as ([E|E] & E1 & E2).
    - exists (step mem c s). split; [by apply rtc_once|done].
    - destruct (H3 _ (step_mok c s Hs) E) as (s' & ? & ? & ? & ?). exists s'. split_and!; [by apply solo_step|done|congruence..]. }
  intros Hs Ha. destruct (at_pc (cpus s c)) eqn:Hp; try done; injection Ha as ->; [|by auto..|].
  - assert (E : at_pc (cpus (step mem c s) c) = AcqTestLocked k /\
      held (cpus (step mem c s) c) = held (cpus s c) /\ locks (step mem c s) = locks s).
    { unfold step. rewrite Hp. cbn. rewrite upd_eq. done. }
    destruct E as (E & E1 & E2). destruct (H2 _ (step_mok c s Hs) E) as (s' & ? & ? & ? & ?).
    exists s'. split_and!; [by apply solo_step|done|congruence..].
  - exists s. split; [reflexivity|done].
Qed.

(** Inside [release], a processor gets to the end, and the lock is clear. *)
Lemma solo_releasing c s k : machine_ok n fl s -> releasing (at_pc (cpus s c)) = Some k ->
  exists s', solo mem c s s' /\ at_pc (cpus s' c) = Elsewhere /\ held (cpus s' c) = held (cpus s c) /\
    (owns s c k -> locked (locks s' k) = 0).
Proof.
  set (P := fun s => exists s', solo mem c s s' /\ at_pc (cpus s' c) = Elsewhere /\ held (cpus s' c) = held (cpus s c) /\
    (owns s c k -> locked (locks s' k) = 0)).
  set (Q := fun s => exists s', solo mem c s s' /\ at_pc (cpus s' c) = Elsewhere /\ held (cpus s' c) = held (cpus s c) /\
    locks s' = locks s).
  assert (H5 : forall s, machine_ok n fl s -> at_pc (cpus s c) = RelPop k -> Q s).
  { intros t Ht Hp. destruct (popcli_ok _ _ _ k (mo_cpu _ _ _ Ht c) Hp) as (x & Hx & _ & Hh).
    exists (step mem c t). split; [by apply rtc_once|]. unfold step. rewrite Hp, Hx. cbn. rewrite upd_eq. done. }
  assert (H4 : forall s, machine_ok n fl s -> at_pc (cpus s c) = RelXchg k -> P s).
  { intros t Ht Hp.
    assert (E : at_pc (cpus (step mem c t) c) = RelPop k /\ held (cpus (step mem c t) c) = held (cpus t c) /\
      locked (locks (step mem c t) k) = 0).
    { unfold step. rewrite Hp. cbn. rewrite !upd_eq. done. }
    destruct E as (E & E1 & E2). destruct (H5 _ (step_mok c t Ht) E) as (s' & ? & ? & ? & El).
    exists s'. split_and!; [by apply solo_step|done|congruence|]. intros _. by rewrite El. }
  assert (Hgo : forall t p, machine_ok n fl t -> at_pc (cpus (step mem c t) c) = p ->
    held (cpus (step mem c t) c) = held (cpus t c) -> owns (step mem c t) c k -> P (step mem c t) -> P t).
  { intros t p Ht E E1 E2 (s' & ? & ? & ? & Hl). exists s'. split_and!; [by apply solo_step|done|congruence|]. auto. }
  assert (H3 : forall s, machine_ok n fl s -> at_pc (cpus s c) = RelClear k -> P s).
  { intros t Ht Hp.
    assert (E : at_pc (cpus (step mem c t) c) = RelXchg k /\ held (cpus (step mem c t) c) = held (cpus t c)).
    { unfold step. rewrite Hp. cbn. rewrite !upd_eq. done. }
    destruct E as (E & E1). apply (Hgo t _ Ht E E1); [right; by rewrite E|]. by apply H4; [apply step_mok|]. }
  assert (H2 : forall s, machine_ok n fl s -> at_pc (cpus s c) = RelTestCpu k -> P s).
  { intros t Ht Hp. pose proof (ok_panic _ _ _ (mo_cpu _ _ _ (step_mok c t Ht) c)) as Hn.
    assert (E : at_pc (cpus (step mem c t) c) = RelClear k /\ held (cpus (step mem c t) c) = held (cpus t c)).
    { revert Hn. unfold step. rewrite Hp. cbn. rewrite !upd_eq. cbn. case_decide; [done|].
      intros Hn. by destruct (Hn "release"%string). }
    destruct E as (E & E1). apply (Hgo t _ Ht E E1); [left; right; by rewrite E|]. by apply H3; [apply step_mok|]. }
  intros Hs Hr. destruct (at_pc (cpus s c)) eqn:Hp; try done; injection Hr as ->;
    [|exact (H2 s Hs Hp)|exact (H3 s Hs Hp)|exact (H4 s Hs Hp)|].
  - pose proof (ok_panic _ _ _ (mo_cpu _ _ _ (step_mok c s Hs) c)) as Hn.
    assert (E : at_pc (cpus (step mem c s) c) = RelTestCpu k /\ held (cpus (step mem c s) c) = held (cpus s c)).
    { revert Hn. unfold step. rewrite Hp. cbn. rewrite !upd_eq. cbn. destruct (_ =? _); [|done].
      intros Hn. by destruct (Hn "release"%string). }
    destruct E as (E & E1). apply (Hgo s _ Hs E E1); [left; right; by rewrite E|]. by apply H2; [apply step_mok|].
  - destruct (H5 s Hs Hp) as (s' & ? & ? & ? & El). exists s'. split_and!; try done.
    intros Ho. exfalso. pose proof (not_held _ _ _ k (mo_cpu _ _ _ Hs c)) as Hh. rewrite Hp in Hh.
    destruct Ho as [[Ho|Ho]|Ho]; [by apply Hh|by rewrite Hp in Ho..].
Qed.

(** At the exchange of a clear lock, two steps take it. *)
Lemma solo_takes c s lk : at_pc (cpus s c) = AcqXchg lk -> locked (locks s lk) = 0 ->
  let s' := step mem c (step mem c s) in
  solo mem c s s' /\ at_pc (cpus s' c) = Elsewhere /\ held (cpus s' c) = lk :: held (cpus s c).
Proof.
  intros Hp E. split; [by eapply rtc_l; [done|]; apply rtc_once|].
  assert (H1 : at_pc (cpus (step mem c s) c) = AcqRecord lk /\ held (cpus (step mem c s) c) = held (cpus s c)).
  { unfold step. rewrite Hp. cbn. rewrite E. cbn. by rewrite !upd_eq. }
  destruct H1 as [H1 <-]. generalize dependent (step mem c s). intros t H1. unfold step. rewrite H1. cbn.
  by rewrite upd_eq.
Qed.

(** Any lock can be made clear by the processors that own it and higher ones. *)
Lemma can_clear d : forall s lk, machine_ok n fl s -> ordered s -> (n - lk <= d)%nat -> (lk < n)%nat ->
  exists s', rtc (orun mem n) s s' /\ locked (locks s' lk) = 0 /\
    forall c, (forall k, owns s c k -> (k < lk)%nat) -> cpus s' c = cpus s c.
Proof.
  induction d as [|d IH]; intros s lk Hs Ho Hd Hlk; [lia|].
  destruct (decide (locked (locks s lk) = 0)) as [E|E]; [by exists s|].
  destruct (mo_taken _ _ _ Hs lk E) as [c Hc].
  assert (Hmine : forall c', (forall k, owns s c' k -> (k < lk)%nat) -> c' <> c).
  { intros c' H ->. specialize (H lk Hc). lia. }
  (* from [Elsewhere], with the lock held, the owner releases it *)
  assert (Hend : forall t, machine_ok n fl t -> rtc (orun mem n) s t -> at_pc (cpus t c) = Elsewhere ->
    lk ∈ held (cpus t c) -> (forall c', (forall k, owns s c' k -> (k < lk)%nat) -> cpus t c' = cpus s c') ->
    exists s', rtc (orun mem n) s s' /\ locked (locks s' lk) = 0 /\
      forall c, (forall k, owns s c k -> (k < lk)%nat) -> cpus s' c = cpus s c).
  { intros t Ht Hst Hp Hin Hf. pose proof (release_keeps _ _ _ c Ht lk Hp Hin) as Hk.
    destruct (solo_releasing c (call_release c lk t) lk Hk) as (s' & Hs' & _ & _ & Hl);
      [cbn; by rewrite upd_eq|]. exists s'. split_and!.
    - etransitivity; [exact Hst|]. eapply rtc_l; [by apply orun_release|]. by eapply solo_orun.
    - apply Hl. left. right. cbn. by rewrite upd_eq.
    - intros c' Hc'. rewrite (solo_other c _ _ c' Hs') by auto. cbn. rewrite upd_ne by auto. by apply Hf. }
  destruct (acquiring (at_pc (cpus s c))) as [k|] eqn:Ha.
  - assert (Hin : lk ∈ held (cpus s c)).
    { destruct Hc as [[Hc|Hc]|Hc]; [done|by destruct (at_pc (cpus s c))..]. }
    assert (Hkl : (lk < k)%nat) by (by eapply Ho).
    destruct (solo_acquiring c s k Hs Ha) as (s1 & S1 & P1 & H1 & L1).
    pose proof (orun_ok _ _ _ _ _ Hs (solo_orun _ _ _ S1)) as M1.
    pose proof (orun_ordered _ _ _ _ Ho (solo_orun _ _ _ S1)) as O1.
    assert (Hkn : (k < n)%nat) by (apply (ok_subject _ _ _ (mo_cpu _ _ _ M1 c)); by rewrite P1).
    destruct (IH s1 k M1 O1) as (s2 & R2 & L2 & F2); [lia|done|].
    pose proof (orun_ok _ _ _ _ _ M1 R2) as M2.
    assert (C2 : cpus s2 c = cpus s1 c).
    { apply F2. intros j [[Hj|Hj]|Hj]; [|by rewrite P1 in Hj..]. apply (O1 c k j); [by rewrite P1|done]. }
    rewrite <- C2 in P1. destruct (solo_takes c s2 k P1 L2) as (S3 & P3 & H3). cbn zeta in *.
    set (s3 := step mem c (step mem c s2)) in *.
    apply (Hend s3).
    + by eapply orun_ok, solo_orun.
    + etransitivity; [by eapply solo_orun|]. etransitivity; [exact R2|by eapply solo_orun].
    + done.
    + rewrite H3, C2, H1. by right.
    + intros c' Hc'. rewrite (solo_other c _ _ c' S3) by auto. rewrite F2; [by apply (solo_other c _ _ c' S1); auto|].
      intros j Hj. unfold owns in Hj. rewrite (solo_other c _ _ c' S1) in Hj by auto. specialize (Hc' j Hj). lia.
  - destruct (releasing (at_pc (cpus s c))) as [k|] eqn:Hr.
    + destruct (solo_releasing c s k Hs Hr) as (s1 & S1 & P1 & H1 & L1).
      assert (F1 : forall c', (forall k, owns s c' k -> (k < lk)%nat) -> cpus s1 c' = cpus s c').
      { intros c' Hc'. apply (solo_other c _ _ c' S1). by auto. }
      destruct (decide (k = lk)) as [->|Hne].
      * exists s1. split_and!; [by eapply solo_orun|by apply L1|done].
      * apply (Hend s1); try done; [by eapply orun_ok, solo_orun|by eapply solo_orun|].
        rewrite H1. destruct Hc as [[Hc|Hc]|Hc]; [done| |]; destruct (at_pc (cpus s c)); try done;
          injection Hr as <-; by destruct Hne.
    + destruct (at_pc (cpus s c)) eqn:Hp; try done; [| |by destruct (ok_panic _ _ _ (mo_cpu _ _ _ Hs c) msg)].
      * apply (Hend s); try done. destruct Hc as [[Hc|Hc]|Hc]; [done|by rewrite Hp in Hc..].
      * assert (E1 : at_pc (cpus (step mem c s) c) = Elsewhere /\ held (cpus (step mem c s) c) = lk0 :: held (cpus s c)).
        { unfold step. rewrite Hp. cbn. by rewrite upd_eq. }
        destruct E1 as [E1 E2].
        apply (Hend (step mem c s)); try done; [by apply step_mok|by apply rtc_once, orun_step| |].
        -- rewrite E2. destruct Hc as [[Hc|Hc]|Hc]; [by right|by rewrite Hp in Hc|].
           rewrite Hp in Hc. subst. by left.
        -- intros c' Hc'. apply step_other. by auto.
Qed.
End Progress.

(** C30: spin locks do not deadlock.  In a kernel that takes nested locks in
    increasing order, take any state it reaches and any processor [c] that is in
    [acquire] of a lock [lk].  If the lock is taken, its owner is another
    processor.  In any case the run can go on, with steps of other processors
    only after [c] is at its exchange, until the lock is clear, and then [c] has
    the lock after its next two steps: no choice made so far has locked it out. *)
Theorem spinlock_no_deadlock mem n fl name old fr s c lk :
  rtc (orun mem n) (boot fl name old fr) s ->
  acquiring (at_pc (cpus s c)) = Some lk ->
  (locked (locks s lk) <> 0 -> exists c', c' <> c /\ owns s c' lk) /\
  exists s1 s2, solo mem c s s1 /\ rtc (orun mem n) s1 s2 /\
    at_pc (cpus s1 c) = AcqXchg lk /\ cpus s2 c = cpus s1 c /\ locked (locks s2 lk) = 0 /\
    let s' := step mem c (step mem c s2) in
    at_pc (cpus s' c) = Elsewhere /\ held (cpus s' c) = lk :: held (cpus s c).
Proof.
  intros Hr Ha. pose proof (orun_ok _ n fl _ _ (boot_ok n fl name old fr) Hr) as Hs.
  assert (Ho : ordered s) by (eapply orun_ordered; [|exact Hr]; by intros ? ? ? [=]).
  assert (Hno : ~ owns s c lk).
  { assert (Hh := not_held _ _ _ lk (mo_cpu _ _ _ Hs c)). intros [[H|H]|H]; [apply Hh; [|done]|..];
      destruct (at_pc (cpus s c)); done. }
  split.
  { intros Hl. destruct (mo_taken _ _ _ Hs lk Hl) as [c' Hc']. exists c'. split; [|done]. by intros ->. }
  destruct (solo_acquiring mem n fl c s lk Hs Ha) as (s1 & S1 & P1 & H1 & _).
  pose proof (orun_ok _ _ _ _ _ Hs (solo_orun mem n _ _ _ S1)) as M1.
  pose proof (orun_ordered _ _ _ _ Ho (solo_orun mem n _ _ _ S1)) as O1.
  destruct (can_clear mem n fl n s1 lk M1 O1) as (s2 & R2 & L2 & F2); [lia| |].
  { apply (ok_subject _ _ _ (mo_cpu _ _ _ M1 c)). by rewrite P1. }
  assert (C2 : cpus s2 c = cpus s1 c).
  { apply F2. intros j [[Hj|Hj]|Hj]; [|by rewrite P1 in Hj..]. apply (O1 c lk j); [by rewrite P1|done]. }
  exists s1, s2. split_and!; try done; rewrite <- C2 in P1; destruct (solo_takes mem c s2 lk P1 L2) as (_ & P3 & H3).
  cbn zeta. split; [exact P3|]. by rewrite H3, C2, H1.
Qed.

Definition demo_boot : machine :=
  boot (fun _ => true) (fun _ => "lock"%string) (fun _ => Spinlock 0 "" None (repeat 0 10)) (fun _ => 0).
Definition demo_taken : machine :=
  Nat.iter 5 (step (fun _ => 0) 0) (call_acquire 0 0 demo_boot).
Definition demo_spin : machine :=
  Nat.iter 3 (step (fun _ => 0) 1) (call_acquire 1 0 demo_taken).

Lemma orun_iter mem n s s' c k : rtc (orun mem n) s s' -> rtc (orun mem n) s (Nat.iter k (step mem c) s').
Proof. intros Hr. induction k; [done|]. eapply rtc_r; [exact IHk|]. apply orun_step. Qed.

Lemma demo_taken_run : rtc (orun (fun _ => 0) 1) demo_boot demo_taken.
Proof.
  apply orun_iter, rtc_once, orun_acquire; [reflexivity|lia|]. intros k H. by apply not_elem_of_nil in H.
Qed.

Lemma demo_spin_run : rtc (orun (fun _ => 0) 1) demo_boot demo_spin.
Proof.
  apply orun_iter. eapply rtc_r; [apply demo_taken_run|]. apply orun_acquire; [reflexivity|lia|].
  intros k H. by apply not_elem_of_nil in H.
Qed.

Lemma spinlock_exclusive_witness :
  held (cpus demo_taken 0) = [0%nat] /\ fl_if (cpus demo_taken 0) = false.
Proof.
  split; [reflexivity|].
  apply (spinlock_exclusive (fun _ => 0) 1 (fun _ => true) (fun _ => "lock"%string)
    (fun _ => Spinlock 0 "" None (repeat 0 10)) (fun _ => 0) demo_taken 0); [|discriminate].
  eapply rtc_subrel; [|exact demo_taken_run]. intros x y. apply orun_run.
Defined.

Lemma spinlock_no_deadlock_witness :
  locked (locks demo_spin 0) = 1 /\ (exists c', c' <> 1%nat /\ owns demo_spin c' 0) /\
  exists s', rtc (orun (fun _ => 0) 1) demo_spin s' /\ held (cpus s' 1) = [0%nat].
Proof.
  split; [reflexivity|].
  destruct (spinlock_no_deadlock (fun _ => 0) 1 (fun _ => true) (fun _ => "lock"%string)
    (fun _ => Spinlock 0 "" None (repeat 0 10)) (fun _ => 0) demo_spin 1 0 demo_spin_run eq_refl)
    as [Ho (s1 & s2 & S1 & R2 & _ & _ & _ & _ & Hh)].
  split; [apply Ho; discriminate|]. eexists. split; [|exact Hh].
  etransitivity; [exact (solo_orun _ _ _ _ _ S1)|]. etransitivity; [exact R2|].
  eapply rtc_l; [apply orun_step|]. apply rtc_once, orun_step.
Defined.
