(* ===== verification/File.v ===== *)
(** * File: open files (file.c) and the ends of pipes (pipe.c)

    The table of open files over the file system, the pipes and the page
    allocator.  A pipe lives in a page; while the page is allocated its contents
    are an entry of [k_pipes], keyed by its address. *)

From S2P Require Import Prelude Layout Block FsBlock FsInode Kalloc Pipe.
Open Scope Z_scope.
Open Scope xv6_scope.

Inductive fdtype := FD_NONE | FD_PIPE | FD_INODE.
#[global] Instance fdtype_eq_dec : EqDecision fdtype.
Proof. solve_decision. Defined.

Record file := File {
  f_type : fdtype;
  f_ref : Z;
  f_readable : bool;
  f_writable : bool;
  f_pipe : Z;
  f_ip : nat;
  f_off : Z
}.

Definition f_set_ref (r : Z) (f : file) : file :=
  File (f_type f) r (f_readable f) (f_writable f) (f_pipe f) (f_ip f) (f_off f).
Definition f_set_off (o : Z) (f : file) : file :=
  File (f_type f) (f_ref f) (f_readable f) (f_writable f) (f_pipe f) (f_ip f) o.
Definition f_set_type (t : fdtype) (f : file) : file :=
  File t (f_ref f) (f_readable f) (f_writable f) (f_pipe f) (f_ip f) (f_off f).

Record kern (L : Type) := Kern {
  k_fs : fsst L;
  ftable : list file;
  k_pipes : gmap Z pipe;
  k_mem : kst
}.
Arguments Kern {L}.
Arguments k_fs {L}.
Arguments ftable {L}.
Arguments k_pipes {L}.
Arguments k_mem {L}.

Section Lift.
Context {L : Type}.
Definition set_ftable (t : list file) (s : kern L) : kern L := Kern (k_fs s) t (k_pipes s) (k_mem s).
Definition set_pipes (p : gmap Z pipe) (s : kern L) : kern L := Kern (k_fs s) (ftable s) p (k_mem s).

Definition in_fs {A} (c : M (fsst L) A) : M (kern L) A := fun s =>
  match c (k_fs s) with
  | Ok a t => Ok a (Kern t (ftable s) (k_pipes s) (k_mem s))
  | Stop r t => Stop r (Kern t (ftable s) (k_pipes s) (k_mem s))
  end.
Definition in_mem {A} (c : M kst A) : M (kern L) A := fun s =>
  match c (k_mem s) with
  | Ok a t => Ok a (Kern (k_fs s) (ftable s) (k_pipes s) t)
  | Stop r t => Stop r (Kern (k_fs s) (ftable s) (k_pipes s) t)
  end.

Definition get_file (f : nat) : M (kern L) file :=
  let! t := gets ftable in of_option (Undefined "no such file") (t !! f).
Definition upd_file (f : nat) (g : file -> file) : M (kern L) unit :=
  modify (fun s => set_ftable (alter g f (ftable s)) s).
Definition get_pipe (p : Z) : M (kern L) pipe :=
  let! ps := gets k_pipes in of_option (Undefined "no such pipe") (ps !! p).
Definition put_pipe (p : Z) (q : pipe) : M (kern L) unit :=
  modify (fun s => set_pipes (<[p := q]> (k_pipes s)) s).
End Lift.

(** The first entry of the table that is not in use. *)
Fixpoint filealloc_scan (k : nat) (t : list file) : option nat :=
  match t with
  | [] => None
  | f :: t => if f_ref f =? 0 then Some k else filealloc_scan (S k) t
  end.

Section File.
Context {L : Type} `{BlockOps L}.
Context (devsw_read : Z -> option (nat -> Z -> M (fsst L) (Z * list Z))).
Context (devsw_write : Z -> option (nat -> list Z -> Z -> M (fsst L) Z)).
Context (end_ : Z).
Implicit Types (f : nat) (n : Z).

Definition filealloc : M (kern L) (option nat) :=
  let! t := gets ftable in
  match filealloc_scan 0 t with
  | Some f => upd_file f (f_set_ref 1) ;;; ret (Some f)
  | None => ret None
  end.

Definition filedup f : M (kern L) nat :=
  let! ff := get_file f in
  if f_ref ff <? 1 then panic "filedup"
  else upd_file f (f_set_ref (f_ref ff + 1)) ;;; ret f.

(** [pipeclose] of the pipe at [p], whose page is freed with the last end. *)
Definition pipeclose_at (p : Z) (writable : bool) : M (kern L) unit :=
  let! q := get_pipe p in
  match pipeclose q writable with
  | Some q => put_pipe p q
  | None => modify (fun s => set_pipes (delete p (k_pipes s)) s) ;;; in_mem (kfree end_ p)
  end.

(** What [fileclose] does with the last reference, to the file as it was. *)
Definition filerelease (ff : file) : M (kern L) unit :=
  match f_type ff with
  | FD_PIPE => pipeclose_at (f_pipe ff) (f_writable ff)
  | FD_INODE =>
      in_fs (in_low begin_op) ;;;
      in_fs (iput devsw_read (f_ip ff)) ;;;
      in_fs (in_low end_op)
  | FD_NONE => ret tt
  end.

Definition fileclose f : M (kern L) unit :=
  let! ff := get_file f in
  if f_ref ff <? 1 then panic "fileclose" else
  upd_file f (f_set_ref (f_ref ff - 1)) ;;;
  if 0 <? f_ref ff - 1 then ret tt else
  upd_file f (f_set_ref 0) ;;;
  upd_file f (f_set_type FD_NONE) ;;;
  filerelease ff.

Definition filestat f : M (kern L) (Z + stat) :=
  let! ff := get_file f in
  match f_type ff with
  | FD_INODE =>
      let! r := in_fs (ilock_trans devsw_read devsw_write (f_ip ff)) in
      if r =? E_CORRUPTED then ret (inl E_CORRUPTED) else
      let! st := in_fs (stati (f_ip ff)) in
      in_fs (iunlock (f_ip ff)) ;;;
      ret (inr st)
  | _ => ret (inl (-1))
  end.

(** ** Reading and writing, by a process that may have been killed *)

Context (killed : bool).

(** [fileread]: the result and the bytes stored at [addr]. *)
Definition fileread f n : M (kern L) (Z * list Z) :=
  let! ff := get_file f in
  if negb (f_readable ff) then ret (-1, []) else
  match f_type ff with
  | FD_PIPE =>
      let! q := get_pipe (f_pipe ff) in
      match piperead killed q n with
      | RDone q bs => put_pipe (f_pipe ff) q ;;; ret (Z.of_nat (length bs), bs)
      | RFail => ret (-1, [])
      | RSleep => halt (Sleep (ChPipe (f_pipe ff) false))
      end
  | FD_INODE =>
      in_fs (ilock_trans devsw_read devsw_write (f_ip ff)) ;;;
      let! rb := in_fs (readi devsw_read (f_ip ff) (f_off ff) (u32 n)) in
      (if 0 <? fst rb then upd_file f (fun ff => f_set_off (u32 (f_off ff + fst rb)) ff) else ret tt) ;;;
      in_fs (iunlock (f_ip ff)) ;;;
      ret rb
  | FD_NONE => panic "fileread"
  end.

(** The bytes [filewrite] hands to one [writei]. *)
Definition WRITE_MAX : Z := ((LOGSIZE - 1 - 1 - 2) / 2) * 512.

(** The loop of [filewrite]: where it stopped.  Every turn but the last writes
    [WRITE_MAX] bytes. *)
Fixpoint filewrite_loop (fuel : nat) f (addr : list Z) (i n : Z) : M (kern L) Z :=
  if n <=? i then ret i else
  match fuel with
  | O => halt OutOfFuel
  | S fuel =>
      let n1 := if WRITE_MAX <? n - i then WRITE_MAX else n - i in
      let! ff := get_file f in
      in_fs (in_low begin_op) ;;;
      in_fs (ilock devsw_read (f_ip ff)) ;;;
      let! r := in_fs (writei devsw_read devsw_write (f_ip ff) (drop (Z.to_nat i) addr) (f_off ff) (u32 n1)) in
      (if 0 <? r then upd_file f (fun ff => f_set_off (u32 (f_off ff + r)) ff) else ret tt) ;;;
      in_fs (iunlock (f_ip ff)) ;;;
      in_fs (in_low end_op) ;;;
      if r <? 0 then ret i else
      if negb (r =? n1) then panic "short filewrite" else
      filewrite_loop fuel f addr (i + r) n
  end.

Definition filewrite f (addr : list Z) n : M (kern L) Z :=
  let! ff := get_file f in
  if negb (f_writable ff) then ret (-1) else
  match f_type ff with
  | FD_PIPE =>
      let! q := get_pipe (f_pipe ff) in
      let! src := slice addr 0 (Z.max 0 n) in
      match pipewrite killed q src with
      | WDone q => put_pipe (f_pipe ff) q ;;; ret n
      | WFail q _ => put_pipe (f_pipe ff) q ;;; ret (-1)
      | WSleep q _ => put_pipe (f_pipe ff) q ;;; halt (Sleep (ChPipe (f_pipe ff) true))
      end
  | FD_INODE =>
      let! r := in_fs (ilock_trans devsw_read devsw_write (f_ip ff)) in
      if r =? E_CORRUPTED then ret E_CORRUPTED else
      in_fs (iunlock (f_ip ff)) ;;;
      let! i := filewrite_loop (Z.to_nat (n / WRITE_MAX + 1)) f addr 0 n in
      ret (if i =? n then n else -1)
  | FD_NONE => panic "filewrite"
  end.

(** ** [pipealloc] *)

(** The bytes of the array [data] of a [struct pipe] at [p]. *)
Definition pipe_bytes (m : memory) (p : Z) : list Z := (fun k => m (p + 52 + k)) <$> seqZ 0 PIPESIZE.

(** [bad:], after [f0] and possibly [f1] were allocated; the page is not. *)
Definition pipealloc_bad (f0 f1 : option nat) : M (kern L) (option (nat * nat)) :=
  (match f0 with Some f => fileclose f | None => ret tt end) ;;;
  (match f1 with Some f => fileclose f | None => ret tt end) ;;;
  ret None.

(** [pipealloc]: the two files, or nothing for the result -1. *)
Definition pipealloc : M (kern L) (option (nat * nat)) :=
  let! oa := filealloc in
  match oa with
  | None => pipealloc_bad None None
  | Some a =>
      let! ob := filealloc in
      match ob with
      | None => pipealloc_bad oa None
      | Some b =>
          let! p := in_mem kalloc in
          if p =? 0 then pipealloc_bad oa ob else
          let! m := gets k_mem in
          put_pipe p (pipeinit (pipe_bytes (kmem m) p)) ;;;
          upd_file a (fun ff => File FD_PIPE (f_ref ff) true false p (f_ip ff) (f_off ff)) ;;;
          upd_file b (fun ff => File FD_PIPE (f_ref ff) false true p (f_ip ff) (f_off ff)) ;;;
          ret (Some (a, b))
      end
  end.

End File.

(** ** References *)

Definition same_ends (q q' : pipe) : Prop :=
  pipe_ok q' /\ readopen q' = readopen q /\ writeopen q' = writeopen q.

(** What reading and writing leave alone: everything but the offsets of files,
    and of every pipe its ends. *)
Record same_files {L} (s s' : kern L) : Prop := {
  sf_table : f_set_off 0 <$> ftable s' = f_set_off 0 <$> ftable s;
  sf_pipes : forall p, match k_pipes s !! p, k_pipes s' !! p with
                       | Some q, Some q' => pipe_ok q -> same_ends q q'
                       | None, None => True
                       | _, _ => False
                       end;
  sf_mem : k_mem s' = k_mem s
}.

Lemma same_files_refl {L} (s : kern L) : same_files s s.
Proof. constructor; try done. intros p. by destruct (k_pipes s !! p). Qed.

Lemma same_files_trans {L} (s1 s2 s3 : kern L) : same_files s1 s2 -> same_files s2 s3 -> same_files s1 s3.
Proof.
  intros [T1 P1 M1] [T2 P2 M2]. constructor; [congruence| |congruence].
  intros p. specialize (P1 p). specialize (P2 p).
  destruct (k_pipes s1 !! p), (k_pipes s2 !! p), (k_pipes s3 !! p); try done.
  intros Hq. destruct (P1 Hq) as (Hq' & E1 & E2). destruct (P2 Hq') as (? & E3 & E4). split_and!; first [done|congruence].
Qed.

Definition harmless {L A} (c : M (kern L) A) : Prop := forall s a s', c s = Ok a s' -> same_files s s'.

Create HintDb files.

Lemma harmless_bind {L A B} (c : M (kern L) A) (k : A -> M (kern L) B) :
  harmless c -> (forall a, harmless (k a)) -> harmless (bind c k).
Proof. intros Hc Hk s b s' (a & s1 & H1 & H2)%bind_inv. eapply same_files_trans; [by eapply Hc|by eapply Hk]. Qed.

Lemma harmless_ret {L A} (a : A) : harmless (L:=L) (ret a).
Proof. intros s b s' [= <- <-]. apply same_files_refl. Qed.

Lemma harmless_halt {L A} r : harmless (L:=L) (A:=A) (halt r).
Proof. done. Qed.

Lemma harmless_gets {L A} (g : kern L -> A) : harmless (gets g).
Proof. intros s b s' [= <- <-]. apply same_files_refl. Qed.

Lemma harmless_in_fs {L A} (c : M (fsst L) A) : harmless (in_fs c).
Proof.
  intros s a s'. unfold in_fs. destruct (c (k_fs s)); intros [= <- <-]. constructor; try done.
  intros p. cbn. by destruct (k_pipes s !! p).
Qed.

Lemma harmless_get_file {L} f : harmless (get_file (L:=L) f).
Proof. apply harmless_bind; [apply harmless_gets|]. intros t. destruct (t !! f); [apply harmless_ret|apply harmless_halt]. Qed.

Lemma list_alter_lookup {A} (g : A -> A) i (l : list A) x : l !! i = Some x -> alter g i l = <[i := g x]> l.
Proof. revert l. induction i; intros [|y l] Hx; try done; cbn in *; [by simplify_eq|]. f_equal. by apply IHi. Qed.

Lemma fmap_alter_id {A B} (h : A -> B) (g : A -> A) i (l : list A) :
  (forall x, h (g x) = h x) -> h <$> alter g i l = h <$> l.
Proof. intros E. revert l. induction i; intros [|y l]; try done; cbn; f_equal; auto. Qed.

Lemma harmless_off {L} f (o : file -> Z) : harmless (upd_file (L:=L) f (fun ff => f_set_off (o ff) ff)).
Proof.
  intros s a s' [= <- <-]. constructor; try done; [|intros p; cbn; by destruct (k_pipes s !! p)].
  cbn. by apply fmap_alter_id.
Qed.

#[export] Hint Resolve harmless_bind harmless_ret harmless_halt harmless_gets harmless_in_fs harmless_get_file
  harmless_off : files.

(** A pipe replaced by one with the same ends. *)
Lemma harmless_pipe {L A} p (k : pipe -> M (kern L) A) :
  (forall q s, match k q s with
               | Ok _ s' => s' = s \/ exists q', s' = set_pipes (<[p := q']> (k_pipes s)) s /\ (pipe_ok q -> same_ends q q')
               | Stop _ _ => True
               end) -> harmless (bind (get_pipe p) k).
Proof.
  intros Hk s a s' (q & s1 & H1 & H2)%bind_inv. unfold get_pipe in H1.
  apply bind_inv in H1 as (ps & s2 & [= <- <-] & H1). destruct (k_pipes s !! p) as [q0|] eqn:Eq; [|done].
  injection H1 as -> <-. specialize (Hk q s). rewrite H2 in Hk.
  destruct Hk as [->|(q' & -> & Hok)]; [apply same_files_refl|].
  constructor; try done. intros p'. cbn. destruct (decide (p' = p)) as [->|Hn].
  - by rewrite Eq, lookup_insert_eq.
  - rewrite lookup_insert_ne by done. by destruct (k_pipes s !! p').
Qed.

Section Refs.
Context {L : Type} `{BlockOps L}.
Context (devsw_read : Z -> option (nat -> Z -> M (fsst L) (Z * list Z))).
Context (devsw_write : Z -> option (nat -> list Z -> Z -> M (fsst L) Z)).
Context (end_ : Z).

Lemma fileread_harmless killed f n : harmless (fileread devsw_read devsw_write killed f n).
Proof.
  unfold fileread. apply harmless_bind; [auto with files|]. intros ff. destruct (negb (f_readable ff)); [auto with files|].
  destruct (f_type ff); [apply harmless_halt| |].
  - apply harmless_pipe. intros q s. pose proof (piperead_copy_ok (Z.to_nat n) q) as Hc. unfold piperead.
    destruct ((nread q =? nwrite q) && writeopen q); [destruct killed; [by left|done]|].
    destruct (piperead_copy (Z.to_nat n) q) as [q' bs]. right. exists q'. split; [done|].
    intros Hq. destruct (Hc Hq) as (? & _ & _ & ? & ?). done.
  - apply harmless_bind; [auto with files|]. intros _. apply harmless_bind; [auto with files|]. intros rb.
    apply harmless_bind; [|auto with files]. destruct (0 <? fst rb); auto with files.
Qed.

Lemma filewrite_loop_harmless fuel f addr : forall i n, harmless (filewrite_loop devsw_read devsw_write fuel f addr i n).
Proof.
  induction fuel as [|fuel IH]; intros i n; cbn [filewrite_loop]; (destruct (n <=? i); [auto with files|]); [auto with files|].
  apply harmless_bind; [auto with files|]. intros ff. do 2 (apply harmless_bind; [auto with files|]; intros _).
  apply harmless_bind; [auto with files|]. intros r. apply harmless_bind; [destruct (0 <? r); auto with files|]. intros _.
  do 2 (apply harmless_bind; [auto with files|]; intros _). destruct (r <? 0); [auto with files|].
  destruct (negb _); [apply harmless_halt|apply IH].
Qed.

Lemma filewrite_harmless killed f addr n : harmless (filewrite devsw_read devsw_write killed f addr n).
Proof.
  unfold filewrite. apply harmless_bind; [auto with files|]. intros ff. destruct (negb (f_writable ff)); [auto with files|].
  destruct (f_type ff); [apply harmless_halt| |].
  - apply harmless_pipe. intros q s. unfold slice. set (src := sub_bytes _ _ _). unfold bind at 1.
    destruct (_ =? _); [|done]. cbn [ret]. pose proof (pipewrite_ok killed src q) as Hc.
    destruct (pipewrite killed q src) as [q'|q' rest|q' rest]; [| |done];
      (right; exists q'; split; [done|]; intros Hq; specialize (Hc Hq)); unfold same_ends; naive_solver.
  - apply harmless_bind; [auto with files|]. intros r. destruct (r =? E_CORRUPTED); [auto with files|].
    apply harmless_bind; [auto with files|]. intros _. apply harmless_bind; [apply filewrite_loop_harmless|auto with files].
Qed.
End Refs.

(** ** The invariant of the table *)

(** File [f] is a reference to end [w] of the pipe at [p]. *)
Definition pipe_end (t : list file) (p : Z) (w : bool) (f : nat) : Prop :=
  exists ff, t !! f = Some ff /\ 0 < f_ref ff /\ f_type ff = FD_PIPE /\ f_pipe ff = p /\ f_writable ff = w.

(** The number of handles on [f]. *)
Definition handles (f : nat) (hs : list nat) : Z := Z.of_nat (length (filter (f =.) hs)).

(** The file table and the handles on it agree. *)
Record refs_ok (t : list file) (hs : list nat) : Prop := {
  ro_ref : forall f ff, t !! f = Some ff -> f_ref ff = handles f hs;
  ro_range : forall f, f ∈ hs -> is_Some (t !! f);
  ro_none : forall f ff, t !! f = Some ff -> f_ref ff = 0 -> f_type ff = FD_NONE
}.

(** The pipes and the files that refer to them agree. *)
Record ends_ok (t : list file) (ps : gmap Z pipe) : Prop := {
  eo_open : forall p w f, pipe_end t p w f -> exists q, ps !! p = Some q /\ is_open w q = true;
  eo_one : forall p w f f', pipe_end t p w f -> pipe_end t p w f' -> f = f';
  eo_cover : forall p q w, ps !! p = Some q -> is_open w q = true -> exists f, pipe_end t p w f;
  eo_live : forall p q, ps !! p = Some q -> pipe_ok q /\ exists w, is_open w q = true
}.

(** No page of a pipe is free. *)
Definition pages_ok (end_ : Z) (m : kst) (ps : gmap Z pipe) : Prop :=
  exists l, kinv end_ m l /\ forall p q, ps !! p = Some q -> page_ok end_ p /\ p ∉ l.

Record files_ok {L} (end_ : Z) (s : kern L) (hs : list nat) : Prop := {
  fo_refs : refs_ok (ftable s) hs;
  fo_ends : ends_ok (ftable s) (k_pipes s);
  fo_pages : pages_ok end_ (k_mem s) (k_pipes s)
}.

Lemma handles_cons f g hs : handles f (g :: hs) = (if decide (f = g) then 1 else 0) + handles f hs.
Proof. unfold handles. rewrite filter_cons. case_decide; [cbn; lia|done]. Qed.

Lemma handles_perm f hs hs' : hs ≡ₚ hs' -> handles f hs = handles f hs'.
Proof. intros E. unfold handles. by rewrite E. Qed.

Lemma handles_pos f hs : 0 <= handles f hs /\ (f ∈ hs -> 0 < handles f hs) /\ (0 < handles f hs -> f ∈ hs).
Proof.
  unfold handles. split_and!; [lia| |].
  - intros Hf. assert (Hin : f ∈ filter (f =.) hs) by (by apply list_elem_of_filter).
    destruct (filter (f =.) hs); [by apply not_elem_of_nil in Hin|cbn; lia].
  - destruct (filter (f =.) hs) as [|x l] eqn:E; cbn; [lia|]. intros _.
    assert (Hx : x ∈ filter (f =.) hs) by (rewrite E; by left). apply list_elem_of_filter in Hx as [-> ?]. done.
Qed.

Lemma refs_perm t hs hs' : hs ≡ₚ hs' -> refs_ok t hs -> refs_ok t hs'.
Proof.
  intros E [R1 R2 R3]. constructor; [|intros f Hf; apply R2; by rewrite E|done].
  intros f ff Hf. rewrite <- (handles_perm f _ _ E). by apply R1.
Qed.

(** Replacing an entry: the handles change by those on it. *)
Lemma refs_insert t hs hs' f ff ff' :
  refs_ok t hs -> t !! f = Some ff -> f_ref ff' = handles f hs' ->
  (forall g, g <> f -> handles g hs' = handles g hs) -> (f_ref ff' = 0 -> f_type ff' = FD_NONE) ->
  refs_ok (<[f := ff']> t) hs'.
Proof.
  intros [R1 R2 R3] Hf Hr Hg Hn. assert (Hl : (f < length t)%nat) by (by eapply lookup_lt_Some).
  constructor.
  - intros g gg. destruct (decide (g = f)) as [->|Hne].
    + rewrite list_lookup_insert_eq by done. by intros [= <-].
    + rewrite list_lookup_insert_ne by done. rewrite Hg by done. apply R1.
  - intros g Hin. apply lookup_lt_is_Some. rewrite length_insert. destruct (decide (g = f)) as [->|Hne]; [done|].
    apply lookup_lt_is_Some, R2. apply handles_pos. rewrite <- Hg by done. by apply handles_pos.
  - intros g gg. destruct (decide (g = f)) as [->|Hne].
    + rewrite list_lookup_insert_eq by done. by intros [= <-].
    + rewrite list_lookup_insert_ne by done. apply R3.
Qed.

Lemma pipe_end_insert t f ff' p w g : is_Some (t !! f) ->
  pipe_end (<[f := ff']> t) p w g <->
  (g = f /\ 0 < f_ref ff' /\ f_type ff' = FD_PIPE /\ f_pipe ff' = p /\ f_writable ff' = w) \/ (g <> f /\ pipe_end t p w g).
Proof.
  intros Hf%lookup_lt_is_Some. unfold pipe_end. destruct (decide (g = f)) as [->|Hn].
  - rewrite list_lookup_insert_eq by done. naive_solver.
  - rewrite list_lookup_insert_ne by done. naive_solver.
Qed.

(** The ends depend only on which files refer to them. *)
Lemma ends_ext t t' ps : (forall p w f, pipe_end t' p w f <-> pipe_end t p w f) -> ends_ok t ps -> ends_ok t' ps.
Proof.
  intros E [E1 E2 E3 E4]. constructor; [|..|done].
  - intros p w f Hf%E. by eapply E1.
  - intros p w f f' Hf%E Hf'%E. by eapply E2.
  - intros p q w Hq Ho. destruct (E3 p q w Hq Ho) as [f Hf]. exists f. by apply E.
Qed.

(** A change of an entry that is no pipe before and after, or the same end. *)
Lemma ends_insert t ps f ff ff' : t !! f = Some ff -> ends_ok t ps ->
  (f_type ff <> FD_PIPE /\ f_type ff' <> FD_PIPE \/ f_type ff' = f_type ff /\ f_pipe ff' = f_pipe ff /\
   f_writable ff' = f_writable ff /\ (0 < f_ref ff' <-> 0 < f_ref ff)) ->
  ends_ok (<[f := ff']> t) ps.
Proof.
  intros Hf E Hc. apply (ends_ext t); [|done]. intros p w g. rewrite pipe_end_insert by (by eexists).
  destruct (decide (g = f)) as [->|Hn]; [|naive_solver]. unfold pipe_end. split.
  - intros [(_ & H1 & H2 & H3 & H4)|[? _]]; [|done]. exists ff.
    destruct Hc as [[_ ?]|(E1 & E2 & E3 & E4)]; [done|]. split_and!; [done|by apply E4|congruence..].
  - intros (ff0 & Hf0 & H1 & H2 & H3 & H4). rewrite Hf in Hf0. injection Hf0 as <-. left.
    destruct Hc as [[? _]|(E1 & E2 & E3 & E4)]; [done|]. split_and!; [done|by apply E4|congruence..].
Qed.

Lemma pipeclose_ends q w : is_open w q = true -> pipe_ok q ->
  match pipeclose q w with
  | Some q' => pipe_ok q' /\ is_open w q' = false /\ is_open (negb w) q' = true /\ is_open (negb w) q = true
  | None => is_open (negb w) q = false
  end.
Proof.
  intros Ho [P1 P2 P3 P4]. unfold pipeclose. destruct w; cbn in *.
  - destruct (readopen q) eqn:Er; cbn; [|done]. split_and!; [by constructor|done..].
  - destruct (writeopen q) eqn:Er; cbn; [|done]. split_and!; [by constructor|done..].
Qed.

Lemma other_end (w w' : bool) : w' <> w -> w' = negb w.
Proof. by destruct w, w'. Qed.

(** Closing an end with the only file that refers to it. *)
Lemma ends_close t ps f p w q ff' :
  ends_ok t ps -> pipe_end t p w f -> ps !! p = Some q -> is_open w q = true -> f_type ff' <> FD_PIPE ->
  ends_ok (<[f := ff']> t) (match pipeclose q w with Some q' => <[p := q']> ps | None => delete p ps end).
Proof.
  intros [E1 E2 E3 E4] Hf Hq Ho Ht. destruct (E4 p q Hq) as [Pq _]. pose proof (pipeclose_ends q w Ho Pq) as Hc.
  assert (HI : forall p' w' g, pipe_end (<[f := ff']> t) p' w' g <-> pipe_end t p' w' g /\ g <> f).
  { intros p' w' g. rewrite pipe_end_insert; [naive_solver|]. destruct Hf as (ff & ? & _). by eexists. }
  assert (Hfp : forall p' w', pipe_end t p' w' f -> p' = p /\ w' = w).
  { intros p' w' (f1 & L1 & _ & _ & <- & <-). destruct Hf as (f2 & L2 & _ & _ & <- & <-). by simplify_eq. }
  set (ps' := match pipeclose q w with Some q' => <[p := q']> ps | None => delete p ps end).
  assert (Hps : forall p', p' <> p -> ps' !! p' = ps !! p').
  { intros p' Hn. unfold ps'. destruct (pipeclose q w); [by rewrite lookup_insert_ne|by rewrite lookup_delete_ne]. }
  assert (Hp : ps' !! p = pipeclose q w).
  { unfold ps'. destruct (pipeclose q w); [by rewrite lookup_insert_eq|by rewrite lookup_delete_eq]. }
  constructor.
  - intros p' w' g [Hg Hn]%HI. destruct (decide (p' = p)) as [->|Hne]; [|rewrite Hps by done; by eapply E1].
    assert (w' = negb w) as -> by (apply other_end; intros ->; by apply Hn, (E2 p w)).
    rewrite Hp. destruct (E1 _ _ _ Hg) as (q0 & Hq0 & Ho'). rewrite Hq in Hq0. injection Hq0 as <-.
    destruct (pipeclose q w) as [q'|]; [naive_solver|congruence].
  - intros p' w' g g' [Hg _]%HI [Hg' _]%HI. by eapply E2.
  - intros p' q' w' Hq' Ho'. destruct (decide (p' = p)) as [->|Hne].
    + rewrite Hp in Hq'. rewrite Hq' in Hc. destruct Hc as (_ & Hcw & _ & Hcn).
      assert (w' = negb w) as -> by (apply other_end; intros ->; congruence).
      destruct (E3 p q (negb w) Hq Hcn) as [g Hg]. exists g. apply HI. split; [done|]. intros ->.
      destruct (Hfp _ _ Hg) as [_ Hw]. by destruct w.
    + rewrite Hps in Hq' by done. destruct (E3 p' q' w' Hq' Ho') as [g Hg]. exists g. apply HI. split; [done|].
      intros ->. by destruct (Hfp _ _ Hg).
  - intros p' q' Hq'. destruct (decide (p' = p)) as [->|Hne]; [|rewrite Hps in Hq' by done; by eapply E4].
    rewrite Hp in Hq'. rewrite Hq' in Hc. naive_solver.
Qed.

(** A new pipe with a file for each end. *)
Lemma ends_new t ps a b fa fb p q :
  ends_ok t ps -> ps !! p = None -> a <> b -> is_Some (t !! a) -> is_Some (t !! b) ->
  (forall p' w, ~ pipe_end t p' w a /\ ~ pipe_end t p' w b) ->
  0 < f_ref fa /\ f_type fa = FD_PIPE /\ f_pipe fa = p /\ f_writable fa = false ->
  0 < f_ref fb /\ f_type fb = FD_PIPE /\ f_pipe fb = p /\ f_writable fb = true ->
  pipe_ok q -> readopen q = true -> writeopen q = true ->
  ends_ok (<[b := fb]> (<[a := fa]> t)) (<[p := q]> ps).
Proof.
  intros [E1 E2 E3 E4] Hp Hab Ha Hb Hnone (A1 & A2 & A3 & A4) (B1 & B2 & B3 & B4) Pq Hr Hw.
  assert (HI : forall p' w g, pipe_end (<[b := fb]> (<[a := fa]> t)) p' w g <->
    (p' = p /\ g = if w then b else a) \/ pipe_end t p' w g).
  { intros p' w g. rewrite pipe_end_insert, pipe_end_insert.
    - destruct (Hnone p' w) as [Na Nb]. rewrite A2, A3, A4, B2, B3, B4.
      destruct (decide (g = a)); destruct (decide (g = b)); destruct w; naive_solver.
    - done.
    - apply lookup_lt_is_Some. rewrite length_insert. by apply lookup_lt_is_Some. }
  assert (Hold : forall w g, ~ pipe_end t p w g).
  { intros w g Hg. destruct (E1 _ _ _ Hg) as (? & ? & _). congruence. }
  constructor.
  - intros p' w g [[-> ->]|Hg]%HI.
    + exists q. rewrite lookup_insert_eq. split; [done|]. by destruct w.
    + assert (p' <> p) by (intros ->; by apply (Hold w g)). rewrite lookup_insert_ne by done. by eapply E1.
  - intros p' w g g' [[-> ->]|Hg]%HI [[H1 ->]|Hg']%HI; [done|by apply Hold in Hg'|subst; by apply Hold in Hg|by eapply E2].
  - intros p' q' w Hq' Ho. destruct (decide (p' = p)) as [->|Hne].
    + eexists. apply HI. by left.
    + rewrite lookup_insert_ne in Hq' by done. destruct (E3 p' q' w Hq' Ho) as [g Hg]. exists g. apply HI. by right.
  - intros p' q' Hq'. destruct (decide (p' = p)) as [->|Hne].
    + rewrite lookup_insert_eq in Hq'. injection Hq' as <-. split; [done|]. by exists true.
    + rewrite lookup_insert_ne in Hq' by done. by eapply E4.
Qed.

(** The parts of the table the invariant depends on. *)
Lemma table_ext (t t' : list file) : f_set_off 0 <$> t' = f_set_off 0 <$> t ->
  forall f, (exists ff, t !! f = Some ff /\ f_set_off 0 <$> (t' !! f) = Some (f_set_off 0 ff)) \/ t !! f = None /\ t' !! f = None.
Proof.
  intros E f. apply (f_equal (lookup f)) in E. rewrite !list_lookup_fmap in E.
  destruct (t !! f) as [ff|], (t' !! f) as [ff'|]; try done; [left|by right]. exists ff. split; [done|]. exact E.
Qed.

Lemma refs_ext t t' hs : f_set_off 0 <$> t' = f_set_off 0 <$> t -> refs_ok t hs -> refs_ok t' hs.
Proof.
  intros E0 [R1 R2 R3]. pose proof (table_ext _ _ E0) as E. constructor.
  - intros f ff' Hf. destruct (E f) as [(ff & Hff & E')|[_ ?]]; [|congruence]. rewrite Hf in E'. injection E' as ? ? ? ? ? ?.
    rewrite <- (R1 f ff Hff). done.
  - intros f Hf. destruct (E f) as [(ff & Hff & E')|[E1 _]]; [by destruct (t' !! f)|]. rewrite <- E1 in *.
    destruct (R2 f Hf) as [? ?]. congruence.
  - intros f ff' Hf H0. destruct (E f) as [(ff & Hff & E')|[_ ?]]; [|congruence]. rewrite Hf in E'.
    injection E' as ? ? ? ? ? ?. rewrite <- (R3 f ff Hff); congruence.
Qed.

Lemma pipe_end_ext t t' p w f : f_set_off 0 <$> t' = f_set_off 0 <$> t -> pipe_end t p w f -> pipe_end t' p w f.
Proof.
  intros E0 (ff & Hf & H1 & H2 & H3 & H4). pose proof (table_ext _ _ E0) as E. destruct (E f) as [(f1 & Hf1 & E')|[? _]]; [|congruence].
  rewrite Hf in Hf1. injection Hf1 as <-. destruct (t' !! f) as [ff'|] eqn:Hf'; [|done]. injection E' as ? ? ? ? ? ?.
  exists ff'. split_and!; congruence.
Qed.

Lemma files_same {L} end_ (s s' : kern L) hs : same_files s s' -> files_ok end_ s hs -> files_ok end_ s' hs.
Proof.
  intros [T P Mm] [R [E1 E2 E3 E4] (l & K & Hl)].
  assert (HP : forall p q', k_pipes s' !! p = Some q' -> exists q, k_pipes s !! p = Some q /\ pipe_ok q' /\
    forall w, is_open w q' = is_open w q).
  { intros p q' Hq'. specialize (P p). rewrite Hq' in P. destruct (k_pipes s !! p) as [q|] eqn:Hq; [|done].
    destruct (E4 p q Hq) as [Pq _]. destruct (P Pq) as (? & ? & ?). exists q. split_and!; try done. by intros []. }
  constructor.
  - by apply (refs_ext (ftable s)).
  - constructor.
    + intros p w f Hf. apply (pipe_end_ext _ (ftable s)) in Hf; [|done]. destruct (E1 _ _ _ Hf) as (q & Hq & Ho).
      specialize (P p). rewrite Hq in P. destruct (k_pipes s' !! p) as [q'|] eqn:Hq'; [|done].
      destruct (HP p q' Hq') as (q0 & Hq0 & _ & Hw). exists q'. rewrite Hw. split; [done|congruence].
    + intros p w f f' Hf Hf'. by apply (E2 p w); apply (pipe_end_ext (ftable s')).
    + intros p q' w Hq' Ho. destruct (HP p q' Hq') as (q & Hq & _ & Hw). rewrite Hw in Ho.
      destruct (E3 p q w Hq Ho) as [f Hf]. exists f. by apply (pipe_end_ext (ftable s)).
    + intros p q' Hq'. destruct (HP p q' Hq') as (q & Hq & Pq' & Hw). split; [done|].
      destruct (E4 p q Hq) as [_ [w Ho]]. exists w. by rewrite Hw.
  - exists l. rewrite Mm. split; [done|]. intros p q' Hq'. destruct (HP p q' Hq') as (q & Hq & _). by apply (Hl p q).
Qed.

(** ** The operations keep it *)

Lemma filealloc_scan_spec t : forall k,
  match filealloc_scan k t with
  | Some f => exists ff, (k <= f)%nat /\ t !! (f - k)%nat = Some ff /\ f_ref ff = 0
  | None => Forall (fun ff => f_ref ff <> 0) t
  end.
Proof.
  induction t as [|ff t IH]; intros k; cbn; [constructor|]. destruct (Z.eqb_spec (f_ref ff) 0) as [E|E].
  - exists ff. by rewrite Nat.sub_diag.
  - specialize (IH (S k)). destruct (filealloc_scan (S k) t) as [f|]; [|by constructor].
    destruct IH as (g & Hk & Hg & Hr). exists g. split_and!; [lia| |done]. by replace (f - k)%nat with (S (f - S k)) by lia.
Qed.

Section Operations.
Context {L : Type} `{BlockOps L}.
Context (devsw_read : Z -> option (nat -> Z -> M (fsst L) (Z * list Z))).
Context (devsw_write : Z -> option (nat -> list Z -> Z -> M (fsst L) Z)).
Context (end_ : Z).
Implicit Types (s : kern L).

Lemma get_file_Ok f ff s : ftable s !! f = Some ff -> get_file f s = Ok ff s.
Proof. intros Hf. unfold get_file, bind, gets. by rewrite Hf. Qed.

Lemma upd_file_Ok f ff g s : ftable s !! f = Some ff ->
  upd_file f g s = Ok tt (set_ftable (<[f := g ff]> (ftable s)) s).
Proof. intros Hf. unfold upd_file, modify. by rewrite (list_alter_lookup _ _ _ ff). Qed.

Lemma held_file s hs f : files_ok end_ s hs -> f ∈ hs ->
  exists ff, ftable s !! f = Some ff /\ f_ref ff = handles f hs /\ 0 < f_ref ff.
Proof.
  intros [[R1 R2 R3] _ _] Hf. destruct (R2 f Hf) as [ff Hff]. exists ff. rewrite (R1 f ff Hff).
  split_and!; [done..|]. by apply handles_pos.
Qed.

Lemma files_insert s hs hs' f ff ff' :
  files_ok end_ s hs -> ftable s !! f = Some ff -> f_ref ff' = handles f hs' ->
  (forall g, g <> f -> handles g hs' = handles g hs) -> (f_ref ff' = 0 -> f_type ff' = FD_NONE) ->
  (f_type ff <> FD_PIPE /\ f_type ff' <> FD_PIPE \/ f_type ff' = f_type ff /\ f_pipe ff' = f_pipe ff /\
   f_writable ff' = f_writable ff /\ (0 < f_ref ff' <-> 0 < f_ref ff)) ->
  files_ok end_ (set_ftable (<[f := ff']> (ftable s)) s) hs'.
Proof.
  intros [R E G] Hf Hr Hg Hn Hc. constructor; [|by apply (ends_insert _ _ _ ff)|done]. by apply (refs_insert _ hs _ _ ff).
Qed.

Lemma handles_other f g hs : g <> f -> handles g (f :: hs) = handles g hs.
Proof. intros Hn. rewrite handles_cons, decide_False by done. lia. Qed.

Lemma handles_same f hs : handles f (f :: hs) = handles f hs + 1.
Proof. rewrite handles_cons, decide_True by done. lia. Qed.

Lemma filealloc_ok s hs : files_ok end_ s hs ->
  match filealloc s with
  | Ok (Some f) s' => files_ok end_ s' (f :: hs) /\ (f ∉ hs) /\
      (exists ff, ftable s' !! f = Some ff /\ f_ref ff = 1 /\ f_type ff = FD_NONE) /\ k_mem s' = k_mem s /\ k_pipes s' = k_pipes s
  | Ok None s' => s' = s
  | Stop _ _ => False
  end.
Proof.
  intros Hok. unfold filealloc, bind at 1, gets. pose proof (filealloc_scan_spec (ftable s) 0) as Hs.
  destruct (filealloc_scan 0 (ftable s)) as [f|]; [|done]. destruct Hs as (ff & _ & Hf & Hr). rewrite Nat.sub_0_r in Hf.
  erewrite bind_Ok by (by apply upd_file_Ok). cbn. pose proof (fo_refs _ _ _ Hok) as [R1 R2 R3].
  assert (Hh : handles f hs = 0) by (by rewrite <- (R1 f ff Hf)). pose proof (R3 f ff Hf Hr) as Ht.
  assert (Hl : (f < length (ftable s))%nat) by (by eapply lookup_lt_Some).
  split_and!; try done.
  - apply (files_insert s hs _ f ff); try done; [by rewrite handles_same, Hh|intros; by apply handles_other|].
    left. cbn. by rewrite Ht.
  - intros Hin%handles_pos. lia.
  - exists (f_set_ref 1 ff). rewrite list_lookup_insert_eq by done. done.
Qed.

Lemma filedup_ok s hs f : files_ok end_ s hs -> f ∈ hs ->
  exists s', filedup f s = Ok f s' /\ files_ok end_ s' (f :: hs).
Proof.
  intros Hok Hf. destruct (held_file _ _ _ Hok Hf) as (ff & Hff & Hr & Hp). unfold filedup.
  erewrite bind_Ok by (by apply get_file_Ok). rewrite (proj2 (Z.ltb_ge _ _)) by lia.
  erewrite bind_Ok by (by apply upd_file_Ok). eexists. split; [done|].
  apply (files_insert s hs _ f ff); try done; cbn.
  - by rewrite handles_same, Hr.
  - intros. by apply handles_other.
  - lia.
  - right. split_and!; [done..|]. cbn. lia.
Qed.

Lemma pipeclose_at_ok s hs f ff :
  files_ok end_ s (f :: hs) -> ftable s !! f = Some ff -> f_type ff = FD_PIPE -> f ∉ hs ->
  exists s', pipeclose_at end_ (f_pipe ff) (f_writable ff)
    (set_ftable (<[f := f_set_type FD_NONE (f_set_ref 0 ff)]> (ftable s)) s) = Ok tt s' /\ files_ok end_ s' hs /\
    forall q, k_pipes s !! f_pipe ff = Some q -> k_pipes s' !! f_pipe ff = pipeclose q (f_writable ff).
Proof.
  intros Hok Hf Ht Hn. destruct (held_file _ _ f Hok) as (ff0 & Hf0 & Hr & Hp); [by left|].
  rewrite Hf in Hf0. injection Hf0 as <-. destruct Hok as [R E (l & K & Hl)].
  assert (He : pipe_end (ftable s) (f_pipe ff) (f_writable ff) f) by (by exists ff).
  destruct (eo_open _ _ E _ _ _ He) as (q & Hq & Ho). destruct (Hl _ _ Hq) as [Hpg Hnl].
  pose proof (ends_close _ _ f _ _ q (f_set_type FD_NONE (f_set_ref 0 ff)) E He Hq Ho) as EC.
  assert (R' : refs_ok (<[f := f_set_type FD_NONE (f_set_ref 0 ff)]> (ftable s)) hs).
  { apply (refs_insert _ (f :: hs) _ _ ff); try done.
    - cbn. symmetry. pose proof (handles_pos f hs) as (? & _ & Hin). destruct (Z.lt_trichotomy (handles f hs) 0) as [?|[?|?]];
        [lia|done|]. exfalso. by apply Hn, Hin.
    - intros g Hg. symmetry. by apply handles_other. }
  unfold pipeclose_at, get_pipe, bind, gets. cbn. rewrite Hq. cbn.
  destruct (pipeclose q (f_writable ff)) as [q'|] eqn:Eq'.
  - eexists. split_and!; [reflexivity| |intros q0 Hq0; cbn; rewrite lookup_insert_eq, <- Eq'; congruence].
    constructor; cbn; [done|by apply EC|]. exists l. split; [done|].
    intros p q2 Hq2. destruct (decide (p = f_pipe ff)) as [->|Hne]; [done|].
    rewrite lookup_insert_ne in Hq2 by done. by apply (Hl p q2).
  - cbn. destruct (kfree_Ok end_ (k_mem s) l (f_pipe ff) K Hpg Hnl) as (m' & Rk & K' & _).
    unfold in_mem. cbn. rewrite Rk.
    eexists. split_and!; [reflexivity| |intros q0 Hq0; cbn; rewrite lookup_delete_eq, <- Eq'; congruence].
    constructor; cbn; [done|by apply EC|].
    exists (f_pipe ff :: l). split; [done|]. intros p q2 [Hne Hq2]%lookup_delete_Some.
    destruct (Hl p q2 Hq2) as [? ?]. split; [done|]. rewrite not_elem_of_cons. done.
Qed.

(** Closing a handle.  Only the release of an inode can stop. *)
Lemma fileclose_ok s hs f : files_ok end_ s (f :: hs) ->
  match fileclose devsw_read end_ f s with
  | Ok _ s' => files_ok end_ s' hs
  | Stop _ _ => exists ff, ftable s !! f = Some ff /\ f_type ff = FD_INODE /\ f ∉ hs
  end.
Proof.
  intros Hok. destruct (held_file _ _ f Hok) as (ff & Hf & Hr & Hp); [by left|]. unfold fileclose.
  erewrite bind_Ok by (by apply get_file_Ok). rewrite (proj2 (Z.ltb_ge _ _)) by lia.
  erewrite bind_Ok by (by apply upd_file_Ok). rewrite handles_same in Hr.
  assert (Hl : (f < length (ftable s))%nat) by (by eapply lookup_lt_Some).
  destruct (Z.ltb_spec 0 (f_ref ff - 1)) as [Hm|Hm].
  - apply (files_insert s (f :: hs) _ f ff); try done; cbn.
    + lia.
    + intros g Hg. symmetry. by apply handles_other.
    + lia.
    + right. split_and!; [done..|]. cbn. lia.
  - erewrite bind_Ok by (apply upd_file_Ok; cbn; by rewrite list_lookup_insert_eq).
    erewrite bind_Ok by (apply upd_file_Ok; cbn; rewrite list_lookup_insert_eq; [done|by rewrite length_insert]).
    cbn. rewrite !list_insert_insert_eq.
    assert (Hn : f ∉ hs) by (intros Hin%handles_pos; lia).
    unfold filerelease. destruct (f_type ff) eqn:Ht.
    + apply (files_insert s (f :: hs) _ f ff); try done; cbn.
      * pose proof (handles_pos f hs). lia.
      * intros g Hg. symmetry. by apply handles_other.
      * left. by rewrite Ht.
    + destruct (pipeclose_at_ok s hs f ff Hok Hf Ht Hn) as (s' & R & Hok' & _). unfold set_ftable in R. cbn in R.
      change (f_set_type FD_NONE (f_set_ref 0 (f_set_ref (f_ref ff - 1) ff))) with (f_set_type FD_NONE (f_set_ref 0 ff)).
      unfold set_ftable. cbn. by rewrite R.
    + match goal with |- match ?c ?s1 with _ => _ end => assert (Hh : harmless c) by auto with files; destruct (c s1) as [[] s'|] eqn:Ec end;
        [|by eauto].
      apply Hh in Ec. eapply files_same; [exact Ec|]. apply (files_insert s (f :: hs) _ f ff); try done; cbn.
      * pose proof (handles_pos f hs). lia.
      * intros g Hg. symmetry. by apply handles_other.
      * left. by rewrite Ht.
Qed.

Lemma pipe_bytes_length m p : length (pipe_bytes m p) = Z.to_nat PIPESIZE.
Proof. unfold pipe_bytes. by rewrite length_fmap, length_seqZ. Qed.

(** Closing a file of [pipealloc] that refers to nothing yet. *)
Lemma fileclose_fresh s hs f ff : files_ok end_ s (f :: hs) -> ftable s !! f = Some ff -> f_type ff = FD_NONE ->
  exists s', fileclose devsw_read end_ f s = Ok tt s' /\ files_ok end_ s' hs /\
    forall g, g <> f -> ftable s' !! g = ftable s !! g.
Proof.
  intros Hok Hf Ht. pose proof (fileclose_ok s hs f Hok) as HC.
  assert (HG : forall a s', fileclose devsw_read end_ f s = Ok a s' -> forall g, g <> f -> ftable s' !! g = ftable s !! g).
  { intros a s' E g Hg. revert E. unfold fileclose. erewrite bind_Ok by (by apply get_file_Ok).
    destruct (f_ref ff <? 1); [done|]. unfold bind, upd_file, modify, filerelease. rewrite Ht.
    destruct (0 <? f_ref ff - 1); intros [= <- <-]; cbn; rewrite ?list_lookup_alter_ne by done; done. }
  destruct (fileclose devsw_read end_ f s) as [[] s'|]; [eauto|]. destruct HC as (f0 & Hf0 & Ht0 & _). congruence.
Qed.

(** The files and the memory after the page of the pipe was taken. *)
Lemma pipealloc_new s hs a b fa fb p l m :
  files_ok end_ s (b :: a :: hs) -> a <> b ->
  ftable s !! a = Some fa -> f_type fa = FD_NONE -> ftable s !! b = Some fb -> f_type fb = FD_NONE ->
  kinv end_ m l -> page_ok end_ p -> p ∉ l -> k_pipes s !! p = None ->
  (forall p' q, k_pipes s !! p' = Some q -> page_ok end_ p' /\ p' ∉ l) ->
  files_ok end_ (Kern (k_fs s)
      (<[b := File FD_PIPE (f_ref fb) false true p (f_ip fb) (f_off fb)]>
         (<[a := File FD_PIPE (f_ref fa) true false p (f_ip fa) (f_off fa)]> (ftable s)))
      (<[p := pipeinit (pipe_bytes (kmem m) p)]> (k_pipes s)) m) (a :: b :: hs).
Proof.
  intros Hok Hab Ha Ta Hb Tb K Hp Hpl Hnone Hps.
  destruct (held_file _ _ a Hok) as (f1 & Hf1 & Ra & Pa); [right; by left|]. rewrite Ha in Hf1. injection Hf1 as <-.
  destruct (held_file _ _ b Hok) as (f2 & Hf2 & Rb & Pb); [by left|]. rewrite Hb in Hf2. injection Hf2 as <-.
  destruct Hok as [R E _]. constructor; cbn.
  - apply (refs_perm _ (b :: a :: hs)); [apply Permutation_swap|].
    apply (refs_insert _ (b :: a :: hs) _ _ fb); try done; [|by rewrite list_lookup_insert_ne|cbn; lia].
    apply (refs_insert _ (b :: a :: hs) _ _ fa); try done. cbn. lia.
  - pose proof (pipeinit_ok _ (pipe_bytes_length (kmem m) p)) as [Hq _]. apply ends_new; cbn; try done.
    intros p' w. unfold pipe_end. rewrite Ha, Hb. split; intros (f0 & [= <-] & _ & Ht & _); congruence.
  - exists l. split; [done|]. intros p' q Hq. destruct (decide (p' = p)) as [->|Hne]; [done|].
    rewrite lookup_insert_ne in Hq by done. by apply (Hps p' q).
Qed.

Lemma pipealloc_ok s hs : files_ok end_ s hs ->
  match pipealloc devsw_read end_ s with
  | Ok (Some (a, b)) s' => files_ok end_ s' (a :: b :: hs) /\ (a ∉ hs) /\ (b ∉ a :: hs)
  | Ok None s' => files_ok end_ s' hs
  | Stop _ _ => False
  end.
Proof.
  intros Hok. unfold pipealloc. unfold bind at 1. pose proof (filealloc_ok s hs Hok) as H1.
  destruct (filealloc s) as [[a|] s1|]; [|cbn; by subst|done].
  destruct H1 as (Hok1 & Ha & (fa & Hfa & Ra & Ta) & M1 & P1).
  unfold bind at 1. pose proof (filealloc_ok s1 _ Hok1) as H2.
  destruct (filealloc s1) as [[b|] s2|] eqn:E2; [| |done].
  2: { subst s2. unfold pipealloc_bad. destruct (fileclose_fresh s1 hs a fa Hok1 Hfa Ta) as (s3 & R3 & Hok3 & _).
       erewrite bind_Ok by exact R3. done. }
  destruct H2 as (Hok2 & Hb & (fb & Hfb & Rb & Tb) & M2 & P2).
  assert (Hab : a <> b) by (intros ->; apply Hb; by left).
  assert (Hfa2 : exists fa', ftable s2 !! a = Some fa' /\ f_type fa' = FD_NONE).
  { exists fa. split; [|done]. revert E2. unfold filealloc, bind at 1, gets.
    destruct (filealloc_scan 0 (ftable s1)) as [f|]; [|done]. intros [= -> <-]. cbn. by rewrite list_lookup_alter_ne. }
  destruct Hfa2 as (fa' & Hfa2 & Ta').
  destruct (fo_pages _ _ _ Hok2) as (l & K & Hps). destruct (kalloc_Ok end_ (k_mem s2) l K) as [Hk HK].
  unfold bind at 1, in_mem. rewrite Hk. destruct l as [|p l].
  - cbn. destruct (fileclose_fresh s2 (b :: hs) a fa') as (s3 & R3 & Hok3 & Hoth); [|done..|].
    { destruct Hok2 as [R2 E2' G2]. constructor; try done. apply (refs_perm _ (b :: a :: hs)); [apply Permutation_swap|done]. }
    destruct (fileclose_fresh s3 hs b fb) as (s4 & R4 & Hok4 & _); [done|by rewrite Hoth|done|].
    unfold pipealloc_bad. destruct s2 as [fs2 t2 p2 m2]. cbn in *. erewrite bind_Ok by exact R3. erewrite bind_Ok by exact R4. done.
  - pose proof (ki_pages _ _ _ K) as HP. rewrite Forall_cons in HP. destruct HP as [Hp _].
    pose proof (ki_nodup _ _ _ K) as HN. apply NoDup_cons in HN as [Hpl _].
    rewrite (proj2 (Z.eqb_neq p 0)) by (by destruct Hp as (_ & _ & _ & ?)). unfold bind, gets, put_pipe, upd_file, modify, ret, set_ftable, set_pipes. cbn.
    rewrite (list_alter_lookup _ a _ fa') by done.
    rewrite (list_alter_lookup _ b _ fb) by (by rewrite list_lookup_insert_ne). split_and!; [|done|done].
    apply (pipealloc_new s2 hs a b fa' fb p l (Kst (kmem (k_mem s2)) (read32 (kmem (k_mem s2)) p) (use_lock (k_mem s2))) Hok2); try done.
    + destruct (k_pipes s2 !! p) as [q|] eqn:Hq; [|done]. destruct (Hps p q Hq) as [_ Hn]. exfalso. apply Hn. by left.
    + intros p' q Hq. destruct (Hps p' q Hq) as [? Hn]. split; [done|]. intros Hin. apply Hn. by right.
Qed.

(** ** Runs of the kernel *)

(** What the kernel does with open files, and the handles it has: descriptors of
    processes and files it is about to hand out.  The last rule is the rest of
    the kernel, which uses the file system and pages it allocated itself. *)
Inductive fstep : kern L * list nat -> kern L * list nat -> Prop :=
| fs_alloc s s' f hs : filealloc s = Ok (Some f) s' -> fstep (s, hs) (s', f :: hs)
| fs_dup s s' f hs : f ∈ hs -> filedup f s = Ok f s' -> fstep (s, hs) (s', f :: hs)
| fs_close s s' f hs hs' : hs ≡ₚ f :: hs' -> fileclose devsw_read end_ f s = Ok tt s' -> fstep (s, hs) (s', hs')
| fs_pipe s s' a b hs : pipealloc devsw_read end_ s = Ok (Some (a, b)) s' -> fstep (s, hs) (s', a :: b :: hs)
| fs_nopipe s s' hs : pipealloc devsw_read end_ s = Ok None s' -> fstep (s, hs) (s', hs)
| fs_open s f ff r w ip hs : f ∈ hs -> ftable s !! f = Some ff -> f_type ff = FD_NONE ->
    fstep (s, hs) (set_ftable (<[f := File FD_INODE (f_ref ff) r w (f_pipe ff) ip 0]> (ftable s)) s, hs)
| fs_read s s' killed f n res hs : f ∈ hs -> fileread devsw_read devsw_write killed f n s = Ok res s' ->
    fstep (s, hs) (s', hs)
| fs_write s s' killed f addr n res hs : f ∈ hs -> filewrite devsw_read devsw_write killed f addr n s = Ok res s' ->
    fstep (s, hs) (s', hs)
| fs_other s fs m hs : pages_ok end_ m (k_pipes s) -> fstep (s, hs) (Kern fs (ftable s) (k_pipes s) m, hs).

Lemma fstep_ok x y : fstep x y -> files_ok end_ (fst x) (snd x) -> files_ok end_ (fst y) (snd y).
Proof.
  intros Hst Hok. destruct Hst as [s s' f hs R|s s' f hs Hf R|s s' f hs hs' E R|s s' a b hs R|s s' hs R|
    s f ff r w ip hs Hf Hff Ht|s s' killed f n res hs Hf R|s s' killed f addr n res hs Hf R|s fs m hs G]; cbn [fst snd] in *.
  - pose proof (filealloc_ok s hs Hok) as HR. rewrite R in HR. by destruct HR.
  - destruct (filedup_ok s hs f Hok Hf) as (s1 & R1 & Hok1). rewrite R in R1. injection R1 as ->. done.
  - assert (Hok' : files_ok end_ s (f :: hs')) by (destruct Hok; constructor; try done; by eapply refs_perm).
    pose proof (fileclose_ok s hs' f Hok') as HR. by rewrite R in HR.
  - pose proof (pipealloc_ok s hs Hok) as HR. rewrite R in HR. by destruct HR.
  - pose proof (pipealloc_ok s hs Hok) as HR. by rewrite R in HR.
  - destruct (held_file _ _ _ Hok Hf) as (f0 & Hf0 & Hr & Hp). rewrite Hff in Hf0. injection Hf0 as <-.
    apply (files_insert s hs _ f ff); try done; cbn; [lia|]. left. by rewrite Ht.
  - apply fileread_harmless in R. by eapply files_same.
  - apply filewrite_harmless in R. by eapply files_same.
  - by destruct Hok.
Qed.

Lemma fileclose_pipe s hs f ff q :
  files_ok end_ s hs -> f ∈ hs -> ftable s !! f = Some ff -> f_type ff = FD_PIPE -> k_pipes s !! f_pipe ff = Some q ->
  exists s', fileclose devsw_read end_ f s = Ok tt s' /\
    k_pipes s' !! f_pipe ff = if handles f hs =? 1 then pipeclose q (f_writable ff) else Some q.
Proof.
  intros Hok Hf Hff Ht Hq. destruct (held_file _ _ _ Hok Hf) as (f0 & Hf0 & Hr & Hp). rewrite Hff in Hf0. injection Hf0 as <-.
  apply list_elem_of_split in Hf as Hs. destruct Hs as (h1 & h2 & ->).
  assert (E : h1 ++ f :: h2 ≡ₚ f :: (h1 ++ h2)) by (by rewrite Permutation_middle).
  assert (Hok' : files_ok end_ s (f :: (h1 ++ h2))) by (destruct Hok; constructor; try done; by eapply refs_perm).
  pose proof (handles_perm f _ _ E) as Hh. rewrite handles_same in Hh.
  unfold fileclose. erewrite bind_Ok by (by apply get_file_Ok). rewrite (proj2 (Z.ltb_ge _ _)) by lia.
  erewrite bind_Ok by (by apply upd_file_Ok).
  assert (Hl : (f < length (ftable s))%nat) by (by eapply lookup_lt_Some).
  destruct (Z.ltb_spec 0 (f_ref ff - 1)) as [Hm|Hm].
  - rewrite (proj2 (Z.eqb_neq _ _)) by lia. eexists. split; [reflexivity|done].
  - rewrite (proj2 (Z.eqb_eq _ _)) by lia.
    erewrite bind_Ok by (apply upd_file_Ok; cbn; by rewrite list_lookup_insert_eq).
    erewrite bind_Ok by (apply upd_file_Ok; cbn; rewrite list_lookup_insert_eq; [done|by rewrite length_insert]).
    cbn. rewrite !list_insert_insert_eq. unfold filerelease. rewrite Ht.
    assert (Hn : f ∉ h1 ++ h2) by (intros Hin%handles_pos; lia).
    destruct (pipeclose_at_ok s _ f ff Hok' Hff Ht Hn) as (s' & R & _ & HP). exists s'. split; [exact R|by apply HP].
Qed.

(** The table after boot. *)
Definition no_files (fs : fsst L) (m : kst) (k : nat) : kern L :=
  Kern fs (replicate k (File FD_NONE 0 false false 0 0 0)) ∅ m.

Lemma no_files_ok fs m k l : kinv end_ m l -> files_ok end_ (no_files fs m k) [].
Proof.
  intros K. assert (Hz : forall f ff, ftable (no_files fs m k) !! f = Some ff -> ff = File FD_NONE 0 false false 0 0 0).
  { intros f ff Hf. by apply lookup_replicate in Hf as [-> _]. }
  constructor.
  - constructor; [by intros f ff ->%Hz| |by intros f ff ->%Hz]. intros f Hf. by apply not_elem_of_nil in Hf.
  - constructor; cbn; try (intros *; rewrite ?lookup_empty; done).
    + intros p w f (ff & ->%Hz & ? & _). done.
    + intros p w f f' (ff & ->%Hz & ? & _). done.
  - exists l. split; [done|]. intros p q Hq. cbn in Hq. by rewrite lookup_empty in Hq.
Qed.

Lemma frun_ok fs m k l s hs : kinv end_ m l -> rtc fstep (no_files fs m k, []) (s, hs) -> files_ok end_ s hs.
Proof.
  intros K Hr. assert (Hg : forall x y, rtc fstep x y -> files_ok end_ (fst x) (snd x) -> files_ok end_ (fst y) (snd y)).
  { intros x y Hxy. induction Hxy as [|x y z H1 _ IH]; [done|]. intros Hx. apply IH. by eapply fstep_ok. }
  apply (Hg _ _ Hr). by eapply no_files_ok.
Qed.

(** Reference counts count.  From boot on, whatever the kernel does with
    files, the count in a table entry is the number of handles on it; [filealloc]
    hands out an entry nobody has a handle on and fails only when every entry
    has one; and [filedup] of a handle never panics. *)
Lemma file_refs_count fs m k l s hs :
  kinv end_ m l -> rtc fstep (no_files fs m k, []) (s, hs) ->
  (forall f ff, ftable s !! f = Some ff -> f_ref ff = handles f hs) /\
  (exists r s', filealloc s = Ok r s' /\
     match r with
     | Some f => (f ∉ hs) /\ is_Some (ftable s !! f)
     | None => forall f, is_Some (ftable s !! f) -> f ∈ hs
     end) /\
  (forall f, f ∈ hs -> exists s', filedup f s = Ok f s').
Proof.
  intros K Hr. pose proof (frun_ok _ _ _ _ _ _ K Hr) as Hok. pose proof (fo_refs _ _ _ Hok) as [R1 R2 R3].
  split_and!; [done| |intros f Hf; destruct (filedup_ok s hs f Hok Hf) as (s' & ? & _); eauto].
  unfold filealloc, bind at 1, gets. pose proof (filealloc_scan_spec (ftable s) 0) as Hs.
  destruct (filealloc_scan 0 (ftable s)) as [f|].
  - destruct Hs as (ff & _ & Hf & H0). rewrite Nat.sub_0_r in Hf. eexists _, _. split; [reflexivity|].
    split; [|by eexists]. intros Hin%handles_pos. rewrite <- (R1 f ff Hf) in Hin. lia.
  - eexists _, _. split; [reflexivity|]. intros f [ff Hf]. apply handles_pos. rewrite <- (R1 f ff Hf).
    rewrite Forall_forall in Hs. assert (f_ref ff <> 0) by (eapply Hs, list_elem_of_lookup_2; exact Hf).
    pose proof (handles_pos f hs). rewrite (R1 f ff Hf) in *. lia.
Qed.

(** C31: a pipe lives as long as its ends.  From boot on, a handle on a pipe refers
    to a page that is allocated to a pipe and not on the free list, and whose
    end is open; there is no other file for that end; and closing the handle
    succeeds, and frees the page exactly when it is the last handle on either
    end. *)
Theorem file_pipe_live fs m k l s hs f ff :
  kinv end_ m l -> rtc fstep (no_files fs m k, []) (s, hs) ->
  f ∈ hs -> ftable s !! f = Some ff -> f_type ff = FD_PIPE ->
  (exists q free, k_pipes s !! f_pipe ff = Some q /\ is_open (f_writable ff) q = true /\
     kinv end_ (k_mem s) free /\ f_pipe ff ∉ free) /\
  (forall g, pipe_end (ftable s) (f_pipe ff) (f_writable ff) g -> g = f) /\
  exists s', fileclose devsw_read end_ f s = Ok tt s' /\
    (k_pipes s' !! f_pipe ff = None <->
     handles f hs = 1 /\ forall g, pipe_end (ftable s) (f_pipe ff) (negb (f_writable ff)) g -> False).
Proof.
  intros K Hr Hf Hff Ht. pose proof (frun_ok _ _ _ _ _ _ K Hr) as Hok.
  destruct (held_file _ _ _ Hok Hf) as (f0 & Hf0 & Hrf & Hp). rewrite Hff in Hf0. injection Hf0 as <-.
  assert (He : pipe_end (ftable s) (f_pipe ff) (f_writable ff) f) by (by exists ff).
  destruct (eo_open _ _ (fo_ends _ _ _ Hok) _ _ _ He) as (q & Hq & Ho).
  destruct (fo_pages _ _ _ Hok) as (free & KF & Hfree). split_and!.
  - exists q, free. split_and!; try done. by apply (Hfree _ q).
  - intros g Hg. by eapply (eo_one _ _ (fo_ends _ _ _ Hok)).
  - destruct (fileclose_pipe s hs f ff q Hok Hf Hff Ht Hq) as (s' & R & Hs'). exists s'. split; [exact R|]. rewrite Hs'.
    destruct (eo_live _ _ (fo_ends _ _ _ Hok) _ _ Hq) as [Pq _]. pose proof (pipeclose_ends q _ Ho Pq) as Hc.
    destruct (Z.eqb_spec (handles f hs) 1) as [H1|H1]; [|split; [done|by intros [? _]]].
    destruct (pipeclose q (f_writable ff)) as [q'|].
    + split; [done|]. intros [_ Hno]. exfalso. destruct Hc as (_ & _ & _ & Hc).
      destruct (eo_cover _ _ (fo_ends _ _ _ Hok) _ _ _ Hq Hc) as [g Hg]. by apply (Hno g).
    + split; [|done]. intros _. split; [done|]. intros g Hg.
      destruct (eo_open _ _ (fo_ends _ _ _ Hok) _ _ _ Hg) as (q2 & Hq2 & Ho2). congruence.
Qed.

End Operations.
