(* ===== verification/FileIo.v ===== *)
(** * FileIo: reading and writing open files (file.c over fs.c and log.c)

    [fileread] and [filewrite] of a plain file, from the open file down to the
    committed transactions: the theorems on inodes, the log and the file table
    put together. *)

From S2P Require Import Prelude Layout Ide Bio Log Block FsBlock FsInode FsFile FsWrite FsLock FsDemo.
From S2P Require Import Kalloc Pipe File.
Open Scope Z_scope.
Open Scope xv6_scope.

(** ** Two writes in a row *)

Lemma splice_splice off (a b l : list Z) : (off <= length l)%nat ->
  splice (off + length a) b (splice off a l) = splice off (a ++ b) l.
Proof.
  intros Ho. unfold splice. rewrite length_app.
  assert (Ht : length (take off l) = off) by (rewrite length_take; lia).
  rewrite take_app. rewrite (take_ge (take off l)) by lia. rewrite Ht.
  replace (off + length a - off)%nat with (length a) by lia. rewrite take_app_length.
  rewrite drop_app. rewrite (drop_ge (take off l)) by lia. rewrite Ht.
  replace (off + length a + length b - off)%nat with (length a + length b)%nat by lia.
  rewrite drop_app. rewrite (drop_ge a) by lia. cbn.
  replace (length a + length b - length a)%nat with (length b) by lia.
  rewrite drop_drop, <- !app_assoc. do 3 f_equal. f_equal. lia.
Qed.

Lemma take_drop_join (n1 n2 : nat) (l : list Z) : take n1 l ++ take n2 (drop n1 l) = take (n1 + n2) l.
Proof. by rewrite take_take_drop. Qed.

(** ** Blocks below the log *)

(** A view that agrees below the log: what a commit leaves. *)
Definition below (v v' : Z -> list Z) : Prop := forall x, 0 <= x < LOGSTART -> v' x = v x.

Section Below.
Context (sb : superblock) (v v' : Z -> list Z) (d : dinode).
Hypothesis Hb : below v v'.
Hypothesis Hbm : 0 < bm sb < LOGSTART.
Hypothesis F : file_map sb v d.

Lemma in_file_below a : in_file v d a -> 0 <= a < LOGSTART.
Proof. intros Ha. apply (data_range sb v a); [lia|]. by apply F. Qed.

Lemma file_addr_below bn : file_addr v' d bn = file_addr v d bn.
Proof.
  unfold file_addr. destruct (bn <? NDIRECT); [done|]. destruct (Z.eqb_spec (direct d NDIRECT) 0) as [E|E]; [done|].
  rewrite Hb; [done|]. apply in_file_below. split; [done|by left].
Qed.

Lemma file_map_below : file_map sb v' d.
Proof.
  constructor; try apply F.
  - intros a [Ha Hin]. assert (Hv : in_file v d a).
    { split; [done|]. destruct Hin as [?|(bn & Hbn & ->)]; [by left|right]. exists bn. by rewrite file_addr_below. }
    destruct (fo_data _ _ _ F a Hv) as [Hr Hu]. split; [done|]. by rewrite Hb by lia.
  - intros b1 b2 H1 H2. rewrite !file_addr_below. by apply F.
  - intros bn Hn. rewrite file_addr_below. by apply F.
Qed.

Lemma file_block_below bn : 0 <= bn < MAXFILE -> file_block v' d bn = file_block v d bn.
Proof.
  intros Hn. unfold file_block. rewrite file_addr_below. destruct (Z.eqb_spec (file_addr v d bn) 0) as [E|E]; [done|].
  apply Hb, in_file_below. split; [done|right]. by exists bn.
Qed.

Lemma contents_below : di_size d <= MAXFILE * BSIZE -> contents v' d = contents v d.
Proof.
  intros Hs. apply list_fmap_ext. intros k x [-> Hk]%lookup_seqZ. unfold file_byte. rewrite file_block_below; [done|].
  split; [apply Z.div_pos; klia|apply Z.div_lt_upper_bound; klia].
Qed.
End Below.

Lemma file_ok_below sb v v' d : below v v' -> 0 < bm sb < LOGSTART -> file_ok sb v d -> file_ok sb v' d.
Proof.
  intros Hb Hbm F. constructor; [by eapply file_map_below; [..|apply F]|apply F|].
  intros bn H0 Hs. rewrite (file_addr_below sb v v' d Hb Hbm F). by apply F.
Qed.

Lemma geometry_below v v' sb : below v v' -> fs_geometry v sb -> fs_geometry v' sb.
Proof. intros Hb [G1 G2 G3]. constructor; try done. rewrite Hb by (unfold LOGSTART; klia). done. Qed.

Section FileIo.
Context {L : Type} {HO : BlockOps L} {HV : BlockView L} {HL : BlockLayer L}.
Context (devsw_read : Z -> option (nat -> Z -> M (fsst L) (Z * list Z))).
Context (devsw_write : Z -> option (nat -> list Z -> Z -> M (fsst L) Z)).
Implicit Types s : fsst L.

(** A plain file in the inode cache, between two system calls: no transaction is
    open, everything is committed, and [n] blocks are free. *)
Record at_rest (sb : superblock) (s : fsst L) (ip : nat) (i : inode) (n : nat) : Prop := {
  ar_inv : bl_inv (low s);
  ar_out : bl_outstanding (low s) = 0;
  ar_trans : bl_trans (low s) = [];
  ar_held : bl_held (low s) = ∅;
  ar_geo : fs_geometry (bl_view (low s)) sb;
  ar_avail : avail sb (bl_view (low s)) n;
  ar_inode : icache s !! ip = Some i;
  ar_dev : i_dev i = ROOTDEV;
  ar_inum : 0 <= i_inum i < sb_ninodes sb;
  ar_ref : 1 <= i_ref i;
  ar_flags : i_flags i = I_VALID;
  ar_type : i_type i <> T_DEV /\ i_type i <> T_DITTO;
  ar_children : i_child1 i = 0 /\ i_child2 i = 0;
  ar_file : file_ok sb (bl_view (low s)) (i_d i);
  ar_sum : i_checksum i = checksum_of (contents (bl_view (low s)) (i_d i));
  ar_disk : get_dinode (bl_view (low s) (IBLOCK (i_inum i))) (i_inum i) = i_d i
}.

Definition busy (i : inode) : inode := i_set_flags (Z.lor I_VALID I_BUSY) i.
Definition with_entry s (ip : nat) (i : inode) : fsst L := set_icache (<[ip := i]> (icache s)) s.

(** A valid inode is locked without reading it. *)
Lemma ilock_valid s ip i : icache s !! ip = Some i -> 1 <= i_ref i -> i_flags i = I_VALID ->
  ilock devsw_read ip s = Ok 0 (with_entry s ip (busy i)).
Proof.
  intros Hi Hr Hf. unfold ilock, ilock_ext. change LOCKFUEL with (S (pred LOCKFUEL)). cbn [ilock_ext_fuel].
  inode_step Hi. rewrite (proj2 (Z.ltb_ge _ _)) by lia.
  replace (i_flag I_BUSY i) with false by (unfold i_flag; by rewrite Hf).
  replace (i_flag I_VALID i) with true by (unfold i_flag; by rewrite Hf).
  erewrite bind_Ok by (by apply upd_inode_Ok). cbv beta. rewrite Hf. done.
Qed.

Lemma ilock_trans_valid s ip i : icache s !! ip = Some i -> 1 <= i_ref i -> i_flags i = I_VALID ->
  ilock_trans devsw_read devsw_write ip s = Ok 0 (with_entry s ip (busy i)).
Proof. intros Hi Hr Hf. unfold ilock_trans. by erewrite bind_Ok by (by apply ilock_valid). Qed.

Lemma iunlock_busy s ip i : icache s !! ip = Some i -> 1 <= i_ref i -> i_flags i = Z.lor I_VALID I_BUSY ->
  iunlock ip s = Ok tt (with_entry s ip (i_set_flags I_VALID i)).
Proof.
  intros Hi Hr Hf. unfold iunlock. inode_step Hi. rewrite (proj2 (Z.ltb_ge _ _)) by lia.
  replace (i_flag I_BUSY i) with true by (unfold i_flag; by rewrite Hf). cbn [negb orb].
  erewrite upd_inode_Ok by done. rewrite Hf. done.
Qed.

Lemma unbusy i : i_flags i = I_VALID -> i_set_flags I_VALID (busy i) = i.
Proof. destruct i. cbn. by intros ->. Qed.

Lemma with_entry_twice s ip i j : with_entry (with_entry s ip i) ip j = with_entry s ip j.
Proof. unfold with_entry, set_icache. cbn. by rewrite list_insert_insert_eq. Qed.

Lemma with_entry_same s ip i : icache s !! ip = Some i -> with_entry s ip i = s.
Proof. intros Hi. unfold with_entry, set_icache. rewrite list_insert_id by done. by destruct s. Qed.

Lemma with_entry_lookup s ip i j : icache s !! ip = Some i -> icache (with_entry s ip j) !! ip = Some j.
Proof. intros Hi. apply list_lookup_insert_eq. by eapply lookup_lt_Some. Qed.

Lemma span_max off n : 0 <= off -> 0 <= n <= WRITE_MAX -> (Z.to_nat (span off n) <= 14)%nat.
Proof.
  intros Ho Hn. change WRITE_MAX with 6656 in Hn. unfold span. change BSIZE with 512. Z.div_mod_to_equations. lia.
Qed.

(** The file locked in a new transaction is ready to be written. *)
Lemma begun_ready sb s ip i src off n r l :
  at_rest sb s ip i (r + 28) -> 0 <= off <= i_size i -> 0 <= n <= WRITE_MAX -> n <= Z.of_nat (length src) ->
  off + n <= MAXFILE * BSIZE -> Forall is_u8 src ->
  bl_inv l -> bl_held l = bl_held (low s) -> bl_trans l = bl_trans (low s) -> bl_outstanding l = bl_outstanding (low s) + 1 ->
  (forall x, bl_view l x = bl_view (low s) x) ->
  plain_write r sb (with_entry (set_low l s) ip (busy i)) ip (busy i) src off n.
Proof.
  intros A Ho Hn Hl Hm Hs I1 H1 T1 O1 V1. pose proof (span_max off n ltac:(lia) Hn) as Hsp.
  assert (HU : forall x, bl_unlocked l x) by (intros x k; by rewrite H1, (ar_held _ _ _ _ _ A), lookup_empty).
  assert (V1' : forall x, bl_view (low s) x = bl_view l x) by done.
  assert (F : file_ok sb (bl_view l) (i_d i)) by (eapply file_ok_ext; [exact V1'|apply A]).
  constructor; cbn; try done; try apply A.
  - constructor; cbn; try done.
    + constructor; cbn; try done; [by eapply with_entry_lookup, A|apply A|apply F|].
      pose proof (bm_range _ _ (ar_geo _ _ _ _ _ A)). lia.
    + destruct (ar_geo _ _ _ _ _ A) as [G1 G2 G3]. constructor; try done. by rewrite V1.
    + rewrite O1, (ar_out _ _ _ _ _ A). lia.
    + eapply avail_ext; [apply V1'|]. eapply avail_le; [apply A|lia].
    + unfold budget. rewrite T1, H1, (ar_trans _ _ _ _ _ A), (ar_held _ _ _ _ _ A), map_size_empty.
      pose proof (size_list_le [bm sb; IBLOCK (i_inum i)]) as Hsz. cbn [length] in Hsz.
      match goal with |- (size ?X + _ + _ <= _)%nat => replace X with (list_to_set [bm sb; IBLOCK (i_inum i)] : gset Z) by set_solver end.
      lia.
    + set_solver.
  - lia.
Qed.

(** What one transaction of [filewrite] does to the file. *)
Record wrote_turn_to (sb : superblock) (s s' : fsst L) (ip : nat) (i i' : inode) (src : list Z) (off n : Z) (r : nat) : Prop := {
  wt_rest : at_rest sb s' ip i' r;
  wt_cache : icache s' = <[ip := i']> (icache s);
  wt_cwd : cwd s' = cwd s;
  wt_inum : i_inum i' = i_inum i;
  wt_size : i_size i' = Z.max (i_size i) (off + n);
  wt_contents : contents (bl_view (low s')) (i_d i') =
    splice (Z.to_nat off) (take (Z.to_nat n) src) (contents (bl_view (low s)) (i_d i))
}.

Lemma write_turn sb s ip i src off n r :
  at_rest sb s ip i (r + 28) -> 0 <= off <= i_size i -> 0 <= n <= WRITE_MAX -> n <= Z.of_nat (length src) ->
  off + n <= MAXFILE * BSIZE -> Forall is_u8 src ->
  exists l1 s3 s4 l5 i',
    begin_op (low s) = Ok tt l1 /\
    ilock devsw_read ip (set_low l1 s) = Ok 0 (with_entry (set_low l1 s) ip (busy i)) /\
    writei devsw_read devsw_write ip src off n (with_entry (set_low l1 s) ip (busy i)) = Ok n s3 /\
    iunlock ip s3 = Ok tt s4 /\ end_op (low s4) = Ok tt l5 /\
    wrote_turn_to sb s (set_low l5 s4) ip i i' src off n r.
Proof.
  intros A Ho Hn Hl Hm Hs. pose proof (ar_inode _ _ _ _ _ A) as Hi.
  destruct (begin_op_law (low s)) as (l1 & R1 & I1 & H1 & T1 & O1 & V1 & _);
    [apply A|rewrite (ar_trans _ _ _ _ _ A), (ar_out _ _ _ _ _ A); cbn; klia|].
  pose proof (begun_ready sb s ip i src off n r l1 A Ho Hn Hl Hm Hs I1 H1 T1 O1 V1) as P.
  destruct (writei_post r devsw_read devsw_write _ _ _ _ _ _ _ P)
    as (s3 & i3 & R3 & Hc3 & Rd3 & Hin3 & Hsz3 & C3 & K3 & D3 & _ & _ & [G3 A3 O3 H3 E3 W3]).
  destruct E3 as (Edev & Eref & Efl & Ety & _ & Ec1 & Ec2). cbn in *.
  assert (Hi3 : icache s3 !! ip = Some i3) by apply Rd3.
  pose proof (ar_ref _ _ _ _ _ A) as Hr.
  assert (R4 := iunlock_busy s3 ip i3 Hi3 ltac:(lia) Efl).
  destruct (end_op_law (low s3)) as (l5 & R5 & I5 & H5 & O5 & T5 & V5 & _);
    [apply Rd3|rewrite O3, O1, (ar_out _ _ _ _ _ A); lia|intros _; rewrite H3, H1; apply A|].
  assert (Hout : bl_outstanding (low s3) = 1) by (rewrite O3, O1, (ar_out _ _ _ _ _ A); done).
  pose proof (bm_range _ _ G3) as Hbm. assert (Hbm' : 0 < bm sb < LOGSTART) by lia.
  pose proof (rd_file _ _ _ _ Rd3) as F3.
  pose proof (contents_below sb (bl_view (low s3)) (bl_view l5) (i_d i3) V5 Hbm' F3 (fo_size _ _ _ F3)) as EC.
  exists l1, s3, (with_entry s3 ip (i_set_flags I_VALID i3)), l5, (i_set_flags I_VALID i3).
  split_and!; [done|apply ilock_valid; try done; apply A|done|done|done|].
  constructor; cbn.
  - constructor; cbn; try done; try congruence.
    + lia.
    + by rewrite T5, Hout.
    + by rewrite H5, H3, H1, (ar_held _ _ _ _ _ A).
    + by apply (geometry_below (bl_view (low s3))).
    + eapply avail_ext; [|exact A3]. symmetry. apply V5. lia.
    + apply list_lookup_insert_eq. by eapply lookup_lt_Some.
    + rewrite Edev. exact (ar_dev _ _ _ _ _ A).
    + rewrite Hin3. apply A.
    + unfold i_type in *. cbn in *. rewrite Ety. apply A.
    + unfold i_child1, i_child2 in *. cbn in *. rewrite Ec1, Ec2. apply A.
    + by apply (file_ok_below _ (bl_view (low s3))).
    + by rewrite EC.
    + rewrite Hin3, V5; [done|]. pose proof (iblock_range _ _ (i_inum i) G3) as Hib. specialize (Hib (ar_inum _ _ _ _ _ A)). lia.
  - rewrite Hc3. cbn. by rewrite !list_insert_insert_eq.
  - done.
  - done.
  - done.
  - rewrite EC, C3. f_equal. by apply contents_ext.
Qed.

Lemma wrote_refl_turn sb s ip i src off r r' : at_rest sb s ip i r -> 0 <= off <= i_size i -> (r' <= r)%nat ->
  wrote_turn_to sb s s ip i i src off 0 r'.
Proof.
  intros A Ho Hr. constructor; try done.
  - destruct A. constructor; try done. by eapply avail_le.
  - symmetry. apply list_insert_id, A.
  - lia.
  - change (Z.to_nat 0) with 0%nat. unfold splice. rewrite take_0. cbn [length app]. by rewrite Nat.add_0_r, take_drop.
Qed.

(** Consecutive transactions write consecutive parts. *)
Lemma wrote_turn_trans sb s1 s2 s3 ip i1 i2 i3 src off n1 n2 r r' :
  0 <= off <= i_size i1 -> 0 <= n1 -> 0 <= n2 -> n1 + n2 <= Z.of_nat (length src) ->
  wrote_turn_to sb s1 s2 ip i1 i2 src off n1 r ->
  wrote_turn_to sb s2 s3 ip i2 i3 (drop (Z.to_nat n1) src) (off + n1) n2 r' ->
  wrote_turn_to sb s1 s3 ip i1 i3 src off (n1 + n2) r'.
Proof.
  intros Ho H1 H2 Hl [A1 C1 W1 N1 S1 T1] [A2 C2 W2 N2 S2 T2]. constructor; try congruence; try lia.
  - by rewrite C2, C1, list_insert_insert_eq.
  - rewrite T2, T1, Z2Nat.inj_add by lia.
    assert (Ht : length (take (Z.to_nat n1) src) = Z.to_nat n1) by (rewrite length_take; lia).
    rewrite <- Ht at 1. rewrite splice_splice.
    + rewrite Z2Nat.inj_add by lia. by rewrite take_drop_join.
    + pose proof (length_contents (bl_view (low s1)) (i_d i1)). change (di_size (i_d i1)) with (i_size i1) in *. lia.
Qed.

Definition set_fs (t : fsst L) (s : kern L) : kern L := Kern t (ftable s) (k_pipes s) (k_mem s).

Lemma in_fs_Ok {A} (c : M (fsst L) A) (s : kern L) a t : c (k_fs s) = Ok a t -> in_fs c s = Ok a (set_fs t s).
Proof. intros E. unfold in_fs. by rewrite E. Qed.

Lemma in_fs_low_Ok {A} (c : M L A) (s : kern L) a l :
  c (low (k_fs s)) = Ok a l -> in_fs (in_low c) s = Ok a (set_fs (set_low l (k_fs s)) s).
Proof. intros E. by apply in_fs_Ok, in_low_Ok. Qed.

(** One turn of the loop, at the level of open files. *)
Lemma filewrite_turn sb k s ip i f ff addr j n r fuel (n1 := if WRITE_MAX <? n - j then WRITE_MAX else n - j) :
  k_fs k = s -> ftable k !! f = Some ff -> f_ip ff = ip ->
  at_rest sb s ip i (r + 28) -> 0 <= f_off ff <= i_size i -> 0 <= j < n -> n <= Z.of_nat (length addr) -> n < 2 ^ 31 ->
  f_off ff + (n - j) <= MAXFILE * BSIZE -> Forall is_u8 addr ->
  exists s' i', wrote_turn_to sb s s' ip i i' (drop (Z.to_nat j) addr) (f_off ff) n1 r /\
    filewrite_loop devsw_read devsw_write (S fuel) f addr j n k =
    filewrite_loop devsw_read devsw_write fuel f addr (j + n1) n
      (set_ftable (<[f := f_set_off (f_off ff + n1) ff]> (ftable k)) (set_fs s' k)).
Proof.
  intros Hk Hf Hip A Ho Hj Hn Hn31 Hm Hu.
  assert (Hn1 : 0 < n1 <= WRITE_MAX /\ n1 <= n - j).
  { unfold n1. change WRITE_MAX with 6656. destruct (Z.ltb_spec 6656 (n - j)); lia. }
  destruct (write_turn sb s ip i (drop (Z.to_nat j) addr) (f_off ff) n1 r) as (l1 & s3 & s4 & l5 & i' & R1 & R2 & R3 & R4 & R5 & W);
    try done; try lia; [rewrite length_drop; lia|by apply Forall_drop|].
  exists (set_low l5 s4), i'. split; [done|]. cbn [filewrite_loop]. rewrite (proj2 (Z.leb_gt n j)) by lia. fold n1.
  erewrite bind_Ok by (by apply get_file_Ok). cbv beta. rewrite Hip.
  erewrite bind_Ok by (apply in_fs_low_Ok; rewrite Hk; exact R1). cbv beta.
  erewrite bind_Ok by (apply in_fs_Ok; cbn [k_fs set_fs]; rewrite Hk; exact R2). cbv beta.
  replace (u32 n1) with n1 by (symmetry; apply Z.mod_small; lia).
  erewrite bind_Ok by (apply in_fs_Ok; cbn [k_fs set_fs]; exact R3). cbv beta.
  rewrite (proj2 (Z.ltb_lt 0 n1)) by lia.
  erewrite bind_Ok by (apply upd_file_Ok; cbn [ftable set_fs]; exact Hf). cbv beta.
  erewrite bind_Ok by (apply in_fs_Ok; cbn [k_fs set_fs set_ftable]; exact R4). cbv beta.
  erewrite bind_Ok by (apply in_fs_low_Ok; cbn [k_fs set_fs set_ftable]; exact R5). cbv beta.
  rewrite (proj2 (Z.ltb_ge n1 0)), Z.eqb_refl by lia. cbn [negb].
  replace (u32 (f_off ff + n1)) with (f_off ff + n1); [done|]. symmetry. apply Z.mod_small. klia.
Qed.

Lemma filewrite_no_turn sb k s ip i f ff addr n r fuel :
  k_fs k = s -> ftable k !! f = Some ff -> at_rest sb s ip i r -> 0 <= f_off ff <= i_size i ->
  exists s' i', wrote_turn_to sb s s' ip i i' (drop (Z.to_nat n) addr) (f_off ff) (n - n) 0 /\
    filewrite_loop devsw_read devsw_write fuel f addr n n k =
    Ok n (set_ftable (<[f := f_set_off (f_off ff + (n - n)) ff]> (ftable k)) (set_fs s' k)).
Proof.
  intros Hk Hf A Ho. exists s, i. rewrite Z.sub_diag. split; [eapply wrote_refl_turn; [done|done|lia]|].
  destruct fuel; cbn; rewrite Z.leb_refl, Z.add_0_r; unfold ret; f_equal; destruct k as [fs t ps m]; cbn in *; subst s;
    unfold set_ftable, set_fs; cbn; (rewrite list_insert_id; [done|]); by destruct ff.
Qed.

Lemma filewrite_loop_Ok sb ip f addr n fuel : n <= Z.of_nat (length addr) -> n < 2 ^ 31 -> Forall is_u8 addr ->
  forall k s i ff j, k_fs k = s -> ftable k !! f = Some ff -> f_ip ff = ip -> at_rest sb s ip i (28 * fuel) ->
  0 <= f_off ff <= i_size i -> 0 <= j <= n -> n - j <= Z.of_nat fuel * WRITE_MAX ->
  f_off ff + (n - j) <= MAXFILE * BSIZE ->
  exists s' i', wrote_turn_to sb s s' ip i i' (drop (Z.to_nat j) addr) (f_off ff) (n - j) 0 /\
    filewrite_loop devsw_read devsw_write fuel f addr j n k =
    Ok n (set_ftable (<[f := f_set_off (f_off ff + (n - j)) ff]> (ftable k)) (set_fs s' k)).
Proof.
  intros Hn Hn31 Hu. induction fuel as [|fuel IH]; intros k s i ff j Hk Hf Hip A Ho Hj Hfuel Hm.
  - assert (j = n) as -> by lia. by eapply filewrite_no_turn.
  - destruct (Z.eq_dec j n) as [->|Hne]; [by eapply filewrite_no_turn|].
    set (n1 := if WRITE_MAX <? n - j then WRITE_MAX else n - j).
    assert (Hn1 : 0 < n1 <= n - j /\ (n1 = WRITE_MAX \/ n1 = n - j)).
    { unfold n1. change WRITE_MAX with 6656. destruct (Z.ltb_spec 6656 (n - j)); lia. }
    destruct (filewrite_turn sb k s ip i f ff addr j n (28 * fuel) fuel) as (s1 & i1 & W1 & ->); try done; try lia.
    { destruct A. constructor; try done. eapply avail_le; [eassumption|lia]. }
    fold n1 in W1 |- *. pose proof (wt_size _ _ _ _ _ _ _ _ _ _ W1) as Hs1.
    assert (Hlen : (f < length (ftable k))%nat) by (by eapply lookup_lt_Some).
    destruct (IH (set_ftable (<[f := f_set_off (f_off ff + n1) ff]> (ftable k)) (set_fs s1 k)) s1 i1
                (f_set_off (f_off ff + n1) ff) (j + n1)) as (s' & i' & W2 & ->); try done.
    + by apply list_lookup_insert_eq.
    + apply W1.
    + cbn. lia.
    + lia.
    + change WRITE_MAX with 6656 in *. lia.
    + cbn. lia.
    + cbn in W2 |- *. exists s', i'. split.
      * replace (n - j) with (n1 + (n - (j + n1))) by lia.
        eapply wrote_turn_trans; [done|lia|lia|rewrite length_drop; lia|exact W1|].
        rewrite drop_drop. replace (Z.to_nat j + Z.to_nat n1)%nat with (Z.to_nat (j + n1)) by lia. exact W2.
      * f_equal. unfold set_ftable, set_fs. cbn. f_equal. rewrite list_insert_insert_eq. f_equal.
        unfold f_set_off. cbn. f_equal. lia.
Qed.

Lemma set_fs_same k s : k_fs k = s -> set_fs s k = k.
Proof. intros <-. by destruct k. Qed.

(** C32: [filewrite] stores what it is given.  Take a file without replicas that
    is valid in the inode cache and intact, with no transaction open.  If the
    offset is within the file, the write ends within the largest size of a file
    and there are 28 free blocks for each piece of [WRITE_MAX] bytes, then
    writing [n] bytes returns [n]; the contents are then those before with the
    bytes spliced in at the offset, which is advanced by [n]; the file is at rest
    again: its inode and checksum are on disk, and every transaction is
    committed.  The loop splits the bytes into transactions that fit the log.
    For files with replicas, which are written in the same transaction, the
    pieces are not small enough to fit in general; they are left out. *)
Theorem filewrite_writes sb killed k s ip i f ff addr n :
  k_fs k = s -> ftable k !! f = Some ff -> f_type ff = FD_INODE -> f_writable ff = true -> f_ip ff = ip ->
  at_rest sb s ip i (28 * Z.to_nat (n / WRITE_MAX + 1)) -> 0 <= f_off ff <= i_size i ->
  0 <= n < 2 ^ 31 -> n <= Z.of_nat (length addr) -> f_off ff + n <= MAXFILE * BSIZE -> Forall is_u8 addr ->
  exists s' i', filewrite devsw_read devsw_write killed f addr n k =
      Ok n (set_ftable (<[f := f_set_off (f_off ff + n) ff]> (ftable k)) (set_fs s' k)) /\
    at_rest sb s' ip i' 0 /\ i_inum i' = i_inum i /\
    contents (bl_view (low s')) (i_d i') =
      splice (Z.to_nat (f_off ff)) (take (Z.to_nat n) addr) (contents (bl_view (low s)) (i_d i)).
Proof.
  intros Hk Hf Ht Hw Hip A Ho Hn Hl Hm Hu.
  pose proof (ar_inode _ _ _ _ _ A) as Hi. pose proof (ar_ref _ _ _ _ _ A) as Hr. pose proof (ar_flags _ _ _ _ _ A) as Hfl.
  destruct (filewrite_loop_Ok sb ip f addr n (Z.to_nat (n / WRITE_MAX + 1)) Hl ltac:(lia) Hu k s i ff 0)
    as (s' & i' & W & R); try done; try lia.
  { change WRITE_MAX with 6656. Z.div_mod_to_equations. lia. }
  rewrite Z.sub_0_r in W, R. destruct W as [W1 _ _ W4 _ W6]. exists s', i'. split_and!; [|done..].
  unfold filewrite. erewrite bind_Ok by (by apply get_file_Ok). cbv beta. rewrite Hw, Ht, Hip. cbn [negb].
  erewrite bind_Ok by (apply in_fs_Ok; rewrite Hk; by apply ilock_trans_valid).
  cbv beta. change (0 =? E_CORRUPTED) with false. cbv iota.
  erewrite bind_Ok by (apply in_fs_Ok; cbn [k_fs set_fs]; apply iunlock_busy; [by eapply with_entry_lookup|done|done]).
  cbv beta. rewrite with_entry_twice, unbusy, with_entry_same by done.
  change (set_fs s (set_fs (with_entry s ip (busy i)) k)) with (set_fs s k). rewrite set_fs_same by done.
  erewrite bind_Ok by exact R. cbv beta. by rewrite Z.eqb_refl.
Qed.

Lemma off_step f ff m (k : kern L) : ftable k !! f = Some ff -> 0 <= m -> 0 <= f_off ff + m < 2 ^ 32 ->
  (if 0 <? m then upd_file f (fun ff => f_set_off (u32 (f_off ff + m)) ff) else ret tt) k =
  Ok tt (set_ftable (<[f := f_set_off (f_off ff + m) ff]> (ftable k)) k).
Proof.
  intros Hf H0 Hm. destruct (Z.ltb_spec 0 m) as [H|H].
  - erewrite upd_file_Ok by exact Hf. unfold u32. by rewrite Z.mod_small by lia.
  - replace m with 0 by lia. rewrite Z.add_0_r. unfold ret. f_equal. destruct k as [fs t ps mm]. unfold set_ftable. cbn in *.
    rewrite list_insert_id; [done|]. by destruct ff.
Qed.

(** [fileread] returns what is there.  For a plain file at rest, reading [n]
    bytes returns those from the offset on, up to the end of the file, advances
    the offset by their number, and leaves the file at rest. *)
Lemma fileread_reads sb killed k s ip i f ff n :
  k_fs k = s -> ftable k !! f = Some ff -> f_type ff = FD_INODE -> f_readable ff = true -> f_ip ff = ip ->
  at_rest sb s ip i 0 -> 0 <= f_off ff <= i_size i -> 0 <= n < 2 ^ 31 ->
  let m := Z.min n (i_size i - f_off ff) in
  exists s', fileread devsw_read devsw_write killed f n k =
      Ok (m, sub_bytes (Z.to_nat (f_off ff)) (Z.to_nat m) (contents (bl_view (low s)) (i_d i)))
        (set_ftable (<[f := f_set_off (f_off ff + m) ff]> (ftable k)) (set_fs s' k)) /\
    at_rest sb s' ip i 0 /\ contents (bl_view (low s')) (i_d i) = contents (bl_view (low s)) (i_d i).
Proof.
  intros Hk Hf Ht Hw Hip A Ho Hn m. set (t := with_entry s ip (busy i)).
  pose proof (ar_inode _ _ _ _ _ A) as Hi. pose proof (ar_ref _ _ _ _ _ A) as Hr. pose proof (ar_flags _ _ _ _ _ A) as Hfl.
  assert (HU : forall x, bl_unlocked (low s) x) by (intros x j; by rewrite (ar_held _ _ _ _ _ A), lookup_empty).
  assert (Rd : readable sb t ip (busy i)).
  { constructor; [constructor|..]; cbn; try done; try apply A; [by eapply with_entry_lookup|].
    pose proof (bm_range _ _ (ar_geo _ _ _ _ _ A)). lia. }
  destruct (readi_Ok devsw_read sb t ip (busy i) (f_off ff) n ∅ 0 Rd) as (l & R & E); try done.
  { unfold budget. change (low t) with (low s). rewrite (ar_trans _ _ _ _ _ A), (ar_held _ _ _ _ _ A), map_size_empty.
    replace (list_to_set [] ∪ ∅ : gset Z) with (∅ : gset Z) by set_solver. rewrite size_empty. lia. }
  change (i_size (busy i)) with (i_size i) in R. fold m in R. cbn in E.
  assert (Hl : icache (set_low l t) !! ip = Some (busy i)) by (by eapply with_entry_lookup).
  exists (set_low l s). split_and!.
  - unfold fileread. erewrite bind_Ok by (by apply get_file_Ok). cbv beta. rewrite Hw, Ht, Hip. cbn [negb].
    erewrite bind_Ok by (apply in_fs_Ok; rewrite Hk; by apply ilock_trans_valid). cbv beta.
    replace (u32 n) with n by (symmetry; apply Z.mod_small; lia).
    erewrite bind_Ok by (apply in_fs_Ok; cbn [k_fs set_fs]; exact R). cbv beta. cbn [fst].
    assert (Hm : 0 <= m /\ f_off ff + m < 2 ^ 32).
    { pose proof (fo_size _ _ _ (ar_file _ _ _ _ _ A)) as Hsz. change (di_size (i_d i)) with (i_size i) in Hsz. unfold m. klia. }
    erewrite bind_Ok by (apply off_step; cbn [ftable set_fs]; [exact Hf|lia|lia]). cbv beta.
    erewrite bind_Ok by (apply in_fs_Ok; cbn [k_fs set_fs set_ftable]; by apply (iunlock_busy _ _ (busy i))). cbv beta.
    rewrite contents_sub by (change (di_size (i_d i)) with (i_size i); lia). unfold ret. f_equal.
    unfold set_fs, set_ftable. cbn. f_equal. unfold t. rewrite unbusy by done. unfold with_entry, set_icache, set_low. cbn.
    rewrite list_insert_insert_eq, list_insert_id by done. by destruct s.
  - assert (Hv : forall x, bl_view l x = bl_view (low s) x) by apply E. destruct A as [A1 A2 A3 A4 [G1 G2 G3] A6].
    constructor; cbn; try done; try (by rewrite ?(ef_outstanding _ _ _ _ E), ?(ef_trans _ _ _ _ E), ?(ef_held _ _ _ _ E)).
    + apply E.
    + constructor; try done. by rewrite Hv.
    + by eapply avail_ext; [symmetry; apply Hv|].
    + by eapply file_ok_ext; [symmetry; apply Hv|].
    + by rewrite (contents_ext (bl_view l) (bl_view (low s))).
    + by rewrite Hv.
  - cbn. apply contents_ext. apply E.
Qed.

(** Reading a damaged file stops the kernel.  [fileread] does not look at the
    result of [ilock_trans]: when the contents do not have the stored checksum
    and there is no replica, the inode is left unlocked, and the [iunlock] that
    follows panics. *)
Lemma fileread_corrupted_panics sb killed k s ip i d f ff n :
  k_fs k = s -> ftable k !! f = Some ff -> f_type ff = FD_INODE -> f_readable ff = true -> f_ip ff = ip ->
  disk_inode s (i_inum i) = d -> cold sb s ip i 1 -> file_ok sb (bl_view (low s)) d ->
  di_type d <> T_DEV -> di_child1 d = 0 -> checksum_of (contents (bl_view (low s)) d) <> di_checksum d ->
  0 <= f_off ff <= di_size d -> 0 <= n < 2 ^ 31 ->
  exists k', fileread devsw_read devsw_write killed f n k = Stop (Panic "iunlock") k'.
Proof.
  intros Hk Hf Ht Hr Hip Hd C F Hty Hc1 Hc Ho Hn. pose proof (cd_inode _ _ _ _ _ C) as Hi.
  destruct (ilock_refuses devsw_read sb s ip i d Hd C F Hty Hc1 Hc) as (l & R & E).
  pose proof (filled_readable _ _ _ _ _ _ _ 0 C E F Hty) as Rd. set (t := entry s ip (filled i d 0) l) in *.
  destruct (readi_Ok devsw_read sb t ip (filled i d 0) (f_off ff) n ∅ 0 Rd) as (l2 & R2 & E2); try done.
  { eapply eff_budget_same; [exact E|]. apply (cd_budget _ _ _ _ _ C). }
  change (i_size (filled i d 0)) with (di_size d) in R2. set (m := Z.min n (di_size d - f_off ff)) in *.
  assert (Hm : 0 <= m /\ f_off ff + m < 2 ^ 32) by (pose proof (fo_size _ _ _ F); unfold m; klia).
  assert (Hl : icache (set_low l2 t) !! ip = Some (filled i d 0)) by (eapply (entry_lookup _ _ _ _ l); exact Hi).
  eexists. unfold fileread. erewrite bind_Ok by (by apply get_file_Ok). cbv beta. rewrite Hr, Ht, Hip. cbn [negb].
  erewrite bind_Ok.
  2: { apply in_fs_Ok. rewrite Hk. unfold ilock_trans. erewrite bind_Ok by exact R. reflexivity. }
  cbv beta. replace (u32 n) with n by (symmetry; apply Z.mod_small; lia).
  erewrite bind_Ok by (apply in_fs_Ok; cbn [k_fs set_fs]; exact R2). cbv beta. cbn [fst].
  erewrite bind_Ok by (apply off_step; cbn [ftable set_fs]; [exact Hf|lia|lia]). cbv beta.
  erewrite bind_Stop; [reflexivity|]. unfold in_fs, iunlock. cbn [k_fs set_fs set_ftable].
  unfold bind. rewrite (get_inode_Ok _ _ _ Hl). reflexivity.
Qed.
End FileIo.

(** ** The theorems, applied *)

Lemma demo_rest : exists l : logst,
  bl_inv l /\ bl_held l = ∅ /\ bl_trans l = [] /\ bl_outstanding l = 0 /\
  forall b, 0 <= b < LOGSTART -> bl_view l b = demo_view b.
Proof.
  destruct (startup_Ok demo_image [] demo_valid demo_header) as (s & hd & R & Hi & Hhe & Ht & Ho & _ & Hdk & _).
  clear R. exists s. split_and!; [done|cbn in *; congruence|cbn in *; congruence|cbn in *; congruence|].
  intros b Hb. cbn in *. erewrite quiet_view; [|by apply li_quiet|by rewrite (li_dirty _ Hi), Ht].
  rewrite Hdk. cbn. rewrite disk_get_insert, decide_False by (intros [= ?]; lia). done.
Qed.

(** The file of the image, open at offset 600. *)
Definition rest_inode : inode := Inode ROOTDEV 2 1 I_VALID demo_file.
Definition rest_fs (l : logst) : fsst logst := FsSt l [rest_inode; Inode 0 0 0 0 dinode_zero] 0.
Definition demo_open (fs : fsst logst) (off : Z) : kern logst :=
  Kern fs [File FD_INODE 1 true true 0 0 off] ∅ two_pages.

Lemma demo_at_rest l n : bl_inv l -> bl_held l = ∅ -> bl_trans l = [] -> bl_outstanding l = 0 ->
  (forall b, 0 <= b < LOGSTART -> bl_view l b = demo_view b) -> (n <= 100)%nat ->
  at_rest demo_sb (rest_fs l) 0 rest_inode n.
Proof.
  intros Hi Hh Ht Ho Hv Hn. constructor; cbn [low rest_fs]; try done.
  - by apply demo_geometry.
  - split; [done|split].
    + intros x Hx. rewrite demo_bm in Hx. rewrite demo_used by (done || klia). by rewrite (proj2 (Z.ltb_lt x 32)) by lia.
    + exists (list_to_set (seqZ 100 100)). split.
      * assert (size (list_to_set (seqZ 100 100) : gset Z) = 100%nat) as -> by (by vm_compute). done.
      * intros x Hx. apply elem_of_list_to_set, elem_of_seqZ in Hx. change (bm demo_sb) with 28 in *.
        split; [rewrite demo_bm; unfold LOGSTART; cbn; klia|].
        rewrite demo_used by (done || klia). apply Z.ltb_ge. klia.
  - by apply demo_file_ok.
  - unfold demo_file. change (i_d rest_inode) with (demo_dinode 0 5). rewrite (demo_contents l) by assumption. by vm_compute.
  - unfold IBLOCK. change IPB with 8. change (i_inum rest_inode / 8 + 2) with 2. rewrite Hv by (unfold LOGSTART; klia).
    by vm_compute.
Qed.

(** 8,000 bytes, that is, two transactions. *)
Lemma filewrite_writes_witness : exists (k k' : kern logst),
  filewrite no_read no_write false 0 (replicate 8000 7) 8000 k = Ok 8000 k'.
Proof.
  destruct demo_rest as (l & Hi & Hh & Ht & Ho & Hv).
  destruct (filewrite_writes no_read no_write demo_sb false (demo_open (rest_fs l) 600) (rest_fs l) 0 rest_inode 0
              (File FD_INODE 1 true true 0 0 600) (replicate 8000 7) 8000) as (s' & i' & R & _); try reflexivity.
  - apply demo_at_rest; try assumption. vm_compute. lia.
  - cbn. lia.
  - lia.
  - cbn. klia.
  - apply Forall_replicate. klia.
  - eexists _, _. exact R.
Defined.

Lemma fileread_reads_witness : exists (k k' : kern logst) bs,
  fileread no_read no_write false 0 1000 k = Ok (500, bs) k'.
Proof.
  destruct demo_rest as (l & Hi & Hh & Ht & Ho & Hv).
  destruct (fileread_reads no_read no_write demo_sb false (demo_open (rest_fs l) 100) (rest_fs l) 0 rest_inode 0
              (File FD_INODE 1 true true 0 0 100) 1000) as (s' & R & _); try reflexivity.
  - apply demo_at_rest; try assumption. lia.
  - cbn. lia.
  - lia.
  - eexists _, _, _. exact R.
Defined.

Lemma fileread_corrupted_panics_witness : exists (k k' : kern logst),
  fileread no_read no_write false 0 10 k = Stop (Panic "iunlock") k'.
Proof.
  destruct demo_start as (l & Hi & Hh & Ht & Ho & Hv).
  destruct (fileread_corrupted_panics no_read no_write demo_sb false (demo_open (cold_state l 3) 0) (cold_state l 3) 0
              (cold_inode 3) (demo_dinode 0 9) 0 (File FD_INODE 1 true true 0 0 0) 10) as (k' & R); try reflexivity.
  - apply demo_disk_inode; try assumption; [cbn; lia|by vm_compute].
  - apply demo_cold; try assumption. lia.
  - by apply demo_dinode_ok.
  - discriminate.
  - cbn [low cold_state]. rewrite (demo_contents l) by assumption. by vm_compute.
  - cbn. lia.
  - lia.
  - eexists _, _. exact R.
Defined.

(** Boot, then a pipe: handles on its two ends. *)
Definition boot_files : kern logst := no_files (rest_fs (power_on ∅)) two_pages 3.
Definition pipe_files : kern logst :=
  match pipealloc no_read KERNLINK boot_files with Ok _ s => s | Stop _ s => s end.
Definition read_end : file := File FD_PIPE 1 true false KERNLINK 0 0.

Lemma demo_pipe_run : rtc (fstep no_read no_write KERNLINK) (boot_files, []) (pipe_files, [0%nat; 1%nat]).
Proof. apply rtc_once, fs_pipe. reflexivity. Qed.

Lemma file_refs_count_witness : exists s' r, filealloc pipe_files = Ok r s' /\ f_ref read_end = handles 0 [0%nat; 1%nat].
Proof.
  destruct (file_refs_count no_read no_write KERNLINK (rest_fs (power_on ∅)) two_pages 3 [KERNLINK; KERNLINK + PGSIZE]
              pipe_files [0%nat; 1%nat] two_pages_inv demo_pipe_run) as (H1 & (r & s' & R & _) & _).
  exists s', r. split; [exact R|]. apply (H1 0%nat). reflexivity.
Defined.

Lemma file_pipe_live_witness : exists s', fileclose no_read KERNLINK 0 pipe_files = Ok tt s'.
Proof.
  destruct (file_pipe_live no_read no_write KERNLINK (rest_fs (power_on ∅)) two_pages 3 [KERNLINK; KERNLINK + PGSIZE]
              pipe_files [0%nat; 1%nat] 0 read_end two_pages_inv demo_pipe_run) as (_ & _ & s' & R & _);
    [left|reflexivity|reflexivity|]. exists s'. exact R.
Defined.
