(* ===== verification/Proc.v ===== *)
(** * Proc: processes (proc.c)

    The process table over open files, page tables and the file system:
    creation, exit and wait, sleep and wakeup, and the scheduler.  A function
    runs under the lock of the table, or between two of its sleeps, as one step;
    [cur] is the process that calls it. *)

From S2P Require Import Prelude Layout Log Block FsBlock FsInode FsDir FsDemo Kalloc Vm Pipe File FileIo CString.
Open Scope Z_scope.
Open Scope xv6_scope.

Definition NPROC : Z := 64.
Definition KSTACKSIZE : Z := 4096.

Inductive procstate := UNUSED | EMBRYO | SLEEPING | RUNNABLE | RUNNING | ZOMBIE.
#[global] Instance procstate_eq_dec : EqDecision procstate.
Proof. solve_decision. Defined.
#[global] Instance chan_eq_dec : EqDecision chan.
Proof. solve_decision. Defined.

Record proc := Proc {
  p_sz : Z;
  p_pgdir : Z;
  p_kstack : Z;
  p_state : procstate;
  p_pid : Z;
  p_parent : option nat;
  p_tf : Z;
  p_context : Z;
  p_chan : option chan;
  p_killed : bool;
  p_ofile : list (option nat);
  p_cwd : option nat;
  p_name : list Z
}.

(** The fields of [struct trapframe] and [struct context] with their sizes. *)
Definition trapframe : list (string * Z) :=
  [("edi", 4); ("esi", 4); ("ebp", 4); ("oesp", 4); ("ebx", 4); ("edx", 4); ("ecx", 4); ("eax", 4);
   ("gs", 2); ("padding1", 2); ("fs", 2); ("padding2", 2); ("es", 2); ("padding3", 2); ("ds", 2); ("padding4", 2);
   ("trapno", 4); ("err", 4); ("eip", 4); ("cs", 2); ("padding5", 2); ("eflags", 4);
   ("esp", 4); ("ss", 2); ("padding6", 2)]%string.
Definition context : list (string * Z) := [("edi", 4); ("esi", 4); ("ebx", 4); ("ebp", 4); ("eip", 4)]%string.

(** The offset of a field, and the size of a structure. *)
Fixpoint offset_of (f : string) (fs : list (string * Z)) : Z :=
  match fs with
  | [] => 0
  | (g, n) :: fs => if String.eqb f g then 0 else n + offset_of f fs
  end.

(** The sizes and offsets the code uses, as constants. *)
Definition TRAPFRAME : Z := 76.
Definition CONTEXT : Z := 20.
Definition tf_eax : Z := 28.
Definition tf_es : Z := 40.
Definition tf_ds : Z := 44.
Definition tf_eip : Z := 56.
Definition tf_cs : Z := 60.
Definition tf_eflags : Z := 64.
Definition tf_esp : Z := 68.
Definition tf_ss : Z := 72.
Definition ctx_eip : Z := 16.

Lemma frame_layout :
  TRAPFRAME = offset_of EmptyString trapframe /\ CONTEXT = offset_of EmptyString context /\ ctx_eip = offset_of "eip" context /\
  [tf_eax; tf_es; tf_ds; tf_eip; tf_cs; tf_eflags; tf_esp; tf_ss] =
  (fun f => offset_of f trapframe) <$> ["eax"; "es"; "ds"; "eip"; "cs"; "eflags"; "esp"; "ss"]%string.
Proof. done. Qed.

Definition FL_IF : Z := 512.
Definition SEG_UCODE : Z := 4.
Definition SEG_UDATA : Z := 5.
Definition DPL_USER : Z := 3.

Definition p_set_state (x : procstate) (p : proc) : proc :=
  Proc (p_sz p) (p_pgdir p) (p_kstack p) x (p_pid p) (p_parent p) (p_tf p) (p_context p) (p_chan p) (p_killed p)
    (p_ofile p) (p_cwd p) (p_name p).
Definition p_set_pid (x : Z) (p : proc) : proc :=
  Proc (p_sz p) (p_pgdir p) (p_kstack p) (p_state p) x (p_parent p) (p_tf p) (p_context p) (p_chan p) (p_killed p)
    (p_ofile p) (p_cwd p) (p_name p).
Definition p_set_kstack (x : Z) (p : proc) : proc :=
  Proc (p_sz p) (p_pgdir p) x (p_state p) (p_pid p) (p_parent p) (p_tf p) (p_context p) (p_chan p) (p_killed p)
    (p_ofile p) (p_cwd p) (p_name p).
Definition p_set_frames (tf context : Z) (p : proc) : proc :=
  Proc (p_sz p) (p_pgdir p) (p_kstack p) (p_state p) (p_pid p) (p_parent p) tf context (p_chan p) (p_killed p)
    (p_ofile p) (p_cwd p) (p_name p).
Definition p_set_sz (x : Z) (p : proc) : proc :=
  Proc x (p_pgdir p) (p_kstack p) (p_state p) (p_pid p) (p_parent p) (p_tf p) (p_context p) (p_chan p) (p_killed p)
    (p_ofile p) (p_cwd p) (p_name p).
Definition p_set_pgdir (x : Z) (p : proc) : proc :=
  Proc (p_sz p) x (p_kstack p) (p_state p) (p_pid p) (p_parent p) (p_tf p) (p_context p) (p_chan p) (p_killed p)
    (p_ofile p) (p_cwd p) (p_name p).
Definition p_set_parent (x : option nat) (p : proc) : proc :=
  Proc (p_sz p) (p_pgdir p) (p_kstack p) (p_state p) (p_pid p) x (p_tf p) (p_context p) (p_chan p) (p_killed p)
    (p_ofile p) (p_cwd p) (p_name p).
Definition p_set_chan (x : option chan) (p : proc) : proc :=
  Proc (p_sz p) (p_pgdir p) (p_kstack p) (p_state p) (p_pid p) (p_parent p) (p_tf p) (p_context p) x (p_killed p)
    (p_ofile p) (p_cwd p) (p_name p).
Definition p_set_killed (x : bool) (p : proc) : proc :=
  Proc (p_sz p) (p_pgdir p) (p_kstack p) (p_state p) (p_pid p) (p_parent p) (p_tf p) (p_context p) (p_chan p) x
    (p_ofile p) (p_cwd p) (p_name p).
Definition p_set_ofile (x : list (option nat)) (p : proc) : proc :=
  Proc (p_sz p) (p_pgdir p) (p_kstack p) (p_state p) (p_pid p) (p_parent p) (p_tf p) (p_context p) (p_chan p) (p_killed p)
    x (p_cwd p) (p_name p).
Definition p_set_cwd (x : option nat) (p : proc) : proc :=
  Proc (p_sz p) (p_pgdir p) (p_kstack p) (p_state p) (p_pid p) (p_parent p) (p_tf p) (p_context p) (p_chan p) (p_killed p)
    (p_ofile p) x (p_name p).
Definition p_set_name (x : list Z) (p : proc) : proc :=
  Proc (p_sz p) (p_pgdir p) (p_kstack p) (p_state p) (p_pid p) (p_parent p) (p_tf p) (p_context p) (p_chan p) (p_killed p)
    (p_ofile p) (p_cwd p) x.

(** The kernel with its process table. *)
Record sys (L : Type) := Sys {
  s_kern : kern L;
  ptable : list proc;
  nextpid : Z;
  initproc : nat
}.
Arguments Sys {L}.
Arguments s_kern {L}.
Arguments ptable {L}.
Arguments nextpid {L}.
Arguments initproc {L}.

Section Lift.
Context {L : Type}.
Definition in_kern {A} (c : M (kern L) A) : M (sys L) A := fun s =>
  match c (s_kern s) with
  | Ok a k => Ok a (Sys k (ptable s) (nextpid s) (initproc s))
  | Stop r k => Stop r (Sys k (ptable s) (nextpid s) (initproc s))
  end.
Definition set_ptable (t : list proc) (s : sys L) : sys L := Sys (s_kern s) t (nextpid s) (initproc s).
Definition get_proc (p : nat) : M (sys L) proc :=
  let! t := gets ptable in of_option (Undefined "no such process") (t !! p).
Definition upd_proc (p : nat) (f : proc -> proc) : M (sys L) unit :=
  modify (fun s => set_ptable (alter f p (ptable s)) s).
Definition in_vm {A} (c : M kst A) : M (sys L) A := in_kern (in_mem c).
Definition store16 (a v : Z) : M kst unit := modify (fun s => set_kmem (store_bytes (kmem s) a (le_bytes 2 v)) s).
End Lift.

(** ** The process table *)

(** The first unused slot. *)
Fixpoint alloc_scan (k : nat) (t : list proc) : option nat :=
  match t with
  | [] => None
  | p :: t => if decide (p_state p = UNUSED) then Some k else alloc_scan (S k) t
  end.

(** [wakeup1]: every process asleep on [c] becomes runnable. *)
Definition wakeup1 (c : chan) (t : list proc) : list proc :=
  (fun p => if decide (p_state p = SLEEPING /\ p_chan p = Some c) then p_set_state RUNNABLE p else p) <$> t.

(** [kill]: the first slot with the pid; whether there is one. *)
Fixpoint kill (pid : Z) (t : list proc) : bool * list proc :=
  match t with
  | [] => (false, [])
  | p :: t =>
      if p_pid p =? pid then
        let p := p_set_killed true p in
        (true, (if decide (p_state p = SLEEPING) then p_set_state RUNNABLE p else p) :: t)
      else let (r, t) := kill pid t in (r, p :: t)
  end.

(** The loop of [exit] that hands the children of [cur] to [init], from slot [k]
    of the table on; [wakeup1] goes over the whole table each time. *)
Fixpoint reparent (n k : nat) (cur init : nat) (t : list proc) : list proc :=
  match n with
  | O => t
  | S n =>
      match t !! k with
      | None => t
      | Some p =>
          let t :=
            if decide (p_parent p = Some cur) then
              let t := alter (p_set_parent (Some init)) k t in
              if decide (p_state p = ZOMBIE) then wakeup1 (ChProc init) t else t
            else t in
          reparent n (S k) cur init t
      end
  end.

(** The end of [exit], under the lock of the table: wake the parent, give away
    the children, become a zombie. *)
Definition exit_table (cur init : nat) (t : list proc) : list proc :=
  let t := match t !! cur ≫= p_parent with Some pa => wakeup1 (ChProc pa) t | None => t end in
  let t := reparent (length t) 0 cur init t in
  alter (p_set_state ZOMBIE) cur t.

(** The scan of [wait]: a zombie child, or whether there are children. *)
Fixpoint wait_scan (cur k : nat) (havekids : bool) (t : list proc) : nat + bool :=
  match t with
  | [] => inr havekids
  | p :: t =>
      if decide (p_parent p = Some cur) then
        if decide (p_state p = ZOMBIE) then inl k else wait_scan cur (S k) true t
      else wait_scan cur (S k) havekids t
  end.

(** [sleep] until [sched], and [yield]. *)
Definition sleep_table (cur : nat) (c : chan) (t : list proc) : list proc :=
  alter (fun p => p_set_state SLEEPING (p_set_chan (Some c) p)) cur t.
Definition yield_table (cur : nat) (t : list proc) : list proc := alter (p_set_state RUNNABLE) cur t.
(** [sleep] after [sched]. *)
Definition wake_table (cur : nat) (t : list proc) : list proc := alter (p_set_chan None) cur t.

(** The checks of [sched], by the depth of [pushcli] and the state of the lock
    of the table, the process and the interrupt flag. *)
Definition sched_check (holding : bool) (ncli : Z) (st : procstate) (fl_if : bool) : option string :=
  if negb holding then Some "sched ptable.lock"%string
  else if negb (ncli =? 1) then Some "sched locks"%string
  else if decide (st = RUNNING) then Some "sched running"%string
  else if fl_if then Some "sched interruptible"%string
  else None.

(** One turn of the inner loop of [scheduler], at slot [k]: whether it switches to
    the process there, which is then running. *)
Definition scheduler_turn (k : nat) (t : list proc) : bool * list proc :=
  match t !! k with
  | Some p => if decide (p_state p = RUNNABLE) then (true, alter (p_set_state RUNNING) k t) else (false, t)
  | None => (false, t)
  end.

(** ** Creation *)

Section Proc.
Context {L : Type} `{BlockOps L}.
Context (devsw_read : Z -> option (nat -> Z -> M (fsst L) (Z * list Z))).
Context (devsw_write : Z -> option (nat -> list Z -> Z -> M (fsst L) Z)).
(** Symbols of the linker script, and the code of the first process. *)
Context (end_ data_ trapret_ forkret_ : Z) (initcode : list Z).
Implicit Types (cur p : nat).

Definition allocproc : M (sys L) (option nat) :=
  let! t := gets ptable in
  match alloc_scan 0 t with
  | None => ret None
  | Some p =>
      upd_proc p (p_set_state EMBRYO) ;;;
      let! pid := gets nextpid in
      upd_proc p (p_set_pid pid) ;;;
      modify (fun s => Sys (s_kern s) (ptable s) (i32 (nextpid s + 1)) (initproc s)) ;;;
      let! k := in_vm kalloc in
      upd_proc p (p_set_kstack k) ;;;
      if k =? 0 then upd_proc p (p_set_state UNUSED) ;;; ret None else
      let tf := k + KSTACKSIZE - TRAPFRAME in
      in_vm (wrt (tf - 4) trapret_) ;;;
      let ctx := tf - 4 - CONTEXT in
      upd_proc p (p_set_frames tf ctx) ;;;
      in_vm (memset_page ctx 0 CONTEXT) ;;;
      in_vm (wrt (ctx + ctx_eip) forkret_) ;;;
      ret (Some p)
  end.

(** [userinit]; a null result of [allocproc] would be dereferenced. *)
Definition userinit : M (sys L) unit :=
  let! o := allocproc in
  let! p := of_option (Undefined "null process") o in
  modify (fun s => Sys (s_kern s) (ptable s) (nextpid s) p) ;;;
  let! d := in_vm (setupkvm data_) in
  upd_proc p (p_set_pgdir d) ;;;
  if d =? 0 then panic "userinit: out of memory?" else
  in_vm (inituvm d initcode (Z.of_nat (length initcode))) ;;;
  upd_proc p (p_set_sz PGSIZE) ;;;
  let! q := get_proc p in
  let tf := p_tf q in
  in_vm (memset_page tf 0 TRAPFRAME) ;;;
  in_vm (store16 (tf + tf_cs) (Z.lor (Z.shiftl SEG_UCODE 3) DPL_USER)) ;;;
  in_vm (store16 (tf + tf_ds) (Z.lor (Z.shiftl SEG_UDATA 3) DPL_USER)) ;;;
  in_vm (store16 (tf + tf_es) (Z.lor (Z.shiftl SEG_UDATA 3) DPL_USER)) ;;;
  in_vm (store16 (tf + tf_ss) (Z.lor (Z.shiftl SEG_UDATA 3) DPL_USER)) ;;;
  in_vm (wrt (tf + tf_eflags) FL_IF) ;;;
  in_vm (wrt (tf + tf_esp) PGSIZE) ;;;
  in_vm (wrt (tf + tf_eip) 0) ;;;
  let! name := of_option (Undefined "safestrcpy")
                 (safestrcpy (p_name q) [105; 110; 105; 116; 99; 111; 100; 101; 0] 16) in
  upd_proc p (p_set_name name) ;;;
  let! root := in_kern (in_fs (namei devsw_read devsw_write [47; 0])) in
  upd_proc p (p_set_cwd root) ;;;
  upd_proc p (p_set_state RUNNABLE).

(** [growproc]; [switchuvm] loads registers only. *)
Definition growproc cur (n : Z) : M (sys L) Z :=
  let! q := get_proc cur in
  let sz := p_sz q in
  let! r :=
    (if 0 <? n then in_vm (allocuvm end_ (p_pgdir q) sz (u32 (sz + n)))
     else if n <? 0 then in_vm (deallocuvm end_ (p_pgdir q) sz (u32 (sz + n)))
     else ret sz) in
  if negb (n =? 0) && (r =? 0) then ret (-1) else
  upd_proc cur (p_set_sz r) ;;;
  ret 0.

(** [np->ofile[i] = filedup(proc->ofile[i])] for the open descriptors; the others
    of [np] stay as they are. *)
Fixpoint dup_files (old new : list (option nat)) : M (sys L) (list (option nat)) :=
  match old, new with
  | o :: old, x :: new =>
      let! x := match o with
                | Some f => let! g := in_kern (filedup f) in ret (Some g)
                | None => ret x
                end in
      let! rest := dup_files old new in
      ret (x :: rest)
  | _, _ => ret new
  end.

Definition fork cur : M (sys L) Z :=
  let! o := allocproc in
  match o with
  | None => ret (-1)
  | Some np =>
      let! me := get_proc cur in
      let! d := in_vm (copyuvm end_ data_ (p_pgdir me) (p_sz me)) in
      upd_proc np (p_set_pgdir d) ;;;
      let! q := get_proc np in
      if d =? 0 then
        in_vm (kfree end_ (p_kstack q)) ;;;
        upd_proc np (p_set_kstack 0) ;;;
        upd_proc np (p_set_state UNUSED) ;;;
        ret (-1)
      else
      upd_proc np (p_set_sz (p_sz me)) ;;;
      upd_proc np (p_set_parent (Some cur)) ;;;
      in_vm (modify (fun s => set_kmem (copy_bytes (kmem s) (p_tf q) (p_tf me) TRAPFRAME) s)) ;;;
      in_vm (wrt (p_tf q + tf_eax) 0) ;;;
      let! fs := dup_files (p_ofile me) (p_ofile q) in
      upd_proc np (p_set_ofile fs) ;;;
      let! c := of_option (Undefined "no current directory") (p_cwd me) in
      let! c := in_kern (in_fs (idup c)) in
      upd_proc np (p_set_cwd (Some c)) ;;;
      let! name := of_option (Undefined "safestrcpy") (safestrcpy (p_name q) (p_name me) 16) in
      upd_proc np (p_set_name name) ;;;
      upd_proc np (p_set_state RUNNABLE) ;;;
      ret (p_pid q)
  end.

(** ** Exit and wait *)

(** Closing the descriptors from [fd] on. *)
Fixpoint close_files cur (fds : list nat) : M (sys L) unit :=
  match fds with
  | [] => ret tt
  | fd :: fds =>
      let! me := get_proc cur in
      (match p_ofile me !! fd with
       | Some (Some f) =>
           in_kern (fileclose devsw_read end_ f) ;;;
           upd_proc cur (fun q => p_set_ofile (<[fd := None]> (p_ofile q)) q)
       | _ => ret tt
       end) ;;;
      close_files cur fds
  end.

(** [exit], up to the switch to the scheduler. *)
Definition exit cur : M (sys L) unit :=
  let! init := gets initproc in
  if decide (cur = init) then panic "init exiting" else
  close_files cur (seq 0 (Z.to_nat NOFILE)) ;;;
  in_kern (in_fs (in_low begin_op)) ;;;
  let! me := get_proc cur in
  let! c := of_option (Undefined "no current directory") (p_cwd me) in
  in_kern (in_fs (iput devsw_read c)) ;;;
  in_kern (in_fs (in_low end_op)) ;;;
  upd_proc cur (p_set_cwd None) ;;;
  modify (fun s => set_ptable (exit_table cur init (ptable s)) s).

(** What [wait] does with a zombie child. *)
Definition reap (k : nat) : M (sys L) Z :=
  let! q := get_proc k in
  in_vm (kfree end_ (p_kstack q)) ;;;
  upd_proc k (p_set_kstack 0) ;;;
  in_vm (freevm end_ (p_pgdir q)) ;;;
  upd_proc k (fun q => p_set_killed false (p_set_name (<[0%nat := 0]> (p_name q))
                         (p_set_parent None (p_set_pid 0 (p_set_state UNUSED q))))) ;;;
  ret (p_pid q).

(** [wait], up to its result, or its sleep on [cur], for which there is none; it
    starts over when it is woken. *)
Definition wait cur : M (sys L) (option Z) :=
  let! t := gets ptable in
  match wait_scan cur 0 false t with
  | inl k => let! pid := reap k in ret (Some pid)
  | inr havekids =>
      let! me := get_proc cur in
      if negb havekids || p_killed me then ret (Some (-1)) else
      modify (fun s => set_ptable (sleep_table cur (ChProc cur) (ptable s)) s) ;;;
      ret None
  end.
End Proc.

(** ** The invariant of the table *)

Definition alive (p : proc) : Prop := p_state p = SLEEPING \/ p_state p = RUNNABLE \/ p_state p = RUNNING.

Lemma alive_live p : alive p -> p_state p <> UNUSED /\ p_state p <> ZOMBIE.
Proof. intros [->|[->| ->]]; done. Qed.

(** Process ids are distinct; a process other than the first has a parent that is
    alive; a sleeping process has a channel; no process sleeps in [wait] while it
    has a zombie child; and parents, the first process above all, are older than
    their children. *)
Record table_ok (init : nat) (next : Z) (t : list proc) : Prop := {
  to_init : exists q, t !! init = Some q /\ alive q /\ p_parent q = None;
  to_self : forall i p, t !! i = Some p -> p_parent p <> Some i;
  to_pid : forall i p, t !! i = Some p -> p_pid p < next;
  to_uniq : forall i j p q, t !! i = Some p -> t !! j = Some q -> p_state p <> UNUSED -> p_state q <> UNUSED ->
    p_pid p = p_pid q -> i = j;
  to_unused : forall i p, t !! i = Some p -> p_state p = UNUSED -> p_parent p = None;
  to_parent : forall i p pa, t !! i = Some p -> p_parent p = Some pa -> exists q, t !! pa = Some q /\ alive q;
  to_orphan : forall i p, t !! i = Some p -> p_state p <> UNUSED -> i <> init -> p_parent p <> None;
  to_chan : forall i p, t !! i = Some p -> p_state p = SLEEPING -> p_chan p <> None;
  to_wait : forall i p pa q, t !! i = Some p -> p_state p = ZOMBIE -> p_parent p = Some pa ->
    t !! pa = Some q -> p_state q = SLEEPING -> p_chan q <> Some (ChProc pa);
  to_first : forall i p q, t !! i = Some p -> p_state p <> UNUSED -> i <> init -> t !! init = Some q -> p_pid q < p_pid p;
  to_order : forall i p pa q, t !! i = Some p -> p_parent p = Some pa -> t !! pa = Some q -> p_pid q < p_pid p
}.

(** A change that nobody else notices: nobody is born, dies or falls asleep. *)
Record calm (p p' : proc) : Prop := {
  ca_pid : p_pid p' = p_pid p;
  ca_parent : p_parent p' = p_parent p;
  ca_state : p_state p' = p_state p \/ alive p /\ alive p';
  ca_sleep : p_state p' = SLEEPING -> p_state p = SLEEPING /\ p_chan p' = p_chan p
}.

Lemma calm_refl p : calm p p.
Proof. constructor; auto. Qed.

Lemma calm_alive p p' : calm p p' -> alive p -> alive p'.
Proof. intros [_ _ [E|[_ ?]] _] Ha; [|done]. unfold alive in *. by rewrite E. Qed.

Lemma calm_unused p p' : calm p p' -> (p_state p' = UNUSED <-> p_state p = UNUSED).
Proof.
  intros [_ _ [E|[Ha Ha']] _]; [by rewrite E|]. apply alive_live in Ha, Ha'. tauto.
Qed.

Lemma calm_zombie p p' : calm p p' -> p_state p' = ZOMBIE -> p_state p = ZOMBIE.
Proof. intros [_ _ [E|[_ Ha]] _] Hz; [congruence|]. by apply alive_live in Ha as [_ ?]. Qed.

Lemma calm_ok init next t t' : Forall2 calm t t' -> table_ok init next t -> table_ok init next t'.
Proof.
  intros Hc [T1 T0 T2 T3 T4 T5 T6 T7 T8 T9 T10].
  assert (HF : forall i p', t' !! i = Some p' -> exists p, t !! i = Some p /\ calm p p').
  { intros i p' Hi. destruct (Forall2_lookup_r _ _ _ _ _ Hc Hi) as (p & ? & ?). eauto. }
  assert (HL : forall i p, t !! i = Some p -> alive p -> exists p', t' !! i = Some p' /\ alive p').
  { intros i p Hi Ha. destruct (Forall2_lookup_l _ _ _ _ _ Hc Hi) as (p' & ? & Hca). exists p'. eauto using calm_alive. }
  constructor.
  - destruct T1 as (q & Hq & Ha & Hpq). destruct (Forall2_lookup_l _ _ _ _ _ Hc Hq) as (q' & ? & C). exists q'.
    rewrite (ca_parent _ _ C). eauto using calm_alive.
  - intros i p' (p & Hp & C)%HF. rewrite (ca_parent _ _ C). by eapply T0.
  - intros i p' (p & Hp & C)%HF. rewrite (ca_pid _ _ C). by eapply T2.
  - intros i j p' q' (p & Hp & Cp)%HF (q & Hq & Cq)%HF Up Uq E. rewrite (calm_unused _ _ Cp) in Up.
    rewrite (calm_unused _ _ Cq) in Uq. rewrite (ca_pid _ _ Cp), (ca_pid _ _ Cq) in E. by eapply T3.
  - intros i p' (p & Hp & C)%HF U. rewrite (ca_parent _ _ C). eapply T4; [done|by apply (calm_unused _ _ C)].
  - intros i p' pa (p & Hp & C)%HF E. rewrite (ca_parent _ _ C) in E. destruct (T5 _ _ _ Hp E) as (q & Hq & Ha). eauto.
  - intros i p' (p & Hp & C)%HF U Hi. rewrite (ca_parent _ _ C). rewrite (calm_unused _ _ C) in U. by eapply T6.
  - intros i p' (p & Hp & C)%HF S. destruct (ca_sleep _ _ C S) as [S' ->]. exact (T7 i p Hp S').
  - intros i p' pa q' (p & Hp & C)%HF Hz E (q & Hq & Cq)%HF S. destruct (ca_sleep _ _ Cq S) as [S' ->].
    rewrite (ca_parent _ _ C) in E. apply (calm_zombie _ _ C) in Hz. exact (T8 i p pa q Hp Hz E Hq S').
  - intros i p' q' (p & Hp & C)%HF U Hi (q & Hq & Cq)%HF. rewrite (calm_unused _ _ C) in U.
    rewrite (ca_pid _ _ C), (ca_pid _ _ Cq). exact (T9 i p q Hp U Hi Hq).
  - intros i p' pa q' (p & Hp & C)%HF E (q & Hq & Cq)%HF. rewrite (ca_parent _ _ C) in E.
    rewrite (ca_pid _ _ C), (ca_pid _ _ Cq). exact (T10 i p pa q Hp E Hq).
Qed.

Lemma Forall2_fmap_self {A} (R : A -> A -> Prop) (f : A -> A) (l : list A) : (forall x, R x (f x)) -> Forall2 R l (f <$> l).
Proof. intros Hf. induction l; constructor; auto. Qed.

Lemma Forall2_alter_self {A} (R : A -> A -> Prop) (f : A -> A) i (l : list A) :
  (forall x, R x x) -> (forall x, l !! i = Some x -> R x (f x)) -> Forall2 R l (alter f i l).
Proof.
  intros Hr. revert l. induction i as [|i IH]; intros [|x l] Hf; cbn in *; constructor; auto; by apply Forall_Forall2_diag, Forall_true.
Qed.

Lemma wakeup1_calm c t : Forall2 calm t (wakeup1 c t).
Proof.
  apply Forall2_fmap_self. intros p. case_decide as E; [|apply calm_refl]. constructor; try done.
  right. split; [by left; apply E|right; by left].
Qed.

Lemma kill_calm pid t : Forall2 calm t (snd (kill pid t)).
Proof.
  induction t as [|p t IH]; cbn; [constructor|]. destruct (p_pid p =? pid).
  - cbn. constructor; [|by apply Forall_Forall2_diag, Forall_true, calm_refl]. case_decide as E; constructor; try done.
    + right. split; [by left|right; by left].
    + by left.
  - destruct (kill pid t) as [r t']. cbn in *. constructor; [apply calm_refl|done].
Qed.

Lemma alter_lookup_inv {A} (f : A -> A) k (l : list A) i y : alter f k l !! i = Some y ->
  (i = k /\ exists x, l !! k = Some x /\ y = f x) \/ (i <> k /\ l !! i = Some y).
Proof.
  destruct (decide (i = k)) as [->|Hn]; [left|right; by rewrite list_lookup_alter_ne in H].
  split; [done|]. rewrite list_lookup_alter_eq in H. apply fmap_Some in H as (x & ? & ->). eauto.
Qed.

Lemma alter_lookup_alive f k (t : list proc) i q :
  t !! i = Some q -> alive q -> (i = k -> alive (f q)) -> exists q', alter f k t !! i = Some q' /\ alive q'.
Proof.
  intros Hq Ha Hf. destruct (decide (i = k)) as [->|Hn].
  - exists (f q). rewrite list_lookup_alter_eq, Hq. split; [done|by apply Hf].
  - exists q. by rewrite list_lookup_alter_ne.
Qed.

(** The running process falls asleep. *)
Lemma sleep_ok init next t cur me c :
  table_ok init next t -> t !! cur = Some me -> alive me ->
  (forall k, c = ChProc k -> k = cur) ->
  (c = ChProc cur -> forall i p, t !! i = Some p -> p_parent p = Some cur -> p_state p <> ZOMBIE) ->
  table_ok init next (sleep_table cur c t).
Proof.
  intros [T1 T0 T2 T3 T4 T5 T6 T7 T8 T9 T10] Hme Hal Hc Hz. unfold sleep_table. set (f := fun p => _).
  assert (HA : forall i q, t !! i = Some q -> alive q -> exists q', alter f cur t !! i = Some q' /\ alive q').
  { intros i q Hq Ha. apply (alter_lookup_alive f cur t i q Hq Ha). intros _. by left. }
  assert (HF : forall i p', alter f cur t !! i = Some p' -> exists p, t !! i = Some p /\ p_pid p' = p_pid p /\
    p_parent p' = p_parent p /\ (p_state p' = UNUSED <-> p_state p = UNUSED) /\ (p_state p' = ZOMBIE -> p_state p = ZOMBIE) /\
    (p_state p' = SLEEPING -> i = cur /\ p_chan p' = Some c \/ p_state p = SLEEPING /\ p_chan p' = p_chan p)).
  { intros i p' [(-> & p & Hp & ->)|[Hn Hp]]%alter_lookup_inv; [|exists p'; split_and!; auto; done].
    exists p. rewrite Hme in Hp. injection Hp as <-. apply alive_live in Hal. cbn. split_and!; try done; [split; [done|tauto]|auto]. }
  constructor.
  - destruct T1 as (q & Hq & Ha & Hpq). destruct (HA _ _ Hq Ha) as (q' & Hq' & Ha'). exists q'. split_and!; try done.
    destruct (HF _ _ Hq') as (q0 & Hq0 & _ & E & _). rewrite E. congruence.
  - intros i p' (p & Hp & _ & -> & _)%HF. by eapply T0.
  - intros i p' (p & Hp & -> & _)%HF. by eapply T2.
  - intros i j p' q' (p & Hp & -> & _ & Up & _)%HF (q & Hq & -> & _ & Uq & _)%HF. rewrite Up, Uq. by apply T3.
  - intros i p' (p & Hp & _ & -> & U & _)%HF. rewrite U. by eapply T4.
  - intros i p' pa (p & Hp & _ & -> & _)%HF E. destruct (T5 _ _ _ Hp E) as (q & Hq & Ha). eauto.
  - intros i p' (p & Hp & _ & -> & U & _)%HF. rewrite U. by eapply T6.
  - intros i p' (p & Hp & _ & _ & _ & _ & S)%HF Hs. destruct (S Hs) as [[_ ->]|[Hs' ->]]; [done|exact (T7 i p Hp Hs')].
  - intros i p' pa q' (p & Hp & _ & -> & _ & Z1 & _)%HF Hz' E (q & Hq & _ & _ & _ & _ & S)%HF Hs.
    destruct (S Hs) as [[-> ->]|[Hs' ->]]; [|exact (T8 i p pa q Hp (Z1 Hz') E Hq Hs')].
    intros [= Ec]. by apply (Hz Ec i p Hp E), Z1.
  - intros i p' q' (p & Hp & -> & _ & U & _)%HF Up Hi (q & Hq & -> & _)%HF. rewrite U in Up. exact (T9 i p q Hp Up Hi Hq).
  - intros i p' pa q' (p & Hp & -> & -> & _)%HF E (q & Hq & -> & _)%HF. exact (T10 i p pa q Hp E Hq).
Qed.

(** A slot is filled, or freed, that no process has as its parent. *)
Lemma slot_ok init next next' t k p p' :
  table_ok init next t -> t !! k = Some p -> ~ alive p -> next <= next' -> p_pid p' < next' ->
  (p_state p' = UNUSED /\ p_parent p' = None \/
   p_state p' = RUNNABLE /\ next <= p_pid p' /\ exists pa q, p_parent p' = Some pa /\ t !! pa = Some q /\ alive q) ->
  table_ok init next' (<[k := p']> t).
Proof.
  intros [T1 T0 T2 T3 T4 T5 T6 T7 T8 T9 T10] Hk Hna Hnext Hpid Hp'.
  assert (Hl : (k < length t)%nat) by (by eapply lookup_lt_Some).
  assert (HA : forall i q, t !! i = Some q -> alive q -> <[k := p']> t !! i = Some q).
  { intros i q Hq Ha. rewrite list_lookup_insert_ne; [done|]. intros ->. congruence. }
  assert (HF : forall i x, <[k := p']> t !! i = Some x -> (i = k /\ x = p') \/ (i <> k /\ t !! i = Some x)).
  { intros i x Hx. destruct (decide (i = k)) as [->|Hn]; [left|right].
    - rewrite list_lookup_insert_eq in Hx by done. by injection Hx.
    - by rewrite list_lookup_insert_ne in Hx. }
  constructor.
  - destruct T1 as (q & Hq & Ha & Hpq). eauto.
  - intros i x [[-> ->]|[_ Hx]]%HF; [|by eapply T0].
    destruct Hp' as [[_ ->]|(_ & _ & pa & q & -> & Hq & Ha)]; [done|]. intros [= ->]. congruence.
  - intros i x [[-> ->]|[_ Hx]]%HF; [done|]. pose proof (T2 _ _ Hx). lia.
  - intros i j x y [[-> ->]|[Hi Hx]]%HF [[-> ->]|[Hj Hy]]%HF Ux Uy E; [done|..|by eapply T3].
    + exfalso. destruct Hp' as [[? _]|(_ & Hge & _)]; [done|]. pose proof (T2 _ _ Hy). lia.
    + exfalso. destruct Hp' as [[? _]|(_ & Hge & _)]; [done|]. pose proof (T2 _ _ Hx). lia.
  - intros i x [[-> ->]|[_ Hx]]%HF U; [|by eapply T4]. destruct Hp' as [[_ ?]|[? _]]; [done|congruence].
  - intros i x pa [[-> ->]|[_ Hx]]%HF E.
    + destruct Hp' as [[_ ?]|(_ & _ & pa' & q & E' & Hq & Ha)]; [congruence|]. rewrite E in E'. injection E' as <-. eauto.
    + destruct (T5 _ _ _ Hx E) as (q & Hq & Ha). eauto.
  - intros i x [[-> ->]|[_ Hx]]%HF U Hi; [|by eapply T6]. destruct Hp' as [[? _]|(_ & _ & pa' & q & E' & _)]; [done|congruence].
  - intros i x [[-> ->]|[_ Hx]]%HF S; [|exact (T7 _ _ Hx S)]. destruct Hp' as [[? _]|[? _]]; congruence.
  - intros i x pa q [[-> ->]|[_ Hx]]%HF Hz E [[-> ->]|[_ Hq]]%HF S; try (destruct Hp' as [[? _]|[? _]]; congruence).
    exact (T8 i x pa q Hx Hz E Hq S).
  - intros i x q [[-> ->]|[_ Hx]]%HF U Hi [[-> ->]|[_ Hq]]%HF; [done|..|exact (T9 i x q Hx U Hi Hq)].
    + destruct Hp' as [[? _]|(_ & ? & _)]; [done|]. pose proof (T2 _ _ Hq). lia.
    + destruct T1 as (q & Hq & Ha & _). congruence.
  - intros i x pa q [[-> ->]|[_ Hx]]%HF E [[-> ->]|[_ Hq]]%HF.
    + destruct Hp' as [[_ ?]|(_ & _ & pa' & q & E' & Hq & Ha)]; [congruence|]. rewrite E in E'. injection E' as <-. congruence.
    + destruct Hp' as [[_ ?]|(_ & ? & _)]; [congruence|]. pose proof (T2 _ _ Hq). lia.
    + destruct (T5 _ _ _ Hx E) as (q & Hq & Ha). congruence.
    + exact (T10 i x pa q Hx E Hq).
Qed.

(** ** Exit *)

Definition asleep_in (k : nat) (p : proc) : Prop := p_state p = SLEEPING /\ p_chan p = Some (ChProc k).

(** [t'] is [t] after the children of [cur] in the first [k] slots were handed to
    [init]. *)
Record handed (cur init k : nat) (t t' : list proc) : Prop := {
  hd_len : length t' = length t;
  hd_slot : forall i p', t' !! i = Some p' -> exists p, t !! i = Some p /\ p_pid p' = p_pid p /\ p_chan p' = p_chan p /\
    p_parent p' = (if decide ((i < k)%nat /\ p_parent p = Some cur) then Some init else p_parent p) /\
    (p_state p' = p_state p \/ asleep_in init p /\ p_state p' = RUNNABLE);
  hd_woken : forall i p, (i < k)%nat -> t !! i = Some p -> p_parent p = Some cur -> p_state p = ZOMBIE ->
    forall j q, t' !! j = Some q -> ~ asleep_in init q
}.

Lemma wakeup1_lookup c t i p' : wakeup1 c t !! i = Some p' -> exists p, t !! i = Some p /\
  p_pid p' = p_pid p /\ p_chan p' = p_chan p /\ p_parent p' = p_parent p /\
  (p_state p' = p_state p \/ p_state p = SLEEPING /\ p_chan p = Some c /\ p_state p' = RUNNABLE) /\
  ~ (p_state p' = SLEEPING /\ p_chan p' = Some c).
Proof.
  unfold wakeup1. rewrite list_lookup_fmap. intros (p & Hp & ->)%fmap_Some. exists p. split; [done|].
  case_decide as E; cbn; split_and!; try done; auto; try tauto. by intros [? _].
Qed.

(** Handing over one more slot, first the parent, then the wakeup. *)
Lemma handed_parent cur init k t t' p' : cur <> init ->
  handed cur init k t t' -> t' !! k = Some p' -> (p_parent p' = Some cur -> p_state p' <> ZOMBIE \/ forall j q, t' !! j = Some q -> ~ asleep_in init q) ->
  handed cur init (S k) t (if decide (p_parent p' = Some cur) then alter (p_set_parent (Some init)) k t' else t').
Proof.
  intros Hci [H1 H2 H3] Hk Hz. assert (Hk0 : exists p, t !! k = Some p /\ p_parent p' = p_parent p /\ (p_state p = ZOMBIE -> p_state p' = ZOMBIE)).
  { destruct (H2 k p' Hk) as (p & Hp & _ & _ & Hpar & Hst). exists p. rewrite decide_False in Hpar by lia.
    split_and!; try done. intros Z1. destruct Hst as [->|[[? _] _]]; congruence. }
  destruct Hk0 as (p & Hp & Hpp & Hzz). constructor.
  - case_decide; by rewrite ?length_alter.
  - intros i q'. case_decide as E.
    + intros [(-> & x & Hx & ->)|[Hn Hq]]%alter_lookup_inv.
      * destruct (H2 k x Hx) as (y & Hy & ? & ? & Hpar & ?). exists y. cbn. split_and!; try done.
        rewrite decide_True; [done|]. split; [lia|]. congruence.
      * destruct (H2 i q' Hq) as (y & Hy & ? & ? & Hpar & ?). exists y. split_and!; try done. rewrite Hpar.
        apply decide_ext. split; intros [? ?]; (split; [lia|done]).
    + intros Hq. destruct (H2 i q' Hq) as (y & Hy & ? & ? & Hpar & ?). exists y. split_and!; try done. rewrite Hpar.
      apply decide_ext. split; intros [? ?]; (split; [|done]); [lia|]. destruct (decide (i = k)) as [->|]; [|lia].
      exfalso. apply E. congruence.
  - intros i x Hi Hx Hxp Hxz j q Hq.
    assert (Hq' : exists q0, t' !! j = Some q0 /\ (asleep_in init q -> asleep_in init q0)).
    { case_decide as E; [|by exists q]. apply alter_lookup_inv in Hq as [(-> & y & Hy & ->)|[Hn Hy]]; [by exists y|by exists q]. }
    destruct Hq' as (q0 & Hq0 & Hsl). intros Hs. apply Hsl in Hs. revert Hs.
    destruct (decide (i = k)) as [->|Hn]; [|exact (H3 i x ltac:(lia) Hx Hxp Hxz j q0 Hq0)].
    rewrite Hp in Hx. injection Hx as <-. rewrite <- Hpp in Hxp. destruct (Hz Hxp) as [Hnz|Hnone]; [by apply Hzz in Hxz|].
    by apply (Hnone j).
Qed.

Lemma handed_wakeup cur init k t t' : handed cur init k t t' ->
  handed cur init k t (wakeup1 (ChProc init) t') /\ forall j q, wakeup1 (ChProc init) t' !! j = Some q -> ~ asleep_in init q.
Proof.
  intros [H1 H2 H3]. assert (Hw : forall j q, wakeup1 (ChProc init) t' !! j = Some q -> ~ asleep_in init q).
  { intros j q Hq. by apply wakeup1_lookup in Hq as (? & _ & _ & _ & _ & _ & ?). }
  split; [|done]. constructor.
  - unfold wakeup1. by rewrite length_fmap.
  - intros i q' (q & Hq & E1 & E2 & E3 & E4 & _)%wakeup1_lookup. destruct (H2 i q Hq) as (p & Hp & F1 & F2 & F3 & F4).
    exists p. split_and!; try congruence. destruct E4 as [->|(S & C & ->)]; [done|]. right. split; [|done].
    destruct F4 as [F4|[[F4 F5] F6]]; [|congruence]. split; congruence.
  - intros i p _ _ _ _. apply Hw.
Qed.

Lemma wakeup1_parent c x k t : wakeup1 c (alter (p_set_parent x) k t) = alter (p_set_parent x) k (wakeup1 c t).
Proof.
  revert t. induction k as [|k IH]; intros [|p t]; try done; cbn.
  - f_equal. repeat case_decide; try done; tauto.
  - f_equal. apply IH.
Qed.

Lemma reparent_handed cur init t : cur <> init ->
  forall n k t', handed cur init k t t' -> (k + n)%nat = length t -> handed cur init (length t) t (reparent n k cur init t').
Proof.
  intros Hci. induction n as [|n IH]; intros k t' Hh Hn; cbn [reparent]; [by replace (length t) with k by lia|].
  destruct (t' !! k) as [p'|] eqn:Hk; [|apply lookup_ge_None_1 in Hk; rewrite (hd_len _ _ _ _ _ Hh) in Hk; lia].
  apply IH; [|lia]. pose proof (handed_parent cur init k t t' p' Hci Hh Hk) as HP.
  case_decide as E; [|apply HP; tauto]. case_decide as Hz; [|apply HP; by left].
  rewrite wakeup1_parent. destruct (handed_wakeup _ _ _ _ _ Hh) as [Hh' Hw].
  assert (Hk' : wakeup1 (ChProc init) t' !! k = Some p').
  { unfold wakeup1. rewrite list_lookup_fmap, Hk. cbn. rewrite decide_False; [done|]. intros [? _]. congruence. }
  pose proof (handed_parent cur init k t _ p' Hci Hh' Hk') as HP'. rewrite decide_True in HP' by done. apply HP'. by right.
Qed.

Lemma handed_start cur init t : handed cur init 0 t t.
Proof.
  constructor; [done| |lia]. intros i p Hp. exists p. rewrite decide_False by lia. split_and!; auto.
Qed.

(** The process that handed over its children becomes a zombie; its parent is
    awake. *)
Lemma zombie_ok init next t t' cur me pa :
  table_ok init next t -> handed cur init (length t) t t' -> t !! cur = Some me -> alive me -> cur <> init ->
  p_parent me = Some pa -> (forall j q, t !! j = Some q -> ~ asleep_in pa q) ->
  table_ok init next (alter (p_set_state ZOMBIE) cur t').
Proof.
  intros [T1 T0 T2 T3 T4 T5 T6 T7 T8 T9 T10] [H1 H2 H3] Hme Hal Hci Hpa Hpw. set (f := p_set_state ZOMBIE).
  assert (Hup : forall i p, t !! i = Some p -> exists p', t' !! i = Some p' /\ (alive p -> alive p')).
  { intros i p Hp. destruct (lookup_lt_is_Some_2 t' i) as [p' Hp']; [rewrite H1; by eapply lookup_lt_Some|].
    exists p'. split; [done|]. destruct (H2 i p' Hp') as (p0 & Hp0 & _ & _ & _ & Hst). rewrite Hp in Hp0. injection Hp0 as <-.
    intros Ha. destruct Hst as [E|[_ E]]; unfold alive in *; rewrite E; auto. }
  assert (HA : forall i p, t !! i = Some p -> alive p -> i <> cur -> exists p', alter f cur t' !! i = Some p' /\ alive p').
  { intros i p Hp Ha Hn. destruct (Hup i p Hp) as (p' & Hp' & Ha'). exists p'. rewrite list_lookup_alter_ne by done. auto. }
  assert (HF : forall i x, alter f cur t' !! i = Some x -> exists p, t !! i = Some p /\ p_pid x = p_pid p /\
    p_parent x = (if decide (p_parent p = Some cur) then Some init else p_parent p) /\
    (p_state x = UNUSED <-> p_state p = UNUSED) /\ (p_state x = ZOMBIE -> i = cur \/ p_state p = ZOMBIE) /\
    (p_state x = SLEEPING -> p_state p = SLEEPING /\ p_chan x = p_chan p /\ t' !! i = Some x)).
  { intros i x Hx. assert (Hc : exists y, t' !! i = Some y /\ (i <> cur /\ x = y \/ i = cur /\ x = f y)).
    { apply alter_lookup_inv in Hx as [(-> & y & ? & ->)|[? ?]]; eauto. }
    destruct Hc as (y & Hy & Hxy). destruct (H2 i y Hy) as (p & Hp & E1 & E2 & E3 & E4). exists p.
    assert (Hlt : (i < length t)%nat) by (by eapply lookup_lt_Some).
    rewrite (decide_ext _ (p_parent p = Some cur)) in E3 by tauto.
    destruct Hxy as [[Hn ->]|[-> ->]].
    - split_and!; try done; destruct E4 as [->|[[Hs _] ->]]; try done; rewrite ?Hs; auto; done.
    - rewrite Hme in Hp. injection Hp as <-. apply alive_live in Hal. cbn. split_and!; try done; [split; [done|tauto]|auto]. }
  constructor.
  - destruct T1 as (q & Hq & Ha & Hpq). destruct (HA _ _ Hq Ha) as (q' & Hq' & Ha'); [done|]. exists q'. split_and!; try done.
    destruct (HF _ _ Hq') as (q0 & Hq0 & _ & E & _). rewrite Hq in Hq0. injection Hq0 as <-. by rewrite E, Hpq.
  - intros i x (p & Hp & _ & -> & _)%HF. case_decide as E; [|by eapply T0]. intros [= ->].
    destruct T1 as (q & Hq & _ & Hpq). congruence.
  - intros i x (p & Hp & -> & _)%HF. by eapply T2.
  - intros i j x y (p & Hp & -> & _ & Up & _)%HF (q & Hq & -> & _ & Uq & _)%HF. rewrite Up, Uq. by apply T3.
  - intros i x (p & Hp & _ & -> & U & _)%HF Hu. apply U in Hu. rewrite (T4 _ _ Hp Hu). done.
  - intros i x y (p & Hp & _ & -> & _)%HF E. case_decide as Ec.
    + injection E as <-. destruct T1 as (q & Hq & Ha & _). by apply (HA _ q).
    + destruct (T5 _ _ _ Hp E) as (q & Hq & Ha). apply (HA _ q); try done. congruence.
  - intros i x (p & Hp & _ & -> & U & _)%HF. rewrite U. intros Hu Hi. case_decide; [done|by eapply T6].
  - intros i x (p & Hp & _ & _ & _ & _ & S)%HF Hs. destruct (S Hs) as (Hs' & -> & _). exact (T7 i p Hp Hs').
  - intros i x y z (p & Hp & _ & -> & _ & Z1 & _)%HF Hz E (q & Hq & _ & _ & _ & _ & S)%HF Hs.
    destruct (S Hs) as (Hs' & -> & Hz'). destruct (Z1 Hz) as [->|Hzp].
    + rewrite Hme in Hp. injection Hp as <-. rewrite Hpa in E. case_decide as Ec; [exfalso; apply (T0 cur me Hme); congruence|].
      injection E as <-. intros Hch. by apply (Hpw pa q Hq).
    + case_decide as Ec.
      * injection E as <-. intros Hch. apply (H3 i p) in Hz'; try done; [|by eapply lookup_lt_Some]. apply Hz'. split; [done|].
        destruct (S Hs) as (_ & -> & _). done.
      * exact (T8 i p y q Hp Hzp E Hq Hs').
  - intros i x y (p & Hp & -> & _ & U & _)%HF Ux Hi (q & Hq & -> & _)%HF. rewrite U in Ux. exact (T9 i p q Hp Ux Hi Hq).
  - intros i x y z (p & Hp & -> & -> & _)%HF E (q & Hq & -> & _)%HF. case_decide as Ec; [|exact (T10 i p y q Hp E Hq)].
    injection E as <-. apply (T9 i p q Hp); [intros Hu|intros ->|done].
    + by rewrite (T4 _ _ Hp Hu) in Ec.
    + destruct T1 as (q0 & Hq0 & _ & Hpq). congruence.
Qed.

(** The table after the end of [exit]. *)
Lemma exit_ok init next t cur me : table_ok init next t -> t !! cur = Some me -> alive me -> cur <> init ->
  table_ok init next (exit_table cur init t).
Proof.
  intros T Hme Hal Hci. destruct (p_parent me) as [pa|] eqn:Hpa.
  2: { exfalso. apply alive_live in Hal as [Hu _]. exact (to_orphan _ _ _ T cur me Hme Hu Hci Hpa). }
  unfold exit_table. rewrite Hme. cbn [mbind option_bind]. rewrite Hpa.
  set (t1 := wakeup1 (ChProc pa) t).
  assert (T1 : table_ok init next t1) by (eapply calm_ok; [apply wakeup1_calm|done]).
  pose proof (wakeup1_calm (ChProc pa) t) as Hc. destruct (Forall2_lookup_l _ _ _ _ _ Hc Hme) as (m1 & Hm1 & C).
  apply (zombie_ok init next t1 _ cur m1 pa); try done.
  - apply reparent_handed; [done|apply handed_start|done].
  - by eapply calm_alive.
  - by rewrite (ca_parent _ _ C).
  - intros j q Hq. by apply wakeup1_lookup in Hq as (? & _ & _ & _ & _ & _ & ?).
Qed.

(** ** The operations on the table *)

Section Steps.
Context {L : Type} `{BlockOps L}.
Context (devsw_read : Z -> option (nat -> Z -> M (fsst L) (Z * list Z))).
Context (devsw_write : Z -> option (nat -> list Z -> Z -> M (fsst L) Z)).
Context (end_ data_ trapret_ forkret_ : Z).
Implicit Types s : sys L.

(** The kernel's other state may change, the processes do not. *)
Record same_procs s s' : Prop := {
  sp_table : ptable s' = ptable s;
  sp_next : nextpid s' = nextpid s;
  sp_init : initproc s' = initproc s
}.

Definition quiet {A} (c : M (sys L) A) : Prop := forall s a s', c s = Ok a s' -> same_procs s s'.

Lemma same_procs_refl s : same_procs s s.
Proof. by constructor. Qed.

Lemma same_procs_trans s1 s2 s3 : same_procs s1 s2 -> same_procs s2 s3 -> same_procs s1 s3.
Proof. intros [? ? ?] [? ? ?]. constructor; congruence. Qed.

Lemma quiet_bind {A B} (c : M (sys L) A) (k : A -> M (sys L) B) : quiet c -> (forall a, quiet (k a)) -> quiet (bind c k).
Proof. intros Hc Hk s b s' (a & s1 & H1 & H2)%bind_inv. eapply same_procs_trans; [by eapply Hc|by eapply Hk]. Qed.

Lemma quiet_ret {A} (a : A) : quiet (ret a).
Proof. intros s b s' [= <- <-]. apply same_procs_refl. Qed.

Lemma quiet_in_kern {A} (c : M (kern L) A) : quiet (in_kern c).
Proof. intros s a s'. unfold in_kern. destruct (c (s_kern s)); intros [= <- <-]. by constructor. Qed.

Lemma quiet_of_option {A} r (o : option A) : quiet (of_option r o).
Proof. destruct o; [apply quiet_ret|]. intros s a s' Hs. discriminate Hs. Qed.

Lemma quiet_get_proc p : quiet (get_proc p).
Proof. apply quiet_bind; [|intros; apply quiet_of_option]. intros s a s' [= <- <-]. apply same_procs_refl. Qed.

Lemma quiet_in_vm {A} (c : M kst A) : quiet (in_vm c).
Proof. apply quiet_in_kern. Qed.

Create HintDb procs.
Hint Resolve quiet_bind quiet_ret quiet_in_kern quiet_in_vm quiet_of_option quiet_get_proc : procs.

Lemma quiet_dup_files old : forall new, quiet (dup_files old new).
Proof.
  induction old as [|o old IH]; intros [|x new]; cbn; auto with procs.
  apply quiet_bind; [destruct o; auto with procs|]. intros y. apply quiet_bind; auto with procs.
Qed.
Hint Resolve quiet_dup_files : procs.

(** The table is [t] with slot [k] replaced by [p]. *)
Definition slot (t : list proc) (k : nat) (p : proc) s : Prop := (k < length t)%nat /\ ptable s = <[k := p]> t.

Lemma slot_quiet {A} t k p s (c : M (sys L) A) a s' : slot t k p s -> quiet c -> c s = Ok a s' ->
  slot t k p s' /\ nextpid s' = nextpid s /\ initproc s' = initproc s.
Proof. intros [Hk Ht] Hq Hc. destruct (Hq _ _ _ Hc) as [E1 E2 E3]. unfold slot. by rewrite E1. Qed.

Lemma slot_upd t k p s f a s' : slot t k p s -> upd_proc k f s = Ok a s' ->
  slot t k (f p) s' /\ nextpid s' = nextpid s /\ initproc s' = initproc s.
Proof.
  intros [Hk Ht] [= <- <-]. split_and!; try done. split; [done|]. cbn.
  rewrite Ht, (list_alter_lookup f k _ p) by (by rewrite list_lookup_insert_eq). by rewrite list_insert_insert_eq.
Qed.

Lemma slot_get t k p s q s' : slot t k p s -> get_proc k s = Ok q s' -> q = p /\ s' = s.
Proof.
  intros [Hk Ht]. unfold get_proc, bind, gets. rewrite Ht, list_lookup_insert_eq by done. by intros [= -> ->].
Qed.

Lemma alloc_scan_spec t : forall k np, alloc_scan k t = Some np ->
  exists p, (k <= np)%nat /\ t !! (np - k)%nat = Some p /\ p_state p = UNUSED.
Proof.
  induction t as [|p t IH]; intros k np; cbn; [done|]. case_decide as E.
  - intros [= <-]. exists p. by rewrite Nat.sub_diag.
  - intros Hs. destruct (IH _ _ Hs) as (q & Hk & Hq & Hu). exists q. split_and!; [lia| |done].
    by replace (np - k)%nat with (S (np - S k)) by lia.
Qed.

(** A slot that was free, with a new process id. *)
Record taken (t : list proc) (k : nat) (pid : Z) (q p : proc) : Prop := {
  tk_first : alloc_scan 0 t = Some k;
  tk_old : t !! k = Some q;
  tk_unused : p_state q = UNUSED;
  tk_pid : p_pid p = pid;
  tk_killed : p_killed p = p_killed q
}.

(** Steps of a computation that leave slot [S] alone, or change it. *)
Ltac step_quiet R S :=
  let x := fresh "x" in let s1 := fresh "s" in let Rk := fresh "Rk" in let S1 := fresh "S1" in
  let N := fresh "N" in let I := fresh "I" in let Q := fresh "Q" in
  apply bind_inv in R as (x & s1 & Rk & R);
  match type of Rk with ?c _ = _ => assert (Q : quiet c) by auto with procs end;
  destruct (slot_quiet _ _ _ _ _ _ _ S Q Rk) as (S1 & N & I); clear S Q; rename S1 into S.
Ltac step_test R := match type of R with (if ?b then _ else _) _ = _ => destruct b end.
Ltac step_upd R S :=
  let x := fresh "x" in let s1 := fresh "s" in let Rk := fresh "Rk" in let S1 := fresh "S1" in
  let N := fresh "N" in let I := fresh "I" in
  apply bind_inv in R as (x & s1 & Rk & R);
  destruct (slot_upd _ _ _ _ _ _ _ S Rk) as (S1 & N & I); clear S; rename S1 into S.

Lemma allocproc_table s o s' : allocproc trapret_ forkret_ s = Ok o s' ->
  initproc s' = initproc s /\
  (o = None /\ same_procs s s' \/
   exists k q p, taken (ptable s) k (nextpid s) q p /\ p_parent p = p_parent q /\ slot (ptable s) k p s' /\
     nextpid s' = i32 (nextpid s + 1) /\ (o = None /\ p_state p = UNUSED \/ o = Some k /\ p_state p = EMBRYO)).
Proof.
  unfold allocproc. intros R. apply bind_inv in R as (t & s0 & [= <- <-] & R).
  destruct (alloc_scan 0 (ptable s)) as [k|] eqn:Es.
  2: { injection R as <- <-. split; [done|]. left. split; [done|apply same_procs_refl]. }
  destruct (alloc_scan_spec _ _ _ Es) as (q & _ & Hq & Hu). rewrite Nat.sub_0_r in Hq.
  assert (S : slot (ptable s) k q s) by (split; [by eapply lookup_lt_Some|by rewrite list_insert_id]).
  step_upd R S. apply bind_inv in R as (pid & s2 & [= <- <-] & R). step_upd R S.
  apply bind_inv in R as (? & s4 & [= <- <-] & R).
  match type of R with bind _ _ ?s4 = _ => assert (S4 : slot (ptable s) k _ s4) by exact S end. clear S. rename S4 into S.
  step_quiet R S. cbn [nextpid initproc] in *. step_upd R S. step_test R.
  - step_upd R S. injection R as <- <-. split; [congruence|]. right. eexists k, q, _.
    split_and!; [|..|exact S|congruence|by left]; [|done]. constructor; first [done|cbn; congruence].
  - step_quiet R S. step_upd R S. step_quiet R S. step_quiet R S. injection R as <- <-. split; [congruence|]. right.
    eexists k, q, _. split_and!; [|..|exact S|congruence|by right]; [|done]. constructor; first [done|cbn; congruence].
Qed.

Lemma fork_table cur s r s' : fork end_ data_ trapret_ forkret_ cur s = Ok r s' ->
  initproc s' = initproc s /\
  (r = -1 /\ same_procs s s' \/
   exists k q p, taken (ptable s) k (nextpid s) q p /\ slot (ptable s) k p s' /\ nextpid s' = i32 (nextpid s + 1) /\
     (r = -1 /\ p_state p = UNUSED /\ p_parent p = p_parent q \/
      r = nextpid s /\ p_state p = RUNNABLE /\ p_parent p = Some cur)).
Proof.
  unfold fork. intros R. apply bind_inv in R as (o & s1 & R1 & R).
  destruct (allocproc_table _ _ _ R1) as (I1 & [[-> Hs]|(k & q & p & [TK0 TK1 TK2 TK3 TK4] & Hpar & S & N1 & Ho)]).
  { injection R as <- <-. split; [done|]. by left. }
  destruct Ho as [[-> Hp]|[-> Hp]].
  { injection R as <- <-. split; [done|]. right. exists k, q, p. split_and!; auto. by constructor. }
  do 2 step_quiet R S. step_upd R S. apply bind_inv in R as (q' & s5 & R5 & R).
  destruct (slot_get _ _ _ _ _ _ S R5) as [-> ->]. step_test R.
  - step_quiet R S. do 2 step_upd R S. injection R as <- <-. split; [congruence|]. right. eexists k, q, _.
    split_and!; [|exact S|congruence|by left]. constructor; try done.
  - do 2 step_upd R S. do 3 step_quiet R S. step_upd R S. do 2 step_quiet R S. step_upd R S. step_quiet R S.
    do 2 step_upd R S. injection R as <- <-. split; [congruence|]. right. eexists k, q, _.
    split_and!; [|exact S|congruence|right; by split_and!]. constructor; try done.
Qed.

(** ** Wait and exit *)

Lemma wait_scan_spec cur t : forall k b,
  match wait_scan cur k b t with
  | inl j => exists p, (k <= j)%nat /\ t !! (j - k)%nat = Some p /\ p_parent p = Some cur /\ p_state p = ZOMBIE
  | inr _ => Forall (fun p => p_parent p = Some cur -> p_state p <> ZOMBIE) t
  end.
Proof.
  induction t as [|p t IH]; intros k b; cbn; [constructor|].
  assert (Hr : forall b', match wait_scan cur (S k) b' t with
    | inl j => exists p0, (k <= j)%nat /\ (p :: t) !! (j - k)%nat = Some p0 /\ p_parent p0 = Some cur /\ p_state p0 = ZOMBIE
    | inr _ => Forall (fun p => p_parent p = Some cur -> p_state p <> ZOMBIE) t
    end).
  { intros b'. specialize (IH (S k) b'). destruct (wait_scan cur (S k) b' t) as [j|]; [|done].
    destruct IH as (p0 & Hk & Hp & ? & ?). exists p0. split_and!; [lia| |done|done].
    by replace (j - k)%nat with (S (j - S k)) by lia. }
  case_decide as E; [case_decide as Hz|].
  - exists p. by rewrite Nat.sub_diag.
  - specialize (Hr true). destruct (wait_scan cur (S k) true t); [done|by constructor].
  - specialize (Hr b). destruct (wait_scan cur (S k) b t); [done|by constructor].
Qed.

Lemma wait_table cur s o s' : wait end_ cur s = Ok o s' ->
  nextpid s' = nextpid s /\ initproc s' = initproc s /\
  match o with
  | Some r => same_procs s s' \/ exists k q p, ptable s !! k = Some q /\ p_state q = ZOMBIE /\ p_parent q = Some cur /\
      slot (ptable s) k p s' /\ p_state p = UNUSED /\ p_parent p = None /\ p_pid p = 0 /\ p_killed p = false /\ r = p_pid q
  | None => ptable s' = sleep_table cur (ChProc cur) (ptable s) /\
      forall i p, ptable s !! i = Some p -> p_parent p = Some cur -> p_state p <> ZOMBIE
  end.
Proof.
  unfold wait. intros R. apply bind_inv in R as (t & s0 & [= <- <-] & R).
  pose proof (wait_scan_spec cur (ptable s) 0 false) as Hs. destruct (wait_scan cur 0 false (ptable s)) as [k|b].
  - destruct Hs as (q & _ & Hq & Hpar & Hz). rewrite Nat.sub_0_r in Hq.
    assert (S : slot (ptable s) k q s) by (split; [by eapply lookup_lt_Some|by rewrite list_insert_id]).
    apply bind_inv in R as (pid & s1 & R1 & [= <- <-]). unfold reap in R1.
    apply bind_inv in R1 as (q' & s2 & R2 & R1). destruct (slot_get _ _ _ _ _ _ S R2) as [-> ->].
    step_quiet R1 S. step_upd R1 S. step_quiet R1 S. step_upd R1 S. injection R1 as <- <-.
    split_and!; [congruence|congruence|]. right. eexists k, q, _. split_and!; try done.
  - apply bind_inv in R as (me & s1 & R1 & R). pose proof (quiet_get_proc _ _ _ _ R1) as [E1 E2 E3].
    destruct (negb b || p_killed me).
    + injection R as <- <-. split_and!; try done. by left.
    + apply bind_inv in R as (? & s2 & [= <- <-] & [= <- <-]). cbn. rewrite E1. split_and!; try done.
      intros i p Hp. rewrite Forall_forall in Hs. by apply Hs; eapply list_elem_of_lookup_2.
Qed.

(** Changes of slot [cur] nobody else notices. *)
Record calm_procs (cur : nat) s s' : Prop := {
  cp_table : Forall2 calm (ptable s) (ptable s');
  cp_other : forall k, k <> cur -> ptable s' !! k = ptable s !! k;
  cp_next : nextpid s' = nextpid s;
  cp_init : initproc s' = initproc s
}.

Lemma calm_trans p1 p2 p3 : calm p1 p2 -> calm p2 p3 -> calm p1 p3.
Proof.
  intros C1 C2. pose proof C1 as [A1 A2 A3 A4]. pose proof C2 as [B1 B2 B3 B4]. constructor; try congruence.
  - destruct A3 as [A3|[A3 A3']], B3 as [B3|[B3 B3']]; [left; congruence|..].
    + right. split; [|done]. unfold alive in *. by rewrite <- A3.
    + right. split; [done|]. by eapply calm_alive.
    + by right.
  - intros Hs. destruct (B4 Hs) as [Hs' ->]. by apply A4.
Qed.

Lemma calm_procs_trans cur s1 s2 s3 : calm_procs cur s1 s2 -> calm_procs cur s2 s3 -> calm_procs cur s1 s3.
Proof.
  intros [A1 A0 A2 A3] [B1 B0 B2 B3]. constructor; try congruence; [|intros k Hk; by rewrite B0, A0]. clear -A1 B1. revert B1. generalize (ptable s3).
  induction A1 as [|p1 p2 t1 t2 Hp Ht IH]; intros t3 B1; inversion B1; subst; constructor; eauto using calm_trans.
Qed.

Lemma same_calm cur s s' : same_procs s s' -> calm_procs cur s s'.
Proof.
  intros [E1 E2 E3]. constructor; try done; rewrite E1; [|done]. apply Forall_Forall2_diag, Forall_true, calm_refl.
Qed.

Lemma upd_calm k f s a s' : (forall p, calm p (f p)) -> upd_proc k f s = Ok a s' -> calm_procs k s s'.
Proof. intros Hf [= <- <-]. constructor; try done; cbn; [|intros j Hj; by rewrite list_lookup_alter_ne]. apply Forall2_alter_self; auto using calm_refl. Qed.

Lemma close_files_calm cur fds : forall s s', close_files devsw_read end_ cur fds s = Ok tt s' -> calm_procs cur s s'.
Proof.
  induction fds as [|fd fds IH]; intros s s'; cbn [close_files]; [intros [= <-]; apply same_calm, same_procs_refl|].
  intros (me & s1 & R1 & R)%bind_inv. apply bind_inv in R as (? & s2 & R2 & R).
  eapply calm_procs_trans; [apply same_calm; by eapply quiet_get_proc|]. eapply calm_procs_trans; [|by eapply IH].
  destruct (p_ofile me !! fd) as [[f|]|]; try (injection R2 as <- <-; apply same_calm, same_procs_refl).
  apply bind_inv in R2 as (? & s3 & R3 & R2). eapply calm_procs_trans; [apply same_calm; by eapply quiet_in_kern|].
  eapply upd_calm; [|exact R2]. intros p. constructor; auto.
Qed.

Lemma exit_table_eff cur s s' : exit devsw_read end_ cur s = Ok tt s' ->
  cur <> initproc s /\ exists s1, calm_procs cur s s1 /\ s' = set_ptable (exit_table cur (initproc s) (ptable s1)) s1.
Proof.
  unfold exit. intros (i & s0 & [= <- <-] & R)%bind_inv. case_decide as E; [done|]. split; [done|].
  apply bind_inv in R as ([] & s1 & R1 & R). apply bind_inv in R as (? & s2 & R2 & R).
  apply bind_inv in R as (me & s3 & R3 & R). apply bind_inv in R as (c & s4 & R4 & R).
  apply bind_inv in R as (? & s5 & R5 & R). apply bind_inv in R as (? & s6 & R6 & R).
  apply bind_inv in R as (? & s7 & R7 & [= <-]). exists s7. split; [|done].
  eapply calm_procs_trans; [by eapply close_files_calm|].
  eapply calm_procs_trans; [apply same_calm; by eapply quiet_in_kern|].
  eapply calm_procs_trans; [apply same_calm; by eapply quiet_get_proc|].
  eapply calm_procs_trans; [apply same_calm; by eapply quiet_of_option|].
  eapply calm_procs_trans; [apply same_calm; by eapply quiet_in_kern|].
  eapply calm_procs_trans; [apply same_calm; by eapply quiet_in_kern|].
  eapply upd_calm; [|exact R7]. intros p. constructor; auto.
Qed.

(** ** Runs *)

Definition running s (cur : nat) : Prop := exists me, ptable s !! cur = Some me /\ p_state me = RUNNING.

(** The fields other processes look at. *)
Definition same_core (p p' : proc) : Prop :=
  p_state p' = p_state p /\ p_pid p' = p_pid p /\ p_parent p' = p_parent p /\ p_chan p' = p_chan p.

(** What the kernel does: the calls of running processes, wakeups, the
    schedulers, and everything that does not concern the process table.  Only
    [wait] and [exit] use processes as channels. *)
Inductive pstep : sys L -> sys L -> Prop :=
| ps_fork s s' cur r : running s cur -> 0 < nextpid s < 2 ^ 31 - 1 ->
    fork end_ data_ trapret_ forkret_ cur s = Ok r s' -> pstep s s'
| ps_exit s s' cur : running s cur -> exit devsw_read end_ cur s = Ok tt s' -> pstep s s'
| ps_wait s s' cur o : running s cur -> wait end_ cur s = Ok o s' -> pstep s s'
| ps_sleep s cur c : running s cur -> (forall k, c <> ChProc k) -> pstep s (set_ptable (sleep_table cur c (ptable s)) s)
| ps_woken s cur : running s cur -> pstep s (set_ptable (wake_table cur (ptable s)) s)
| ps_yield s cur : running s cur -> pstep s (set_ptable (yield_table cur (ptable s)) s)
| ps_wakeup s c : pstep s (set_ptable (wakeup1 c (ptable s)) s)
| ps_kill s pid : pstep s (set_ptable (snd (kill pid (ptable s))) s)
| ps_sched s k : pstep s (set_ptable (snd (scheduler_turn k (ptable s))) s)
| ps_self s cur f : running s cur -> (forall p, same_core p (f p)) -> pstep s (set_ptable (alter f cur (ptable s)) s)
| ps_kernel s s' : same_procs s s' -> pstep s s'.

Definition procs_ok s : Prop := table_ok (initproc s) (nextpid s) (ptable s).

Lemma running_alive s cur : running s cur -> exists me, ptable s !! cur = Some me /\ alive me.
Proof. intros (me & Hme & Hr). exists me. split; [done|]. right. by right. Qed.

Lemma calm_step s t : procs_ok s -> Forall2 calm (ptable s) t -> procs_ok (set_ptable t s).
Proof. intros T Hc. by apply (calm_ok _ _ (ptable s)). Qed.

Lemma alter_calm f k t : (forall p, t !! k = Some p -> calm p (f p)) -> Forall2 calm t (alter f k t).
Proof. apply Forall2_alter_self, calm_refl. Qed.

Lemma scheduler_calm k t : Forall2 calm t (snd (scheduler_turn k t)).
Proof.
  unfold scheduler_turn. destruct (t !! k) as [p|] eqn:Hk; [|apply Forall_Forall2_diag, Forall_true, calm_refl].
  case_decide as E; [|apply Forall_Forall2_diag, Forall_true, calm_refl]. apply alter_calm. intros q Hq.
  rewrite Hk in Hq. injection Hq as <-. constructor; try done. right. split; right; [by left|by right].
Qed.

Lemma fork_step s s' cur r : procs_ok s -> running s cur -> 0 < nextpid s < 2 ^ 31 - 1 ->
  fork end_ data_ trapret_ forkret_ cur s = Ok r s' -> procs_ok s'.
Proof.
  intros T Hr Hn R. destruct (running_alive _ _ Hr) as (me & Hme & Ha).
  destruct (fork_table _ _ _ _ R) as (I & [[_ [E1 E2 E3]]|(k & q & p & [K0 K1 K2 K3 K4] & [Hk Hs] & N & Hc)]); unfold procs_ok in *.
  - by rewrite E1, E2, E3.
  - rewrite Hs, I, N. replace (i32 (nextpid s + 1)) with (nextpid s + 1) by (unfold i32; rewrite Z.mod_small; lia).
    assert (Hq : ~ alive q) by (intros Hq; by apply alive_live in Hq as [? _]).
    apply (slot_ok _ (nextpid s) _ _ k q); try done; try lia.
    destruct Hc as [(_ & ? & Hpp)|(_ & ? & Hpp)].
    + left. split; [done|]. rewrite Hpp. by apply (to_unused _ _ _ T k).
    + right. split_and!; [done|lia|]. eauto.
Qed.

Lemma pstep_keeps s s' : pstep s s' -> procs_ok s -> 0 < nextpid s -> procs_ok s'.
Proof.
  intros Hst T Hpos. destruct Hst as [s s' cur r Hr Hn R|s s' cur Hr R|s s' cur o Hr R|s cur c Hr Hc|s cur Hr|s cur Hr|s c|s pid|s k|s cur f Hr Hf|s s' Hs].
  - by eapply fork_step.
  - destruct (exit_table_eff _ _ _ R) as (Hci & s1 & [C1 _ C2 C3] & ->). unfold procs_ok. cbn. rewrite <- C3 in *.
    assert (T1 : procs_ok s1) by (unfold procs_ok; rewrite C2, C3; by apply (calm_ok _ _ (ptable s))).
    destruct (running_alive _ _ Hr) as (me & Hme & Ha). destruct (Forall2_lookup_l _ _ _ _ _ C1 Hme) as (m1 & Hm1 & C).
    apply (exit_ok _ _ _ cur m1); try done. by eapply calm_alive.
  - destruct (wait_table _ _ _ _ R) as (N & I & Ho). unfold procs_ok in *. rewrite N, I. destruct o as [r|].
    + destruct Ho as [[E1 E2 E3]|(k & q & p & Hq & Hz & Hpar & [Hk Hs] & Hu & Hp & Hpid & _)]; [by rewrite E1|].
      rewrite Hs. apply (slot_ok _ (nextpid s) _ _ k q); try done; [intros Ha; by apply alive_live in Ha as [_ ?]|lia|by left].
    + destruct Ho as [-> Hz]. destruct (running_alive _ _ Hr) as (me & Hme & Ha). apply (sleep_ok _ _ _ _ me); try done.
      intros k. congruence.
  - destruct (running_alive _ _ Hr) as (me & Hme & Ha). apply (sleep_ok _ _ _ _ me); try done; [intros k ->|intros ->]; by destruct (Hc _ eq_refl).
  - apply calm_step; [done|]. destruct Hr as (me & Hme & Hst). apply alter_calm. intros p Hp. rewrite Hme in Hp. injection Hp as <-.
    constructor; try done; [by left|]. cbn. congruence.
  - apply calm_step; [done|]. destruct Hr as (me & Hme & Hst). apply alter_calm. intros p Hp. rewrite Hme in Hp. injection Hp as <-.
    constructor; try done. right. split; right; [by right|by left].
  - apply calm_step; [done|apply wakeup1_calm].
  - apply calm_step; [done|apply kill_calm].
  - apply calm_step; [done|apply scheduler_calm].
  - apply calm_step; [done|]. apply alter_calm. intros p _. destruct (Hf p) as (E1 & E2 & E3 & E4). constructor; try done; [by left|].
    rewrite E1. done.
  - destruct Hs as [E1 E2 E3]. unfold procs_ok. by rewrite E1, E2, E3.
Qed.

Lemma pstep_next s s' : pstep s s' -> 0 < nextpid s -> 0 < nextpid s'.
Proof.
  intros Hst Hpos. destruct Hst as [s s' cur r Hr Hn R|s s' cur Hr R|s s' cur o Hr R| | | | | | | |s s' [_ E _]]; cbn; try done; [..|by rewrite E].
  - destruct (fork_table _ _ _ _ R) as (_ & [[_ [_ E _]]|(k & q & p & _ & _ & E & _)]); rewrite E; [done|].
    unfold i32. rewrite Z.mod_small; lia.
  - destruct (exit_table_eff _ _ _ R) as (_ & s1 & [_ _ C2 _] & ->). cbn. by rewrite C2.
  - destruct (wait_table _ _ _ _ R) as (E & _). by rewrite E.
Qed.

Lemma prun_ok s s' : rtc pstep s s' -> procs_ok s -> 0 < nextpid s -> procs_ok s' /\ 0 < nextpid s'.
Proof. intros Hr. induction Hr as [|s t u H1 _ IH]; [done|]. intros. apply IH; [by eapply pstep_keeps|by eapply pstep_next]. Qed.

(** [pa] is the parent of the process in slot [i]. *)
Definition child_of (t : list proc) (i pa : nat) : Prop := exists p, t !! i = Some p /\ p_parent p = Some pa.

(** Parents are older, so the way up ends, and it ends at [init]. *)
Lemma reaches_init init next t : table_ok init next t ->
  forall i p, t !! i = Some p -> p_state p <> UNUSED -> rtc (child_of t) i init.
Proof.
  intros T. destruct (to_init _ _ _ T) as (q0 & Hq0 & _ & _).
  assert (Hup : forall n i p, t !! i = Some p -> p_state p <> UNUSED -> p_pid p - p_pid q0 < Z.of_nat n -> rtc (child_of t) i init).
  { induction n as [|n IH]; intros i p Hp Hu Hn; (destruct (decide (i = init)) as [->|Hi]; [reflexivity|]);
      pose proof (to_first _ _ _ T i p q0 Hp Hu Hi Hq0); [lia|].
    pose proof (to_orphan _ _ _ T i p Hp Hu Hi) as Ho. destruct (p_parent p) as [pa|] eqn:Hpa; [|done].
    destruct (to_parent _ _ _ T i p pa Hp Hpa) as (q & Hq & Ha). pose proof (to_order _ _ _ T i p pa q Hp Hpa Hq).
    eapply rtc_l; [by exists p|]. apply (IH pa q Hq); [by apply alive_live in Ha as [? _]|lia]. }
  intros i p Hp Hu. apply (Hup (S (Z.to_nat (p_pid p - p_pid q0))) i p Hp Hu). lia.
Qed.

Lemma tc_source t i j : tc (child_of t) i j -> is_Some (t !! i).
Proof. by intros [? ? (p & -> & _)|? ? ? (p & -> & _) _]. Qed.

Lemma older init next t i j : table_ok init next t -> tc (child_of t) i j ->
  forall p q, t !! i = Some p -> t !! j = Some q -> p_pid q < p_pid p.
Proof.
  intros T Hc. induction Hc as [i j (p & Hp & E)|i j k (p & Hp & E) _ IH]; intros p' q' Hi Hj; rewrite Hi in Hp; injection Hp as ->.
  - exact (to_order _ _ _ T i p j q' Hi E Hj).
  - destruct (to_parent _ _ _ T i p j Hi E) as (r & Hr & _). pose proof (to_order _ _ _ T i p j r Hi E Hr).
    pose proof (IH r q' Hr Hj). lia.
Qed.

(** C33: the processes form a tree.  Start with the table as [userinit] leaves it,
    or any other that satisfies the invariant, and let processes do whatever they
    do as long as process ids do not run out (a [fork] with [nextpid] at the
    largest [int] is not considered).  Then processes in the table have different
    ids; each of them but [init] has a parent, which is neither a zombie nor
    gone: whoever exits hands its children to [init] in the same step, so every
    zombie can be waited for; [init] has none; no process is its own ancestor;
    and the way up from every process ends at [init]. *)
Theorem proc_tree s0 s :
  procs_ok s0 -> 0 < nextpid s0 -> rtc pstep s0 s ->
  (forall i j p q, ptable s !! i = Some p -> ptable s !! j = Some q ->
     p_state p <> UNUSED -> p_state q <> UNUSED -> p_pid p = p_pid q -> i = j) /\
  (forall i p, ptable s !! i = Some p -> p_state p <> UNUSED -> i <> initproc s ->
     exists pa q, p_parent p = Some pa /\ ptable s !! pa = Some q /\
       p_state q <> UNUSED /\ p_state q <> EMBRYO /\ p_state q <> ZOMBIE) /\
  (exists q, ptable s !! initproc s = Some q /\ p_parent q = None) /\
  (forall i, ~ tc (child_of (ptable s)) i i) /\
  (forall i p, ptable s !! i = Some p -> p_state p <> UNUSED -> rtc (child_of (ptable s)) i (initproc s)).
Proof.
  intros T0 N0 Hr. destruct (prun_ok _ _ Hr T0 N0) as [T _]. split_and!.
  - apply (to_uniq _ _ _ T).
  - intros i p Hp Hu Hi. pose proof (to_orphan _ _ _ T i p Hp Hu Hi) as Ho.
    destruct (p_parent p) as [pa|] eqn:Hpa; [|done]. destruct (to_parent _ _ _ T i p pa Hp Hpa) as (q & Hq & Ha).
    exists pa, q. split_and!; [done|done|by destruct Ha as [->|[->| ->]]..].
  - destruct (to_init _ _ _ T) as (q & Hq & _ & Hn). eauto.
  - intros i Hc. destruct (tc_source _ _ _ Hc) as [p Hp]. pose proof (older _ _ _ _ _ T Hc p p Hp Hp). lia.
  - by apply (reaches_init _ (nextpid s)).
Qed.

(** C34: [wait] does not miss an exit.  However [exit], [wait], [kill] and the
    schedulers interleave, a process that sleeps in [wait] has no zombie child:
    a child that exits, or is handed to [init] as a zombie, wakes its parent in
    the same step. *)
Theorem wait_misses_no_exit s0 s i p pa q :
  procs_ok s0 -> 0 < nextpid s0 -> rtc pstep s0 s ->
  ptable s !! i = Some p -> p_parent p = Some pa -> ptable s !! pa = Some q ->
  p_state q = SLEEPING -> p_chan q = Some (ChProc pa) -> p_state p <> ZOMBIE.
Proof.
  intros T0 N0 Hr Hp Hpa Hq Hs Hc Hz. destruct (prun_ok _ _ Hr T0 N0) as [T _].
  exact (to_wait _ _ _ T i p pa q Hp Hz Hpa Hq Hs Hc).
Qed.

(** ** The scheduler is fair *)

(** A pass of a scheduler over the table, from slot [k] on, with the states it goes
    through; between two turns anything may happen. *)
Inductive pass : nat -> sys L -> list (sys L) -> Prop :=
| pass_end k s : (length (ptable s) <= k)%nat -> pass k s [s]
| pass_turn k s tr : (k < length (ptable s))%nat ->
    pass (S k) (set_ptable (snd (scheduler_turn k (ptable s))) s) tr -> pass k s (s :: tr)
| pass_other k s s' tr : pstep s s' -> pass k s' tr -> pass k s (s :: tr).

Definition in_state s (k : nat) (st : procstate) : Prop := exists p, ptable s !! k = Some p /\ p_state p = st.

Lemma turn_runnable j k t p : t !! k = Some p -> p_state p = RUNNABLE ->
  exists p', snd (scheduler_turn j t) !! k = Some p' /\ p_state p' = if decide (j = k) then RUNNING else RUNNABLE.
Proof.
  intros Hp Hr. unfold scheduler_turn. destruct (decide (j = k)) as [->|Hn].
  - rewrite Hp, decide_True by done. cbn. rewrite list_lookup_alter_eq, Hp. eexists. split; [reflexivity|done].
  - destruct (t !! j) as [q|]; [|eauto]. case_decide; [|eauto]. cbn. rewrite list_lookup_alter_ne by done. eauto.
Qed.

Lemma wakeup1_runnable c t k p : t !! k = Some p -> p_state p = RUNNABLE -> wakeup1 c t !! k = Some p /\ p_state p = RUNNABLE.
Proof.
  intros Hp Hs. unfold wakeup1. rewrite list_lookup_fmap, Hp. cbn. rewrite decide_False; [done|]. intros [? _]. congruence.
Qed.

Lemma kill_states pid t : Forall2 (fun p p' => p_state p = RUNNABLE -> p_state p' = RUNNABLE) t (snd (kill pid t)).
Proof.
  induction t as [|p t IH]; cbn; [constructor|]. destruct (p_pid p =? pid).
  - cbn. constructor; [by case_decide|]. by apply Forall_Forall2_diag, Forall_true.
  - destruct (kill pid t) as [r t']. cbn in *. by constructor.
Qed.

Lemma reparent_runnable cur init j : forall n k t q, t !! j = Some q -> p_state q = RUNNABLE ->
  exists q', reparent n k cur init t !! j = Some q' /\ p_state q' = RUNNABLE.
Proof.
  induction n as [|n IH]; intros k t q Hq Hs; cbn [reparent]; [eauto|]. destruct (t !! k) as [x|] eqn:Hx; [|eauto].
  assert (Ha : exists q', alter (p_set_parent (Some init)) k t !! j = Some q' /\ p_state q' = RUNNABLE).
  { destruct (decide (j = k)) as [->|Hn]; [rewrite list_lookup_alter_eq, Hq|rewrite list_lookup_alter_ne by done]; eauto. }
  case_decide; [|by eapply IH]. destruct Ha as (q' & Hq' & Hs'). case_decide; [|by eapply IH].
  destruct (wakeup1_runnable (ChProc init) _ _ _ Hq' Hs'). by eapply IH.
Qed.

Lemma exit_table_runnable cur init s k : cur <> k -> in_state s k RUNNABLE ->
  in_state (set_ptable (exit_table cur init (ptable s)) s) k RUNNABLE.
Proof.
  intros Hn (p & Hp & Hs). unfold in_state, exit_table. cbn.
  set (t1 := match ptable s !! cur ≫= p_parent with Some pa => wakeup1 (ChProc pa) (ptable s) | None => ptable s end).
  assert (H1 : t1 !! k = Some p).
  { unfold t1. destruct (ptable s !! cur ≫= p_parent); [|done]. by apply wakeup1_runnable. }
  destruct (reparent_runnable cur init k (length t1) 0 t1 p H1 Hs) as (q & Hq & Hqs). exists q.
  by rewrite list_lookup_alter_ne.
Qed.

(** Nobody but a scheduler changes a runnable process. *)
Lemma runnable_kept s s' k : pstep s s' -> in_state s k RUNNABLE -> in_state s' k RUNNABLE \/ in_state s' k RUNNING.
Proof.
  intros Hst (p & Hp & Hs).
  assert (Hrun : forall cur, running s cur -> cur <> k) by (intros cur (me & Hme & Hr) ->; congruence).
  assert (Halt : forall f cur, running s cur -> in_state (set_ptable (alter f cur (ptable s)) s) k RUNNABLE).
  { intros f cur Hr. exists p. cbn. rewrite list_lookup_alter_ne by (by apply Hrun). done. }
  destruct Hst as [s s' cur r Hr Hn R|s s' cur Hr R|s s' cur o Hr R|s cur c Hr Hc|s cur Hr|s cur Hr|s c|s pid|s j|s cur f Hr Hf|s s' [E _ _]];
    try (left; by apply Halt).
  - left. destruct (fork_table _ _ _ _ R) as (_ & [[_ [E _ _]]|(j & q & x & [_ K1 K2 _ _] & [_ E] & _)]); exists p; rewrite E; [done|].
    rewrite list_lookup_insert_ne; [done|]. intros ->. congruence.
  - left. destruct (exit_table_eff _ _ _ R) as (Hci & s1 & [_ C0 _ _] & ->). apply exit_table_runnable; [by apply Hrun|].
    exists p. by rewrite C0 by (intros ->; by apply (Hrun _ Hr)).
  - left. destruct (wait_table _ _ _ _ R) as (_ & _ & Ho). destruct o as [r|].
    + destruct Ho as [[E _ _]|(j & q & x & Hq & Hz & _ & [_ E] & _)]; exists p; rewrite E; [done|].
      rewrite list_lookup_insert_ne; [done|]. intros ->. congruence.
    + destruct Ho as [E _]. exists p. rewrite E. unfold sleep_table. rewrite list_lookup_alter_ne by (by apply Hrun). done.
  - left. exists p. cbn. by apply wakeup1_runnable.
  - left. cbn. destruct (Forall2_lookup_l _ _ _ _ _ (kill_states pid (ptable s)) Hp) as (p' & Hp' & Hk). exists p'. auto.
  - destruct (turn_runnable j k _ _ Hp Hs) as (p' & Hp' & E). destruct (decide (j = k)); [right|left]; by exists p'.
  - left. exists p. by rewrite E.
Qed.

(** C35: schedulers are fair.  A process that is runnable when a scheduler starts a
    pass over the table runs before that pass is over, whatever other
    processes and other schedulers do in between; a pass has one turn for each
    of the slots of the table. *)
Theorem scheduler_fair k s tr p :
  pass k s tr -> (k <= p)%nat -> in_state s p RUNNABLE -> exists s', s' ∈ tr /\ in_state s' p RUNNING.
Proof.
  assert (Hhead : forall k s tr, pass k s tr -> s ∈ tr) by (intros k0 s0 tr0 [| |]; left).
  intros Hp. induction Hp as [k s Hl|k s tr Hl Hp IH|k s s' tr Hst Hp IH]; intros Hk Hr.
  - destruct Hr as (q & Hq & _). apply lookup_lt_Some in Hq. lia.
  - destruct Hr as (q & Hq & Hr). destruct (turn_runnable k p _ _ Hq Hr) as (q' & Hq' & E).
    destruct (decide (k = p)) as [->|Hn].
    + eexists. split; [right; by eapply Hhead|]. by exists q'.
    + destruct IH as (s' & Hin & Hs'); [lia|by exists q'|]. exists s'. split; [by right|done].
  - destruct (runnable_kept _ _ _ Hst Hr) as [Hr'|Hr'].
    + destruct (IH Hk Hr') as (s1 & Hin & Hs1). exists s1. split; [by right|done].
    + exists s'. split; [right; by eapply Hhead|done].
Qed.

Lemma kill_first pid t k q : t !! k = Some q -> p_pid q = pid -> (forall i p, (i < k)%nat -> t !! i = Some p -> p_pid p <> pid) ->
  kill pid t = (true, <[k := (let p := p_set_killed true q in if decide (p_state p = SLEEPING) then p_set_state RUNNABLE p else p)]> t).
Proof.
  revert k. induction t as [|p t IH]; intros k Hk Hq Hlt; [done|]. cbn [kill]. destruct k as [|k].
  - injection Hk as ->. by rewrite Hq, Z.eqb_refl.
  - rewrite (proj2 (Z.eqb_neq _ _)) by (apply (Hlt 0%nat); [lia|done]).
    rewrite (IH k); [done|done|done|]. intros i x Hi Hx. apply (Hlt (S i)); [lia|done].
Qed.

Lemma alloc_scan_insert t : forall j k q q', alloc_scan j t = Some (j + k)%nat -> t !! k = Some q ->
  p_state q' = UNUSED -> alloc_scan j (<[k := q']> t) = Some (j + k)%nat.
Proof.
  induction t as [|p t IH]; intros j k q q' Hs Hk Hu; [done|]. cbn in Hs. destruct k as [|k]; cbn.
  - rewrite decide_True by done. f_equal. lia.
  - case_decide as E; [injection Hs; lia|]. replace (j + S k)%nat with (S j + k)%nat in * by lia. by eapply IH.
Qed.

(** [allocproc] succeeds when there is a slot and a page. *)
Lemma allocproc_Ok s k pg l : alloc_scan 0 (ptable s) = Some k -> kinv end_ (k_mem (s_kern s)) (pg :: l) ->
  exists s', allocproc trapret_ forkret_ s = Ok (Some k) s'.
Proof.
  intros Hsc K. destruct (kalloc_Ok end_ _ _ K) as [Hka _].
  pose proof (ki_pages _ _ _ K) as HP. rewrite Forall_cons in HP. destruct HP as [(_ & _ & _ & H0) _].
  unfold allocproc, bind, gets, upd_proc, modify, in_vm, in_kern, in_mem. rewrite Hsc. cbn -[kalloc]. rewrite Hka. cbn.
  rewrite (proj2 (Z.eqb_neq pg 0)) by done. by eexists.
Qed.

(** Killing process 0 kills the next process to be created.  [kill] does not
    look at the state of a slot, and unused slots have process id 0: [kill(0)]
    succeeds and marks the first such slot.  When that is the slot [allocproc]
    takes next, it leaves the mark there, and so does the rest of [fork]: the
    child is killed from the start. *)
Lemma kill_zero_kills_next_child s k q pg l (s1 := set_ptable (snd (kill 0 (ptable s))) s) :
  ptable s !! k = Some q -> p_state q = UNUSED -> p_pid q = 0 ->
  (forall i p, (i < k)%nat -> ptable s !! i = Some p -> p_pid p <> 0) -> alloc_scan 0 (ptable s) = Some k ->
  kinv end_ (k_mem (s_kern s)) (pg :: l) ->
  fst (kill 0 (ptable s)) = true /\
  (exists s' p, allocproc trapret_ forkret_ s1 = Ok (Some k) s' /\ ptable s' !! k = Some p /\ p_killed p = true) /\
  (forall cur r s', fork end_ data_ trapret_ forkret_ cur s1 = Ok r s' -> r <> -1 ->
     exists p, ptable s' !! k = Some p /\ p_pid p = r /\ p_state p = RUNNABLE /\ p_killed p = true).
Proof.
  intros Hk Hu Hq Hlt Hsc K. pose proof (kill_first 0 _ k q Hk Hq Hlt) as HK. cbn zeta in HK.
  rewrite decide_False in HK by (cbn; congruence).
  assert (Hlen : (k < length (ptable s))%nat) by (by eapply lookup_lt_Some).
  assert (Hsc1 : alloc_scan 0 (ptable s1) = Some k).
  { unfold s1. rewrite HK. by apply (alloc_scan_insert _ 0 k q). }
  assert (Hq1 : ptable s1 !! k = Some (p_set_killed true q)).
  { unfold s1. rewrite HK. by apply list_lookup_insert_eq. }
  split_and!; [by rewrite HK|..].
  - destruct (allocproc_Ok s1 k pg l Hsc1 K) as (s' & R). exists s'.
    destruct (allocproc_table _ _ _ R) as (_ & [[? _]|(j & x & p & [K0 K1 K2 K3 K4] & _ & [Hj E] & _)]); [done|].
    rewrite Hsc1 in K0. injection K0 as <-. exists p. rewrite Hq1 in K1. injection K1 as <-. split_and!; [done| |done].
    rewrite E. by apply list_lookup_insert_eq.
  - intros cur r s' R Hr. destruct (fork_table _ _ _ _ R) as (_ & [[? _]|(j & x & p & [K0 K1 K2 K3 K4] & [Hj E] & _ & Hc)]); [done|].
    destruct Hc as [[? _]|(-> & Hp & Hpar)]; [done|]. rewrite Hsc1 in K0. injection K0 as <-.
    rewrite Hq1 in K1. injection K1 as <-. exists p. rewrite E, list_lookup_insert_eq by done. done.
Qed.

(** The table after boot: the first process is the only one. *)
Lemma userinit_ok initcode s s' :
  Forall (fun p => p_state p = UNUSED /\ p_pid p = 0 /\ p_parent p = None) (ptable s) -> nextpid s = 1 ->
  userinit devsw_read devsw_write data_ trapret_ forkret_ initcode s = Ok tt s' -> procs_ok s' /\ nextpid s' = 2.
Proof.
  intros Hf N R. unfold userinit in R. apply bind_inv in R as (o & s1 & R1 & R).
  destruct (allocproc_table _ _ _ R1) as (I1 & [[-> _]|(k & q & p & [TK0 TK1 TK2 TK3 TK4] & Hpar & S & N1 & Ho)]).
  { apply bind_inv in R as (? & ? & [=] & _). }
  destruct Ho as [[-> _]|[-> Hp]]; [apply bind_inv in R as (? & ? & [=] & _)|].
  step_quiet R S. injection Rk as <- <-. apply bind_inv in R as (? & s2 & [= <- <-] & R).
  match type of R with bind _ _ ?s4 = _ => assert (S4 : slot (ptable s) k p s4) by exact S; assert (I4 : initproc s4 = k) by done;
    assert (N4 : nextpid s4 = 2) by (cbn; by rewrite N1, N) end. clear S. rename S4 into S.
  step_quiet R S. step_upd R S. step_test R; [done|]. step_quiet R S. step_upd R S.
  apply bind_inv in R as (q' & s5 & R5 & R). destruct (slot_get _ _ _ _ _ _ S R5) as [-> ->].
  do 9 step_quiet R S. step_upd R S. step_quiet R S. step_upd R S.
  destruct (slot_upd _ _ _ _ _ _ _ S R) as (S' & N' & I').
  assert (HN : nextpid s' = 2) by congruence. assert (HI : initproc s' = k) by congruence.
  split; [|done]. unfold procs_ok. rewrite HN, HI. destruct S' as [Hk ->]. rewrite Forall_forall in Hf.
  set (p' := p_set_state RUNNABLE _). assert (Hp' : p_state p' = RUNNABLE /\ p_pid p' = 1 /\ p_parent p' = None).
  { cbn. rewrite TK3, Hpar. split_and!; [done|congruence|]. apply Hf. by eapply list_elem_of_lookup_2. }
  clearbody p'. destruct Hp' as (P1 & P2 & P3). clear -Hf Hk P1 P2 P3.
  assert (HF : forall i x, <[k := p']> (ptable s) !! i = Some x -> i = k /\ x = p' \/
    p_state x = UNUSED /\ p_pid x = 0 /\ p_parent x = None).
  { intros i x Hx. destruct (decide (i = k)) as [->|Hn]; [left; rewrite list_lookup_insert_eq in Hx by done; by injection Hx|].
    right. rewrite list_lookup_insert_ne in Hx by done. apply Hf. by eapply list_elem_of_lookup_2. }
  constructor.
  - exists p'. rewrite list_lookup_insert_eq by done. split_and!; [done|right; by left|done].
  - intros i x [[-> ->]|(_ & _ & ->)]%HF; congruence.
  - intros i x [[-> ->]|(_ & -> & _)]%HF; lia.
  - intros i j x y [[-> ->]|(Hx & _)]%HF [[-> ->]|(Hy & _)]%HF; done.
  - intros i x [[-> ->]|(_ & _ & ->)]%HF; congruence.
  - intros i x pa [[-> ->]|(_ & _ & Hx)]%HF; congruence.
  - intros i x [[-> ->]|(Hx & _)]%HF; done.
  - intros i x [[-> ->]|(Hx & _)]%HF; congruence.
  - intros i x pa y [[-> ->]|(Hx & _)]%HF; congruence.
  - intros i x y [[-> ->]|(Hx & _)]%HF; done.
  - intros i x pa y [[-> ->]|(_ & _ & Hx)]%HF; congruence.
Qed.

End Steps.

(** ** The theorems, applied *)

Definition demo_proc (st : procstate) (pid : Z) (parent : option nat) (c : option chan) : proc :=
  Proc 4096 0 0 st pid parent 0 0 c false (replicate 16 None) (Some 0%nat) (replicate 16 0).
(** The first process runs, its child can run, and a slot is free. *)
Definition demo_table : list proc :=
  [demo_proc RUNNING 1 None None; demo_proc RUNNABLE 2 (Some 0%nat) None; demo_proc UNUSED 0 None None].
Definition demo_sys : sys logst := Sys boot_files demo_table 3 0.

Lemma demo_sys_ok : procs_ok demo_sys.
Proof.
  unfold procs_ok. cbn. constructor.
  - eexists. split_and!; [reflexivity|by right; right|reflexivity].
  - intros [|[|[|i]]] p [= <-]; discriminate.
  - intros [|[|[|i]]] p [= <-]; cbn; lia.
  - intros [|[|[|i]]] [|[|[|j]]] p q [= <-] [= <-]; cbn; done.
  - intros [|[|[|i]]] p [= <-]; cbn; done.
  - intros [|[|[|i]]] p pa [= <-]; cbn; try done. intros [= <-]. eexists. split; [reflexivity|by right; right].
  - intros [|[|[|i]]] p [= <-]; cbn; done.
  - intros [|[|[|i]]] p [= <-]; cbn; done.
  - intros [|[|[|i]]] p pa q [= <-]; cbn; done.
  - intros [|[|[|i]]] p q [= <-]; cbn; try done. intros _ _ [= <-]. cbn. lia.
  - intros [|[|[|i]]] p pa q [= <-]; cbn; try done. intros [= <-] [= <-]. cbn. lia.
Qed.

Definition demo_waiting : sys logst := set_ptable (sleep_table 0 (ChProc 0) demo_table) demo_sys.

Lemma demo_wait_run : rtc (pstep no_read KERNLINK 0 0 0) demo_sys demo_waiting.
Proof. apply rtc_once, (ps_wait _ _ _ _ _ _ _ 0 None); [by eexists|reflexivity]. Qed.

Lemma proc_tree_witness : (exists pa q, Some 0%nat = Some pa /\ ptable demo_waiting !! pa = Some q /\
    p_state q <> UNUSED /\ p_state q <> EMBRYO /\ p_state q <> ZOMBIE) /\
  ~ tc (child_of (ptable demo_waiting)) 1%nat 1%nat /\ rtc (child_of (ptable demo_waiting)) 1%nat 0%nat.
Proof.
  destruct (proc_tree no_read KERNLINK 0 0 0 demo_sys demo_waiting demo_sys_ok eq_refl demo_wait_run) as (_ & H & _ & Hc & Hr).
  split; [|split].
  - apply (H 1%nat (demo_proc RUNNABLE 2 (Some 0%nat) None)); [reflexivity|discriminate|discriminate].
  - apply Hc.
  - apply (Hr 1%nat (demo_proc RUNNABLE 2 (Some 0%nat) None)); [reflexivity|discriminate].
Defined.

Lemma wait_misses_no_exit_witness : RUNNABLE <> ZOMBIE.
Proof.
  apply (wait_misses_no_exit no_read KERNLINK 0 0 0 demo_sys demo_waiting 1 (demo_proc RUNNABLE 2 (Some 0%nat) None) 0
           (demo_proc SLEEPING 1 None (Some (ChProc 0))) demo_sys_ok eq_refl demo_wait_run); reflexivity.
Defined.

Lemma scheduler_fair_witness : exists s' tr, pass no_read KERNLINK 0 0 0 0 demo_sys tr /\ s' ∈ tr /\ in_state s' 1 RUNNING.
Proof.
  set (turn := fun k (s : sys logst) => set_ptable (snd (scheduler_turn k (ptable s))) s).
  assert (P : pass no_read KERNLINK 0 0 0 0 demo_sys
    [demo_sys; turn 0%nat demo_sys; turn 1%nat (turn 0%nat demo_sys); turn 2%nat (turn 1%nat (turn 0%nat demo_sys))]).
  { do 3 (apply pass_turn; [apply Nat.ltb_lt; reflexivity|]). apply pass_end. apply Nat.leb_le. reflexivity. }
  destruct (scheduler_fair no_read KERNLINK 0 0 0 0 demo_sys _ 1 P) as (s' & Hin & Hs); [lia|by eexists|].
  exists s'. eexists. split_and!; [exact P|exact Hin|exact Hs].
Defined.

Lemma kill_zero_kills_next_child_witness : exists s' p,
  allocproc 0 0 (set_ptable (snd (kill 0 (ptable demo_sys))) demo_sys) = Ok (Some 2%nat) s' /\
  ptable s' !! 2%nat = Some p /\ p_killed p = true.
Proof.
  apply (kill_zero_kills_next_child KERNLINK 0 0 0 demo_sys 2 (demo_proc UNUSED 0 None None) KERNLINK [KERNLINK + PGSIZE]);
    try reflexivity; [|exact two_pages_inv].
  intros [|[|i]] p Hi Hp; [injection Hp as <-; discriminate..|lia].
Defined.
