(* ===== verification/SysFile.v ===== *)
(** * SysFile: links, creation and replication of files (sysfile.c)

    The part of the system calls of sysfile.c below the arguments and the
    descriptors: [link], [unlink], [create], [duplicate] on paths in the memory
    of the caller.  A path is the bytes of the string with its NUL. *)

From S2P Require Import Prelude Layout CString Block FsBlock FsInode FsDir.
Open Scope Z_scope.
Open Scope xv6_scope.

Definition DOT : list Z := [46; 0].
Definition DOTDOT : list Z := [46; 46; 0].

(** [PROPAGATE_MAX]: [max] of [ipropagate]. *)
Definition PROPAGATE_MAX : Z := ((LOGSIZE - 1 - 1 - 2) / 2) * 512.

Section SysFile.
Context {L : Type} `{BlockOps L}.
Context (devsw_read : Z -> option (nat -> Z -> M (fsst L) (Z * list Z))).
Context (devsw_write : Z -> option (nat -> list Z -> Z -> M (fsst L) Z)).
(** [dist2root] counts from an uninitialised variable; and the steps it may take
    to the root. *)
Context (count0 : Z) (depth : nat).
Local Abbreviation iput := (iput devsw_read).
Local Abbreviation iunlockput := (iunlockput devsw_read).
Local Abbreviation ilock := (ilock devsw_read).
Local Abbreviation ilock_ext := (ilock_ext devsw_read).
Local Abbreviation ilock_trans := (ilock_trans devsw_read devsw_write).
Local Abbreviation iupdate := (iupdate devsw_read).
Local Abbreviation dirlookup := (dirlookup devsw_read).
Local Abbreviation dirlink := (dirlink devsw_read devsw_write).
Local Abbreviation namei_trans := (namei_trans devsw_read devsw_write).
Local Abbreviation nameiparent := (nameiparent devsw_read devsw_write).
Local Abbreviation nameiparent_trans := (nameiparent_trans devsw_read devsw_write).
Implicit Types (ip dp : nat) (path : list Z).

Definition add_nlink ip (k : Z) : M (fsst L) unit :=
  upd_inode ip (i_upd_d (fun d => d_set_nlink (i16 (di_nlink d + k)) d)).

(** ** link *)

(** [bad:] of [sys_link]. *)
Definition link_bad ip : M (fsst L) Z :=
  ilock ip ;;;
  add_nlink ip (-1) ;;;
  iupdate ip ;;;
  iunlockput ip ;;;
  in_low end_op ;;;
  ret (-1).

Definition link (old new : list Z) : M (fsst L) Z :=
  let! o := namei_trans old in
  match o with
  | None => ret (-1)
  | Some ip =>
      ilock_trans ip ;;;
      in_low begin_op ;;;
      let! i := get_inode ip in
      if i_type i =? T_DIR then iunlockput ip ;;; in_low end_op ;;; ret (-1) else
      add_nlink ip 1 ;;;
      iupdate ip ;;;
      iunlock ip ;;;
      let! r := nameiparent new name_buf in
      match r with
      | (None, _) => link_bad ip
      | (Some dp, name) =>
          let! r := ilock dp in
          if negb (r =? 0) then panic "sys_link" else
          let! d := get_inode dp in
          let! i := get_inode ip in
          let! failed := (if negb (i_dev d =? i_dev i) then ret true
                          else let! r := dirlink dp name (i_inum i) in ret (r <? 0)) in
          if (failed : bool) then iunlockput dp ;;; link_bad ip else
          iunlockput dp ;;;
          iput ip ;;;
          in_low end_op ;;;
          ret 0
      end
  end.

(** ** unlink *)

(** The loop of [isdirempty] over the offsets of the entries after the first two. *)
Fixpoint isdirempty_loop dp (offs : list Z) : M (fsst L) bool :=
  match offs with
  | [] => ret true
  | off :: offs =>
      let! de := read_dirent devsw_read "isdirempty: readi" dp off in
      if negb (de_inum de =? 0) then ret false else isdirempty_loop dp offs
  end.

Definition isdirempty dp : M (fsst L) bool :=
  let! d := get_inode dp in
  isdirempty_loop dp (drop 2 (dir_offs (i_size d))).

(** [bad:] of [sys_unlink]. *)
Definition unlink_bad dp : M (fsst L) Z :=
  iunlockput dp ;;;
  in_low end_op ;;;
  ret (-1).

Definition unlink path : M (fsst L) Z :=
  let! r := nameiparent_trans path name_buf in
  match r with
  | (None, _) => ret (-1)
  | (Some dp, name) =>
      in_low begin_op ;;;
      let! r := ilock dp in
      if r <? 0 then panic "sys_unlink" else
      let! c1 := namecmp name DOT in
      let! dots := (if c1 =? 0 then ret true else let! c2 := namecmp name DOTDOT in ret (c2 =? 0)) in
      if (dots : bool) then unlink_bad dp else
      let! r := dirlookup dp name in
      match r with
      | None => unlink_bad dp
      | Some (ip, off) =>
          let! r := ilock_ext ip 0 in
          if r <? 0 then panic "sys_unlink" else
          let! i := get_inode ip in
          if i_nlink i <? 1 then panic "unlink: nlink < 1" else
          let! full := (if i_type i =? T_DIR then let! e := isdirempty ip in ret (negb e) else ret false) in
          if (full : bool) then iunlockput ip ;;; unlink_bad dp else
          let! r := writei devsw_read devsw_write dp (replicate (Z.to_nat dirent_size) 0) off dirent_size in
          if negb (r =? dirent_size) then panic "unlink: writei" else
          let! i := get_inode ip in
          (if i_type i =? T_DIR then add_nlink dp (-1) ;;; iupdate dp else ret tt) ;;;
          iunlockput dp ;;;
          add_nlink ip (-1) ;;;
          iupdate ip ;;;
          iunlockput ip ;;;
          in_low end_op ;;;
          ret 0
      end
  end.

(** ** create *)

(** A replica for a new directory: the inode number stored in the parent. *)
Definition ialloc_ditto (dev : Z) : M (fsst L) Z :=
  let! c := ialloc dev T_DITTO in
  let! i := get_inode c in
  ret (i16 (i_inum i)).

(** The replicas of a new directory [d2r] steps from the root. *)
Definition create_dittos dp ip (type d2r : Z) : M (fsst L) unit :=
  if negb ((type =? T_DIR) && (d2r <? DITTO_HIGHER)) then ret tt else
  let! d := get_inode dp in
  if d2r <? DITTO_LOWER then
    let! c1 := ialloc_ditto (i_dev d) in
    let! c2 := ialloc_ditto (i_dev d) in
    upd_inode ip (i_upd_d (d_set_children c1 c2))
  else
    let! c1 := ialloc_ditto (i_dev d) in
    upd_inode ip (i_upd_d (fun i => d_set_children c1 (di_child2 i) i)).

(** The entries of a new directory. *)
Definition create_dots dp ip : M (fsst L) unit :=
  add_nlink dp 1 ;;;
  iupdate dp ;;;
  let! i := get_inode ip in
  let! d := get_inode dp in
  let! r := dirlink ip DOT (i_inum i) in
  if r <? 0 then panic "create dots" else
  let! r := dirlink ip DOTDOT (i_inum d) in
  if r <? 0 then panic "create dots" else ret tt.

(** [create]: the inode locked, or nothing. *)
Definition create path (type major minor : Z) : M (fsst L) (option nat) :=
  let! r := nameiparent_trans path name_buf in
  match r with
  | (None, _) => ret None
  | (Some dp, name) =>
      let! d2r := dist2root devsw_read devsw_write depth count0 path in
      ilock dp ;;;
      let! r := dirlookup dp name in
      match r with
      | Some (ip, _) =>
          iunlockput dp ;;;
          ilock ip ;;;
          let! i := get_inode ip in
          if (type =? T_FILE) && (i_type i =? T_FILE) then ret (Some ip) else
          iunlockput ip ;;;
          ret None
      | None =>
          let! d := get_inode dp in
          let! ip := ialloc (i_dev d) type in
          ilock ip ;;;
          upd_inode ip (i_upd_d (fun i => d_set_nlink 1 (d_set_dev (i16 major) (i16 minor) i))) ;;;
          create_dittos dp ip type d2r ;;;
          iupdate ip ;;;
          (if type =? T_DIR then create_dots dp ip else ret tt) ;;;
          let! i := get_inode ip in
          let! r := dirlink dp name (i_inum i) in
          if r <? 0 then panic "create: dirlink" else
          iunlockput dp ;;;
          ret (Some ip)
      end
  end.

(** ** duplicate *)

(** One replica of [ip] brought up to date from [off] on, in a transaction of its
    own. *)
Definition propagate_to ip (child off n1 : Z) (dev : Z) : M (fsst L) unit :=
  in_low begin_op ;;;
  (if child =? 0 then ret tt else
   let! ic := iget dev (u32 child) in
   ilock_ext ic 0 ;;;
   iduplicate devsw_read devsw_write ip ic off n1 ;;;
   iunlock ic) ;;;
  in_low end_op.

(** One turn of the loop of [ipropagate], at [i = off]. *)
Definition ipropagate_step ip (n off : Z) : M (fsst L) unit :=
  let n1 := Z.min (n - off) PROPAGATE_MAX in
  let! i := get_inode ip in
  propagate_to ip (i_child1 i) off n1 (i_dev i) ;;;
  let! i := get_inode ip in
  propagate_to ip (i_child2 i) off n1 (i_dev i).

Definition ipropagate ip : M (fsst L) unit :=
  let! i := get_inode ip in
  let n := i32 (i_size i) in
  for_each ((fun k => k * PROPAGATE_MAX) <$> seqZ 0 ((n + PROPAGATE_MAX - 1) / PROPAGATE_MAX))
           (ipropagate_step ip n).

(** [duplicate]: whether it made the replicas.  A file that has them already is
    left locked, in an operation that is not ended. *)
Definition duplicate path (nditto : Z) : M (fsst L) bool :=
  let! o := namei_trans path in
  match o with
  | None => ret false
  | Some ip =>
      let! r := ilock_trans ip in
      if r =? E_CORRUPTED then ret false else
      in_low begin_op ;;;
      let! i := get_inode ip in
      if (0 <? nditto) && negb (i_child1 i =? 0) then ret false else
      (if 0 <? nditto then
         let! c := ialloc_ditto (i_dev i) in
         upd_inode ip (i_upd_d (fun d => d_set_children c (di_child2 d) d))
       else ret tt) ;;;
      let! i := get_inode ip in
      if (1 <? nditto) && negb (i_child2 i =? 0) then ret false else
      (if 1 <? nditto then
         let! c := ialloc_ditto (i_dev i) in
         upd_inode ip (i_upd_d (fun d => d_set_children (di_child1 d) c d))
       else ret tt) ;;;
      in_low end_op ;;;
      ipropagate ip ;;;
      in_low begin_op ;;;
      iupdate ip ;;;
      iunlockput ip ;;;
      in_low end_op ;;;
      ret true
  end.
End SysFile.
