(* ===== verification/Dirs.v ===== *)
(** * Dirs: what directories contain

    The operations on directories (fs.c, sysfile.c) against the list of entries
    in the contents of the directory and, where they write, of its replicas. *)

From S2P Require Import Prelude Layout CString Log Block FsBlock FsInode FsDir FsFile FsWrite FsLock FsReplica FsDemo SysFile.
Open Scope Z_scope.
Open Scope xv6_scope.

(** The entries in the contents of a directory. *)
Definition entry_at (C : list Z) (k : Z) : dirent :=
  dec_dirent (sub_bytes (Z.to_nat (k * dirent_size)) (Z.to_nat dirent_size) C).
Definition entries (C : list Z) : list dirent :=
  entry_at C <$> seqZ 0 (Z.of_nat (length C) / dirent_size).

(** An entry in use under [name]; names agree up to their first NUL or [DIRSIZ]
    bytes. *)
Definition named (name : list Z) (e : dirent) : Prop :=
  de_inum e <> 0 /\ field (Z.to_nat DIRSIZ) name = field (Z.to_nat DIRSIZ) (de_name e).
#[global] Instance named_dec name e : Decision (named name e).
Proof. apply _. Defined.

Lemma entry_name_length C k : 0 <= k -> (k + 1) * dirent_size <= Z.of_nat (length C) ->
  length (de_name (entry_at C k)) = Z.to_nat DIRSIZ.
Proof.
  intros Hk Hl. unfold entry_at, dec_dirent, sub_bytes. cbn [de_name]. change (Z.to_nat DIRSIZ) with 14%nat.
  change dirent_size with 16 in *. rewrite length_take, length_drop, length_take, length_drop. lia.
Qed.

Lemma sub_bytes_app_l o n (l k : list Z) : (o + n <= length l)%nat -> sub_bytes o n (l ++ k) = sub_bytes o n l.
Proof. intros H. unfold sub_bytes. rewrite drop_app_le by lia. apply take_app_le. rewrite length_drop. lia. Qed.

Lemma enc_dirent_length e : wf_dirent e -> length (enc_dirent e) = 16%nat.
Proof. intros (_ & Hl & _). unfold enc_dirent. rewrite length_app, length_le_bytes, Hl. done. Qed.

Lemma entries_app C e : wf_dirent e -> Z.of_nat (length C) mod dirent_size = 0 ->
  entries (C ++ enc_dirent e) = entries C ++ [e].
Proof.
  intros We Hm. unfold entries. rewrite length_app, enc_dirent_length by done. rewrite Nat2Z.inj_add.
  change dirent_size with 16 in *. change (Z.of_nat 16) with (1 * 16). rewrite Z.div_add by lia.
  rewrite seqZ_app by (try apply Z.div_pos; lia). rewrite fmap_app. cbn [seqZ]. f_equal.
  - apply list_fmap_ext. intros i k [-> Hk]%lookup_seqZ. unfold entry_at. f_equal. change dirent_size with 16.
    apply sub_bytes_app_l. Z.div_mod_to_equations. lia.
  - change (seqZ (0 + Z.of_nat (length C) / 16) 1) with [0 + Z.of_nat (length C) / 16]. cbn [fmap list_fmap]. f_equal.
    unfold entry_at, sub_bytes. change dirent_size with 16.
    rewrite drop_app_length' by (Z.div_mod_to_equations; lia).
    rewrite take_ge by (by rewrite enc_dirent_length by done). by apply dec_enc_dirent.
Qed.

Lemma entries_insert C k e : wf_dirent e -> (k + 1) * 16 <= Z.of_nat (length C) -> 0 <= k ->
  entries (splice (Z.to_nat (k * dirent_size)) (enc_dirent e) C) = <[Z.to_nat k := e]> (entries C).
Proof.
  intros We Hk H0. pose proof (enc_dirent_length e We) as Hl. change dirent_size with 16 in *.
  unfold entries. rewrite length_splice by (rewrite Hl; lia). change dirent_size with 16.
  apply list_eq. intros i. destruct (decide (i = Z.to_nat k)) as [->|Hi].
  - rewrite list_lookup_insert_eq; [|rewrite length_fmap, length_seqZ; Z.div_mod_to_equations; lia].
    rewrite list_lookup_fmap, lookup_seqZ_lt by (Z.div_mod_to_equations; lia). cbn [fmap option_fmap option_map].
    f_equal. unfold entry_at. rewrite <- (dec_enc_dirent e We) at 2. f_equal. change dirent_size with 16.
    replace (0 + Z.of_nat (Z.to_nat k)) with k by lia. apply sub_splice_same; rewrite Hl; [lia|done].
  - rewrite list_lookup_insert_ne by done. rewrite !list_lookup_fmap.
    destruct (seqZ 0 (Z.of_nat (length C) / 16) !! i) as [z|] eqn:Hz; [|done].
    apply lookup_seqZ in Hz as [-> Hz]. cbn [fmap option_fmap option_map]. f_equal. unfold entry_at. f_equal.
    change dirent_size with 16. apply sub_splice_other; rewrite Hl; [lia|]. destruct (decide (Z.of_nat i < k)); lia.
Qed.

(** Storing an entry replaces it, or adds it at the end. *)
Lemma entries_splice C k e : wf_dirent e -> Z.of_nat (length C) mod dirent_size = 0 ->
  (k <= length (entries C))%nat ->
  entries (splice (Z.to_nat (Z.of_nat k * dirent_size)) (enc_dirent e) C) =
  take k (entries C) ++ e :: drop (S k) (entries C).
Proof.
  intros We Hm Hk. assert (Hn : length (entries C) = Z.to_nat (Z.of_nat (length C) / 16)).
  { unfold entries. by rewrite length_fmap, length_seqZ. }
  change dirent_size with 16 in *. destruct (decide (k = length (entries C))) as [->|Hne].
  - rewrite take_ge, drop_ge by lia.
    replace (Z.to_nat (Z.of_nat (length (entries C)) * 16)) with (length C) by (Z.div_mod_to_equations; lia).
    unfold splice. rewrite take_ge, drop_ge by lia. rewrite app_nil_r. by apply entries_app.
  - rewrite entries_insert by (done || (Z.div_mod_to_equations; lia)). rewrite Nat2Z.id. apply insert_take_drop. lia.
Qed.

Section Dirs.
Context {L : Type} {HO : BlockOps L} {HV : BlockView L} {HL : BlockLayer L}.
Context (devsw_read : Z -> option (nat -> Z -> M (fsst L) (Z * list Z))).
Context (devsw_write : Z -> option (nat -> list Z -> Z -> M (fsst L) Z)).
Implicit Types (s : fsst L) (dp : nat) (d : inode) (name : list Z).

(** A directory that can be read. *)
Record directory (sb : superblock) s dp d : Prop := {
  dr_read :> readable sb s dp d;
  dr_type : i_type d = T_DIR;
  dr_size : i_size d mod dirent_size = 0
}.

(** The state of the file system after reading. *)
Definition read_only s s' : Prop := exists l, s' = set_low l s /\ bl_eff (low s) l (bl_view (low s)) (bl_trans (low s)).

Lemma read_only_refl s : bl_inv (low s) -> read_only s s.
Proof. intros Hi. exists (low s). split; [by destruct s|by apply eff_refl]. Qed.

Lemma read_only_trans s s1 s2 : read_only s s1 -> read_only s1 s2 -> read_only s s2.
Proof.
  intros (l1 & -> & E1) (l2 & -> & E2). exists l2. split; [done|]. cbn in E2.
  eapply eff_view; [eapply eff_trans; [exact E1|]|].
  - rewrite (ef_trans _ _ _ _ E1) in E2. exact E2.
  - intros x. apply E1.
Qed.

Lemma read_only_view s s' x : read_only s s' -> bl_view (low s') x = bl_view (low s) x.
Proof. intros (l & -> & E). apply E. Qed.

Lemma read_only_directory sb s s' dp d : read_only s s' -> directory sb s dp d -> directory sb s' dp d.
Proof. intros (l & -> & E) [R T S]. constructor; [by apply readable_eff|done..]. Qed.

Lemma read_only_budget s s' u k : read_only s s' -> budget (low s) u k -> budget (low s') u k.
Proof. intros (l & -> & E). by eapply eff_budget_same. Qed.

Definition dir_contents s d : list Z := contents (bl_view (low s)) (i_d d).

Lemma read_only_contents s s' d : read_only s s' -> dir_contents s' d = dir_contents s d.
Proof. intros E. apply contents_ext. intros x. by apply read_only_view. Qed.

Lemma dir_length sb s dp d : directory sb s dp d -> Z.of_nat (length (dir_contents s d)) = i_size d.
Proof.
  intros D. apply length_contents. destruct (fo_wf _ _ _ (rd_file _ _ _ _ D)) as (_&_&_&_&[? _]&_). done.
Qed.

Lemma dir_count sb s dp d : directory sb s dp d -> i_size d = i_size d / dirent_size * dirent_size.
Proof. intros D. pose proof (dr_size _ _ _ _ D). change dirent_size with 16 in *. Z.div_mod_to_equations. lia. Qed.

Lemma read_dirent_Ok sb s dp d msg k :
  directory sb s dp d -> budget (low s) ∅ 1 -> 0 <= k < i_size d / dirent_size ->
  exists s', read_dirent devsw_read msg dp (k * dirent_size) s = Ok (entry_at (dir_contents s d) k) s' /\ read_only s s'.
Proof.
  intros D B Hk. pose proof (dir_count _ _ _ _ D) as Hc. change dirent_size with 16 in *.
  destruct (readi_Ok devsw_read sb s dp d (k * 16) 16 ∅ 0 D B) as (l & R & E); [lia|lia|].
  replace (Z.min 16 (i_size d - k * 16)) with 16 in R by lia. exists (set_low l s). split; [|by exists l].
  unfold read_dirent. change dirent_size with 16. erewrite bind_Ok by exact R. cbn [fst snd]. rewrite Z.eqb_refl. cbn [negb].
  unfold ret, entry_at, dir_contents. do 2 f_equal. change dirent_size with 16.
  symmetry. apply contents_sub; [lia|lia|]. change (di_size (i_d d)) with (i_size d). lia.
Qed.

Lemma namecmp_Ok name e s : CString.readable (Z.to_nat DIRSIZ) name -> length (de_name e) = Z.to_nat DIRSIZ ->
  exists c, namecmp name (de_name e) s = Ok c s /\
    (c = 0 <-> field (Z.to_nat DIRSIZ) name = field (Z.to_nat DIRSIZ) (de_name e)).
Proof.
  intros Hn He. destruct (strncmp_Ok (Z.to_nat DIRSIZ) name (de_name e)) as (c & R & Hc); [done|left; lia|].
  exists c. split; [|done]. unfold namecmp. by rewrite R.
Qed.

(** The result of [dirlookup], from the entry found. *)
Definition found d (r : option (nat * dirent)) (j : Z) : M (fsst L) (option (nat * Z)) :=
  match r with
  | None => ret None
  | Some (k, e) => let! ip := iget (i_dev d) (de_inum e) in ret (Some (ip, (j + Z.of_nat k) * dirent_size))
  end.

Lemma dirlookup_loop_Ok sb dp d name n : CString.readable (Z.to_nat DIRSIZ) name -> forall s j,
  directory sb s dp d -> budget (low s) ∅ 1 -> 0 <= j -> j + Z.of_nat n <= i_size d / dirent_size ->
  exists s1, read_only s s1 /\
    dirlookup_loop devsw_read dp name ((fun k => k * dirent_size) <$> seqZ j (Z.of_nat n)) s =
    found d (list_find (named name) (entry_at (dir_contents s d) <$> seqZ j (Z.of_nat n))) j s1.
Proof.
  intros Hn. induction n as [|n IH]; intros s j D B Hj Hl.
  { exists s. split; [apply read_only_refl, D|done]. }
  rewrite Nat2Z.inj_succ in *. rewrite seqZ_cons by lia. rewrite Z.pred_succ. rewrite !fmap_cons.
  cbn [dirlookup_loop list_find].
  destruct (read_dirent_Ok sb s dp d "dirlookup read" j D B) as (s1 & R1 & E1); [lia|].
  erewrite bind_Ok by exact R1. set (e := entry_at (dir_contents s d) j).
  destruct (IH s1 (Z.succ j)) as (s2 & E2 & R2); [by eapply read_only_directory|by eapply read_only_budget|lia|lia|].
  rewrite (read_only_contents _ _ _ E1) in R2.
  assert (Hnext : ~ named name e -> exists s3, read_only s s3 /\
    dirlookup_loop devsw_read dp name ((fun k => k * dirent_size) <$> seqZ (Z.succ j) (Z.of_nat n)) s1 =
    found d (if decide (named name e) then Some (0%nat, e)
      else prod_map S id <$> list_find (named name) (entry_at (dir_contents s d) <$> seqZ (Z.succ j) (Z.of_nat n))) j s3).
  { intros Hne. exists s2. split; [by eapply read_only_trans|]. rewrite R2, decide_False by done.
    destruct (list_find _ _) as [[k e']|]; [|done]. cbn [fmap option_fmap option_map prod_map fst snd found].
    by replace (Z.succ j + Z.of_nat k) with (j + Z.of_nat (S k)) by lia. }
  destruct (Z.eqb_spec (de_inum e) 0) as [H0|H0]; [apply Hnext; by intros [? _]|].
  destruct (namecmp_Ok name e s1 Hn) as (c & Rc & Hc).
  { apply entry_name_length; [lia|]. rewrite (dir_length sb s dp d D), (dir_count _ _ _ _ D). change dirent_size with 16 in *. nia. }
  erewrite bind_Ok by exact Rc. destruct (Z.eqb_spec c 0) as [Hc0|Hc0].
  - exists s1. split; [done|]. rewrite decide_True by (split; [done|by apply Hc]). cbn [found].
    erewrite bind_Ok by (apply get_inode_Ok, (read_only_directory _ _ _ _ _ E1 D)). rewrite Z.add_0_r. done.
  - apply Hnext. intros [_ Hf]. by apply Hc0, Hc.
Qed.

Lemma dir_offs_Ok size : 0 <= size -> size mod dirent_size = 0 ->
  dir_offs size = (fun k => k * dirent_size) <$> seqZ 0 (size / dirent_size) /\
  (size + dirent_size - 1) / dirent_size * dirent_size = size.
Proof. intros H0 Hs. unfold dir_offs. change dirent_size with 16 in *. split; [do 2 f_equal|]; Z.div_mod_to_equations; lia. Qed.

Lemma dir_size_pos sb s dp d : directory sb s dp d -> 0 <= i_size d.
Proof. intros D. rewrite <- (dir_length _ _ _ _ D). lia. Qed.

Lemma entries_length sb s dp d : directory sb s dp d -> Z.of_nat (length (entries (dir_contents s d))) = i_size d / dirent_size.
Proof.
  intros D. unfold entries. rewrite length_fmap, length_seqZ, (dir_length _ _ _ _ D). pose proof (dir_size_pos _ _ _ _ D).
  rewrite Z2Nat.id; [done|]. apply Z.div_pos; [done|by compute].
Qed.

Lemma dirlookup_Ok sb s dp d name :
  directory sb s dp d -> budget (low s) ∅ 1 -> CString.readable (Z.to_nat DIRSIZ) name ->
  exists s1, read_only s s1 /\
    dirlookup devsw_read dp name s = found d (list_find (named name) (entries (dir_contents s d))) 0 s1.
Proof.
  intros D B Hn. pose proof (dir_size_pos _ _ _ _ D) as H0.
  destruct (dir_offs_Ok _ H0 (dr_size _ _ _ _ D)) as [Ho _].
  assert (Hq : 0 <= i_size d / dirent_size) by (apply Z.div_pos; [done|by compute]).
  destruct (dirlookup_loop_Ok sb dp d name (Z.to_nat (i_size d / dirent_size)) Hn s 0 D B) as (s1 & E & R); [lia|lia|].
  rewrite Z2Nat.id in R by done. exists s1. split; [done|].
  unfold dirlookup. erewrite bind_Ok by (apply get_inode_Ok, D). rewrite (dr_type _ _ _ _ D), Z.eqb_refl. cbn [negb].
  rewrite Ho, R. unfold entries. by rewrite (dir_length _ _ _ _ D).
Qed.

(** ** Empty directories *)

Definition free_entry (e : dirent) : bool := de_inum e =? 0.

Lemma isdirempty_loop_Ok sb dp d n : forall s j,
  directory sb s dp d -> budget (low s) ∅ 1 -> 0 <= j -> j + Z.of_nat n <= i_size d / dirent_size ->
  exists s1, read_only s s1 /\
    isdirempty_loop devsw_read dp ((fun k => k * dirent_size) <$> seqZ j (Z.of_nat n)) s =
    Ok (forallb free_entry (entry_at (dir_contents s d) <$> seqZ j (Z.of_nat n))) s1.
Proof.
  induction n as [|n IH]; intros s j D B Hj Hl.
  { exists s. split; [apply read_only_refl, D|done]. }
  rewrite Nat2Z.inj_succ in *. rewrite seqZ_cons by lia. rewrite Z.pred_succ. rewrite !fmap_cons.
  cbn [isdirempty_loop forallb]. unfold free_entry at 1.
  destruct (read_dirent_Ok sb s dp d "isdirempty: readi" j D B) as (s1 & R1 & E1); [lia|].
  erewrite bind_Ok by exact R1. destruct (de_inum _ =? 0); cbn [negb andb]; [|by exists s1].
  destruct (IH s1 (Z.succ j)) as (s2 & E2 & R2); [by eapply read_only_directory|by eapply read_only_budget|lia|lia|].
  rewrite (read_only_contents _ _ _ E1) in R2. exists s2. split; [by eapply read_only_trans|done].
Qed.

Lemma drop_seqZ_fmap {A} (f : Z -> A) k n : 0 <= k <= n -> drop (Z.to_nat k) (f <$> seqZ 0 n) = f <$> seqZ k (n - k).
Proof.
  intros Hk. rewrite <- fmap_drop. f_equal. replace n with (k + (n - k)) at 1 by lia.
  rewrite seqZ_app by lia. rewrite drop_app_length'; [done|]. rewrite length_seqZ. lia.
Qed.

Lemma isdirempty_Ok sb s dp d :
  directory sb s dp d -> budget (low s) ∅ 1 ->
  exists s1, read_only s s1 /\
    isdirempty devsw_read dp s = Ok (forallb free_entry (drop 2 (entries (dir_contents s d)))) s1.
Proof.
  intros D B. pose proof (dir_size_pos _ _ _ _ D) as H0.
  destruct (dir_offs_Ok _ H0 (dr_size _ _ _ _ D)) as [Ho _].
  assert (Hq : 0 <= i_size d / dirent_size) by (apply Z.div_pos; [done|by compute]).
  unfold isdirempty. erewrite bind_Ok by (apply get_inode_Ok, D). rewrite Ho. unfold entries. rewrite (dir_length _ _ _ _ D).
  destruct (Z.le_gt_cases 2 (i_size d / dirent_size)) as [H2|H2].
  - rewrite !(drop_seqZ_fmap _ 2) by lia.
    destruct (isdirempty_loop_Ok sb dp d (Z.to_nat (i_size d / dirent_size - 2)) s 2 D B) as (s1 & E & R); [lia|lia|].
    rewrite Z2Nat.id in R by lia. by exists s1.
  - rewrite !drop_ge by (rewrite length_fmap, length_seqZ; lia). exists s. split; [apply read_only_refl, D|done].
Qed.

(** C39: [dirlookup] finds what the directory contains.  It returns the inode of
    the first entry in use with the name, and its offset, or nothing when there
    is no such entry, and changes no block; and [isdirempty] tells whether the
    entries after the first two are free. *)
Theorem dirlookup_finds sb s dp d name :
  directory sb s dp d -> budget (low s) ∅ 1 -> CString.readable (Z.to_nat DIRSIZ) name ->
  (exists s1, read_only s s1 /\ dirlookup devsw_read dp name s =
     match list_find (named name) (entries (dir_contents s d)) with
     | None => Ok None s1
     | Some (k, e) => (let! ip := iget (i_dev d) (de_inum e) in ret (Some (ip, Z.of_nat k * dirent_size))) s1
     end) /\
  (exists s1, read_only s s1 /\ isdirempty devsw_read dp s =
     Ok (bool_decide (Forall (fun e => de_inum e = 0) (drop 2 (entries (dir_contents s d))))) s1).
Proof.
  intros D B Hn. split.
  - destruct (dirlookup_Ok sb s dp d name D B Hn) as (s1 & E & R). exists s1. split; [done|]. rewrite R.
    by destruct (list_find _ _) as [[k e]|].
  - destruct (isdirempty_Ok sb s dp d D B) as (s1 & E & R). exists s1. split; [done|]. rewrite R. f_equal.
    apply eq_true_iff_eq. rewrite bool_decide_eq_true, forallb_forall, Forall_forall.
    split; intros H e He; apply Z.eqb_eq, H, list_elem_of_In, He.
Qed.

(** ** Adding an entry *)

(** The first free entry, or the one after the last. *)
Definition first_free_entry (es : list dirent) : nat :=
  match list_find (fun e => de_inum e = 0) es with Some (k, _) => k | None => length es end.

Lemma dirlink_scan_Ok sb dp d n : forall s j,
  directory sb s dp d -> budget (low s) ∅ 1 -> 0 <= j -> j + Z.of_nat n = i_size d / dirent_size ->
  exists s1, read_only s s1 /\
    dirlink_scan devsw_read dp (i_size d) ((fun k => k * dirent_size) <$> seqZ j (Z.of_nat n)) s =
    Ok ((j + Z.of_nat (first_free_entry (entry_at (dir_contents s d) <$> seqZ j (Z.of_nat n)))) * dirent_size) s1.
Proof.
  induction n as [|n IH]; intros s j D B Hj Hl.
  { exists s. split; [apply read_only_refl, D|]. change (seqZ j (Z.of_nat 0)) with (@nil Z).
    cbn [fmap list_fmap dirlink_scan]. unfold first_free_entry, ret. cbn [list_find length].
    f_equal. rewrite (dir_count _ _ _ _ D) at 1. rewrite <- Hl. lia. }
  rewrite Nat2Z.inj_succ in *. rewrite seqZ_cons by lia. rewrite Z.pred_succ. rewrite !fmap_cons.
  cbn [dirlink_scan]. unfold first_free_entry. cbn [list_find].
  destruct (read_dirent_Ok sb s dp d "dirlink read" j D B) as (s1 & R1 & E1); [lia|].
  erewrite bind_Ok by exact R1. destruct (Z.eqb_spec (de_inum (entry_at (dir_contents s d) j)) 0) as [H0|H0].
  - exists s1. split; [done|]. rewrite decide_True by done. unfold ret. f_equal. lia.
  - rewrite decide_False by done.
    destruct (IH s1 (Z.succ j)) as (s2 & E2 & R2); [by eapply read_only_directory|by eapply read_only_budget|lia|lia|].
    exists s2. split; [by eapply read_only_trans|]. rewrite R2, (read_only_contents _ _ _ E1). f_equal. f_equal.
    unfold first_free_entry. destruct (list_find _ _) as [[k e]|]; cbn [fmap option_fmap option_map prod_map]; cbn; lia.
Qed.

(** A directory, with its replicas [D], an entry can be added to: in a transaction
    with room for it, with [r] blocks to spare. *)
Record writable_dir (r : nat) (sb : superblock) s dp d (D : Z -> dinode) : Prop := {
  wd_dir :> directory sb s dp d;
  wd_group : group sb s dp d (children d) D (write_set sb d)
    (r + (1 + length (children d)) * 2) ((1 + length (children d)) * 2 + 5);
  wd_inum : 0 <= i_inum d < sb_ninodes sb;
  wd_sizes : forall c, c ∈ children d -> di_size (D c) = i_size d;
  wd_room : i_size d + dirent_size <= MAXFILE * BSIZE
}.

Lemma wready_read_only sb s s' dp d u n k : read_only s s' -> wready sb s dp d u n k -> wready sb s' dp d u n k.
Proof.
  intros (l & -> & E) W. pose proof (ef_view _ _ _ _ E) as V. constructor; cbn.
  - by apply attached_eff; [apply W|].
  - destruct (wt_geo _ _ _ _ _ _ _ W) as [G1 G2 G3]. constructor; try done. by rewrite V.
  - rewrite (ef_outstanding _ _ _ _ E). apply W.
  - eapply avail_ext; [symmetry; apply V|apply W].
  - eapply eff_budget_same; [done|apply W].
  - apply W.
  - intros x. eapply eff_unlocked; [done|apply (wt_free _ _ _ _ _ _ _ W)].
Qed.

Lemma group_read_only sb s s' dp d cs D u n k : read_only s s' -> group sb s dp d cs D u n k -> group sb s' dp d cs D u n k.
Proof.
  intros E G. pose proof (fun x => read_only_view _ _ x E) as V.
  assert (S : forall e, same_file (bl_view (low s)) (bl_view (low s')) e) by (intros e x _; apply V).
  assert (Hd : forall x, data_block sb (bl_view (low s)) x -> data_block sb (bl_view (low s')) x).
  { intros x [Hx Hu]. split; [done|]. by rewrite V. }
  assert (Hc : icache s' = icache s) by (by destruct E as (l & -> & _)).
  constructor; rewrite ?Hc; try apply G.
  - by eapply wready_read_only, G.
  - eapply same_file_ok; [apply S|done|apply G].
  - intros c Hin. destruct (g_rep _ _ _ _ _ _ _ _ _ G c Hin) as [R1 R2 R3 R4]. constructor; [done| |by eapply same_file_ok|done].
    unfold located, disk_inode in *. by rewrite Hc, V.
  - intros c Hin. eapply same_apart; [apply S..|by apply G].
  - intros c c' H1 H2 H12. eapply same_apart; [apply S..|by apply G].
Qed.

Lemma wd_budget r sb s dp d D : writable_dir r sb s dp d D -> budget (low s) ∅ 1.
Proof.
  intros W. pose proof (wt_budget _ _ _ _ _ _ _ (g_ready _ _ _ _ _ _ _ _ _ (wd_group _ _ _ _ _ _ W))) as B.
  apply (budget_empty _ (write_set sb d)). eapply budget_le; [exact B|lia].
Qed.

Lemma dir_write r sb s s' dp d D src k :
  writable_dir r sb s dp d D -> read_only s s' -> length src = 16%nat -> Forall is_u8 src ->
  0 <= k <= i_size d / dirent_size -> replicated_write r sb s' dp d D src (k * dirent_size) dirent_size.
Proof.
  intros W E Hl Hs Hk. pose proof (dir_count _ _ _ _ W) as Hc. pose proof (wd_room _ _ _ _ _ _ W) as Hr.
  assert (Hsp : Z.to_nat (span (k * dirent_size) dirent_size) = 1%nat).
  { unfold span. change BSIZE with 512. change dirent_size with 16. Z.div_mod_to_equations. lia. }
  constructor; try apply W; rewrite ?Hsp.
  - eapply group_read_only; [exact E|apply W].
  - by rewrite (dr_type _ _ _ _ W).
  - change dirent_size with 16 in *. constructor; [lia|rewrite Hl; lia|lia|done].
Qed.

(** An entry written in the directory and its replicas. *)
Lemma dir_written r sb s s1 dp d D src k (new := splice (Z.to_nat (k * dirent_size)) src) :
  writable_dir r sb s dp d D -> read_only s s1 -> length src = 16%nat -> Forall is_u8 src ->
  0 <= k <= i_size d / dirent_size ->
  exists s' d' D', writei devsw_read devsw_write dp src (k * dirent_size) dirent_size s1 = Ok dirent_size s' /\
    directory sb s' dp d' /\ disk_inode s' (i_inum d) = i_d d' /\ dir_contents s' d' = new (dir_contents s d) /\
    i_checksum d' = checksum_of (dir_contents s' d') /\
    (forall c, c ∈ children d -> replica sb s' c (D' c) /\ disk_inode s' c = d_set_nlink 1 (D' c) /\
       di_size (D' c) = i_size d' /\ di_checksum (D' c) = i_checksum d' /\
       contents (bl_view (low s')) (D' c) = new (contents (bl_view (low s)) (D c))).
Proof.
  intros W E Hl Hs Hk. set (off := k * dirent_size) in *.
  destruct (writei_group devsw_read devsw_write r _ _ _ _ _ _ _ _ (dir_write r sb s s1 dp d D src k W E Hl Hs Hk))
    as (s' & e & D' & R & G & [[Pd Pc] P2 _ _] & Ee).
  assert (Hnew : forall x, replaced s1 src off dirent_size x = new (contents (bl_view (low s)) x)).
  { intros x. unfold replaced. rewrite take_ge by (rewrite Hl; by compute). unfold new. f_equal.
    apply contents_ext. intros y. by apply read_only_view. }
  fold off in R, Pc, P2, Ee. rewrite Hnew in Pc, Ee. exists s', (i_set_d e d), D'. cbn [i_d i_set_d] in *.
  assert (Hf : i_type (i_set_d e d) = T_DIR /\ i_size (i_set_d e d) = Z.max (i_size d) (off + dirent_size) /\
    i_checksum (i_set_d e d) = checksum_of (new (dir_contents s d))).
  { unfold i_type, i_size, i_checksum. cbn [i_d i_set_d]. rewrite Ee. cbn. by rewrite (dr_type _ _ _ _ W). }
  destruct Hf as (Ht & Hz & Hck). split_and!; [exact R| |exact Pd|exact Pc|by rewrite Hck; f_equal|].
  - constructor; [|exact Ht|].
    + constructor; [apply G|by rewrite Ht|apply G].
    + rewrite Hz. unfold off. pose proof (dr_size _ _ _ _ W). change dirent_size with 16 in *.
      destruct (Z.max_spec (i_size d) (k * 16 + 16)) as [[_ ->]|[_ ->]]; [|done].
      replace (k * 16 + 16) with ((k + 1) * 16) by lia. apply Z.mod_mul. lia.
  - intros c Hc. destruct (P2 c Hc (child_all _ _ _ Hc)) as (Q1 & Q2 & Q3 & Q4). rewrite Hz, <- Hnew. split_and!; try done. by apply G.
Qed.

Lemma field_u8 n (l : list Z) : Forall is_u8 l -> Forall is_u8 (field n l).
Proof.
  revert l. induction n as [|n IH]; intros [|c l] Hl; cbn; try apply Forall_nil; try done.
  destruct (c =? 0); [by apply Forall_nil|]. inversion Hl; subst. apply Forall_cons; auto.
Qed.

(** The name [dirlink] stores. *)
Lemma stored_name name : CString.readable (Z.to_nat DIRSIZ) name -> Forall is_u8 name ->
  exists nm, strncpy (replicate (Z.to_nat DIRSIZ) 0) name (Z.to_nat DIRSIZ) = Some nm /\
    length nm = 14%nat /\ field (Z.to_nat DIRSIZ) nm = field (Z.to_nat DIRSIZ) name /\ Forall is_u8 nm.
Proof.
  intros Hn Hu. set (n := Z.to_nat DIRSIZ). assert (H0 : (n <= length (replicate n 0%Z))%nat) by (by rewrite length_replicate).
  eexists. split; [by apply strncpy_Ok|].
  destruct (field_strncpy n (replicate n 0) name _ H0 Hn (strncpy_Ok n _ _ H0 Hn)) as (F1 & F2 & _).
  split_and!; [by rewrite F2, length_replicate|done|]. repeat apply Forall_app_2.
  - by apply field_u8.
  - by apply Forall_replicate.
  - rewrite drop_ge by (by rewrite length_replicate). by apply Forall_nil.
Qed.

Lemma first_free_le es : (first_free_entry es <= length es)%nat.
Proof.
  unfold first_free_entry. destruct (list_find _ es) as [[k e]|] eqn:E; [|done].
  apply list_find_Some in E as (E & _). apply lookup_lt_Some in E. lia.
Qed.

Lemma find_spliced (P : dirent -> Prop) `{forall e, Decision (P e)} es k e :
  (k <= length es)%nat -> list_find P es = None -> P e ->
  list_find P (take k es ++ e :: drop (S k) es) = Some (k, e).
Proof.
  intros Hk Hn He. apply list_find_Some. split_and!.
  - rewrite lookup_app_r by (rewrite length_take; lia). rewrite length_take, Nat.min_l, Nat.sub_diag by lia. done.
  - done.
  - intros j y Hy Hj. rewrite lookup_app_l in Hy by (rewrite length_take; lia).
    rewrite lookup_take_lt in Hy by done. apply list_find_None in Hn. rewrite Forall_lookup in Hn. by eapply Hn.
Qed.

(** [dirlink] of a new name, up to its write. *)
Lemma dirlink_store sb s dp d name inum nm (es := entries (dir_contents s d)) :
  directory sb s dp d -> budget (low s) ∅ 1 -> CString.readable (Z.to_nat DIRSIZ) name -> 0 < inum < 2 ^ 16 ->
  list_find (named name) es = None ->
  strncpy (replicate (Z.to_nat DIRSIZ) 0) name (Z.to_nat DIRSIZ) = Some nm ->
  exists s2, read_only s s2 /\ dirlink devsw_read devsw_write dp name inum s =
    (let! r := writei devsw_read devsw_write dp (enc_dirent (Dirent inum nm))
                 (Z.of_nat (first_free_entry es) * dirent_size) dirent_size in
     if negb (r =? dirent_size) then panic "dirlink" else ret 0) s2.
Proof.
  intros W B Hn Hi Hf Rn. destruct (dirlookup_Ok sb s dp d name W B Hn) as (s1 & E1 & R1). fold es in R1. rewrite Hf in R1.
  pose proof (dir_size_pos _ _ _ _ W) as H0. destruct (dir_offs_Ok _ H0 (dr_size _ _ _ _ W)) as [Ho Hend].
  assert (Hq : 0 <= i_size d / dirent_size) by (apply Z.div_pos; [done|by compute]).
  pose proof (read_only_directory _ _ _ _ _ E1 W) as D1.
  destruct (dirlink_scan_Ok sb dp d (Z.to_nat (i_size d / dirent_size)) s1 0 D1) as (s2 & E2 & R2);
    [by eapply read_only_budget|lia|lia|].
  rewrite Z2Nat.id, (read_only_contents _ _ _ E1) in R2 by done.
  pose proof (dir_length _ _ _ _ W) as Hdl.
  assert (Hes : entry_at (dir_contents s d) <$> seqZ 0 (i_size d / dirent_size) = es) by (unfold es, entries; by rewrite Hdl).
  rewrite Hes in R2. exists s2. split; [by eapply read_only_trans|].
  unfold dirlink. erewrite bind_Ok by (rewrite R1; reflexivity). cbv beta iota.
  erewrite bind_Ok by (apply get_inode_Ok, D1). rewrite Hend, Ho. erewrite bind_Ok by exact R2.
  rewrite Rn. cbn [of_option]. erewrite bind_Ok by reflexivity.
  replace (u16 inum) with inum by (symmetry; apply Z.mod_small; lia). by rewrite Z.add_0_l.
Qed.

Lemma scan_full c ca : forall k, uncached c ca -> unused_entries ca = 0%nat -> iget_scan ROOTDEV c k ca None = (None, None).
Proof.
  unfold unused_entries. induction ca as [|j ca IH]; intros k Hu Hn; cbn [iget_scan]; [done|].
  destruct (_ && _) eqn:E; [exfalso; apply (Hu 0%nat j eq_refl); lia|]. rewrite filter_cons in Hn.
  case_decide as Hj; [done|]. unfold unused in Hj. rewrite (proj2 (Z.eqb_neq _ _) Hj).
  apply IH; [|done]. intros m x Hm. by apply (Hu (S m)).
Qed.

(** The cache has an entry for the inode, or a free one. *)
Definition cacheable s (c : Z) : Prop := find_inode c (icache s) = None -> (0 < unused_entries (icache s))%nat.
#[local] Instance cacheable_dec s c : Decision (cacheable s c).
Proof. unfold cacheable. destruct (find_inode c (icache s)); [left; done|]. destruct (decide (0 < unused_entries (icache s))%nat); [left|right]; auto. Defined.

(** The entries in use are as they were. *)
Definition same_entries s s' : Prop := forall k j, icache s !! k = Some j -> ~ unused j -> icache s' !! k = Some j.

Lemma iput_drop s e x :
  icache s !! e = Some x -> (i_ref x =? 1) && i_flag I_VALID x = false ->
  iput devsw_read e s = Ok tt (entry s e (i_set_ref (i_ref x - 1) x) (low s)).
Proof.
  intros Hx Hn. unfold iput. inode_step Hx. rewrite Hn. cbn [andb]. erewrite bind_Ok by reflexivity.
  rewrite (upd_inode_Ok _ _ _ _ Hx). unfold entry. by destruct s.
Qed.

(** [iget] and [iput] of an inode: the entries in use are left as they were. *)
Lemma iget_iput {A} s c (r : A) (m := let! ip := iget ROOTDEV c in iput devsw_read ip ;;; ret r) :
  if decide (cacheable s c) then exists s', m s = Ok r s' /\ low s' = low s /\ same_entries s s'
  else m s = panic "iget: no inodes" s.
Proof.
  unfold m. case_decide as Hc.
  - destruct (iget_slot s c Hc) as (e & j & [Hj Hs] & R). rewrite (bind_Ok _ _ _ _ _ R). clear R. set (x := match _ with Some _ => _ | None => _ end).
    assert (Hx : icache (entry s e x (low s)) !! e = Some x) by (by eapply entry_lookup).
    destruct Hs as [Hs|[Hu Hs]]; unfold x in *; rewrite Hs in *; clear x.
    + apply list_find_Some in Hs as (_ & (Hr & _) & _). erewrite bind_Ok.
      2: { apply iput_drop; [exact Hx|]. apply andb_false_intro1, Z.eqb_neq. cbn. lia. }
      rewrite entry_entry. cbn. eexists. split; [reflexivity|]. split; [done|].
      intros k y Hy Hk. cbn. rewrite list_insert_id; [done|]. rewrite Hj. unfold i_set_ref. destruct j; cbn. do 2 f_equal. lia.
    + erewrite bind_Ok by (by apply iput_drop; [exact Hx|]).
      rewrite entry_entry. eexists. split; [reflexivity|]. split; [done|].
      intros k y Hy Hk. cbn. rewrite list_lookup_insert_ne; [done|]. intros ->. by simplify_eq.
  - unfold cacheable in Hc. assert (Hf : find_inode c (icache s) = None) by (destruct (find_inode c (icache s)); [exfalso; by apply Hc|done]).
    assert (Hu : unused_entries (icache s) = 0%nat) by (destruct (unused_entries (icache s)); [done|exfalso; apply Hc; lia]).
    unfold iget, gets, bind. rewrite scan_full; [done|by apply find_uncached|done].
Qed.

Lemma dirlink_refused sb s dp d name inum k e :
  directory sb s dp d -> budget (low s) ∅ 1 -> CString.readable (Z.to_nat DIRSIZ) name ->
  list_find (named name) (entries (dir_contents s d)) = Some (k, e) ->
  exists s1, read_only s s1 /\
    if decide (cacheable s (de_inum e)) then
      exists s', dirlink devsw_read devsw_write dp name inum s = Ok (-1) s' /\ low s' = low s1 /\ same_entries s s'
    else dirlink devsw_read devsw_write dp name inum s = panic "iget: no inodes" s1.
Proof.
  intros W B Hn Hf. destruct (dirlookup_Ok sb s dp d name W B Hn) as (s1 & E1 & R1). rewrite Hf in R1.
  exists s1. split; [done|]. assert (R : dirlink devsw_read devsw_write dp name inum s =
    (let! ip := iget ROOTDEV (de_inum e) in iput devsw_read ip ;;; ret (-1)) s1).
  { unfold dirlink. unfold bind at 1. rewrite R1, <- (rd_dev _ _ _ _ W). unfold found, bind.
    by destruct (iget (i_dev d) (de_inum e) s1). }
  pose proof (iget_iput s1 (de_inum e) (-1)) as H. cbv zeta in H. rewrite <- R in H. clear R R1. destruct E1 as (l & -> & _). exact H.
Qed.

(** C40: [dirlink] adds a name.  The directory may have replicas, of the same size
    as it is, and the call is part of a transaction with log space and free blocks
    for the entry in all of them.  When no entry has the name, [dirlink] returns
    0: the inode number is stored under the name in the first free entry, or in
    one after the last, the other entries are kept and the name is found there;
    the inode on disk has the checksum of the new contents.  The replicas have
    the same size and checksum, and those that were equal to the directory are
    equal to it again.  When an entry has the name, [dirlink] returns -1; no
    block and no inode in use is changed.  Only if the inode of that entry is not
    in the inode cache and the cache is full does it panic. *)
Theorem dirlink_adds r sb s dp d D name inum :
  writable_dir r sb s dp d D -> CString.readable (Z.to_nat DIRSIZ) name -> Forall is_u8 name -> 0 < inum < 2 ^ 16 ->
  let es := entries (dir_contents s d) in
  match list_find (named name) es with
  | None =>
      exists s' d' D' nm, dirlink devsw_read devsw_write dp name inum s = Ok 0 s' /\
        directory sb s' dp d' /\ disk_inode s' (i_inum d) = i_d d' /\
        entries (dir_contents s' d') =
          take (first_free_entry es) es ++ Dirent inum nm :: drop (S (first_free_entry es)) es /\
        list_find (named name) (entries (dir_contents s' d')) = Some (first_free_entry es, Dirent inum nm) /\
        i_checksum d' = checksum_of (dir_contents s' d') /\
        (forall c, c ∈ children d -> replica sb s' c (D' c) /\ disk_inode s' c = d_set_nlink 1 (D' c) /\
           di_size (D' c) = i_size d' /\ di_checksum (D' c) = i_checksum d' /\
           (contents (bl_view (low s)) (D c) = dir_contents s d -> contents (bl_view (low s')) (D' c) = dir_contents s' d'))
  | Some (_, e) =>
      exists s1, read_only s s1 /\
        if decide (cacheable s (de_inum e)) then
          exists s', dirlink devsw_read devsw_write dp name inum s = Ok (-1) s' /\ low s' = low s1 /\ same_entries s s'
        else dirlink devsw_read devsw_write dp name inum s = panic "iget: no inodes" s1
  end.
Proof.
  intros W Hn Hu Hi es. pose proof (wd_budget _ _ _ _ _ _ W) as B.
  destruct (list_find (named name) es) as [[k e]|] eqn:Hf.
  { eapply dirlink_refused; [apply W|done|done|exact Hf]. }
  destruct (stored_name name Hn Hu) as (nm & Rn & Ln & Fn & Un).
  destruct (dirlink_store sb s dp d name inum nm W B Hn Hi Hf Rn) as (s2 & E2 & R2). fold es in R2.
  pose proof (first_free_le es) as Hk. set (k := first_free_entry es) in *.
  pose proof (entries_length _ _ _ _ W) as Hel. fold es in Hel. pose proof (dir_length _ _ _ _ W) as Hdl.
  assert (We : wf_dirent (Dirent inum nm)) by (split_and!; unfold is_u16; cbn; try lia; done).
  pose proof (enc_dirent_length _ We) as Hle.
  assert (Hue : Forall is_u8 (enc_dirent (Dirent inum nm))) by (apply Forall_app_2; [apply le_bytes_u8|done]).
  destruct (dir_written r sb s s2 dp d D _ (Z.of_nat k) W E2 Hle Hue ltac:(lia)) as (s' & d' & D' & Rw & Dd & Hdk & C & Hck & HD).
  assert (Hent : entries (dir_contents s' d') = take k es ++ Dirent inum nm :: drop (S k) es).
  { rewrite C. apply entries_splice; [done|rewrite Hdl; apply (dr_size _ _ _ _ W)|exact Hk]. }
  exists s', d', D', nm. split_and!; try done.
  - rewrite R2. erewrite bind_Ok by exact Rw. by rewrite Z.eqb_refl.
  - rewrite Hent. apply find_spliced; [done|done|]. split; [cbn; lia|symmetry; exact Fn].
  - intros c Hc. destruct (HD c Hc) as (H1 & H2 & H3 & H4 & H5). split_and!; try done.
    intros Heq. by rewrite H5, C, Heq.
Qed.

End Dirs.

(** ** A directory on the disk of FsDemo *)

(** Block 29 as a directory: inode 5 under the empty name, and 31 free entries. *)
Definition demo_dir : dinode := Dinode T_DIR 0 0 1 512 [29; 30; 0; 0; 0; 0; 0; 0; 0; 0; 0] 0 0 0.
Definition demo_dir_inode : inode := Inode ROOTDEV 1 1 (Z.lor I_BUSY I_VALID) demo_dir.
Definition dir_state (l : logst) : fsst logst := FsSt l [demo_dir_inode; Inode 0 0 0 0 dinode_zero] 0.

Section Demo.
Context (l : logst) (Hi : bl_inv l) (Hh : bl_held l = ∅) (Ht : bl_trans l = []) (Ho : bl_outstanding l = 1).
Context (Hv : forall b, 0 <= b < LOGSTART -> bl_view l b = demo_view b).

Lemma demo_dir_ok : file_ok demo_sb (bl_view l) demo_dir.
Proof.
  destruct (demo_dinode_ok l Hv 0 0) as [[W F1 F2 F3] S1 S2]; [klia|klia|].
  constructor; [constructor; [|exact F1|exact F2|exact F3]|cbn; klia|].
  - unfold wf_dinode, is_i16, is_u32. cbn. split_and!; try klia. repeat apply Forall_cons_2; try lia; by apply Forall_nil.
  - intros bn Hb Hs. apply S2; [done|]. cbn in *. klia.
Qed.

Lemma demo_directory : directory demo_sb (dir_state l) 0 demo_dir_inode.
Proof.
  constructor; [|done|done]. constructor; [constructor|..]; try done; [apply demo_dir_ok|intros; by apply demo_unlocked|apply demo_dir_ok].
Qed.

Lemma demo_dir_contents : dir_contents (dir_state l) demo_dir_inode = demo_data.
Proof.
  transitivity (contents demo_view demo_dir); [|by vm_compute].
  apply list_fmap_ext. intros k x [-> Hx]%lookup_seqZ. cbn in Hx. unfold file_byte, file_block.
  rewrite (Z.div_small (0 + Z.of_nat k) BSIZE) by klia.
  change (file_addr (bl_view (low (dir_state l))) (i_d demo_dir_inode) 0) with 29.
  change (file_addr demo_view demo_dir 0) with 29. cbn [Z.eqb]. by rewrite Hv by (unfold LOGSTART; klia).
Qed.

Lemma twin_directory : directory demo_sb (twin_state l T_DIR) 0 (twin_inode T_DIR).
Proof. constructor; [by apply twin_readable|done|done]. Qed.

Lemma twin_writable : writable_dir 0 demo_sb (twin_state l T_DIR) 0 (twin_inode T_DIR) (fun _ => twin_ditto).
Proof. constructor; [apply twin_directory|apply twin_group; try assumption; [klia|done|vm_compute; lia|vm_compute; lia]|by compute|done|by compute]. Qed.
End Demo.

Lemma dirlookup_finds_witness : exists s s1 : fsst logst, dirlookup no_read 0 [0] s = Ok (Some (1%nat, 0)) s1.
Proof.
  destruct demo_start as (l & Hi & Hh & Ht & Ho & Hv).
  destruct (dirlookup_finds no_read no_write demo_sb (dir_state l) 0 demo_dir_inode [0]) as ((s1 & (l1 & -> & _) & R) & _).
  - by apply demo_directory.
  - apply demo_budget; try assumption. vm_compute; lia.
  - right. by left.
  - rewrite (demo_dir_contents l Hv) in R. exists (dir_state l). eexists. rewrite R.
    replace (list_find (named [0]) (entries demo_data)) with (Some (0%nat, Dirent 5 (replicate 14 0))); [reflexivity|].
    symmetry. by vm_compute.
Defined.

Lemma dirlink_adds_witness : exists (s s1 : fsst logst) d1 d2,
  dirlink no_read no_write 0 [97; 0] 9 s = Ok 0 s1 /\
  directory demo_sb s1 0 d1 /\ replica demo_sb s1 2 d2 /\ contents (bl_view (low s1)) d2 = dir_contents s1 d1.
Proof.
  destruct demo_start as (l & Hi & Hh & Ht & Ho & Hv).
  pose proof (dirlink_adds no_read no_write 0 demo_sb (twin_state l T_DIR) 0 (twin_inode T_DIR) (fun _ => twin_ditto) [97; 0] 9) as R.
  assert (Hc : dir_contents (twin_state l T_DIR) (twin_inode T_DIR) = zero_block) by (by apply twin_contents; [|lia]).
  rewrite Hc in R. cbv zeta in R.
  replace (list_find (named [97; 0]) (entries zero_block)) with (@None (nat * dirent)) in R by (symmetry; by vm_compute).
  destruct R as (s1 & d1 & D1 & nm & R & Dr & _ & _ & _ & _ & HD).
  - by apply twin_writable.
  - right. by right; left.
  - repeat apply Forall_cons_2; try klia. by apply Forall_nil.
  - lia.
  - destruct (HD 2) as (H2 & _ & _ & _ & He); [by left|].
    exists (twin_state l T_DIR), s1, d1, (D1 2). split_and!; [exact R|exact Dr|exact H2|]. apply He. by apply twin_contents; [|lia].
Defined.

Lemma namex_terminates_witness : exists s : fsst logst,
  namex_loop no_read no_write 100 0 ([47; 97] ++ [0]) false name_buf true s =
  namex_loop no_read no_write 3 0 ([47; 97] ++ [0]) false name_buf true s.
Proof.
  destruct demo_start as (l & _). exists (dir_state l).
  apply (namex_terminates no_read no_write [47; 97] false true 100 0 (dir_state l)).
  - intros H. repeat (apply elem_of_cons in H as [H|H]; [discriminate|]). by apply not_elem_of_nil in H.
  - cbn. lia.
Defined.
