(* ===== verification/Syscall.v ===== *)
(** * Syscall: system calls (syscall.c, sysproc.c, sysfile.c, exec.c)

    The arguments of system calls, fetched from the memory of the process through
    its page table, the calls themselves over processes, open files and the file
    system, and their dispatch.  A call returns [Some] result; it returns [None]
    when the process does not go on: after [exit], or asleep in [wait].  A call
    that sleeps in a pipe or a lock stops with [Sleep]. *)

From S2P Require Import Prelude Layout Block FsBlock FsInode FsDir Kalloc Vm Pipe File Proc CString SysFile.
Open Scope Z_scope.
Open Scope xv6_scope.

Definition O_RDONLY : Z := 0.
Definition O_WRONLY : Z := 1.
Definition O_RDWR : Z := 2.
Definition O_CREATE : Z := 512.
Definition MAXARG : Z := 32.

(** ** User memory *)

(** The kernel address of the byte at [va]. *)
Definition uaddr (m : memory) (pgdir va : Z) : option Z :=
  '(pa, _) ← translate m pgdir va; Some (p2v pa + va mod PGSIZE).

(** The bytes from [va] on, up to [n] of them or the first that is not mapped. *)
Fixpoint user_bytes (m : memory) (pgdir va : Z) (n : nat) : list Z :=
  match n with
  | O => []
  | S n => match uaddr m pgdir va with
           | Some a => m a :: user_bytes m pgdir (va + 1) n
           | None => []
           end
  end.

(** Storing bytes from [va] on, through the page table. *)
Fixpoint user_store (pgdir va : Z) (bs : list Z) : M kst unit :=
  match bs with
  | [] => ret tt
  | b :: bs =>
      let! m := gets kmem in
      let! a := of_option (Undefined "page fault") (uaddr m pgdir va) in
      modify (fun s => set_kmem (store_bytes (kmem s) a [b]) s) ;;;
      user_store pgdir (va + 1) bs
  end.

(** The loop of [fetchstr]: [None] faults, [Some None] finds no NUL. *)
Fixpoint fetchstr_loop (m : memory) (pgdir va : Z) (n : nat) : option (option (list Z)) :=
  match n with
  | O => Some None
  | S n =>
      a ← uaddr m pgdir va;
      if m a =? 0 then Some (Some [0]) else
      match fetchstr_loop m pgdir (va + 1) n with
      | Some (Some bs) => Some (Some (m a :: bs))
      | r => r
      end
  end.

(** The first free descriptor from [fd] on. *)
Fixpoint fdalloc_scan (fd : nat) (ofile : list (option nat)) : option nat :=
  match ofile with
  | [] => None
  | None :: _ => Some fd
  | Some _ :: ofile => fdalloc_scan (S fd) ofile
  end.

(** The fields of [struct stat], at their offsets. *)
Definition stat_fields (st : stat) : list (Z * list Z) :=
  [(0, le_bytes 2 (st_type st)); (4, le_bytes 4 (st_dev st)); (8, le_bytes 4 (st_ino st)); (12, le_bytes 2 (st_nlink st));
   (16, le_bytes 4 (st_size st)); (20, le_bytes 2 (st_child1 st)); (22, le_bytes 2 (st_child2 st));
   (24, le_bytes 4 (st_checksum st))].

Definition ret_Z {S} (r : Z) : M S (option Z) := ret (Some r).

(** [struct elfhdr] and [struct proghdr]: their fields with their sizes, read
    from the bytes of the file. *)
Definition elfhdr : list (string * Z) :=
  [("magic", 4); ("elf", 12); ("type", 2); ("machine", 2); ("version", 4); ("entry", 4); ("phoff", 4); ("shoff", 4);
   ("flags", 4); ("ehsize", 2); ("phentsize", 2); ("phnum", 2); ("shentsize", 2); ("shnum", 2); ("shstrndx", 2)]%string.
Definition proghdr : list (string * Z) :=
  [("type", 4); ("off", 4); ("vaddr", 4); ("paddr", 4); ("filesz", 4); ("memsz", 4); ("flags", 4); ("align", 4)]%string.
Definition elfhdr_size : Z := offset_of EmptyString elfhdr.
Definition proghdr_size : Z := offset_of EmptyString proghdr.
Definition elf_field (f : string) (n : nat) (bs : list Z) : Z := le_val (sub_bytes (Z.to_nat (offset_of f elfhdr)) n bs).
Definition ph_field (f : string) (bs : list Z) : Z := le_val (sub_bytes (Z.to_nat (offset_of f proghdr)) 4 bs).
Definition ELF_MAGIC : Z := 1179403647.
Definition ELF_PROG_LOAD : Z := 1.

Section Syscall.
Context {L : Type} `{BlockOps L}.
Context (devsw_read : Z -> option (nat -> Z -> M (fsst L) (Z * list Z))).
Context (devsw_write : Z -> option (nat -> list Z -> Z -> M (fsst L) Z)).
Context (end_ data_ trapret_ forkret_ : Z).
Context (count0 : Z) (depth : nat) (ticks : Z).
Implicit Types (cur ip f : nat) (n fd : Z) (path : list Z).

Definition get_mem : M (sys L) memory := gets (fun s => kmem (k_mem (s_kern s))).

(** A computation of the file system on behalf of [cur], whose current directory
    it uses. *)
Definition as_proc cur {A} (c : M (fsst L) A) : M (sys L) A :=
  let! me := get_proc cur in
  let! d := of_option (Undefined "no current directory") (p_cwd me) in
  in_kern (in_fs (modify (fun s => FsSt (low s) (icache s) d) ;;; c)).
Definition in_sys {A} (c : M (fsst L) A) : M (sys L) A := in_kern (in_fs c).

(** ** Arguments *)

Definition fetchint cur (addr : Z) : M (sys L) (option Z) :=
  let! me := get_proc cur in
  if (p_sz me <=? addr) || (p_sz me <? u32 (addr + 4)) then ret None else
  let! m := get_mem in
  match user_bytes m (p_pgdir me) addr 4 with
  | [a; b; c; d] => ret (Some (i32 (le_val [a; b; c; d])))
  | _ => halt (Undefined "page fault")
  end.

(** [fetchstr]: the bytes of the string at [addr] with its NUL. *)
Definition fetchstr cur (addr : Z) : M (sys L) (option (list Z)) :=
  let! me := get_proc cur in
  if p_sz me <=? addr then ret None else
  let! m := get_mem in
  of_option (Undefined "page fault") (fetchstr_loop m (p_pgdir me) addr (Z.to_nat (p_sz me - addr))).

Definition argint cur n : M (sys L) (option Z) :=
  let! me := get_proc cur in
  let! m := get_mem in
  fetchint cur (u32 (read32 m (p_tf me + tf_esp) + 4 + 4 * n)).

Definition argptr cur n (size : Z) : M (sys L) (option Z) :=
  let! i := argint cur n in
  match i with
  | None => ret None
  | Some i =>
      let! me := get_proc cur in
      if (p_sz me <=? u32 i) || (p_sz me <? u32 (u32 i + size)) then ret None else ret (Some (u32 i))
  end.

Definition argstr cur n : M (sys L) (option (list Z)) :=
  let! a := argint cur n in
  match a with
  | None => ret None
  | Some a => fetchstr cur (u32 a)
  end.

(** ** Descriptors *)

(** [argfd]: the descriptor and the open file. *)
Definition argfd cur n : M (sys L) (option (Z * nat)) :=
  let! o := argint cur n in
  match o with
  | None => ret None
  | Some fd =>
      if (fd <? 0) || (NOFILE <=? fd) then ret None else
      let! me := get_proc cur in
      match p_ofile me !! Z.to_nat fd with
      | Some (Some f) => ret (Some (fd, f))
      | _ => ret None
      end
  end.

Definition set_fd cur fd (o : option nat) : M (sys L) unit :=
  upd_proc cur (fun q => p_set_ofile (<[Z.to_nat fd := o]> (p_ofile q)) q).

Definition fdalloc cur f : M (sys L) Z :=
  let! me := get_proc cur in
  match fdalloc_scan 0 (p_ofile me) with
  | Some fd => set_fd cur (Z.of_nat fd) (Some f) ;;; ret (Z.of_nat fd)
  | None => ret (-1)
  end.

(** Stores to the memory of [cur]. *)
Definition copy_to_user cur (va : Z) (bs : list Z) : M (sys L) unit :=
  let! me := get_proc cur in
  in_vm (user_store (p_pgdir me) va bs).

Definition sys_dup cur : M (sys L) (option Z) :=
  let! a := argfd cur 0 in
  match a with
  | None => ret_Z (-1)
  | Some (_, f) =>
      let! fd := fdalloc cur f in
      if fd <? 0 then ret_Z (-1) else
      in_kern (filedup f) ;;;
      ret_Z fd
  end.

Definition sys_read cur : M (sys L) (option Z) :=
  let! a := argfd cur 0 in
  let! o := (match a with None => ret None | Some _ => argint cur 2 end) in
  let! p := (match o with None => ret None | Some n => argptr cur 1 n end) in
  match a, o, p with
  | Some (_, f), Some n, Some p =>
      let! me := get_proc cur in
      let! rb := in_kern (fileread devsw_read devsw_write (p_killed me) f n) in
      copy_to_user cur p (snd rb) ;;;
      ret_Z (fst rb)
  | _, _, _ => ret_Z (-1)
  end.

Definition sys_write cur : M (sys L) (option Z) :=
  let! a := argfd cur 0 in
  let! o := (match a with None => ret None | Some _ => argint cur 2 end) in
  let! p := (match o with None => ret None | Some n => argptr cur 1 n end) in
  match a, o, p with
  | Some (_, f), Some n, Some p =>
      let! me := get_proc cur in
      let! m := get_mem in
      let! r := in_kern (filewrite devsw_read devsw_write (p_killed me) f
                           (user_bytes m (p_pgdir me) p (Z.to_nat n)) n) in
      ret_Z r
  | _, _, _ => ret_Z (-1)
  end.

Definition sys_close cur : M (sys L) (option Z) :=
  let! a := argfd cur 0 in
  match a with
  | None => ret_Z (-1)
  | Some (fd, f) =>
      set_fd cur fd None ;;;
      in_kern (fileclose devsw_read end_ f) ;;;
      ret_Z 0
  end.

Definition sys_fstat cur : M (sys L) (option Z) :=
  let! a := argfd cur 0 in
  let! st := (match a with None => ret None | Some _ => argptr cur 1 28 end) in
  match a, st with
  | Some (_, f), Some st =>
      let! r := in_kern (filestat devsw_read devsw_write f) in
      match r with
      | inl e => ret_Z e
      | inr b => for_each (stat_fields b) (fun '(o, bs) => copy_to_user cur (st + o) bs) ;;; ret_Z 0
      end
  | _, _ => ret_Z (-1)
  end.

(** ** Paths *)

(** [argstr] of arguments 0 and 1, in that order. *)
Definition sys_link cur : M (sys L) (option Z) :=
  let! old := argstr cur 0 in
  let! new := (match old with None => ret None | Some _ => argstr cur 1 end) in
  match old, new with
  | Some old, Some new => let! r := as_proc cur (link devsw_read devsw_write old new) in ret_Z r
  | _, _ => ret_Z (-1)
  end.

Definition sys_unlink cur : M (sys L) (option Z) :=
  let! p := argstr cur 0 in
  match p with
  | None => ret_Z (-1)
  | Some path => let! r := as_proc cur (unlink devsw_read devsw_write path) in ret_Z r
  end.

(** The end of [sys_open], [sys_forceopen] and [sys_iopen]: a descriptor for the
    locked inode, or [err]. *)
Definition open_fd cur ip (omode err : Z) : M (sys L) Z :=
  let! o := in_kern filealloc in
  match o with
  | None => in_sys (iunlockput devsw_read ip) ;;; ret err
  | Some f =>
      let! fd := fdalloc cur f in
      if fd <? 0 then
        in_kern (fileclose devsw_read end_ f) ;;;
        in_sys (iunlockput devsw_read ip) ;;;
        ret err
      else
      in_sys (iunlock ip) ;;;
      in_kern (upd_file f (fun ff =>
        File FD_INODE (f_ref ff) (Z.land omode O_WRONLY =? 0)
          (negb (Z.land omode O_WRONLY =? 0) || negb (Z.land omode O_RDWR =? 0)) (f_pipe ff) ip 0)) ;;;
      ret fd
  end.

(** [create] in a transaction of its own. *)
Definition open_create cur path : M (sys L) (option nat) :=
  as_proc cur (
    in_low begin_op ;;;
    let! o := create devsw_read devsw_write count0 depth path T_FILE 1 0 in
    in_low end_op ;;;
    ret o).

(** What [sys_open] and [sys_forceopen] do after the arguments; [verify] tells
    them apart. *)
Definition open cur path (omode : Z) (verify : bool) : M (sys L) Z :=
  if negb (Z.land omode O_CREATE =? 0) then
    let! o := open_create cur path in
    match o with
    | None => ret (-1)
    | Some ip => open_fd cur ip omode (-1)
    end
  else
    let! o := as_proc cur (namei_trans devsw_read devsw_write path) in
    match o with
    | None => ret (-1)
    | Some ip =>
        let! r := in_sys (if verify then ilock_trans devsw_read devsw_write ip
                          else ilock_ext devsw_read ip 0) in
        if verify && (r =? E_CORRUPTED) then ret E_CORRUPTED else
        let! i := in_sys (get_inode ip) in
        if (i_type i =? T_DIR) && negb (omode =? O_RDONLY) then
          in_sys (iunlockput devsw_read ip) ;;;
          ret (-1)
        else open_fd cur ip omode (-1)
    end.

Definition sys_open cur : M (sys L) (option Z) :=
  let! p := argstr cur 0 in
  let! o := (match p with None => ret None | Some _ => argint cur 1 end) in
  match p, o with
  | Some path, Some omode => let! r := open cur path omode true in ret_Z r
  | _, _ => ret_Z (-1)
  end.

Definition sys_forceopen cur : M (sys L) (option Z) :=
  let! p := argstr cur 0 in
  let! o := (match p with None => ret None | Some _ => argint cur 1 end) in
  match p, o with
  | Some path, Some omode => let! r := open cur path omode false in ret_Z r
  | _, _ => ret_Z (-1)
  end.

(** [iget] and [ilock_trans] of [sys_iopen] and [sys_ichecksum]: the locked inode
    or the result. *)
Definition iopen_lock cur : M (sys L) (Z + nat) :=
  let! dev := argint cur 0 in
  let! inum := (match dev with None => ret None | Some _ => argint cur 1 end) in
  match dev, inum with
  | Some dev, Some inum =>
      let! ip := in_sys (iget (u32 dev) (u32 inum)) in
      let! r := in_sys (ilock_trans devsw_read devsw_write ip) in
      if r =? E_CORRUPTED then ret (inl E_CORRUPTED) else
      if negb (r =? 0) then ret (inl (-4)) else ret (inr ip)
  | _, _ => ret (inl (-1))
  end.

Definition sys_iopen cur : M (sys L) (option Z) :=
  let! r := iopen_lock cur in
  match r with
  | inl e => ret_Z e
  | inr ip => let! fd := open_fd cur ip 0 (-3) in ret_Z fd
  end.

Definition sys_ichecksum cur : M (sys L) (option Z) :=
  let! r := iopen_lock cur in
  match r with
  | inl e => ret_Z e
  | inr ip =>
      let! o := in_kern filealloc in
      match o with
      | None => in_sys (iunlockput devsw_read ip) ;;; ret_Z (-3)
      | Some f =>
          let! fd := fdalloc cur f in
          if fd <? 0 then
            in_kern (fileclose devsw_read end_ f) ;;;
            in_sys (iunlockput devsw_read ip) ;;;
            ret_Z (-3)
          else
          let! c := in_sys (ichecksum devsw_read ip) in
          in_sys (iunlock ip) ;;;
          in_kern (upd_file f (fun ff => File FD_INODE (f_ref ff) true false (f_pipe ff) ip 0)) ;;;
          set_fd cur fd None ;;;
          in_kern (fileclose devsw_read end_ f) ;;;
          ret_Z c
      end
  end.

Definition sys_duplicate cur : M (sys L) (option Z) :=
  let! p := argstr cur 0 in
  let! o := (match p with None => ret None | Some _ => argint cur 1 end) in
  match p, o with
  | Some path, Some nditto =>
      let! ok := as_proc cur (duplicate devsw_read devsw_write path nditto) in
      ret_Z (if ok : bool then 0 else -1)
  | _, _ => ret_Z (-1)
  end.

(** The end of [sys_mkdir] and [sys_mknod]: [create] in the transaction begun
    before the arguments were fetched. *)
Definition make cur path (type major minor : Z) : M (sys L) (option Z) :=
  let! o := as_proc cur (create devsw_read devsw_write count0 depth path type major minor) in
  match o with
  | None => in_sys (in_low end_op) ;;; ret_Z (-1)
  | Some ip => in_sys (iunlockput devsw_read ip) ;;; in_sys (in_low end_op) ;;; ret_Z 0
  end.

Definition sys_mkdir cur : M (sys L) (option Z) :=
  in_sys (in_low begin_op) ;;;
  let! p := argstr cur 0 in
  match p with
  | None => in_sys (in_low end_op) ;;; ret_Z (-1)
  | Some path => make cur path T_DIR 0 0
  end.

Definition sys_mknod cur : M (sys L) (option Z) :=
  in_sys (in_low begin_op) ;;;
  let! p := argstr cur 0 in
  let! ma := (match p with None => ret None | Some _ => argint cur 1 end) in
  let! mi := (match ma with None => ret None | Some _ => argint cur 2 end) in
  match p, ma, mi with
  | Some path, Some major, Some minor => make cur path T_DEV major minor
  | _, _, _ => in_sys (in_low end_op) ;;; ret_Z (-1)
  end.

Definition sys_chdir cur : M (sys L) (option Z) :=
  let! p := argstr cur 0 in
  let! o := (match p with
             | None => ret None
             | Some path => as_proc cur (namei devsw_read devsw_write path)
             end) in
  match o with
  | None => ret_Z (-1)
  | Some ip =>
      let! r := in_sys (ilock devsw_read ip) in
      if r =? E_CORRUPTED then ret_Z E_CORRUPTED else
      let! i := in_sys (get_inode ip) in
      if negb (i_type i =? T_DIR) then in_sys (iunlockput devsw_read ip) ;;; ret_Z (-1) else
      in_sys (iunlock ip) ;;;
      let! me := get_proc cur in
      let! c := of_option (Undefined "no current directory") (p_cwd me) in
      in_sys (iput devsw_read c) ;;;
      upd_proc cur (p_set_cwd (Some ip)) ;;;
      ret_Z 0
  end.

Definition sys_pipe cur : M (sys L) (option Z) :=
  let! p := argptr cur 0 8 in
  match p with
  | None => ret_Z (-1)
  | Some p =>
      let! o := in_kern (pipealloc devsw_read end_) in
      match o with
      | None => ret_Z (-1)
      | Some (rf, wf) =>
          let! fd0 := fdalloc cur rf in
          let! fd1 := (if fd0 <? 0 then ret (-1) else fdalloc cur wf) in
          if fd1 <? 0 then
            (if 0 <=? fd0 then set_fd cur fd0 None else ret tt) ;;;
            in_kern (fileclose devsw_read end_ rf) ;;;
            in_kern (fileclose devsw_read end_ wf) ;;;
            ret_Z (-1)
          else
          copy_to_user cur p (le_bytes 4 fd0) ;;;
          copy_to_user cur (p + 4) (le_bytes 4 fd1) ;;;
          ret_Z 0
      end
  end.

(** ** exec *)

(** The loop of [loaduvm] at offset [i] of the segment. *)
Fixpoint loaduvm_loop (fuel : nat) (pgdir addr : Z) ip (offset i sz : Z) : M (sys L) Z :=
  if sz <=? i then ret 0 else
  match fuel with
  | O => halt OutOfFuel
  | S fuel =>
      let! pte := in_vm (walkpgdir pgdir (u32 (addr + i)) false) in
      if pte =? 0 then panic "loaduvm: address should exist" else
      let! e := in_vm (rd pte) in
      let n := if sz - i <? PGSIZE then sz - i else PGSIZE in
      let! rb := in_sys (readi devsw_read ip (u32 (offset + i)) n) in
      in_vm (modify (fun s => set_kmem (store_bytes (kmem s) (p2v (PTE_ADDR e)) (snd rb)) s)) ;;;
      if negb (u32 (fst rb) =? n) then ret (-1) else
      loaduvm_loop fuel pgdir addr ip offset (u32 (i + PGSIZE)) sz
  end.

Definition loaduvm (pgdir addr : Z) ip (offset sz : Z) : M (sys L) Z :=
  if negb (addr mod PGSIZE =? 0) then panic "loaduvm: addr must be page aligned" else
  loaduvm_loop MAPFUEL pgdir addr ip offset 0 sz.

(** The loop over the program headers: the size, or nothing for [goto bad]. *)
Fixpoint exec_load (k : nat) ip (pgdir off sz : Z) : M (sys L) (option Z) :=
  match k with
  | O => ret (Some sz)
  | S k =>
      let! rb := in_sys (readi devsw_read ip (u32 off) proghdr_size) in
      if negb (fst rb =? proghdr_size) then ret None else
      let ph := snd rb in
      if negb (ph_field "type" ph =? ELF_PROG_LOAD) then exec_load k ip pgdir (i32 (off + proghdr_size)) sz else
      if ph_field "memsz" ph <? ph_field "filesz" ph then ret None else
      let! sz := in_vm (allocuvm end_ pgdir sz (u32 (ph_field "vaddr" ph + ph_field "memsz" ph))) in
      if sz =? 0 then ret None else
      let! r := loaduvm pgdir (ph_field "vaddr" ph) ip (ph_field "off" ph) (ph_field "filesz" ph) in
      if r <? 0 then ret None else
      exec_load k ip pgdir (i32 (off + proghdr_size)) sz
  end.

(** Copying out the argument strings: the stack pointer and the addresses of the
    strings, or nothing for [goto bad]. *)
Fixpoint exec_args (argc : Z) (pgdir sp : Z) (argv : list (list Z)) : M (sys L) (option (Z * list Z)) :=
  match argv with
  | [] => ret (Some (sp, []))
  | a :: argv =>
      if MAXARG <=? argc then ret None else
      let! n := of_option (Undefined "strlen") (strlen a) in
      let sp := Z.land (u32 (sp - (n + 1))) (u32 (Z.lnot 3)) in
      let! r := in_vm (copyout pgdir sp a (n + 1)) in
      if r <? 0 then ret None else
      let! o := exec_args (argc + 1) pgdir sp argv in
      match o with
      | None => ret None
      | Some (sp', ps) => ret (Some (sp', sp :: ps))
      end
  end.

(** The stack of the new image: the pointer to it and its top, or nothing. *)
Definition exec_stack (pgdir sz : Z) (argv : list (list Z)) : M (sys L) (option (Z * Z)) :=
  let! sz := in_vm (allocuvm end_ pgdir (PGROUNDUP sz) (u32 (PGROUNDUP sz + 2 * PGSIZE))) in
  if sz =? 0 then ret None else
  in_vm (clearpteu pgdir (u32 (sz - 2 * PGSIZE))) ;;;
  let! o := exec_args 0 pgdir sz argv in
  match o with
  | None => ret None
  | Some (sp, ps) =>
      let argc := Z.of_nat (length ps) in
      let ustack := [4294967295; argc; u32 (sp - (argc + 1) * 4)] ++ ps ++ [0] in
      let sp := u32 (sp - (3 + argc + 1) * 4) in
      let! r := in_vm (copyout pgdir sp (concat (le_bytes 4 <$> ustack)) ((3 + argc + 1) * 4)) in
      if r <? 0 then ret None else ret (Some (sz, sp))
  end.

(** [last]: the path after its last slash. *)
Fixpoint last_elem (last s : list Z) : list Z :=
  match s with
  | [] => last
  | c :: s => if c =? 0 then last else if c =? SLASH then last_elem s s else last_elem last s
  end.

(** The new image takes the place of the old one. *)
Definition exec_commit cur path (pgdir sz sp entry : Z) : M (sys L) Z :=
  let! me := get_proc cur in
  let! name := of_option (Undefined "safestrcpy") (safestrcpy (p_name me) (last_elem path path) 16) in
  upd_proc cur (p_set_name name) ;;;
  upd_proc cur (p_set_pgdir pgdir) ;;;
  upd_proc cur (p_set_sz sz) ;;;
  in_vm (wrt (p_tf me + tf_eip) entry) ;;;
  in_vm (wrt (p_tf me + tf_esp) sp) ;;;
  in_vm (freevm end_ (p_pgdir me)) ;;;
  ret 0.

(** [bad:] with the inode still locked, and with it released. *)
Definition exec_bad (pgdir : Z) (o : option nat) : M (sys L) Z :=
  (if pgdir =? 0 then ret tt else in_vm (freevm end_ pgdir)) ;;;
  (match o with
   | None => ret tt
   | Some ip => in_sys (iunlockput devsw_read ip) ;;; in_sys (in_low end_op)
   end) ;;;
  ret (-1).

(** [exec].  [readi] returning -1 passes the comparison with the unsigned size, and
    the header is then what the stack holds. *)
Definition exec cur path (argv : list (list Z)) : M (sys L) Z :=
  in_sys (in_low begin_op) ;;;
  let! o := as_proc cur (namei devsw_read devsw_write path) in
  match o with
  | None => in_sys (in_low end_op) ;;; ret (-1)
  | Some ip =>
      in_sys (ilock devsw_read ip) ;;;
      let! rb := in_sys (readi devsw_read ip 0 elfhdr_size) in
      if u32 (fst rb) <? elfhdr_size then exec_bad 0 (Some ip) else
      if negb (Z.of_nat (length (snd rb)) =? elfhdr_size) then halt (Undefined "uninitialised header") else
      let elf := snd rb in
      if negb (elf_field "magic" 4 elf =? ELF_MAGIC) then exec_bad 0 (Some ip) else
      let! pgdir := in_vm (setupkvm data_) in
      if pgdir =? 0 then exec_bad 0 (Some ip) else
      let! o := exec_load (Z.to_nat (elf_field "phnum" 2 elf)) ip pgdir (i32 (elf_field "phoff" 4 elf)) 0 in
      match o with
      | None => exec_bad pgdir (Some ip)
      | Some sz =>
          in_sys (iunlockput devsw_read ip) ;;;
          in_sys (in_low end_op) ;;;
          let! o := exec_stack pgdir sz argv in
          match o with
          | None => exec_bad pgdir None
          | Some (sz, sp) => exec_commit cur path pgdir sz sp (elf_field "entry" 4 elf)
          end
      end
  end.

(** The loop of [sys_exec] over the argument pointers. *)
Fixpoint fetch_argv cur (k : nat) (i uargv : Z) : M (sys L) (option (list (list Z))) :=
  match k with
  | O => ret None
  | S k =>
      let! o := fetchint cur (u32 (uargv + 4 * i)) in
      match o with
      | None => ret None
      | Some uarg =>
          if uarg =? 0 then ret (Some []) else
          let! a := fetchstr cur (u32 uarg) in
          match a with
          | None => ret None
          | Some a =>
              let! rest := fetch_argv cur k (i + 1) uargv in
              ret (cons a <$> rest)
          end
      end
  end.

Definition sys_exec cur : M (sys L) (option Z) :=
  let! p := argstr cur 0 in
  let! u := (match p with None => ret None | Some _ => argint cur 1 end) in
  match p, u with
  | Some path, Some uargv =>
      let! argv := fetch_argv cur (Z.to_nat MAXARG) 0 (u32 uargv) in
      match argv with
      | None => ret_Z (-1)
      | Some argv => let! r := exec cur path argv in ret_Z r
      end
  | _, _ => ret_Z (-1)
  end.

(** ** Processes *)

Definition sys_fork cur : M (sys L) (option Z) :=
  let! r := fork end_ data_ trapret_ forkret_ cur in ret_Z r.

Definition sys_exit cur : M (sys L) (option Z) := exit devsw_read end_ cur ;;; ret None.

Definition sys_wait cur : M (sys L) (option Z) := wait end_ cur.

Definition sys_kill cur : M (sys L) (option Z) :=
  let! o := argint cur 0 in
  match o with
  | None => ret_Z (-1)
  | Some pid =>
      let! t := gets ptable in
      let (ok, t) := kill pid t in
      modify (set_ptable t) ;;;
      ret_Z (if ok : bool then 0 else -1)
  end.

Definition sys_getpid cur : M (sys L) (option Z) := let! me := get_proc cur in ret_Z (p_pid me).

Definition sys_sbrk cur : M (sys L) (option Z) :=
  let! o := argint cur 0 in
  match o with
  | None => ret_Z (-1)
  | Some n =>
      let! me := get_proc cur in
      let! r := growproc end_ cur n in
      ret_Z (if r <? 0 then -1 else i32 (p_sz me))
  end.

(** A turn of the loop of [sys_sleep], [elapsed] ticks after it began: the result,
    or a sleep.  The comparison is unsigned. *)
Definition sleep_turn (elapsed n : Z) (killed : bool) : option Z :=
  if u32 elapsed <? u32 n then if killed then Some (-1) else None else Some 0.

Definition sys_sleep cur : M (sys L) (option Z) :=
  let! o := argint cur 0 in
  match o with
  | None => ret_Z (-1)
  | Some n =>
      let! me := get_proc cur in
      match sleep_turn 0 n (p_killed me) with
      | Some r => ret_Z r
      | None => halt (Sleep ChTicks)
      end
  end.

Definition sys_uptime : M (sys L) (option Z) := ret_Z (i32 ticks).

(** ** Dispatch *)

Definition syscalls cur : list (M (sys L) (option Z)) :=
  [ sys_fork cur; sys_exit cur; sys_wait cur; sys_pipe cur; sys_read cur; sys_kill cur; sys_exec cur;
    sys_fstat cur; sys_chdir cur; sys_dup cur; sys_getpid cur; sys_sbrk cur; sys_sleep cur; sys_uptime;
    sys_open cur; sys_write cur; sys_mknod cur; sys_unlink cur; sys_link cur; sys_mkdir cur; sys_close cur;
    sys_iopen cur; sys_ichecksum cur; sys_duplicate cur; sys_forceopen cur ].

(** Storing the result of a call in the trap frame; whether the call returns. *)
Definition set_result cur (r : option Z) : M (sys L) bool :=
  match r with
  | None => ret false
  | Some r => let! me := get_proc cur in in_vm (wrt (p_tf me + tf_eax) (u32 r)) ;;; ret true
  end.

Definition syscall cur : M (sys L) bool :=
  let! me := get_proc cur in
  let! m := get_mem in
  let num := i32 (read32 m (p_tf me + tf_eax)) in
  match (if 0 <? num then syscalls cur !! Z.to_nat (num - 1) else None) with
  | Some c => let! r := c in set_result cur r
  | None => set_result cur (Some (-1))
  end.

(** [trap] of a system call, with the trap frame at [tf]. *)
Definition trap_syscall cur (tf : Z) : M (sys L) unit :=
  let! me := get_proc cur in
  if p_killed me then exit devsw_read end_ cur else
  upd_proc cur (fun q => p_set_frames tf (p_context q) q) ;;;
  let! returned := syscall cur in
  if negb returned then ret tt else
  let! me := get_proc cur in
  if p_killed me then exit devsw_read end_ cur else ret tt.
End Syscall.
