(* ===== verification/Descriptors.v ===== *)
(** * Descriptors: system calls and open files

    The descriptors of all processes are the handles on the table of open files,
    whatever system calls run: the counts of proc.c, file.c and sysfile.c
    together. *)

From S2P Require Import Prelude Layout Log Block FsBlock FsInode FsDir FsDemo Kalloc Vm Pipe File FileIo Proc CString SysFile Syscall.
Open Scope Z_scope.
Open Scope xv6_scope.

(** The open files of a process, and of all of them. *)
Definition fds_of (p : proc) : list nat := omap id (p_ofile p).
Definition fds (t : list proc) : list nat := t ≫= fds_of.

(** A slot that no process uses. *)
Definition idle (p : proc) : Prop := p_state p = UNUSED \/ p_state p = ZOMBIE.
Definition no_fds (p : proc) : Prop := Forall (fun o => o = None) (p_ofile p).

Record table_fds (t : list proc) : Prop := {
  tf_none : forall k p, t !! k = Some p -> idle p -> no_fds p;
  tf_len : forall k p, t !! k = Some p -> length (p_ofile p) = Z.to_nat NOFILE
}.

Lemma no_fds_nil p : no_fds p -> fds_of p = [].
Proof. unfold no_fds, fds_of. induction 1 as [|o l -> _ IH]; [done|]. exact IH. Qed.

Lemma fds_insert t k p p' : t !! k = Some p ->
  exists rest, fds t ≡ₚ fds_of p ++ rest /\ fds (<[k := p']> t) ≡ₚ fds_of p' ++ rest.
Proof.
  intros Hk. apply list_elem_of_split_length in Hk as (l1 & l2 & -> & ->). exists (fds l1 ++ fds l2).
  rewrite insert_app_r_alt, Nat.sub_diag by lia. unfold fds. cbn. rewrite !bind_app, !bind_cons.
  split; apply Permutation_app_swap_app.
Qed.

Lemma omap_insert (l : list (option nat)) fd o o' : l !! fd = Some o ->
  exists rest, omap id l ≡ₚ option_list o ++ rest /\ omap id (<[fd := o']> l) ≡ₚ option_list o' ++ rest.
Proof.
  revert fd. induction l as [|x l IH]; intros [|fd] Hf; try done; cbn in Hf.
  - injection Hf as ->. exists (omap id l). destruct o, o'; done.
  - destruct (IH fd Hf) as (rest & E1 & E2). exists (option_list x ++ rest).
    assert (Hc : forall l', omap id (x :: l') = option_list x ++ omap id l') by (by destruct x). cbn [insert list_insert].
    rewrite !Hc, E1, E2. split; apply Permutation_app_swap_app.
Qed.

(** Same descriptors, no slot given up. *)
Definition keeps (p p' : proc) : Prop := p_ofile p' = p_ofile p /\ (idle p' -> idle p).
Definition same_fds (t t' : list proc) : Prop := Forall2 keeps t t'.

Lemma same_fds_refl t : same_fds t t.
Proof. apply Forall_Forall2_diag, Forall_true. by split. Qed.

Lemma same_fds_trans t1 t2 t3 : same_fds t1 t2 -> same_fds t2 t3 -> same_fds t1 t3.
Proof.
  intros H. revert t3. induction H as [|p p' t1 t2 [E1 E2] _ IH]; intros t3 H3; inversion H3 as [|? q ? t3' [F1 F2] Ht]; subst; constructor.
  - split; [congruence|tauto].
  - by apply IH.
Qed.

Lemma same_fds_eq t t' : same_fds t t' -> fds t' = fds t.
Proof. induction 1 as [|p p' t t' [E _] _ IH]; [done|]. unfold fds in *. cbn. rewrite IH. unfold fds_of. by rewrite E. Qed.

Lemma same_fds_table t t' : same_fds t t' -> table_fds t -> table_fds t'.
Proof.
  intros H [N Ln]. constructor; intros k p' Hk;
    destruct (Forall2_lookup_r _ _ _ _ _ H Hk) as (p & Hp & [E Hi]); unfold no_fds; rewrite E.
  - intros Hid. by eapply N, Hi.
  - by eapply Ln.
Qed.

Lemma alter_keeps f k t : (forall p, keeps p (f p)) -> same_fds t (alter f k t).
Proof. intros Hf. apply Forall2_alter_self; [|done]. intros p. by split. Qed.

Lemma keeps_refl p : keeps p p.
Proof. by split. Qed.

Section Descriptors.
Context {L : Type} `{BlockOps L}.
Context (devsw_read : Z -> option (nat -> Z -> M (fsst L) (Z * list Z))).
Context (devsw_write : Z -> option (nat -> list Z -> Z -> M (fsst L) Z)).
Context (end_ data_ trapret_ forkret_ : Z).
Context (count0 : Z) (depth : nat) (ticks : Z).
Implicit Types (s : sys L) (hs : list nat) (cur f : nat).

(** The descriptors, and the files in [hs] the kernel holds itself, are the
    handles on the file table. *)
Record fd_ok hs s : Prop := {
  fk_refs : refs_ok (ftable (s_kern s)) (hs ++ fds (ptable s));
  fk_table : table_fds (ptable s)
}.

(** [cur] is not in an unused slot. *)
Definition live cur s : Prop := exists me, ptable s !! cur = Some me /\ ~ idle me.

(** ** Computations that leave descriptors alone *)

Record still_rel s s' : Prop := {
  sl_files : f_set_off 0 <$> ftable (s_kern s') = f_set_off 0 <$> ftable (s_kern s);
  sl_procs : same_fds (ptable s) (ptable s')
}.
Definition still {A} (c : M (sys L) A) : Prop := forall s a s', c s = Ok a s' -> still_rel s s'.

Lemma still_rel_refl s : still_rel s s.
Proof. constructor; [done|apply same_fds_refl]. Qed.

Lemma still_rel_trans s1 s2 s3 : still_rel s1 s2 -> still_rel s2 s3 -> still_rel s1 s3.
Proof. intros [? ?] [? ?]. constructor; [congruence|by eapply same_fds_trans]. Qed.

Lemma still_fd_ok hs s s' : still_rel s s' -> fd_ok hs s -> fd_ok hs s'.
Proof.
  intros [E1 E2] [R T]. constructor; [|by eapply same_fds_table].
  rewrite (same_fds_eq _ _ E2). by eapply refs_ext.
Qed.

Lemma still_live cur s s' : still_rel s s' -> live cur s -> live cur s'.
Proof.
  intros [_ E] (me & Hm & Hi). destruct (Forall2_lookup_l _ _ _ _ _ E Hm) as (me' & Hm' & [_ Hk]).
  exists me'. split; [done|]. tauto.
Qed.

Lemma still_bind {A B} (c : M (sys L) A) (k : A -> M (sys L) B) : still c -> (forall a, still (k a)) -> still (bind c k).
Proof. intros Hc Hk s b s' (a & s1 & H1 & H2)%bind_inv. eapply still_rel_trans; [by eapply Hc|by eapply Hk]. Qed.

Lemma still_ret {A} (a : A) : still (ret a).
Proof. intros s b s' [= <- <-]. apply still_rel_refl. Qed.

Lemma still_halt {A} r : still (halt (A:=A) r).
Proof. intros s b s' Hs. discriminate Hs. Qed.

Lemma still_gets {A} (g : sys L -> A) : still (gets g).
Proof. intros s b s' [= <- <-]. apply still_rel_refl. Qed.

Lemma still_of_option {A} r (o : option A) : still (of_option r o).
Proof. destruct o; [apply still_ret|apply still_halt]. Qed.

Lemma still_in_kern {A} (c : M (kern L) A) : harmless c -> still (in_kern c).
Proof.
  intros Hc s a s'. unfold in_kern. destruct (c (s_kern s)) as [b k|] eqn:E; intros [= <- <-].
  constructor; [apply (Hc _ _ _ E)|apply same_fds_refl].
Qed.

Lemma still_in_fs {A} (c : M (fsst L) A) : still (in_sys c).
Proof. apply still_in_kern, harmless_in_fs. Qed.

Lemma still_in_vm {A} (c : M kst A) : still (in_vm c).
Proof.
  intros s a s'. unfold in_vm, in_kern, in_mem. destruct (c (k_mem (s_kern s))); intros [= <- <-].
  constructor; [done|apply same_fds_refl].
Qed.

Lemma still_get_proc k : still (get_proc k).
Proof. apply still_bind; [apply still_gets|intros; apply still_of_option]. Qed.

Lemma still_upd_proc k g : (forall p, keeps p (g p)) -> still (upd_proc k g).
Proof. intros Hg s b s' [= <- <-]. constructor; [done|by apply alter_keeps]. Qed.

Lemma still_set_ptable (g : list proc -> list proc) : (forall t, same_fds t (g t)) ->
  still (modify (fun s => set_ptable (g (ptable s)) s)).
Proof. intros Hg s b s' [= <- <-]. constructor; [done|apply Hg]. Qed.

Lemma still_for_each {I} (l : list I) (body : I -> M (sys L) unit) : (forall i, still (body i)) -> still (for_each l body).
Proof. intros Hb. induction l; [apply still_ret|]. apply still_bind; [apply Hb|by intros _]. Qed.

(** ** System calls that leave descriptors alone *)

Create HintDb still.
Hint Resolve still_ret still_halt still_gets still_of_option still_in_fs still_in_vm still_get_proc : still.

Ltac still_step :=
  match goal with
  | |- still (bind _ _) => apply still_bind; [|intros ?]
  | |- still (match ?x with _ => _ end) => destruct x
  | |- still (in_kern (in_fs _)) => apply still_in_fs
  | |- still (for_each _ _) => apply still_for_each; intros ?
  | |- still (ret_Z _) => apply still_ret
  | |- still (panic _) => apply still_halt
  | |- still (upd_proc _ _) => apply still_upd_proc; intros ?; split; [done|by intros []; [left|right]]
  | |- still _ => solve [auto with still nocore]
  end.
Ltac still_all := repeat still_step.

Lemma still_fetchint cur a : still (fetchint cur a).
Proof. unfold fetchint, get_mem. still_all. Qed.
Hint Resolve still_fetchint : still.

Lemma still_fetchstr cur a : still (fetchstr cur a).
Proof. unfold fetchstr, get_mem. still_all. Qed.
Hint Resolve still_fetchstr : still.

Lemma still_argint cur n : still (argint cur n).
Proof. unfold argint, get_mem. still_all. Qed.
Hint Resolve still_argint : still.

Lemma still_argptr cur n size : still (argptr cur n size).
Proof. unfold argptr. still_all. Qed.

Lemma still_argstr cur n : still (argstr cur n).
Proof. unfold argstr. still_all. Qed.

Lemma still_argfd cur n : still (argfd cur n).
Proof. unfold argfd. still_all. Qed.

Lemma still_as_proc cur {A} (c : M (fsst L) A) : still (as_proc cur c).
Proof. unfold as_proc. still_all. Qed.

Lemma still_copy_to_user cur va bs : still (copy_to_user cur va bs).
Proof. unfold copy_to_user. still_all. Qed.
Hint Resolve still_argptr still_argstr still_argfd still_as_proc still_copy_to_user : still.

Lemma still_fileread killed f n : still (in_kern (fileread devsw_read devsw_write killed f n)).
Proof. apply still_in_kern, fileread_harmless. Qed.

Lemma still_filewrite killed f addr n : still (in_kern (filewrite devsw_read devsw_write killed f addr n)).
Proof. apply still_in_kern, filewrite_harmless. Qed.

Lemma still_filestat f : still (in_kern (filestat devsw_read devsw_write f)).
Proof.
  apply still_in_kern. unfold filestat. apply harmless_bind; [apply harmless_get_file|]. intros ff.
  destruct (f_type ff); try apply harmless_ret. apply harmless_bind; [apply harmless_in_fs|]. intros r.
  destruct (r =? E_CORRUPTED); [apply harmless_ret|].
  apply harmless_bind; [apply harmless_in_fs|]. intros st. apply harmless_bind; [apply harmless_in_fs|]. intros _. apply harmless_ret.
Qed.
Hint Resolve still_fileread still_filewrite still_filestat : still.

Lemma still_loaduvm pgdir addr ip offset sz : still (loaduvm devsw_read pgdir addr ip offset sz).
Proof.
  unfold loaduvm. still_step; [apply still_halt|]. generalize 0 at 1. induction MAPFUEL as [|k IH]; intros i; cbn [loaduvm_loop]; still_all.
Qed.
Hint Resolve still_loaduvm : still.

Lemma still_exec_load ip pgdir k : forall off sz, still (exec_load devsw_read end_ k ip pgdir off sz).
Proof. induction k as [|k IH]; intros off sz; cbn [exec_load]; still_all. Qed.

Lemma still_exec_args pgdir argv : forall argc sp, still (exec_args argc pgdir sp argv).
Proof. induction argv as [|a argv IH]; intros argc sp; cbn [exec_args]; still_all. Qed.
Hint Resolve still_exec_load still_exec_args : still.

Lemma still_fetch_argv cur k : forall i u, still (fetch_argv cur k i u).
Proof. induction k as [|k IH]; intros i u; cbn [fetch_argv]; still_all. Qed.
Hint Resolve still_fetch_argv : still.

Lemma still_exec cur path argv : still (exec devsw_read devsw_write end_ data_ cur path argv).
Proof. unfold exec, exec_stack, exec_commit, exec_bad. still_all. Qed.
Hint Resolve still_exec : still.

Lemma still_growproc cur n : still (growproc end_ cur n).
Proof. unfold growproc. still_all. Qed.
Hint Resolve still_growproc : still.

(** ** Handles on open files *)

Lemma in_kern_inv {A} (c : M (kern L) A) s a s' : in_kern c s = Ok a s' ->
  exists k, c (s_kern s) = Ok a k /\ s' = Sys k (ptable s) (nextpid s) (initproc s).
Proof. unfold in_kern. destruct (c (s_kern s)) as [b k|] eqn:E; intros [= <- <-]. by exists k. Qed.

Lemma filealloc_refs (k k' : kern L) hs o : refs_ok (ftable k) hs -> filealloc k = Ok o k' ->
  match o with
  | Some f => refs_ok (ftable k') (f :: hs)
  | None => k' = k
  end.
Proof.
  intros R. unfold filealloc, bind at 1, gets. pose proof (filealloc_scan_spec (ftable k) 0) as Hs.
  destruct (filealloc_scan 0 (ftable k)) as [f|]; [|by intros [= <- <-]]. destruct Hs as (ff & _ & Hf & Hr).
  rewrite Nat.sub_0_r in Hf. erewrite bind_Ok by (by apply upd_file_Ok). intros [= <- <-]. cbn.
  pose proof (ro_ref _ _ R f ff Hf) as Hh.
  apply (refs_insert _ hs _ _ ff); [done|done|cbn; rewrite handles_same; lia| |done]. intros g Hg. by apply handles_other.
Qed.

Lemma filedup_refs (k k' : kern L) hs f g : refs_ok (ftable k) hs -> f ∈ hs -> filedup f k = Ok g k' ->
  g = f /\ refs_ok (ftable k') (f :: hs).
Proof.
  intros R Hf. destruct (ro_range _ _ R f Hf) as [ff Hff]. pose proof (ro_ref _ _ R f ff Hff) as Hh.
  pose proof (proj1 (proj2 (handles_pos f hs)) Hf) as Hp. unfold filedup.
  erewrite bind_Ok by (by apply get_file_Ok). rewrite (proj2 (Z.ltb_ge _ _)) by lia.
  erewrite bind_Ok by (by apply upd_file_Ok). intros [= <- <-]. split; [done|]. cbn.
  apply (refs_insert _ hs _ _ ff); [done|done|cbn; rewrite handles_same; lia| |cbn; lia]. intros g Hg. by apply handles_other.
Qed.

Lemma filerelease_table ff (k k' : kern L) : filerelease devsw_read end_ ff k = Ok tt k' -> ftable k' = ftable k.
Proof.
  unfold filerelease. destruct (f_type ff); [by intros [= <-]|..].
  - unfold pipeclose_at. intros (q & k1 & R1 & R2)%bind_inv. unfold get_pipe, bind, gets in R1.
    destruct (k_pipes k !! f_pipe ff); [|done]. injection R1 as <- <-.
    destruct (pipeclose _ _); [by inversion R2|]. unfold bind, modify, in_mem in R2. cbn in R2.
    destruct (kfree _ _ _); [by inversion R2|done].
  - intros ([] & k1 & R1 & R2)%bind_inv. apply bind_inv in R2 as ([] & k2 & R2 & R3).
    assert (Hfs : forall A (c : M (fsst L) A) x y a, in_fs c x = Ok a y -> ftable y = ftable x).
    { intros A c x y a. unfold in_fs. destruct (c (k_fs x)); [|done]. by intros [= _ <-]. }
    rewrite (Hfs _ _ _ _ _ R3), (Hfs _ _ _ _ _ R2), (Hfs _ _ _ _ _ R1). done.
Qed.

Lemma fileclose_refs (k k' : kern L) hs f : refs_ok (ftable k) (f :: hs) -> fileclose devsw_read end_ f k = Ok tt k' ->
  refs_ok (ftable k') hs.
Proof.
  intros R. destruct (ro_range _ _ R f) as [ff Hff]; [by left|]. pose proof (ro_ref _ _ R f ff Hff) as Hh.
  rewrite handles_same in Hh. pose proof (proj1 (handles_pos f hs)) as Hp. unfold fileclose.
  assert (Hl : (f < length (ftable k))%nat) by (by eapply lookup_lt_Some).
  assert (Ho : forall g, g <> f -> handles g hs = handles g (f :: hs)) by (intros g Hg; by rewrite handles_other).
  erewrite bind_Ok by (by apply get_file_Ok). rewrite (proj2 (Z.ltb_ge _ _)) by lia.
  erewrite bind_Ok by (by apply upd_file_Ok). destruct (Z.ltb_spec 0 (f_ref ff - 1)) as [Hm|Hm].
  - intros [= <-]. cbn. apply (refs_insert _ (f :: hs) _ _ ff); [done|done|cbn; lia|done|cbn; lia].
  - erewrite bind_Ok by (apply upd_file_Ok; cbn; by rewrite list_lookup_insert_eq).
    erewrite bind_Ok by (apply upd_file_Ok; cbn; rewrite list_lookup_insert_eq; [done|by rewrite length_insert]).
    intros R3%filerelease_table. rewrite R3. cbn. rewrite !list_insert_insert_eq.
    apply (refs_insert _ (f :: hs) _ _ ff); [done|done|cbn; lia|done|done].
Qed.

(** Giving a file a type, for as long as it has handles. *)
Lemma upd_file_refs (k k' : kern L) hs f g : refs_ok (ftable k) hs -> f ∈ hs -> (forall ff, f_ref (g ff) = f_ref ff) ->
  upd_file f g k = Ok tt k' -> refs_ok (ftable k') hs.
Proof.
  intros R Hf Hg. destruct (ro_range _ _ R f Hf) as [ff Hff]. rewrite (upd_file_Ok _ _ _ _ Hff). intros [= <-]. cbn.
  pose proof (ro_ref _ _ R f ff Hff) as Hh. pose proof (proj1 (proj2 (handles_pos f hs)) Hf) as Hp.
  apply (refs_insert _ hs _ _ ff); [done|done|by rewrite Hg|done|]. rewrite Hg. lia.
Qed.

Lemma pipealloc_bad_refs (k k' : kern L) hs a b o : refs_ok (ftable k) (option_list a ++ option_list b ++ hs) ->
  pipealloc_bad devsw_read end_ a b k = Ok o k' -> o = None /\ refs_ok (ftable k') hs.
Proof.
  intros R. unfold pipealloc_bad. intros ([] & k1 & R1 & R2)%bind_inv. apply bind_inv in R2 as ([] & k2 & R2 & [= <- <-]).
  split; [done|]. assert (Ra : refs_ok (ftable k1) (option_list b ++ hs)).
  { destruct a; [eapply fileclose_refs; [exact R|exact R1]|by inversion R1; subst]. }
  destruct b; [eapply fileclose_refs; [exact Ra|exact R2]|by inversion R2; subst].
Qed.

Lemma pipealloc_refs (k k' : kern L) hs o : refs_ok (ftable k) hs -> pipealloc devsw_read end_ k = Ok o k' ->
  match o with
  | Some (a, b) => refs_ok (ftable k') (a :: b :: hs)
  | None => refs_ok (ftable k') hs
  end.
Proof.
  intros R. unfold pipealloc. intros (oa & k1 & R1 & R2)%bind_inv. pose proof (filealloc_refs _ _ _ _ R R1) as Ra.
  destruct oa as [a|]; [|subst k1; apply (pipealloc_bad_refs _ _ hs) in R2 as [-> ?]; done].
  apply bind_inv in R2 as (ob & k2 & R2 & R3). pose proof (filealloc_refs _ _ _ _ Ra R2) as Rb.
  destruct ob as [b|]; [|subst k2; apply (pipealloc_bad_refs _ _ hs) in R3 as [-> ?]; done].
  apply bind_inv in R3 as (p & k3 & R3 & R4).
  assert (E3 : ftable k3 = ftable k2).
  { unfold in_mem in R3. destruct (kalloc _); [by injection R3 as _ <-|done]. }
  assert (Rc : refs_ok (ftable k3) (a :: b :: hs)) by (rewrite E3; eapply refs_perm; [apply Permutation_swap|done]).
  destruct (p =? 0); [apply (pipealloc_bad_refs _ _ hs) in R4 as [-> ?]; done|].
  apply bind_inv in R4 as (m & k4 & [= <- <-] & R4). apply bind_inv in R4 as ([] & k5 & [= <-] & R5).
  apply bind_inv in R5 as ([] & k6 & R6 & R7). apply bind_inv in R7 as ([] & k7 & R7 & [= <- <-]).
  eapply upd_file_refs in R6; [|exact Rc|by left|done]. eapply upd_file_refs in R7; [done|exact R6|by right; left|done].
Qed.

(** ** Descriptors of the current process *)

Definition ok cur hs s : Prop := fd_ok hs s /\ live cur s.

Lemma still_ok {A} (c : M (sys L) A) cur hs s a s' : still c -> ok cur hs s -> c s = Ok a s' -> ok cur hs s'.
Proof. intros Hc [F Lv] R. apply Hc in R. split; [by eapply still_fd_ok|by eapply still_live]. Qed.

Lemma in_kern_ok {A} (c : M (kern L) A) cur hs hs' s a s' :
  ok cur hs s -> in_kern c s = Ok a s' ->
  (forall k, refs_ok (ftable (s_kern s)) (hs ++ fds (ptable s)) -> c (s_kern s) = Ok a k ->
     refs_ok (ftable k) (hs' ++ fds (ptable s))) ->
  ok cur hs' s'.
Proof.
  intros [[R T] Lv] Hc Hr. apply in_kern_inv in Hc as (k & Rk & ->). split; [|done]. constructor; [|done]. by apply Hr.
Qed.

Lemma refs_perm_ok cur hs hs' s : hs ≡ₚ hs' -> ok cur hs s -> ok cur hs' s.
Proof. intros E [[R T] Lv]. split; [|done]. constructor; [|done]. eapply refs_perm; [|exact R]. by rewrite E. Qed.

(** Descriptor [fd] of [cur] is [o]. *)
Definition has_fd cur fd (o : option nat) s : Prop :=
  exists me, ptable s !! cur = Some me /\ p_ofile me !! fd = Some o.

(** Storing to a descriptor: handles move between the table and the kernel. *)
Lemma set_fd_ok cur fd (o o' : option nat) hs hs' s s' :
  ok cur hs s -> has_fd cur (Z.to_nat fd) o s -> set_fd cur fd o' s = Ok tt s' ->
  hs ++ option_list o ≡ₚ hs' ++ option_list o' -> ok cur hs' s' /\ s_kern s' = s_kern s /\ has_fd cur (Z.to_nat fd) o' s'.
Proof.
  intros [[R [T1 T2]] (me & Hme & Hid)] (me' & Hme' & Hfd) [= <-] E. rewrite Hme in Hme'. injection Hme' as <-.
  set (fd' := Z.to_nat fd) in *. set (me' := p_set_ofile (<[fd' := o']> (p_ofile me)) me).
  assert (Et : alter (fun q => p_set_ofile (<[fd' := o']> (p_ofile q)) q) cur (ptable s) = <[cur := me']> (ptable s))
    by (by rewrite (list_alter_lookup _ _ _ me Hme)).
  assert (Hl : (cur < length (ptable s))%nat) by (by eapply lookup_lt_Some).
  assert (Hf : (fd' < length (p_ofile me))%nat) by (by eapply lookup_lt_Some).
  destruct (fds_insert _ _ _ me' Hme) as (rest & P1 & P2). destruct (omap_insert _ _ _ o' Hfd) as (rest' & Q1 & Q2).
  split_and!; [split; [constructor|]|done|]; cbn; rewrite Et.
  - eapply refs_perm; [|exact R]. rewrite P1, P2. unfold fds_of at 2. cbn [me' p_ofile p_set_ofile]. unfold fds_of.
    rewrite Q1, Q2, <- !app_assoc, !(app_assoc hs), !(app_assoc hs'), E. done.
  - constructor; intros k p; (destruct (decide (k = cur)) as [->|Hne];
      [rewrite list_lookup_insert_eq by done; intros [= <-]|rewrite list_lookup_insert_ne by done]).
    + intros Hi. by exfalso.
    + apply T1.
    + cbn. rewrite length_insert. by apply (T2 cur).
    + apply T2.
  - exists me'. cbn. rewrite ?Et, list_lookup_insert_eq by done. done.
  - exists me'. cbn. rewrite ?Et, list_lookup_insert_eq by done. split; [done|]. cbn. by apply list_lookup_insert_eq.
Qed.

Lemma fdalloc_scan_spec l : forall k fd, fdalloc_scan k l = Some fd -> (k <= fd)%nat /\ l !! (fd - k)%nat = Some None.
Proof.
  induction l as [|[f|] l IH]; intros k fd; cbn; [done| |].
  - intros Hs. destruct (IH _ _ Hs) as [Hk Hl]. split; [lia|]. by replace (fd - k)%nat with (S (fd - S k)) by lia.
  - intros [= <-]. by rewrite Nat.sub_diag.
Qed.

Lemma fdalloc_ok cur f hs hs' s fd s' : hs ≡ₚ f :: hs' ->
  ok cur hs s -> fdalloc cur f s = Ok fd s' ->
  fd = -1 /\ s' = s \/ 0 <= fd /\ ok cur hs' s' /\ s_kern s' = s_kern s /\ has_fd cur (Z.to_nat fd) (Some f) s'.
Proof.
  intros E Hok. unfold fdalloc. intros (me & s1 & R1 & R2)%bind_inv. unfold get_proc, bind, gets in R1.
  destruct (ptable s !! cur) as [me'|] eqn:Hme; [|done]. injection R1 as -> ->.
  destruct (fdalloc_scan 0 (p_ofile me)) as [n|] eqn:Hn; [|injection R2 as <- <-; by left].
  apply fdalloc_scan_spec in Hn as [_ Hn]. rewrite Nat.sub_0_r in Hn. right.
  apply bind_inv in R2 as ([] & s2 & R2 & [= <- <-]). split; [lia|].
  eapply (set_fd_ok cur (Z.of_nat n) None (Some f) hs hs'); [done|exists me; by rewrite Nat2Z.id|done|].
  rewrite E. cbn. by rewrite app_nil_r, (Permutation_app_comm hs').
Qed.

Lemma argfd_fd cur n fd f s s' : argfd cur n s = Ok (Some (fd, f)) s' -> has_fd cur (Z.to_nat fd) (Some f) s'.
Proof.
  unfold argfd. intros (o & s1 & R1 & R2)%bind_inv. destruct o as [fd'|]; [|by inversion R2].
  destruct ((fd' <? 0) || (NOFILE <=? fd')); [by inversion R2|]. apply bind_inv in R2 as (me & s2 & R2 & R3).
  unfold get_proc, bind, gets in R2. destruct (ptable s1 !! cur) as [me'|] eqn:Hme; [|done]. injection R2 as -> ->.
  destruct (p_ofile me !! Z.to_nat fd') as [[g|]|] eqn:Hf; try by inversion R3. injection R3 as <- <- <-. by exists me.
Qed.

Lemma has_fd_in cur fd f s : has_fd cur fd (Some f) s -> f ∈ fds (ptable s).
Proof.
  intros (me & Hme & Hfd). unfold fds. apply list_elem_of_bind. exists me. split; [|by eapply list_elem_of_lookup_2].
  unfold fds_of. apply list_elem_of_omap. exists (Some f). split; [by eapply list_elem_of_lookup_2|done].
Qed.

Lemma bind_still {A B} (c : M (sys L) A) (k : A -> M (sys L) B) cur hs s b s' :
  still c -> ok cur hs s -> bind c k s = Ok b s' -> exists a s1, c s = Ok a s1 /\ ok cur hs s1 /\ k a s1 = Ok b s'.
Proof. intros Hc Hok (a & s1 & R1 & R2)%bind_inv. exists a, s1. split_and!; [done|by eapply still_ok|done]. Qed.

(** The next step of a run [R] leaves descriptors alone. *)
Ltac next R Hok a :=
  let s1 := fresh "s" in let R1 := fresh "R" in let Hc := fresh in
  match type of R with bind ?c _ _ = _ =>
    assert (Hc : still c) by still_all;
    apply (bind_still _ _ _ _ _ _ _ Hc Hok) in R; clear Hc Hok; destruct R as (a & s1 & R1 & Hok & R)
  end.

(** A run that leaves descriptors alone to its end. *)
Ltac rest R Hok :=
  match type of R with ?c _ = _ =>
    let Hc := fresh in assert (Hc : still c) by still_all; exact (still_ok _ _ _ _ _ _ Hc Hok R)
  end.

Definition with_kern (k : kern L) s : sys L := Sys k (ptable s) (nextpid s) (initproc s).

Lemma fdalloc_kern cur f s fd s' k : fdalloc cur f s = Ok fd s' ->
  s_kern s' = s_kern s /\ fdalloc cur f (with_kern k s) = Ok fd (with_kern k s').
Proof.
  unfold fdalloc, get_proc, bind, gets. cbn. destruct (ptable s !! cur) as [me|]; [|done]. cbn.
  destruct (fdalloc_scan 0 (p_ofile me)); cbn; by intros [= <- <-].
Qed.

Lemma fdalloc_neg cur f s fd s' : fdalloc cur f s = Ok fd s' -> (fd <? 0) = true -> s' = s.
Proof.
  unfold fdalloc, get_proc, bind, gets. cbn. destruct (ptable s !! cur) as [me|]; [|done]. cbn.
  destruct (fdalloc_scan 0 (p_ofile me)); cbn; intros [= <- <-]; [|done]. rewrite Z.ltb_lt. lia.
Qed.

Lemma sys_dup_ok cur s r s' : ok cur [] s -> sys_dup cur s = Ok r s' -> ok cur [] s'.
Proof.
  intros Hok R. unfold sys_dup in R. next R Hok a. destruct a as [[fd0 f]|]; [|rest R Hok].
  pose proof (argfd_fd _ _ _ _ _ _ R0) as Hf. apply bind_inv in R as (fd & s1 & R1 & R).
  destruct (fd <? 0) eqn:Hfd.
  { injection R as <- <-. by rewrite (fdalloc_neg _ _ _ _ _ R1 Hfd). }
  apply bind_inv in R as (g & s2 & R2 & R). injection R as <- <-. apply in_kern_inv in R2 as (k & R2 & ->).
  destruct (fdalloc_kern _ _ _ _ _ k R1) as [EK R3]. rewrite EK in R2.
  pose proof Hok as [[Rf T] Lv]. pose proof (has_fd_in _ _ _ _ Hf) as Hin.
  destruct (filedup_refs _ _ _ _ _ Rf Hin R2) as [_ Rf'].
  assert (Hok' : ok cur [f] (with_kern k s0)) by (split; [constructor|]; done).
  destruct (fdalloc_ok cur f [f] [] _ _ _ (Permutation_refl _) Hok' R3) as [[-> _]|(_ & Hok2 & _)]; [done|exact Hok2].
Qed.

Lemma sys_close_ok cur s r s' : ok cur [] s -> sys_close devsw_read end_ cur s = Ok r s' -> ok cur [] s'.
Proof.
  intros Hok R. unfold sys_close in R. next R Hok a. destruct a as [[fd f]|]; [|rest R Hok].
  pose proof (argfd_fd _ _ _ _ _ _ R0) as Hf. apply bind_inv in R as ([] & s1 & R1 & R).
  destruct (set_fd_ok cur fd (Some f) None [] [f] _ _ Hok Hf R1) as (Hok1 & _); [done|].
  apply bind_inv in R as ([] & s2 & R2 & R). injection R as <- <-.
  eapply (in_kern_ok _ cur [f] [] s1); [done|exact R2|]. intros k Rf Rk. by eapply fileclose_refs.
Qed.

Lemma fileclose_held cur f s s' : ok cur [f] s -> in_kern (fileclose devsw_read end_ f) s = Ok tt s' -> ok cur [] s'.
Proof. intros Hok R. eapply (in_kern_ok _ cur [f] [] s); [done|exact R|]. intros k Rf Rk. by eapply fileclose_refs. Qed.

Lemma upd_file_held cur f g s s' : ok cur [] s -> f ∈ fds (ptable s) -> (forall ff, f_ref (g ff) = f_ref ff) ->
  in_kern (upd_file f g) s = Ok tt s' -> ok cur [] s'.
Proof.
  intros Hok Hf Hg R. eapply (in_kern_ok _ cur [] [] s); [done|exact R|]. intros k Rf Rk. by eapply upd_file_refs.
Qed.

Lemma filealloc_held cur s o s' : ok cur [] s -> in_kern filealloc s = Ok o s' -> ok cur (option_list o) s'.
Proof.
  intros Hok R. eapply (in_kern_ok _ cur [] (option_list o) s); [done|exact R|]. intros k Rf Rk.
  pose proof (filealloc_refs _ _ _ _ Rf Rk) as Hr. destruct o; [done|by subst k].
Qed.

Lemma still_has_fd {A} (c : M (sys L) A) cur fd o s a s' : still c -> has_fd cur fd o s -> c s = Ok a s' -> has_fd cur fd o s'.
Proof.
  intros Hc (me & Hme & Hfd) R. apply Hc in R as [_ E]. destruct (Forall2_lookup_l _ _ _ _ _ E Hme) as (me' & Hme' & [Eo _]).
  exists me'. by rewrite Eo.
Qed.

(** Opening: a fresh file in a fresh descriptor. *)
Lemma open_fd_ok cur ip omode err s r s' : ok cur [] s -> open_fd devsw_read end_ cur ip omode err s = Ok r s' -> ok cur [] s'.
Proof.
  intros Hok R. unfold open_fd in R. apply bind_inv in R as (o & s1 & R1 & R). apply (filealloc_held _ _ _ _ Hok) in R1.
  destruct o as [f|]; [|rest R R1]. apply bind_inv in R as (fd & s2 & R2 & R).
  destruct (fdalloc_ok cur f [f] [] _ _ _ (Permutation_refl _) R1 R2) as [[-> ->]|(Hfd & Hok2 & _ & Hf)].
  - cbn in R. apply bind_inv in R as ([] & s3 & R3 & R). apply (fileclose_held _ _ _ _ R1) in R3. rest R R3.
  - rewrite (proj2 (Z.ltb_ge _ _)) in R by done. apply bind_inv in R as ([] & s3 & R3 & R).
    pose proof (still_has_fd _ _ _ _ _ _ _ (still_in_fs _) Hf R3) as Hf3.
    apply (still_ok _ _ _ _ _ _ (still_in_fs _) Hok2) in R3. apply bind_inv in R as ([] & s4 & R4 & R). injection R as <- <-.
    refine (upd_file_held _ _ _ _ _ R3 _ _ R4); [by eapply has_fd_in|done].
Qed.

Lemma still_open_create cur path : still (open_create devsw_read devsw_write count0 depth cur path).
Proof. unfold open_create. still_all. Qed.

Lemma still_iopen_lock cur : still (iopen_lock devsw_read devsw_write cur).
Proof. unfold iopen_lock. still_all. Qed.
Hint Resolve still_open_create still_iopen_lock : still.

Lemma open_ok cur path omode verify s r s' :
  ok cur [] s -> open devsw_read devsw_write end_ count0 depth cur path omode verify s = Ok r s' -> ok cur [] s'.
Proof.
  intros Hok R. unfold open in R. destruct (negb (Z.land omode O_CREATE =? 0)).
  - next R Hok o. destruct o as [ip|]; [by eapply open_fd_ok|rest R Hok].
  - next R Hok o. destruct o as [ip|]; [|rest R Hok]. next R Hok e. destruct (verify && (e =? E_CORRUPTED)); [rest R Hok|].
    next R Hok i. destruct ((i_type i =? T_DIR) && negb (omode =? O_RDONLY)); [rest R Hok|by eapply open_fd_ok].
Qed.

Lemma sys_ichecksum_ok cur s r s' : ok cur [] s -> sys_ichecksum devsw_read devsw_write end_ cur s = Ok r s' -> ok cur [] s'.
Proof.
  intros Hok R. unfold sys_ichecksum in R. next R Hok x. destruct x as [e|ip]; [rest R Hok|].
  apply bind_inv in R as (o & s1 & R1 & R). apply (filealloc_held _ _ _ _ Hok) in R1.
  destruct o as [f|]; [|rest R R1]. apply bind_inv in R as (fd & s2 & R2 & R).
  destruct (fdalloc_ok cur f [f] [] _ _ _ (Permutation_refl _) R1 R2) as [[-> ->]|(Hfd & Hok2 & _ & Hf)].
  - cbn in R. apply bind_inv in R as ([] & s3 & R3 & R). apply (fileclose_held _ _ _ _ R1) in R3. rest R R3.
  - rewrite (proj2 (Z.ltb_ge _ _)) in R by done. apply bind_inv in R as (c & s3 & R3 & R).
    pose proof (still_has_fd _ _ _ _ _ _ _ (still_in_fs _) Hf R3) as Hf3. apply (still_ok _ _ _ _ _ _ (still_in_fs _) Hok2) in R3.
    apply bind_inv in R as ([] & s4 & R4 & R). pose proof (still_has_fd _ _ _ _ _ _ _ (still_in_fs _) Hf3 R4) as Hf4.
    apply (still_ok _ _ _ _ _ _ (still_in_fs _) R3) in R4. apply bind_inv in R as ([] & s5 & R5 & R).
    assert (Hf5 : has_fd cur (Z.to_nat fd) (Some f) s5) by (by apply in_kern_inv in R5 as (k & _ & ->)).
    apply (upd_file_held _ _ _ _ _ R4 (has_fd_in _ _ _ _ Hf4)) in R5; [|done].
    apply bind_inv in R as ([] & s6 & R6 & R).
    destruct (set_fd_ok cur fd (Some f) None [] [f] _ _ R5 Hf5 R6) as (Hok6 & _); [done|].
    apply bind_inv in R as ([] & s7 & R7 & R). injection R as <- <-. by eapply fileclose_held.
Qed.

(** Closing the two ends of a pipe. *)
Lemma close_two cur a b s s1 s' : ok cur [a; b] s -> in_kern (fileclose devsw_read end_ a) s = Ok tt s1 ->
  in_kern (fileclose devsw_read end_ b) s1 = Ok tt s' -> ok cur [] s'.
Proof.
  intros Hok R1 R2. assert (ok cur [b] s1) as Hok1.
  { eapply (in_kern_ok _ cur [a; b] [b] s); [done|exact R1|]. intros k Rf Rk. by eapply fileclose_refs. }
  by eapply fileclose_held.
Qed.

Lemma sys_pipe_ok cur s r s' : ok cur [] s -> sys_pipe devsw_read end_ cur s = Ok r s' -> ok cur [] s'.
Proof.
  intros Hok R. unfold sys_pipe in R. next R Hok p. destruct p as [p|]; [|rest R Hok].
  apply bind_inv in R as (o & s1 & R1 & R).
  assert (Ho : ok cur (match o with Some (a, b) => [a; b] | None => [] end) s1).
  { eapply (in_kern_ok _ cur [] _ s0); [done|exact R1|]. intros k Rf Rk. pose proof (pipealloc_refs _ _ _ _ Rf Rk) as Hr.
    by destruct o as [[a b]|]. }
  destruct o as [[a b]|]; [|rest R Ho]. apply bind_inv in R as (fd0 & s2 & R2 & R).
  destruct (fdalloc_ok cur a [a; b] [b] _ _ _ (Permutation_refl _) Ho R2) as [[-> ->]|(Hfd & Hok2 & _ & Hf)].
  - apply bind_inv in R as (fd1 & s3 & [= <- <-] & R). cbn in R.
    apply bind_inv in R as ([] & s5 & R5 & R). apply bind_inv in R as ([] & s6 & R6 & R). injection R as <- <-. by eapply close_two.
  - rewrite (proj2 (Z.ltb_ge fd0 0)), (proj2 (Z.leb_le 0 fd0)) in R by done. apply bind_inv in R as (fd1 & s3 & R3 & R).
    destruct (fdalloc_ok cur b [b] [] _ _ _ (Permutation_refl _) Hok2 R3) as [[-> ->]|(Hfd1 & Hok3 & _)].
    + change (-1 <? 0) with true in R. cbv iota in R. apply bind_inv in R as ([] & s4 & R4 & R).
      destruct (set_fd_ok cur fd0 (Some a) None [b] [a; b] _ _ Hok2 Hf R4) as (Hok4 & _); [apply Permutation_swap|].
      apply bind_inv in R as ([] & s5 & R5 & R). apply bind_inv in R as ([] & s6 & R6 & R). injection R as <- <-. by eapply close_two.
    + rewrite (proj2 (Z.ltb_ge _ _)) in R by done. rest R Hok3.
Qed.

(** ** Creating and ending processes *)

(** A slot without descriptors, and one that a process is being built in. *)
Definition empty_slot (k : nat) s : Prop := exists p, ptable s !! k = Some p /\ no_fds p.
Definition fresh (k : nat) s : Prop := exists p, ptable s !! k = Some p /\ no_fds p /\ ~ idle p.

Lemma fresh_slot k s : fresh k s -> empty_slot k s.
Proof. intros (p & ? & ? & _). by exists p. Qed.

Lemma still_empty {A} (c : M (sys L) A) k s a s' : still c -> empty_slot k s -> c s = Ok a s' -> empty_slot k s'.
Proof.
  intros Hc (p & Hp & Hn) R. apply Hc in R as [_ E]. destruct (Forall2_lookup_l _ _ _ _ _ E Hp) as (p' & Hp' & [Eo _]).
  exists p'. unfold no_fds. by rewrite Eo.
Qed.

Lemma still_fresh {A} (c : M (sys L) A) k s a s' : still c -> fresh k s -> c s = Ok a s' -> fresh k s'.
Proof.
  intros Hc (p & Hp & Hn & Hi) R. apply Hc in R as [_ E]. destruct (Forall2_lookup_l _ _ _ _ _ E Hp) as (p' & Hp' & [Eo Hk]).
  exists p'. unfold no_fds. rewrite Eo. split_and!; [done..|tauto].
Qed.

(** Replacing a slot by one with other descriptors. *)
Lemma slot_fd_ok hs hs' k p p' s s' : fd_ok hs s -> ptable s !! k = Some p -> ptable s' = <[k := p']> (ptable s) ->
  s_kern s' = s_kern s -> length (p_ofile p') = length (p_ofile p) -> (idle p' -> no_fds p') ->
  hs ++ fds_of p ≡ₚ hs' ++ fds_of p' -> fd_ok hs' s'.
Proof.
  intros [R [T1 T2]] Hp Et Ek Hl Hi E. assert (Hk : (k < length (ptable s))%nat) by (by eapply lookup_lt_Some).
  destruct (fds_insert _ _ _ p' Hp) as (rest & P1 & P2). constructor; rewrite ?Ek, Et.
  - eapply refs_perm; [|exact R]. by rewrite P1, P2, !app_assoc, E.
  - constructor; intros j q; (destruct (decide (j = k)) as [->|Hne];
      [rewrite list_lookup_insert_eq by done; intros [= <-]|rewrite list_lookup_insert_ne by done]); [done|apply T1| |apply T2].
    rewrite Hl. by eapply T2.
Qed.

Lemma upd_empty hs k g s s' : fd_ok hs s -> empty_slot k s -> (forall p, p_ofile (g p) = p_ofile p) ->
  upd_proc k g s = Ok tt s' -> fd_ok hs s' /\ empty_slot k s'.
Proof.
  intros F (p & Hp & Hn) Hg [= <-]. pose proof (list_alter_lookup g _ _ _ Hp) as Et.
  assert (Hn' : no_fds (g p)) by (unfold no_fds; by rewrite Hg). split.
  - eapply (slot_fd_ok hs hs k p (g p)); [exact F|done|exact Et|done|by rewrite Hg|done|].
    unfold fds_of. by rewrite Hg.
  - exists (g p). cbn. rewrite Et, list_lookup_insert_eq; [done|]. by eapply lookup_lt_Some.
Qed.

Lemma live_upd cur k g s s' : live cur s -> cur <> k -> upd_proc k g s = Ok tt s' -> live cur s'.
Proof. intros (me & Hme & Hi) Hne [= <-]. exists me. cbn. by rewrite list_lookup_alter_ne. Qed.

Lemma still_modify (g : sys L -> sys L) : (forall s, s_kern (g s) = s_kern s /\ ptable (g s) = ptable s) -> still (modify g).
Proof. intros Hg s a s' [= <- <-]. destruct (Hg s) as [E1 E2]. constructor; [by rewrite E1|rewrite E2; apply same_fds_refl]. Qed.

(** A step of a run that leaves descriptors alone, while [k] is being built. *)
Lemma bind_fresh {A B} (c : M (sys L) A) (f : A -> M (sys L) B) cur hs k s b s' :
  still c -> ok cur hs s -> fresh k s -> bind c f s = Ok b s' ->
  exists a s1, ok cur hs s1 /\ fresh k s1 /\ f a s1 = Ok b s'.
Proof. intros Hc Hok Hf (a & s1 & R1 & R2)%bind_inv. exists a, s1. split_and!; [by eapply still_ok|by eapply still_fresh|done]. Qed.

Ltac next_fresh R Hok Hf a :=
  let s1 := fresh "s" in let Hc := fresh in
  match type of R with bind ?c _ _ = _ =>
    assert (Hc : still c) by first [solve [still_all]|by apply still_modify];
    apply (bind_fresh _ _ _ _ _ _ _ _ Hc Hok Hf) in R; clear Hc Hok Hf; destruct R as (a & s1 & Hok & Hf & R)
  end.

Ltac skip_fresh R Hok Hf := let u := fresh "u" in next_fresh R Hok Hf u.

Lemma allocproc_ok cur hs s o s' : ok cur hs s -> allocproc trapret_ forkret_ s = Ok o s' ->
  ok cur hs s' /\ forall np, o = Some np -> fresh np s' /\ cur <> np.
Proof.
  intros Hok R. unfold allocproc in R. apply bind_inv in R as (t & s0 & [= <- <-] & R).
  destruct (alloc_scan 0 (ptable s)) as [np|] eqn:Hs; [|injection R as <- <-; by split].
  apply alloc_scan_spec in Hs as (q & _ & Hq & Hu). rewrite Nat.sub_0_r in Hq.
  assert (Hne : cur <> np).
  { intros ->. destruct Hok as [_ (me & Hme & Hi)]. rewrite Hq in Hme. injection Hme as <-. apply Hi. by left. }
  assert (Hn : no_fds q) by (eapply (tf_none _ (fk_table _ _ (proj1 Hok))); [exact Hq|by left]).
  apply bind_inv in R as ([] & s1 & R1 & R).
  assert (Hk : still (upd_proc np (p_set_state EMBRYO))) by (apply still_upd_proc; intros p; split; [done|by intros []]).
  pose proof (still_ok _ _ _ _ _ _ Hk Hok R1) as Hok1.
  assert (Hf : fresh np s1).
  { injection R1 as <-. exists (p_set_state EMBRYO q). cbn. rewrite (list_alter_lookup _ _ _ _ Hq), list_lookup_insert_eq
      by (by eapply lookup_lt_Some). split_and!; [done..|by intros []]. }
  clear Hok R1.
  next_fresh R Hok1 Hf pid. do 2 skip_fresh R Hok1 Hf. next_fresh R Hok1 Hf k. skip_fresh R Hok1 Hf.
  destruct (k =? 0).
  - apply bind_inv in R as ([] & s7 & R7 & [= <- <-]). split; [|done].
    pose proof R7 as R7'. apply (upd_empty hs) in R7 as [F _]; [|apply Hok1|by apply fresh_slot|done].
    split; [done|]. eapply live_upd; [apply Hok1|done|exact R7'].
  - do 4 skip_fresh R Hok1 Hf. injection R as <- <-. split; [done|]. by intros ? [= <-].
Qed.

(** ** fork *)

(** The descriptors of [k] are [l]. *)
Definition ofile_is (k : nat) (l : list (option nat)) s : Prop := exists p, ptable s !! k = Some p /\ p_ofile p = l.

Lemma still_ofile {A} (c : M (sys L) A) k l s a s' : still c -> ofile_is k l s -> c s = Ok a s' -> ofile_is k l s'.
Proof.
  intros Hc (p & Hp & <-) R. apply Hc in R as [_ E]. destruct (Forall2_lookup_l _ _ _ _ _ E Hp) as (p' & Hp' & [Eo _]).
  by exists p'.
Qed.

Lemma get_proc_inv k s p s' : get_proc k s = Ok p s' -> ptable s !! k = Some p /\ s' = s.
Proof. unfold get_proc, bind, gets. destruct (ptable s !! k); [|done]. by intros [= -> ->]. Qed.

Lemma dup_files_ok cur old : forall new hs s l s', ok cur hs s -> (forall f, Some f ∈ old -> f ∈ fds (ptable s)) ->
  length old = length new -> Forall (fun o => o = None) new -> dup_files old new s = Ok l s' ->
  l = old /\ ptable s' = ptable s /\ ok cur (omap id old ++ hs) s'.
Proof.
  induction old as [|o old IH]; intros [|x new] hs s l s' Hok Hin Hl Hn R; try done; cbn [dup_files] in R.
  { by injection R as <- <-. }
  inversion Hn as [|? ? -> Hn']; subst. apply bind_inv in R as (y & s1 & R1 & R). apply bind_inv in R as (rest & s2 & R2 & [= <- <-]).
  assert (H1 : y = o /\ ptable s1 = ptable s /\ ok cur (option_list o ++ hs) s1).
  { destruct o as [f|]; [|by injection R1 as <- <-]. apply bind_inv in R1 as (g & s3 & R3 & [= <- <-]).
    pose proof R3 as R3'. apply in_kern_inv in R3' as (k & Rk & ->).
    pose proof (proj1 Hok) as [Rf _]. assert (Hf : f ∈ hs ++ fds (ptable s)) by (apply elem_of_app; right; apply Hin; by left).
    destruct (filedup_refs _ _ _ _ _ Rf Hf Rk) as [-> _]. split_and!; [done..|].
    eapply (in_kern_ok _ cur hs ([f] ++ hs) s); [done|exact R3|]. intros k' Rf' Rk'.
    by eapply filedup_refs. }
  destruct H1 as (-> & E1 & Hok1). destruct (IH new _ _ rest s2 Hok1) as (-> & E2 & Hok2); [| |done|done|].
  - intros f Hf. rewrite E1. apply Hin. by right.
  - by injection Hl.
  - split_and!; [done|congruence|]. eapply refs_perm_ok; [|exact Hok2]. destruct o; cbn; [|done].
    by rewrite Permutation_middle.
Qed.

(** Slot [np] takes the descriptors [l] the kernel holds for it. *)
Lemma give_files cur np l hs s s' : ok cur (omap id l ++ hs) s -> fresh np s -> cur <> np ->
  length l = Z.to_nat NOFILE -> upd_proc np (p_set_ofile l) s = Ok tt s' -> ok cur hs s'.
Proof.
  intros [F Lv] (q & Hq & Hn & Hi) Hne Hl R. split; [|by eapply live_upd]. injection R as <-.
  eapply (slot_fd_ok _ hs np q (p_set_ofile l q)); [exact F|done|by cbn; rewrite (list_alter_lookup _ _ _ _ Hq)|done| | |].
  - cbn. rewrite Hl. symmetry. by eapply (tf_len _ (fk_table _ _ F)).
  - intros Hx. by destruct Hi.
  - rewrite (no_fds_nil _ Hn), app_nil_r. apply Permutation_app_comm.
Qed.

(** [fork] by [cur], whose descriptors are [l], while it builds [np]. *)
Record forking cur np (l : list (option nat)) s : Prop := {
  fg_ok : ok cur [] s;
  fg_fresh : fresh np s;
  fg_files : ofile_is cur l s
}.

Lemma bind_forking {A B} (c : M (sys L) A) (f : A -> M (sys L) B) cur np l s b s' :
  still c -> forking cur np l s -> bind c f s = Ok b s' -> exists a s1, c s = Ok a s1 /\ forking cur np l s1 /\ f a s1 = Ok b s'.
Proof.
  intros Hc [H1 H2 H3] (a & s1 & R1 & R2)%bind_inv. exists a, s1. split_and!; [done| |done].
  constructor; [by eapply still_ok|by eapply still_fresh|by eapply still_ofile].
Qed.

Ltac next_forking R Hg a :=
  let s1 := fresh "s" in let R1 := fresh "R" in let Hc := fresh in
  match type of R with bind ?c _ _ = _ =>
    assert (Hc : still c) by still_all;
    apply (bind_forking _ _ _ _ _ _ _ _ Hc Hg) in R; clear Hc Hg; destruct R as (a & s1 & R1 & Hg & R)
  end.
Ltac skip_forking R Hg := let u := fresh "u" in next_forking R Hg u.

Lemma forking_in cur np l s f : forking cur np l s -> Some f ∈ l -> f ∈ fds (ptable s).
Proof.
  intros [_ _ (p & Hp & <-)] Hf. apply list_elem_of_lookup in Hf as [i Hf]. eapply has_fd_in. by exists p.
Qed.

Lemma forking_len cur np l s k p : forking cur np l s -> ptable s !! k = Some p -> length (p_ofile p) = Z.to_nat NOFILE.
Proof. intros [Hok _ _] Hp. by eapply (tf_len _ (fk_table _ _ (proj1 Hok))). Qed.

Lemma abandon cur np l s s' : forking cur np l s -> cur <> np -> upd_proc np (p_set_state UNUSED) s = Ok tt s' -> ok cur [] s'.
Proof.
  intros [[F Lv] Hf _] Hne R. split; [|by eapply live_upd].
  by apply (upd_empty []) in R as [? _]; [|done|by apply fresh_slot|].
Qed.

Lemma fork_ok cur s r s' : ok cur [] s -> fork end_ data_ trapret_ forkret_ cur s = Ok r s' -> ok cur [] s'.
Proof.
  intros Hok R. unfold fork in R. apply bind_inv in R as (o & s1 & R1 & R).
  destruct (allocproc_ok _ _ _ _ _ Hok R1) as [Hok1 Hnp]. clear Hok. destruct o as [np|]; [|by injection R as <- <-].
  destruct (Hnp np eq_refl) as [Hf Hne]. clear Hnp R1. apply bind_inv in R as (me & s2 & R2 & R).
  apply get_proc_inv in R2 as [Hme ->]. assert (Hg : forking cur np (p_ofile me) s1) by (constructor; [done..|by exists me]).
  pose proof (forking_len _ _ _ _ _ _ Hg Hme) as Hlm. clear Hok1 Hf Hme.
  next_forking R Hg d. skip_forking R Hg. apply bind_inv in R as (q & s4 & R4 & R). apply get_proc_inv in R4 as [Hq ->].
  pose proof (forking_len _ _ _ _ _ _ Hg Hq) as Hlq. destruct (d =? 0).
  { do 2 skip_forking R Hg. apply bind_inv in R as ([] & s6 & R6 & [= <- <-]). by eapply abandon. }
  assert (Hn : no_fds q) by (destruct Hg as [_ (q' & Hq' & Hn & _) _]; rewrite Hq in Hq'; by injection Hq' as <-).
  clear Hq. do 4 skip_forking R Hg. apply bind_inv in R as (l & s7 & R7 & R).
  pose proof (fg_ok _ _ _ _ Hg) as Hok. pose proof (fg_fresh _ _ _ _ Hg) as Hf.
  destruct (dup_files_ok cur (p_ofile me) (p_ofile q) [] _ l s7 Hok) as (-> & Et & Hok7); [|congruence|done|done|].
  { intros f. by eapply forking_in. }
  assert (Hf7 : fresh np s7) by (unfold fresh; by rewrite Et). clear Hg Hok Hf.
  apply bind_inv in R as ([] & s8 & R8 & R). apply (give_files _ _ _ [] _ _ Hok7 Hf7 Hne Hlm) in R8. clear Hok7 Hf7.
  do 5 (let u := fresh "u" in next R R8 u). apply bind_inv in R as ([] & sz & Rs & [= <- <-]).
  refine (still_ok _ _ _ _ _ _ _ R8 Rs). apply still_upd_proc. intros p. split; [done|by intros []].
Qed.
(** ** exit and wait *)

Lemma close_fd cur fd f s s1 s' : ok cur [] s -> has_fd cur fd (Some f) s ->
  in_kern (fileclose devsw_read end_ f) s = Ok tt s1 ->
  upd_proc cur (fun q => p_set_ofile (<[fd := None]> (p_ofile q)) q) s1 = Ok tt s' -> ok cur [] s'.
Proof.
  intros Hok Hf R1 R2. apply in_kern_inv in R1 as (k & R1 & ->).
  assert (Hs : exists s2, set_fd cur (Z.of_nat fd) None s = Ok tt s2 /\ s' = with_kern k s2).
  { eexists. split; [done|]. injection R2 as <-. cbn. by rewrite Nat2Z.id. }
  destruct Hs as (s2 & R3 & ->).
  assert (Hf' : has_fd cur (Z.to_nat (Z.of_nat fd)) (Some f) s) by (by rewrite Nat2Z.id).
  destruct (set_fd_ok cur (Z.of_nat fd) (Some f) None [] [f] _ _ Hok Hf' R3) as ([[Rf T] Lv] & Ek & _); [done|]. rewrite <- Ek in R1. split; [|done]. constructor; [|done]. by eapply fileclose_refs.
Qed.

(** The descriptors of [cur] outside [l] that are closed stay closed, those in
    [l] are closed. *)
Definition closed cur (c : nat -> Prop) s : Prop :=
  exists me, ptable s !! cur = Some me /\ forall fd f, p_ofile me !! fd = Some (Some f) -> ~ c fd.

Lemma close_files_ok cur l : forall (c : nat -> Prop) s s', ok cur [] s -> closed cur c s ->
  close_files devsw_read end_ cur l s = Ok tt s' -> ok cur [] s' /\ closed cur (fun fd => c fd \/ fd ∈ l) s'.
Proof.
  induction l as [|fd l IH]; intros c s s' Hok Hc R; cbn [close_files] in R.
  { injection R as <-. split; [done|]. destruct Hc as (me & Hm & Hc). exists me. split; [done|]. intros x f Hx [|[]%elem_of_nil]; by eapply Hc. }
  apply bind_inv in R as (me & s1 & R1 & R). apply get_proc_inv in R1 as [Hme ->]. apply bind_inv in R as ([] & s2 & R2 & R).
  assert (H2 : ok cur [] s2 /\ closed cur (fun x => c x \/ x = fd) s2).
  { destruct Hc as (me' & Hme' & Hc). rewrite Hme in Hme'. injection Hme' as <-.
    destruct (p_ofile me !! fd) as [[f|]|] eqn:Hf;
      [|injection R2 as <-; split; [done|]; exists me; split; [done|]; intros x g Hx [Hcx| ->]; [by eapply Hc|congruence]..].
    apply bind_inv in R2 as ([] & s3 & R3 & R4). split; [by eapply close_fd; [..|exact R3|exact R4]; [|by exists me]|].
    apply in_kern_inv in R3 as (k & _ & ->). injection R4 as <-. eexists. cbn.
    rewrite (list_alter_lookup _ _ _ _ Hme), list_lookup_insert_eq by (by eapply lookup_lt_Some). split; [done|].
    intros x g. cbn. destruct (decide (x = fd)) as [->|Hne].
    - rewrite list_lookup_insert_eq; [done|by eapply lookup_lt_Some].
    - rewrite list_lookup_insert_ne by done. intros Hx [Hcx|?]; [by eapply Hc|done]. }
  destruct H2 as [Hok2 Hc2]. destruct (IH _ _ _ Hok2 Hc2 R) as [Hok' (q & Hq & Hx)]. split; [done|]. exists q. split; [done|].
  intros x f Hf Hin. eapply Hx; [exact Hf|]. set_solver.
Qed.

Lemma same_fds_wakeup1 c t : same_fds t (wakeup1 c t).
Proof.
  apply Forall2_fmap_r, Forall_Forall2_diag, Forall_true. intros p. unfold compose. case_decide as E; [|apply keeps_refl].
  split; [done|by intros []].
Qed.

Lemma same_fds_reparent cur init n : forall k t, same_fds t (reparent n k cur init t).
Proof.
  induction n as [|n IH]; intros k t; cbn [reparent]; [apply same_fds_refl|]. destruct (t !! k) as [p|]; [|apply same_fds_refl].
  eapply same_fds_trans; [|apply IH]. case_decide; [|apply same_fds_refl].
  assert (Ha : same_fds t (alter (p_set_parent (Some init)) k t)) by (apply alter_keeps; by split).
  case_decide; [|done]. eapply same_fds_trans; [exact Ha|apply same_fds_wakeup1].
Qed.

(** The end of [exit], with the descriptors closed. *)
Lemma exit_table_ok cur init s : fd_ok [] s -> empty_slot cur s -> fd_ok [] (set_ptable (exit_table cur init (ptable s)) s).
Proof.
  intros F (p & Hp & Hn). unfold exit_table. set (t1 := match _ with Some _ => _ | None => _ end).
  assert (E1 : same_fds (ptable s) (reparent (length t1) 0 cur init t1)).
  { eapply same_fds_trans; [|apply same_fds_reparent]. subst t1.
    destruct (ptable s !! cur ≫= p_parent); [apply same_fds_wakeup1|apply same_fds_refl]. }
  set (t2 := reparent _ _ _ _ _) in *. clearbody t2. clear t1.
  assert (Hr : still_rel s (set_ptable t2 s)) by (constructor; done). apply (still_fd_ok [] _ _ Hr) in F.
  destruct (Forall2_lookup_l _ _ _ _ _ E1 Hp) as (p' & Hp' & [Eo _]).
  eapply (upd_empty [] cur (p_set_state ZOMBIE) (set_ptable t2 s)); [done| |done|done].
  exists p'. unfold no_fds. by rewrite Eo.
Qed.

Lemma bind_empty {A B} (c : M (sys L) A) (f : A -> M (sys L) B) cur hs k s b s' :
  still c -> ok cur hs s -> empty_slot k s -> bind c f s = Ok b s' ->
  exists a s1, ok cur hs s1 /\ empty_slot k s1 /\ f a s1 = Ok b s'.
Proof. intros Hc Hok Hf (a & s1 & R1 & R2)%bind_inv. exists a, s1. split_and!; [by eapply still_ok|by eapply still_empty|done]. Qed.

Ltac next_empty R Hok Hf :=
  let a := fresh "a" in let s1 := fresh "s" in let Hc := fresh in
  match type of R with bind ?c _ _ = _ =>
    assert (Hc : still c) by still_all;
    apply (bind_empty _ _ _ _ _ _ _ _ Hc Hok Hf) in R; clear Hc Hok Hf; destruct R as (a & s1 & Hok & Hf & R)
  end.

Lemma exit_fds cur s s' : ok cur [] s -> exit devsw_read end_ cur s = Ok tt s' -> fd_ok [] s'.
Proof.
  intros Hok R. unfold exit in R. next R Hok init. case_decide as Hi; [done|]. apply bind_inv in R as ([] & s1 & R1 & R).
  assert (Hc0 : closed cur (fun _ => False) s0).
  { destruct Hok as [_ (me & Hme & _)]. exists me. split; [done|]. by intros fd f _ []. }
  destruct (close_files_ok cur _ _ _ _ Hok Hc0 R1) as [Hok1 (me & Hme & Hc)].
  assert (He : empty_slot cur s1).
  { exists me. split; [done|]. apply Forall_lookup. intros i [f|] Hf; [|done]. exfalso. eapply Hc; [exact Hf|]. right.
    apply elem_of_seq. apply lookup_lt_Some in Hf. rewrite (tf_len _ (fk_table _ _ (proj1 Hok1)) _ _ Hme) in Hf. lia. }
  clear R1 Hok Hc0 Hc Hme.
  do 6 next_empty R Hok1 He. destruct Hok1 as [F _].
  injection R as <-. by apply exit_table_ok.
Qed.

Lemma wait_scan_zombie cur t : forall k h j, wait_scan cur k h t = inl j ->
  (k <= j)%nat /\ exists p, t !! (j - k)%nat = Some p /\ p_state p = ZOMBIE.
Proof.
  induction t as [|p t IH]; intros k h j; cbn; [done|]. assert (Hn : forall b, wait_scan cur (S k) b t = inl j ->
    (k <= j)%nat /\ exists q, (p :: t) !! (j - k)%nat = Some q /\ p_state q = ZOMBIE).
  { intros b (Hk & q & Hq & Hz)%IH. split; [lia|]. exists q. by replace (j - k)%nat with (S (j - S k)) by lia. }
  case_decide; [|apply Hn]. case_decide; [|apply Hn]. intros [= <-]. split; [done|]. exists p. by rewrite Nat.sub_diag.
Qed.

Lemma wait_ok cur s r s' : ok cur [] s -> wait end_ cur s = Ok r s' -> ok cur [] s'.
Proof.
  intros Hok R. unfold wait in R. apply bind_inv in R as (t & s0 & [= <- <-] & R).
  destruct (wait_scan cur 0 false (ptable s)) as [k|h] eqn:Hs.
  - apply wait_scan_zombie in Hs as (_ & p & Hp & Hz). rewrite Nat.sub_0_r in Hp. apply bind_inv in R as (pid & s1 & R & [= <- <-]).
    assert (He : empty_slot k s) by (exists p; split; [done|]; eapply (tf_none _ (fk_table _ _ (proj1 Hok))); [exact Hp|by right]).
    assert (Hne : cur <> k).
    { intros ->. destruct Hok as [_ (me & Hme & Hi)]. rewrite Hp in Hme. injection Hme as <-. apply Hi. by right. }
    clear Hp. unfold reap in R. do 4 next_empty R Hok He. apply bind_inv in R as ([] & s6 & R6 & [= <- <-]).
    pose proof R6 as R6'. apply (upd_empty []) in R6 as [F _]; [|apply Hok|done|done]. split; [done|].
    eapply live_upd; [apply Hok|done|exact R6'].
  - next R Hok me. destruct (negb h || p_killed me); [rest R Hok|]. apply bind_inv in R as ([] & s2 & R2 & [= <- <-]).
    refine (still_ok _ _ _ _ _ _ _ Hok R2). apply (still_set_ptable (sleep_table cur (ChProc cur))). intros t.
    apply alter_keeps. intros p. split; [done|by intros []].
Qed.
(** ** Dispatch *)

(** What a call leaves: the descriptors counted, and a process that can go on if
    the call returns. *)
Definition keeps_fds cur (c : M (sys L) (option Z)) : Prop :=
  forall s r s', ok cur [] s -> c s = Ok r s' -> fd_ok [] s' /\ (r <> None -> live cur s').

Lemma ok_keeps cur (c : M (sys L) (option Z)) : (forall s r s', ok cur [] s -> c s = Ok r s' -> ok cur [] s') -> keeps_fds cur c.
Proof. intros Hc s r s' Hok R. destruct (Hc _ _ _ Hok R) as [F Lv]. by split. Qed.

Lemma still_keeps cur (c : M (sys L) (option Z)) : still c -> keeps_fds cur c.
Proof. intros Hc. apply ok_keeps. intros s r s' Hok R. by eapply still_ok. Qed.

Lemma same_fds_kill pid t : same_fds t (snd (kill pid t)).
Proof.
  induction t as [|p t IH]; cbn; [constructor|]. destruct (p_pid p =? pid); cbn.
  - constructor; [|apply same_fds_refl]. case_decide; [|by split]. split; [done|by intros []].
  - destruct (kill pid t) as [r t']. cbn in *. constructor; [apply keeps_refl|done].
Qed.

Lemma sys_kill_keeps cur : keeps_fds cur (sys_kill cur).
Proof.
  apply ok_keeps. intros s r s' Hok R. unfold sys_kill in R. next R Hok o. destruct o as [pid|]; [|rest R Hok].
  apply bind_inv in R as (t & s1 & [= <- <-] & R). pose proof (same_fds_kill pid (ptable s0)) as Hk.
  destruct (kill pid (ptable s0)) as [b t']. injection R as <- <-.
  assert (Hs : still_rel s0 (set_ptable t' s0)) by (by constructor).
  split; [by eapply still_fd_ok; [|apply Hok]|by eapply still_live; [|apply Hok]].
Qed.

Lemma sys_fork_keeps cur : keeps_fds cur (sys_fork end_ data_ trapret_ forkret_ cur).
Proof.
  apply ok_keeps. intros s r s' Hok R. unfold sys_fork in R. apply bind_inv in R as (x & s1 & R1 & R).
  apply (fork_ok _ _ _ _ Hok) in R1. rest R R1.
Qed.

Lemma sys_exit_keeps cur : keeps_fds cur (sys_exit devsw_read end_ cur).
Proof.
  intros s r s' Hok R. unfold sys_exit in R. apply bind_inv in R as ([] & s1 & R1 & [= <- <-]).
  split; [by eapply exit_fds|done].
Qed.

Lemma open_call_keeps cur verify : keeps_fds cur
  (let! p := argstr cur 0 in
   let! o := (match p with None => ret None | Some _ => argint cur 1 end) in
   match p, o with
   | Some path, Some omode => let! r := open devsw_read devsw_write end_ count0 depth cur path omode verify in ret_Z r
   | _, _ => ret_Z (-1)
   end).
Proof.
  apply ok_keeps. intros s r s' Hok R. next R Hok p. next R Hok m. destruct p as [path|], m as [omode|]; try rest R Hok.
  apply bind_inv in R as (x & s2 & R2 & R). apply (open_ok _ _ _ _ _ _ _ Hok) in R2. rest R R2.
Qed.

Lemma sys_iopen_keeps cur : keeps_fds cur (sys_iopen devsw_read devsw_write end_ cur).
Proof.
  apply ok_keeps. intros s r s' Hok R. unfold sys_iopen in R. next R Hok x. destruct x as [e|ip]; [rest R Hok|].
  apply bind_inv in R as (fd & s2 & R2 & R). apply (open_fd_ok _ _ _ _ _ _ _ Hok) in R2. rest R R2.
Qed.

Lemma syscalls_keep cur c : c ∈ syscalls devsw_read devsw_write end_ data_ trapret_ forkret_ count0 depth ticks cur -> keeps_fds cur c.
Proof.
  intros Hc. unfold syscalls in Hc. rewrite !elem_of_cons, elem_of_nil in Hc.
  destruct_or? Hc; subst; try done.
  - apply sys_fork_keeps.
  - apply sys_exit_keeps.
  - apply ok_keeps, wait_ok.
  - apply ok_keeps, sys_pipe_ok.
  - apply still_keeps. unfold sys_read. still_all.
  - apply sys_kill_keeps.
  - apply still_keeps. unfold sys_exec. still_all.
  - apply still_keeps. unfold sys_fstat. still_all.
  - apply still_keeps. unfold sys_chdir. still_all.
  - apply ok_keeps, sys_dup_ok.
  - apply still_keeps. unfold sys_getpid. still_all.
  - apply still_keeps. unfold sys_sbrk. still_all.
  - apply still_keeps. unfold sys_sleep. still_all.
  - apply still_keeps, still_ret.
  - apply open_call_keeps.
  - apply still_keeps. unfold sys_write, get_mem. still_all.
  - apply still_keeps. unfold sys_mknod, make. still_all.
  - apply still_keeps. unfold sys_unlink. still_all.
  - apply still_keeps. unfold sys_link. still_all.
  - apply still_keeps. unfold sys_mkdir, make. still_all.
  - apply ok_keeps, sys_close_ok.
  - apply sys_iopen_keeps.
  - apply ok_keeps, sys_ichecksum_ok.
  - apply still_keeps. unfold sys_duplicate. still_all.
  - apply open_call_keeps.
Qed.

Lemma set_result_keeps cur s r s' b : fd_ok [] s -> (r <> None -> live cur s) -> set_result cur r s = Ok b s' ->
  fd_ok [] s' /\ (b = true -> live cur s').
Proof.
  intros F Hl R. destruct r as [r|]; cbn [set_result] in R; [|injection R as <- <-; by split].
  assert (Hok : ok cur [] s) by (split; [done|by apply Hl]).
  assert (Hs : still (let! me := get_proc cur in in_vm (wrt (p_tf me + tf_eax) (u32 r)) ;;; ret true)) by still_all.
  destruct (still_ok _ _ _ _ _ _ Hs Hok R). by split.
Qed.

Lemma syscall_keeps cur s b s' : ok cur [] s ->
  syscall devsw_read devsw_write end_ data_ trapret_ forkret_ count0 depth ticks cur s = Ok b s' ->
  fd_ok [] s' /\ (b = true -> live cur s').
Proof.
  intros Hok R. unfold syscall, get_mem in R. next R Hok me. next R Hok m.
  destruct (if 0 <? _ then _ !! _ else None) as [c|] eqn:Hc.
  - assert (Hk : keeps_fds cur c) by (destruct (0 <? _); [eapply syscalls_keep, list_elem_of_lookup_2; exact Hc|done]).
    apply bind_inv in R as (r & s2 & R2 & R). destruct (Hk _ _ _ Hok R2) as [F Lv]. by eapply set_result_keeps.
  - destruct Hok as [F Lv]. by eapply set_result_keeps.
Qed.

Lemma trap_syscall_keeps cur tf s s' : ok cur [] s ->
  trap_syscall devsw_read devsw_write end_ data_ trapret_ forkret_ count0 depth ticks cur tf s = Ok tt s' -> fd_ok [] s'.
Proof.
  intros Hok R. unfold trap_syscall in R. next R Hok me. destruct (p_killed me); [by eapply exit_fds|].
  let u := fresh "u" in next R Hok u. apply bind_inv in R as (b & s2 & R2 & R). destruct (syscall_keeps _ _ _ _ Hok R2) as [F Lv].
  destruct b; cbn [negb] in R; [|by injection R as <-]. assert (Hok2 : ok cur [] s2) by (split; [done|by apply Lv]).
  next R Hok2 me2. destruct (p_killed me2); [by eapply exit_fds|]. injection R as <-. apply Hok2.
Qed.

(** ** The kernel *)

(** What happens: system calls of running processes, whatever their trap frames
    hold; the end of a process killed on its way back to user space; processes
    that fall asleep, are woken, yield and are scheduled; and what leaves
    processes and files alone, such as interrupts. *)
Inductive kstep : sys L -> sys L -> Prop :=
| ks_trap s s' cur tf : running s cur ->
    trap_syscall devsw_read devsw_write end_ data_ trapret_ forkret_ count0 depth ticks cur tf s = Ok tt s' -> kstep s s'
| ks_exit s s' cur : running s cur -> exit devsw_read end_ cur s = Ok tt s' -> kstep s s'
| ks_sleep s cur c : running s cur -> kstep s (set_ptable (sleep_table cur c (ptable s)) s)
| ks_woken s cur : running s cur -> kstep s (set_ptable (wake_table cur (ptable s)) s)
| ks_yield s cur : running s cur -> kstep s (set_ptable (yield_table cur (ptable s)) s)
| ks_wakeup s c : kstep s (set_ptable (wakeup1 c (ptable s)) s)
| ks_sched s k : kstep s (set_ptable (snd (scheduler_turn k (ptable s))) s)
| ks_kernel s s' : ptable s' = ptable s -> ftable (s_kern s') = ftable (s_kern s) -> kstep s s'.

Lemma running_ok s cur : running s cur -> fd_ok [] s -> ok cur [] s.
Proof. intros (me & Hme & Hr) F. split; [done|]. exists me. split; [done|]. intros [E|E]; congruence. Qed.

Lemma same_fds_step s t : same_fds (ptable s) t -> fd_ok [] s -> fd_ok [] (set_ptable t s).
Proof. intros E. apply still_fd_ok. by constructor. Qed.

Lemma same_fds_scheduler k t : same_fds t (snd (scheduler_turn k t)).
Proof.
  unfold scheduler_turn. destruct (t !! k) as [p|]; [|apply same_fds_refl]. case_decide; [|apply same_fds_refl].
  apply alter_keeps. intros q. split; [done|by intros []].
Qed.

Lemma kstep_keeps s s' : kstep s s' -> fd_ok [] s -> fd_ok [] s'.
Proof.
  intros St F. destruct St as [s s' cur tf Hr R|s s' cur Hr R|s cur c Hr|s cur Hr|s cur Hr|s c|s k|s s' E1 E2].
  - eapply trap_syscall_keeps; [by eapply running_ok|exact R].
  - eapply exit_fds; [by eapply running_ok|exact R].
  - apply same_fds_step; [|done]. apply alter_keeps. intros p. split; [done|by intros []].
  - apply same_fds_step; [|done]. apply alter_keeps. intros p. by split.
  - apply same_fds_step; [|done]. apply alter_keeps. intros p. split; [done|by intros []].
  - apply same_fds_step; [|done]. apply same_fds_wakeup1.
  - apply same_fds_step; [|done]. apply same_fds_scheduler.
  - eapply still_fd_ok; [|exact F]. constructor; [by rewrite E2|rewrite E1; apply same_fds_refl].
Qed.

(** No file is open, as after boot. *)
Definition none_open s : Prop :=
  Forall (fun ff => f_ref ff = 0 /\ f_type ff = FD_NONE) (ftable (s_kern s)) /\
  Forall (fun p => p_ofile p = replicate (Z.to_nat NOFILE) None) (ptable s).

Lemma none_open_ok s : none_open s -> fd_ok [] s.
Proof.
  intros [Hf Hp]. rewrite Forall_forall in Hf. rewrite Forall_forall in Hp.
  assert (E : fds (ptable s) = []).
  { unfold fds. induction (ptable s) as [|p t IH]; [done|]. cbn. rewrite IH by (intros q Hq; apply Hp; by right).
    unfold fds_of. rewrite Hp by (by left). done. }
  constructor.
  - rewrite E. constructor.
    + intros f ff Hff. by apply Hf, list_elem_of_lookup_2 with (i := f).
    + by intros f []%elem_of_nil.
    + intros f ff Hff _. eapply Hf, list_elem_of_lookup_2. exact Hff.
  - constructor; intros k p Hk; pose proof (Hp p (list_elem_of_lookup_2 _ _ _ Hk)) as Ho.
    + intros _. unfold no_fds. rewrite Ho. by apply Forall_replicate.
    + by rewrite Ho, length_replicate.
Qed.

(** C7: Descriptors and counts agree.  From boot on, whatever system calls processes
    make, with whatever arguments: the count of an open file is the number of
    descriptors of all processes that refer to it, a descriptor refers to an
    open file, every process has [NOFILE] descriptors, and the slots of ended
    and unborn processes have none. *)
Theorem descriptors_counted s0 s : none_open s0 -> rtc kstep s0 s ->
  (forall f ff, ftable (s_kern s) !! f = Some ff -> f_ref ff = handles f (fds (ptable s))) /\
  (forall cur me fd f, ptable s !! cur = Some me -> p_ofile me !! fd = Some (Some f) ->
     exists ff, ftable (s_kern s) !! f = Some ff /\ 0 < f_ref ff) /\
  (forall cur p, ptable s !! cur = Some p -> length (p_ofile p) = Z.to_nat NOFILE /\
     (p_state p = UNUSED \/ p_state p = ZOMBIE -> Forall (fun o => o = None) (p_ofile p))).
Proof.
  intros N Hr. apply none_open_ok in N. assert (F : fd_ok [] s).
  { induction Hr as [|x y z Hs _ IH]; [done|]. by apply IH, (kstep_keeps x). }
  destruct F as [[R1 R2 _] [T1 T2]]. cbn in R1, R2. split_and!; [done| |].
  - intros cur me fd f Hme Hfd. assert (Hin : f ∈ fds (ptable s)) by (eapply has_fd_in; by exists me).
    destruct (R2 f Hin) as [ff Hff]. exists ff. split; [done|]. rewrite (R1 f ff Hff). by apply handles_pos.
  - intros cur p Hp. split; [by eapply T2|]. by apply (T1 cur).
Qed.

End Descriptors.

(** ** The theorem, applied *)

Definition run_state {S A} (o : outcome S A) : S := match o with Ok _ s => s | Stop _ s => s end.
Definition returned {S A} (o : outcome S A) : bool := match o with Ok _ _ => true | Stop _ _ => false end.

Lemma returned_Ok {S} (o : outcome S unit) : returned o = true -> o = Ok tt (run_state o).
Proof. by destruct o as [[] s|]. Qed.

(** The memory of the first process: a page table that maps a page at 0 with the
    argument of [pipe], the address 16, and a trap frame for the call. *)
Definition demo_pgdir : Z := KERNBASE + 2097152.
Definition demo_frame : Z := demo_pgdir + 4 * PGSIZE.
Definition pipe_mem : memory :=
  foldr (fun '(a, v) m => write32 m a v) (kmem two_pages)
    [(demo_pgdir, 2097152 + PGSIZE + 7); (demo_pgdir + PGSIZE, 2097152 + 2 * PGSIZE + 7);
     (demo_pgdir + 2 * PGSIZE + 4, 16); (demo_frame + tf_eax, 4); (demo_frame + tf_esp, 0)].
Definition pipe_caller : proc :=
  Proc 4096 demo_pgdir 0 RUNNING 1 None 0 0 None false (replicate 16 None) (Some 0%nat) (replicate 16 0).
Definition pipe_before : sys logst :=
  Sys (no_files (rest_fs (power_on ∅)) (set_kmem pipe_mem two_pages) 3)
    [pipe_caller; demo_proc RUNNABLE 2 (Some 0%nat) None; demo_proc UNUSED 0 None None] 3 0.
Definition pipe_trap : outcome (sys logst) unit :=
  trap_syscall no_read no_write KERNLINK 0 0 0 0 0 0 0 demo_frame pipe_before.
Definition pipe_after : sys logst := run_state pipe_trap.

Lemma descriptors_counted_witness : exists ff, ftable (s_kern pipe_after) !! 1%nat = Some ff /\ 0 < f_ref ff.
Proof.
  assert (N : none_open pipe_before) by (split; repeat constructor).
  assert (R : rtc (kstep no_read no_write KERNLINK 0 0 0 0 0 0) pipe_before pipe_after).
  { apply rtc_once, (ks_trap _ _ _ _ _ _ _ _ _ _ _ 0 demo_frame); [by eexists|]. apply returned_Ok. vm_compute. reflexivity. }
  destruct (descriptors_counted no_read no_write KERNLINK 0 0 0 0 0 0 pipe_before pipe_after N R) as (_ & Hd & _).
  assert (Hfd : (ptable pipe_after !! 0%nat ≫= fun p => p_ofile p !! 1%nat) = Some (Some 1%nat)) by (vm_compute; reflexivity).
  destruct (ptable pipe_after !! 0%nat) as [me|] eqn:Hme; [|discriminate Hfd]. exact (Hd 0%nat me 1%nat 1%nat Hme Hfd).
Defined.
