(* ===== verification/Ulib.v ===== *)
(** * Ulib: the library of user programs (ulib.c, printf.c)

    A C string is the list of its bytes before the NUL and a pointer into it a
    suffix, so that the empty list is a pointer to the NUL.  What is written to a
    descriptor is the list of the bytes in order.  [printint] is also the
    kernel's, which differs in its digits. *)

From S2P Require Import Prelude.
Open Scope Z_scope.
Open Scope xv6_scope.

(** [*s]. *)
Definition deref (s : list Z) : Z := match s with [] => 0 | c :: _ => c end.

Fixpoint strchr (s : list Z) (c : Z) : option (list Z) :=
  match s with
  | [] => None
  | x :: s' => if x =? c then Some s else strchr s' c
  end.

Fixpoint strcmp (p q : list Z) : Z :=
  match p, q with
  | x :: p', y :: q' => if x =? y then strcmp p' q' else u8 x - u8 y
  | _, _ => u8 (deref p) - u8 (deref q)
  end.

(** [gets] with room for [n] bytes and the NUL, from what there is to read: the
    line, and what is left. *)
Fixpoint gets_line (n : nat) (input : list Z) : list Z * list Z :=
  match n, input with
  | S n, c :: input =>
      if (c =? 10) || (c =? 13) then ([c], input)
      else let (s, rest) := gets_line n input in (c :: s, rest)
  | _, _ => ([], input)
  end.

Definition isdigit (ch : Z) : bool := (48 <=? ch) && (ch <=? 57).
Definition isalpha (ch : Z) : bool := ((65 <=? ch) && (ch <=? 90)) || ((97 <=? ch) && (ch <=? 122)).

(** [int] wraps around, as the compiled code does. *)
Fixpoint atoi_loop (s : list Z) (n : Z) : Z :=
  match s with
  | c :: s => if isdigit c then atoi_loop s (i32 (n * 10 + c - 48)) else n
  | [] => n
  end.
Definition atoi (s : list Z) : Z := atoi_loop s 0.

Definition isnum (s : list Z) : bool := forallb isdigit s.
Definition isstr (s : list Z) : bool := existsb isalpha s.

(** [cmd_has_str] and [parse_cmd] over [cmd[1]] on. *)
Fixpoint cmd_has_str (cmd : list (list Z)) : Z :=
  match cmd with
  | [] => 0
  | s :: cmd =>
      if (deref s =? 45) && isalpha (deref (tl s)) then cmd_has_str cmd
      else (if isstr s then 1 else 0) + cmd_has_str cmd
  end.

Fixpoint parse_cmd (i : Z) (cmd : list (list Z)) (pattern : list Z) : Z :=
  match cmd with
  | [] => 0
  | s :: cmd => if strcmp s pattern =? 0 then i else parse_cmd (i + 1) cmd pattern
  end.

(** ** printf *)

Definition digits_upper : list Z := [48; 49; 50; 51; 52; 53; 54; 55; 56; 57; 65; 66; 67; 68; 69; 70].
Definition digits_lower : list Z := [48; 49; 50; 51; 52; 53; 54; 55; 56; 57; 97; 98; 99; 100; 101; 102].

(** [do { buf[i++] = digits[x % base]; } while((x /= base) != 0)]: at most 32
    turns, for a 32-bit [x]. *)
Fixpoint printint_loop (fuel : nat) (digits : list Z) (x base : Z) : list Z :=
  match fuel with
  | O => []
  | S fuel =>
      nth (Z.to_nat (x mod base)) digits 0 ::
      (if x / base =? 0 then [] else printint_loop fuel digits (x / base) base)
  end.

Definition printint (digits : list Z) (xx base : Z) (sgn : bool) : list Z :=
  let neg := sgn && (i32 xx <? 0) in
  let x := if neg then u32 (- i32 xx) else u32 xx in
  let buf := printint_loop 32 digits x base in
  rev (if neg then buf ++ [45] else buf).

(** The string at an address; null prints as "(null)". *)
Definition print_str (str : Z -> list Z) (s : Z) : list Z :=
  if s =? 0 then [40; 110; 117; 108; 108; 41] else str s.

(** What [printf] does at [c] after a ['%'] with the arguments [ap]: its output,
    and the arguments left.  There is no result when it reads an argument that
    was not passed. *)
Definition printf_arg (str : Z -> list Z) (c : Z) (ap : list Z) : option (list Z * list Z) :=
  if c =? 100 then match ap with a :: ap => Some (printint digits_upper a 10 true, ap) | [] => None end
  else if (c =? 120) || (c =? 112) then
    match ap with a :: ap => Some (printint digits_upper a 16 false, ap) | [] => None end
  else if c =? 115 then match ap with a :: ap => Some (print_str str a, ap) | [] => None end
  else if c =? 99 then match ap with a :: ap => Some ([u8 a], ap) | [] => None end
  else if c =? 37 then Some ([c], ap)
  else Some ([37; c], ap).

Fixpoint printf (str : Z -> list Z) (state : bool) (fmt : list Z) (ap : list Z) : option (list Z) :=
  match fmt with
  | [] => Some []
  | c :: fmt =>
      if state then
        '(out, ap) ← printf_arg str c ap;
        rest ← printf str false fmt ap;
        Some (out ++ rest)
      else if c =? 37 then printf str true fmt ap
      else rest ← printf str false fmt ap; Some (c :: rest)
  end.

(** ** Numbers *)

(** The value of digits, the least significant first. *)
Fixpoint digits_val (base : Z) (val : Z -> Z) (l : list Z) : Z :=
  match l with
  | [] => 0
  | d :: l => val d + base * digits_val base val l
  end.

(** The value of a digit of either table. *)
Definition digit_val (d : Z) : Z :=
  if isdigit d then d - 48 else if d <=? 70 then d - 55 else d - 87.

Lemma digit_val_nth digits k : digits = digits_upper \/ digits = digits_lower -> 0 <= k < 16 ->
  digit_val (nth (Z.to_nat k) digits 0) = k.
Proof.
  intros Hd Hk. assert (Hc : k ∈ seqZ 0 16) by (apply elem_of_seqZ; lia).
  assert (Ha : Forall (fun k => digit_val (nth (Z.to_nat k) digits 0) = k) (seqZ 0 16)).
  { destruct Hd as [-> | ->]; cbn; repeat constructor. }
  rewrite Forall_forall in Ha. by apply Ha.
Qed.

(** 32 turns are enough. *)
Lemma printint_loop_val digits base : digits = digits_upper \/ digits = digits_lower -> 2 <= base <= 16 ->
  forall fuel x, 0 <= x < 2 ^ Z.of_nat fuel -> (0 < fuel)%nat ->
  digits_val base digit_val (printint_loop fuel digits x base) = x.
Proof.
  intros Hd Hb. induction fuel as [|fuel IH]; intros x Hx Hf; [lia|]. cbn [printint_loop digits_val].
  pose proof (Z.mod_pos_bound x base ltac:(lia)) as Hm. pose proof (Z.div_mod x base ltac:(lia)) as Hdm.
  rewrite digit_val_nth by (done || lia). assert (0 <= x / base) by (apply Z.div_pos; lia).
  destruct (Z.eqb_spec (x / base) 0) as [E|E]; [cbn; nia|].
  assert (x / base < 2 ^ Z.of_nat fuel).
  { apply Z.div_lt_upper_bound; [lia|]. rewrite Nat2Z.inj_succ, Z.pow_succ_r in Hx by lia. nia. }
  rewrite IH; [lia|lia|]. destruct fuel; [cbn in *; lia|lia].
Qed.

Lemma printint_loop_digits digits base (P : Z -> Prop) : (forall k, 0 <= k < base -> P (nth (Z.to_nat k) digits 0)) -> 0 < base ->
  forall fuel x, Forall P (printint_loop fuel digits x base).
Proof.
  intros HP Hb. induction fuel as [|fuel IH]; intros x; cbn; constructor.
  - apply HP, Z.mod_pos_bound. lia.
  - destruct (x / base =? 0); [constructor|apply IH].
Qed.

(** The buffer of 16 bytes has room for the digits and the sign. *)
Lemma printint_loop_length digits base : 10 <= base -> forall fuel x n, 0 <= x < 10 ^ Z.of_nat n -> (0 < n)%nat ->
  (length (printint_loop fuel digits x base) <= n)%nat.
Proof.
  intros Hb. induction fuel as [|fuel IH]; intros x n Hx Hn; cbn; [lia|]. destruct n as [|n]; [lia|].
  destruct (Z.eqb_spec (x / base) 0) as [E|E]; cbn; [lia|]. apply le_n_S, IH.
  - split; [apply Z.div_pos; lia|]. apply Z.div_lt_upper_bound; [lia|]. rewrite Nat2Z.inj_succ, Z.pow_succ_r in Hx by lia.
    assert (0 <= 10 ^ Z.of_nat n) by lia. nia.
  - destruct n; [|lia]. exfalso. apply E. apply Z.div_small. rewrite Nat2Z.inj_succ, Z.pow_succ_r in Hx by lia. cbn in Hx. lia.
Qed.

Lemma printint_fits digits xx base sgn : 10 <= base -> (length (printint digits xx base sgn) <= 11)%nat.
Proof.
  intros Hb. assert (Hl : forall z, (length (printint_loop 32 digits (u32 z) base) <= 10)%nat).
  { intros z. apply printint_loop_length; [done| |lia]. unfold u32. pose proof (Z.mod_pos_bound z (2 ^ 32) ltac:(lia)).
    change (10 ^ Z.of_nat 10) with 10000000000. lia. }
  unfold printint. destruct (sgn && (i32 xx <? 0)); rewrite length_rev, ?length_app.
  - pose proof (Hl (- i32 xx)). cbn [length]. lia.
  - pose proof (Hl xx). lia.
Qed.

Lemma atoi_loop_app l1 l2 n : Forall (fun c => isdigit c = true) l1 -> atoi_loop (l1 ++ l2) n = atoi_loop l2 (atoi_loop l1 n).
Proof. intros H. revert n. induction H as [|c l Hc _ IH]; intros n; cbn; [done|]. rewrite Hc. apply IH. Qed.

Lemma atoi_rev_digits l : Forall (fun c => isdigit c = true) l -> digits_val 10 digit_val l < 2 ^ 31 ->
  atoi_loop (rev l) 0 = digits_val 10 digit_val l /\ 0 <= digits_val 10 digit_val l.
Proof.
  induction 1 as [|c l Hc Hl IH]; intros Hv; [done|]. cbn [rev digits_val] in *.
  assert (Hd : digit_val c = c - 48 /\ 0 <= digit_val c).
  { unfold digit_val, isdigit in *. rewrite Hc. lia. }
  destruct IH as [E Hp].
  { assert (forall m, Forall (fun c => isdigit c = true) m -> 0 <= digits_val 10 digit_val m) as Hnn.
    { induction 1 as [|d m Hdm _ IH']; cbn; [lia|]. unfold digit_val, isdigit in *. rewrite Hdm. lia. }
    pose proof (Hnn l Hl). lia. }
  rewrite atoi_loop_app by (by apply Forall_rev). cbn. rewrite Hc, E, i32_small; unfold is_i32; lia.
Qed.

(** [atoi] reads what [printf] prints with %d: a number that is not negative. *)
Lemma printint_atoi x : 0 <= x < 2 ^ 31 -> atoi (printint digits_upper x 10 true) = x.
Proof.
  intros Hx. unfold printint. rewrite i32_small by (unfold is_i32; lia). rewrite (proj2 (Z.ltb_ge x 0)) by lia. cbn [andb].
  assert (E : u32 x = x) by (unfold u32; apply Z.mod_small; lia). rewrite E.
  pose proof (printint_loop_val digits_upper 10 (or_introl eq_refl) ltac:(lia) 32 x ltac:(lia) ltac:(lia)) as Hv.
  assert (Hd : Forall (fun c => isdigit c = true) (printint_loop 32 digits_upper x 10)).
  { apply printint_loop_digits; [|lia]. intros k Hk. assert (Hc : k ∈ seqZ 0 10) by (apply elem_of_seqZ; lia).
    assert (Ha : Forall (fun k => isdigit (nth (Z.to_nat k) digits_upper 0) = true) (seqZ 0 10)) by (cbn; repeat constructor).
    rewrite Forall_forall in Ha. by apply Ha. }
  unfold atoi. destruct (atoi_rev_digits _ Hd) as [-> _]; [rewrite Hv; lia|done].
Qed.
