(* ===== verification/Grep.v ===== *)
(** * Grep: the pattern matcher and its buffer (grep.c)

    The matcher over strings as Ulib has them, and the loop over the input with
    its buffer of 1024 bytes.  The theorems give the matcher a meaning that does
    not mention how it searches, and show what the loop prints: the lines of a
    file that match, if they fit the buffer, and not the lines that [read]
    returns in pieces. *)

From S2P Require Import Prelude Ulib.
Open Scope Z_scope.
Open Scope xv6_scope.

(** [matchstar], with the call of [matchhere] on the rest of the pattern. *)
Fixpoint matchstar (matchhere_re : list Z -> bool) (c : Z) (text : list Z) : bool :=
  if matchhere_re text then true else
  match text with
  | x :: text => if (x =? c) || (c =? 46) then matchstar matchhere_re c text else false
  | [] => false
  end.

Fixpoint matchhere (re text : list Z) : bool :=
  match re with
  | [] => true
  | c :: re1 =>
      let plain :=
        if (c =? 36) && (deref re1 =? 0) then deref text =? 0 else
        match text with
        | x :: text => if (c =? 46) || (c =? x) then matchhere re1 text else false
        | [] => false
        end in
      match re1 with
      | s :: re2 => if s =? 42 then matchstar (matchhere re2) c text else plain
      | [] => plain
      end
  end.

(** The loop of [match] without ['^']. *)
Fixpoint match_any (re text : list Z) : bool :=
  if matchhere re text then true else
  match text with
  | [] => false
  | _ :: text => match_any re text
  end.

Definition match_re (re text : list Z) : bool :=
  if deref re =? 94 then matchhere (tl re) text else match_any re text.

(** [strchr(p, c)] in an array: the distance from [p]. *)
Fixpoint strchr_at (p : list Z) (c : Z) : option nat :=
  match p with
  | [] => None
  | x :: p => if x =? 0 then None else if x =? c then Some O else S <$> strchr_at p c
  end.

(** The inner loop of [grep] from [p] on: what is printed, and [p] at its end.  A
    turn consumes a byte at least. *)
Fixpoint grep_lines (fuel : nat) (pattern p : list Z) : option (list Z * list Z) :=
  match strchr_at p 10 with
  | None => Some ([], p)
  | Some q =>
      match fuel with
      | O => None
      | S fuel =>
          let line := take q p in
          '(out, p) ← grep_lines fuel pattern (drop (S q) p);
          Some ((if match_re pattern line then line ++ [10] else []) ++ out, p)
      end
  end.

Definition GREPBUF : nat := 1024.

(** [grep], with the [m] bytes in [buf], reading from [r]: [read r n] returns at
    most [n] bytes, and none at the end. *)
Fixpoint grep {R} (read : R -> nat -> list Z * R) (fuel : nat) (pattern buf : list Z) (r : R) : option (list Z) :=
  match fuel with
  | O => None
  | S fuel =>
      let (d, r) := read r (GREPBUF - length buf - 1)%nat in
      match d with
      | [] => Some []
      | _ =>
          let b := buf ++ d in
          '(out, p) ← grep_lines (length b) pattern b;
          rest ← grep read fuel pattern (if (length p =? length b)%nat then [] else p) r;
          Some (out ++ rest)
      end
  end.

(** Reading a file, and a pipe to which pieces are written one at a time. *)
Definition file_read (data : list Z) (n : nat) : list Z * list Z := (take n data, drop n data).
Definition pipe_read (pieces : list (list Z)) (n : nat) : list Z * list (list Z) :=
  match pieces with
  | [] => ([], [])
  | d :: ds => if (length d <=? n)%nat then (d, ds) else (take n d, drop n d :: ds)
  end.

(** ** The meaning of patterns *)

Inductive item :=
| One (c : Z)
| Star (c : Z)
| AtEnd.

Fixpoint parse (re : list Z) : list item :=
  match re with
  | [] => []
  | c :: re1 =>
      match re1 with
      | [] => [if c =? 36 then AtEnd else One c]
      | s :: re2 => if s =? 42 then Star c :: parse re2 else One c :: parse re1
      end
  end.

(** ['.'] stands for every character. *)
Definition stands (c x : Z) : Prop := c = 46 \/ c = x.

Inductive here : list item -> list Z -> Prop :=
| here_nil text : here [] text
| here_end items : here (AtEnd :: items) []
| here_one c x items text : stands c x -> here items text -> here (One c :: items) (x :: text)
| here_star c xs items text : Forall (stands c) xs -> here items text -> here (Star c :: items) (xs ++ text).

Lemma stands_b c x : (c =? 46) || (c =? x) = true <-> stands c x.
Proof. unfold stands. rewrite orb_true_iff, !Z.eqb_eq. done. Qed.

Lemma matchstar_spec (P : list Z -> Prop) mh c : forall text, (forall t, t `suffix_of` text -> mh t = true <-> P t) ->
  matchstar mh c text = true <-> exists xs t, text = xs ++ t /\ Forall (stands c) xs /\ P t.
Proof.
  induction text as [|x text IH]; intros Hm; cbn [matchstar].
  - pose proof (Hm [] (suffix_nil _)) as H0. destruct (mh []) eqn:E.
    + split; [|done]. intros _. exists [], []. split_and!; [done..|]. by apply H0.
    + split; [done|]. intros (xs & t & Ht & _ & HP). symmetry in Ht. apply app_eq_nil in Ht as [_ ->]. by apply H0.
  - pose proof (Hm (x :: text) ltac:(done)) as H0. assert (IH' := IH ltac:(intros t Ht; apply Hm; by apply suffix_cons_r)). clear IH.
    destruct (mh (x :: text)) eqn:E.
    + split; [|done]. intros _. exists [], (x :: text). split_and!; [done..|]. by apply H0.
    + rewrite orb_comm, (Z.eqb_sym x c). destruct ((c =? 46) || (c =? x)) eqn:Es.
      * apply stands_b in Es. rewrite IH'. split.
        -- intros (xs & t & -> & Hx & HP). exists (x :: xs), t. split_and!; [done|by constructor|done].
        -- intros (xs & t & Ht & Hx & HP). destruct xs as [|y xs]; [cbn in Ht; subst t; exfalso; apply H0 in HP; congruence|].
           injection Ht as <- ->. inversion Hx; subst. by exists xs, t.
      * split; [done|]. intros (xs & t & Ht & Hx & HP). destruct xs as [|y xs]; [cbn in Ht; subst t; apply H0 in HP; congruence|].
        injection Ht as <- ->. inversion Hx as [|? ? Hy]; subst. apply stands_b in Hy. congruence.
Qed.

Definition cstring (s : list Z) : Prop := Forall (fun c => c <> 0) s.

Lemma deref_nul s : cstring s -> (deref s =? 0) = true <-> s = [].
Proof. destruct 1 as [|c s Hc _]; cbn; [done|]. rewrite Z.eqb_eq. done. Qed.

Lemma here_star_inv c items text : here (Star c :: items) text <-> exists xs t, text = xs ++ t /\ Forall (stands c) xs /\ here items t.
Proof.
  split.
  - intros H. inversion H; subst. eauto.
  - intros (xs & t & -> & Hx & Ht). by constructor.
Qed.

Lemma matchhere_spec n : forall re text, (length re <= n)%nat -> cstring re -> cstring text ->
  matchhere re text = true <-> here (parse re) text.
Proof.
  induction n as [|n IH]; intros [|c re1] text Hn Hre Ht; cbn in Hn; try lia; [split; [constructor|done]..|].
  inversion Hre as [|? ? Hc Hre1]; subst.
  assert (Hplain : (match text with [] => false | x :: text => if (c =? 46) || (c =? x) then matchhere re1 text else false end) = true
    <-> here (One c :: parse re1) text).
  { destruct text as [|x text]; [split; [done|]; intros H; inversion H|]. inversion Ht; subst.
    destruct ((c =? 46) || (c =? x)) eqn:E.
    - apply stands_b in E. rewrite (IH re1 text) by (done || lia). split; [by constructor|]. intros H. by inversion H.
    - split; [done|]. intros H. inversion H as [| |? ? ? ? Hs|]; subst. apply stands_b in Hs. congruence. }
  destruct re1 as [|s re2]; cbn [matchhere parse].
  - cbn [deref]. destruct (c =? 36) eqn:Ec; cbn [andb]; [|exact Hplain]. change (0 =? 0) with true. cbv iota.
    rewrite (deref_nul text Ht). split; [intros ->; constructor|]. intros H. by inversion H.
  - inversion Hre1 as [|? ? Hs0 Hre2]; subst. destruct (s =? 42).
    + rewrite here_star_inv. rewrite (matchstar_spec (here (parse re2))); [done|]. intros t [l ->]. apply IH; [cbn in Hn; lia|done|].
      by apply Forall_app in Ht as [_ ?].
    + replace (deref (s :: re2) =? 0) with false by (cbn; by destruct (Z.eqb_spec s 0)). rewrite andb_false_r. exact Hplain.
Qed.

Lemma match_any_spec re text : cstring re -> cstring text ->
  match_any re text = true <-> exists pre t, text = pre ++ t /\ here (parse re) t.
Proof.
  intros Hre. induction text as [|x text IH]; intros Ht; cbn [match_any];
    pose proof (matchhere_spec _ re _ (Nat.le_refl _) Hre Ht) as Hm; destruct (matchhere re _).
  1, 3: (split; [|done]); intros _; eexists [], _; (split; [done|]); by apply Hm.
  - split; [done|]. intros (pre & t & E & Hh). symmetry in E. apply app_eq_nil in E as [_ ->]. by apply Hm.
  - inversion Ht; subst. rewrite IH by done. split.
    + intros (pre & t & -> & Hh). by exists (x :: pre), t.
    + intros (pre & t & E & Hh). destruct pre as [|y pre]; [cbn in E; subst t; by apply Hm in Hh|].
      injection E as <- ->. eauto.
Qed.

(** C37: [match] finds what the pattern means: a string matches if some part of it,
    or with ['^'] one at its beginning, is a character for each character of
    the pattern, any number of times for one with a ['*'], and at the end of
    the string for a last ['$']. *)
Theorem match_correct re text : cstring re -> cstring text ->
  match_re re text = true <->
  if decide (head re = Some 94) then here (parse (tail re)) text
  else exists pre t, text = pre ++ t /\ here (parse re) t.
Proof.
  intros Hre Ht. unfold match_re. case_decide as Hd; destruct re as [|c re]; cbn in Hd |- *; try done.
  - injection Hd as ->. inversion Hre; subst. by apply (matchhere_spec (length re)).
  - by apply match_any_spec.
  - destruct (Z.eqb_spec c 94) as [->|_]; [done|]. by apply match_any_spec.
Qed.

(** ** What is printed *)

(** The lines of a text, without their newlines, and what follows the last. *)
Fixpoint split_lines (s : list Z) : list (list Z) * list Z :=
  match s with
  | [] => ([], [])
  | c :: s =>
      let (ls, t) := split_lines s in
      if c =? 10 then ([] :: ls, t) else
      match ls with
      | [] => ([], c :: t)
      | l :: ls => ((c :: l) :: ls, t)
      end
  end.
Definition lines (s : list Z) : list (list Z) := fst (split_lines s).
Definition rest_line (s : list Z) : list Z := snd (split_lines s).

(** The lines that match, with their newlines. *)
Definition printed (pattern s : list Z) : list Z :=
  lines s ≫= fun l => if match_re pattern l then l ++ [10] else [].

Lemma strchr_at_none p c : c ∉ p -> strchr_at p c = None.
Proof.
  induction p as [|x p IH]; [done|]. rewrite not_elem_of_cons. intros [Hx Hp]. cbn. rewrite IH by done.
  destruct (x =? 0); [done|]. by rewrite (proj2 (Z.eqb_neq x c)).
Qed.

Lemma strchr_at_some l c s : cstring l -> c <> 0 -> c ∉ l -> strchr_at (l ++ c :: s) c = Some (length l).
Proof.
  intros Hl Hc. induction Hl as [|x l Hx Hl IH]; cbn.
  - intros _. by rewrite (proj2 (Z.eqb_neq c 0)), Z.eqb_refl.
  - rewrite not_elem_of_cons. intros [Hx' Hp]. rewrite IH by done. by rewrite (proj2 (Z.eqb_neq x 0)), (proj2 (Z.eqb_neq x c)).
Qed.

Lemma split_no_newline s : 10 ∉ s -> split_lines s = ([], s).
Proof.
  induction s as [|c s IH]; [done|]. rewrite not_elem_of_cons. intros [Hc Hs]. cbn. rewrite IH by done.
  by rewrite (proj2 (Z.eqb_neq c 10)).
Qed.

Lemma split_newline l s : 10 ∉ l -> split_lines (l ++ 10 :: s) = (l :: lines s, rest_line s).
Proof.
  unfold lines, rest_line. induction l as [|c l IH].
  - intros _. cbn. by destruct (split_lines s).
  - rewrite not_elem_of_cons. intros [Hc Hs]. cbn. rewrite IH by done. by rewrite (proj2 (Z.eqb_neq c 10)).
Qed.

Lemma printed_no_newline pattern s : 10 ∉ s -> printed pattern s = [].
Proof. intros Hs. unfold printed, lines. by rewrite split_no_newline. Qed.

Lemma printed_newline pattern l s : 10 ∉ l ->
  printed pattern (l ++ 10 :: s) = (if match_re pattern l then l ++ [10] else []) ++ printed pattern s.
Proof. intros Hl. unfold printed at 1, lines at 1. by rewrite split_newline. Qed.

(** Induction over the lines of a text. *)
Lemma lines_ind (P : list Z -> Prop) :
  (forall s, 10 ∉ s -> P s) -> (forall l s, 10 ∉ l -> P s -> P (l ++ 10 :: s)) -> forall s, P s.
Proof.
  intros H0 H1. assert (Hn : forall n s, (length s <= n)%nat -> P s).
  { induction n as [|n IH]; intros s Hs; [destruct s; [apply H0, not_elem_of_nil|cbn in Hs; lia]|].
    destruct (decide (10 ∈ s)) as [Hin|Hin]; [|by apply H0].
    apply list_elem_of_split_l in Hin as (l & s' & -> & Hl). apply H1; [done|]. apply IH. rewrite length_app in Hs. cbn in Hs. lia. }
  intros s. by apply (Hn (length s)).
Qed.

Lemma lines_app s t : lines (s ++ t) = lines s ++ lines (rest_line s ++ t).
Proof.
  revert s. apply lines_ind.
  - intros s Hs. unfold rest_line. rewrite split_no_newline by done. unfold lines at 2. by rewrite split_no_newline.
  - intros l s Hl IH. rewrite <- app_assoc, <- app_comm_cons. unfold lines at 1 2, rest_line. rewrite !split_newline by done. cbn. by rewrite IH.
Qed.

Lemma printed_app pattern s t : printed pattern (s ++ t) = printed pattern s ++ printed pattern (rest_line s ++ t).
Proof. unfold printed. by rewrite lines_app, bind_app. Qed.

Lemma rest_no_newline s : 10 ∉ rest_line s.
Proof.
  revert s. apply lines_ind.
  - intros s Hs. unfold rest_line. by rewrite split_no_newline.
  - intros l s Hl IH. unfold rest_line. by rewrite split_newline.
Qed.

Lemma grep_lines_spec pattern s : cstring s -> forall fuel, (length s <= fuel)%nat ->
  grep_lines fuel pattern s = Some (printed pattern s, rest_line s).
Proof.
  revert s. apply (lines_ind (fun s => cstring s -> forall fuel, (length s <= fuel)%nat -> _ = _)).
  - intros s Hs _ fuel _. unfold rest_line. rewrite printed_no_newline, split_no_newline by done.
    destruct fuel; cbn; by rewrite strchr_at_none.
  - intros l s Hl IH Hc fuel Hf. rewrite length_app in Hf. cbn in Hf. apply Forall_app in Hc as [Hcl Hcs]. inversion Hcs; subst.
    destruct fuel as [|fuel]; [lia|]. cbn [grep_lines]. rewrite strchr_at_some, take_app_length by done.
    rewrite drop_app_ge, Nat.sub_succ_l, Nat.sub_diag by lia. cbn [drop]. rewrite drop_0, IH by (done || lia). cbn.
    rewrite printed_newline by done. unfold rest_line at 2. by rewrite split_newline.
Qed.

(** ** The loop *)

Lemma rest_line_length s : 10 ∈ s -> (length (rest_line s) < length s)%nat.
Proof.
  revert s. apply (lines_ind (fun s => 10 ∈ s -> (_ < _)%nat)); [by intros s Hs []%Hs|]. intros l s Hl IH _. unfold rest_line. rewrite split_newline, length_app by done. cbn.
  destruct (decide (10 ∈ s)) as [Hs|Hs]; [specialize (IH Hs); lia|]. unfold rest_line. rewrite split_no_newline by done. cbn. lia.
Qed.

(** One turn on [b], the bytes kept and those just read. *)
Lemma grep_turn {R} (read : R -> nat -> list Z * R) fuel pattern buf r d r' :
  read r (GREPBUF - length buf - 1)%nat = (d, r') -> d <> [] -> cstring (buf ++ d) ->
  grep read (S fuel) pattern buf r =
    (rest ← grep read fuel pattern (if decide (10 ∈ buf ++ d) then rest_line (buf ++ d) else []) r';
     Some (printed pattern (buf ++ d) ++ rest)).
Proof.
  intros Hr Hd Hc. cbn [grep]. rewrite Hr. destruct d as [|x d]; [done|]. rewrite grep_lines_spec by done. cbn [mbind option_bind].
  case_decide as Hn.
  - rewrite (proj2 (Nat.eqb_neq _ _)); [done|]. apply rest_line_length in Hn. lia.
  - unfold rest_line. rewrite split_no_newline by done. cbn [snd]. by rewrite Nat.eqb_refl.
Qed.

Lemma first_line_in s t n : 10 ∈ s ++ t -> 10 ∉ s -> (forall l, l ∈ lines (s ++ t) -> (length l < length s + n)%nat) -> 10 ∈ take n t.
Proof.
  intros Hin Hs Hl. apply list_elem_of_split_l in Hin as (l & u & E & Hnl).
  assert (Hlen : (length l < length s + n)%nat).
  { apply Hl. unfold lines. rewrite E, split_newline by done. by left. }
  destruct (decide (length l < length s)%nat) as [Hlt|Hge].
  { exfalso. apply Hs. apply (f_equal (take (S (length l)))) in E. rewrite take_app_le in E by lia.
    rewrite take_app_ge, Nat.sub_succ_l, Nat.sub_diag in E by lia. cbn in E.
    rewrite <- (take_drop (S (length l)) s), E. apply elem_of_app. left. apply elem_of_app. right. by left. }
  apply (f_equal (drop (length s))) in E. rewrite drop_app_length, drop_app_le in E by lia.
  rewrite E, take_app_ge by (rewrite length_drop; lia). apply elem_of_app. right. rewrite length_drop.
  destruct (n - (length l - length s))%nat eqn:En; [lia|]. by left.
Qed.

Lemma rest_line_cstring s : cstring s -> cstring (rest_line s).
Proof.
  revert s. apply (lines_ind (fun s => cstring s -> cstring (rest_line s))).
  - intros s Hs Hc. unfold rest_line. by rewrite split_no_newline.
  - intros l s Hl IH Hc. unfold rest_line. rewrite split_newline by done. apply Forall_app in Hc as [_ Hc]. inversion Hc; subst. by apply IH.
Qed.

Lemma lines_rest_app (P : list Z -> Prop) s t : Forall P (lines (s ++ t)) -> Forall P (lines (rest_line s ++ t)).
Proof. rewrite lines_app. by intros [_ ?]%Forall_app. Qed.

Lemma grep_no_newline fuel pattern : forall buf data, 10 ∉ buf ++ data -> cstring (buf ++ data) -> (length data < fuel)%nat ->
  grep file_read fuel pattern buf data = Some [].
Proof.
  induction fuel as [|fuel IH]; intros buf data Hn Hc Hf; [lia|]. set (k := (GREPBUF - length buf - 1)%nat).
  destruct (take k data) as [|x d] eqn:Ed; [cbn [grep]; unfold file_read; fold k; by rewrite Ed|].
  assert (Hd : (length (drop k data) < length data)%nat).
  { rewrite <- (take_drop k data) at 2. rewrite length_app, Ed. cbn. lia. }
  rewrite <- (take_drop k data) in Hn, Hc. rewrite Ed, !elem_of_app in Hn. unfold cstring in Hc.
  rewrite Ed, !Forall_app in Hc.
  rewrite (grep_turn _ _ _ _ _ (x :: d) (drop k data)); [|unfold file_read; fold k; by rewrite Ed|done|].
  - rewrite decide_False by (rewrite elem_of_app; tauto). rewrite IH; [|cbn; tauto|cbn; tauto|lia]. cbn.
    rewrite printed_no_newline by (rewrite elem_of_app; tauto). done.
  - apply Forall_app. tauto.
Qed.

Lemma grep_file_lines pattern fuel : forall buf data, (length data < fuel)%nat -> 10 ∉ buf -> cstring (buf ++ data) ->
  Forall (fun l => (length l < GREPBUF - 1)%nat) (lines (buf ++ data)) -> (length buf < GREPBUF - 1)%nat ->
  grep file_read fuel pattern buf data = Some (printed pattern (buf ++ data)).
Proof.
  induction fuel as [|fuel IH]; intros buf data Hf Hb Hc Hl Hlen; [lia|]. set (k := (GREPBUF - length buf - 1)%nat).
  destruct (decide (10 ∈ buf ++ data)) as [Hin|Hin]; [|by rewrite grep_no_newline, printed_no_newline].
  assert (Hk : 10 ∈ take k data).
  { apply (first_line_in buf data k Hin Hb). intros l Hll. rewrite Forall_forall in Hl. specialize (Hl l Hll). lia. }
  assert (Hd : (length (drop k data) < length data)%nat).
  { rewrite <- (take_drop k data) at 2. rewrite length_app. destruct (take k data); [by apply elem_of_nil in Hk|cbn; lia]. }
  assert (Eb : buf ++ data = (buf ++ take k data) ++ drop k data) by (by rewrite <- app_assoc, take_drop).
  rewrite Eb in Hc, Hl |- *. set (b := buf ++ take k data) in *. apply Forall_app in Hc as [Hcb Hcd].
  assert (Hbn : 10 ∈ b) by (apply elem_of_app; by right).
  rewrite (grep_turn _ _ _ _ _ (take k data) (drop k data)); [|done|by intros E; rewrite E in Hk; apply elem_of_nil in Hk|done].
  fold b. rewrite decide_True by done. rewrite printed_app. rewrite IH; [done|lia|apply rest_no_newline| | |].
  - apply Forall_app. split; [|done]. by apply rest_line_cstring.
  - by apply lines_rest_app.
  - apply rest_line_length in Hbn. assert (length b <= GREPBUF - 1)%nat by (subst b k; rewrite length_app, length_take; lia). lia.
Qed.

(** [grep] on a file prints its lines that match, in order, if they fit the
    buffer with their newlines; it ends after no more turns than there are
    bytes. *)
Lemma grep_file_prints pattern data : cstring data -> Forall (fun l => (length l < GREPBUF - 1)%nat) (lines data) ->
  grep file_read (S (length data)) pattern [] data = Some (printed pattern data).
Proof. intros Hc Hl. apply grep_file_lines; [lia|apply not_elem_of_nil|done|done|cbn; unfold GREPBUF; lia]. Qed.

(** A piece without a newline is forgotten, though the line it begins comes with
    the next one. *)
Lemma grep_drops_partial pattern d ds fuel : d <> [] -> (length d < GREPBUF)%nat -> cstring d -> 10 ∉ d ->
  grep pipe_read (S fuel) pattern [] (d :: ds) = grep pipe_read fuel pattern [] ds.
Proof.
  intros Hd Hl Hc Hn. rewrite (grep_turn _ _ _ [] _ d ds); [|unfold pipe_read; by rewrite (proj2 (Nat.leb_le _ _)) by (unfold GREPBUF in *; cbn [length]; lia)|done|done].
  cbn [app]. rewrite decide_False, printed_no_newline by done. by destruct (grep _ _ _ _ _).
Qed.

(** "^a" does not find the line "ab" when it arrives in two pieces. *)
Lemma grep_misses_split_line : grep pipe_read 9 [94; 97] [] [[97]; [98; 10]] = Some [] /\
  grep pipe_read 9 [94; 97] [] [[97; 98; 10]] = Some [97; 98; 10].
Proof. by vm_compute. Qed.

Lemma match_correct_witness : here (parse [97; 42; 98]) [97; 97; 98].
Proof.
  apply (match_correct [94; 97; 42; 98] [97; 97; 98]); [repeat constructor; discriminate|repeat constructor; discriminate|].
  vm_compute. reflexivity.
Defined.

Lemma grep_file_prints_witness :
  grep file_read 7 [97; 36] [] [98; 97; 10; 97; 98; 10] = Some [98; 97; 10].
Proof.
  apply (grep_file_prints [97; 36] [98; 97; 10; 97; 98; 10]); [repeat constructor; discriminate|].
  vm_compute. repeat constructor.
Defined.
