(* ===== verification/Console.v ===== *)
(** * Console: keyboard, line editing and screen (console.c, kbd.c, uart.c)

    The keyboard driver's state machine, the console's input buffer with its
    three indices, which wrap around at 2^32, and the text screen.  The theorems
    show that the buffer implements a line discipline that knows nothing of
    indices, that what is typed on a line is what is read, and that the screen is
    only accessed within its memory. *)

From S2P Require Import Prelude Ulib.
Open Scope Z_scope.
Open Scope xv6_scope.

(** ** The keyboard *)

Definition SHIFT : Z := 1.
Definition CTL : Z := 2.
Definition ALT : Z := 4.
Definition CAPSLOCK : Z := 8.
Definition NUMLOCK : Z := 16.
Definition SCROLLLOCK : Z := 32.
Definition E0ESC : Z := 64.

(** An array with initialisers for some of its elements; the others are 0. *)
Definition table (front : list Z) (more : list (Z * Z)) (i : Z) : Z :=
  match list_find (fun e => fst e = i) more with
  | Some (_, e) => snd e
  | None => nth (Z.to_nat i) front 0
  end.

Definition shiftcode : Z -> Z := table [] [(29, CTL); (42, SHIFT); (54, SHIFT); (56, ALT); (157, CTL); (184, ALT)].
Definition togglecode : Z -> Z := table [] [(58, CAPSLOCK); (69, NUMLOCK); (70, SCROLLLOCK)].

(** The keys of the keypad and the cursor keys, with the codes that follow an
    escape. *)
Definition escaped (enter div : Z) : list (Z * Z) :=
  [(156, enter); (181, div); (200, 226); (208, 227); (201, 230); (209, 231); (203, 228); (205, 229); (151, 224); (207, 225);
   (210, 232); (211, 233)].

Definition normalmap : Z -> Z := table
  [0; 27; 49; 50; 51; 52; 53; 54;          55; 56; 57; 48; 45; 61; 8; 9;
   113; 119; 101; 114; 116; 121; 117; 105; 111; 112; 91; 93; 10; 0; 97; 115;
   100; 102; 103; 104; 106; 107; 108; 59;  39; 96; 0; 92; 122; 120; 99; 118;
   98; 110; 109; 44; 46; 47; 0; 42;        0; 32; 0; 0; 0; 0; 0; 0;
   0; 0; 0; 0; 0; 0; 0; 55;                56; 57; 45; 52; 53; 54; 43; 49;
   50; 51; 48; 46; 0; 0; 0; 0] (escaped 10 47).
Definition shiftmap : Z -> Z := table
  [0; 27; 33; 64; 35; 36; 37; 94;          38; 42; 40; 41; 95; 43; 8; 9;
   81; 87; 69; 82; 84; 89; 85; 73;         79; 80; 123; 125; 10; 0; 65; 83;
   68; 70; 71; 72; 74; 75; 76; 58;         34; 126; 0; 124; 90; 88; 67; 86;
   66; 78; 77; 60; 62; 63; 0; 42;          0; 32; 0; 0; 0; 0; 0; 0;
   0; 0; 0; 0; 0; 0; 0; 55;                56; 57; 45; 52; 53; 54; 43; 49;
   50; 51; 48; 46; 0; 0; 0; 0] (escaped 10 47).
Definition ctlmap : Z -> Z := table
  [0; 0; 0; 0; 0; 0; 0; 0;                 0; 0; 0; 0; 0; 0; 0; 0;
   17; 23; 5; 18; 20; 25; 21; 9;           15; 16; 0; 0; 13; 0; 1; 19;
   4; 6; 7; 8; 10; 11; 12; 0;              0; 0; 0; 28; 26; 24; 3; 22;
   2; 14; 13; 0; 0; 239; 0; 0] (escaped 13 239).

Definition charcode (shift : Z) : Z -> Z :=
  match Z.land shift (Z.lor CTL SHIFT) with
  | 0 => normalmap
  | 1 => shiftmap
  | _ => ctlmap
  end.

(** [kbdgetc] with the state [shift] of the modifiers, the status [st] and the
    byte [data] of the controller: the new state and the result. *)
Definition kbdgetc (shift st data : Z) : Z * Z :=
  if Z.land st 1 =? 0 then (shift, -1) else
  if data =? 224 then (Z.lor shift E0ESC, 0) else
  if negb (Z.land data 128 =? 0) then
    let data := if negb (Z.land shift E0ESC =? 0) then data else Z.land data 127 in
    (Z.land shift (Z.lnot (Z.lor (shiftcode data) E0ESC)), 0)
  else
    let '(data, shift) :=
      if negb (Z.land shift E0ESC =? 0) then (Z.lor data 128, Z.land shift (Z.lnot E0ESC)) else (data, shift) in
    let shift := Z.lxor (Z.lor shift (shiftcode data)) (togglecode data) in
    let c := charcode shift data in
    let c :=
      if negb (Z.land shift CAPSLOCK =? 0) then
        if (97 <=? c) && (c <=? 122) then u32 (c + (65 - 97))
        else if (65 <=? c) && (c <=? 90) then c + (97 - 65)
        else c
      else c in
    (shift, c).

(** ** The console *)

Definition INPUT_BUF : Z := 128.
Definition BACKSPACE : Z := 256.
(** Control-x. *)
Definition ctrl (x : Z) : Z := x - 64.

Record input := Input { buf : list Z; rd : Z; wr : Z; ed : Z }.

(** The console: the input buffer; whether the kernel has panicked; the text
    memory and the cursor; whether there is a serial port, and what was sent
    to it; and the number of calls of [wakeup(&input.r)]. *)
Record cons := Cons { inp : input; panicked : bool; crt : list Z; cursor : Z; uart : bool; sent : list Z; wakeups : nat }.

Definition set_inp (i : input) (s : cons) : cons := Cons i (panicked s) (crt s) (cursor s) (uart s) (sent s) (wakeups s).
Definition set_screen (m : list Z) (p : Z) (s : cons) : cons := Cons (inp s) (panicked s) m p (uart s) (sent s) (wakeups s).

(** A cell of the text memory, and [crt[pos] = v]. *)
Definition crt_put (pos v : Z) (m : list Z) : option (list Z) :=
  if (0 <=? pos) && (pos <? Z.of_nat (length m)) then Some (<[Z.to_nat pos := v]> m) else None.

(** The scroll of [cgaputc]: 23 lines move up, the rest is cleared. *)
Definition scroll (m : list Z) (pos : Z) : option (list Z) :=
  let pos := pos - 80 in
  let m := take (23 * 80) (drop 80 m) ++ drop (23 * 80) m in
  if (0 <=? pos) && (pos <=? 24 * 80) && (24 * 80 <=? Z.of_nat (length m)) then
    Some (take (Z.to_nat pos) m ++ replicate (Z.to_nat (24 * 80 - pos)) 0 ++ drop (24 * 80) m)
  else None.

(** [cgaputc]; the cursor is kept in two bytes of the controller. *)
Definition cga (c : Z) (m : list Z) (pos : Z) : option (list Z * Z) :=
  '(m, pos) ← (if c =? 10 then Some (m, pos + (80 - pos mod 80))
               else if c =? BACKSPACE then Some (m, if 0 <? pos then pos - 1 else pos)
               else m ← crt_put pos (Z.lor (Z.land c 255) 1792) m; Some (m, pos + 1));
  '(m, pos) ← (if 24 <=? pos / 80 then m ← scroll m pos; Some (m, pos - 80) else Some (m, pos));
  m ← crt_put pos (Z.lor 32 1792) m;
  Some (m, Z.lor (Z.shiftl (u8 (Z.shiftr pos 8)) 8) (u8 pos)).

Definition cgaputc (c : Z) : M cons unit :=
  let! s := gets id in
  let! mp := of_option (Undefined "text memory") (cga c (crt s) (cursor s)) in
  modify (set_screen (fst mp) (snd mp)).

(** [uartputc]; it waits a bounded time for the port. *)
Definition uartputc (c : Z) : M cons unit :=
  modify (fun s => if uart s then Cons (inp s) (panicked s) (crt s) (cursor s) true (sent s ++ [u8 c]) (wakeups s) else s).

(** [uartgetc], with the line status and the byte received. *)
Definition uartgetc (uart : bool) (status data : Z) : Z :=
  if negb uart then -1 else if Z.land status 1 =? 0 then -1 else data.

Definition consputc (c : Z) : M cons unit :=
  let! s := gets id in
  if panicked s then halt Spin else
  (if c =? BACKSPACE then uartputc 8 ;;; uartputc 32 ;;; uartputc 8 else uartputc c) ;;;
  cgaputc c.

(** [input.buf[i % INPUT_BUF]]. *)
Definition slot (i : Z) : nat := Z.to_nat (i mod INPUT_BUF).
Definition get_byte (i : Z) (s : input) : Z := nth (slot i) (buf s) 0.
Definition set_ed (e : Z) (s : input) : input := Input (buf s) (rd s) (wr s) e.

(** The loop of control-U: no more turns than the buffer has bytes. *)
Fixpoint kill_line (fuel : nat) : M cons unit :=
  let! s := gets id in
  let i := inp s in
  if negb (ed i =? wr i) && negb (get_byte (u32 (ed i - 1)) i =? 10) then
    match fuel with
    | O => halt OutOfFuel
    | S fuel =>
        modify (set_inp (set_ed (u32 (ed i - 1)) i)) ;;;
        consputc BACKSPACE ;;;
        kill_line fuel
    end
  else ret tt.

(** A turn of the loop of [consoleintr]. *)
Definition console_key (c : Z) : M cons unit :=
  if c =? ctrl 80 then ret tt
  else if c =? ctrl 85 then kill_line (Z.to_nat INPUT_BUF)
  else if (c =? ctrl 72) || (c =? 127) then
    let! s := gets id in
    let i := inp s in
    if negb (ed i =? wr i) then modify (set_inp (set_ed (u32 (ed i - 1)) i)) ;;; consputc BACKSPACE else ret tt
  else
    let! s := gets id in
    let i := inp s in
    if negb (c =? 0) && (u32 (ed i - rd i) <? INPUT_BUF) then
      let c := if c =? 13 then 10 else c in
      modify (set_inp (Input (<[slot (ed i) := u8 c]> (buf i)) (rd i) (wr i) (u32 (ed i + 1)))) ;;;
      consputc c ;;;
      let! s := gets id in
      let i := inp s in
      if (c =? 10) || (c =? ctrl 68) || (ed i =? u32 (rd i + INPUT_BUF)) then
        modify (fun s => Cons (Input (buf i) (rd i) (ed i) (ed i)) (panicked s) (crt s) (cursor s) (uart s) (sent s) (S (wakeups s)))
      else ret tt
    else ret tt.

(** [consoleintr], with the bytes [getc] returns until a negative one. *)
Definition consoleintr (cs : list Z) : M cons unit := for_each cs console_key.

(** How a turn at reading ends: it returns, with the bytes stored, or it sleeps on
    [&input.r] with [n] bytes to go. *)
Inductive reading := Returns (r : Z) (dst : list Z) | Sleeps (n : nat) (dst : list Z).

(** [consoleread] of [target] bytes, [n] of them to go and [dst] stored, until it
    returns or sleeps; it goes on from there when it is woken.  The locks of the
    inode it releases meanwhile are not part of the console. *)
Fixpoint consoleread (killed : bool) (target n : nat) (dst : list Z) (s : input) : reading * input :=
  match n with
  | O => (Returns (Z.of_nat (target - n)) dst, s)
  | S n' =>
      if rd s =? wr s then
        if killed then (Returns (-1) dst, s) else (Sleeps n dst, s)
      else
        let c := get_byte (rd s) s in
        let s1 := Input (buf s) (u32 (rd s + 1)) (wr s) (ed s) in
        if c =? ctrl 68 then
          (Returns (Z.of_nat (target - n)) dst, if (n <? target)%nat then s else s1)
        else if c =? 10 then (Returns (Z.of_nat (target - n')) (dst ++ [c]), s1)
        else consoleread killed target n' (dst ++ [c]) s1
  end.

Definition consolewrite (bs : list Z) : M cons Z :=
  for_each bs (fun b => consputc (Z.land b 255)) ;;;
  ret (Z.of_nat (length bs)).

(** ** Kernel messages *)

(** The kernel's [printint]. *)
Definition kprintint (xx base : Z) (sign : bool) : list Z :=
  let sign := sign && (i32 xx <? 0) in
  let x := if sign then u32 (- i32 xx) else u32 xx in
  let buf := printint_loop 32 digits_lower x base in
  rev (if sign then buf ++ [45] else buf).

(** What [cprintf] prints; there is no result when it reads an argument that was
    not passed. *)
Fixpoint cprintf_bytes (str : Z -> list Z) (fmt ap : list Z) : option (list Z) :=
  match fmt with
  | [] => Some []
  | c :: fmt =>
      if negb (c =? 37) then rest ← cprintf_bytes str fmt ap; Some (c :: rest) else
      match fmt with
      | [] => Some []
      | c :: fmt =>
          '(out, ap) ← (if c =? 100 then match ap with a :: ap => Some (kprintint a 10 true, ap) | [] => None end
                        else if (c =? 120) || (c =? 112) then
                          match ap with a :: ap => Some (kprintint a 16 false, ap) | [] => None end
                        else if c =? 115 then match ap with a :: ap => Some (print_str str a, ap) | [] => None end
                        else if c =? 37 then Some ([37], ap)
                        else Some ([37; c], ap));
          rest ← cprintf_bytes str fmt ap;
          Some (out ++ rest)
      end
  end.

Definition cprintf (str : Z -> list Z) (fmt ap : list Z) : M cons unit :=
  let! bs := of_option (Undefined "cprintf") (cprintf_bytes str fmt ap) in
  for_each bs consputc.

(** [panic]: it prints the message, which is a format, and where it was called
    from; then every processor that prints spins. *)
Definition panic_msg (str : Z -> list Z) (id : Z) (msg pcs : list Z) : M cons unit :=
  cprintf str [99; 112; 117; 37; 100; 58; 32; 112; 97; 110; 105; 99; 58; 32] [id] ;;;
  cprintf str msg [] ;;;
  cprintf str [10] [] ;;;
  for_each pcs (fun pc => cprintf str [32; 37; 112] [pc]) ;;;
  modify (fun s => Cons (inp s) true (crt s) (cursor s) (uart s) (sent s) (wakeups s)) ;;;
  halt Spin.

(** ** The screen *)

Definition SCREEN : nat := 2000.

Definition screen_ok (s : cons) : Prop :=
  length (crt s) = SCREEN /\ 0 <= cursor s < 24 * 80 /\ panicked s = false.

Lemma crt_put_Some pos v m : 0 <= pos < Z.of_nat (length m) -> crt_put pos v m = Some (<[Z.to_nat pos := v]> m).
Proof. intros Hp. unfold crt_put. by rewrite (proj2 (Z.leb_le _ _)), (proj2 (Z.ltb_lt _ _)) by lia. Qed.

Lemma cursor_bytes pos : 0 <= pos < 65536 -> Z.lor (Z.shiftl (u8 (Z.shiftr pos 8)) 8) (u8 pos) = pos.
Proof.
  intros Hp. unfold u8. rewrite (Z.mod_small (Z.shiftr pos 8)) by (rewrite Z.shiftr_div_pow2 by lia; Z.div_mod_to_equations; lia).
  apply Z.bits_inj'. intros n Hn. rewrite Z.lor_spec.
  destruct (Z.lt_ge_cases n 8).
  - rewrite Z.shiftl_spec_low, Z.mod_pow2_bits_low by lia. done.
  - rewrite Z.mod_pow2_bits_high, orb_false_r, Z.shiftl_spec, Z.shiftr_spec by lia. f_equal. lia.
Qed.

Lemma scroll_spec m pos : length m = SCREEN -> pos = 24 * 80 ->
  exists m', scroll m pos = Some m' /\ length m' = SCREEN /\
    (forall i, (i < 23 * 80)%nat -> m' !! i = m !! (i + 80)%nat) /\ (forall i, (23 * 80 <= i < 24 * 80)%nat -> m' !! i = Some 0).
Proof.
  intros Hm ->. unfold SCREEN in *. unfold scroll. change (24 * 80 - 80) with 1840. cbn zeta.
  set (m1 := take (23 * 80) (drop 80 m) ++ drop (23 * 80) m).
  assert (H1 : length m1 = 2000%nat) by (subst m1; rewrite length_app, length_take, !length_drop; lia).
  rewrite H1. change ((0 <=? 1840) && (1840 <=? 24 * 80) && (24 * 80 <=? Z.of_nat 2000)) with true. cbv iota.
  eexists. split; [done|]. change (Z.to_nat 1840) with 1840%nat. change (Z.to_nat (24 * 80 - 1840)) with 80%nat.
  assert (Ht : length (take 1840 m1) = 1840%nat) by (rewrite length_take; lia). split_and!.
  - rewrite !length_app, Ht, length_replicate, length_drop. lia.
  - intros i Hi. rewrite lookup_app_l by lia. rewrite lookup_take_lt by lia. subst m1.
    rewrite lookup_app_l by (rewrite length_take, length_drop; lia). rewrite lookup_take_lt, lookup_drop by lia. f_equal. lia.
  - intros i Hi. rewrite lookup_app_r by lia. rewrite lookup_app_l by (rewrite length_replicate; lia).
    apply lookup_replicate. split; [done|lia].
Qed.

(** What a character does to the cells and the cursor, before scrolling. *)
Definition typed (c : Z) (m : list Z) (pos : Z) : list Z * Z :=
  if c =? 10 then (m, pos + (80 - pos mod 80))
  else if c =? BACKSPACE then (m, Z.max 0 (pos - 1))
  else (<[Z.to_nat pos := Z.lor (Z.land c 255) 1792]> m, pos + 1).

Lemma typed_ok c m pos : length m = SCREEN -> 0 <= pos < 24 * 80 ->
  length (fst (typed c m pos)) = SCREEN /\ 0 <= snd (typed c m pos) <= 24 * 80.
Proof.
  intros Hm Hp. unfold typed. destruct (c =? 10); cbn.
  - split; [done|]. Z.div_mod_to_equations; lia.
  - destruct (c =? BACKSPACE); cbn; [split; [done|lia]|]. rewrite length_insert. split; [done|lia].
Qed.

(** Whatever is printed, all cells written lie in the text
    memory and the cursor stays in the first 24 lines; a character appears at the
    cursor, and when the last line is full every line moves up by one. *)
Lemma cga_spec c m pos : length m = SCREEN -> 0 <= pos < 24 * 80 ->
  let '(m1, pos1) := typed c m pos in
  exists m' pos', cga c m pos = Some (m', pos') /\ length m' = SCREEN /\ 0 <= pos' < 24 * 80 /\
    (pos1 < 24 * 80 -> pos' = pos1 /\ m' = <[Z.to_nat pos1 := 1824]> m1) /\
    (24 * 80 <= pos1 -> pos' = pos1 - 80 /\ (forall i, (i < 23 * 80)%nat -> m' !! i = m1 !! (i + 80)%nat) /\
       forall i, (23 * 80 < i < 24 * 80)%nat -> m' !! i = Some 0).
Proof.
  intros Hm Hp. pose proof (typed_ok c m pos Hm Hp) as Ht. destruct (typed c m pos) as [m1 pos1] eqn:E. cbn in Ht. destruct Ht as [Hl H1].
  assert (E1 : cga c m pos = ('(m, pos) ← (if 24 <=? pos1 / 80 then m ← scroll m1 pos1; Some (m, pos1 - 80) else Some (m1, pos1));
    m ← crt_put pos (Z.lor 32 1792) m; Some (m, Z.lor (Z.shiftl (u8 (Z.shiftr pos 8)) 8) (u8 pos)))).
  { unfold cga, typed in *. destruct (c =? 10); [by injection E as <- <-|]. destruct (c =? BACKSPACE).
    - injection E as <- <-. destruct (Z.ltb_spec 0 pos); cbn [mbind option_bind]; do 2 f_equal; rewrite ?Z.max_r, ?Z.max_l by lia; done || (by replace pos with 0 by lia).
    - rewrite crt_put_Some by (unfold SCREEN in *; lia). by injection E as <- <-. }
  rewrite E1. clear E1 E. destruct (Z.leb_spec 24 (pos1 / 80)) as [Hs|Hs].
  - assert (pos1 = 24 * 80) as -> by (Z.div_mod_to_equations; lia).
    destruct (scroll_spec m1 _ Hl eq_refl) as (m2 & -> & Hl2 & Hr & Hz). cbn [mbind option_bind].
    rewrite crt_put_Some by (unfold SCREEN in *; lia). cbn [mbind option_bind]. rewrite cursor_bytes by lia.
    eexists _, _. split; [done|]. rewrite length_insert. split_and!; [done|lia|lia|lia|]. intros _. split_and!; [done| |].
    + intros i Hi. rewrite list_lookup_insert_ne by lia. by apply Hr.
    + intros i Hi. rewrite list_lookup_insert_ne by lia. apply Hz. lia.
  - assert (pos1 < 24 * 80) by (Z.div_mod_to_equations; lia). cbn [mbind option_bind].
    rewrite crt_put_Some by (unfold SCREEN in *; lia). cbn [mbind option_bind]. rewrite cursor_bytes by lia.
    eexists _, _. split; [done|]. rewrite length_insert. split_and!; [done|lia|lia|done|lia].
Qed.

Lemma cgaputc_ok c s : screen_ok s -> exists s', cgaputc c s = Ok tt s' /\ screen_ok s' /\ inp s' = inp s /\
  wakeups s' = wakeups s /\ uart s' = uart s /\ sent s' = sent s.
Proof.
  intros (Hl & Hc & Hp). pose proof (cga_spec c _ _ Hl Hc) as Hs. destruct (typed c (crt s) (cursor s)) as [m1 pos1].
  destruct Hs as (m' & pos' & E & Hl' & Hp' & _). unfold cgaputc, bind, gets. cbn. rewrite E. eexists. by split.
Qed.

(** What is sent to the serial port for a character. *)
Definition wire (c : Z) : list Z := if c =? BACKSPACE then [8; 32; 8] else [u8 c].

Lemma consputc_ok c s : screen_ok s -> exists s', consputc c s = Ok tt s' /\ screen_ok s' /\ inp s' = inp s /\
  wakeups s' = wakeups s /\ uart s' = uart s /\ (uart s = true -> sent s' = sent s ++ wire c).
Proof.
  intros Hs. pose proof Hs as (_ & _ & Hp). unfold consputc, bind at 1, gets. cbn [id]. rewrite Hp. cbv iota.
  assert (Hu : exists s1, (if c =? BACKSPACE then uartputc 8 ;;; uartputc 32 ;;; uartputc 8 else uartputc c) s = Ok tt s1 /\
    screen_ok s1 /\ inp s1 = inp s /\ wakeups s1 = wakeups s /\ uart s1 = uart s /\ (uart s = true -> sent s1 = sent s ++ wire c)).
  { unfold wire. destruct (c =? BACKSPACE); unfold uartputc, bind, modify; destruct (uart s) eqn:Eu; cbn; eexists;
      (split; [done|]); cbn; rewrite ?Eu, <- ?app_assoc; try done. }
  destruct Hu as (s1 & R1 & Hs1 & Hi & Hw & Hu & Ht). rewrite (bind_Ok _ _ _ _ _ R1).
  destruct (cgaputc_ok c s1 Hs1) as (s2 & R2 & Hs2 & Hi2 & Hw2 & Hu2 & Ht2). exists s2.
  split_and!; [done|done|congruence..|]. intros E. rewrite Ht2. by apply Ht.
Qed.

(** ** The line discipline *)

(** The lines that can be read, and the one being typed. *)
Record line := Line { committed : list Z; edit : list Z }.

Definition line_key (c : Z) (l : line) : line :=
  if c =? ctrl 80 then l
  else if c =? ctrl 85 then Line (committed l) []
  else if (c =? ctrl 72) || (c =? 127) then Line (committed l) (removelast (edit l))
  else if negb (c =? 0) && (Z.of_nat (length (committed l ++ edit l)) <? INPUT_BUF) then
    let c := if c =? 13 then 10 else c in
    let edit' := edit l ++ [c] in
    if (c =? 10) || (c =? ctrl 68) || (Z.of_nat (length (committed l ++ edit')) =? INPUT_BUF)
    then Line (committed l ++ edit') []
    else Line (committed l) edit'
  else l.

(** Reading takes a line, or what there is of it, or nothing at a control-D. *)
Fixpoint line_read (killed : bool) (target n : nat) (dst : list Z) (cs : list Z) : reading * list Z :=
  match n, cs with
  | O, _ => (Returns (Z.of_nat target) dst, cs)
  | S _, [] => (if killed then Returns (-1) dst else Sleeps n dst, [])
  | S n', c :: cs' =>
      if c =? ctrl 68 then (Returns (Z.of_nat (target - n)) dst, if (n <? target)%nat then cs else cs')
      else if c =? 10 then (Returns (Z.of_nat (target - n')) (dst ++ [c]), cs')
      else line_read killed target n' (dst ++ [c]) cs'
  end.

(** The buffer holds the bytes from [rd] on; [wr] and [ed] are the ends of the two
    parts. *)
Record holds (s : input) (l : line) : Prop := {
  ho_len : length (buf s) = Z.to_nat INPUT_BUF;
  ho_rd : is_u32 (rd s);
  ho_wr : wr s = u32 (rd s + Z.of_nat (length (committed l)));
  ho_ed : ed s = u32 (rd s + Z.of_nat (length (committed l ++ edit l)));
  ho_fits : Z.of_nat (length (committed l ++ edit l)) <= INPUT_BUF;
  ho_bytes : forall i c, (committed l ++ edit l) !! i = Some c -> buf s !! slot (rd s + Z.of_nat i) = Some c
}.

Lemma input_slot_u32 z : slot (u32 z) = slot z.
Proof.
  unfold slot, u32, INPUT_BUF. rewrite Z.mod_mod_divide; [done|]. exists (2 ^ 25). lia.
Qed.

Lemma slot_lt z : (slot z < Z.to_nat INPUT_BUF)%nat.
Proof. unfold slot, INPUT_BUF. pose proof (Z.mod_pos_bound z 128 ltac:(lia)). lia. Qed.

Lemma slot_inj a i j : 0 <= i < INPUT_BUF -> 0 <= j < INPUT_BUF -> slot (a + i) = slot (a + j) -> i = j.
Proof.
  unfold slot, INPUT_BUF. intros Hi Hj E. pose proof (Z.mod_pos_bound (a + i) 128 ltac:(lia)).
  pose proof (Z.mod_pos_bound (a + j) 128 ltac:(lia)). assert (E' : (a + i) mod 128 = (a + j) mod 128) by lia.
  Z.div_mod_to_equations; lia.
Qed.

Lemma u32_eq_add a i j : 0 <= i < 2 ^ 32 -> 0 <= j < 2 ^ 32 -> u32 (a + i) = u32 (a + j) -> i = j.
Proof. unfold u32. intros. Z.div_mod_to_equations; lia. Qed.

Lemma u32_sub_add a i : 0 <= i < 2 ^ 32 -> is_u32 a -> u32 (u32 (a + i) - a) = i.
Proof. unfold u32, is_u32. intros. Z.div_mod_to_equations; lia. Qed.

Lemma u32_add_pred a n : u32 (u32 (a + (n + 1)) - 1) = u32 (a + n).
Proof. unfold u32. rewrite Zminus_mod_idemp_l. f_equal. lia. Qed.

Lemma u32_add_succ a n : u32 (u32 (a + n) + 1) = u32 (a + (n + 1)).
Proof. unfold u32. rewrite Zplus_mod_idemp_l. f_equal. lia. Qed.

Lemma holds_edit_nil i l : holds i l -> (ed i =? wr i) = true <-> edit l = [].
Proof.
  intros [_ Hr Hw He Hf _]. rewrite Z.eqb_eq, Hw, He, length_app. rewrite length_app in Hf. split.
  - intros E%u32_eq_add; [|unfold INPUT_BUF in *; lia..]. apply nil_length_inv. lia.
  - intros ->. cbn. do 2 f_equal. lia.
Qed.

Lemma holds_erase i cm e x : holds i (Line cm (e ++ [x])) -> holds (set_ed (u32 (ed i - 1)) i) (Line cm e).
Proof.
  intros [Hl Hr Hw He Hf Hb]. cbn in *. rewrite app_assoc, length_app in He, Hf. cbn in He, Hf.
  constructor; cbn; try done.
  - rewrite He. replace (Z.of_nat (length (cm ++ e) + 1)) with (Z.of_nat (length (cm ++ e)) + 1) by lia. apply u32_add_pred.
  - lia.
  - intros j c Hj. apply Hb. rewrite app_assoc. by apply lookup_app_l_Some.
Qed.

Lemma holds_last i cm e x : holds i (Line cm (e ++ [x])) -> get_byte (u32 (ed i - 1)) i = x.
Proof.
  intros [Hl Hr Hw He Hf Hb]. cbn in *. rewrite app_assoc, length_app in He. cbn in He. unfold get_byte.
  replace (Z.of_nat (length (cm ++ e) + 1)) with (Z.of_nat (length (cm ++ e)) + 1) in He by lia.
  rewrite He, u32_add_pred, input_slot_u32. apply nth_lookup_Some, Hb. rewrite app_assoc, lookup_app_r, Nat.sub_diag by done. done.
Qed.

Lemma holds_push i l c : holds i l -> Z.of_nat (length (committed l ++ edit l)) < INPUT_BUF ->
  holds (Input (<[slot (ed i) := c]> (buf i)) (rd i) (wr i) (u32 (ed i + 1))) (Line (committed l) (edit l ++ [c])).
Proof.
  intros [Hl Hr Hw He Hf Hb] Hlt. constructor; cbn; rewrite ?app_assoc, ?(length_app (committed l ++ edit l)); cbn; try done.
  - by rewrite length_insert.
  - rewrite He. replace (Z.of_nat (length (committed l ++ edit l) + 1)) with (Z.of_nat (length (committed l ++ edit l)) + 1) by lia.
    apply u32_add_succ.
  - lia.
  - intros j x Hj. rewrite He, input_slot_u32. apply lookup_app_Some in Hj as [Hj|[Hge Hj]].
    + pose proof (lookup_lt_Some _ _ _ Hj). rewrite list_lookup_insert_ne; [by apply Hb|]. intros E%slot_inj; lia.
    + apply list_lookup_singleton_Some in Hj as [Hj <-]. replace j with (length (committed l ++ edit l)) by lia.
      apply list_lookup_insert_eq. rewrite Hl. apply slot_lt.
Qed.

Lemma holds_commit i l : holds i l -> holds (Input (buf i) (rd i) (ed i) (ed i)) (Line (committed l ++ edit l) []).
Proof. intros [Hl Hr Hw He Hf Hb]. constructor; cbn; rewrite ?app_nil_r; done. Qed.

Lemma holds_full i l : holds i l -> (ed i =? u32 (rd i + INPUT_BUF)) = (Z.of_nat (length (committed l ++ edit l)) =? INPUT_BUF).
Proof.
  intros [Hl Hr Hw He Hf Hb]. rewrite He. apply eq_true_iff_eq. rewrite !Z.eqb_eq. split; [|by intros ->].
  intros E%u32_eq_add; [done|unfold INPUT_BUF in *; lia..].
Qed.

Lemma holds_room i l : holds i l -> u32 (ed i - rd i) = Z.of_nat (length (committed l ++ edit l)).
Proof. intros [Hl Hr Hw He Hf Hb]. rewrite He. apply u32_sub_add; [unfold INPUT_BUF in *; lia|done]. Qed.

(** Control-U, on what was typed since the last line. *)
Lemma kill_line_ok cm e : 10 ∉ e -> forall fuel s, (length e <= fuel)%nat -> screen_ok s -> holds (inp s) (Line cm e) ->
  exists s', kill_line fuel s = Ok tt s' /\ screen_ok s' /\ holds (inp s') (Line cm []).
Proof.
  induction e as [|x e IH] using rev_ind; intros Hn fuel s Hf Hs Hh; unfold kill_line; fold kill_line.
  - assert (Ee : (ed (inp s) =? wr (inp s)) = true) by (by apply (holds_edit_nil _ _ Hh)).
    exists s. destruct fuel; unfold bind, gets; cbn; by rewrite Ee.
  - rewrite not_elem_of_app, list_elem_of_singleton in Hn. rewrite length_app in Hf. cbn in Hf. destruct fuel as [|fuel]; [lia|].
    assert (Ee : (ed (inp s) =? wr (inp s)) = false).
    { apply not_true_iff_false. rewrite (holds_edit_nil _ _ Hh). cbn. by destruct e. }
    assert (Ex : get_byte (u32 (ed (inp s) - 1)) (inp s) = x) by (by eapply holds_last).
    cbn [kill_line]. unfold bind at 1, gets. cbn [id]. rewrite Ee, Ex, (proj2 (Z.eqb_neq x 10)) by (intros ->; tauto). cbn [negb andb].
    unfold bind at 1, modify. set (s1 := set_inp _ s). assert (Hs1 : screen_ok s1) by done.
    destruct (consputc_ok BACKSPACE s1 Hs1) as (s2 & R2 & Hs2 & Hi2 & _). rewrite (bind_Ok _ _ _ _ _ R2).
    apply IH; [tauto|lia|done|]. rewrite Hi2. by eapply holds_erase.
Qed.

Lemma removelast_last {A} (l : list A) x : removelast (l ++ [x]) = l.
Proof. rewrite removelast_app by done. cbn. apply app_nil_r. Qed.

(** An ordinary character. *)
Lemma insert_key_ok c l s : screen_ok s -> holds (inp s) l -> 10 ∉ edit l -> 0 <= c < 256 ->
  c <> ctrl 80 -> c <> ctrl 85 -> c <> ctrl 72 -> c <> 127 ->
  exists s', console_key c s = Ok tt s' /\ screen_ok s' /\ holds (inp s') (line_key c l) /\ (10 ∉ edit (line_key c l)) /\
    (committed (line_key c l) <> committed l -> wakeups s' = S (wakeups s)).
Proof.
  intros Hs Hh Hn Hc H1 H2 H3 H4. unfold console_key, line_key.
  rewrite (proj2 (Z.eqb_neq _ _) H1), (proj2 (Z.eqb_neq _ _) H2), (proj2 (Z.eqb_neq _ _) H3), (proj2 (Z.eqb_neq _ _) H4). cbn [orb].
  unfold bind at 1, gets. cbn [id]. rewrite (holds_room _ _ Hh).
  destruct (negb (c =? 0) && _) eqn:Ec; [|by eexists]. apply andb_true_iff in Ec as [_ Hlt%Z.ltb_lt].
  set (k := if c =? 13 then 10 else c). assert (Hk : u8 k = k).
  { subst k. destruct (c =? 13); [done|]. unfold u8. apply Z.mod_small. lia. }
  rewrite Hk. pose proof (holds_push _ _ k Hh Hlt) as Hp. set (i1 := Input _ _ _ _) in *. unfold bind at 1, modify.
  assert (Hs1 : screen_ok (set_inp i1 s)) by done. destruct (consputc_ok k _ Hs1) as (s2 & R2 & Hs2 & Hi2 & Hw2 & _).
  cbn [inp set_inp] in Hi2. rewrite (bind_Ok _ _ _ _ _ R2). unfold bind at 1, gets. cbn [id]. rewrite Hi2, (holds_full _ _ Hp). cbn [committed edit].
  destruct ((k =? 10) || (k =? ctrl 68) || _) eqn:Ek.
  - eexists. split; [done|]. split; [done|]. split; [exact (holds_commit _ _ Hp)|]. split; [apply not_elem_of_nil|]. intros _. cbn. by rewrite Hw2.
  - exists s2. split; [done|]. split; [done|]. rewrite Hi2. split; [done|]. cbn. split; [|done]. rewrite not_elem_of_app, list_elem_of_singleton.
    split; [done|]. intros <-. rewrite Z.eqb_refl in Ek. done.
Qed.

Lemma key_ok c l s : screen_ok s -> holds (inp s) l -> 10 ∉ edit l -> 0 <= c < 256 ->
  exists s', console_key c s = Ok tt s' /\ screen_ok s' /\ holds (inp s') (line_key c l) /\ (10 ∉ edit (line_key c l)) /\
    (committed (line_key c l) <> committed l -> wakeups s' = S (wakeups s)).
Proof.
  intros Hs Hh Hn Hc. destruct (decide (c = ctrl 80)) as [->|H1]; [by eexists|].
  destruct (decide (c = ctrl 85)) as [->|H2].
  { unfold line_key. cbn. destruct l as [cm e]. destruct (kill_line_ok cm e Hn (Z.to_nat INPUT_BUF) s) as (s' & R & Hs' & Hh'); [|done|done|].
    - pose proof (ho_fits _ _ Hh) as Hf. cbn in Hf. rewrite length_app in Hf. unfold INPUT_BUF in *. lia.
    - exists s'. split_and!; [done|done|done|apply not_elem_of_nil|done]. }
  destruct (decide (c = ctrl 72 \/ c = 127)) as [H3|H3]; [|apply insert_key_ok; tauto].
  assert (Ek : (c =? ctrl 72) || (c =? 127) = true) by (rewrite orb_true_iff, !Z.eqb_eq; done).
  unfold console_key, line_key. rewrite (proj2 (Z.eqb_neq _ _) H1), (proj2 (Z.eqb_neq _ _) H2), Ek.
  unfold bind at 1, gets. cbn [id]. destruct (ed (inp s) =? wr (inp s)) eqn:Ee; cbn [negb].
  - apply (holds_edit_nil _ _ Hh) in Ee. rewrite Ee. exists s. destruct l as [cm e]. cbn in Ee. subst e. done.
  - assert (Hne : edit l <> []) by (intros E; apply (holds_edit_nil _ _ Hh) in E; congruence).
    destruct l as [cm e]. cbn in Hne, Hn |- *. destruct (exists_last Hne) as (e' & x & ->). rewrite removelast_last.
    unfold bind at 1, modify. set (s1 := set_inp _ s). assert (Hs1 : screen_ok s1) by done.
    destruct (consputc_ok BACKSPACE s1 Hs1) as (s2 & R2 & Hs2 & Hi2 & Hw2 & _). exists s2. rewrite Hi2.
    split_and!; [done|done|by eapply holds_erase| |done]. by apply not_elem_of_app in Hn as [? _].
Qed.

Lemma keys_ok cs : forall l s, screen_ok s -> holds (inp s) l -> 10 ∉ edit l -> Forall (fun c => 0 <= c < 256) cs ->
  exists s', consoleintr cs s = Ok tt s' /\ screen_ok s' /\ holds (inp s') (fold_left (flip line_key) cs l) /\
    10 ∉ edit (fold_left (flip line_key) cs l).
Proof.
  induction cs as [|c cs IH]; intros l s Hs Hh Hn Hc; [by eexists|]. inversion Hc; subst.
  destruct (key_ok c l s) as (s1 & R1 & Hs1 & Hh1 & Hn1 & _); [done..|]. unfold consoleintr. cbn [for_each]. rewrite (bind_Ok _ _ _ _ _ R1).
  by apply IH.
Qed.

Lemma holds_read i c cm e : holds i (Line (c :: cm) e) ->
  (rd i =? wr i) = false /\ get_byte (rd i) i = c /\ holds (Input (buf i) (u32 (rd i + 1)) (wr i) (ed i)) (Line cm e).
Proof.
  intros [Hl Hr Hw He Hf Hb]. cbn in *. unfold INPUT_BUF in *. rewrite length_app in Hf. split_and!.
  - apply Z.eqb_neq. rewrite Hw. intros E. assert (E0 : rd i = u32 (rd i + 0)) by (unfold u32, is_u32 in *; rewrite Z.mod_small; lia).
    rewrite E0 in E at 1. apply u32_eq_add in E; lia.
  - unfold get_byte. apply nth_lookup_Some. specialize (Hb 0%nat c eq_refl). by rewrite Z.add_0_r in Hb.
  - assert (Hs : forall k, u32 (rd i + Z.of_nat (S k)) = u32 (u32 (rd i + 1) + Z.of_nat k)).
    { intros k. unfold u32. rewrite Zplus_mod_idemp_l. f_equal. lia. }
    constructor; cbn; try done.
    + unfold is_u32, u32. apply Z.mod_pos_bound. lia.
    + by rewrite Hw, Hs.
    + by rewrite He, Hs.
    + rewrite length_app. unfold INPUT_BUF. lia.
    + intros j x Hj. rewrite <- (Hb (S j) x Hj). f_equal. rewrite <- input_slot_u32, <- Hs. apply input_slot_u32.
Qed.

Lemma read_ok killed target n : forall dst i cm e, holds i (Line cm e) ->
  let '(r, cm') := line_read killed target n dst cm in
  exists i', consoleread killed target n dst i = (r, i') /\ holds i' (Line cm' e).
Proof.
  induction n as [|n IH]; intros dst i cm e Hh; cbn [line_read consoleread].
  { exists i. by rewrite Nat.sub_0_r. }
  destruct cm as [|c cm].
  - assert (E : (rd i =? wr i) = true).
    { apply Z.eqb_eq. destruct Hh as [_ Hr Hw _ _ _]. cbn in Hw. unfold u32, is_u32 in *. rewrite Hw, Z.mod_small; lia. }
    rewrite E. exists i. by destruct killed.
  - destruct (holds_read _ _ _ _ Hh) as (E1 & E2 & Hh'). rewrite E1, E2. destruct (c =? ctrl 68).
    + destruct (S n <? target)%nat; eexists; (split; [done|done]).
    + destruct (c =? 10); [by eexists|]. by apply IH.
Qed.

(** ** Runs *)

Inductive event := Typed (cs : list Z) | Reads (killed : bool) (target n : nat) (dst : list Z).

Fixpoint run_console (evs : list event) : M cons (list reading) :=
  match evs with
  | [] => ret []
  | Typed cs :: evs => consoleintr cs ;;; run_console evs
  | Reads killed target n dst :: evs =>
      let! r := (fun s => let (r, i) := consoleread killed target n dst (inp s) in Ok r (set_inp i s)) in
      let! rs := run_console evs in
      ret (r :: rs)
  end.

Fixpoint run_line (evs : list event) (l : line) : list reading * line :=
  match evs with
  | [] => ([], l)
  | Typed cs :: evs => run_line evs (fold_left (flip line_key) cs l)
  | Reads killed target n dst :: evs =>
      let (r, cm) := line_read killed target n dst (committed l) in
      let (rs, l) := run_line evs (Line cm (edit l)) in
      (r :: rs, l)
  end.

(** C18: The console implements the line discipline.  Whatever is typed and however
    reads, also ones that were asleep, and interrupts follow each other, and
    wherever in the 32-bit range the indices start, each read returns or sleeps
    as the line discipline says; no access leaves the buffer or the screen and
    no loop goes on forever. *)
Theorem console_refines evs s : screen_ok s -> holds (inp s) (Line [] []) ->
  Forall (fun ev => match ev with Typed cs => Forall (fun c => 0 <= c < 256) cs | _ => True end) evs ->
  exists s', run_console evs s = Ok (fst (run_line evs (Line [] []))) s' /\ screen_ok s' /\
    holds (inp s') (snd (run_line evs (Line [] []))).
Proof.
  intros Hs Hh Hf. assert (Hn : 10 ∉ edit (Line [] [])) by apply not_elem_of_nil. revert s Hs Hh Hn. generalize (Line [] []).
  induction Hf as [|ev evs Hev _ IH]; intros l s Hs Hh Hn; [by eexists|]. destruct ev as [cs|killed target n dst]; cbn [run_console run_line].
  - destruct (keys_ok cs l s Hs Hh Hn Hev) as (s1 & R1 & Hs1 & Hh1 & Hn1). rewrite (bind_Ok _ _ _ _ _ R1). by apply IH.
  - destruct l as [cm e]. pose proof (read_ok killed target n dst _ _ _ Hh) as Hr. cbn [committed edit].
    destruct (line_read killed target n dst cm) as [r cm']. destruct Hr as (i' & Ri & Hh'). unfold bind at 1. rewrite Ri.
    destruct (IH (Line cm' e) (set_inp i' s)) as (s' & R' & Hs' & Hhs); [done..|]. rewrite (bind_Ok _ _ _ _ _ R').
    destruct (run_line evs (Line cm' e)) as [rs l']. by eexists.
Qed.

(** A character that is only inserted. *)
Definition plain (c : Z) : Prop := 0 < c < 256 /\ c ∉ [ctrl 80; ctrl 85; ctrl 72; ctrl 68; 127; 10; 13].

Lemma typed_plain cs : forall e, Forall plain cs -> Z.of_nat (length (e ++ cs)) < INPUT_BUF ->
  fold_left (flip line_key) cs (Line [] e) = Line [] (e ++ cs).
Proof.
  induction cs as [|c cs IH]; intros e Hp Hl; [by rewrite app_nil_r|]. inversion Hp as [|? ? [Hc Hn] Hp']; subst. cbn [fold_left]. unfold flip at 2.
  rewrite length_app in Hl. cbn in Hl. rewrite !not_elem_of_cons in Hn. destruct Hn as (N1 & N2 & N3 & N4 & N5 & N6 & N7 & _).
  assert (E : line_key c (Line [] e) = Line [] (e ++ [c])).
  { unfold line_key. rewrite (proj2 (Z.eqb_neq _ _) N1), (proj2 (Z.eqb_neq _ _) N2), (proj2 (Z.eqb_neq _ _) N3), (proj2 (Z.eqb_neq _ _) N5).
    cbn [orb committed edit app]. rewrite (proj2 (Z.eqb_neq c 0)), (proj2 (Z.ltb_lt _ _)), (proj2 (Z.eqb_neq _ _) N7) by (cbn; lia). cbn [negb andb].
    rewrite (proj2 (Z.eqb_neq _ _) N6), (proj2 (Z.eqb_neq _ _) N4). cbn [orb]. rewrite (proj2 (Z.eqb_neq _ _)); [done|]. rewrite length_app. cbn. lia. }
  rewrite E, IH, <- app_assoc; [done|done|]. rewrite !length_app. cbn. lia.
Qed.

Lemma read_plain cs target n dst : Forall plain cs -> (length cs < n)%nat ->
  line_read false target n dst (cs ++ [10]) = (Returns (Z.of_nat (target - (n - length cs - 1))) (dst ++ cs ++ [10]), []).
Proof.
  intros Hp. revert n dst. induction Hp as [|c cs [_ Hn] _ IH]; intros [|n] dst Hl; cbn in Hl; try lia; cbn [app line_read].
  - cbn. by rewrite !Nat.sub_0_r.
  - rewrite !not_elem_of_cons in Hn. destruct Hn as (_ & _ & _ & N4 & _ & N6 & _).
    rewrite (proj2 (Z.eqb_neq _ _) N4), (proj2 (Z.eqb_neq _ _) N6), IH by lia. by rewrite <- app_assoc.
Qed.

(** What is typed on a line is what is read. *)
Lemma typed_line_is_read cs n : Forall plain cs -> Z.of_nat (length cs) < INPUT_BUF - 1 -> (length cs < n)%nat ->
  run_line [Typed (cs ++ [10]); Reads false n n []] (Line [] []) = ([Returns (Z.of_nat (length cs + 1)) (cs ++ [10])], Line [] []).
Proof.
  intros Hp Hl Hn. cbn [run_line]. rewrite fold_left_app, typed_plain by (cbn; done || lia). cbn [app fold_left].
  assert (E : flip line_key (Line [] cs) 10 = Line (cs ++ [10]) []).
  { unfold flip, line_key. cbn. rewrite (proj2 (Z.ltb_lt _ _)) by lia. done. }
  rewrite E. cbn [committed edit]. rewrite read_plain by done. cbn [app]. do 3 f_equal. lia.
Qed.

(** Every result of the keyboard driver is a character the console takes, or -1;
    the state of the modifiers stays within its seven bits. *)
Lemma kbdgetc_range shift st data : 0 <= shift < 128 -> 0 <= data < 256 ->
  let (shift', c) := kbdgetc shift st data in 0 <= shift' < 128 /\ -1 <= c < 256.
Proof.
  intros Hs Hd. unfold kbdgetc. destruct (Z.land st 1 =? 0) eqn:Est; [lia|].
  assert (Ha : forallb (fun sh => forallb (fun d => let (sh', c) := kbdgetc sh 1 d in
     (0 <=? sh') && (sh' <? 128) && (-1 <=? c) && (c <? 256)) (seqZ 0 256)) (seqZ 0 128) = true) by (vm_compute; reflexivity).
  rewrite forallb_forall in Ha. specialize (Ha shift). rewrite <- list_elem_of_In, elem_of_seqZ, forallb_forall in Ha.
  specialize (Ha ltac:(lia) data). rewrite <- list_elem_of_In, elem_of_seqZ in Ha. specialize (Ha ltac:(lia)).
  unfold kbdgetc in Ha. change (Z.land 1 1 =? 0) with false in Ha. cbv iota in Ha. revert Ha.
  match goal with |- (let (_, _) := ?x in _) = true -> _ => destruct x as [sh' c] end. rewrite !andb_true_iff. lia.
Qed.

(** ** The theorem, applied *)

Definition demo_cons : cons :=
  Cons (Input (replicate 128 0) (2 ^ 32 - 2) (2 ^ 32 - 2) (2 ^ 32 - 2)) false (replicate 2000 0) 0 false [] 0.

(** "ax", a backspace, "b" and a newline. *)
Lemma console_refines_witness : exists s',
  run_console [Reads false 10 10 []; Typed [97; 120; 8; 98]; Typed [13]; Reads false 10 10 []] demo_cons =
    Ok [Sleeps 10 []; Returns 3 [97; 98; 10]] s'.
Proof.
  destruct (console_refines [Reads false 10 10 []; Typed [97; 120; 8; 98]; Typed [13]; Reads false 10 10 []] demo_cons) as (s' & R & _).
  - by vm_compute.
  - constructor; try done.
  - repeat constructor; done.
  - exists s'. exact R.
Defined.
