(* ===== verification/Sh.v ===== *)
(** * Sh: the shell (sh.c)

    The parser over the line in memory, with the position [*ps] as the state; a
    token is the pair of the positions [q] and [eq].  The theorems show that
    parsing ends on every input, and that every command tree can be written down
    and is read back, with the strings that [nulterminate] cuts out of the
    line. *)

From S2P Require Import Prelude Ulib Syscall.
Open Scope Z_scope.
Open Scope xv6_scope.

(** ** Commands *)

(** [struct cmd] and its variants; [T] is what stands for a string. *)
Inductive cmd (T : Type) :=
| EXEC (argv : list T)
| REDIR (c : cmd T) (file : T) (mode fd : Z)
| PIPE (left right : cmd T)
| LIST (left right : cmd T)
| BACK (c : cmd T).
Arguments EXEC {T} argv.
Arguments REDIR {T} c file mode fd.
Arguments PIPE {T} left right.
Arguments LIST {T} left right.
Arguments BACK {T} c.

Definition MAXARGS : nat := 10.

Definition whitespace : list Z := [32; 9; 13; 10; 11].
Definition symbols : list Z := [60; 124; 62; 38; 59; 40; 41].

(** [strchr(set, c)] as a condition. *)
Definition in_set (set : list Z) (c : Z) : bool := match strchr set c with Some _ => true | None => false end.

Definition token : Type := nat * nat.

Section Parser.
(** The line, up to its NUL. *)
Context (line : list Z).

Definition char (p : nat) : Z := nth p line 0.

(** The loops that advance [s] before [es] while a condition on the character
    holds. *)
Fixpoint skip_while (cond : Z -> bool) (s : list Z) (p : nat) : nat :=
  match s with
  | c :: s => if cond c then skip_while cond s (S p) else p
  | [] => p
  end.
Definition skip (cond : Z -> bool) (p : nat) : nat := skip_while cond (drop p line) p.

(** [gettoken]: what it returns and the token. *)
Definition gettoken : M nat (Z * token) :=
  let! p := gets id in
  let s := skip (in_set whitespace) p in
  let c := char s in
  let '(r, e) :=
    if c =? 0 then (c, s)
    else if (c =? 124) || (c =? 40) || (c =? 41) || (c =? 59) || (c =? 38) || (c =? 60) then (c, S s)
    else if c =? 62 then if char (S s) =? 62 then (43, S (S s)) else (c, S s)
    else (97, skip (fun c => negb (in_set whitespace c) && negb (in_set symbols c)) s) in
  modify (fun _ => skip (in_set whitespace) e) ;;;
  ret (r, (s, e)).

Definition peek (toks : list Z) : M nat bool :=
  modify (skip (in_set whitespace)) ;;;
  let! s := gets id in
  ret (negb (char s =? 0) && in_set toks (char s)).

(** The loop of [parseredirs]; a turn consumes a character. *)
Fixpoint parseredirs (fuel : nat) (c : cmd token) : M nat (cmd token) :=
  let! more := peek [60; 62] in
  if negb more then ret c else
  match fuel with
  | O => halt OutOfFuel
  | S fuel =>
      let! tok := gettoken in
      let! file := gettoken in
      if negb (fst file =? 97) then panic "missing file for redirection" else
      parseredirs fuel
        (if fst tok =? 60 then REDIR c (snd file) O_RDONLY 0
         else if fst tok =? 62 then REDIR c (snd file) (Z.lor O_WRONLY O_CREATE) 1
         else if fst tok =? 43 then REDIR c (snd file) (Z.lor O_WRONLY O_CREATE) 1
         else c)
  end.

Definition bound : nat := S (length line).

Definition parseblock (parseline : M nat (cmd token)) : M nat (cmd token) :=
  let! b := peek [40] in
  if negb b then panic "parseblock" else
  gettoken ;;;
  let! c := parseline in
  let! b := peek [41] in
  if negb b then panic "syntax - missing )" else
  gettoken ;;;
  parseredirs bound c.

(** The arguments are stored in the node [cmd], around which [ret] has the
    redirections. *)
Fixpoint set_argv (argv : list token) (c : cmd token) : cmd token :=
  match c with
  | EXEC _ => EXEC argv
  | REDIR c file mode fd => REDIR (set_argv argv c) file mode fd
  | c => c
  end.

(** The loop of [parseexec], with the arguments so far; a turn consumes a
    character. *)
Fixpoint parseargs (fuel : nat) (argv : list token) (ret_ : cmd token) : M nat (cmd token) :=
  let! stop := peek [124; 41; 38; 59] in
  if stop then ret (set_argv argv ret_) else
  match fuel with
  | O => halt OutOfFuel
  | S fuel =>
      let! tok := gettoken in
      if fst tok =? 0 then ret (set_argv argv ret_) else
      if negb (fst tok =? 97) then panic "syntax" else
      let argv := argv ++ [snd tok] in
      if (MAXARGS <=? length argv)%nat then panic "too many args" else
      let! ret_ := parseredirs bound ret_ in
      parseargs fuel argv ret_
  end.

Definition parseexec (parseline : M nat (cmd token)) : M nat (cmd token) :=
  let! b := peek [40] in
  if b then parseblock parseline else
  let! r := parseredirs bound (EXEC []) in
  parseargs bound [] r.

Fixpoint parsepipe (fuel : nat) (parseline : M nat (cmd token)) : M nat (cmd token) :=
  match fuel with
  | O => halt OutOfFuel
  | S fuel =>
      let! c := parseexec parseline in
      let! b := peek [124] in
      if b then gettoken ;;; let! r := parsepipe fuel parseline in ret (PIPE c r) else ret c
  end.

(** [while(peek(ps, es, "&"))]. *)
Fixpoint parseback (fuel : nat) (c : cmd token) : M nat (cmd token) :=
  let! b := peek [38] in
  if negb b then ret c else
  match fuel with
  | O => halt OutOfFuel
  | S fuel => gettoken ;;; parseback fuel (BACK c)
  end.

Fixpoint parseline (fuel : nat) : M nat (cmd token) :=
  match fuel with
  | O => halt OutOfFuel
  | S fuel =>
      let! c := parsepipe bound (parseline fuel) in
      let! c := parseback bound c in
      let! b := peek [59] in
      if b then gettoken ;;; let! r := parseline fuel in ret (LIST c r) else ret c
  end.

(** [nulterminate], on the memory of the line. *)
Fixpoint nulterminate (c : cmd token) (m : list Z) : list Z :=
  match c with
  | EXEC argv => foldl (fun m tok => <[snd tok := 0]> m) m argv
  | REDIR c file _ _ => <[snd file := 0]> (nulterminate c m)
  | PIPE l r => nulterminate r (nulterminate l m)
  | LIST l r => nulterminate r (nulterminate l m)
  | BACK c => nulterminate c m
  end.

(** [parsecmd]: the command and the memory it leaves. *)
Definition parsecmd : M nat (cmd token * list Z) :=
  let! c := parseline bound in
  peek [] ;;;
  let! s := gets id in
  if negb (s =? length line)%nat then panic "syntax" else
  ret (c, nulterminate c (line ++ [0])).

(** ** Parsing ends *)

Lemma skip_while_ge cond s : forall p, (p <= skip_while cond s p)%nat.
Proof. induction s as [|c s IH]; intros p; cbn; [lia|]. destruct (cond c); [|lia]. specialize (IH (S p)). lia. Qed.

Lemma skip_ge cond p : (p <= skip cond p)%nat.
Proof. apply skip_while_ge. Qed.

Lemma char_in p : char p <> 0 -> (p < length line)%nat.
Proof. intros Hc. destruct (decide (p < length line)%nat); [done|]. destruct Hc. apply nth_overflow. lia. Qed.

Lemma skip_first cond p : char p <> 0 -> cond (char p) = true -> (p < skip cond p)%nat.
Proof.
  intros Hc Ht. pose proof (char_in p Hc) as Hp. unfold skip. destruct (lookup_lt_is_Some_2 line p Hp) as [c E].
  rewrite (drop_S _ _ _ E). cbn. unfold char in Ht. rewrite (nth_lookup_Some _ _ _ _ E) in Ht. rewrite Ht.
  apply (Nat.lt_le_trans _ (S p)); [lia|apply skip_while_ge].
Qed.

(** The loops stop at the end or at a character that does not satisfy the
    condition. *)
Lemma skip_spec cond p : drop (skip cond p) line = [] \/ exists c s, drop (skip cond p) line = c :: s /\ cond c = false.
Proof.
  unfold skip. assert (Hg : forall s p, drop p line = s -> drop (skip_while cond s p) line = [] \/
    exists c s', drop (skip_while cond s p) line = c :: s' /\ cond c = false); [|by apply Hg].
  clear p. induction s as [|c s IH]; intros p E; cbn; [by left|]. destruct (cond c) eqn:Ec; [|right; eauto].
  apply IH. assert (Hc : line !! p = Some c) by (rewrite <- (Nat.add_0_r p), <- lookup_drop, E; done).
  rewrite (drop_S _ _ _ Hc) in E. by injection E.
Qed.

Lemma char_drop p : char p = deref (drop p line).
Proof.
  unfold char, deref. destruct (drop p line) as [|c s] eqn:E.
  - apply nth_overflow. apply (f_equal length) in E. rewrite length_drop in E. cbn in E. lia.
  - apply nth_lookup_Some. rewrite <- (Nat.add_0_r p), <- lookup_drop, E. done.
Qed.

Lemma skip_stops cond p : char (skip cond p) <> 0 -> cond (char (skip cond p)) = false.
Proof. rewrite char_drop. by destruct (skip_spec cond p) as [->|(c & s & -> & Hc)]. Qed.

Lemma skip_idem cond p : skip cond (skip cond p) = skip cond p.
Proof. unfold skip at 1. destruct (skip_spec cond p) as [->|(c & s & -> & Hc)]; cbn; [done|by rewrite Hc]. Qed.

Lemma peek_run toks p : peek toks p = Ok (negb (char (skip (in_set whitespace) p) =? 0) && in_set toks (char (skip (in_set whitespace) p)))
  (skip (in_set whitespace) p).
Proof. done. Qed.

(** [gettoken] never fails, and moves on unless it is at the end. *)
Lemma gettoken_run p : exists r tok p', gettoken p = Ok (r, tok) p' /\ (p <= p')%nat /\
  (r <> 0 <-> char (skip (in_set whitespace) p) <> 0) /\ (r <> 0 -> (p < p')%nat /\ (p < length line)%nat).
Proof.
  unfold gettoken, bind at 1, gets. cbn [id]. set (s := skip (in_set whitespace) p).
  assert (Hs : (p <= s)%nat) by apply skip_ge. set (c := char s).
  match goal with |- context [let '(_, _) := ?x in _] => destruct x as [r e] eqn:E end.
  assert (He : (s <= e)%nat /\ (r <> 0 <-> c <> 0) /\ (r <> 0 -> (s < e)%nat /\ c <> 0)).
  { destruct (Z.eqb_spec c 0) as [Hc|Hc]; [injection E as <- <-; split_and!; [lia|done|done]|].
    destruct (_ || (c =? 60)) eqn:E1; [injection E as <- <-; split_and!; [lia|done|]; intros _; split; [lia|done]|].
    destruct (c =? 62) eqn:E2.
    { destruct (char (S s) =? 62); injection E as <- <-; (split_and!; [lia|done|]); intros _; (split; [lia|done]). }
    injection E as <- <-. assert (s < skip (fun c => negb (in_set whitespace c) && negb (in_set symbols c)) s)%nat;
      [|split_and!; [lia|done|]; intros _; split; [lia|done]].
    apply skip_first; [done|]. fold c. apply andb_true_iff. rewrite !negb_true_iff. split.
    - destruct (in_set whitespace c) eqn:Ew; [|done]. subst c s. by rewrite (skip_stops _ _ Hc) in Ew.
    - rewrite !orb_false_iff in E1. destruct E1 as [[[[[? ?] ?] ?] ?] ?]. unfold in_set, symbols. cbn [strchr].
      rewrite !(Z.eqb_sym _ c). repeat match goal with H : (c =? _) = false |- _ => rewrite H; clear H end. done. }
  eexists _, _, _. unfold bind, modify. split; [done|]. pose proof (skip_ge (in_set whitespace) e).
  destruct He as (He & Hr & Hm). split_and!; [lia|done|]. intros [? Hc]%Hm. apply char_in in Hc. lia.
Qed.

(** A computation returns, further on, or panics. *)
Definition good {A} (p : nat) (o : outcome nat A) : Prop :=
  match o with Ok _ p' => (p <= p')%nat | Stop r _ => exists msg, r = Panic msg end.

Lemma good_le {A} p q (o : outcome nat A) : good q o -> (p <= q)%nat -> good p o.
Proof. destruct o; cbn; [lia|done]. Qed.

(** It does so with more fuel than characters are left. *)
Definition ends {A} (n : nat) (c : M nat A) : Prop := forall p, (length line - p < n)%nat -> good p (c p).

Lemma ends_ret {A} n (a : A) : ends n (ret a).
Proof. intros p _. cbn. lia. Qed.

Lemma ends_panic {A} n msg : ends n (panic (A:=A) msg).
Proof. intros p _. by exists msg. Qed.

Lemma ends_bind {A B} n (c : M nat A) (k : A -> M nat B) : ends n c -> (forall a, ends n (k a)) -> ends n (bind c k).
Proof.
  intros Hc Hk p Hp. specialize (Hc p Hp). unfold bind. destruct (c p) as [a p1|r p1]; [|done]. cbn in Hc.
  eapply good_le; [apply Hk; lia|done].
Qed.

Lemma ends_peek n toks : ends n (peek toks).
Proof. intros p _. rewrite peek_run. apply skip_ge. Qed.

Lemma ends_gettoken n : ends n gettoken.
Proof. intros p _. destruct (gettoken_run p) as (r & tok & p' & -> & Hp & _). done. Qed.

Lemma ends_mono {A} n m (c : M nat A) : ends n c -> (m <= n)%nat -> ends m c.
Proof. intros Hc Hm p Hp. apply Hc. lia. Qed.

Lemma ends_bound {A} n (c : M nat A) : ends bound c -> ends n c.
Proof. intros Hc p _. apply Hc. unfold bound. lia. Qed.

Lemma ends_if {A} n (b : bool) (x y : M nat A) : ends n x -> ends n y -> ends n (if b then x else y).
Proof. by destruct b. Qed.

(** After a token a turn less is enough. *)
Lemma ends_consume {A} n toks (y : M nat A) (k : Z * token -> M nat A) : ends (S n) y -> (forall t, ends n (k t)) ->
  ends (S n) (let! b := peek toks in if negb b then y else let! t := gettoken in k t).
Proof.
  intros Hy Hk p Hp. unfold bind at 1. rewrite peek_run. set (s := skip (in_set whitespace) p).
  assert (Hs : (p <= s)%nat) by apply skip_ge. destruct (negb (char s =? 0) && in_set toks (char s)) eqn:E; cbn [negb].
  - apply andb_true_iff in E as [E%negb_true_iff%Z.eqb_neq _]. destruct (gettoken_run s) as (r & tok & p1 & R1 & H1 & Hz & Hm).
    unfold s in Hz. rewrite skip_idem in Hz. apply Hz, Hm in E as [Hlt Hle]. rewrite (bind_Ok _ _ _ _ _ R1).
    eapply good_le; [apply Hk; lia|lia].
  - eapply good_le; [apply Hy; lia|lia].
Qed.

(** At the end there is nothing to see. *)
Lemma ends_nothing {A} toks (y z : M nat A) : ends 1 y -> ends 1 (let! b := peek toks in if negb b then y else z).
Proof.
  intros Hy p Hp. unfold bind at 1. rewrite peek_run. set (s := skip (in_set whitespace) p).
  assert (Hs : (p <= s)%nat) by apply skip_ge. assert (E : char s = 0) by (apply nth_overflow; lia). rewrite E. cbn.
  eapply good_le; [apply Hy; lia|lia].
Qed.

Lemma ends_parseredirs n : forall c, ends (S n) (parseredirs n c).
Proof.
  induction n as [|n IH]; intros c; cbn [parseredirs]; [by apply ends_nothing, ends_ret|].
  apply ends_consume; [apply ends_ret|]. intros tok. apply ends_bind; [apply ends_gettoken|]. intros file.
  destruct (negb (fst file =? 97)); [apply ends_panic|]. destruct (fst tok =? 60); [apply IH|]. destruct (fst tok =? 62); [apply IH|].
  destruct (fst tok =? 43); apply IH.
Qed.

Lemma ends_redirs n c : ends n (parseredirs bound c).
Proof. apply ends_bound. eapply ends_mono; [apply ends_parseredirs|lia]. Qed.

Lemma ends_parseback n : forall c, ends (S n) (parseback n c).
Proof.
  induction n as [|n IH]; intros c; cbn [parseback]; [by apply ends_nothing, ends_ret|].
  apply ends_consume; [apply ends_ret|]. intros tok. apply IH.
Qed.

Lemma ends_parseargs n : forall argv r, ends n (parseargs n argv r).
Proof.
  induction n as [|n IH]; intros argv r p Hp; [lia|]. cbn [parseargs]. unfold bind at 1. rewrite peek_run.
  set (s := skip (in_set whitespace) p). assert (Hs : (p <= s)%nat) by apply skip_ge. destruct (negb _ && _); [exact Hs|].
  destruct (gettoken_run s) as (t & tok & p1 & R1 & H1 & _ & Hm). rewrite (bind_Ok _ _ _ _ _ R1). cbn [fst snd].
  destruct (Z.eqb_spec t 0) as [E|E]; [cbn; lia|]. apply Hm in E as [Hlt Hle].
  assert (Hk : ends n (if negb (t =? 97) then panic "syntax" else
    if (MAXARGS <=? length (argv ++ [tok]))%nat then panic "too many args" else
    let! ret_ := parseredirs bound r in parseargs n (argv ++ [tok]) ret_)).
  { apply ends_if; [apply ends_panic|]. apply ends_if; [apply ends_panic|]. apply ends_bind; [apply ends_redirs|intros; apply IH]. }
  eapply good_le; [apply Hk; lia|lia].
Qed.

Lemma ends_parseexec n (pl : M nat (cmd token)) : ends n pl -> ends (S n) (parseexec pl).
Proof.
  intros Hpl. unfold parseexec. apply ends_bind; [apply ends_peek|]. intros b. apply ends_if.
  - apply ends_consume; [apply ends_panic|]. intros _. apply ends_bind; [done|]. intros c. apply ends_bind; [apply ends_peek|]. intros b'.
    apply ends_if; [apply ends_panic|]. apply ends_bind; [apply ends_gettoken|]. intros _. apply ends_redirs.
  - apply ends_bind; [apply ends_redirs|]. intros r. apply ends_bound, ends_parseargs.
Qed.

Lemma negb_if {A} (b : bool) (x y : A) : (if b then x else y) = if negb b then y else x.
Proof. by destruct b. Qed.

(** [then]-branches that consume a token, in the shape of the lemmas above. *)
Lemma ends_then {A} n toks (y : M nat A) (k : M nat A) : ends (S n) y -> ends n k ->
  ends (S n) (let! b := peek toks in if b then gettoken ;;; k else y).
Proof.
  intros Hy Hk p Hp. pose proof (ends_consume n toks y (fun _ => k) Hy (fun _ => Hk) p Hp) as Hg.
  unfold bind at 1 in Hg. unfold bind at 1. rewrite peek_run in *. by rewrite negb_if.
Qed.

Lemma ends_parsepipe (pl : M nat (cmd token)) n : forall m, (n <= m)%nat -> (forall k, (k < n)%nat -> ends k pl) -> ends n (parsepipe m pl).
Proof.
  induction n as [|n IH]; intros m Hm Hpl; [intros p Hp; lia|]. destruct m as [|m]; [lia|]. cbn [parsepipe].
  apply ends_bind; [apply ends_parseexec, Hpl; lia|]. intros c. apply ends_then; [apply ends_ret|].
  apply ends_bind; [apply IH; [lia|]; intros k Hk; apply Hpl; lia|]. intros r. apply ends_ret.
Qed.

Lemma ends_parseline n : ends n (parseline n).
Proof.
  induction n as [|n IH]; [intros p Hp; lia|]. cbn [parseline].
  apply ends_bind; [destruct (decide (S n <= bound)%nat) as [Hb|Hb]|].
  - apply ends_parsepipe; [done|]. intros k Hk. eapply ends_mono; [exact IH|lia].
  - apply ends_bound, ends_parsepipe; [done|]. intros k Hk. eapply ends_mono; [exact IH|lia].
  - intros c. apply ends_bind; [apply ends_bound; eapply ends_mono; [apply ends_parseback|lia]|]. intros c'.
    apply ends_then; [apply ends_ret|]. apply ends_bind; [done|]. intros r. apply ends_ret.
Qed.

(** C38: Parsing ends, on every line: with a command, or with one of the messages of
    the parser. *)
Theorem parsecmd_ends : match parsecmd 0%nat with Ok _ _ => True | Stop r _ => exists msg, r = Panic msg end.
Proof.
  assert (He : ends bound parsecmd).
  { unfold parsecmd. apply ends_bind; [apply ends_parseline|]. intros c. apply ends_bind; [apply ends_peek|]. intros _.
    apply ends_bind; [intros p _; cbn; lia|]. intros s. apply ends_if; [apply ends_panic|apply ends_ret]. }
  specialize (He 0%nat). unfold bound in He. specialize (He ltac:(lia)). by destruct (parsecmd 0%nat).
Qed.

(** ** Writing commands down *)

Inductive tok := TWord (w : list Z) | TSym (c : Z).
Definition text (t : tok) : list Z := match t with TWord w => w | TSym c => [c] end.
Definition kind (t : tok) : Z := match t with TWord _ => 97 | TSym c => c end.
(** Tokens with a blank after each. *)
Definition flat (ts : list tok) : list Z := ts ≫= fun t => text t ++ [32].

Definition word_char (c : Z) : Prop := c <> 0 /\ in_set whitespace c = false /\ in_set symbols c = false.
Definition word (w : list Z) : Prop := w <> [] /\ Forall word_char w.
Definition valid (t : tok) : Prop := match t with TWord w => word w | TSym c => c ∈ symbols end.

Definition at_toks (p : nat) (ts : list tok) : Prop := drop p line = flat ts /\ Forall valid ts /\ (p <= length line)%nat.

Lemma valid_first t : valid t -> exists c s, text t = c :: s /\ c <> 0 /\ in_set whitespace c = false.
Proof.
  destruct t as [[|c w]|c]; cbn.
  - by intros [? _].
  - intros [_ Hw]. inversion Hw as [|? ? (H1 & H2 & _)]; subst. eauto.
  - intros Hc. exists c, []. split; [done|]. unfold symbols in Hc. rewrite !elem_of_cons, elem_of_nil in Hc. destruct_or? Hc; subst; done.
Qed.

Lemma at_toks_skip p ts : at_toks p ts -> skip (in_set whitespace) p = p.
Proof.
  intros (E & V & _). unfold skip. rewrite E. destruct V as [|t ts Ht _]; [done|]. destruct (valid_first t Ht) as (c & s & Et & _ & Hw).
  cbn. rewrite Et. cbn. by rewrite Hw.
Qed.

Lemma at_toks_char p ts : at_toks p ts -> char p = match ts with t :: _ => deref (text t) | [] => 0 end.
Proof.
  intros (E & V & _). rewrite char_drop, E. destruct V as [|t ts Ht _]; [done|]. destruct (valid_first t Ht) as (c & s & Et & _).
  cbn. by rewrite Et.
Qed.

Definition starts (toks : list Z) (ts : list tok) : bool := match ts with t :: _ => in_set toks (deref (text t)) | [] => false end.

Lemma at_peek p ts toks : at_toks p ts -> peek toks p = Ok (starts toks ts) p.
Proof.
  intros Ha. rewrite peek_run, (at_toks_skip _ _ Ha), (at_toks_char _ _ Ha). destruct Ha as (_ & V & _).
  destruct V as [|t ts Ht _]; [done|]. destruct (valid_first t Ht) as (c & s & Et & Hc & _). unfold starts. rewrite Et. cbn.
  by rewrite (proj2 (Z.eqb_neq c 0)).
Qed.

Lemma drop_app_eq p (u v : list Z) : drop p line = u ++ v -> drop (p + length u) line = v.
Proof. intros E. rewrite <- drop_drop, E. by rewrite drop_app_length. Qed.

Lemma at_toks_next p t ts : at_toks p (t :: ts) -> skip (in_set whitespace) (p + length (text t)) = (p + length (text t) + 1)%nat /\
  at_toks (p + length (text t) + 1) ts.
Proof.
  intros (E & V & Hp). inversion V; subst. cbn in E. rewrite <- app_assoc in E. pose proof (f_equal length E) as Hlen.
  rewrite length_drop, length_app in Hlen. cbn in Hlen. apply drop_app_eq in E. cbn in E.
  assert (E' : drop (p + length (text t) + 1) line = flat ts) by (rewrite <- drop_drop, E; done).
  assert (Ha : at_toks (p + length (text t) + 1) ts) by (split_and!; [done|done|lia]). split; [|done].
  unfold skip at 1. rewrite E. cbn. apply at_toks_skip in Ha. unfold skip in Ha. rewrite E' in Ha. by rewrite Nat.add_1_r in *.
Qed.

Lemma skip_word p w v : Forall word_char w -> drop p line = w ++ 32 :: v ->
  skip (fun c => negb (in_set whitespace c) && negb (in_set symbols c)) p = (p + length w)%nat.
Proof.
  intros Hw. unfold skip. intros ->. revert p. induction Hw as [|c w (_ & H1 & H2) _ IH]; intros p; cbn; [lia|].
  rewrite H1, H2. cbn. rewrite IH. lia.
Qed.

(** Reading a token. *)
Lemma at_gettoken p t ts : at_toks p (t :: ts) ->
  gettoken p = Ok (kind t, (p, (p + length (text t))%nat)) (p + length (text t) + 1)%nat.
Proof.
  intros Ha. destruct (at_toks_next _ _ _ Ha) as [Hn _]. unfold gettoken, bind at 1, gets. cbn [id].
  rewrite (at_toks_skip _ _ Ha), (at_toks_char _ _ Ha). destruct Ha as (E & V & _). inversion V as [|? ? Ht _]; subst.
  destruct t as [w|c]; cbn [text kind] in *.
  - destruct Ht as [Hne Hw]. cbn in E. rewrite <- app_assoc in E. pose proof (skip_word _ _ _ Hw E) as Hs.
    destruct w as [|c w]; [done|]. inversion Hw as [|? ? (H1 & H2 & H3)]; subst. cbn [deref].
    unfold in_set, symbols in H3. cbn [strchr] in H3. rewrite !(Z.eqb_sym _ c) in H3.
    rewrite (proj2 (Z.eqb_neq c 0)) by done.
    repeat match type of H3 with context [c =? ?k] => destruct (c =? k) eqn:?; [discriminate H3|] end. cbn [orb].
    rewrite Hs. unfold bind, modify. by rewrite Hn.
  - cbn in Ht. unfold symbols in Ht. rewrite !elem_of_cons, elem_of_nil in Ht. cbn [deref length] in *.
    assert (Hc : char (S p) = 32).
    { rewrite char_drop. replace (S p) with (p + length [c])%nat by (cbn; lia). cbn in E. by rewrite (drop_app_eq p [c] _ E). }
    rewrite Nat.add_1_r in *. destruct_or? Ht; subst; try done; cbn; unfold bind, modify; rewrite ?Hc; cbn; by rewrite Hn.
Qed.

Lemma at_gettoken_end p : at_toks p [] -> gettoken p = Ok (0, (p, p)) p.
Proof.
  intros Ha. unfold gettoken, bind, gets, modify. cbn [id]. rewrite !(at_toks_skip _ _ Ha), (at_toks_char _ _ Ha). cbn.
  by rewrite (at_toks_skip _ _ Ha).
Qed.

(** A token of the line that is the word [w], with a blank after it. *)
Definition tok_is (tk : token) (w : list Z) : Prop :=
  line !! snd tk = Some 32 /\ take (snd tk - fst tk) (drop (fst tk) line) = w /\ (fst tk + length w)%nat = snd tk.

Fixpoint reads (c : cmd token) (t : cmd (list Z)) : Prop :=
  match c, t with
  | EXEC argv, EXEC args => Forall2 tok_is argv args
  | REDIR c file mode fd, REDIR t f mode' fd' => reads c t /\ tok_is file f /\ mode = mode' /\ fd = fd'
  | PIPE l r, PIPE l' r' => reads l l' /\ reads r r'
  | LIST l r, LIST l' r' => reads l l' /\ reads r r'
  | BACK c, BACK t => reads c t
  | _, _ => False
  end.

Lemma at_toks_word p w ts : at_toks p (TWord w :: ts) -> tok_is (p, (p + length w)%nat) w.
Proof.
  intros [E _]. cbn in E. rewrite <- app_assoc in E. split; cbn.
  - rewrite <- (Nat.add_0_r (p + length w)), <- lookup_drop, (drop_app_eq _ _ _ E). done.
  - rewrite Nat.add_comm, Nat.add_sub, E, take_app_length. split; [done|lia].
Qed.

Lemma at_toks_length p ts : at_toks p ts -> (2 * length ts <= length line)%nat.
Proof.
  intros (E & V & _). apply (f_equal length) in E. rewrite length_drop in E. enough (2 * length ts <= length (flat ts))%nat by lia. clear E.
  unfold flat. induction V as [|t ts Ht _ IH]; [done|]. destruct (valid_first t Ht) as (c & s & Et & _). cbn. rewrite !length_app, Et. cbn. lia.
Qed.

Ltac step_at Ha :=
  match goal with
  | |- context [bind (peek ?k) _ ?p] => rewrite (bind_Ok _ _ _ _ _ (at_peek p _ k Ha)); cbn [starts text deref negb]
  | |- context [bind gettoken _ ?p] => rewrite (bind_Ok _ _ _ _ _ (at_gettoken p _ _ Ha)); apply at_toks_next in Ha as [_ Ha]; cbn [fst snd kind]
  end.

(** No redirection follows. *)
Lemma redirs_none n c p ts : at_toks p ts -> starts [60; 62] ts = false -> parseredirs n c p = Ok c p.
Proof. intros Ha Hs. destruct n; cbn [parseredirs]; step_at Ha; by rewrite Hs. Qed.

Definition stops (ts : list tok) : Prop := ts = [] \/ exists c ts', ts = TSym c :: ts' /\ c ∈ [124; 41; 38; 59].

Lemma stops_no_redir ts : stops ts -> starts [60; 62] ts = false.
Proof. intros [->|(c & ts' & -> & Hc)]; [done|]. rewrite !elem_of_cons, elem_of_nil in Hc. destruct_or? Hc; by subst. Qed.

Lemma in_set_sub toks c : (forall x, x ∈ toks -> x ∈ symbols) -> in_set symbols c = false -> in_set toks c = false.
Proof.
  assert (Hi : forall l, in_set l c = true <-> c ∈ l).
  { induction l as [|x l IH]; unfold in_set in *; cbn; [by rewrite elem_of_nil|]. rewrite elem_of_cons.
    destruct (Z.eqb_spec x c) as [->|Hne]; [by split; [left|]|]. rewrite IH. split; [by right|]. by intros [?|?]; [congruence|]. }
  intros Hs Hc. apply not_true_iff_false. rewrite Hi. intros Hin%Hs%Hi. congruence.
Qed.

Lemma words_no_sym toks w ts : (forall x, x ∈ toks -> x ∈ symbols) -> word w -> starts toks (TWord w :: ts) = false.
Proof.
  intros Hs [Hne Hw]. destruct w as [|c w]; [done|]. inversion Hw as [|? ? (_ & _ & Hc)]; subst. cbn. by apply in_set_sub.
Qed.

Lemma parseargs_ok args : forall n argv got p rest, Forall2 tok_is argv got -> Forall word args -> (length (got ++ args) < MAXARGS)%nat ->
  at_toks p ((TWord <$> args) ++ rest) -> stops rest -> (length args < n)%nat ->
  exists c p', parseargs n argv (EXEC []) p = Ok c p' /\ at_toks p' rest /\ reads c (EXEC (got ++ args)).
Proof.
  induction args as [|w args IH]; intros n argv got p rest Hd Hw Hm Ha Hr Hn; (destruct n as [|n]; [cbn in Hn; lia|]); cbn [parseargs].
  - rewrite app_nil_r. cbn in Ha. destruct Hr as [->|(c & ts' & -> & Hc)].
    + step_at Ha. rewrite (bind_Ok _ _ _ _ _ (at_gettoken_end p Ha)). by eexists _, p.
    + step_at Ha. rewrite !elem_of_cons, elem_of_nil in Hc. destruct_or? Hc; subst; try done; by eexists _, p.
  - inversion Hw as [|? ? Hw1 Hw2]; subst. cbn [fmap list_fmap app] in Ha. rewrite (bind_Ok _ _ _ _ _ (at_peek p _ _ Ha)).
    rewrite words_no_sym; [|set_solver|done]. pose proof (at_toks_word _ _ _ Ha) as Ht. step_at Ha.
    change (97 =? 0) with false. change (negb (97 =? 97)) with false. cbv iota.
    cbv zeta. cbn [text] in *. rewrite (cons_middle w got args), app_assoc, length_app in Hm.
    match goal with |- context [(MAXARGS <=? ?l)%nat] => replace (MAXARGS <=? l)%nat with false end.
    2: { symmetry. apply Nat.leb_gt. rewrite length_app, (Forall2_length _ _ _ Hd). rewrite length_app in Hm. cbn in *. lia. }
    erewrite bind_Ok; [|apply (redirs_none bound _ _ _ Ha)].
    + rewrite (cons_middle w got args), app_assoc. apply IH; [by apply Forall2_app, Forall2_cons; [|split; [|constructor]]|done|by rewrite length_app|done|done|cbn in Hn; lia].
    + destruct args as [|w2 args]; [by apply stops_no_redir|]. inversion Hw2; subst. apply words_no_sym; [set_solver|done].
Qed.

(** How a command is written: parentheses around everything that is not a plain
    command. *)
Definition exec_toks (c : cmd (list Z)) (ts : list tok) : list tok :=
  match c with EXEC _ => ts | _ => TSym 40 :: ts ++ [TSym 41] end.

Fixpoint line_toks (c : cmd (list Z)) : list tok :=
  match c with
  | EXEC args => TWord <$> args
  | REDIR c f _ fd => TSym 40 :: line_toks c ++ [TSym 41; TSym (if fd =? 0 then 60 else 62); TWord f]
  | PIPE l r => exec_toks l (line_toks l) ++ TSym 124 :: exec_toks r (line_toks r)
  | LIST l r => exec_toks l (line_toks l) ++ TSym 59 :: exec_toks r (line_toks r)
  | BACK c => exec_toks c (line_toks c) ++ [TSym 38]
  end.

(** The trees there are: words of word characters, not too many arguments, and
    the modes of redirections. *)
Fixpoint wf (c : cmd (list Z)) : Prop :=
  match c with
  | EXEC args => Forall word args /\ (length args < MAXARGS)%nat
  | REDIR c f mode fd => wf c /\ word f /\ (mode = O_RDONLY /\ fd = 0 \/ mode = Z.lor O_WRONLY O_CREATE /\ fd = 1)
  | PIPE l r => wf l /\ wf r
  | LIST l r => wf l /\ wf r
  | BACK c => wf c
  end.

(** [pl] reads lines of fewer than [n] tokens. *)
Definition reads_lines (n : nat) (pl : M nat (cmd token)) : Prop :=
  forall t p rest, wf t -> (length (line_toks t) < n)%nat -> at_toks p (line_toks t ++ rest) -> (rest = [] \/ exists ts, rest = TSym 41 :: ts) ->
  exists c p', pl p = Ok c p' /\ at_toks p' rest /\ reads c t.

Lemma rparen_stops rest : rest = [] \/ (exists ts, rest = TSym 41 :: ts) -> stops rest.
Proof. intros [->|[ts ->]]; [by left|]. right. exists 41, ts. split; [done|]. set_solver. Qed.

Lemma at_bound p ts : at_toks p ts -> (length ts < bound)%nat.
Proof. intros Ha%at_toks_length. unfold bound. lia. Qed.

(** A block, and the redirection after it. *)
Lemma parseblock_ok n pl t p rest : reads_lines n pl -> wf t -> (length (line_toks t) < n)%nat ->
  at_toks p (TSym 40 :: line_toks t ++ TSym 41 :: rest) ->
  exists c p', at_toks p' rest /\ reads c t /\ parseexec pl p = parseredirs bound c p'.
Proof.
  intros Hpl Hw Hl Ha. unfold parseexec, parseblock. step_at Ha. change (in_set [40] 40) with true. cbv iota. step_at Ha.
  change (negb (in_set [40] 40)) with false. cbv iota. step_at Ha.
  destruct (Hpl t _ _ Hw Hl Ha) as (c & p2 & R2 & H2 & Hr); [by right; eexists|]. rewrite (bind_Ok _ _ _ _ _ R2).
  step_at H2. change (negb (in_set [41] 41)) with false. cbv iota. step_at H2. eexists _, _. split; [exact H2|]. done.
Qed.

Lemma parseexec_ok n pl t p rest : reads_lines n pl -> wf t -> (length (exec_toks t (line_toks t)) <= n)%nat ->
  at_toks p (exec_toks t (line_toks t) ++ rest) -> stops rest ->
  exists c p', parseexec pl p = Ok c p' /\ at_toks p' rest /\ reads c t.
Proof.
  intros Hpl Hw Hl Ha Hr. destruct t as [args|t f mode fd|l r|l r|t].
  { cbn [exec_toks line_toks] in *. destruct Hw as [Hw Hm]. unfold parseexec.
    assert (H40 : starts [40] ((TWord <$> args) ++ rest) = false /\ starts [60; 62] ((TWord <$> args) ++ rest) = false).
    { destruct args as [|w args]; [|inversion Hw; subst; split; apply words_no_sym; (done || set_solver)].
      split; [|by apply stops_no_redir]. destruct Hr as [->|(c & ts' & -> & Hc)]; [done|].
      rewrite !elem_of_cons, elem_of_nil in Hc. destruct_or? Hc; by subst. }
    rewrite (bind_Ok _ _ _ _ _ (at_peek p _ _ Ha)), (proj1 H40).
    rewrite (bind_Ok _ _ _ _ _ (redirs_none bound _ _ _ Ha (proj2 H40))).
    apply (parseargs_ok args bound [] [] p rest); [constructor|done|done|done|done|].
    apply at_bound in Ha. rewrite length_app, length_fmap in Ha. lia. }
  all: cbn [exec_toks] in *; rewrite <- app_comm_cons, <- app_assoc in Ha;
    (destruct (parseblock_ok n pl _ p rest Hpl Hw) as (c & p' & H' & Hc & R); [cbn [length] in Hl; rewrite length_app in Hl; cbn [length] in Hl; lia|exact Ha|]);
    exists c, p'; rewrite R; split_and!; [|done|done]; apply (redirs_none _ _ _ _ H'); by apply stops_no_redir.
Qed.

Lemma pipe_one n pl t m p rest : reads_lines n pl -> wf t -> (length (exec_toks t (line_toks t)) <= n)%nat ->
  at_toks p (exec_toks t (line_toks t) ++ rest) -> stops rest -> starts [124] rest = false ->
  exists c p', parsepipe (S m) pl p = Ok c p' /\ at_toks p' rest /\ reads c t.
Proof.
  intros Hpl Hw Hl Ha Hr Hn. destruct (parseexec_ok n pl t p rest Hpl Hw Hl Ha Hr) as (c & p' & R & H' & Hc). exists c, p'.
  cbn [parsepipe]. rewrite (bind_Ok _ _ _ _ _ R). step_at H'. by rewrite Hn.
Qed.

Lemma back_none n c p ts : at_toks p ts -> starts [38] ts = false -> parseback n c p = Ok c p.
Proof. intros Ha Hs. destruct n; cbn [parseback]; step_at Ha; by rewrite Hs. Qed.

Lemma rparen_none toks rest : rest = [] \/ (exists ts, rest = TSym 41 :: ts) -> 41 ∉ toks -> starts toks rest = false.
Proof.
  intros [->|[ts ->]] Hn; [done|]. unfold starts, in_set. cbn [text deref]. assert (E : strchr toks 41 = None).
  { induction toks as [|x l IH]; [done|]. rewrite not_elem_of_cons in Hn. cbn. rewrite (proj2 (Z.eqb_neq x 41)) by (intros ->; tauto). apply IH. tauto. }
  by rewrite E.
Qed.

(** What follows a pipeline at the end of a line. *)
Lemma line_end n c p rest : at_toks p rest -> rest = [] \/ (exists ts, rest = TSym 41 :: ts) ->
  (let! c := parseback bound c in let! b := peek [59] in
   if b then gettoken ;;; let! r := parseline n in ret (LIST c r) else ret c) p = Ok c p.
Proof.
  intros Ha Hr. rewrite (bind_Ok _ _ _ _ _ (back_none bound c p rest Ha (rparen_none [38] _ Hr ltac:(set_solver)))).
  step_at Ha. by rewrite (rparen_none [59] _ Hr) by set_solver.
Qed.

Lemma line_of_exec n t p rest : reads_lines n (parseline n) -> wf t -> (length (exec_toks t (line_toks t)) <= n)%nat ->
  at_toks p (exec_toks t (line_toks t) ++ rest) -> rest = [] \/ (exists ts, rest = TSym 41 :: ts) ->
  exists c p', parseline (S n) p = Ok c p' /\ at_toks p' rest /\ reads c t.
Proof.
  intros Hpl Hw Hl Ha Hr.
  destruct (pipe_one n _ t (length line) p rest Hpl Hw Hl Ha (rparen_stops _ Hr) (rparen_none [124] _ Hr ltac:(set_solver))) as (c & p' & R & H' & Hc).
  exists c, p'. cbn [parseline]. fold bound. unfold bound at 1. rewrite (bind_Ok _ _ _ _ _ R). split; [by apply (line_end n c p' rest)|done].
Qed.

Lemma line_redir n t f mode fd p rest : reads_lines n (parseline n) -> wf (REDIR t f mode fd) ->
  (length (line_toks (REDIR t f mode fd)) <= n)%nat ->
  at_toks p (line_toks (REDIR t f mode fd) ++ rest) -> rest = [] \/ (exists ts, rest = TSym 41 :: ts) ->
  exists c p', parseline (S n) p = Ok c p' /\ at_toks p' rest /\ reads c (REDIR t f mode fd).
Proof.
  intros Hpl (Hw & Hf & Hm) Hl Ha Hr. cbn [line_toks] in *. rewrite <- app_comm_cons, <- app_assoc in Ha. cbn [app] in Ha.
  cbn [length] in Hl. rewrite length_app in Hl. cbn [length] in Hl.
  destruct (parseblock_ok n (parseline n) t p _ Hpl Hw ltac:(lia) Ha) as (c & p1 & H1 & Hc & R).
  assert (Hx : exists tk p2, parseredirs bound c p1 = Ok (REDIR c tk mode fd) p2 /\ at_toks p2 rest /\ tok_is tk f).
  { unfold bound. cbn [parseredirs]. step_at H1. replace (negb _) with false by (by destruct (fd =? 0)). cbv iota. step_at H1.
    pose proof (at_toks_word _ _ _ H1) as Ht. step_at H1. change (negb (97 =? 97)) with false. cbv iota.
    eexists _, _. split; [|split; [exact H1|exact Ht]].
    destruct Hm as [[-> ->]|[-> ->]]; cbn [Z.eqb Pos.eqb]; apply (redirs_none _ _ _ _ H1); (apply rparen_none; [done|set_solver]). }
  destruct Hx as (tk & p2 & R2 & H2 & Ht). exists (REDIR c tk mode fd), p2. cbn [parseline]. unfold bound at 1. cbn [parsepipe].
  assert (Rp : (let! c0 := parseexec (parseline n) in let! b := peek [124] in
    if b then gettoken ;;; let! r := parsepipe (length line) (parseline n) in ret (PIPE c0 r) else ret c0) p = Ok (REDIR c tk mode fd) p2).
  { erewrite bind_Ok by (rewrite R; exact R2). step_at H2. by rewrite (rparen_none [124] _ Hr) by set_solver. }
  rewrite (bind_Ok _ _ _ _ _ Rp). split; [by apply (line_end n _ p2 rest)|]. done.
Qed.

Lemma stops_sym c ts : c ∈ [124; 41; 38; 59] -> stops (TSym c :: ts).
Proof. intros Hc. right. eauto. Qed.

Lemma line_pipe n l r p rest : reads_lines n (parseline n) -> wf (PIPE l r) -> (length (line_toks (PIPE l r)) <= n)%nat ->
  at_toks p (line_toks (PIPE l r) ++ rest) -> rest = [] \/ (exists ts, rest = TSym 41 :: ts) ->
  exists c p', parseline (S n) p = Ok c p' /\ at_toks p' rest /\ reads c (PIPE l r).
Proof.
  intros Hpl [Hwl Hwr] Hl Ha Hr. cbn [line_toks] in *. rewrite length_app in Hl. cbn [length] in Hl. pose proof (at_bound _ _ Ha) as Hb.
  rewrite <- app_assoc in Ha. cbn [app] in Ha. rewrite !length_app in Hb. cbn [length] in Hb. unfold bound in Hb.
  destruct (parseexec_ok n (parseline n) l p _ Hpl Hwl ltac:(lia) Ha) as (cl & p1 & R1 & H1 & Hcl); [apply stops_sym; set_solver|].
  pose proof H1 as H1'. apply at_toks_next in H1' as [_ H2]. destruct (length line) as [|k] eqn:Ek; [lia|].
  destruct (pipe_one n (parseline n) r k _ rest Hpl Hwr ltac:(lia) H2 (rparen_stops _ Hr) (rparen_none [124] _ Hr ltac:(set_solver)))
    as (cr & p2 & R2 & H3 & Hcr).
  exists (PIPE cl cr), p2. cbn [parseline]. unfold bound at 1. rewrite Ek.
  assert (Rp : parsepipe (S (S k)) (parseline n) p = Ok (PIPE cl cr) p2).
  { cbn [parsepipe] in R2 |- *. rewrite (bind_Ok _ _ _ _ _ R1). step_at H1. change (in_set [124] 124) with true. cbv iota. step_at H1.
    by rewrite (bind_Ok _ _ _ _ _ R2). }
  rewrite (bind_Ok _ _ _ _ _ Rp). split; [by apply (line_end n _ p2 rest)|]. done.
Qed.

Lemma line_back n t p rest : reads_lines n (parseline n) -> wf t -> (length (line_toks (BACK t)) <= n)%nat ->
  at_toks p (line_toks (BACK t) ++ rest) -> rest = [] \/ (exists ts, rest = TSym 41 :: ts) ->
  exists c p', parseline (S n) p = Ok c p' /\ at_toks p' rest /\ reads c (BACK t).
Proof.
  intros Hpl Hw Hl Ha Hr. cbn [line_toks] in *. rewrite length_app in Hl. cbn [length] in Hl. rewrite <- app_assoc in Ha. cbn [app] in Ha.
  destruct (pipe_one n (parseline n) t (length line) p _ Hpl Hw ltac:(lia) Ha) as (c & p1 & R1 & H1 & Hc); [apply stops_sym; set_solver|done|].
  pose proof H1 as H1'. apply at_toks_next in H1' as [_ H2]. eexists (BACK c), _. cbn [parseline]. unfold bound at 1.
  rewrite (bind_Ok _ _ _ _ _ R1). split; [|split; [exact H2|exact Hc]].
  assert (Rb : parseback bound c p1 = Ok (BACK c) (p1 + length (text (TSym 38)) + 1)%nat).
  { unfold bound. cbn [parseback]. step_at H1. change (negb (in_set [38] 38)) with false. cbv iota. step_at H1.
    apply (back_none _ _ _ _ H1). by apply rparen_none; [|set_solver]. }
  rewrite (bind_Ok _ _ _ _ _ Rb). step_at H2. by rewrite (rparen_none [59] _ Hr) by set_solver.
Qed.

Lemma line_list n l r p rest : reads_lines n (parseline n) -> reads_lines (pred n) (parseline (pred n)) ->
  wf (LIST l r) -> (length (line_toks (LIST l r)) <= n)%nat ->
  at_toks p (line_toks (LIST l r) ++ rest) -> rest = [] \/ (exists ts, rest = TSym 41 :: ts) ->
  exists c p', parseline (S n) p = Ok c p' /\ at_toks p' rest /\ reads c (LIST l r).
Proof.
  intros Hpl Hpl' [Hwl Hwr] Hl Ha Hr. cbn [line_toks] in *. rewrite length_app in Hl. cbn [length] in Hl. rewrite <- app_assoc in Ha. cbn [app] in Ha.
  destruct (pipe_one n (parseline n) l (length line) p _ Hpl Hwl ltac:(lia) Ha) as (cl & p1 & R1 & H1 & Hcl); [apply stops_sym; set_solver|done|].
  pose proof H1 as H1'. apply at_toks_next in H1' as [_ H2]. destruct n as [|n]; [lia|]. cbn [pred] in Hpl'.
  destruct (line_of_exec n r _ rest Hpl' Hwr ltac:(lia) H2 Hr) as (cr & p2 & R2 & H3 & Hcr).
  exists (LIST cl cr), p2. change (parseline (S (S n))) with (let! c := parsepipe bound (parseline (S n)) in
    let! c := parseback bound c in let! b := peek [59] in
    if b then gettoken ;;; let! r := parseline (S n) in ret (LIST c r) else ret c). unfold bound at 1.
  rewrite (bind_Ok _ _ _ _ _ R1), (bind_Ok _ _ _ _ _ (back_none bound cl p1 _ H1 eq_refl)). step_at H1.
  change (in_set [59] 59) with true. cbv iota. step_at H1. rewrite (bind_Ok _ _ _ _ _ R2). done.
Qed.

Lemma parseline_reads n : reads_lines n (parseline n).
Proof.
  induction n as [n IH] using lt_wf_ind. intros t p rest Hw Hl Ha Hr. destruct n as [|n]; [lia|].
  assert (Hn : reads_lines n (parseline n)) by (apply IH; lia).
  destruct t as [args|t f mode fd|l r|l r|t].
  - apply (line_of_exec n (EXEC args)); [done|done|cbn in *; lia|done|done].
  - apply line_redir; [done|done|lia|done|done].
  - apply line_pipe; [done|done|lia|done|done].
  - apply line_list; [done|apply IH; lia|done|lia|done|done].
  - apply line_back; [done|done|lia|done|done].
Qed.

(** ** Strings *)

(** The string at a position of the memory of the line. *)
Fixpoint upto_nul (l : list Z) : list Z :=
  match l with
  | [] => []
  | c :: l => if c =? 0 then [] else c :: upto_nul l
  end.
Definition cstr (m : list Z) (tk : token) : list Z := upto_nul (drop (fst tk) m).
End Parser.

Fixpoint cmd_map {S T} (f : S -> T) (c : cmd S) : cmd T :=
  match c with
  | EXEC argv => EXEC (f <$> argv)
  | REDIR c file mode fd => REDIR (cmd_map f c) (f file) mode fd
  | PIPE l r => PIPE (cmd_map f l) (cmd_map f r)
  | LIST l r => LIST (cmd_map f l) (cmd_map f r)
  | BACK c => BACK (cmd_map f c)
  end.

(** The positions [nulterminate] writes to. *)
Fixpoint token_ends (c : cmd token) : list nat :=
  match c with
  | EXEC argv => snd <$> argv
  | REDIR c file _ _ => token_ends c ++ [snd file]
  | PIPE l r => token_ends l ++ token_ends r
  | LIST l r => token_ends l ++ token_ends r
  | BACK c => token_ends c
  end.

Lemma nulterminate_foldl c : forall m, nulterminate c m = foldl (fun m e => <[e := 0]> m) m (token_ends c).
Proof.
  induction c as [argv|c IH file mode fd|l IHl r IHr|l IHl r IHr|c IH]; intros m; cbn [nulterminate token_ends].
  - revert m. induction argv as [|t argv IH]; intros m; cbn; [done|]. apply IH.
  - by rewrite foldl_app, IH.
  - by rewrite foldl_app, IHl, IHr.
  - by rewrite foldl_app, IHl, IHr.
  - apply IH.
Qed.

Lemma foldl_nul (es : list nat) : forall (m : list Z) (i : nat), foldl (fun m e => <[e := 0]> m) m es !! i =
  if decide (i ∈ es) then (fun _ => 0) <$> m !! i else m !! i.
Proof.
  induction es as [|e es IH]; intros m i; cbn; [by rewrite decide_False by apply not_elem_of_nil|]. rewrite IH.
  destruct (decide (i = e)) as [->|Hne].
  - rewrite (decide_True (P := e ∈ e :: es)) by (by left). destruct (decide (e < length m)%nat) as [Hl|Hl].
    + rewrite list_lookup_insert_eq by done. destruct (lookup_lt_is_Some_2 m e Hl) as [x ->]. by destruct (decide (e ∈ es)).
    + rewrite (lookup_ge_None_2 m e), (lookup_ge_None_2 (<[e:=0]> m) e) by (rewrite ?length_insert; lia). by destruct (decide (e ∈ es)).
  - rewrite list_lookup_insert_ne by done. destruct (decide (i ∈ es)); [rewrite decide_True by (by right); done|].
    rewrite decide_False; [done|]. by rewrite not_elem_of_cons.
Qed.

Lemma reads_ends line c : forall t, reads line c t -> Forall (fun e => line !! e = Some 32) (token_ends c).
Proof.
  induction c as [argv|c IH file mode fd|l IHl r IHr|l IHl r IHr|c IH]; intros [args|t f mode' fd'|l' r'|l' r'|t]; cbn; try done.
  - induction 1 as [|tk w argv args [H _] _ IH]; cbn; [constructor|by constructor].
  - intros (Hc & [Hf _] & _). apply Forall_app. split; [by eapply IH|by repeat constructor].
  - intros [Hl Hr]. apply Forall_app. split; [by eapply IHl|by eapply IHr].
  - intros [Hl Hr]. apply Forall_app. split; [by eapply IHl|by eapply IHr].
  - apply IH.
Qed.

Lemma upto_nul_word w rest : Forall (fun c => c <> 0) w -> upto_nul (w ++ 0 :: rest) = w.
Proof. induction 1 as [|c w Hc _ IH]; cbn; [done|]. by rewrite (proj2 (Z.eqb_neq c 0)), IH. Qed.

(** A token is cut out of the line, whatever other tokens are. *)
Lemma cstr_word line es tk w : Forall (fun e => line !! e = Some 32) es -> snd tk ∈ es -> tok_is line tk w -> word w ->
  cstr (foldl (fun m e => <[e := 0]> m) (line ++ [0]) es) tk = w.
Proof.
  intros He Hin (H32 & Hw & Hl) [_ Hc]. unfold cstr. set (m := foldl _ _ _). rewrite Forall_forall in He.
  assert (Hm : forall i c, line !! i = Some c -> c <> 32 -> m !! i = Some c).
  { intros i c Hi Hne. unfold m. rewrite foldl_nul, lookup_app_l by (by eapply lookup_lt_Some). rewrite decide_False; [done|].
    intros Hx%He. congruence. }
  assert (Hend : m !! snd tk = Some 0).
  { unfold m. rewrite foldl_nul, decide_True, lookup_app_l by (done || by eapply lookup_lt_Some). by rewrite H32. }
  assert (Ht : take (length w) (drop (fst tk) m) = w).
  { apply list_eq. intros i. destruct (decide (i < length w)%nat) as [Hi|Hi].
    - destruct (lookup_lt_is_Some_2 w i Hi) as [c Hci]. rewrite Hci, lookup_take_lt, lookup_drop by done. apply Hm.
      + rewrite <- Hw in Hci. apply lookup_take_Some in Hci as [Hci _]. by rewrite lookup_drop in Hci.
      + rewrite Forall_forall in Hc. destruct (Hc c) as (_ & Hs & _); [by eapply list_elem_of_lookup_2|]. by intros ->.
    - rewrite (lookup_ge_None_2 w i), lookup_take_ge by lia. done. }
  rewrite <- (take_drop (length w) (drop (fst tk) m)), Ht, drop_drop, Hl, (drop_S _ _ _ Hend).
  apply upto_nul_word. eapply Forall_impl; [exact Hc|]. by intros c [? _].
Qed.

Lemma reads_map line c es : Forall (fun e => line !! e = Some 32) es -> forall t, (forall e, e ∈ token_ends c -> e ∈ es) -> reads line c t -> wf t ->
  cmd_map (cstr (foldl (fun m e => <[e := 0]> m) (line ++ [0]) es)) c = t.
Proof.
  intros He. induction c as [argv|c IH file mode fd|l IHl r IHr|l IHl r IHr|c IH];
    intros [args|t f mode' fd'|l' r'|l' r'|t] Hin; cbn [reads wf cmd_map token_ends] in *; try done.
  - intros Hr [Hw _]. f_equal. induction Hr as [|tk w argv args Ht _ IH]; [done|]. inversion Hw; subst. cbn. f_equal.
    + apply cstr_word; [done| |done|done]. apply Hin. by left.
    + apply IH; [|done]. intros e Hx. apply Hin. by right.
  - intros (Hc & Hf & -> & ->) (Hw & Hwf & _). f_equal; [apply IH; [|done|done]; intros e Hx; apply Hin, elem_of_app; by left|].
    apply cstr_word; [done| |done|done]. apply Hin, elem_of_app. right. by left.
  - intros [Hl Hr] [Hwl Hwr]. f_equal; [apply IHl|apply IHr]; try done; intros e Hx; apply Hin, elem_of_app; auto.
  - intros [Hl Hr] [Hwl Hwr]. f_equal; [apply IHl|apply IHr]; try done; intros e Hx; apply Hin, elem_of_app; auto.
  - intros Hc Hw. f_equal. by apply IH.
Qed.

Lemma valid_sym c ts : c ∈ symbols -> Forall valid ts -> Forall valid (TSym c :: ts).
Proof. by constructor. Qed.

Lemma valid_exec c ts : Forall valid ts -> Forall valid (exec_toks c ts).
Proof.
  intros H. assert (Hp : Forall valid (TSym 40 :: ts ++ [TSym 41])); [|by destruct c].
  apply valid_sym; [set_solver|]. apply Forall_app. split; [done|]. apply valid_sym; [set_solver|constructor].
Qed.

Lemma line_toks_valid t : wf t -> Forall valid (line_toks t).
Proof.
  induction t as [args|t IH f mode fd|l IHl r IHr|l IHl r IHr|t IH]; cbn [wf line_toks].
  - intros [Hw _]. by apply Forall_fmap.
  - intros (Hw & Hf & _). apply valid_sym; [set_solver|]. apply Forall_app. split; [by apply IH|]. apply valid_sym; [set_solver|].
    apply valid_sym; [destruct (fd =? 0); set_solver|]. by constructor.
  - intros [Hl Hr]. apply Forall_app. split; [by apply valid_exec, IHl|]. apply valid_sym; [set_solver|by apply valid_exec, IHr].
  - intros [Hl Hr]. apply Forall_app. split; [by apply valid_exec, IHl|]. apply valid_sym; [set_solver|by apply valid_exec, IHr].
  - intros Hw. apply Forall_app. split; [by apply valid_exec, IH|]. apply valid_sym; [set_solver|constructor].
Qed.

(** C16: The shell reads what can be written.  Every command tree, of plain commands
    with fewer than ten arguments, redirections, pipelines, lists and background
    commands in any nesting, is the result of parsing some line: the one with its
    tokens and with parentheses where they are needed; and the strings of the
    result, in the line with the NULs that [nulterminate] stores, are those of
    the tree. *)
Theorem parsecmd_reads t : wf t ->
  exists c m p, parsecmd (flat (line_toks t)) 0%nat = Ok (c, m) p /\ cmd_map (cstr m) c = t.
Proof.
  intros Hw. set (line := flat (line_toks t)).
  assert (Ha : at_toks line 0 (line_toks t ++ [])) by (rewrite app_nil_r; split_and!; [done|by apply line_toks_valid|lia]).
  assert (Hl : (length (line_toks t) < bound line)%nat) by (apply at_bound in Ha; by rewrite app_nil_r in Ha).
  destruct (parseline_reads line (bound line) t 0%nat [] Hw Hl Ha (or_introl eq_refl)) as (c & p & R & Hp & Hr).
  exists c, (nulterminate c (line ++ [0])), p. split.
  - unfold parsecmd. rewrite (bind_Ok _ _ _ _ _ R), (bind_Ok _ _ _ _ _ (at_peek line p _ _ Hp)). unfold bind, gets. cbn [id].
    assert (Ep : (p =? length line)%nat = true).
    { apply Nat.eqb_eq. destruct Hp as (E & _ & Hle). apply (f_equal length) in E. rewrite length_drop in E. cbn in E. lia. }
    by rewrite Ep.
  - rewrite nulterminate_foldl. apply reads_map; [by eapply reads_ends|done|done|done].
Qed.

(** ** Running commands *)

(** What a process does next: the system calls in order, with what follows if
    they fail where the shell looks. *)
Inductive prog :=
| Exit
| Exec (argv : list (list Z)) (failed : prog)
| Close (fd : nat) (k : prog)
| Open (file : list Z) (mode : Z) (k failed : prog)
| Dup (fd : nat) (k : prog)
| MkPipe (k : nat -> nat -> prog) (failed : prog)
| Fork1 (child parent : prog)
| Wait (k : prog).

Fixpoint runcmd (c : cmd (list Z)) : prog :=
  match c with
  | EXEC [] => Exit
  | EXEC argv => Exec argv Exit
  | REDIR c file mode fd => Close (Z.to_nat fd) (Open file mode (runcmd c) Exit)
  | LIST l r => Fork1 (runcmd l) (Wait (runcmd r))
  | PIPE l r =>
      MkPipe (fun p0 p1 =>
        Fork1 (Close 1 (Dup p1 (Close p0 (Close p1 (runcmd l)))))
        (Fork1 (Close 0 (Dup p0 (Close p0 (Close p1 (runcmd r)))))
        (Close p0 (Close p1 (Wait (Wait Exit)))))) Exit
  | BACK c => Fork1 (runcmd c) Exit
  end.

(** What [main] does with a line: [cd] in the shell itself, the rest in a
    child. *)
Inductive action := Chdir (path : list Z) | Child (buf : list Z).
Definition main_line (buf : list Z) : action :=
  match buf with
  | 99 :: 100 :: 32 :: path => Chdir (removelast path)
  | _ => Child buf
  end.

(** [getcmd] with room for [nbuf] bytes: the line, or nothing at the end of the
    input. *)
Definition getcmd (nbuf : nat) (input : list Z) : option (list Z * list Z) :=
  let (buf, rest) := gets_line (nbuf - 1) input in
  if deref buf =? 0 then None else Some (buf, rest).

(** *** Descriptors *)

(** What a descriptor refers to: something the shell had open, an end of a pipe,
    or a file that was opened. *)
Inductive obj := Given (n : nat) | PipeEnd (id : nat) (writable : bool) | Opened (file : list Z) (mode : Z).
Abbreviation fdtable := (list (option obj)).

(** A program that is started, and a process that waits for children. *)
Inductive started := Runs (argv : list (list Z)) (t : fdtable) | Waits (t : fdtable).

Section Running.
(** Which files can be opened. *)
Context (opens : list Z -> Z -> bool).

Fixpoint lowest (fd : nat) (t : fdtable) : option nat :=
  match t with
  | [] => None
  | None :: _ => Some fd
  | Some _ :: t => lowest (S fd) t
  end.
Definition alloc (o : obj) (t : fdtable) : option (nat * fdtable) :=
  fd ← lowest 0 t; Some (fd, <[fd := Some o]> t).

(** What [p] and the children it forks start, a child before its parent, with the
    descriptors [t] and the number [next] of the next pipe. *)
Fixpoint starts_all (p : prog) (t : fdtable) (next : nat) : list started * nat :=
  match p with
  | Exit => ([], next)
  | Exec argv _ => ([Runs argv t], next)
  | Close fd k => starts_all k (<[fd := None]> t) next
  | Open file mode k failed =>
      match (if opens file mode then alloc (Opened file mode) t else None) with
      | Some (_, t) => starts_all k t next
      | None => starts_all failed t next
      end
  | Dup fd k =>
      match t !! fd with
      | Some (Some o) => match alloc o t with Some (_, t) => starts_all k t next | None => starts_all k t next end
      | _ => starts_all k t next
      end
  | MkPipe k failed =>
      match ('(p0, t) ← alloc (PipeEnd next false) t; '(p1, t) ← alloc (PipeEnd next true) t; Some (p0, p1, t)) with
      | Some (p0, p1, t) => starts_all (k p0 p1) t (S next)
      | None => starts_all failed t next
      end
  | Fork1 child parent =>
      let (l1, next) := starts_all child t next in
      let (l2, next) := starts_all parent t next in
      (l1 ++ l2, next)
  | Wait k => let (l, next) := starts_all k t next in (Waits t :: l, next)
  end.

(** What the command means: programs with their input and output, the other
    descriptors being those of the shell. *)
Fixpoint plumbing (c : cmd (list Z)) (i o : obj) (rest : fdtable) (next : nat) : list started * nat :=
  let t := Some i :: Some o :: rest in
  match c with
  | EXEC [] => ([], next)
  | EXEC argv => ([Runs argv t], next)
  | REDIR c file mode fd =>
      if opens file mode then
        if fd =? 0 then plumbing c (Opened file mode) o rest next else plumbing c i (Opened file mode) rest next
      else ([], next)
  | LIST l r =>
      let (l1, next) := plumbing l i o rest next in
      let (l2, next) := plumbing r i o rest next in
      (l1 ++ Waits t :: l2, next)
  | PIPE l r =>
      let id := next in
      let (l1, next) := plumbing l i (PipeEnd id true) rest (S next) in
      let (l2, next) := plumbing r (PipeEnd id false) o rest next in
      (l1 ++ l2 ++ [Waits t; Waits t], next)
  | BACK c => plumbing c i o rest next
  end.

Lemma lowest_spec t : forall k, match lowest k t with
  | Some fd => (k <= fd)%nat /\ t !! (fd - k)%nat = Some None
  | None => Forall (fun x => x <> None) t
  end.
Proof.
  induction t as [|[x|] t IH]; intros k; cbn; [constructor| |by rewrite Nat.sub_diag].
  specialize (IH (S k)). destruct (lowest (S k) t) as [fd|]; [|by constructor]. destruct IH as [Hk Hl]. split; [lia|].
  by replace (fd - k)%nat with (S (fd - S k)) by lia.
Qed.

Lemma alloc_high i o rest x a : lowest 2 rest = Some a -> (2 <= a)%nat ->
  alloc x (Some i :: Some o :: rest) = Some (a, Some i :: Some o :: <[(a - 2)%nat := Some x]> rest).
Proof.
  intros Ha Hl. unfold alloc. cbn [lowest]. rewrite Ha. destruct a as [|[|a]]; [lia..|]. cbn [mbind option_bind].
  replace (S (S a) - 2)%nat with a by lia. done.
Qed.

(** There are two free descriptors. *)
Definition room (rest : fdtable) : Prop := exists a b : nat, a <> b /\ rest !! a = Some None /\ rest !! b = Some None.

Lemma lowest_Some (t : fdtable) k (a : nat) : t !! a = Some None -> exists fd, lowest k t = Some fd /\ (k <= fd)%nat /\ t !! (fd - k)%nat = Some None.
Proof.
  intros Ha. pose proof (lowest_spec t k) as Hs. destruct (lowest k t) as [fd|]; [eauto|]. rewrite Forall_forall in Hs.
  exfalso. by apply (Hs None); [eapply list_elem_of_lookup_2|].
Qed.

(** A pipe takes two descriptors from 2 on; closing them again leaves the table
    as it was. *)
Lemma mkpipe_spec i o rest x y : room rest -> exists a b,
  ('(p0, t) ← alloc x (Some i :: Some o :: rest); '(p1, t) ← alloc y t; Some (p0, p1, t)) =
    Some (S (S a), S (S b), Some i :: Some o :: <[b := Some y]> (<[a := Some x]> rest)) /\
  a <> b /\ rest !! a = Some None /\ rest !! b = Some None.
Proof.
  intros (u & v & Huv & Hu & Hv). destruct (lowest_Some rest 2 u Hu) as (a & Ha & La & Ra).
  assert (Hw : exists w, <[(a - 2)%nat := Some x]> rest !! w = Some None).
  { destruct (decide (u = (a - 2)%nat)) as [->|Hne]; [exists v|exists u]; by rewrite list_lookup_insert_ne. }
  destruct Hw as [w Hw]. destruct (lowest_Some _ 2 w Hw) as (b & Hb & Lb & Rb).
  assert (Hne : (a - 2)%nat <> (b - 2)%nat).
  { intros E. rewrite <- E, list_lookup_insert_eq in Rb; [done|by eapply lookup_lt_Some]. }
  exists (a - 2)%nat, (b - 2)%nat. rewrite list_lookup_insert_ne in Rb by done. split; [|done].
  rewrite (alloc_high _ _ _ _ a) by done. cbn [mbind option_bind]. rewrite (alloc_high _ _ _ _ b) by done. cbn [mbind option_bind].
  replace (S (S (a - 2))) with a by lia. by replace (S (S (b - 2))) with b by lia.
Qed.

Lemma unpipe (rest : fdtable) a b x y : a <> b -> rest !! a = Some None -> rest !! b = Some None ->
  <[b := None]> (<[a := None]> (<[b := Some y]> (<[a := Some x]> rest))) = rest.
Proof.
  intros Hne Ha Hb. rewrite (list_insert_insert_ne _ a b), list_insert_insert_eq, list_insert_insert_eq by done.
  rewrite (list_insert_id rest a) by done. by rewrite list_insert_id.
Qed.

(** The tables of the two children and of the parent after their closes. *)
Lemma pipe_left i o (rest2 : fdtable) a b y k n : rest2 !! b = Some (Some y) ->
  starts_all (Close 1 (Dup (S (S b)) (Close (S (S a)) (Close (S (S b)) k)))) (Some i :: Some o :: rest2) n =
  starts_all k (Some i :: Some y :: <[b := None]> (<[a := None]> rest2)) n.
Proof.
  intros Hb. cbn [starts_all]. change ((<[1%nat:=None]> (Some i :: Some o :: rest2)) !! S (S b)) with (rest2 !! b). by rewrite Hb.
Qed.

Lemma pipe_right i o (rest2 : fdtable) a b x k n : rest2 !! a = Some (Some x) ->
  starts_all (Close 0 (Dup (S (S a)) (Close (S (S a)) (Close (S (S b)) k)))) (Some i :: Some o :: rest2) n =
  starts_all k (Some x :: Some o :: <[b := None]> (<[a := None]> rest2)) n.
Proof.
  intros Ha. cbn [starts_all]. change ((<[0%nat:=None]> (Some i :: Some o :: rest2)) !! S (S a)) with (rest2 !! a). by rewrite Ha.
Qed.

Lemma starts_fork child parent t n : starts_all (Fork1 child parent) t n =
  let (l1, n) := starts_all child t n in let (l2, n) := starts_all parent t n in (l1 ++ l2, n).
Proof. done. Qed.

Lemma starts_mkpipe k failed t n : starts_all (MkPipe k failed) t n =
  match ('(p0, t) ← alloc (PipeEnd n false) t; '(p1, t) ← alloc (PipeEnd n true) t; Some (p0, p1, t)) with
  | Some (p0, p1, t) => starts_all (k p0 p1) t (S n)
  | None => starts_all failed t n
  end.
Proof. done. Qed.

(** C17: The shell connects programs as the command says, and no descriptor is
    forgotten: every program it starts, and every process of the shell that
    waits, has the standard input and output the command gives it and otherwise
    the descriptors of the shell; in particular no process keeps an end of a
    pipe it does not use, which would keep a reader waiting forever. *)
Theorem runcmd_plumbs c : forall i o rest next, wf c -> room rest ->
  starts_all (runcmd c) (Some i :: Some o :: rest) next = plumbing c i o rest next.
Proof.
  induction c as [argv|c IH file mode fd|l IHl r IHr|l IHl r IHr|c IH]; intros i o rest next Hw Hr; cbn [runcmd plumbing].
  - by destruct argv.
  - destruct Hw as (Hw & _ & Hm). cbn [starts_all]. destruct (opens file mode); [|done].
    destruct Hm as [[_ ->]|[_ ->]]; cbn; by apply IH.
  - destruct Hw as [Hwl Hwr]. rewrite starts_mkpipe.
    destruct (mkpipe_spec i o rest (PipeEnd next false) (PipeEnd next true) Hr) as (a & b & -> & Hne & Ha & Hb).
    assert (La : (a < length rest)%nat) by (by eapply lookup_lt_Some). assert (Lb : (b < length rest)%nat) by (by eapply lookup_lt_Some).
    rewrite starts_fork, (pipe_left _ _ _ a b (PipeEnd next true)) by (apply list_lookup_insert_eq; by rewrite length_insert).
    rewrite unpipe, IHl by done. destruct (plumbing l i (PipeEnd next true) rest (S next)) as [l1 n1].
    rewrite starts_fork, (pipe_right _ _ _ a b (PipeEnd next false)) by (rewrite list_lookup_insert_ne by done; by apply list_lookup_insert_eq).
    rewrite unpipe, IHr by done. destruct (plumbing r (PipeEnd next false) o rest n1) as [l2 n2].
    change (starts_all (Close (S (S a)) (Close (S (S b)) (Wait (Wait Exit)))) (Some i :: Some o :: <[b:=Some (PipeEnd next true)]>
      (<[a:=Some (PipeEnd next false)]> rest)) n2) with (let t := Some i :: Some o :: <[b := None]> (<[a := None]>
        (<[b:=Some (PipeEnd next true)]> (<[a:=Some (PipeEnd next false)]> rest))) in ([Waits t; Waits t], n2)).
    by rewrite unpipe.
  - destruct Hw as [Hwl Hwr]. cbn [starts_all]. rewrite IHl by done. destruct (plumbing l i o rest next) as [l1 n1].
    rewrite IHr by done. by destruct (plumbing r i o rest n1) as [l2 n2].
  - cbn [starts_all]. rewrite IH by done. destruct (plumbing c i o rest next) as [l1 n1]. by rewrite app_nil_r.
Qed.
End Running.

(** ** The theorems, applied *)

(** "ls a | (cat > f)". *)
Definition demo_cmd : cmd (list Z) :=
  PIPE (EXEC [[108; 115]; [97]]) (REDIR (EXEC [[99; 97; 116]]) [102] (Z.lor O_WRONLY O_CREATE) 1).

Lemma demo_word w : w <> [] -> forallb (fun c => negb (c =? 0) && negb (in_set whitespace c) && negb (in_set symbols c)) w = true -> word w.
Proof.
  intros Hn Hw. split; [done|]. rewrite forallb_forall in Hw. apply Forall_forall. intros c Hc%list_elem_of_In%Hw.
  rewrite !andb_true_iff, !negb_true_iff, Z.eqb_neq in Hc. by destruct Hc as [[? ?] ?].
Qed.

Lemma demo_cmd_wf : wf demo_cmd.
Proof.
  unfold demo_cmd. cbn [wf]. unfold MAXARGS. rewrite !Forall_cons, !Forall_nil. cbn [length].
  split_and!; try lia; try done; try (by apply demo_word).
Qed.

Lemma parsecmd_reads_witness : exists c m p, parsecmd (flat (line_toks demo_cmd)) 0%nat = Ok (c, m) p /\ cmd_map (cstr m) c = demo_cmd.
Proof. apply (parsecmd_reads demo_cmd). exact demo_cmd_wf. Defined.

Lemma runcmd_plumbs_witness :
  starts_all (fun _ _ => true) (runcmd demo_cmd) [Some (Given 0); Some (Given 1); Some (Given 2); None; None] 0 =
    ([Runs [[108; 115]; [97]] [Some (Given 0); Some (PipeEnd 0 true); Some (Given 2); None; None];
      Runs [[99; 97; 116]] [Some (PipeEnd 0 false); Some (Opened [102] 513); Some (Given 2); None; None];
      Waits [Some (Given 0); Some (Given 1); Some (Given 2); None; None];
      Waits [Some (Given 0); Some (Given 1); Some (Given 2); None; None]], 1%nat).
Proof.
  apply (runcmd_plumbs (fun _ _ => true) demo_cmd (Given 0) (Given 1) [Some (Given 2); None; None] 0); [exact demo_cmd_wf|].
  exists 1%nat, 2%nat. by repeat split.
Defined.
