(* ===== verification/Mkfs.v ===== *)
(** * Mkfs: making the file system image (mkfs.c)

    The program that builds fs.img on the host: inodes and blocks are handed out
    in order, files and the root directory are appended to, and the bitmap is
    written last.  The theorem shows that the image is what the kernel expects:
    every file has its contents and the checksum [ilock] will verify, the
    root directory names them, its two replicas agree with it, and the bitmap
    marks the blocks in use.  A call of [exit(1)] and a failed [assert] are
    panics; the host is little-endian, so that [xint] and [xshort] change
    nothing. *)

From S2P Require Import Prelude Layout Block FsBlock FsInode FsDir FsFile FsWrite.
Open Scope Z_scope.
Open Scope xv6_scope.

Definition NINODES : Z := 300.
Definition nbitmap : Z := FSSIZE / (BSIZE * 8) + 1.
Definition nlog : Z := LOGSIZE.
Definition ninodeblocks : Z := NINODES / IPB + 1.
Definition nmeta : Z := 2 + ninodeblocks + nbitmap.
Definition nblocks : Z := FSSIZE - nlog - nmeta.

(** The image, its length in sectors, and the next block and inode. *)
Record img := Img { sects : Z -> list Z; nsect : Z; freeblock : Z; freeinode : Z }.

Definition rsect (sec : Z) : M img (list Z) :=
  let! s := gets id in
  if (0 <=? sec) && (sec <? nsect s) then ret (sects s sec) else panic "read".

Definition wsect (sec : Z) (buf : list Z) : M img unit :=
  modify (fun s => Img (upd_view sec buf (sects s)) (Z.max (nsect s) (sec + 1)) (freeblock s) (freeinode s)).

Definition i2b (inum : Z) : Z := inum / IPB + 2.

Definition winode (inum : Z) (d : dinode) : M img unit :=
  let! buf := rsect (i2b inum) in
  wsect (i2b inum) (put_dinode buf inum d).

Definition rinode (inum : Z) : M img dinode :=
  let! buf := rsect (i2b inum) in
  ret (get_dinode buf inum).

Definition ialloc (type : Z) : M img Z :=
  let! inum := gets freeinode in
  modify (fun s => Img (sects s) (nsect s) (freeblock s) (freeinode s + 1)) ;;;
  winode inum (Dinode type 0 0 1 0 (replicate 11 0) 0 0 0) ;;;
  ret inum.

(** The bitmap of the first [used] blocks. *)
Definition bitmap_to (used : Z) : list Z := foldl set_bit zero_block (seqZ 0 used).

Definition balloc (used : Z) : M img unit :=
  if negb (used <? 512 * 8) then panic "used < 512*8" else
  wsect (NINODES / IPB + 3) (bitmap_to used).

(** [freeblock++]. *)
Definition next_block : M img Z :=
  let! b := gets freeblock in
  modify (fun s => Img (sects s) (nsect s) (freeblock s + 1) (freeinode s)) ;;;
  ret b.

(** The block [x] of file block [fbn] in a turn of [iappend], allocated if need
    be: the inode with its new address, and [x]. *)
Definition iappend_block (din : dinode) (fbn : Z) : M img (dinode * Z) :=
  if fbn <? NDIRECT then
    let! din := (if direct din fbn =? 0 then let! b := next_block in ret (d_set_addr (Z.to_nat fbn) b din) else ret din) in
    ret (din, direct din fbn)
  else
    let! din := (if direct din NDIRECT =? 0 then let! b := next_block in ret (d_set_addr (Z.to_nat NDIRECT) b din)
                 else ret din) in
    let! indirect := rsect (direct din NDIRECT) in
    let! indirect := (if get_word indirect (fbn - NDIRECT) =? 0 then
                        let! b := next_block in
                        let indirect := put_word indirect (fbn - NDIRECT) b in
                        wsect (direct din NDIRECT) indirect ;;; ret indirect
                      else ret indirect) in
    ret (din, get_word indirect (fbn - NDIRECT)).

(** The loop of [iappend]; a turn fills a block. *)
Fixpoint iappend_loop (fuel : nat) (din : dinode) (off : Z) (p : list Z) (n : Z) : M img (dinode * Z) :=
  if n <=? 0 then ret (din, off) else
  match fuel with
  | O => halt OutOfFuel
  | S fuel =>
      let fbn := off / 512 in
      if negb (fbn <? MAXFILE) then panic "fbn < MAXFILE" else
      let! dx := iappend_block din fbn in
      let n1 := Z.min n ((fbn + 1) * 512 - off) in
      let! buf := rsect (snd dx) in
      wsect (snd dx) (splice (Z.to_nat (off - fbn * 512)) (take (Z.to_nat n1) p) buf) ;;;
      iappend_loop fuel (fst dx) (off + n1) (drop (Z.to_nat n1) p) (n - n1)
  end.

Definition iappend (inum : Z) (xp : list Z) (n : Z) : M img unit :=
  let! din := rinode inum in
  let! r := iappend_loop (Z.to_nat (MAXFILE + 1)) din (di_size din) xp n in
  winode inum (d_set_size (snd r) (fst r)).

Definition rblock (din : dinode) (bn : Z) : M img (list Z) :=
  if bn <? NDIRECT then rsect (direct din bn) else
  let bn := bn - NDIRECT in
  if bn <? NINDIRECT then
    let! indirect := rsect (direct din NDIRECT) in
    rsect (get_word indirect bn)
  else halt (Undefined "block not read").

Fixpoint readi_loop (fuel : nat) (din : dinode) (tot off n : Z) : M img (list Z) :=
  if n <=? tot then ret [] else
  match fuel with
  | O => halt OutOfFuel
  | S fuel =>
      let! data := rblock din (off / BSIZE) in
      let m := Z.min (n - tot) (BSIZE - off mod BSIZE) in
      let bytes := sub_bytes (Z.to_nat (off mod BSIZE)) (Z.to_nat m) data in
      let! rest := readi_loop fuel din (tot + m) (off + m) n in
      ret (bytes ++ rest)
  end.

(** [readi]: the result and the bytes stored. *)
Definition readi (din : dinode) (off n : Z) : M img (Z * list Z) :=
  if di_type din =? T_DEV then ret (-1, []) else
  if (di_size din <? off) || (u32 (off + n) <? off) then ret (-1, []) else
  let n := if di_size din <? u32 (off + n) then di_size din - off else n in
  let! bytes := readi_loop RWFUEL din 0 off n in
  ret (n, bytes).

Fixpoint ichecksum_loop (fuel : nat) (din : dinode) (off checksum : Z) : M img Z :=
  match fuel with
  | O => halt OutOfFuel
  | S fuel =>
      let! rb := readi din off 2048 in
      let r := u32 (fst rb) in
      if 0 <? r then
        let buf := snd rb ++ replicate (2048 - length (snd rb)) 0 in
        ichecksum_loop fuel din (u32 (off + r)) (xor_words 512 0 buf checksum)
      else ret checksum
  end.
Definition ichecksum (din : dinode) : M img Z := ichecksum_loop CKFUEL din 0 0.

(** [copy_dinode_content]; a turn copies a block. *)
Fixpoint copy_loop (fuel : nat) (src : dinode) (dst off : Z) : M img unit :=
  match fuel with
  | O => halt OutOfFuel
  | S fuel =>
      let! rb := readi src off 512 in
      let r := u32 (fst rb) in
      if 0 <? r then iappend dst (snd rb) r ;;; copy_loop fuel src dst (u32 (off + r)) else ret tt
  end.
Definition copy_dinode_content (src : dinode) (dst : Z) : M img unit := copy_loop (Z.to_nat (MAXFILE + 2)) src dst 0.

(** ** main *)

(** [strncpy] into the zeroed name of an entry. *)
Definition dir_name (name : list Z) : list Z := take 14 (name ++ replicate 14 0).
Definition add_entry (inum : Z) (name : list Z) : M img unit :=
  iappend ROOTINO (enc_dirent (Dirent inum (dir_name name))) 16.

(** A file, read from the host in blocks of 512 bytes. *)
Fixpoint append_file (fuel : nat) (inum : Z) (data : list Z) : M img unit :=
  match data with
  | [] => ret tt
  | _ =>
      match fuel with
      | O => halt OutOfFuel
      | S fuel =>
          iappend inum (take 512 data) (Z.of_nat (length (take 512 data))) ;;;
          append_file fuel inum (drop 512 data)
      end
  end.

Definition add_file (f : list Z * list Z) : M img unit :=
  let (name, data) := f in
  if existsb (Z.eqb 47) name then panic "index(argv[i], '/') == 0" else
  let name := match name with 95 :: name' => name' | _ => name end in
  let! inum := ialloc T_FILE in
  add_entry inum name ;;;
  append_file (length data) inum data ;;;
  let! din2 := rinode inum in
  readi din2 0 BSIZE ;;;
  let! checksum2 := ichecksum din2 in
  winode inum (d_set_checksum checksum2 din2).

(** The size of the root directory is rounded up to whole blocks. *)
Definition fix_root : M img unit :=
  let! din := rinode ROOTINO in
  let din := d_set_size ((di_size din / BSIZE + 1) * BSIZE) din in
  let! checksum := ichecksum din in
  winode ROOTINO (d_set_checksum checksum din).

Definition make_ditto (din : dinode) (inum : Z) : M img unit :=
  copy_dinode_content din inum ;;;
  let! d := rinode inum in
  winode inum (d_set_size (di_size din) (d_set_checksum (di_checksum din) d)).

Definition ditto_root : M img unit :=
  let! din := rinode ROOTINO in
  let! ditto_inum1 := ialloc T_DITTO in
  let! ditto_inum2 := ialloc T_DITTO in
  make_ditto din ditto_inum1 ;;;
  make_ditto din ditto_inum2 ;;;
  let! din := rinode ROOTINO in
  winode ROOTINO (d_set_children ditto_inum1 ditto_inum2 din).

Definition mkfs_sb : superblock := Superblock FSSIZE nblocks NINODES nlog.
Definition empty_img : img := Img (fun _ => zero_block) 0 nmeta 1.

Definition mkfs (files : list (list Z * list Z)) : M img unit :=
  if negb (nblocks + nmeta + nlog =? FSSIZE) then panic "size" else
  for_each (seqZ 0 FSSIZE) (fun i => wsect i zero_block) ;;;
  wsect 1 (splice 0 (enc_superblock mkfs_sb) zero_block) ;;;
  let! rootino := ialloc T_DIR in
  if negb (rootino =? ROOTINO) then panic "rootino == ROOTINO" else
  add_entry rootino [46] ;;;
  add_entry rootino [46; 46] ;;;
  for_each files add_file ;;;
  fix_root ;;;
  ditto_root ;;;
  let! used := gets freeblock in
  balloc used.

(** ** The image as a file system *)

Abbreviation sb := mkfs_sb.
(** What the disk will look like with the bitmap of the blocks handed out. *)
Definition ghost (s : img) : Z -> list Z := upd_view (bm sb) (bitmap_to (freeblock s)) (sects s).

Record base (s : img) : Prop := {
  ba_n : nsect s = FSSIZE;
  ba_fb : nmeta <= freeblock s <= LOGSTART;
  ba_wf : forall x, wf_block (sects s x);
  ba_zero : forall x, freeblock s <= x -> sects s x = zero_block;
  ba_sb : dec_superblock (take 16 (sects s 1)) = sb
}.

Lemma mkfs_bm : bm sb = 40 /\ nmeta = 41 /\ sb_size sb = 2000 /\ LOGSTART = 1970.
Proof. done. Qed.

Lemma bitmap_wf n : wf_block (bitmap_to n).
Proof.
  unfold bitmap_to. assert (H : forall l d, wf_block d -> wf_block (foldl set_bit d l)).
  { induction l as [|b l IH]; intros d Hd; [done|]. cbn. by apply IH, wf_set_bit. }
  apply H, wf_zero_block.
Qed.

Lemma bitmap_next n : 0 <= n -> bitmap_to (n + 1) = set_bit (bitmap_to n) n.
Proof. intros Hn. unfold bitmap_to. rewrite seqZ_app, foldl_app by lia. done. Qed.

Lemma used_zero x : used zero_block x = false.
Proof.
  unfold used, get_byte, zero_block. set (k := Z.to_nat _). destruct (replicate _ 0 !! k) as [y|] eqn:E; cbn; [|apply Z.testbit_0_l].
  apply lookup_replicate in E as [-> _]. apply Z.testbit_0_l.
Qed.

Lemma used_bitmap n x : 0 <= n <= BPB -> 0 <= x < BPB -> used (bitmap_to n) x = (x <? n).
Proof.
  intros Hn Hx. rewrite <- (Z2Nat.id n) in * by lia. induction (Z.to_nat n) as [|k IH].
  - change (bitmap_to (Z.of_nat 0)) with zero_block. rewrite used_zero. symmetry. apply Z.ltb_ge. lia.
  - rewrite Nat2Z.inj_succ, <- Z.add_1_r, bitmap_next by lia. rewrite used_set by (apply bitmap_wf || lia). rewrite IH by lia.
    case_decide; [symmetry; apply Z.ltb_lt; lia|]. destruct (Z.ltb_spec x (Z.of_nat k)), (Z.ltb_spec x (Z.of_nat k + 1)); lia || done.
Qed.

Lemma ghost_ne s x : x <> bm sb -> ghost s x = sects s x.
Proof. apply upd_view_ne. Qed.

Lemma ghost_bm s : ghost s (bm sb) = bitmap_to (freeblock s).
Proof. apply upd_view_eq. Qed.

Section Base.
Context (s : img) (B : base s).

Lemma base_range : 41 <= freeblock s <= 1970.
Proof. pose proof (ba_fb s B). destruct mkfs_bm as (_ & E1 & _ & E2). lia. Qed.

Lemma ghost_wf x : wf_block (ghost s x).
Proof. unfold ghost, upd_view. case_decide; [apply bitmap_wf|apply B]. Qed.

Lemma ghost_used x : 0 <= x < 4096 -> used (ghost s (bm sb)) x = (x <? freeblock s).
Proof. intros Hx. pose proof base_range. rewrite ghost_bm. apply used_bitmap; change BPB with 4096; lia. Qed.

Lemma ghost_geometry : fs_geometry (ghost s) sb.
Proof.
  constructor; [rewrite ghost_ne by (destruct mkfs_bm as (-> & _); lia); apply B|..]; by vm_compute.
Qed.

Lemma ghost_free : freeblock s < LOGSTART -> free_block sb (ghost s) (freeblock s).
Proof.
  intros Hf. pose proof base_range. destruct mkfs_bm as (E1 & _ & E3 & E4). unfold free_block. rewrite ghost_used by lia.
  rewrite E1, E3, E4 in *. split; [lia|apply Z.ltb_irrefl].
Qed.

(** A data block is a sector that was handed out. *)
Lemma data_sect a : data_block sb (ghost s) a -> 41 <= a < freeblock s /\ ghost s a = sects s a.
Proof.
  intros [Hr Hu]. destruct mkfs_bm as (E1 & _ & E3 & E4). rewrite E1, E3, E4 in Hr. rewrite ghost_used in Hu by lia.
  apply Z.ltb_lt in Hu. split; [lia|]. apply ghost_ne. lia.
Qed.

Lemma rsect_Ok sec : 0 <= sec < FSSIZE -> rsect sec s = Ok (sects s sec) s.
Proof.
  intros Hs. unfold rsect, bind, gets. cbn [id]. rewrite (ba_n s B), (proj2 (Z.leb_le _ _)), (proj2 (Z.ltb_lt _ _)) by lia. done.
Qed.

Lemma rsect_data a : data_block sb (ghost s) a -> rsect a s = Ok (ghost s a) s.
Proof. intros [Ha E]%data_sect. pose proof base_range. rewrite E. apply rsect_Ok. klia. Qed.
End Base.

(** Handing out a block is what [balloc] of the kernel does. *)
Definition bump (s : img) : img := Img (sects s) (nsect s) (freeblock s + 1) (freeinode s).

Lemma bump_ghost s : base s -> forall x, alloc_view sb (freeblock s) (ghost s) x = ghost (bump s) x.
Proof.
  intros B x. pose proof (base_range s B). destruct mkfs_bm as (E1 & _). unfold alloc_view. rewrite ghost_bm. cbn.
  unfold ghost at 2, upd_view. cbn. rewrite bitmap_next by lia. repeat case_decide; subst; try lia; try done.
  - symmetry. apply (ba_zero s B). lia.
  - by rewrite ghost_ne.
Qed.

Lemma bump_base s : base s -> freeblock s < LOGSTART -> base (bump s).
Proof. intros B Hf. destruct B as [? ? ? Hz ?]. constructor; cbn; try done; [lia|]. intros x Hx. apply Hz. lia. Qed.

(** Writing a sector that was handed out, or one before the bitmap. *)
Definition put_sect (sec : Z) (buf : list Z) (s : img) : img :=
  Img (upd_view sec buf (sects s)) (nsect s) (freeblock s) (freeinode s).

Lemma wsect_Ok s sec buf : base s -> 0 <= sec < FSSIZE -> wsect sec buf s = Ok tt (put_sect sec buf s).
Proof. intros B Hs. unfold wsect, modify, put_sect. by rewrite Z.max_l by (rewrite (ba_n s B); lia). Qed.

Lemma put_base s sec buf : base s -> sec < freeblock s -> sec <> 1 -> wf_block buf -> base (put_sect sec buf s).
Proof.
  intros [? ? Hw Hz ?] Hs H1 Hb. constructor; cbn; try done.
  - intros x. unfold upd_view. by case_decide.
  - intros x Hx. rewrite upd_view_ne by lia. by apply Hz.
  - by rewrite upd_view_ne.
Qed.

Lemma put_ghost s sec buf : sec <> bm sb -> forall x, upd_view sec buf (ghost s) x = ghost (put_sect sec buf s) x.
Proof. intros Hs x. unfold ghost, upd_view. cbn. unfold upd_view. repeat case_decide; congruence. Qed.

(** ** Appending *)

(** The blocks the next turn of [iappend] takes. *)
Definition need (s : img) (d : dinode) (fbn : Z) : Z :=
  if file_addr (ghost s) d fbn =? 0 then if (NDIRECT <=? fbn) && (direct d NDIRECT =? 0) then 2 else 1 else 0.

Record block_got (s : img) (d : dinode) (fbn : Z) (s' : img) (d' : dinode) : Prop := {
  bg_base : base s';
  bg_ext : extended sb (ghost s) (ghost s') d d';
  bg_addr : file_addr (ghost s') d' fbn <> 0;
  bg_fb : freeblock s' = freeblock s + need s d fbn;
  bg_fi : freeinode s' = freeinode s
}.

Lemma next_block_Ok s : next_block s = Ok (freeblock s) (bump s).
Proof. done. Qed.

Lemma block_there s d fbn : base s -> file_map sb (ghost s) d -> file_addr (ghost s) d fbn <> 0 -> block_got s d fbn s d.
Proof.
  intros B F Ha. constructor; [done|by apply extended_refl|done| |done]. unfold need. rewrite (proj2 (Z.eqb_neq _ _) Ha). lia.
Qed.

(** A direct block. *)
Lemma direct_block_Ok s d fbn : base s -> file_map sb (ghost s) d -> 0 <= fbn < NDIRECT -> freeblock s + need s d fbn <= LOGSTART ->
  exists s' d', iappend_block d fbn s = Ok (d', file_addr (ghost s') d' fbn) s' /\ block_got s d fbn s' d'.
Proof.
  intros B F Hb Hn. unfold iappend_block. rewrite (proj2 (Z.ltb_lt fbn NDIRECT)) by lia.
  assert (Ha : forall v d, file_addr v d fbn = direct d fbn) by (intros; unfold file_addr; by rewrite (proj2 (Z.ltb_lt fbn NDIRECT)) by lia).
  destruct (Z.eqb_spec (direct d fbn) 0) as [H0|H0].
  - assert (Hnd : need s d fbn = 1).
    { unfold need. rewrite Ha, H0, Z.eqb_refl. by rewrite (proj2 (Z.leb_gt NDIRECT fbn)) by lia. }
    assert (Hf : freeblock s < LOGSTART) by lia.
    destruct (extend_direct sb (ghost s) d (freeblock s) (ghost_geometry s B) (ghost_wf s B) F (ghost_free s B Hf) fbn Hb H0) as [X Hx].
    exists (bump s), (d_set_addr (Z.to_nat fbn) (freeblock s) d). rewrite Ha in Hx |- *. split; [done|].
    pose proof (base_range s B). constructor; [by apply bump_base|eapply extended_ext; [by apply bump_ghost|done]|rewrite Ha, Hx; lia|cbn; lia|done].
  - exists s, d. rewrite Ha. split; [done|]. apply block_there; [done..|by rewrite Ha].
Qed.

(** An entry of the indirect block, which is there. *)
Lemma indirect_entry_Ok s d fbn : base s -> file_map sb (ghost s) d -> NDIRECT <= fbn < MAXFILE -> direct d NDIRECT <> 0 ->
  freeblock s + need s d fbn <= LOGSTART ->
  exists s', (let! indirect := rsect (direct d NDIRECT) in
    let! indirect := (if get_word indirect (fbn - NDIRECT) =? 0 then
                        let! b := next_block in
                        let indirect := put_word indirect (fbn - NDIRECT) b in
                        wsect (direct d NDIRECT) indirect ;;; ret indirect
                      else ret indirect) in
    ret (d, get_word indirect (fbn - NDIRECT))) s = Ok (d, file_addr (ghost s') d fbn) s' /\ block_got s d fbn s' d.
Proof.
  intros B F Hb HI Hn. set (I := direct d NDIRECT) in *. assert (Hin : in_file (ghost s) d I) by (split; [done|by left]).
  pose proof (fo_data _ _ _ F _ Hin) as HD. destruct (data_sect s B _ HD) as [HIr HIg].
  assert (Ha : forall v, file_addr v d fbn = get_word (v I) (fbn - NDIRECT)).
  { intros v. unfold file_addr. fold I. by rewrite (proj2 (Z.ltb_ge fbn NDIRECT)), (proj2 (Z.eqb_neq _ _) HI) by lia. }
  rewrite (bind_Ok _ _ _ _ _ (rsect_data s B _ HD)). destruct (Z.eqb_spec (get_word (ghost s I) (fbn - NDIRECT)) 0) as [H0|H0].
  - assert (Hnd : need s d fbn = 1).
    { unfold need. fold I. rewrite Ha, H0, Z.eqb_refl, (proj2 (Z.eqb_neq I 0)) by done. by rewrite andb_false_r. }
    assert (Hf : freeblock s < LOGSTART) by lia. pose proof (base_range s B) as Hr.
    destruct (extend_indirect sb (ghost s) d (freeblock s) (ghost_geometry s B) (ghost_wf s B) F (ghost_free s B Hf) fbn Hb HI H0) as [X Hx].
    fold I in X, Hx. set (buf := put_word (ghost s I) (fbn - NDIRECT) (freeblock s)) in *.
    pose proof (bump_base s B Hf) as B1. destruct mkfs_bm as (Ebm & _).
    assert (Hg : forall x, upd_view I buf (alloc_view sb (freeblock s) (ghost s)) x = ghost (put_sect I buf (bump s)) x).
    { intros x. rewrite <- put_ghost by lia. unfold upd_view. case_decide; [done|]. by apply bump_ghost. }
    exists (put_sect I buf (bump s)). rewrite (file_addr_ext _ _ _ _ Hg), Hx. split.
    + assert (Hw : (let! b := next_block in let indirect := put_word (ghost s I) (fbn - NDIRECT) b in wsect I indirect ;;; ret indirect) s
                     = Ok buf (put_sect I buf (bump s))).
      { rewrite (bind_Ok _ _ _ _ _ (next_block_Ok s)). cbv zeta. fold buf.
        by rewrite (bind_Ok _ _ _ _ _ (wsect_Ok (bump s) I buf B1 ltac:(klia))). }
      rewrite (bind_Ok _ _ _ _ _ Hw). unfold ret. do 2 f_equal. rewrite <- Hx, Ha. by rewrite upd_view_eq.
    + constructor.
      * apply put_base; [done|cbn; lia|lia|]. unfold buf. apply wf_put_word; [apply ghost_wf, B|klia].
      * by eapply extended_ext.
      * rewrite (file_addr_ext _ _ _ _ Hg), Hx. lia.
      * cbn. lia.
      * done.
  - exists s. rewrite Ha. split; [done|]. apply block_there; [done..|by rewrite Ha].
Qed.

Lemma iappend_block_Ok s d fbn : base s -> file_map sb (ghost s) d -> 0 <= fbn < MAXFILE -> freeblock s + need s d fbn <= LOGSTART ->
  exists s' d', iappend_block d fbn s = Ok (d', file_addr (ghost s') d' fbn) s' /\ block_got s d fbn s' d'.
Proof.
  intros B F Hb Hn. destruct (Z.lt_ge_cases fbn NDIRECT) as [Hd|Hd]; [apply direct_block_Ok; [done..|lia|done]|].
  unfold iappend_block. rewrite (proj2 (Z.ltb_ge fbn NDIRECT)) by lia. destruct (Z.eqb_spec (direct d NDIRECT) 0) as [HI|HI].
  - assert (H0 : file_addr (ghost s) d fbn = 0).
    { unfold file_addr. by rewrite HI, (proj2 (Z.ltb_ge fbn NDIRECT)) by lia. }
    assert (Hnd : need s d fbn = 2).
    { unfold need. rewrite H0, HI, !Z.eqb_refl. by rewrite (proj2 (Z.leb_le NDIRECT fbn)) by lia. }
    assert (Hf : freeblock s < LOGSTART) by lia. pose proof (base_range s B) as Hr.
    destruct (extend_ind_block sb (ghost s) d (freeblock s) (ghost_geometry s B) (ghost_wf s B) F (ghost_free s B Hf) HI) as (X1 & Hb1 & Ha1).
    set (d1 := d_set_addr (Z.to_nat NDIRECT) (freeblock s) d) in *. pose proof (bump_ghost s B) as Hg.
    pose proof (extended_ext _ _ _ _ _ _ Hg X1) as X1'. pose proof (bump_base s B Hf) as B1.
    assert (Ha1' : file_addr (ghost (bump s)) d1 fbn = 0) by (rewrite (file_addr_ext _ _ _ _ Hg), Ha1 by lia; done).
    assert (Hn1 : need (bump s) d1 fbn = 1).
    { unfold need. rewrite Ha1', Z.eqb_refl, Hb1, (proj2 (Z.eqb_neq (freeblock s) 0)) by lia. by rewrite andb_false_r. }
    destruct (indirect_entry_Ok (bump s) d1 fbn B1 (ex_map _ _ _ _ _ X1')) as (s2 & R2 & [B2 X2 Ha2 Hfb2 Hfi2]);
      [lia|rewrite Hb1; lia|cbn; lia|].
    exists s2, d1. split; [|constructor; try done].
    + erewrite bind_Ok by (rewrite (bind_Ok _ _ _ _ _ (next_block_Ok s)); done). exact R2.
    + eapply extended_trans; [destruct mkfs_bm as (-> & _); lia|exact X1'|exact X2|auto|].
      intros x Hx Hz Hnz. rewrite (file_addr_ext _ _ _ _ Hg), Ha1 in Hnz by done. done.
    + rewrite Hfb2, Hn1, Hnd. cbn. lia.
  - destruct (indirect_entry_Ok s d fbn B F) as (s' & R & G); [lia|done|done|]. exists s', d. split; [|done]. exact R.
Qed.

(** The blocks of a file of [z] bytes, the indirect block included. *)
Definition blocks (z : Z) : Z := (z + 511) / 512 + (if NDIRECT * 512 <? z then 1 else 0).

Lemma blocks_mono a b : a <= b -> blocks a <= blocks b.
Proof.
  intros H. unfold blocks. pose proof (Z.div_le_mono (a + 511) (b + 511) 512).
  destruct (Z.ltb_spec (NDIRECT * 512) a), (Z.ltb_spec (NDIRECT * 512) b); lia.
Qed.

Lemma blocks_pos z : 0 <= z -> 0 <= blocks z.
Proof. intros Hz. unfold blocks. assert (0 <= (z + 511) / 512) by (apply Z.div_pos; lia). case_match; lia. Qed.

Lemma need_pos s d fbn : 0 <= need s d fbn.
Proof. unfold need. by repeat case_match. Qed.

(** A turn takes a block only at the start of one, and the indirect block only
    after the last direct one. *)
Lemma need_blocks s d hi m : 0 <= hi -> 0 < m <= 512 - hi mod 512 ->
  (forall bn, 0 <= bn -> bn * 512 < hi -> file_addr (ghost s) d bn <> 0) ->
  need s d (hi / 512) <= blocks (hi + m) - blocks hi.
Proof.
  intros Hh Hm Hf. unfold need. destruct (Z.eqb_spec (file_addr (ghost s) d (hi / 512)) 0) as [E|E];
    [|pose proof (blocks_mono hi (hi + m)); lia].
  pose proof (Z.div_mod hi 512 ltac:(lia)) as Hdm. pose proof (Z.mod_pos_bound hi 512 ltac:(lia)) as Hr.
  pose proof (Z.div_pos hi 512 Hh ltac:(lia)) as Hq. set (q := hi / 512) in *.
  assert (H0 : hi mod 512 = 0).
  { destruct (decide (hi mod 512 = 0)); [done|]. destruct (Hf q); [done|lia|done]. }
  assert (E1 : (hi + m + 511) / 512 = q + 1) by (symmetry; apply Z.div_unique with (m - 1); lia).
  assert (E2 : (hi + 511) / 512 = q) by (symmetry; apply Z.div_unique with 511; lia).
  unfold blocks. rewrite E1, E2. destruct (Z.ltb_spec (NDIRECT * 512) hi), (Z.ltb_spec (NDIRECT * 512) (hi + m)); try lia.
  - destruct (Z.eqb_spec (direct d NDIRECT) 0) as [EI|EI]; [|rewrite andb_false_r; lia].
    destruct (Hf NDIRECT); [klia|klia|]. unfold file_addr. by rewrite EI.
  - destruct (Z.leb_spec NDIRECT q); cbn [andb]; [|lia]. destruct (_ =? 0); lia.
  - rewrite (proj2 (Z.leb_gt NDIRECT q)) by lia. cbn. lia.
Qed.

Section Append.
Context (s0 : img) (d0 : dinode) (src : list Z) (F0 : file_ok sb (ghost s0) d0).
Context (Hu8 : Forall is_u8 src).
Local Abbreviation lo := (di_size d0).

(** What the loop keeps: the bytes up to [hi] are stored. *)
Record appended (s : img) (d : dinode) (hi : Z) : Prop := {
  ap_base : base s;
  ap_wrote : wrote sb (ghost s0) (ghost s) d0 d lo hi src;
  ap_lo : 0 <= lo <= hi;
  ap_max : hi <= MAXFILE * 512;
  ap_fi : freeinode s = freeinode s0;
  ap_fb : freeblock s0 <= freeblock s <= freeblock s0 + blocks hi - blocks lo
}.

Lemma iappend_turn s d hi m : appended s d hi -> 0 < m <= 512 - hi mod 512 -> hi + m <= MAXFILE * 512 ->
  hi - lo + m <= Z.of_nat (length src) -> freeblock s0 + blocks (hi + m) - blocks lo <= LOGSTART ->
  exists s1 d1 s2 (a := file_addr (ghost s1) d1 (hi / 512)),
    iappend_block d (hi / 512) s = Ok (d1, a) s1 /\ rsect a s1 = Ok (ghost s1 a) s1 /\
    wsect a (splice (Z.to_nat (hi mod 512)) (sub_bytes (Z.to_nat (hi - lo)) (Z.to_nat m) src) (ghost s1 a)) s1 = Ok tt s2 /\
    appended s2 d1 (hi + m).
Proof.
  intros [B W Hlo Hmax Hfi Hfb] Hm Hm2 Hsrc Hlim. set (q := hi / 512).
  assert (Hq : 0 <= q < MAXFILE) by (split; [apply Z.div_pos; lia|apply Z.div_lt_upper_bound; lia]).
  assert (Hneed : need s d q <= blocks (hi + m) - blocks hi).
  { apply need_blocks; [lia|done|]. intros bn Hb Hlt. apply (wr_addr _ _ _ _ _ _ _ _ W); [lia|].
    destruct (Z.lt_ge_cases (bn * 512) lo); [left; by apply F0|right; split_and!; [lia| |klia]].
    assert (lo / BSIZE < bn + 1); [apply Z.div_lt_upper_bound; klia|lia]. }
  destruct (iappend_block_Ok s d q B (wr_map _ _ _ _ _ _ _ _ W) Hq ltac:(lia)) as (s1 & d1 & R1 & [B1 X Ha Hfb1 Hfi1]).
  assert (Hdata : data_block sb (ghost s1) (file_addr (ghost s1) d1 q)) by (apply (ex_map _ _ _ _ _ X), in_file_addr; done).
  destruct (data_sect s1 B1 _ Hdata) as [Hr _]. destruct mkfs_bm as (Ebm & _). pose proof (base_range s1 B1) as Hr1.
  set (a := file_addr (ghost s1) d1 q) in *. set (buf := splice (Z.to_nat (hi mod 512)) (sub_bytes (Z.to_nat (hi - lo)) (Z.to_nat m) src) (ghost s1 a)).
  exists s1, d1, (put_sect a buf s1). split_and!; [done|by apply rsect_data|apply wsect_Ok; [done|klia]|].
  assert (Hwf : wf_block buf).
  { destruct (ghost_wf s1 B1 a) as [Hl1 Hu1]. split; [|by apply splice_u8; [apply sub_bytes_u8|]]. unfold buf.
    rewrite length_splice; [done|]. rewrite length_sub_bytes, Hl1 by lia. pose proof (Z.mod_pos_bound hi 512 ltac:(lia)). klia. }
  constructor; [by apply put_base; lia || done| |lia|lia|cbn; congruence|cbn; pose proof (need_pos s d q); lia].
  eapply wrote_ext; [apply put_ghost; lia|].
  apply (wrote_turn sb (ghost s0) (ghost s) (ghost s1) d0 d d1 lo hi m src); try done; try lia. apply ghost_wf, B1.
Qed.

Lemma iappend_loop_Ok fuel : forall s d hi n, appended s d hi -> 0 <= n -> hi + n <= MAXFILE * 512 ->
  hi - lo + n = Z.of_nat (length src) -> freeblock s0 + blocks (hi + n) - blocks lo <= LOGSTART ->
  (0 < n -> span hi n <= Z.of_nat fuel) ->
  exists s' d', iappend_loop fuel d hi (drop (Z.to_nat (hi - lo)) src) n s = Ok (d', hi + n) s' /\ appended s' d' (hi + n).
Proof.
  induction fuel as [|fuel IH]; intros s d hi n A Hn Hmax Hsrc Hlim Hf; cbn [iappend_loop];
    destruct (Z.leb_spec n 0) as [Hle|Hgt];
    try (exists s, d; replace n with 0 in * by lia; rewrite Z.add_0_r; done);
    specialize (Hf Hgt); pose proof (ap_lo _ _ _ A) as Hlo.
  { pose proof (span_pos hi n). lia. }
  cbv zeta. pose proof (Z.div_mod hi 512 ltac:(lia)) as Hdm. pose proof (Z.mod_pos_bound hi 512 ltac:(lia)) as Hr.
  rewrite (proj2 (Z.ltb_lt (hi / 512) MAXFILE)) by (apply Z.div_lt_upper_bound; lia). cbn [negb].
  set (m := Z.min n ((hi / 512 + 1) * 512 - hi)). assert (Em : m = Z.min n (512 - hi mod 512)) by lia. clearbody m.
  destruct (iappend_turn s d hi m A) as (s1 & d1 & s2 & R1 & R2 & R3 & A2); [lia..| |].
  { pose proof (blocks_mono (hi + m) (hi + n)). lia. }
  destruct (IH s2 d1 (hi + m) (n - m) A2) as (s' & d' & R & A'); try lia.
  { by replace (hi + m + (n - m)) with (hi + n) by lia. }
  { intros Hlt. replace m with (BSIZE - hi mod BSIZE) by klia. rewrite span_step by klia. lia. }
  replace (hi + m + (n - m)) with (hi + n) in * by lia. exists s', d'. split; [|done].
  rewrite (bind_Ok _ _ _ _ _ R1). cbn [fst snd]. rewrite (bind_Ok _ _ _ _ _ R2).
  replace (hi - hi / 512 * 512) with (hi mod 512) by lia. unfold sub_bytes in R3. rewrite (bind_Ok _ _ _ _ _ R3).
  rewrite drop_drop. by replace (Z.to_nat (hi - lo) + Z.to_nat m)%nat with (Z.to_nat (hi + m - lo)) by lia.
Qed.
End Append.

(** ** Files next to each other *)

(** A file is the blocks of its map: two disks that agree on them hold the same
    file. *)
Section Agree.
Context (v v' : Z -> list Z) (d : dinode) (H : forall a, in_file v d a -> v' a = v a).

Lemma agree_addr bn : file_addr v' d bn = file_addr v d bn.
Proof.
  unfold file_addr. destruct (bn <? NDIRECT); [done|]. destruct (Z.eqb_spec (direct d NDIRECT) 0); [done|].
  rewrite H; [done|]. split; [done|by left].
Qed.

Lemma agree_in a : in_file v' d a <-> in_file v d a.
Proof. unfold in_file. by setoid_rewrite agree_addr. Qed.

Lemma agree_byte x : 0 <= x < MAXFILE * BSIZE -> file_byte v' d x = file_byte v d x.
Proof.
  intros Hx. unfold file_byte, file_block. rewrite agree_addr. destruct (Z.eqb_spec (file_addr v d (x / BSIZE)) 0) as [|Hn]; [done|].
  rewrite H; [done|]. apply in_file_addr; [|done]. split; [apply Z.div_pos; klia|apply Z.div_lt_upper_bound; klia].
Qed.

Lemma agree_contents : di_size d <= MAXFILE * BSIZE -> contents v' d = contents v d.
Proof. intros Hs. apply list_fmap_ext. intros k z [-> Hz]%lookup_seqZ. apply agree_byte. lia. Qed.

Lemma agree_ok sb : file_ok sb v d -> (forall a, data_block sb v a -> data_block sb v' a) -> file_ok sb v' d.
Proof.
  intros F Hd. constructor; [constructor|apply F|]; try apply F.
  - intros a Ha%agree_in. by apply Hd, F.
  - intros b1 b2. rewrite !agree_addr. apply F.
  - intros bn. rewrite agree_addr. apply F.
  - intros bn. rewrite agree_addr. apply F.
Qed.
End Agree.

Definition img_inode (s : img) (n : Z) : dinode := get_dinode (sects s (i2b n)) n.
Definition put (n : Z) (d : dinode) (T : Z -> dinode) : Z -> dinode := fun m => if decide (m = n) then d else T m.

(** A table of the inodes handed out: each is a file, no two share a block, and
    the bytes past the end of a file are zero. *)
Record table (s : img) (T : Z -> dinode) : Prop := {
  tb_base : base s;
  tb_fi : 1 <= freeinode s <= NINODES;
  tb_ok : forall n, 1 <= n < freeinode s -> file_ok sb (ghost s) (T n);
  tb_sep : forall n m a, 1 <= n < freeinode s -> 1 <= m < freeinode s -> n <> m ->
    in_file (ghost s) (T n) a -> ~ in_file (ghost s) (T m) a;
  tb_pad : forall n x, 1 <= n < freeinode s -> di_size (T n) <= x < MAXFILE * BSIZE -> file_byte (ghost s) (T n) x = 0
}.
Abbreviation good s := (table s (img_inode s)).

(** Inode [m] and its file are in [s'] as in [s]. *)
Definition kept (s s' : img) (m : Z) : Prop :=
  img_inode s' m = img_inode s m /\ contents (ghost s') (img_inode s m) = contents (ghost s) (img_inode s m).

Lemma kept_trans s1 s2 s3 m : kept s1 s2 m -> kept s2 s3 m -> kept s1 s3 m.
Proof. intros [E1 C1] [E2 C2]. split; [congruence|]. rewrite E1 in C2. congruence. Qed.

Lemma put_eq n d T : put n d T n = d.
Proof. unfold put. by rewrite decide_True. Qed.

Lemma put_ne n m d T : m <> n -> put n d T m = T m.
Proof. intros. unfold put. by rewrite decide_False. Qed.

Lemma inodes_ext s T T' : table s T -> (forall m, 1 <= m < freeinode s -> T' m = T m) -> table s T'.
Proof.
  intros [B Hf Ho Hs Hp] E. constructor; try done.
  - intros n Hn. rewrite E by done. by apply Ho.
  - intros n m a Hn Hm. rewrite !E by done. by apply Hs.
  - intros n x Hn. rewrite E by done. by apply Hp.
Qed.

(** Changing the fields of an inode other than its map. *)
Lemma table_set s T n d : table s T -> 1 <= n < freeinode s -> di_addrs d = di_addrs (T n) -> file_ok sb (ghost s) d ->
  di_size (T n) <= di_size d -> table s (put n d T).
Proof.
  intros [B Hf Ho Hs Hp] Hn Ea F Hsz.
  assert (Hin : forall m a, in_file (ghost s) (put n d T m) a <-> in_file (ghost s) (T m) a).
  { intros m a. unfold put. case_decide; [subst m|done]. unfold in_file, file_addr, direct. by rewrite Ea. }
  constructor; try done.
  - intros m Hm. unfold put. case_decide; [done|by apply Ho].
  - intros m m' a ? ? ?. rewrite !Hin. by apply Hs.
  - intros m x Hm. unfold put. case_decide as Hmn; [subst m|by apply Hp]. intros Hx. rewrite <- (Hp n x Hn ltac:(lia)).
    unfold file_byte, file_block, file_addr, direct. by rewrite Ea.
Qed.

Lemma inode_sect n : 1 <= n < NINODES -> 2 <= i2b n < bm sb.
Proof.
  intros Hn. destruct mkfs_bm as (-> & _). unfold i2b, NINODES, IPB in *. change (BSIZE / dinode_size) with 8.
  Z.div_mod_to_equations. lia.
Qed.

Lemma table_meta s T n x : table s T -> 1 <= n < freeinode s -> in_file (ghost s) (T n) x -> bm sb < x.
Proof. intros H Hn Hx. by apply (fo_data _ _ _ (tb_ok _ _ H n Hn)) in Hx as [? _]; lia. Qed.

(** Two disks that agree on the blocks of the files. *)
Lemma table_agree s s' T : table s T -> base s' -> freeinode s' = freeinode s -> freeblock s <= freeblock s' ->
  (forall n a, 1 <= n < freeinode s -> in_file (ghost s) (T n) a -> ghost s' a = ghost s a) -> table s' T.
Proof.
  intros [B Hf Ho Hs Hp] B' Ef Eb Ha. destruct mkfs_bm as (E1 & _ & E3 & E4). constructor; try rewrite Ef; try done.
  - intros n Hn. apply (agree_ok (ghost s)); [by eauto|by apply Ho|]. intros a [Hr Hu]. split; [done|]. rewrite E1, E3, E4 in Hr.
    rewrite ghost_used in * by (done || lia). apply Z.ltb_lt in Hu. apply Z.ltb_lt. lia.
  - intros n m a Hn Hm. rewrite (agree_in (ghost s)), (agree_in (ghost s) (ghost s') (T m)) by eauto. by apply Hs.
  - intros n x Hn Hx. pose proof (tb_ok _ _ (Build_table s T B Hf Ho Hs Hp) n Hn) as F.
    rewrite (agree_byte (ghost s)); [by apply Hp|by eauto|]. split; [|lia].
    destruct (fo_wf _ _ _ F) as (_&_&_&_&Hz&_). unfold is_u32 in Hz. lia.
Qed.

(** The state after [winode]. *)
Definition set_inode (n : Z) (d : dinode) (s : img) : img := put_sect (i2b n) (put_dinode (sects s (i2b n)) n d) s.

Lemma set_inode_get s n d m : base s -> 1 <= n -> 1 <= m -> wf_dinode d -> img_inode (set_inode n d s) m = put n d (img_inode s) m.
Proof.
  intros B Hn Hm Hd. unfold img_inode, set_inode, put, put_sect. cbn [sects]. unfold upd_view. case_decide as E.
  - case_decide as E2; [subst; by rewrite get_put_dinode by (apply B || lia || done)|].
    rewrite E, get_put_dinode_ne; [done|apply B|lia|lia|done|]. unfold i2b in E. intros E3. apply E2.
    pose proof (Z.div_mod n IPB ltac:(done)). pose proof (Z.div_mod m IPB ltac:(done)). nia.
  - case_decide; [congruence|done].
Qed.

Lemma winode_Ok s T n : table s T -> 1 <= n < freeinode s -> (forall m, 1 <= m < freeinode s -> m <> n -> img_inode s m = T m) ->
  let s' := set_inode n (T n) s in
  winode n (T n) s = Ok tt s' /\ good s' /\ (forall m, 1 <= m < freeinode s -> img_inode s' m = T m) /\
  (forall m, 1 <= m < freeinode s -> contents (ghost s') (T m) = contents (ghost s) (T m)).
Proof.
  intros G Hn HT s'. pose proof (tb_base _ _ G) as B. pose proof (tb_fi _ _ G) as Hfi.
  destruct (inode_sect n) as [Hi1 Hi2]; [lia|]. destruct mkfs_bm as (Ebm & _). rewrite Ebm in *.
  pose proof (fo_wf _ _ _ (tb_ok _ _ G n Hn)) as Hwf. assert (Hr : 0 <= i2b n < FSSIZE) by klia.
  assert (Ha : forall m a, 1 <= m < freeinode s -> in_file (ghost s) (T m) a -> ghost s' a = ghost s a).
  { intros m a Hm Hx. pose proof (table_meta _ _ _ _ G Hm Hx). unfold s', set_inode. rewrite <- put_ghost by lia.
    apply upd_view_ne. lia. }
  assert (E : forall m, 1 <= m < freeinode s -> img_inode s' m = T m).
  { intros m Hm. unfold s'. rewrite set_inode_get by (done || lia). unfold put. case_decide; [by subst|by apply HT]. }
  split_and!; [| |done|].
  - unfold winode. rewrite (bind_Ok _ _ _ _ _ (rsect_Ok s B _ Hr)). by apply wsect_Ok.
  - apply inodes_ext with T; [|done]. eapply table_agree; [exact G| |done|done|done].
    apply put_base; [done|pose proof (base_range s B); lia|lia|]. apply wf_put_dinode; [apply B|lia|done].
  - intros m Hm. apply agree_contents; [by eauto|apply (tb_ok _ _ G m Hm)].
Qed.

Lemma rinode_Ok s n : base s -> 1 <= n < NINODES -> rinode n s = Ok (img_inode s n) s.
Proof.
  intros B Hn. destruct (inode_sect n Hn) as [? Hb]. destruct mkfs_bm as (E & _). rewrite E in Hb.
  unfold rinode. by rewrite (bind_Ok _ _ _ _ _ (rsect_Ok s B (i2b n) ltac:(klia))).
Qed.

Section AppendTable.
Context (s0 s1 : img) (n : Z) (d1 : dinode) (src : list Z) (G : good s0) (Hn : 1 <= n < freeinode s0).
Local Abbreviation d0 := (img_inode s0 n).
Local Abbreviation len := (Z.of_nat (length src)).
Context (A : appended s0 d0 src s1 d1 (di_size d0 + len)).
Local Abbreviation d' := (d_set_size (di_size d0 + len) d1).
Local Abbreviation T' := (put n d' (img_inode s0)).

Lemma app_used x : 0 <= x < freeblock s0 -> used (ghost s0 (bm sb)) x = true.
Proof.
  pose proof (base_range s0 (tb_base _ _ G)). intros Hx. rewrite ghost_used by (apply G || lia). apply Z.ltb_lt. lia.
Qed.

(** A block in use that is not of the file is as it was. *)
Lemma app_same x : 0 <= x < freeblock s0 -> x <> bm sb -> ~ in_file (ghost s0) d0 x -> ghost s1 x = ghost s0 x.
Proof.
  intros Hx Hb Hf. pose proof (base_range s0 (tb_base _ _ G)). destruct mkfs_bm as (_ & _ & E3 & _).
  apply (wr_view _ _ _ _ _ _ _ _ (ap_wrote _ _ _ _ _ _ A)); [lia|by apply app_used|done|done].
Qed.

Lemma app_other m a : 1 <= m < freeinode s0 -> m <> n -> in_file (ghost s0) (img_inode s0 m) a -> ghost s1 a = ghost s0 a.
Proof.
  intros Hm Hne Ha. pose proof (table_meta _ _ _ _ G Hm Ha). pose proof (fo_data _ _ _ (tb_ok _ _ G m Hm) a Ha) as Hd.
  destruct (data_sect s0 (tb_base _ _ G) a Hd). apply app_same; [lia|lia|]. by eapply (tb_sep _ _ G).
Qed.

Lemma app_inode m : 1 <= m < NINODES -> img_inode s1 m = img_inode s0 m.
Proof.
  intros Hm. destruct (inode_sect m Hm) as [Hs1 Hs2]. pose proof (base_range s0 (tb_base _ _ G)). destruct mkfs_bm as (Eb & _).
  unfold img_inode. rewrite <- (ghost_ne s1), <- (ghost_ne s0) by lia. rewrite app_same; [done|lia|lia|].
  intros Hf. pose proof (table_meta _ _ _ _ G Hn Hf). lia.
Qed.

Lemma app_max : d' = d_set_size (Z.max (di_size d0) (di_size d0 + len)) d1.
Proof. f_equal. lia. Qed.

Lemma app_ok : file_ok sb (ghost s1) d'.
Proof.
  rewrite app_max. pose proof (ap_lo _ _ _ _ _ _ A). pose proof (ap_max _ _ _ _ _ _ A).
  eapply (wrote_file_ok _ _ _ _ _ _ _ _ (ap_wrote _ _ _ _ _ _ A)); [by apply (tb_ok _ _ G)|lia|klia..].
Qed.

Lemma app_contents : contents (ghost s1) d' = contents (ghost s0) d0 ++ src.
Proof.
  rewrite app_max. pose proof (ap_lo _ _ _ _ _ _ A). pose proof (ap_max _ _ _ _ _ _ A).
  rewrite (wrote_contents _ _ _ _ _ _ _ _ (ap_wrote _ _ _ _ _ _ A)); [|by apply (tb_ok _ _ G)|lia|lia|klia|lia].
  rewrite Nat2Z.id, firstn_all. pose proof (length_contents (ghost s0) d0 ltac:(lia)).
  unfold splice. rewrite take_ge, drop_ge by lia. by rewrite app_nil_r.
Qed.

Lemma app_table : table s1 T'.
Proof.
  pose proof (ap_lo _ _ _ _ _ _ A) as Hlo. pose proof (ap_max _ _ _ _ _ _ A) as Hmax. pose proof (ap_wrote _ _ _ _ _ _ A) as W.
  pose proof (ap_fi _ _ _ _ _ _ A) as Efi.
  assert (Hnew : forall m a, 1 <= m < freeinode s0 -> m <> n -> in_file (ghost s0) (img_inode s0 m) a -> ~ in_file (ghost s1) d' a).
  { intros m a Hm Hne Ha Hx. destruct (wr_fresh _ _ _ _ _ _ _ _ W a Hx) as [Ho|Hu]; [by eapply (tb_sep _ _ G m n)|].
    destruct (fo_data _ _ _ (tb_ok _ _ G m Hm) a Ha). congruence. }
  constructor; [apply A|rewrite Efi; apply G|..]; rewrite Efi; unfold put.
  - intros m Hm. case_decide; [apply app_ok|]. apply (agree_ok (ghost s0)); [intros a Ha; by apply (app_other m)|by apply (tb_ok _ _ G)|].
    intros a [Hr Hu]. split; [done|]. apply (wr_used _ _ _ _ _ _ _ _ W); [destruct mkfs_bm; lia|done].
  - intros m m' a Hm Hm' Hne. repeat case_decide; subst; try done.
    + intros Ha Hb. rewrite (agree_in (ghost s0)) in Hb by (intros ? Ha'; by eapply app_other; [| |exact Ha']). by eapply Hnew.
    + intros Ha. rewrite (agree_in (ghost s0)) in Ha by (intros ? Ha'; by eapply app_other; [| |exact Ha']). by apply (Hnew m).
    + rewrite !(agree_in (ghost s0) (ghost s1)) by (intros ? Ha'; by eapply app_other; [| |exact Ha']). by apply (tb_sep _ _ G).
  - intros m x Hm. case_decide; intros Hx; cbn [di_size d_set_size] in Hx.
    + change (file_byte (ghost s1) d' x) with (file_byte (ghost s1) d1 x). rewrite (wr_byte _ _ _ _ _ _ _ _ W) by klia.
      rewrite decide_False by lia. apply (tb_pad _ _ G); [done|lia].
    + destruct (fo_wf _ _ _ (tb_ok _ _ G m Hm)) as (_&_&_&_&Hz&_). unfold is_u32 in Hz.
      rewrite (agree_byte (ghost s0)); [by apply (tb_pad _ _ G)|intros a Ha; by apply (app_other m)|lia].
Qed.
End AppendTable.

(** The inode after [iappend], its map aside. *)
Definition same_fields (d d' : dinode) : Prop :=
  di_type d' = di_type d /\ di_nlink d' = di_nlink d /\ di_child1 d' = di_child1 d /\ di_child2 d' = di_child2 d /\
  di_checksum d' = di_checksum d.

(** [iappend] appends. *)
Lemma iappend_Ok s n src (len := Z.of_nat (length src)) (z := di_size (img_inode s n)) : good s -> 1 <= n < freeinode s -> Forall is_u8 src ->
  z + len <= MAXFILE * 512 -> freeblock s + blocks (z + len) - blocks z <= LOGSTART ->
  exists s', iappend n src len s = Ok tt s' /\ good s' /\ (forall m, 1 <= m < freeinode s -> m <> n -> kept s s' m) /\
    freeinode s' = freeinode s /\ freeblock s <= freeblock s' <= freeblock s + blocks (z + len) - blocks z /\
    contents (ghost s') (img_inode s' n) = contents (ghost s) (img_inode s n) ++ src /\
    di_size (img_inode s' n) = z + len /\ same_fields (img_inode s n) (img_inode s' n).
Proof.
  intros G Hn Hu8 Hmax Hlim. pose proof (tb_fi _ _ G) as Hfi. pose proof (tb_ok _ _ G n Hn) as F.
  assert (Hz : 0 <= z) by (destruct (fo_wf _ _ _ F) as (_&_&_&_&Hz&_); unfold is_u32 in Hz; lia).
  assert (A0 : appended s (img_inode s n) src s (img_inode s n) z).
  { constructor; [apply G|apply wrote_refl, F|fold z; lia|pose proof (fo_size _ _ _ F); klia|done|fold z; lia]. }
  destruct (iappend_loop_Ok s (img_inode s n) src F Hu8 (Z.to_nat (MAXFILE + 1)) s (img_inode s n) z len A0) as (s1 & d1 & R & A);
    [lia|done|lia|done| |].
  { intros _. unfold span. assert ((z + len + BSIZE - 1) / BSIZE < MAXFILE + 1); [apply Z.div_lt_upper_bound; klia|].
    pose proof (Z.div_pos z BSIZE Hz ltac:(klia)). klia. }
  set (T := put n (d_set_size (z + len) d1) (img_inode s)). pose proof (app_table _ _ _ _ _ G Hn A) as G1. fold T in G1.
  pose proof (ap_fi _ _ _ _ _ _ A) as Efi.
  destruct (winode_Ok s1 T n G1) as (R1 & G2 & E2 & C2); rewrite ?Efi in *; [done| |].
  { intros m Hm Hne. unfold T. rewrite put_ne by done. apply (app_inode s s1 n d1 src G Hn A). lia. }
  assert (ETn : T n = d_set_size (z + len) d1) by apply put_eq. exists (set_inode n (T n) s1).
  assert (En : img_inode (set_inode n (T n) s1) n = d_set_size (z + len) d1) by (by rewrite E2).
  assert (Em : forall m, m <> n -> T m = img_inode s m) by (intros; by apply put_ne).
  assert (Cn : contents (ghost (set_inode n (T n) s1)) (T n) = contents (ghost s1) (T n)) by (by apply C2).
  rewrite En. rewrite <- ETn.
  split_and!; [|done| |done|apply A|apply A| | |].
  - unfold iappend. rewrite (bind_Ok _ _ _ _ _ (rinode_Ok s n (tb_base _ _ G) ltac:(lia))). fold z.
    rewrite Z.sub_diag in R. cbn [drop Z.to_nat] in R. rewrite (bind_Ok _ _ _ _ _ R). cbn [fst snd]. by rewrite <- ETn.
  - intros m Hm Hne. split; [by rewrite E2, Em|]. rewrite <- (Em m Hne), C2 by done. rewrite (Em m Hne).
    apply agree_contents; [|apply (tb_ok _ _ G m Hm)]. intros a Ha. by apply (app_other s s1 n d1 src G Hn A m).
  - rewrite Cn, ETn. by eapply app_contents.
  - by rewrite ETn.
  - rewrite ETn, (wr_fields _ _ _ _ _ _ _ _ (ap_wrote _ _ _ _ _ _ A)). by split_and!.
Qed.

(** A new inode: an empty file. *)
Definition fresh_inode (type : Z) : dinode := Dinode type 0 0 1 0 (replicate 11 0) 0 0 0.

Lemma fresh_addr v type bn : file_addr v (fresh_inode type) bn = 0.
Proof.
  assert (Hd : forall k, direct (fresh_inode type) k = 0).
  { intros k. unfold direct. destruct (di_addrs (fresh_inode type) !! Z.to_nat k) eqn:E; [|done].
    by apply (lookup_replicate 11) in E as [-> _]. }
  unfold file_addr. rewrite !Hd. by destruct (bn <? NDIRECT).
Qed.

Lemma fresh_in v type a : ~ in_file v (fresh_inode type) a.
Proof. intros [Ha [E|(bn & _ & E)]]; [by rewrite E in Ha|]. by rewrite fresh_addr in E. Qed.

Lemma fresh_ok v type : is_i16 type -> file_ok sb v (fresh_inode type).
Proof.
  intros Ht. constructor; [constructor|done|].
  - unfold wf_dinode. cbn. split_and!; try (unfold is_i16, is_u16, is_u32 in *; lia). apply (Forall_replicate is_u32 11 0). unfold is_u32. lia.
  - intros a Ha. by apply fresh_in in Ha.
  - intros b1 b2 _ _ _. by rewrite fresh_addr.
  - intros bn _. by rewrite fresh_addr.
  - cbn. intros bn Hb. klia.
Qed.

Lemma fresh_inode_byte v type x : file_byte v (fresh_inode type) x = 0.
Proof.
  unfold file_byte, file_block. rewrite fresh_addr. cbn [Z.eqb]. unfold get_byte, zero_block.
  set (k := Z.to_nat _). destruct (replicate _ 0 !! k) eqn:E; [|done]. by apply lookup_replicate in E as [-> _].
Qed.

Lemma table_fresh s type : good s -> freeinode s < NINODES -> is_i16 type ->
  table (Img (sects s) (nsect s) (freeblock s) (freeinode s + 1)) (put (freeinode s) (fresh_inode type) (img_inode s)).
Proof.
  intros [B Hf Ho Hs Hp] Hlt Ht. set (s1 := Img _ _ _ _). change (ghost s1) with (ghost s).
  constructor; cbn [freeinode]; unfold put.
  - by destruct B.
  - cbn. lia.
  - intros n Hn. change (ghost s1) with (ghost s). cbn in Hn. case_decide; [by apply fresh_ok|apply Ho; lia].
  - intros n m a Hn Hm Hne. change (ghost s1) with (ghost s). cbn in Hn, Hm. case_decide; [intros Ha; by apply fresh_in in Ha|].
    case_decide; [intros _; apply fresh_in|apply Hs; lia].
  - intros n x Hn. change (ghost s1) with (ghost s). cbn in Hn. case_decide; [intros _; apply fresh_inode_byte|]. intros Hx. apply Hp; lia.
Qed.

Lemma ialloc_Ok s type : good s -> freeinode s < NINODES -> is_i16 type ->
  exists s', ialloc type s = Ok (freeinode s) s' /\ good s' /\ freeinode s' = freeinode s + 1 /\ freeblock s' = freeblock s /\
    img_inode s' (freeinode s) = fresh_inode type /\ (forall m, 1 <= m < freeinode s -> kept s s' m).
Proof.
  intros G Hlt Ht. set (n := freeinode s). pose proof (table_fresh s type G Hlt Ht) as G1. pose proof (tb_fi _ _ G) as Hfi.
  set (s1 := Img _ _ _ _) in G1. set (T := put _ _ _) in G1.
  destruct (winode_Ok s1 T n G1) as (R & G2 & E2 & C2); [cbn; lia| |].
  { intros m Hm Hne. unfold T. by rewrite put_ne. }
  assert (ETn : T n = fresh_inode type) by apply put_eq. cbn [freeinode s1] in *.
  exists (set_inode n (T n) s1). split_and!; [|assumption|reflexivity|reflexivity| |].
  - unfold ialloc, bind at 1, gets. unfold bind at 1, modify. fold n. change (Img _ _ _ (n + 1)) with s1.
    rewrite ETn in R. change (Dinode type 0 0 1 0 (replicate 11 0) 0 0 0) with (fresh_inode type).
    rewrite (bind_Ok _ _ _ _ _ R). by rewrite ETn.
  - rewrite E2 by lia. done.
  - intros m Hm. assert (Em : T m = img_inode s m) by (apply put_ne; lia).
    split; [by rewrite E2 by lia|]. rewrite <- Em. apply C2. lia.
Qed.

(** ** Reading back *)

Section Read.
Context (s : img) (d : dinode) (B : base s) (F : file_ok sb (ghost s) d).

Lemma img_size : 0 <= di_size d <= MAXFILE * BSIZE.
Proof. destruct (fo_wf _ _ _ F) as (_&_&_&_&[? _]&_). split; [done|apply F]. Qed.

Lemma rblock_Ok bn : 0 <= bn < MAXFILE -> file_addr (ghost s) d bn <> 0 -> rblock d bn s = Ok (file_block (ghost s) d bn) s.
Proof.
  intros Hb Ha. pose proof (fo_data _ _ _ F _ (in_file_addr _ _ _ Hb Ha)) as Hd. rewrite file_block_addr by done.
  unfold rblock. destruct (Z.ltb_spec bn NDIRECT) as [Hlt|Hge].
  - unfold file_addr in *. rewrite (proj2 (Z.ltb_lt _ _) Hlt) in *. by apply rsect_data.
  - rewrite (proj2 (Z.ltb_lt (bn - NDIRECT) NINDIRECT)) by klia. destruct (file_addr_ind _ _ _ Hge Ha) as [Hi E].
    assert (HI : data_block sb (ghost s) (direct d NDIRECT)) by (apply F; split; [done|by left]).
    rewrite (bind_Ok _ _ _ _ _ (rsect_data s B _ HI)). rewrite <- E. by apply rsect_data.
Qed.

Lemma img_readi_loop fuel : forall tot off n, 0 <= tot <= n -> 0 <= off -> off + (n - tot) <= di_size d ->
  (tot < n -> span off (n - tot) <= Z.of_nat fuel) ->
  readi_loop fuel d tot off n s = Ok (file_byte (ghost s) d <$> seqZ off (n - tot)) s.
Proof.
  induction fuel as [|fuel IH]; intros tot off n Ht Ho Hsz Hf; cbn [readi_loop]; destruct (Z.leb_spec n tot) as [Hle|Hgt];
    try by replace (n - tot) with 0 by lia.
  { specialize (Hf Hgt). pose proof (span_pos off (n - tot)). lia. }
  destruct (bn_range _ _ _ off F) as [Hbn Hne]; [lia|]. rewrite (bind_Ok _ _ _ _ _ (rblock_Ok _ Hbn Hne)).
  cbv zeta. set (m := Z.min (n - tot) (BSIZE - off mod BSIZE)). pose proof (Z.mod_pos_bound off BSIZE ltac:(klia)) as Hmod.
  rewrite block_bytes by (lia || (rewrite file_block_addr by done; apply ghost_wf, B)).
  rewrite (bind_Ok _ _ _ _ _ (IH (tot + m) (off + m) n ltac:(lia) ltac:(lia) ltac:(lia) ltac:(intros Hlt; specialize (Hf Hgt);
    assert (m = BSIZE - off mod BSIZE) as -> by lia;
    replace (n - (tot + (BSIZE - off mod BSIZE))) with (n - tot - (BSIZE - off mod BSIZE)) by lia;
    rewrite span_step by lia; lia))).
  unfold ret. f_equal. replace (n - tot) with (m + (n - (tot + m))) by lia. by rewrite seqZ_app, fmap_app by lia.
Qed.

Context (Hdev : di_type d <> T_DEV).

Lemma img_readi off n : 0 <= off <= di_size d -> 0 <= n < 2 ^ 31 ->
  readi d off n s = Ok (Z.min n (di_size d - off), file_byte (ghost s) d <$> seqZ off (Z.min n (di_size d - off))) s.
Proof.
  intros Ho Hn. pose proof img_size as Hsz. set (r := Z.min n (di_size d - off)). unfold readi.
  rewrite (proj2 (Z.eqb_neq _ _) Hdev), (u32_id (off + n)) by klia.
  rewrite (proj2 (Z.ltb_ge (di_size d) off)), (proj2 (Z.ltb_ge (off + n) off)) by lia. cbn [orb]. cbv zeta.
  replace (if di_size d <? off + n then di_size d - off else n) with r by (unfold r; destruct (Z.ltb_spec (di_size d) (off + n)); lia).
  assert (R : readi_loop RWFUEL d 0 off r s = Ok (file_byte (ghost s) d <$> seqZ off (r - 0)) s).
  { apply img_readi_loop; try lia. intros Hr. unfold RWFUEL, span.
    assert ((off + (r - 0) + BSIZE - 1) / BSIZE <= MAXFILE) by (apply Z.lt_succ_r, Z.div_lt_upper_bound; klia).
    assert (0 <= off / BSIZE) by (apply Z.div_pos; klia). klia. }
  rewrite (bind_Ok _ _ _ _ _ R). by rewrite Z.sub_0_r.
Qed.

Lemma img_ichecksum_loop fuel : forall j, 0 <= j -> (di_size d + 2047) / 2048 - j < Z.of_nat fuel -> (0 < fuel)%nat ->
  ichecksum_loop fuel d (Z.min (2048 * j) (di_size d)) (xsum (contents (ghost s) d) (512 * j)) s =
  Ok (checksum_of (contents (ghost s) d)) s.
Proof.
  induction fuel as [|fuel IH]; intros j Hj Hf Hpos; [lia|]. cbn [ichecksum_loop]. pose proof img_size as Hsz.
  set (C := contents (ghost s) d) in *. assert (HC : Z.of_nat (length C) = di_size d) by (apply length_contents; lia).
  set (off := Z.min (2048 * j) (di_size d)). rewrite (bind_Ok _ _ _ _ _ (img_readi off 2048 ltac:(lia) ltac:(lia))).
  cbv zeta. cbn [fst snd]. set (r := Z.min 2048 (di_size d - off)). rewrite (u32_id r) by klia. destruct (Z.ltb_spec 0 r) as [Hr|Hr].
  - assert (Hoff : off = 2048 * j) by lia. rewrite <- contents_sub by lia. fold C.
    rewrite xor_chunk; [|lia|rewrite Hoff, Z.mul_comm; apply Z.mod_mul; lia|lia|lia|lia].
    replace (off / 4) with (512 * j) by (rewrite Hoff; Z.div_mod_to_equations; lia).
    rewrite <- xsum_add by lia. rewrite u32_id by klia. replace (off + r) with (Z.min (2048 * (j + 1)) (di_size d)) by lia.
    replace (512 * j + 512) with (512 * (j + 1)) by lia.
    assert (j + 1 <= (di_size d + 2047) / 2048) by (apply Z.div_le_lower_bound; lia). apply IH; lia.
  - unfold ret. f_equal. apply xsum_end. rewrite HC. apply Z.lt_succ_r, Z.div_lt_upper_bound; lia.
Qed.

Lemma img_ichecksum : ichecksum d s = Ok (checksum_of (contents (ghost s) d)) s.
Proof.
  pose proof img_size as Hsz. unfold ichecksum. replace 0 with (Z.min (2048 * 0) (di_size d)) at 1 by lia.
  apply (img_ichecksum_loop CKFUEL 0); [done| |by vm_compute; lia].
  assert ((di_size d + 2047) / 2048 <= 35) by (apply Z.lt_succ_r, Z.div_lt_upper_bound; klia). change (Z.of_nat CKFUEL) with 37. lia.
Qed.
End Read.

(** ** The calls of main *)

(** File [n] has grown by [src]; nothing else has changed. *)
Record grown (n : Z) (src : list Z) (s s' : img) : Prop := {
  gr_good : good s';
  gr_kept : forall m, 1 <= m < freeinode s -> m <> n -> kept s s' m;
  gr_fi : freeinode s' = freeinode s;
  gr_fb : freeblock s <= freeblock s' <= freeblock s + blocks (di_size (img_inode s' n)) - blocks (di_size (img_inode s n));
  gr_contents : contents (ghost s') (img_inode s' n) = contents (ghost s) (img_inode s n) ++ src;
  gr_size : di_size (img_inode s' n) = di_size (img_inode s n) + Z.of_nat (length src);
  gr_fields : same_fields (img_inode s n) (img_inode s' n)
}.

Lemma grown_refl n s : good s -> grown n [] s s.
Proof. intros G. constructor; try done; [lia|by rewrite app_nil_r|cbn; lia]. Qed.

Lemma grown_trans n a b s1 s2 s3 : grown n a s1 s2 -> grown n b s2 s3 -> grown n (a ++ b) s1 s3.
Proof.
  intros [G1 K1 I1 B1 C1 Z1 F1] [G2 K2 I2 B2 C2 Z2 F2]. rewrite I1 in *. constructor; try assumption.
  - intros m Hm Hne. by eapply kept_trans; [apply K1|apply K2].
  - lia.
  - by rewrite C2, C1, app_assoc.
  - rewrite length_app. lia.
  - unfold same_fields in *. intuition congruence.
Qed.

(** Room for [k] more bytes in file [n]. *)
Definition room (s : img) (n : Z) (k : Z) : Prop :=
  di_size (img_inode s n) + k <= MAXFILE * 512 /\
  freeblock s + blocks (di_size (img_inode s n) + k) - blocks (di_size (img_inode s n)) <= LOGSTART.

Lemma iappend_grows s n src : good s -> 1 <= n < freeinode s -> Forall is_u8 src -> room s n (Z.of_nat (length src)) ->
  exists s', iappend n src (Z.of_nat (length src)) s = Ok tt s' /\ grown n src s s'.
Proof.
  intros G Hn Hu [Hm Hl]. destruct (iappend_Ok s n src G Hn Hu Hm Hl) as (s' & R & G' & K & Hfi & Hfb & HC & Hz & HF).
  exists s'. split; [done|]. constructor; try done. by rewrite Hz.
Qed.

Lemma room_grown s s' n a k : grown n a s s' -> room s n (Z.of_nat (length a) + k) -> room s' n k.
Proof. intros Gr [Hm Hl]. pose proof (gr_fb _ _ _ _ Gr). pose proof (gr_size _ _ _ _ Gr) as Hz. unfold room. rewrite Hz in *. rewrite Z.add_assoc in *. lia. Qed.

Lemma room_less s n k k' : room s n k -> k' <= k -> room s n k'.
Proof. intros [Hm Hl] Hk. split; [lia|]. pose proof (blocks_mono (di_size (img_inode s n) + k') (di_size (img_inode s n) + k)). lia. Qed.

Lemma append_file_Ok fuel : forall s n data, good s -> 1 <= n < freeinode s -> Forall is_u8 data -> room s n (Z.of_nat (length data)) ->
  (length data <= fuel)%nat -> exists s', append_file fuel n data s = Ok tt s' /\ grown n data s s'.
Proof.
  induction fuel as [|fuel IH]; intros s n data G Hn Hu Hr Hf.
  { destruct data; [|cbn in Hf; lia]. exists s. split; [done|by apply grown_refl]. }
  destruct data as [|x data']; [exists s; split; [done|by apply grown_refl]|]. cbn [append_file]. set (data := x :: data') in *.
  assert (Hpos : (0 < length data)%nat) by (cbn; lia). clearbody data.
  assert (Hsplit : Z.of_nat (length data) = Z.of_nat (length (take 512 data)) + Z.of_nat (length (drop 512 data))).
  { rewrite <- Nat2Z.inj_add, <- length_app, take_drop. done. }
  destruct (iappend_grows s n (take 512 data)) as (s1 & R1 & G1); [done|done|by apply Forall_take|eapply room_less; [exact Hr|lia]|].
  destruct (IH s1 n (drop 512 data)) as (s2 & R2 & G2).
  - apply G1.
  - by rewrite (gr_fi _ _ _ _ G1).
  - by apply Forall_drop.
  - eapply room_grown; [exact G1|]. by rewrite <- Hsplit.
  - rewrite length_drop. lia.
  - exists s2. split; [by rewrite (bind_Ok _ _ _ _ _ R1)|]. rewrite <- (take_drop 512 data). by eapply grown_trans.
Qed.

(** Copying from file [m], which does not change. *)
Lemma copy_loop_Ok m n d (C : list Z) fuel : m <> n -> di_type d <> T_DEV -> forall s off,
  good s -> 1 <= n < freeinode s -> 1 <= m < freeinode s -> img_inode s m = d -> contents (ghost s) d = C ->
  0 <= off <= di_size d -> room s n (di_size d - off) -> (di_size d - off + 511) / 512 < Z.of_nat fuel ->
  exists s', copy_loop fuel d n off s = Ok tt s' /\ grown n (drop (Z.to_nat off) C) s s'.
Proof.
  intros Hmn Hdev. induction fuel as [|fuel IH]; intros s off G Hn Hm Ed EC Ho Hr Hf.
  { assert (0 <= (di_size d - off + 511) / 512) by (apply Z.div_pos; lia). lia. }
  pose proof (tb_ok _ _ G m Hm) as F. rewrite Ed in F. pose proof (img_size s d F) as Hsz.
  assert (HC : Z.of_nat (length C) = di_size d) by (rewrite <- EC; apply length_contents; lia).
  cbn [copy_loop]. rewrite (bind_Ok _ _ _ _ _ (img_readi s d (tb_base _ _ G) F Hdev off 512 Ho ltac:(lia))). cbv zeta. cbn [fst snd].
  set (r := Z.min 512 (di_size d - off)). rewrite (u32_id r) by klia. rewrite <- contents_sub by lia. rewrite EC.
  destruct (Z.ltb_spec 0 r) as [Hp|Hp].
  2: { exists s. split; [done|]. rewrite drop_ge by lia. by apply grown_refl. }
  set (a := sub_bytes (Z.to_nat off) (Z.to_nat r) C). assert (Ha : Z.of_nat (length a) = r) by (unfold a; rewrite length_sub_bytes; lia).
  destruct (iappend_grows s n a) as (s1 & R1 & G1); [done|done| |rewrite Ha; eapply room_less; [exact Hr|lia]|].
  { apply sub_bytes_u8. rewrite <- EC. apply contents_u8, ghost_wf, G. }
  destruct (gr_kept _ _ _ _ G1 m Hm Hmn) as [K1 K2]. rewrite Ed in K1, K2. rewrite Ha in R1.
  destruct (IH s1 (off + r)) as (s2 & R2 & G2); try done.
  - apply G1.
  - by rewrite (gr_fi _ _ _ _ G1).
  - by rewrite (gr_fi _ _ _ _ G1).
  - congruence.
  - lia.
  - eapply room_grown; [exact G1|]. by replace (Z.of_nat (length a) + (di_size d - (off + r))) with (di_size d - off) by lia.
  - revert Hf Hp. unfold r. clear. intros. Z.div_mod_to_equations. lia.
  - exists s2. split; [rewrite (bind_Ok _ _ _ _ _ R1), u32_id by klia; exact R2|].
    replace (drop (Z.to_nat off) C) with (a ++ drop (Z.to_nat (off + r)) C); [by eapply grown_trans|].
    unfold a, sub_bytes. replace (Z.to_nat (off + r)) with (Z.to_nat off + Z.to_nat r)%nat by lia. by rewrite <- drop_drop, take_drop.
Qed.

(** Writing back an inode whose map has not changed. *)
Lemma rewrite_Ok s n d : good s -> 1 <= n < freeinode s -> di_addrs d = di_addrs (img_inode s n) -> file_ok sb (ghost s) d ->
  di_size (img_inode s n) <= di_size d ->
  exists s', winode n d s = Ok tt s' /\ good s' /\ (forall m, 1 <= m < freeinode s -> m <> n -> kept s s' m) /\
    freeinode s' = freeinode s /\ freeblock s' = freeblock s /\ img_inode s' n = d /\ contents (ghost s') d = contents (ghost s) d.
Proof.
  intros G Hn Ea F Hz. pose proof (table_set _ _ _ _ G Hn Ea F Hz) as G1. set (T := put n d (img_inode s)) in *.
  assert (ETn : T n = d) by apply put_eq. assert (ETm : forall m, m <> n -> T m = img_inode s m) by (intros; by apply put_ne).
  destruct (winode_Ok s T n G1 Hn) as (R & G2 & E2 & C2); [intros; by rewrite ETm|].
  exists (set_inode n (T n) s). rewrite ETn in *. split_and!; [assumption|assumption| |reflexivity|reflexivity| |].
  - intros m Hm Hne. pose proof (E2 m Hm) as E. pose proof (C2 m Hm) as C. rewrite ETm in E, C by done. by split.
  - by rewrite E2.
  - rewrite <- ETn at 2 3. by apply C2.
Qed.

Definition disk_name (name : list Z) : list Z := match name with 95 :: name' => name' | _ => name end.
Definition entry_of (inum : Z) (name : list Z) : dirent := Dirent inum (dir_name name).

Lemma entry_wf inum name : is_u16 inum -> Forall is_u8 name -> wf_dirent (entry_of inum name).
Proof.
  intros Hi Hn. split_and!; [done| |].
  - cbn. unfold dir_name. rewrite length_take, length_app, length_replicate. klia.
  - apply Forall_take, Forall_app. split; [done|]. apply Forall_replicate. unfold is_u8. lia.
Qed.

Lemma entry_bytes e : wf_dirent e -> Forall is_u8 (enc_dirent e) /\ length (enc_dirent e) = 16%nat.
Proof.
  intros (Hi & Hl & Hu). unfold enc_dirent. split; [apply Forall_app; split; [apply le_bytes_u8|done]|].
  rewrite length_app, length_le_bytes, Hl. done.
Qed.

Lemma add_entry_Ok s inum name : good s -> 1 < freeinode s -> is_u16 inum -> Forall is_u8 name -> room s ROOTINO 16 ->
  exists s', add_entry inum name s = Ok tt s' /\ grown ROOTINO (enc_dirent (entry_of inum name)) s s'.
Proof.
  intros G Hf Hi Hn Hr. destruct (entry_bytes _ (entry_wf inum name Hi Hn)) as [Hu Hl].
  destruct (iappend_grows s ROOTINO (enc_dirent (entry_of inum name))) as (s' & R & Gr); [done|klia|done|by rewrite Hl|].
  rewrite Hl in R. by exists s'.
Qed.

(** Inode [n] is a file of [type] that holds [data]. *)
Record holds (s : img) (n type : Z) (data : list Z) : Prop := {
  ho_type : di_type (img_inode s n) = type;
  ho_nlink : di_nlink (img_inode s n) = 1;
  ho_child : type = T_FILE -> di_child1 (img_inode s n) = 0;
  ho_checksum : di_checksum (img_inode s n) = checksum_of data;
  ho_contents : contents (ghost s) (img_inode s n) = data
}.

Lemma holds_kept s s' n type data : kept s s' n -> holds s n type data -> holds s' n type data.
Proof. intros [E C] [? ? ? ? ?]. constructor; rewrite E; [congruence|congruence|done|congruence|congruence]. Qed.

Definition file_bytes (f : list Z * list Z) : Z := Z.of_nat (length (snd f)).
Definition valid_file (f : list Z * list Z) : Prop :=
  existsb (Z.eqb 47) (fst f) = false /\ Forall is_u8 (fst f) /\ Forall is_u8 (snd f) /\ file_bytes f <= MAXFILE * 512.

(** A file more: it has the next inode, and the root has an entry for it. *)
Record added (f : list Z * list Z) (s s' : img) : Prop := {
  ad_good : good s';
  ad_fi : freeinode s' = freeinode s + 1;
  ad_kept : forall m, 1 < m < freeinode s -> kept s s' m;
  ad_file : holds s' (freeinode s) T_FILE (snd f);
  ad_root : contents (ghost s') (img_inode s' ROOTINO) =
    contents (ghost s) (img_inode s ROOTINO) ++ enc_dirent (entry_of (freeinode s) (disk_name (fst f)));
  ad_size : di_size (img_inode s' ROOTINO) = di_size (img_inode s ROOTINO) + 16;
  ad_fields : same_fields (img_inode s ROOTINO) (img_inode s' ROOTINO);
  ad_fb : freeblock s <= freeblock s' <= freeblock s + blocks (di_size (img_inode s' ROOTINO)) - blocks (di_size (img_inode s ROOTINO)) + blocks (file_bytes f)
}.

(** The tail of [add_file]: the checksum of the new file. *)
Lemma seal_Ok s n : good s -> 1 <= n < freeinode s -> di_type (img_inode s n) <> T_DEV ->
  exists s', (let! din2 := rinode n in readi din2 0 BSIZE ;;; let! checksum2 := ichecksum din2 in winode n (d_set_checksum checksum2 din2)) s
      = Ok tt s' /\ good s' /\ (forall m, 1 <= m < freeinode s -> m <> n -> kept s s' m) /\
    freeinode s' = freeinode s /\ freeblock s' = freeblock s /\
    img_inode s' n = d_set_checksum (checksum_of (contents (ghost s) (img_inode s n))) (img_inode s n) /\
    contents (ghost s') (img_inode s' n) = contents (ghost s) (img_inode s n).
Proof.
  intros G Hn Ht. pose proof (tb_ok _ _ G n Hn) as F. pose proof (tb_base _ _ G) as B. pose proof (tb_fi _ _ G). pose proof (img_size s _ F).
  set (d := img_inode s n) in *. set (c := checksum_of (contents (ghost s) d)).
  assert (Hc : is_u32 c) by (apply checksum_u32, contents_u8, ghost_wf, B).
  destruct (rewrite_Ok s n (d_set_checksum c d) G Hn) as (s' & R & G' & K & Ei & Eb & En & EC);
    [done|by apply file_ok_checksum|done|].
  exists s'. rewrite En. split_and!; try done.
  rewrite (bind_Ok _ _ _ _ _ (rinode_Ok s n B ltac:(lia))). fold d. rewrite (bind_Ok _ _ _ _ _ (img_readi s d B F Ht 0 BSIZE ltac:(lia) ltac:(klia))).
  rewrite (bind_Ok _ _ _ _ _ (img_ichecksum s d B F Ht)). exact R.
Qed.

Lemma disk_name_u8 name : Forall is_u8 name -> Forall is_u8 (disk_name name).
Proof.
  intros H. destruct H as [|x name Hx H]; [done|]. unfold disk_name. by repeat (case_match; try by constructor).
Qed.

Lemma add_file_Ok s f : good s -> 1 < freeinode s < NINODES -> valid_file f -> di_size (img_inode s ROOTINO) + 16 <= MAXFILE * 512 ->
  freeblock s + blocks (di_size (img_inode s ROOTINO) + 16) - blocks (di_size (img_inode s ROOTINO)) + blocks (file_bytes f) <= LOGSTART ->
  exists s', add_file f s = Ok tt s' /\ added f s s'.
Proof.
  destruct f as [name data]. intros G Hf (Hsl & Hn & Hd & Hlen) Hroot Hlim. cbn [fst snd] in *. set (n := freeinode s) in *.
  pose proof (blocks_pos (file_bytes (name, data)) ltac:(unfold file_bytes; lia)) as Hb.
  destruct (ialloc_Ok s T_FILE G) as (s1 & R1 & G1 & I1 & B1 & N1 & K1); [lia|by vm_compute|]. fold n in R1, I1, N1, K1.
  destruct (K1 ROOTINO) as [Er1 Cr1]; [klia|].
  destruct (add_entry_Ok s1 n (disk_name name)) as (s2 & R2 & Gr2);
    [done|lia|unfold is_u16, NINODES in *; lia|by apply disk_name_u8|unfold room; rewrite Er1, B1; lia|].
  pose proof (gr_fi _ _ _ _ Gr2) as I2. destruct (gr_kept _ _ _ _ Gr2 n) as [N2 C2]; [lia|klia|]. rewrite N1 in N2, C2.
  pose proof (gr_size _ _ _ _ Gr2) as Z2. pose proof (gr_fb _ _ _ _ Gr2) as B2.
  rewrite (proj2 (entry_bytes _ (entry_wf n (disk_name name) ltac:(unfold is_u16, NINODES in *; lia) (disk_name_u8 _ Hn)))) in Z2.
  rewrite Er1 in Z2, B2. rewrite Z2, B1 in B2. change (Z.of_nat 16) with 16 in *.
  destruct (append_file_Ok (length data) s2 n data) as (s3 & R3 & Gr3);
    [apply Gr2|lia|done|unfold room; rewrite N2; change (di_size (fresh_inode T_FILE)) with 0;
     unfold file_bytes in *; cbn [snd] in *; change (blocks 0) with 0; rewrite !Z.add_0_l; lia|done|].
  pose proof (gr_fi _ _ _ _ Gr3) as I3. pose proof (gr_fields _ _ _ _ Gr3) as (T3 & L3 & X3 & _). pose proof (gr_fb _ _ _ _ Gr3) as B3.
  pose proof (gr_contents _ _ _ _ Gr3) as C3. rewrite N2 in C3. change (contents (ghost s2) (fresh_inode T_FILE) ++ data) with data in C3.
  rewrite N2 in T3, L3, X3, B3. rewrite (gr_size _ _ _ _ Gr3), N2 in B3.
  destruct (seal_Ok s3 n) as (s4 & R4 & G4 & K4 & I4 & B4 & N4 & C4); [apply Gr3|lia|by rewrite T3|].
  destruct (gr_kept _ _ _ _ Gr3 ROOTINO) as [Er3 Cr3]; [klia|klia|]. destruct (K4 ROOTINO) as [Er4 Cr4]; [klia|klia|].
  rewrite Er3 in Er4, Cr4.
  exists s4. split.
  - unfold add_file. rewrite Hsl. fold (disk_name name). rewrite (bind_Ok _ _ _ _ _ R1), (bind_Ok _ _ _ _ _ R2), (bind_Ok _ _ _ _ _ R3). exact R4.
  - constructor; try assumption.
    + lia.
    + intros m Hm. eapply kept_trans; [apply K1; lia|]. eapply kept_trans; [apply (gr_kept _ _ _ _ Gr2); klia|].
      eapply kept_trans; [apply (gr_kept _ _ _ _ Gr3); lia|apply K4; lia].
    + fold n. constructor; [by rewrite N4|by rewrite N4|intros _; rewrite N4; exact X3|rewrite N4; cbn [di_checksum d_set_checksum]; by rewrite C3|by rewrite C4, C3].
    + rewrite Er4, Cr4, Cr3, (gr_contents _ _ _ _ Gr2), Er1, Cr1. done.
    + by rewrite Er4.
    + rewrite Er4. pose proof (gr_fields _ _ _ _ Gr2) as F2. by rewrite Er1 in F2.
    + rewrite Er4, Z2. change (di_size (fresh_inode T_FILE)) with 0 in B3. unfold file_bytes. cbn [snd]. change (blocks 0) with 0 in B3. rewrite Z.add_0_l in B3. lia.
Qed.

Definition total_blocks (files : list (list Z * list Z)) : Z := foldr (fun f n => blocks (file_bytes f) + n) 0 files.
(** The entries of files that have inodes from [n]. *)
Definition files_entries (n : Z) (files : list (list Z * list Z)) : list dirent :=
  imap (fun k f => entry_of (n + Z.of_nat k) (disk_name (fst f))) files.

Record populated (files : list (list Z * list Z)) (s s' : img) : Prop := {
  po_good : good s';
  po_fi : freeinode s' = freeinode s + Z.of_nat (length files);
  po_kept : forall m, 1 < m < freeinode s -> kept s s' m;
  po_file : forall k f, files !! k = Some f -> holds s' (freeinode s + Z.of_nat k) T_FILE (snd f);
  po_root : contents (ghost s') (img_inode s' ROOTINO) =
    contents (ghost s) (img_inode s ROOTINO) ++ concat (enc_dirent <$> files_entries (freeinode s) files);
  po_size : di_size (img_inode s' ROOTINO) = di_size (img_inode s ROOTINO) + 16 * Z.of_nat (length files);
  po_fields : same_fields (img_inode s ROOTINO) (img_inode s' ROOTINO);
  po_fb : freeblock s <= freeblock s' <=
    freeblock s + blocks (di_size (img_inode s' ROOTINO)) - blocks (di_size (img_inode s ROOTINO)) + total_blocks files
}.

Lemma populated_cons f files s s1 s' : added f s s1 -> populated files s1 s' -> 1 < freeinode s -> populated (f :: files) s s'.
Proof.
  intros [A1 A2 A3 A4 A5 A6 A7 A8] [P1 P2 P3 P4 P5 P6 P7 P8] Hf. rewrite A2 in *. constructor.
  - done.
  - cbn [length]. lia.
  - intros m Hm. eapply kept_trans; [by apply A3|apply P3; lia].
  - intros [|k] g Hg; cbn in Hg.
    + injection Hg as <-. rewrite Z.add_0_r. eapply holds_kept; [apply P3|done]. lia.
    + specialize (P4 k g Hg). by replace (freeinode s + Z.of_nat (S k)) with (freeinode s + 1 + Z.of_nat k) by lia.
  - rewrite P5, A5. unfold files_entries. rewrite imap_cons. cbn [fmap list_fmap concat]. rewrite <- app_assoc, Z.add_0_r.
    do 4 f_equal. apply imap_ext. intros k x _. cbn. f_equal. lia.
  - cbn [length]. lia.
  - unfold same_fields in *. intuition congruence.
  - cbn [total_blocks foldr]. fold (total_blocks files). lia.
Qed.

Lemma total_pos files : 0 <= total_blocks files.
Proof. induction files as [|f files IH]; [done|]. cbn. fold (total_blocks files). pose proof (blocks_pos (file_bytes f)). unfold file_bytes in *. lia. Qed.

Lemma files_Ok files : forall s, good s -> 1 < freeinode s -> freeinode s + Z.of_nat (length files) <= NINODES -> Forall valid_file files ->
  let z := di_size (img_inode s ROOTINO) in let z' := z + 16 * Z.of_nat (length files) in z' <= MAXFILE * 512 ->
  freeblock s + blocks z' - blocks z + total_blocks files <= LOGSTART ->
  exists s', for_each files add_file s = Ok tt s' /\ populated files s s'.
Proof.
  induction files as [|f files IH]; intros s G Hf Hl Hv z z' Hz Hb.
  { exists s. split; [done|]. constructor; try done; rewrite ?app_nil_r; cbn in *; try done; lia. }
  apply Forall_cons in Hv as [Hv1 Hv]. cbn [length total_blocks foldr] in *. fold (total_blocks files) in Hb. subst z' z.
  pose proof (total_pos files). pose proof (blocks_mono (di_size (img_inode s ROOTINO) + 16) (di_size (img_inode s ROOTINO) + 16 * Z.of_nat (S (length files)))).
  destruct (add_file_Ok s f) as (s1 & R1 & A1); [done|lia|done|lia|lia|].
  pose proof (ad_fi _ _ _ A1) as I1. pose proof (ad_size _ _ _ A1) as Z1. pose proof (ad_fb _ _ _ A1) as B1. rewrite Z1 in B1.
  destruct (IH s1) as (s2 & R2 & P2); [apply A1|lia|lia|done|lia| |].
  { rewrite Z1. replace (di_size (img_inode s ROOTINO) + 16 + 16 * Z.of_nat (length files))
      with (di_size (img_inode s ROOTINO) + 16 * Z.of_nat (S (length files))) by lia. lia. }
  exists s2. split; [|by eapply populated_cons]. cbn [for_each]. rewrite (bind_Ok _ _ _ _ _ R1). exact R2.
Qed.

(** The root directory is padded to a block. *)
Definition padded (z : Z) : Z := (z / BSIZE + 1) * BSIZE.

Lemma pad_ok s d : file_ok sb (ghost s) d -> di_size d mod BSIZE <> 0 -> file_ok sb (ghost s) (d_set_size (padded (di_size d)) d).
Proof.
  intros F Hm. pose proof (img_size s d F) as [Hs1 Hs2]. pose proof (Z.div_mod (di_size d) BSIZE ltac:(klia)) as Hdm.
  pose proof (Z.mod_pos_bound (di_size d) BSIZE ltac:(klia)) as Hr. assert (Hq : 0 <= di_size d / BSIZE) by (apply Z.div_pos; klia).
  assert (Hp : padded (di_size d) <= MAXFILE * BSIZE).
  { unfold padded. assert (di_size d / BSIZE < MAXFILE); [apply Z.div_lt_upper_bound; [klia|]|klia].
    destruct (decide (di_size d = MAXFILE * BSIZE)) as [E|E]; [|klia]. destruct Hm. rewrite E. by apply Z.mod_mul. }
  constructor; [constructor|done|]; try apply F.
  - destruct (fo_wf _ _ _ F) as (?&?&?&?&?&?&?&?&?&?). split_and!; try done; cbn; unfold padded in *; klia.
  - cbn [di_size d_set_size]. intros bn Hb Hlt. change (file_addr (ghost s) (d_set_size (padded (di_size d)) d) bn) with (file_addr (ghost s) d bn).
    apply F; [done|]. unfold padded in Hlt. klia.
Qed.

Lemma pad_contents s T n : table s T -> 1 <= n < freeinode s -> padded (di_size (T n)) <= MAXFILE * BSIZE ->
  contents (ghost s) (d_set_size (padded (di_size (T n))) (T n)) =
  contents (ghost s) (T n) ++ replicate (Z.to_nat (padded (di_size (T n)) - di_size (T n))) 0.
Proof.
  intros G Hn Hp. set (d := T n) in *. pose proof (tb_ok _ _ G n Hn) as F. fold d in F. pose proof (img_size s d F) as Hs.
  set (z := di_size d) in *. assert (Hz : z <= padded z).
  { unfold padded. pose proof (Z.div_mod z BSIZE ltac:(klia)). pose proof (Z.mod_pos_bound z BSIZE ltac:(klia)). lia. }
  unfold contents at 1. cbn [di_size d_set_size]. replace (padded z) with (z + (padded z - z)) at 2 by lia.
  rewrite seqZ_app, fmap_app by lia. f_equal. apply list_eq. intros k. rewrite list_lookup_fmap.
  destruct (decide (Z.of_nat k < padded z - z)) as [Hk|Hk].
  - rewrite lookup_seqZ_lt, lookup_replicate_2 by lia. cbn [fmap option_fmap option_map]. f_equal.
    change (file_byte (ghost s) (d_set_size (padded z) d) (0 + z + Z.of_nat k)) with (file_byte (ghost s) d (0 + z + Z.of_nat k)).
    apply (tb_pad _ _ G n); [done|]. fold d z. lia.
  - rewrite lookup_seqZ_ge by lia. cbn. symmetry. apply lookup_ge_None. rewrite length_replicate. lia.
Qed.

Lemma fix_root_Ok s (d := img_inode s ROOTINO) : good s -> 1 < freeinode s -> di_type d <> T_DEV -> di_size d mod BSIZE <> 0 ->
  let C := contents (ghost s) d ++ replicate (Z.to_nat (padded (di_size d) - di_size d)) 0 in
  exists s', fix_root s = Ok tt s' /\ good s' /\ (forall m, 1 <= m < freeinode s -> m <> ROOTINO -> kept s s' m) /\
    freeinode s' = freeinode s /\ freeblock s' = freeblock s /\
    img_inode s' ROOTINO = d_set_checksum (checksum_of C) (d_set_size (padded (di_size d)) d) /\ contents (ghost s') (img_inode s' ROOTINO) = C.
Proof.
  intros G Hf Ht Hm C. assert (Hn : 1 <= ROOTINO < freeinode s) by klia. pose proof (tb_base _ _ G) as B. pose proof (tb_fi _ _ G).
  pose proof (pad_ok s d (tb_ok _ _ G _ Hn) Hm) as F. set (d1 := d_set_size (padded (di_size d)) d) in *.
  assert (HC : contents (ghost s) d1 = C) by (apply (pad_contents s (img_inode s)); [done|done|apply F]).
  assert (Hc : is_u32 (checksum_of C)) by (rewrite <- HC; apply checksum_u32, contents_u8, ghost_wf, B).
  destruct (rewrite_Ok s ROOTINO (d_set_checksum (checksum_of C) d1) G Hn) as (s' & R & G' & K & Ei & Eb & En & EC);
    [done|by apply file_ok_checksum| |].
  { change (di_size d <= padded (di_size d)). unfold padded. pose proof (Z.div_mod (di_size d) BSIZE ltac:(klia)). pose proof (Z.mod_pos_bound (di_size d) BSIZE ltac:(klia)). lia. }
  exists s'. rewrite En. split_and!; try done; [|by rewrite EC].
  unfold fix_root. rewrite (bind_Ok _ _ _ _ _ (rinode_Ok s ROOTINO B ltac:(lia))). cbv zeta. fold d. fold (padded (di_size d)). fold d1.
  rewrite (bind_Ok _ _ _ _ _ (img_ichecksum s d1 B F Ht)). by rewrite HC.
Qed.

(** A replica of the root. *)
Lemma make_ditto_Ok s n (d := img_inode s ROOTINO) (C := contents (ghost s) d) : good s -> 1 < n < freeinode s ->
  di_type d <> T_DEV -> img_inode s n = fresh_inode T_DITTO -> di_checksum d = checksum_of C -> freeblock s + blocks (di_size d) <= LOGSTART ->
  exists s', make_ditto d n s = Ok tt s' /\ good s' /\ (forall m, 1 <= m < freeinode s -> m <> n -> kept s s' m) /\
    freeinode s' = freeinode s /\ freeblock s <= freeblock s' <= freeblock s + blocks (di_size d) /\ holds s' n T_DITTO C.
Proof.
  intros G Hn Ht En Hc Hb. assert (Hr : 1 <= ROOTINO < freeinode s) by klia. pose proof (tb_fi _ _ G).
  pose proof (tb_ok _ _ G _ Hr) as F. fold d in F. pose proof (img_size s d F) as Hsz.
  destruct (copy_loop_Ok ROOTINO n d C (Z.to_nat (MAXFILE + 2))) with (s := s) (off := 0) as (s1 & R1 & G1); try done; [klia|klia|lia| | |].
  { unfold room. rewrite En. change (di_size (fresh_inode T_DITTO)) with 0. change (blocks 0) with 0. rewrite Z.sub_0_r, Z.add_0_l. klia. }
  { assert ((di_size d - 0 + 511) / 512 < MAXFILE + 1) by (apply Z.div_lt_upper_bound; klia). klia. }
  pose proof (gr_fi _ _ _ _ G1) as I1. pose proof (gr_contents _ _ _ _ G1) as C1. pose proof (gr_size _ _ _ _ G1) as Z1.
  pose proof (gr_fb _ _ _ _ G1) as B1. pose proof (gr_fields _ _ _ _ G1) as (T1 & L1 & _). rewrite Z1 in B1. rewrite En in *.
  change (contents (ghost s) (fresh_inode T_DITTO) ++ drop (Z.to_nat 0) C) with C in C1. change (drop (Z.to_nat 0) C) with C in *.
  change (di_size (fresh_inode T_DITTO)) with 0 in *. change (blocks 0) with 0 in B1.
  assert (HC : Z.of_nat (length C) = di_size d) by (apply length_contents; lia). rewrite HC, Z.add_0_l in *.
  assert (Hcu : is_u32 (di_checksum d)) by apply (fo_wf _ _ _ F).
  set (d1 := img_inode s1 n) in *. set (d2 := d_set_size (di_size d) (d_set_checksum (di_checksum d) d1)).
  assert (Hn1 : 1 <= n < freeinode s1) by lia.
  assert (E2 : d2 = d_set_checksum (di_checksum d) d1) by (unfold d2; destruct d1; unfold d_set_size, d_set_checksum; cbn in *; by rewrite Z1).
  destruct (rewrite_Ok s1 n d2 (gr_good _ _ _ _ G1) Hn1) as (s2 & R2 & G2 & K2 & I2 & B2 & N2 & C2);
    [done|rewrite E2; apply file_ok_checksum; [apply (tb_ok _ _ (gr_good _ _ _ _ G1) _ Hn1)|done]|change (di_size d1 <= di_size d); lia|].
  exists s2. split_and!; try assumption; try lia.
  - unfold make_ditto, copy_dinode_content. rewrite (bind_Ok _ _ _ _ _ R1).
    by rewrite (bind_Ok _ _ _ _ _ (rinode_Ok s1 n (tb_base _ _ (gr_good _ _ _ _ G1)) ltac:(lia))).
  - intros m Hm Hne. eapply kept_trans; [by apply (gr_kept _ _ _ _ G1)|apply K2; [lia|done]].
  - constructor; rewrite N2; [done|done|done|done|]. rewrite C2, E2. exact C1.
Qed.

Lemma ditto_root_Ok s (d := img_inode s ROOTINO) (C := contents (ghost s) d) (n := freeinode s) : good s -> 1 < n -> n + 2 <= NINODES ->
  di_type d <> T_DEV -> di_checksum d = checksum_of C -> freeblock s + 2 * blocks (di_size d) <= LOGSTART ->
  exists s', ditto_root s = Ok tt s' /\ good s' /\ (forall m, 1 < m < n -> kept s s' m) /\ freeinode s' = n + 2 /\
    img_inode s' ROOTINO = d_set_children n (n + 1) d /\ contents (ghost s') (img_inode s' ROOTINO) = C /\
    holds s' n T_DITTO C /\ holds s' (n + 1) T_DITTO C.
Proof.
  intros G H1 Hn Ht Hc Hb. assert (Hr : 1 <= ROOTINO < n) by klia. pose proof (tb_fi _ _ G).
  pose proof (img_size s d (tb_ok _ _ G _ Hr)) as Hsz. pose proof (blocks_pos (di_size d)) as Hbp.
  destruct (ialloc_Ok s T_DITTO G) as (s1 & R1 & G1 & I1 & B1 & N1 & K1); [lia|by vm_compute|]. fold n in R1, I1, N1, K1.
  destruct (ialloc_Ok s1 T_DITTO G1) as (s2 & R2 & G2 & I2 & B2 & N2 & K2); [lia|by vm_compute|]. rewrite I1 in R2, I2, N2, K2.
  assert (K02 : forall m, 1 <= m < n -> kept s s2 m) by (intros m Hm; eapply kept_trans; [by apply K1|apply K2; lia]).
  destruct (K02 ROOTINO Hr) as [E2 C2]. fold d C in E2, C2. destruct (K2 n) as [M2 _]; [lia|]. rewrite N1 in M2.
  destruct (make_ditto_Ok s2 n) as (s3 & R3 & G3 & K3 & I3 & B3 & H3); rewrite ?E2, ?C2; [done|lia|done|done|done|lia|]. rewrite E2, C2 in *.
  destruct (K3 ROOTINO) as [E3 C3]; [klia|klia|]. rewrite E2, C2 in *. destruct (K3 (n + 1)) as [M3 _]; [lia|lia|]. rewrite N2 in M3.
  destruct (make_ditto_Ok s3 (n + 1)) as (s4 & R4 & G4 & K4 & I4 & B4 & H4); rewrite ?E3, ?C3; [done|lia|done|done|done|lia|]. rewrite E3, C3 in *.
  destruct (K4 ROOTINO) as [E4 C4]; [klia|klia|]. rewrite E3, C3 in *.
  assert (Hr4 : 1 <= ROOTINO < freeinode s4) by klia. pose proof (tb_ok _ _ G4 _ Hr4) as F4. rewrite E4 in F4.
  destruct (rewrite_Ok s4 ROOTINO (d_set_children n (n + 1) d) G4 Hr4) as (s5 & R5 & G5 & K5 & I5 & B5 & N5 & C5); rewrite ?E4; [done| |done|].
  { constructor; [constructor|..]; try apply F4. destruct (fo_wf _ _ _ F4) as (?&?&?&?&?&?&?&?&?&?).
    split_and!; try done; cbn; unfold is_i16, NINODES in *; lia. }
  exists s5. split_and!; try assumption; try lia.
  - unfold ditto_root. rewrite (bind_Ok _ _ _ _ _ (rinode_Ok s ROOTINO (tb_base _ _ G) ltac:(lia))). fold d.
    rewrite (bind_Ok _ _ _ _ _ R1), (bind_Ok _ _ _ _ _ R2), (bind_Ok _ _ _ _ _ R3), (bind_Ok _ _ _ _ _ R4).
    rewrite (bind_Ok _ _ _ _ _ (rinode_Ok s4 ROOTINO (tb_base _ _ G4) ltac:(lia))), E4. exact R5.
  - intros m Hm. eapply kept_trans; [apply K02; lia|]. eapply kept_trans; [apply K3; lia|]. eapply kept_trans; [apply K4; lia|apply K5; klia].
  - rewrite N5, C5. exact C4.
  - eapply holds_kept; [apply K5; klia|]. eapply holds_kept; [apply K4; lia|done].
  - eapply holds_kept; [apply K5; klia|done].
Qed.

(** The image before the first inode. *)
Lemma zero_img_Ok m : forall k s, 0 <= k -> nsect s = k -> (forall x, sects s x = zero_block) ->
  exists s', for_each (seqZ k (Z.of_nat m)) (fun i => wsect i zero_block) s = Ok tt s' /\ nsect s' = k + Z.of_nat m /\
    (forall x, sects s' x = zero_block) /\ freeblock s' = freeblock s /\ freeinode s' = freeinode s.
Proof.
  induction m as [|m IH]; intros k s Hk Hs Hz; [exists s; cbn; split_and!; try done; lia|].
  set (s1 := Img (upd_view k zero_block (sects s)) (Z.max (nsect s) (k + 1)) (freeblock s) (freeinode s)).
  destruct (IH (k + 1) s1) as (s' & R & E1 & E2 & E3 & E4); [lia|cbn; lia| |].
  { intros x. cbn. unfold upd_view. by case_decide. }
  exists s'. split_and!; [|lia|done..]. rewrite seqZ_cons by lia. replace (Z.pred (Z.of_nat (S m))) with (Z.of_nat m) by lia. exact R.
Qed.

Lemma start_Ok : exists s1 s2, for_each (seqZ 0 FSSIZE) (fun i => wsect i zero_block) empty_img = Ok tt s1 /\
  wsect 1 (splice 0 (enc_superblock mkfs_sb) zero_block) s1 = Ok tt s2 /\ good s2 /\ freeblock s2 = nmeta /\ freeinode s2 = 1.
Proof.
  destruct (zero_img_Ok (Z.to_nat FSSIZE) 0 empty_img) as (s1 & R & E1 & E2 & E3 & E4); try done.
  rewrite Z2Nat.id in R, E1 by done. change (0 + FSSIZE) with FSSIZE in E1. set (buf := splice 0 (enc_superblock mkfs_sb) zero_block).
  exists s1. eexists. split; [exact R|]. split; [done|]. rewrite E1, E3, E4.
  assert (Hwf : wf_block buf) by (split; [done|]; apply splice_u8; [|by apply wf_zero_block]; repeat (apply Forall_app_2; [apply le_bytes_u8|]); apply le_bytes_u8 || done).
  split; [|done]. constructor; [|by vm_compute|cbn; lia..]. constructor; cbn [sects nsect freeblock].
  - done.
  - by vm_compute.
  - intros x. unfold upd_view. case_decide; [done|]. rewrite E2. apply wf_zero_block.
  - intros x Hx. rewrite upd_view_ne; [apply E2|]. change (freeblock empty_img) with 41 in Hx. lia.
  - rewrite upd_view_eq. by vm_compute.
Qed.

(** ** The image *)

Definition inode_at (v : Z -> list Z) (n : Z) : dinode := get_dinode (v (IBLOCK n)) n.

(** Inode [n] of the disk is a file of [type] that holds [data], with the checksum
    that [ilock] will verify. *)
Record stored (v : Z -> list Z) (n type : Z) (data : list Z) : Prop := {
  st_ok : file_ok sb v (inode_at v n);
  st_type : di_type (inode_at v n) = type;
  st_nlink : di_nlink (inode_at v n) = 1;
  st_child : type = T_FILE -> di_child1 (inode_at v n) = 0;
  st_checksum : di_checksum (inode_at v n) = checksum_of data;
  st_contents : contents v (inode_at v n) = data
}.

Definition root_entries (files : list (list Z * list Z)) : list dirent :=
  entry_of ROOTINO [46] :: entry_of ROOTINO [46; 46] :: files_entries 2 files.
Definition root_size (files : list (list Z * list Z)) : Z := 16 * (2 + Z.of_nat (length files)).
Definition root_bytes (files : list (list Z * list Z)) : list Z :=
  concat (enc_dirent <$> root_entries files) ++ replicate (Z.to_nat (padded (root_size files) - root_size files)) 0.

(** The file system that the disk [v] holds: the superblock, the root directory
    with its entries and two replicas, the files, and the bitmap of the first
    [fb] blocks. *)
Record fs_image (files : list (list Z * list Z)) (v : Z -> list Z) (fb : Z) : Prop := {
  im_geometry : fs_geometry v sb;
  im_file : forall k f, files !! k = Some f -> stored v (2 + Z.of_nat k) T_FILE (snd f);
  im_root : stored v ROOTINO T_DIR (root_bytes files);
  im_child1 : di_child1 (inode_at v ROOTINO) = 2 + Z.of_nat (length files);
  im_child2 : di_child2 (inode_at v ROOTINO) = 3 + Z.of_nat (length files);
  im_ditto1 : stored v (2 + Z.of_nat (length files)) T_DITTO (root_bytes files);
  im_ditto2 : stored v (3 + Z.of_nat (length files)) T_DITTO (root_bytes files);
  im_sep : forall n m a, 1 <= n < 4 + Z.of_nat (length files) -> 1 <= m < 4 + Z.of_nat (length files) -> n <> m ->
    in_file v (inode_at v n) a -> ~ in_file v (inode_at v m) a;
  im_bitmap : forall x, 0 <= x < sb_size sb -> used (v (bm sb)) x = (x <? fb);
  im_wf : forall x, wf_block (v x);
  im_rest : fb <= LOGSTART /\ forall x, fb <= x -> v x = zero_block
}.

Lemma holds_stored s v n type data : good s -> 1 <= n < freeinode s -> (forall x, ghost s x = v x) -> holds s n type data ->
  stored v n type data.
Proof.
  intros G Hn E [Ht Hl Hch Hc HC]. pose proof (tb_fi _ _ G). destruct (inode_sect n) as [Hs1 Hs2]; [lia|].
  assert (EI : inode_at v n = img_inode s n) by (unfold inode_at, img_inode; rewrite <- E, ghost_ne by (unfold i2b, IBLOCK in *; lia); done).
  constructor; rewrite EI; [|assumption..|].
  - eapply file_ok_ext; [exact E|by apply (tb_ok _ _ G)].
  - by rewrite <- (contents_ext _ _ _ E).
Qed.

(** The root with its two entries. *)
Lemma root_Ok s : good s -> freeblock s = nmeta -> freeinode s = 1 ->
  exists s1 s2 s3, ialloc T_DIR s = Ok ROOTINO s1 /\ add_entry ROOTINO [46] s1 = Ok tt s2 /\ add_entry ROOTINO [46; 46] s2 = Ok tt s3 /\
    good s3 /\ freeinode s3 = 2 /\ nmeta <= freeblock s3 <= nmeta + blocks 32 /\ di_size (img_inode s3 ROOTINO) = 32 /\
    di_type (img_inode s3 ROOTINO) = T_DIR /\ di_nlink (img_inode s3 ROOTINO) = 1 /\
    contents (ghost s3) (img_inode s3 ROOTINO) = enc_dirent (entry_of ROOTINO [46]) ++ enc_dirent (entry_of ROOTINO [46; 46]).
Proof.
  intros G Hb Hi. assert (Hu : forall l, l = [46] \/ l = [46; 46] -> Forall is_u8 l) by (intros l [-> | ->]; repeat constructor; lia).
  destruct (ialloc_Ok s T_DIR G) as (s1 & R1 & G1 & I1 & B1 & N1 & _); [rewrite Hi; done|by vm_compute|]. rewrite Hi in *. change (1 + 1) with 2 in I1.
  fold ROOTINO in R1, N1.
  destruct (add_entry_Ok s1 ROOTINO [46]) as (s2 & R2 & Gr2); [done|lia|done|by auto|unfold room; rewrite N1, B1, Hb; by vm_compute|].
  pose proof (gr_size _ _ _ _ Gr2) as Z2. rewrite N1 in Z2. change (di_size (img_inode s2 ROOTINO) = 16) in Z2.
  pose proof (gr_fb _ _ _ _ Gr2) as F2. rewrite N1, Z2, B1, Hb in F2. change (blocks (di_size (fresh_inode T_DIR))) with 0 in F2.
  change (blocks 16) with 1 in F2. pose proof (gr_fi _ _ _ _ Gr2) as I2. destruct mkfs_bm as (_ & En & _ & El).
  destruct (add_entry_Ok s2 ROOTINO [46; 46]) as (s3 & R3 & Gr3); [apply Gr2|lia|done|by auto|unfold room; rewrite Z2, El; split; [by vm_compute|]|].
  { change (blocks (16 + 16)) with 1. change (blocks 16) with 1. lia. }
  pose proof (gr_size _ _ _ _ Gr3) as Z3. rewrite Z2 in Z3. change (di_size (img_inode s3 ROOTINO) = 32) in Z3.
  pose proof (gr_fb _ _ _ _ Gr3) as F3. rewrite Z2, Z3 in F3. change (blocks 32) with 1 in *. change (blocks 16) with 1 in F3.
  pose proof (gr_fi _ _ _ _ Gr3) as I3. destruct (gr_fields _ _ _ _ Gr2) as (T2 & L2 & _). destruct (gr_fields _ _ _ _ Gr3) as (T3 & L3 & _).
  rewrite N1 in T2, L2. exists s1, s2, s3. split_and!; [exact R1|exact R2|exact R3|apply (gr_good _ _ _ _ Gr3)|lia|lia|lia|exact Z3|by rewrite T3, T2|by rewrite L3, L2|].
  rewrite (gr_contents _ _ _ _ Gr3), (gr_contents _ _ _ _ Gr2), N1. done.
Qed.

Lemma write_bitmap_Ok s : base s -> balloc (freeblock s) s = Ok tt (put_sect (bm sb) (bitmap_to (freeblock s)) s).
Proof.
  intros B. pose proof (base_range s B). unfold balloc. rewrite (proj2 (Z.ltb_lt _ _)) by lia.
  apply wsect_Ok; [done|by vm_compute].
Qed.

(** The hypotheses of the image: the files are valid, there are inodes and blocks
    for them, the root and its replicas, and the entries do not fill a block
    exactly. *)
Record fits (files : list (list Z * list Z)) : Prop := {
  fi_valid : Forall valid_file files;
  fi_inodes : Z.of_nat (length files) + 4 <= NINODES;
  fi_root : root_size files mod BSIZE <> 0;
  fi_blocks : nmeta + 3 * blocks (padded (root_size files)) + total_blocks files <= LOGSTART
}.

(** The run up to the replicas of the root. *)
Lemma mkfs_files files (len := Z.of_nat (length files)) : fits files ->
  exists s, mkfs files empty_img = (ditto_root ;;; let! used := gets freeblock in balloc used) s /\ good s /\ freeinode s = 2 + len /\
    (forall k f, files !! k = Some f -> holds s (2 + Z.of_nat k) T_FILE (snd f)) /\
    holds s ROOTINO T_DIR (root_bytes files) /\ di_size (img_inode s ROOTINO) = padded (root_size files) /\
    freeblock s + 2 * blocks (padded (root_size files)) <= LOGSTART.
Proof.
  intros [Hv Hlen Hmod Hlim]. fold len in Hlen. set (z := root_size files) in *.
  assert (Ez : z = 32 + 16 * len) by (unfold z, root_size; fold len; lia).
  assert (Hp : z <= padded z).
  { unfold padded. pose proof (Z.div_mod z BSIZE ltac:(klia)). pose proof (Z.mod_pos_bound z BSIZE ltac:(klia)). lia. }
  pose proof (blocks_mono _ _ Hp) as Hbz. pose proof (blocks_pos (padded z) ltac:(lia)) as Hbp. pose proof (total_pos files) as Htp.
  destruct mkfs_bm as (_ & En & _ & El). destruct start_Ok as (s1 & s2 & R1 & R2 & G2 & B2 & I2).
  destruct (root_Ok s2 G2 B2 I2) as (s3 & s4 & s5 & R3 & R4 & R5 & G5 & I5 & B5 & Z5 & T5 & L5 & C5).
  destruct (files_Ok files s5 G5) as (s6 & R6 & P6); [lia|fold len; lia|done|unfold NINODES in *; rewrite Z5; fold len; klia| |].
  { rewrite Z5. fold len. rewrite <- Ez. lia. }
  destruct P6 as [G6 I6 _ F6 C6 Z6 (T6 & L6 & _) B6]. rewrite Z5 in Z6, B6. rewrite I5 in I6, F6, C6. fold len in I6, Z6. rewrite <- Ez in Z6.
  rewrite Z6 in B6. rewrite T5 in T6. rewrite L5 in L6.
  destruct (fix_root_Ok s6 G6) as (s7 & R7 & G7 & K7 & I7 & B7 & N7 & C7); [lia|by rewrite T6|by rewrite Z6|].
  rewrite C6, C5, Z6, <- app_assoc in C7, N7. rewrite <- app_assoc in C7, N7.
  fold (root_bytes files) in *.
  change (enc_dirent (entry_of ROOTINO [46]) ++ enc_dirent (entry_of ROOTINO [46; 46]) ++
    concat (enc_dirent <$> files_entries 2 files) ++ replicate (Z.to_nat (padded z - z)) 0) with (root_bytes files) in *.
  exists s7. split_and!; [|assumption|lia| | |by rewrite N7|lia].
  - unfold mkfs. change (negb (nblocks + nmeta + nlog =? FSSIZE)) with false. cbv iota.
    rewrite (bind_Ok _ _ _ _ _ R1), (bind_Ok _ _ _ _ _ R2), (bind_Ok _ _ _ _ _ R3). change (negb (ROOTINO =? ROOTINO)) with false. cbv iota.
    by rewrite (bind_Ok _ _ _ _ _ R4), (bind_Ok _ _ _ _ _ R5), (bind_Ok _ _ _ _ _ R6), (bind_Ok _ _ _ _ _ R7).
  - intros k f Hk. pose proof (lookup_lt_Some _ _ _ Hk). eapply holds_kept; [apply K7; [lia|klia]|by apply F6].
  - constructor; [by rewrite N7|by rewrite N7|done|by rewrite N7|exact C7].
Qed.

(** The state before the bitmap is written. *)
Lemma mkfs_body files (len := Z.of_nat (length files)) : fits files ->
  exists s, mkfs files empty_img = balloc (freeblock s) s /\ good s /\ freeinode s = 4 + len /\
    (forall k f, files !! k = Some f -> holds s (2 + Z.of_nat k) T_FILE (snd f)) /\ holds s ROOTINO T_DIR (root_bytes files) /\
    di_child1 (img_inode s ROOTINO) = 2 + len /\ di_child2 (img_inode s ROOTINO) = 3 + len /\
    holds s (2 + len) T_DITTO (root_bytes files) /\ holds s (3 + len) T_DITTO (root_bytes files).
Proof.
  intros H. pose proof (fi_inodes _ H) as Hlen. fold len in Hlen. destruct (mkfs_files files H) as (s & R & G & I & F & [T L _ C D] & Z & B).
  fold len in I. destruct (ditto_root_Ok s G) as (s' & R' & G' & K' & I' & N' & C' & H1 & H2); try lia.
  { by rewrite T. } { by rewrite C, D. } { by rewrite Z. }
  rewrite I, D in *. exists s'. split_and!; [|assumption|lia| | |by rewrite N'|rewrite N'; cbn; lia|assumption|].
  - rewrite R. by rewrite (bind_Ok _ _ _ _ _ R').
  - intros k f Hk. pose proof (lookup_lt_Some _ _ _ Hk). eapply holds_kept; [apply K'; lia|by apply F].
  - constructor; [by rewrite N'|by rewrite N'|done|by rewrite N'|exact C'].
  - by replace (3 + len) with (2 + len + 1) by lia.
Qed.

(** The state [mkfs] ends in. *)
Lemma mkfs_Ok files : fits files ->
  exists s, mkfs files empty_img = Ok tt s /\ nsect s = FSSIZE /\ fs_image files (sects s) (freeblock s).
Proof.
  intros H. destruct (mkfs_body files H) as (s & R & G & I & F & HR & E1 & E2 & H1 & H2). pose proof (tb_base _ _ G) as B.
  rewrite (write_bitmap_Ok s B) in R. exists (put_sect (bm sb) (bitmap_to (freeblock s)) s). split; [done|]. split; [apply B|].
  cbn [sects freeblock put_sect]. fold (ghost s). pose proof (tb_fi _ _ G) as Hfi. rewrite I in Hfi.
  assert (St : forall n type data, 1 <= n < 4 + Z.of_nat (length files) -> holds s n type data -> stored (ghost s) n type data).
  { intros. eapply holds_stored; [exact G|by rewrite I|done|done]. }
  assert (EI : forall n, 1 <= n < 4 + Z.of_nat (length files) -> inode_at (ghost s) n = img_inode s n).
  { intros n Hn. destruct (inode_sect n) as [? ?]; [lia|]. unfold inode_at, img_inode. by rewrite ghost_ne by (unfold i2b, IBLOCK in *; lia). }
  constructor.
  - by apply ghost_geometry.
  - intros k f Hk. pose proof (lookup_lt_Some _ _ _ Hk). apply St; [lia|by apply F].
  - apply St; [klia|done].
  - by rewrite EI by klia.
  - by rewrite EI by klia.
  - apply St; [lia|done].
  - apply St; [lia|done].
  - intros n m a Hn Hm. rewrite !EI by done. apply (tb_sep _ _ G); by rewrite I.
  - intros x Hx. destruct mkfs_bm as (_ & _ & Es & _). apply ghost_used; [done|lia].
  - by apply ghost_wf.
  - split; [apply B|]. intros x Hx. destruct mkfs_bm as (Eb & Em & _). pose proof (ba_fb _ B). rewrite ghost_ne by lia. by apply B.
Qed.

(** C8: [mkfs] makes the file system the kernel expects.  For files that fit, the
    program returns; the disk then has the superblock, every file under the inode
    it was given with its bytes and the checksum of them, the root directory with
    the entries of all files and two replicas with the same contents, no two
    inodes share a block, the bitmap marks the blocks handed out and no
    others, and the rest of the disk, the log included, is zero. *)
Theorem mkfs_makes_image files : fits files ->
  exists s, mkfs files empty_img = Ok tt s /\ nsect s = FSSIZE /\ fs_image files (sects s) (freeblock s).
Proof. apply mkfs_Ok. Qed.

(** Two files: _cat, of two blocks, and README. *)
Definition demo_files : list (list Z * list Z) :=
  [([95; 99; 97; 116], replicate 700 65); ([82; 69; 65; 68; 77; 69], [104; 105; 10])].

Lemma demo_fits : fits demo_files.
Proof.
  constructor; [|by vm_compute..]. repeat apply Forall_cons_2; [..|apply Forall_nil_2]; split_and!; cbn [fst snd]; try by vm_compute.
  all: try apply (Forall_replicate is_u8 700 65); repeat (apply Forall_cons_2 || apply Forall_nil_2); unfold is_u8; lia.
Qed.

Lemma mkfs_makes_image_witness :
  fits demo_files /\ exists s, mkfs demo_files empty_img = Ok tt s /\ nsect s = FSSIZE /\ fs_image demo_files (sects s) (freeblock s).
Proof. split; [exact demo_fits|]. apply (mkfs_makes_image demo_files demo_fits). Defined.
