(* ===== verification/HashBuf.v ===== *)
(** * HashBuf: the prototype of the buffer cache's replacement (hashbuf.c)

    A cache of pages with a queue in order of use and a table from page numbers to
    the nodes of the queue, the program from which the list and the hash of the
    buffer cache come.  Nodes are in a heap and hold pointers; following a null
    pointer or indexing outside the table is undefined.  The theorems show that
    the pointers always form the list they should, and that the cache holds
    the pages referenced last, in order. *)

From S2P Require Import Prelude.
Open Scope Z_scope.
Open Scope xv6_scope.

Record QNode := mkQNode { prev : option nat; next : option nat; pageNumber : Z }.
Record Queue := mkQueue { count : Z; numberOfFrames : Z; front : option nat; rear : option nat }.

(** The globals [q] and [hash] (its capacity is the length of [array]), and the
    heap. *)
Record lrustate := mkState { q : Queue; array : list (option nat); heap : gmap nat QNode }.

Definition set_q (x : Queue) (s : lrustate) : lrustate := mkState x (array s) (heap s).
Definition set_array (x : list (option nat)) (s : lrustate) : lrustate := mkState (q s) x (heap s).
Definition set_heap (x : gmap nat QNode) (s : lrustate) : lrustate := mkState (q s) (array s) x.
Definition set_count (n : Z) (x : Queue) : Queue := mkQueue n (numberOfFrames x) (front x) (rear x).
Definition set_front (a : option nat) (x : Queue) : Queue := mkQueue (count x) (numberOfFrames x) a (rear x).
Definition set_rear (a : option nat) (x : Queue) : Queue := mkQueue (count x) (numberOfFrames x) (front x) a.
Definition set_next (a : option nat) (x : QNode) : QNode := mkQNode (prev x) a (pageNumber x).
Definition set_prev (a : option nat) (x : QNode) : QNode := mkQNode a (next x) (pageNumber x).

(** [*a], and the assignment of a field of it. *)
Definition load (a : option nat) : M lrustate QNode :=
  let! h := gets heap in
  match a ≫= (h !!.) with Some x => ret x | None => halt (Undefined "pointer") end.
Definition store (a : option nat) (f : QNode -> QNode) : M lrustate unit :=
  let! x := load a in
  modify (fun s => set_heap (match a with Some a => <[a := f x]> (heap s) | None => heap s end) s).
Definition queue_set (f : Queue -> Queue) : M lrustate unit := modify (fun s => set_q (f (q s)) s).

(** [hash->array[i]]. *)
Definition array_get (i : Z) : M lrustate (option nat) :=
  let! l := gets array in
  match l !! Z.to_nat i with Some x => ret x | None => halt (Undefined "index") end.
Definition array_set (i : Z) (x : option nat) : M lrustate unit :=
  array_get i ;;; modify (fun s => set_array (<[Z.to_nat i := x]> (array s)) s).

(** A node from [malloc]. *)
Definition newQNode (page : Z) : M lrustate nat :=
  let! h := gets heap in
  let temp := fresh (dom h) in
  modify (set_heap (<[temp := mkQNode None None page]> h)) ;;;
  ret temp.

Definition createQueue (frames : Z) : Queue := mkQueue 0 frames None None.
Definition createHash (capacity : Z) : list (option nat) := replicate (Z.to_nat capacity) None.
Definition AreAllFramesFull (x : Queue) : bool := count x =? numberOfFrames x.
Definition isQueueEmpty (x : Queue) : bool := bool_decide (rear x = None).

Definition deQueue : M lrustate unit :=
  let! x := gets q in
  if isQueueEmpty x then ret tt else
  (if bool_decide (front x = rear x) then queue_set (set_front None) else ret tt) ;;;
  let temp := rear x in
  let! n := load temp in
  queue_set (set_rear (prev n)) ;;;
  (if bool_decide (prev n = None) then ret tt else store (prev n) (set_next None)) ;;;
  modify (fun s => set_heap (match temp with Some a => delete a (heap s) | None => heap s end) s) ;;;
  queue_set (fun x => set_count (count x - 1) x).

(** The second half of [Enqueue]: a new node at the front. *)
Definition add_front (page : Z) : M lrustate unit :=
  let! temp := newQNode page in
  let! x := gets q in
  store (Some temp) (set_next (front x)) ;;;
  (if isQueueEmpty x then queue_set (fun x => set_rear (Some temp) (set_front (Some temp) x))
   else store (front x) (set_prev (Some temp)) ;;; queue_set (set_front (Some temp))) ;;;
  array_set page (Some temp) ;;;
  queue_set (fun x => set_count (count x + 1) x).

Definition Enqueue (page : Z) : M lrustate unit :=
  let! x := gets q in
  (if AreAllFramesFull x then
     let! n := load (rear x) in
     array_set (pageNumber n) None ;;;
     deQueue
   else ret tt) ;;;
  add_front page.

(** The two halves of a hit: the node is unlinked, and linked again before the
    front. *)
Definition remove_node (reqPage : option nat) : M lrustate unit :=
  let! n := load reqPage in
  store (prev n) (set_next (next n)) ;;;
  let! n := load reqPage in
  (if bool_decide (next n = None) then ret tt else store (next n) (set_prev (prev n))) ;;;
  let! x := gets q in
  if bool_decide (reqPage = rear x) then
    let! n := load reqPage in
    queue_set (set_rear (prev n)) ;;;
    store (prev n) (set_next None)
  else ret tt.
Definition to_front (reqPage : option nat) : M lrustate unit :=
  let! x := gets q in
  store reqPage (set_next (front x)) ;;;
  store reqPage (set_prev None) ;;;
  let! n := load reqPage in
  store (next n) (set_prev reqPage) ;;;
  queue_set (set_front reqPage).

Definition ReferencePage (page : Z) : M lrustate unit :=
  let! reqPage := array_get page in
  let! x := gets q in
  if bool_decide (reqPage = None) then Enqueue page else
  if bool_decide (reqPage = front x) then ret tt else
  remove_node reqPage ;;; to_front reqPage.

(** [main]: the references, and the state its last prints show. *)
Definition main_init : lrustate := mkState (createQueue 4) (createHash 10) ∅.
Definition main : M lrustate unit := for_each [1; 2; 3; 1; 4; 5] ReferencePage.

(** ** The queue as a list *)

Definition first_of (ns : list (nat * Z)) (nxt : option nat) : option nat := match ns with [] => nxt | (a, _) :: _ => Some a end.
Fixpoint last_of (prv : option nat) (ns : list (nat * Z)) : option nat := match ns with [] => prv | (a, _) :: t => last_of (Some a) t end.

(** The nodes [ns] are linked to each other, to [prv] and to [nxt]. *)
Fixpoint seg (h : gmap nat QNode) (prv : option nat) (ns : list (nat * Z)) (nxt : option nat) : Prop :=
  match ns with
  | [] => True
  | (a, p) :: t => h !! a = Some (mkQNode prv (first_of t nxt) p) /\ seg h (Some a) t nxt
  end.

Lemma last_of_app prv l1 l2 : last_of prv (l1 ++ l2) = last_of (last_of prv l1) l2.
Proof. revert prv. induction l1 as [|[a p] l1 IH]; intros prv; [done|]. apply IH. Qed.

Lemma seg_app h prv l1 l2 nxt : seg h prv (l1 ++ l2) nxt <-> seg h prv l1 (first_of l2 nxt) /\ seg h (last_of prv l1) l2 nxt.
Proof.
  revert prv. induction l1 as [|[a p] l1 IH]; intros prv; [cbn; tauto|]. cbn. rewrite IH.
  assert (E : first_of (l1 ++ l2) nxt = first_of l1 (first_of l2 nxt)) by (by destruct l1 as [|[]]). rewrite E. tauto.
Qed.

Lemma seg_frame h h' prv ns nxt : (forall a, a ∈ ns.*1 -> h' !! a = h !! a) -> seg h prv ns nxt -> seg h' prv ns nxt.
Proof.
  revert prv. induction ns as [|[a p] ns IH]; intros prv E; [done|]. cbn. intros [Ha Hs]. split.
  - rewrite E; [done|left].
  - apply IH; [|done]. intros b Hb. apply E. by right.
Qed.

Lemma seg_insert h a x prv ns nxt : a ∉ ns.*1 -> seg h prv ns nxt -> seg (<[a := x]> h) prv ns nxt.
Proof. intros Ha. apply seg_frame. intros b Hb. rewrite lookup_insert_ne; [done|]. by intros ->. Qed.

(** Relinking the ends of a segment. *)
Lemma seg_set_prev h a p l prv prv' nxt : a ∉ l.*1 -> seg h prv ((a, p) :: l) nxt ->
  seg (<[a := mkQNode prv' (first_of l nxt) p]> h) prv' ((a, p) :: l) nxt.
Proof. intros Ha [H1 H2]. split; [by rewrite lookup_insert_eq|by apply seg_insert]. Qed.

Lemma seg_set_next h a p l prv nxt nxt' : a ∉ l.*1 -> seg h prv (l ++ [(a, p)]) nxt ->
  seg (<[a := mkQNode (last_of prv l) nxt' p]> h) prv (l ++ [(a, p)]) nxt'.
Proof.
  intros Ha. rewrite !seg_app. cbn. intros (H1 & H2 & _). split_and!; [by apply seg_insert|by rewrite lookup_insert_eq|done].
Qed.

Lemma seg_mid h a p l1 l2 prv nxt : seg h prv (l1 ++ (a, p) :: l2) nxt -> h !! a = Some (mkQNode (last_of prv l1) (first_of l2 nxt) p).
Proof. rewrite seg_app. by intros (_ & ? & _). Qed.

(** The queue is the nodes [ns], front to rear, and the heap has no others. *)
Record chain (s : lrustate) (ns : list (nat * Z)) : Prop := {
  ch_seg : seg (heap s) None ns None;
  ch_front : front (q s) = first_of ns None;
  ch_rear : rear (q s) = last_of None ns;
  ch_count : count (q s) = Z.of_nat (length ns);
  ch_addr : NoDup ns.*1;
  ch_dom : forall a, is_Some (heap s !! a) <-> a ∈ ns.*1
}.

(** The table leads to the nodes of the queue, one for a page. *)
Record indexed (t : list (option nat)) (ns : list (nat * Z)) : Prop := {
  ix_page : NoDup ns.*2;
  ix_range : Forall (fun p => 0 <= p < Z.of_nat (length t)) ns.*2;
  ix_table : forall p a, 0 <= p -> t !! Z.to_nat p = Some (Some a) <-> (a, p) ∈ ns
}.

Lemma load_Ok s a x : heap s !! a = Some x -> load (Some a) s = Ok x s.
Proof. intros H. unfold load, bind, gets. cbn. by rewrite H. Qed.

Lemma store_Ok s a x f : heap s !! a = Some x -> store (Some a) f s = Ok tt (set_heap (<[a := f x]> (heap s)) s).
Proof. intros H. unfold store. by rewrite (bind_Ok _ _ _ _ _ (load_Ok _ _ _ H)). Qed.

Lemma queue_set_Ok f s : queue_set f s = Ok tt (set_q (f (q s)) s).
Proof. done. Qed.

Lemma array_get_Ok s i x : array s !! Z.to_nat i = Some x -> array_get i s = Ok x s.
Proof. intros H. unfold array_get, bind, gets. by rewrite H. Qed.

Lemma array_set_Ok s i x : (Z.to_nat i < length (array s))%nat -> array_set i x s = Ok tt (set_array (<[Z.to_nat i := x]> (array s)) s).
Proof.
  intros H. unfold array_set. destruct (lookup_lt_is_Some_2 _ _ H) as [y Hy]. by rewrite (bind_Ok _ _ _ _ _ (array_get_Ok _ _ _ Hy)).
Qed.

Lemma chain_array s ns t : chain s ns -> chain (set_array t s) ns.
Proof. intros [? ? ? ? ? ?]. by constructor. Qed.

Lemma last_of_snoc prv l a p : last_of prv (l ++ [(a, p)]) = Some a.
Proof. by rewrite last_of_app. Qed.

Lemma first_of_last l : NoDup l.*1 -> first_of l None = last_of None l -> l = [] \/ exists a p, l = [(a, p)].
Proof.
  destruct l as [|[a p] l]; [by left|]. destruct l as [|[b r] l _] using rev_ind; [right; eauto|].
  cbn. rewrite last_of_snoc, fmap_app, NoDup_cons. intros [Hn _] E. injection E as <-. destruct Hn. set_solver.
Qed.

(** [deQueue] removes the node at the rear. *)
Lemma deQueue_Ok s ns a p : chain s (ns ++ [(a, p)]) ->
  exists s', deQueue s = Ok tt s' /\ chain s' ns /\ array s' = array s /\ numberOfFrames (q s') = numberOfFrames (q s).
Proof.
  intros [Hs Hf Hr Hc Hn Hd]. pose proof Hn as Hn0. pose proof (seg_mid _ _ _ _ [] _ _ Hs) as Ha. rewrite last_of_snoc in Hr.
  rewrite fmap_app in Hn, Hd. cbn in Hn, Hd. rewrite length_app in Hc. cbn in Hc. apply NoDup_app in Hn as (Hn & Hna & _).
  assert (Han : a ∉ ns.*1) by (intros X; apply (Hna a X); left).
  unfold deQueue. unfold bind at 1, gets. unfold isQueueEmpty. rewrite Hr. cbn [bool_decide decide].
  rewrite bool_decide_eq_false_2 by done. destruct ns as [|[b r] ns _] using rev_ind.
  - cbn in Hf. rewrite Hf, bool_decide_eq_true_2 by done. unfold bind at 1, queue_set at 1, modify at 1.
    set (s1 := set_q (set_front None (q s)) s). rewrite (bind_Ok _ _ _ _ _ (load_Ok s1 a _ Ha)). cbn [prev last_of].
    rewrite bool_decide_eq_true_2 by done. eexists. split; [done|]. split_and!; try done.
    constructor; cbn; try done; [cbn in Hc; lia|]. intros b. split; [|set_solver]. intros [x Hx].
    apply lookup_delete_Some in Hx as [Hne Hx]. assert (b ∈ [a]) by (apply Hd; eauto). set_solver.
  - assert (Hfr : front (q s) <> Some a).
    { rewrite Hf, <- Hr. intros E. rewrite Hr, <- (last_of_snoc None (ns ++ [(b, r)]) a p) in E.
      apply first_of_last in E as [E|(x & y & E)]; [by apply app_nil in E as [_ ?]| |exact Hn0].
      apply (f_equal length) in E. rewrite !length_app in E. cbn in E. lia. }
    rewrite bool_decide_eq_false_2 by done. unfold bind at 1, ret at 1. rewrite (bind_Ok _ _ _ _ _ (load_Ok s a _ Ha)). cbn [prev].
    rewrite last_of_snoc. unfold bind at 1, queue_set at 1, modify at 1. set (s1 := set_q (set_rear (Some b) (q s)) s).
    rewrite bool_decide_eq_false_2 by done. rewrite <- app_assoc in Hs. pose proof (seg_mid _ _ _ _ [(a, p)] _ _ Hs) as Hb. cbn in Hb.
    rewrite (bind_Ok _ _ _ _ _ (store_Ok s1 b _ _ Hb)). eexists. split; [done|]. split_and!; try done.
    rewrite fmap_app in Hn, Han, Hd. cbn in Hn, Han, Hd. constructor; cbn; try done.
    + rewrite app_assoc, seg_app in Hs. destruct Hs as [Hs _]. cbn in Hs.
      apply NoDup_app in Hn as (_ & Hnb & _).
      apply (seg_frame (<[b := mkQNode (last_of None ns) None r]> (heap s))).
      * intros x Hx. rewrite lookup_delete_ne; [done|]. rewrite fmap_app in Hx. cbn in Hx. intros <-. done.
      * eapply seg_set_next; [|exact Hs]. intros X. apply (Hnb b X). left.
    + by rewrite Hf, <- app_assoc; destruct ns as [|[]].
    + by rewrite last_of_snoc.
    + lia.
    + by rewrite fmap_app.
    + intros x. rewrite fmap_app. cbn. rewrite lookup_delete_is_Some, lookup_insert_is_Some', Hd. rewrite !elem_of_app, !list_elem_of_singleton in *.
      split; [intros [? [->|[?|?]]]; auto; congruence|]. intros Hx. split; [intros <-; tauto|tauto].
Qed.

Lemma chain_empty s ns : chain s ns -> isQueueEmpty (q s) = bool_decide (ns = []).
Proof.
  intros C. unfold isQueueEmpty. rewrite (ch_rear _ _ C). destruct ns as [|[a p] ns _] using rev_ind; [done|].
  rewrite last_of_snoc, !bool_decide_eq_false_2; [done| |done]. by intros [_ ?]%app_nil.
Qed.

(** The new node is linked before the queue. *)
Lemma add_front_Ok s ns page : chain s ns -> 0 <= page < Z.of_nat (length (array s)) ->
  exists t s', add_front page s = Ok tt s' /\ chain s' ((t, page) :: ns) /\
    array s' = <[Z.to_nat page := Some t]> (array s) /\ numberOfFrames (q s') = numberOfFrames (q s).
Proof.
  intros C Hp. pose proof C as [Hs Hf Hr Hc Hn Hd]. unfold add_front, newQNode. set (t := fresh (dom (heap s))).
  assert (Ht : heap s !! t = None) by (apply not_elem_of_dom, is_fresh).
  assert (Htn : t ∉ ns.*1) by (intros X; apply Hd in X as [x Hx]; congruence).
  exists t. set (h1 := <[t := mkQNode None None page]> (heap s)). set (s1 := set_heap h1 s). erewrite bind_Ok by done.
  rewrite (bind_Ok (gets q) _ s1 (q s) s1 eq_refl).
  set (h2 := <[t := mkQNode None (front (q s)) page]> h1). set (s2 := set_heap h2 s).
  erewrite bind_Ok by (by apply store_Ok, lookup_insert_eq). change (set_heap _ s1) with s2. rewrite (chain_empty s ns C).
  assert (Hh2 : seg h2 None [(t, page)] (first_of ns None)) by (split; [rewrite <- Hf; apply lookup_insert_eq|done]).
  assert (Hns2 : seg h2 None ns None) by (by apply seg_insert, seg_insert).
  assert (Hd2 : forall a, is_Some (h2 !! a) <-> a ∈ t :: ns.*1).
  { intros a. unfold h2, h1. rewrite !lookup_insert_is_Some', Hd, elem_of_cons. naive_solver. }
  destruct ns as [|[b r] ns].
  - rewrite bool_decide_eq_true_2 by done. unfold bind at 1, queue_set at 1, modify at 1.
    erewrite bind_Ok by (apply array_set_Ok; cbn; lia). eexists. split; [done|]. split_and!; try done.
    constructor; cbn; try done; [rewrite Hc; done|]. by apply NoDup_singleton.
  - rewrite bool_decide_eq_false_2 by done. cbn in Hf. rewrite Hf. destruct Hns2 as [Hb Hns2].
    erewrite bind_Ok by (erewrite bind_Ok by (by apply store_Ok); done).
    erewrite bind_Ok by (apply array_set_Ok; cbn; lia). eexists. split; [done|]. split_and!; try done.
    cbn in Htn, Hn. apply NoDup_cons in Hn as [Hbn Hn].
    constructor; cbn; try done.
    + split; [|apply (seg_set_prev h2 b r ns None (Some t)); done]. rewrite lookup_insert_ne by set_solver. by destruct Hh2.
    + rewrite Hc. cbn. lia.
    + constructor; [done|by constructor].
    + intros a. rewrite lookup_insert_is_Some', Hd2. cbn. set_solver.
Qed.

(** The queue without node [a], which is still in the heap. *)
Record unlinked (s s' : lrustate) (a : nat) (p : Z) (ns : list (nat * Z)) : Prop := {
  un_seg : seg (heap s') None ns None;
  un_node : exists x y, heap s' !! a = Some (mkQNode x y p);
  un_rear : rear (q s') = last_of None ns;
  un_front : front (q s') = front (q s);
  un_count : count (q s') = count (q s);
  un_frames : numberOfFrames (q s') = numberOfFrames (q s);
  un_array : array s' = array s;
  un_dom : forall b, is_Some (heap s' !! b) <-> is_Some (heap s !! b)
}.

Lemma remove_node_Ok s l1 b r a p l2 : chain s (l1 ++ (b, r) :: (a, p) :: l2) ->
  exists s', remove_node (Some a) s = Ok tt s' /\ unlinked s s' a p (l1 ++ (b, r) :: l2).
Proof.
  intros [Hs Hf Hr Hc Hn Hd]. rewrite fmap_app in Hn. cbn in Hn. apply NoDup_app in Hn as (_ & Hn1 & Hn).
  apply NoDup_cons in Hn as [Hb Hn]. apply NoDup_cons in Hn as [Ha Hn].
  assert (Hab : a <> b) by set_solver. assert (Hal : a ∉ l1.*1) by (intros X; apply (Hn1 a X); set_solver).
  assert (Hbl : b ∉ l1.*1) by (intros X; apply (Hn1 b X); set_solver). assert (Hb2 : b ∉ l2.*1) by set_solver.
  rewrite cons_middle, app_assoc in Hs. pose proof (seg_mid _ _ _ _ _ _ _ Hs) as Hna. rewrite last_of_snoc in Hna.
  rewrite seg_app in Hs. destruct Hs as (Hs1 & _ & Hs2). cbn [first_of] in Hs1.
  pose proof (seg_mid _ _ _ _ [] _ _ Hs1) as Hnb. cbn in Hnb.
  unfold remove_node. rewrite (bind_Ok _ _ _ _ _ (load_Ok s a _ Hna)). cbn [prev next].
  rewrite (bind_Ok _ _ _ _ _ (store_Ok s b _ _ Hnb)). set (h1 := <[b := _]> (heap s)). set (s1 := set_heap h1 s).
  assert (Hna1 : heap s1 !! a = Some (mkQNode (Some b) (first_of l2 None) p)) by (cbn; unfold h1; by rewrite lookup_insert_ne).
  rewrite (bind_Ok _ _ _ _ _ (load_Ok s1 a _ Hna1)). cbn [prev next].
  assert (HL : seg h1 None (l1 ++ [(b, r)]) (first_of l2 None)) by (by apply (seg_set_next (heap s) b r l1 None (Some a))).
  assert (HR : seg h1 (Some a) l2 None) by (by apply seg_insert).
  assert (Hd1 : forall x, is_Some (h1 !! x) <-> is_Some (heap s !! x)).
  { intros x. unfold h1. rewrite lookup_insert_is_Some'. split; [intros [->|?]; [by eauto|done]|by right]. }
  destruct l2 as [|[c u] l2].
  - rewrite bool_decide_eq_true_2 by done. rewrite (bind_Ok _ _ _ _ _ (eq_refl : ret tt s1 = Ok tt s1)).
    rewrite (bind_Ok (gets q) _ s1 (q s) s1 eq_refl). rewrite Hr, cons_middle, app_assoc, last_of_snoc, bool_decide_eq_true_2 by done.
    rewrite (bind_Ok _ _ _ _ _ (load_Ok s1 a _ Hna1)). cbn [prev].
    rewrite (bind_Ok _ _ _ _ _ (queue_set_Ok (set_rear (Some b)) s1)).
    erewrite store_Ok by (cbn; apply lookup_insert_eq). eexists. split; [done|]. constructor; cbn; try done.
    + unfold h1. rewrite insert_insert_eq. exact HL.
    + exists (Some b), None. unfold h1. by rewrite insert_insert_eq, lookup_insert_ne.
    + by rewrite last_of_snoc.
    + intros x. unfold h1. rewrite insert_insert_eq. apply Hd1.
  - rewrite bool_decide_eq_false_2 by done. cbn [first_of]. destruct HR as [Hc1 HR].
    rewrite (bind_Ok _ _ _ _ _ (store_Ok s1 c _ _ Hc1)). set (s2 := set_heap _ s1).
    assert (Hra : rear (q s) <> Some a).
    { rewrite Hr, cons_middle, app_assoc, last_of_app. cbn. intros E. apply Ha. cbn.
      destruct l2 as [|[y z] l2 _] using rev_ind; [injection E as ->; left|]. rewrite last_of_snoc in E. injection E as ->. set_solver. }
    rewrite (bind_Ok (gets q) _ s2 (q s) s2 eq_refl). rewrite bool_decide_eq_false_2 by congruence.
    eexists. split; [done|]. cbn in Ha, Hb2, Hn. apply NoDup_cons in Hn as [Hcl Hn].
    assert (Hcb : c <> b) by set_solver. assert (Hc1' : c ∉ l1.*1) by (intros X; apply (Hn1 c X); set_solver).
    constructor; cbn; try done.
    + rewrite cons_middle, app_assoc, seg_app. split; [apply seg_insert; [rewrite fmap_app; set_solver|exact HL]|].
      rewrite last_of_snoc. apply (seg_set_prev h1 c u l2 (Some a) (Some b)); [done|by split].
    + eexists _, _. rewrite lookup_insert_ne by set_solver. exact Hna1.
    + rewrite Hr, !(cons_middle (b, r)), !app_assoc, !last_of_app. done.
    + intros x. rewrite lookup_insert_is_Some', Hd1. split; [intros [->|?]; [|done]|by right]. apply Hd1. eauto.
Qed.

Lemma to_front_Ok s s' l1 b r a p l2 : chain s (l1 ++ (b, r) :: (a, p) :: l2) -> unlinked s s' a p (l1 ++ (b, r) :: l2) ->
  exists s2, to_front (Some a) s' = Ok tt s2 /\ chain s2 ((a, p) :: l1 ++ (b, r) :: l2) /\ array s2 = array s /\
    numberOfFrames (q s2) = numberOfFrames (q s).
Proof.
  intros [_ Hf _ Hc Hn Hd] [Us (x0 & y0 & Ua) Ur Uf Uc Um Uy Ud].
  assert (HP : l1 ++ (b, r) :: (a, p) :: l2 ≡ₚ (a, p) :: l1 ++ (b, r) :: l2) by solve_Permutation.
  assert (Ef : front (q s) = first_of (l1 ++ (b, r) :: l2) None) by (rewrite Hf; by destruct l1 as [|[]]).
  rewrite (Permutation_length HP) in Hc. setoid_rewrite HP in Hd. rewrite HP in Hn.
  assert (Hne : exists f v l, l1 ++ (b, r) :: l2 = (f, v) :: l) by (destruct l1 as [|[f v] l1]; eauto).
  destruct Hne as (f & v & l & E). rewrite E in *. cbn in Hn, Ef. apply NoDup_cons in Hn as [Ha Hn]. pose proof Hn as Hnf. apply NoDup_cons in Hnf as [Hfl _].
  unfold to_front. rewrite (bind_Ok (gets q) _ s' (q s') s' eq_refl). rewrite Uf, Ef. rewrite (bind_Ok _ _ _ _ _ (store_Ok s' a _ _ Ua)).
  erewrite bind_Ok by (apply store_Ok; cbn; apply lookup_insert_eq). set (h2 := <[a := _]> (heap _)). set (s2 := set_heap h2 _).
  assert (Ha2 : heap s2 !! a = Some (mkQNode None (Some f) p)) by apply lookup_insert_eq.
  rewrite (bind_Ok _ _ _ _ _ (load_Ok s2 a _ Ha2)). cbn [next].
  assert (Hs2 : seg h2 None ((f, v) :: l) None) by (apply seg_insert; [done|]; by apply seg_insert).
  rewrite (bind_Ok _ _ _ _ _ (store_Ok s2 f _ _ (proj1 Hs2))). eexists. split; [done|]. split_and!; try done.
  constructor; cbn; try done.
  - split; [|apply (seg_set_prev h2 f v l None (Some a)); done]. rewrite lookup_insert_ne by set_solver. exact Ha2.
  - by rewrite Uc, Hc.
  - by apply NoDup_cons.
  - intros x. unfold h2. cbn. rewrite !lookup_insert_is_Some', Ud, Hd. set_solver.
Qed.

(** ** The cache *)

(** The pages of a history, the one referenced last first. *)
Definition recent (hs : list Z) : list Z := reverse (remove_dups hs).

Lemma remove_dups_snoc (l : list Z) p : remove_dups (l ++ [p]) = filter (fun x => x <> p) (remove_dups l) ++ [p].
Proof.
  induction l as [|x l IH]; [done|]. cbn [app remove_dups].
  destruct (decide_rel _ x (l ++ [p])) as [H1|H1], (decide_rel _ x l) as [H2|H2]; rewrite ?IH; try done; try set_solver.
  - assert (x = p) as -> by set_solver. by rewrite filter_cons_False by (intros H; by apply H).
  - by rewrite filter_cons_True by set_solver.
Qed.

Lemma filter_reverse (P : Z -> Prop) `{forall x, Decision (P x)} l : filter P (reverse l) = reverse (filter P l).
Proof.
  induction l as [|x l IH]; [done|]. rewrite reverse_cons, filter_app, IH. rewrite !filter_cons. destruct (decide (P x)) as [Hp|Hp].
  - by rewrite reverse_cons.
  - cbn. by rewrite app_nil_r.
Qed.

Lemma recent_snoc hs p : recent (hs ++ [p]) = p :: filter (fun x => x <> p) (recent hs).
Proof. unfold recent. rewrite remove_dups_snoc, reverse_app, filter_reverse. done. Qed.

Lemma filter_fresh (l : list Z) p : p ∉ l -> filter (fun x => x <> p) l = l.
Proof. induction l as [|x l IH]; [done|]. intros H. rewrite filter_cons_True by set_solver. f_equal. apply IH. set_solver. Qed.

Lemma filter_mid (l1 l2 : list Z) p : NoDup (l1 ++ p :: l2) -> filter (fun x => x <> p) (l1 ++ p :: l2) = l1 ++ l2.
Proof.
  intros (_ & H1 & [H2 _]%NoDup_cons)%NoDup_app. rewrite filter_app, filter_cons_False by (intros H; by apply H).
  rewrite !filter_fresh; [done|done|]. intros X. apply (H1 _ X). left.
Qed.

(** What a reference does to the [n] most recent pages. *)
Lemma recent_take n p (l : list Z) : NoDup l -> (0 < n)%nat ->
  take n (p :: filter (fun x => x <> p) (take n l)) = take n (p :: filter (fun x => x <> p) l).
Proof.
  intros Hn Hp. destruct n as [|n]; [lia|]. cbn [take]. f_equal. destruct (decide (p ∈ take (S n) l)) as [Hi|Hi].
  - apply list_elem_of_split in Hi as (l1 & l2 & E). pose proof (f_equal length E) as El0. rewrite length_take, length_app in El0. cbn [length] in El0.
    rewrite <- (take_drop (S n) l) at 2. rewrite <- (take_drop (S n) l), E in Hn.
    rewrite E in *. rewrite <- app_assoc in *. cbn [app] in *. rewrite (filter_mid l1 (l2 ++ _)) by done.
    rewrite filter_mid by (rewrite app_comm_cons, app_assoc in Hn; by apply NoDup_app in Hn as [? _]).
    assert (length l1 + length l2 <= n)%nat by lia.
    rewrite app_assoc. destruct (decide (length l1 + length l2 = n)%nat) as [El|El].
    + rewrite (take_app_length' (l1 ++ l2)) by (rewrite length_app; lia). by rewrite take_ge by (rewrite length_app; lia).
    + assert (drop (S n) l = []) as ->; [|by rewrite app_nil_r]. apply drop_ge. lia.
  - rewrite (filter_fresh (take (S n) l)) by done. rewrite take_take, Nat.min_l by lia. rewrite <- (take_drop (S n) l) at 2.
    rewrite filter_app, filter_fresh by done. destruct (decide (S n <= length l)%nat) as [Hl|Hl].
    + rewrite take_app_le by (rewrite length_take; lia). by rewrite take_take, Nat.min_l by lia.
    + rewrite (drop_ge l (S n)) by lia. cbn. rewrite app_nil_r, take_take. f_equal. lia.
Qed.

Record represents (s : lrustate) (n : nat) (cap : nat) (ns : list (nat * Z)) : Prop := {
  rp_chain : chain s ns;
  rp_index : indexed (array s) ns;
  rp_frames : numberOfFrames (q s) = Z.of_nat n;
  rp_cap : length (array s) = cap;
  rp_len : (length ns <= n)%nat
}.

Lemma indexed_drop t ns a p : indexed t (ns ++ [(a, p)]) -> indexed (<[Z.to_nat p := None]> t) ns.
Proof.
  intros [Hn Hr Ht]. rewrite fmap_app in Hn, Hr. cbn in Hn, Hr. apply NoDup_app in Hn as (Hn & Hp & _). apply Forall_app in Hr as [Hr Hrp].
  apply Forall_cons in Hrp as [Hrp _]. constructor; [done|by rewrite length_insert|]. intros r b Hr0. destruct (decide (r = p)) as [->|Hne].
  - rewrite list_lookup_insert_eq by lia. split; [done|]. intros Hi. destruct (Hp p); [|left]. apply list_elem_of_fmap. by exists (b, p).
  - rewrite list_lookup_insert_ne by lia. rewrite Ht by done. rewrite elem_of_app, list_elem_of_singleton. split; [|by left].
    intros [?|E]; [done|congruence].
Qed.

Lemma indexed_add t ns a p : indexed t ns -> p ∉ ns.*2 -> 0 <= p < Z.of_nat (length t) -> indexed (<[Z.to_nat p := Some a]> t) ((a, p) :: ns).
Proof.
  intros [Hn Hr Ht] Hp Hc. constructor; [by apply NoDup_cons|rewrite length_insert; by apply Forall_cons|].
  intros r b Hr0. destruct (decide (r = p)) as [->|Hne].
  - rewrite list_lookup_insert_eq by lia. rewrite elem_of_cons. split; [intros [= ->]; by left|]. intros [[= ->]|Hi]; [done|].
    destruct Hp. apply list_elem_of_fmap. by exists (b, p).
  - rewrite list_lookup_insert_ne by lia. rewrite Ht by done. rewrite elem_of_cons. split; [by right|]. intros [[= -> ->]|?]; done.
Qed.

Lemma indexed_perm t ns ns' : ns ≡ₚ ns' -> indexed t ns -> indexed t ns'.
Proof. intros E [Hn Hr Ht]. constructor; [by rewrite <- E|by rewrite <- E|]. intros p a Hp. rewrite Ht by done. by rewrite E. Qed.

(** A page that is not in the cache. *)
Lemma Enqueue_Ok s n cap ns p : represents s n cap ns -> (0 < n)%nat -> 0 <= p < Z.of_nat cap -> p ∉ ns.*2 ->
  exists s' ns', Enqueue p s = Ok tt s' /\ represents s' n cap ns' /\ ns'.*2 = take n (p :: ns.*2).
Proof.
  intros [C X Hf Hc Hl] Hn Hp Hnp. unfold Enqueue. rewrite (bind_Ok (gets q) _ s (q s) s eq_refl). unfold AreAllFramesFull.
  rewrite (ch_count _ _ C), Hf. destruct (Z.eqb_spec (Z.of_nat (length ns)) (Z.of_nat n)) as [E|E].
  - destruct ns as [|[a r] ns _] using rev_ind; [cbn in E; lia|]. rewrite (ch_rear _ _ C), last_of_snoc. rewrite length_app in E, Hl. cbn in E, Hl.
    pose proof (seg_mid _ _ _ _ [] _ _ (ch_seg _ _ C)) as Ha. pose proof (indexed_drop _ _ _ _ X) as X1.
    pose proof (ix_range _ _ X) as Hr. rewrite fmap_app, Forall_app in Hr. destruct Hr as [_ [Hr _]%Forall_cons]. cbn in Hr.
    destruct (deQueue_Ok (set_array (<[Z.to_nat r := None]> (array s)) s) ns a r) as (s1 & R1 & C1 & A1 & F1); [by apply chain_array|].
    cbn in A1, F1. destruct (add_front_Ok s1 ns p C1) as (t & s2 & R2 & C2 & A2 & F2); [rewrite A1, length_insert; lia|].
    exists s2, ((t, p) :: ns). rewrite fmap_app in Hnp |- *. split_and!.
    + erewrite bind_Ok; [exact R2|]. rewrite (bind_Ok _ _ _ _ _ (load_Ok s a _ Ha)). cbn [pageNumber].
      erewrite bind_Ok by (apply array_set_Ok; lia). exact R1.
    + constructor; [done|rewrite A2, A1; apply indexed_add; [done|set_solver|rewrite length_insert; lia]|congruence|by rewrite A2, A1, !length_insert|cbn; lia].
    + cbn. destruct n as [|n]; [lia|]. cbn [take]. by rewrite take_app_length' by (rewrite length_fmap; lia).
  - destruct (add_front_Ok s ns p C) as (t & s2 & R2 & C2 & A2 & F2); [lia|]. exists s2, ((t, p) :: ns). split_and!.
    + by erewrite bind_Ok by done.
    + constructor; [done|rewrite A2; apply indexed_add; [done|done|lia]|congruence|by rewrite A2, length_insert|cbn; lia].
    + cbn. by rewrite take_ge by (cbn; rewrite length_fmap; lia).
Qed.

(** A page that is. *)
Lemma hit_Ok s n cap l1 l2 a p : represents s n cap (l1 ++ (a, p) :: l2) -> front (q s) <> Some a ->
  exists s', (remove_node (Some a) ;;; to_front (Some a)) s = Ok tt s' /\ represents s' n cap ((a, p) :: l1 ++ l2).
Proof.
  intros [C X Hf Hc Hl] Hfr. destruct l1 as [|[b r] l1 _] using rev_ind; [by rewrite (ch_front _ _ C) in Hfr|].
  rewrite <- app_assoc in *. cbn [app] in *. destruct (remove_node_Ok _ _ _ _ _ _ _ C) as (s1 & R1 & U1).
  destruct (to_front_Ok _ _ _ _ _ _ _ _ C U1) as (s2 & R2 & C2 & A2 & F2). exists s2. split; [by rewrite (bind_Ok _ _ _ _ _ R1)|].
  assert (HP : l1 ++ (b, r) :: (a, p) :: l2 ≡ₚ (a, p) :: l1 ++ (b, r) :: l2) by solve_Permutation.
  constructor; [done|rewrite A2; by eapply indexed_perm|congruence|congruence|by rewrite <- HP].
Qed.

Lemma ReferencePage_Ok s n cap ns p : represents s n cap ns -> (0 < n)%nat -> 0 <= p < Z.of_nat cap ->
  exists s' ns', ReferencePage p s = Ok tt s' /\ represents s' n cap ns' /\ ns'.*2 = take n (p :: filter (fun x => x <> p) ns.*2).
Proof.
  intros R Hn Hp. pose proof R as [C X Hf Hc Hl]. destruct (lookup_lt_is_Some_2 (array s) (Z.to_nat p)) as [x Hx]; [lia|].
  unfold ReferencePage. rewrite (bind_Ok _ _ _ _ _ (array_get_Ok _ _ _ Hx)), (bind_Ok (gets q) _ s (q s) s eq_refl).
  destruct x as [a|].
  - rewrite bool_decide_eq_false_2 by done. apply (ix_table _ _ X p a) in Hx; [|lia]. apply list_elem_of_split in Hx as (l1 & l2 & ->).
    pose proof (ix_page _ _ X) as Hnd. rewrite fmap_app in *. cbn [fmap list_fmap snd] in *. rewrite filter_mid by done.
    assert (Hlen : (length (l1.*2 ++ l2.*2) < n)%nat) by (rewrite length_app, !length_fmap; rewrite length_app in Hl; cbn in Hl; lia).
    rewrite take_ge by (cbn; lia). destruct (decide (front (q s) = Some a)) as [Ef|Ef].
    + rewrite bool_decide_eq_true_2 by done. exists s, (l1 ++ (a, p) :: l2). split_and!; [done|done|].
      rewrite (ch_front _ _ C) in Ef. destruct l1 as [|[b r] l1]; [done|]. cbn in Ef. injection Ef as ->.
      pose proof (ch_addr _ _ C) as Ha. cbn in Ha. rewrite fmap_app in Ha. apply NoDup_cons in Ha as [Ha _]. set_solver.
    + rewrite bool_decide_eq_false_2 by done. destruct (hit_Ok _ _ _ _ _ _ _ R Ef) as (s' & R' & P'). eexists _, _. split_and!; [exact R'|exact P'|].
      cbn. by rewrite fmap_app.
  - rewrite bool_decide_eq_true_2 by done. assert (Hnp : p ∉ ns.*2).
    { intros ([a r] & E & Hi)%list_elem_of_fmap. cbn in E. subst r. apply (ix_table _ _ X) in Hi; [congruence|lia]. }
    rewrite filter_fresh by done. by apply Enqueue_Ok.
Qed.

Lemma for_each_app {S I} (f : I -> M S unit) l1 l2 s : for_each (l1 ++ l2) f s = (for_each l1 f ;;; for_each l2 f) s.
Proof.
  revert s. induction l1 as [|i l1 IH]; intros s; [done|]. cbn [app for_each]. unfold bind in *. destruct (f i s); [apply IH|done].
Qed.

(** C23: The cache is least-recently-used.  From an empty queue of [n] frames and a
    table for [cap] pages, any sequence of references to those pages runs without
    following a null pointer or leaving the table; the pointers form a queue of
    the [n] pages referenced last, the most recent at the front and the next
    to be evicted at the rear, and the heap holds their nodes and no others. *)
Theorem hashbuf_is_lru n cap hs : (0 < n)%nat -> Forall (fun p => 0 <= p < Z.of_nat cap) hs ->
  exists s ns, for_each hs ReferencePage (mkState (createQueue (Z.of_nat n)) (createHash (Z.of_nat cap)) ∅) = Ok tt s /\
    represents s n cap ns /\ ns.*2 = take n (recent hs).
Proof.
  intros Hn. set (s0 := mkState _ _ _). induction hs as [|p hs IH] using rev_ind; intros Hp.
  - exists s0, []. split_and!; [done| |by destruct n]. constructor; [| |done|unfold s0, createHash; cbn [array]; rewrite length_replicate; lia|cbn; lia].
    + constructor; cbn; try done; [constructor|]. intros a. rewrite lookup_empty, is_Some_alt. set_solver.
    + constructor; cbn; [constructor|constructor|]. intros p a _. unfold createHash. rewrite lookup_replicate. split; [by intros [? _]|set_solver].
  - apply Forall_app in Hp as [Hh [Hp _]%Forall_cons]. cbn in Hp. destruct (IH Hh) as (s & ns & R & P & E).
    destruct (ReferencePage_Ok s n cap ns p P Hn Hp) as (s' & ns' & R' & P' & E'). exists s', ns'. split_and!; [|done|].
    + rewrite for_each_app, (bind_Ok _ _ _ _ _ R). cbn [for_each]. by rewrite (bind_Ok _ _ _ _ _ R').
    + rewrite E', E, recent_snoc. apply recent_take; [|done]. unfold recent. rewrite reverse_Permutation. apply NoDup_remove_dups.
Qed.

Lemma hashbuf_is_lru_witness : exists s ns, main main_init = Ok tt s /\ represents s 4 10 ns /\ ns.*2 = [5; 4; 1; 3].
Proof.
  destruct (hashbuf_is_lru 4 10 [1; 2; 3; 1; 4; 5]) as (s & ns & R & P & E); [lia|repeat constructor; lia|].
  exists s, ns. split_and!; [exact R|exact P|exact E].
Defined.
