(* ===== verification/Umalloc.v ===== *)
(** * Umalloc: the memory allocator of user programs (umalloc.c)

    The allocator of Kernighan and Ritchie: free blocks on a circular list in
    order of address, each with a header of 8 bytes that holds its size in
    units of a header.  Memory is a function from addresses to the header read there;
    [sbrk] is the kernel's, which grants an extension of the process or refuses.
    The theorem shows that, whatever a program allocates, frees and writes in
    its blocks, [malloc] and [free] return, blocks in use and free blocks never
    overlap, no memory is lost, and neighbouring free blocks are merged. *)

From Stdlib Require Import Sorted.
From stdpp Require Import sorting.
From S2P Require Import Prelude.
Open Scope Z_scope.
Open Scope xv6_scope.

(** [union header], and the memory of the process: its headers, the static
    [freep], and the break. *)
Record header := Hdr { ptr : Z; size : Z }.
Record uheap := Uheap { hd : Z -> header; freep : Z; brk : Z }.

Definition HSIZE : Z := 8.

Section Umalloc.
(** The address of [base], and the kernel's answer to a request for memory at
    a break. *)
Context (base : Z) (grants : Z -> Z -> bool).

Definition get_hd (p : Z) : M uheap header := gets (fun s => hd s p).
Definition set_hd (p : Z) (x : header) (s : uheap) : uheap :=
  Uheap (fun y => if y =? p then x else hd s y) (freep s) (brk s).
Definition set_ptr (p x : Z) : M uheap unit := modify (fun s => set_hd p (Hdr x (size (hd s p))) s).
Definition set_size (p x : Z) : M uheap unit := modify (fun s => set_hd p (Hdr (ptr (hd s p)) x) s).
Definition set_freep (p : Z) : M uheap unit := modify (fun s => Uheap (hd s) p (brk s)).
(** [p + n] for a header pointer. *)
Definition hplus (p n : Z) : Z := u32 (p + HSIZE * n).

(** The system call: the old break, or -1. *)
Definition sbrk (n : Z) : M uheap Z :=
  if i32 n <? 0 then halt (Undefined "sbrk") else
  let! b := gets brk in
  if grants b n then modify (fun s => Uheap (hd s) (freep s) (b + n)) ;;; ret b else ret (u32 (-1)).

(** The loop of [free]: the header after which [bp] belongs. *)
Definition stops (bp p nx : Z) : bool :=
  ((p <? bp) && (bp <? nx)) || ((nx <=? p) && ((p <? bp) || (bp <? nx))).
Fixpoint free_loop (fuel : nat) (bp p : Z) : M uheap Z :=
  match fuel with
  | O => halt OutOfFuel
  | S fuel =>
      let! hp := get_hd p in
      if stops bp p (ptr hp) then ret p else free_loop fuel bp (ptr hp)
  end.

Definition free (fuel : nat) (ap : Z) : M uheap unit :=
  let bp := u32 (ap - HSIZE) in
  let! p := gets freep in
  let! p := free_loop fuel bp p in
  let! hb := get_hd bp in
  let! hp := get_hd p in
  (if hplus bp (size hb) =? ptr hp then
     let! hn := get_hd (ptr hp) in
     set_size bp (u32 (size hb + size hn)) ;;;
     let! hp := get_hd p in
     let! hn := get_hd (ptr hp) in
     set_ptr bp (ptr hn)
   else set_ptr bp (ptr hp)) ;;;
  let! hb := get_hd bp in
  let! hp := get_hd p in
  (if hplus p (size hp) =? bp then
     set_size p (u32 (size hp + size hb)) ;;;
     set_ptr p (ptr hb)
   else set_ptr p bp) ;;;
  set_freep p.

Definition morecore (fuel : nat) (nu : Z) : M uheap Z :=
  let nu := if nu <? 4096 then 4096 else nu in
  let! p := sbrk (u32 (nu * HSIZE)) in
  if p =? u32 (-1) then ret 0 else
  set_size p nu ;;;
  free fuel (hplus p 1) ;;;
  gets freep.

(** The loop of [malloc]. *)
Fixpoint malloc_loop (fuel : nat) (nunits prevp p : Z) : M uheap Z :=
  match fuel with
  | O => halt OutOfFuel
  | S fuel' =>
      let! hp := get_hd p in
      if nunits <=? size hp then
        let! p := (if size hp =? nunits then set_ptr prevp (ptr hp) ;;; ret p
                   else
                     set_size p (u32 (size hp - nunits)) ;;;
                     let! hp := get_hd p in
                     let p := hplus p (size hp) in
                     set_size p nunits ;;;
                     ret p) in
        set_freep prevp ;;;
        ret (hplus p 1)
      else
        let! f := gets freep in
        if p =? f then
          let! p := morecore fuel' nunits in
          if p =? 0 then ret 0 else
          let! hp := get_hd p in
          malloc_loop fuel' nunits p (ptr hp)
        else malloc_loop fuel' nunits p (ptr hp)
  end.

(** The units for [nbytes] bytes and a header. *)
Definition units (nbytes : Z) : Z := u32 (nbytes + HSIZE - 1) / HSIZE + 1.

Definition malloc (fuel : nat) (nbytes : Z) : M uheap Z :=
  let nunits := units nbytes in
  let! prevp := gets freep in
  let! prevp := (if prevp =? 0 then set_freep base ;;; set_ptr base base ;;; set_size base 0 ;;; ret base else ret prevp) in
  let! h := get_hd prevp in
  malloc_loop fuel nunits prevp (ptr h).

(** ** The circular list *)

Definition head_of (L : list (Z * Z)) (last : Z) : Z := match L with [] => last | (a, _) :: _ => a end.
(** Each header of [L] leads to the next, the last one to [last]. *)
Fixpoint linked (h : Z -> header) (L : list (Z * Z)) (last : Z) : Prop :=
  match L with
  | [] => True
  | (a, n) :: t => h a = Hdr (head_of t last) n /\ linked h t last
  end.

Lemma linked_app h L1 L2 last : linked h (L1 ++ L2) last <-> linked h L1 (head_of L2 last) /\ linked h L2 last.
Proof.
  induction L1 as [|[a n] L1 IH]; [cbn; tauto|]. cbn. rewrite IH.
  assert (E : head_of (L1 ++ L2) last = head_of L1 (head_of L2 last)) by (by destruct L1 as [|[]]). rewrite E. tauto.
Qed.

Lemma linked_mid h L1 a n L2 last : linked h (L1 ++ (a, n) :: L2) last -> h a = Hdr (head_of L2 last) n.
Proof. rewrite linked_app. by intros (_ & ? & _). Qed.

Lemma linked_ext h h' L last : (forall a, a ∈ L.*1 -> h' a = h a) -> linked h L last -> linked h' L last.
Proof.
  induction L as [|[a n] L IH]; [done|]. cbn. intros E [H1 H2]. split; [rewrite E; [done|left]|].
  apply IH; [|done]. intros b Hb. apply E. by right.
Qed.

(** Following the pointers. *)
Fixpoint path (h : Z -> header) (x : Z) (R : list Z) : Prop :=
  match R with [] => True | y :: R => ptr (h x) = y /\ path h y R end.

Lemma path_join h x R1 y R2 : path h x (R1 ++ [y]) -> path h y R2 -> path h x (R1 ++ y :: R2).
Proof. revert x. induction R1 as [|z R1 IH]; intros x; cbn; [tauto|]. intros [-> H1] H2. split; [done|by apply IH]. Qed.

Lemma path_linked h a n L last : linked h ((a, n) :: L) last -> path h a (L.*1 ++ [last]).
Proof.
  revert a n. induction L as [|[b m] L IH]; intros a n [H1 H2]; cbn; rewrite H1; [done|]. split; [done|by apply (IH b m)].
Qed.

(** From any header of the ring the pointers lead past all of them and back. *)
Lemma path_around h a n L x : linked h ((a, n) :: L) a -> x ∈ a :: L.*1 ->
  exists R, path h x (R ++ [x]) /\ a :: L.*1 ≡ₚ R ++ [x].
Proof.
  intros HL [->|Hx]%elem_of_cons.
  - exists L.*1. split; [by apply path_linked in HL|]. solve_Permutation.
  - apply list_elem_of_fmap in Hx as ([x' m] & -> & Hx). apply list_elem_of_split in Hx as (L1 & L2 & ->). cbn [fst].
    rewrite app_comm_cons in HL. pose proof HL as [H1 H2]%linked_app. apply path_linked in H2.
    cbn [head_of] in H1. apply path_linked in H1. exists (L2.*1 ++ a :: L1.*1). split.
    + rewrite <- app_assoc. cbn. by apply path_join.
    + rewrite fmap_app. cbn. solve_Permutation.
Qed.

(** ** Blocks *)

(** In order of address, not touching; and not overlapping. *)
Definition before (x y : Z * Z) : Prop := fst x + HSIZE * snd x < fst y.
Definition apart (x y : Z * Z) : Prop := fst x + HSIZE * snd x <= fst y \/ fst y + HSIZE * snd y <= fst x.
Definition total (B : list (Z * Z)) : Z := foldr (fun x n => snd x + n) 0 B.

Lemma total_app B1 B2 : total (B1 ++ B2) = total B1 + total B2.
Proof. induction B1 as [|x B1 IH]; [done|]. cbn. fold (total (B1 ++ B2)) (total B1). rewrite IH. lia. Qed.

Lemma total_perm B1 B2 : B1 ≡ₚ B2 -> total B1 = total B2.
Proof. unfold total. induction 1; cbn in *; lia. Qed.

(** Blocks of at least a unit in [H0, b), aligned and not overlapping. *)
Record blocks_ok (H0 b : Z) (B : list (Z * Z)) : Prop := {
  bo_block : forall a n, (a, n) ∈ B -> 1 <= n /\ H0 <= a /\ a + HSIZE * n <= b /\ a mod HSIZE = 0;
  bo_nodup : NoDup B;
  bo_apart : forall x y, x ∈ B -> y ∈ B -> x <> y -> apart x y
}.

Lemma blocks_ok_perm H0 b B1 B2 : B1 ≡ₚ B2 -> blocks_ok H0 b B1 -> blocks_ok H0 b B2.
Proof.
  intros E [H1 H2 H3]. constructor; [|by rewrite <- E|].
  - intros a n. rewrite <- E. apply H1.
  - intros x y. rewrite <- E. apply H3.
Qed.

Lemma blocks_ok_cons H0 b B a n : blocks_ok H0 b B -> 1 <= n -> H0 <= a -> a + HSIZE * n <= b -> a mod HSIZE = 0 ->
  (forall y, y ∈ B -> apart (a, n) y) -> blocks_ok H0 b ((a, n) :: B).
Proof.
  intros [H1 H2 H3] Hn Ha Hb Hm Hap. constructor.
  - intros a' n' [[= -> ->]|Hi]%elem_of_cons; [done|by apply H1].
  - apply NoDup_cons. split; [|done]. intros Hi. apply Hap in Hi. unfold apart, HSIZE in *. cbn in Hi. lia.
  - intros x y [->|Hx]%elem_of_cons [->|Hy]%elem_of_cons Hne; [done|by apply Hap| |by apply H3].
    apply Hap in Hx. unfold apart in *. tauto.
Qed.

Lemma blocks_ok_tail H0 b x B : blocks_ok H0 b (x :: B) -> blocks_ok H0 b B /\ forall y, y ∈ B -> apart x y.
Proof.
  intros [H1 H2 H3]. apply NoDup_cons in H2 as [Hx H2]. split; [constructor; [|done|]|].
  - intros a n Hi. apply H1. by right.
  - intros y z Hy Hz. apply H3; by right.
  - intros y Hy. apply H3; [left|by right|]. intros ->. done.
Qed.

(** Two blocks that touch make one; a block can be cut in two. *)
Lemma blocks_ok_merge H0 b a n m B : blocks_ok H0 b ((a, n) :: (a + HSIZE * n, m) :: B) -> blocks_ok H0 b ((a, n + m) :: B).
Proof.
  intros H. pose proof (bo_block _ _ _ H) as Hb. destruct (blocks_ok_tail _ _ _ _ H) as [H1 A1]. destruct (blocks_ok_tail _ _ _ _ H1) as [H2 A2].
  destruct (Hb a n) as (? & ? & ? & ?); [left|]. destruct (Hb (a + HSIZE * n) m) as (? & ? & ? & ?); [right; left|].
  apply blocks_ok_cons; [done|lia|done|unfold HSIZE in *; lia|done|]. intros [c k] Hy. destruct (Hb c k) as (? & _); [by right; right|].
  specialize (A1 (c, k) ltac:(by right)). specialize (A2 (c, k) Hy). unfold apart, HSIZE in *. cbn in *. lia.
Qed.

Lemma blocks_ok_split H0 b a n m B : blocks_ok H0 b ((a, n + m) :: B) -> 1 <= n -> 1 <= m -> blocks_ok H0 b ((a + HSIZE * n, m) :: (a, n) :: B).
Proof.
  intros H Hn Hm. pose proof (bo_block _ _ _ H a (n + m) ltac:(left)) as (Q1 & Q2 & Q3 & Ha). destruct (blocks_ok_tail _ _ _ _ H) as [H1 A1].
  apply blocks_ok_cons; [apply blocks_ok_cons; [done|done|done|unfold HSIZE in *; lia|done|]|done|unfold HSIZE in *; lia|unfold HSIZE in *; lia| |].
  - intros y Hy. specialize (A1 y Hy). unfold apart, HSIZE in *. cbn in *. lia.
  - unfold HSIZE in *. rewrite Z.mul_comm, Z.mod_add by lia. done.
  - intros y [->|Hy]%elem_of_cons; [unfold apart, HSIZE; cbn; lia|]. specialize (A1 y Hy). unfold apart, HSIZE in *. cbn in *. lia.
Qed.

Context (H0 : Z) (Hbase : 0 < base) (HH0 : base + HSIZE <= H0).

(** The invariant: the free blocks [fs] are on the ring in order, they and the
    blocks in use [al] do not overlap, and together they are all of the heap. *)
Record inv (s : uheap) (fs al : list (Z * Z)) : Prop := {
  in_ring : linked (hd s) ((base, 0) :: fs) base;
  in_freep : freep s ∈ base :: fs.*1;
  in_sorted : StronglySorted before ((base, 0) :: fs);
  in_blocks : blocks_ok H0 (brk s) (fs ++ al);
  in_size : forall a n, (a, n) ∈ al -> size (hd s a) = n;
  in_sum : HSIZE * total (fs ++ al) = brk s - H0;
  in_brk : brk s <= 2 ^ 31 /\ brk s mod HSIZE = 0
}.

Lemma inv_perm s fs al al' : al ≡ₚ al' -> inv s fs al -> inv s fs al'.
Proof.
  intros E [? ? ? Hb Hs Ht ?]. constructor; try done.
  - eapply blocks_ok_perm; [by rewrite <- E|done].
  - intros a n. rewrite <- E. apply Hs.
  - by rewrite <- (total_perm _ _ (Permutation_app_head fs E)).
Qed.

(** The place of a block in the order. *)
Lemma locate T bp k : 1 <= k -> forall x, StronglySorted before (x :: T) -> fst x + HSIZE * snd x <= bp ->
  (forall y, y ∈ T -> 1 <= snd y /\ apart (bp, k) y) ->
  exists L1 p n L2, x :: T = L1 ++ (p, n) :: L2 /\ p + HSIZE * n <= bp /\ (forall y, y ∈ L2 -> bp + HSIZE * k <= fst y).
Proof.
  intros Hk. induction T as [|y T IH]; intros [p n] Hs Hx Ha.
  { exists [], p, n, []. split_and!; [done|done|set_solver]. }
  apply StronglySorted_inv in Hs as [Hs Hlt]. destruct (Ha y) as [Hy1 [Hy|Hy]]; [left| |].
  - exists [], p, n, (y :: T). split_and!; [done|done|]. intros z [->|Hz]%elem_of_cons; [done|].
    apply StronglySorted_inv in Hs as [_ Hs]. rewrite Forall_forall in Hs. specialize (Hs z Hz). unfold before, HSIZE in *. cbn in *. lia.
  - destruct (IH y Hs Hy) as (L1 & p' & n' & L2 & E & Hp & HL2); [intros z Hz; apply Ha; by right|].
    exists ((p, n) :: L1), p', n', L2. split_and!; [by rewrite E|done|done].
Qed.

Lemma sorted_mid L1 x L2 : StronglySorted before (L1 ++ x :: L2) -> (forall y, y ∈ L1 -> before y x) /\ (forall y, y ∈ L2 -> before x y).
Proof.
  intros H. split.
  - intros y Hy. apply list_elem_of_split in Hy as (A & B & ->). rewrite <- app_assoc in H. cbn in H.
    apply StronglySorted_app_1_r in H. apply StronglySorted_inv in H as [_ H]. rewrite Forall_forall in H. apply H. set_solver.
  - intros y Hy. apply StronglySorted_app_1_r in H. apply StronglySorted_inv in H as [_ H]. rewrite Forall_forall in H. by apply H.
Qed.

Section Stops.
Context (h : Z -> header) (L1 L2 fs : list (Z * Z)) (p n bp : Z).
Context (E : (base, 0) :: fs = L1 ++ (p, n) :: L2) (HL : linked h ((base, 0) :: fs) base) (HS : StronglySorted before ((base, 0) :: fs)).
Context (Hp : p < bp) (H2 : forall y, y ∈ L2 -> bp < fst y) (Hpos : forall y, y ∈ fs -> 0 <= snd y) (Hbp : base < bp).

Lemma ring_base x : x ∈ (base, 0) :: fs -> base <= fst x.
Proof.
  intros [->|Hx]%elem_of_cons; [done|]. apply StronglySorted_inv in HS as [_ H]. rewrite Forall_forall in H. specialize (H x Hx).
  unfold before in H. cbn in H. lia.
Qed.

Lemma ring_pos x : x ∈ (base, 0) :: fs -> 0 <= snd x.
Proof. intros [->|Hx]%elem_of_cons; [done|by apply Hpos]. Qed.

Lemma stops_there : stops bp p (ptr (h p)) = true.
Proof.
  pose proof HL as HL'. rewrite E in HL'. apply linked_mid in HL'. rewrite HL'. cbn. unfold stops. rewrite (proj2 (Z.ltb_lt p bp) Hp).
  destruct L2 as [|[c m] L2'] eqn:EL; cbn.
  - pose proof (ring_base (p, n)) as Hb. rewrite E in Hb. specialize (Hb ltac:(set_solver)). cbn in Hb.
    rewrite (proj2 (Z.leb_le base p) Hb). by rewrite orb_true_r.
  - rewrite (proj2 (Z.ltb_lt bp c)); [done|]. apply (H2 (c, m)). left.
Qed.

Lemma stops_elsewhere x : x ∈ base :: fs.*1 -> x <> p -> stops bp x (ptr (h x)) = false.
Proof.
  intros Hx Hne. change (base :: fs.*1) with (((base, 0) :: fs).*1) in Hx. rewrite E in Hx.
  apply list_elem_of_fmap in Hx as ([x' m] & -> & Hx). cbn in Hne |- *. pose proof HL as HL'. pose proof HS as HS'. rewrite E in HL', HS'.
  assert (Hr : forall y, y ∈ L1 ++ (p, n) :: L2 -> base <= fst y /\ 0 <= snd y) by (intros y Hy; rewrite <- E in Hy; split; [by apply ring_base|by apply ring_pos]).
  unfold stops. apply elem_of_app in Hx as [Hx|[Hx|Hx]%elem_of_cons]; [| |].
  - apply list_elem_of_split in Hx as (A & B & ->). rewrite <- app_assoc in HL', HS', Hr. cbn in HL', HS', Hr.
    rewrite (linked_mid _ _ _ _ _ _ HL'). cbn [ptr]. destruct (sorted_mid _ _ _ HS') as [_ Hb].
    assert (Hy : exists y k, B ++ (p, n) :: L2 = (y, k) :: tl (B ++ (p, n) :: L2) /\ y <= p).
    { destruct B as [|[y k] B]; [by exists p, n|]. exists y, k. split; [done|].
      rewrite cons_middle, app_assoc in HS'. cbn in HS'. destruct (sorted_mid _ _ _ HS') as [_ Hb'].
      specialize (Hb' (p, n) ltac:(set_solver)). destruct (Hr (y, k)) as [_ ?]; [set_solver|]. unfold before, HSIZE in Hb'. cbn in *. lia. }
    destruct Hy as (y & k & Ey & Hyp). rewrite Ey. cbn [head_of]. specialize (Hb (y, k) ltac:(rewrite Ey; left)).
    destruct (Hr (x', m)) as [_ ?]; [set_solver|]. unfold before, HSIZE in Hb. cbn in *.
    rewrite (proj2 (Z.ltb_ge bp y)), (proj2 (Z.leb_gt y x')) by lia. by rewrite andb_false_r.
  - congruence.
  - pose proof (H2 _ Hx) as Hxb. cbn in Hxb. apply list_elem_of_split in Hx as (A & B & ->). rewrite app_comm_cons, app_assoc in HL', HS', Hr.
    rewrite (linked_mid _ _ _ _ _ _ HL'). cbn [ptr]. rewrite (proj2 (Z.ltb_ge x' bp)) by lia. cbn.
    destruct B as [|[c k] B]; cbn; [by rewrite (proj2 (Z.ltb_ge bp base)), andb_false_r by lia|].
    destruct (sorted_mid _ _ _ HS') as [_ Hb]. specialize (Hb (c, k) ltac:(left)). destruct (Hr (x', m)) as [_ ?]; [set_solver|].
    unfold before, HSIZE in Hb. cbn in *. by rewrite (proj2 (Z.leb_gt c x')) by lia.
Qed.
End Stops.

Lemma free_loop_path bp p s R : stops bp p (ptr (hd s p)) = true -> forall x fuel, path (hd s) x R -> p ∈ x :: R ->
  (forall y, y ∈ x :: R -> y <> p -> stops bp y (ptr (hd s y)) = false) -> (length R < fuel)%nat -> free_loop fuel bp x s = Ok p s.
Proof.
  intros Hp. induction R as [|y R IH]; intros x [|fuel] HR Hi Hf Hl; try (cbn in Hl; lia); cbn [free_loop]; unfold bind at 1, get_hd, gets.
  - apply list_elem_of_singleton in Hi as ->. by rewrite Hp.
  - destruct HR as [Ey HR]. destruct (decide (x = p)) as [->|Hne]; [by rewrite Hp|]. rewrite Hf; [|left|done]. rewrite Ey.
    apply IH; [done|set_solver| |cbn in Hl; lia]. intros z Hz. apply Hf. by right.
Qed.

Lemma hd_set s a x y : hd (set_hd a x s) y = if y =? a then x else hd s y.
Proof. done. Qed.

Lemma hd_set_eq s a x : hd (set_hd a x s) a = x.
Proof. by rewrite hd_set, Z.eqb_refl. Qed.

Lemma hd_set_ne s a x y : y <> a -> hd (set_hd a x s) y = hd s y.
Proof. intros H. by rewrite hd_set, (proj2 (Z.eqb_neq _ _) H). Qed.

(** What [free] writes once it has found the place: the header of the block,
    merged with the next one or not, and the header before it. *)
Definition next_merged (s : uheap) (bp k nx : Z) : header :=
  if bp + HSIZE * k =? nx then Hdr (ptr (hd s nx)) (k + size (hd s nx)) else Hdr nx k.
Definition prev_merged (bp p n : Z) (b : header) : header :=
  if p + HSIZE * n =? bp then Hdr (ptr b) (n + size b) else Hdr bp n.

Lemma link_next s bp p k nx n : hd s p = Hdr nx n -> size (hd s bp) = k -> p <> bp -> nx <> bp ->
  0 <= bp + HSIZE * k < 2 ^ 32 -> 0 <= size (next_merged s bp k nx) < 2 ^ 32 ->
  exists s1, (let! hb := get_hd bp in let! hp := get_hd p in
     if hplus bp (size hb) =? ptr hp then
       let! hn := get_hd (ptr hp) in set_size bp (u32 (size hb + size hn)) ;;;
       let! hp := get_hd p in let! hn := get_hd (ptr hp) in set_ptr bp (ptr hn)
     else set_ptr bp (ptr hp)) s = Ok tt s1 /\ freep s1 = freep s /\ brk s1 = brk s /\
    forall y, hd s1 y = if y =? bp then next_merged s bp k nx else hd s y.
Proof.
  intros Hp Hb Hne Hnx Hr Hsz. unfold next_merged in *. unfold bind at 1, get_hd at 1, gets. unfold bind at 1, get_hd at 1, gets.
  rewrite Hp, Hb. cbn [ptr size]. unfold hplus. rewrite u32_id by done. destruct (Z.eqb_spec (bp + HSIZE * k) nx) as [E|E].
  - cbn [size] in Hsz. unfold bind at 1, get_hd at 1, gets. rewrite u32_id by done.
    set (s1 := set_hd bp (Hdr (ptr (hd s bp)) (k + size (hd s nx))) s).
    rewrite (bind_Ok (set_size bp (k + size (hd s nx))) _ s tt s1 eq_refl). unfold bind at 1, get_hd at 1, gets.
    unfold s1 at 1. rewrite hd_set_ne, Hp by done. cbn [ptr]. unfold bind at 1, get_hd at 1, gets. unfold s1 at 1. rewrite hd_set_ne by done.
    eexists. split; [done|]. split_and!; [done|done|]. intros y. unfold s1. rewrite hd_set_eq. cbn [size]. rewrite !hd_set. by destruct (y =? bp).
  - eexists. split; [done|]. split_and!; [done|done|]. intros y. by rewrite hd_set, Hb.
Qed.

Lemma link_prev s bp p n b : hd s bp = b -> size (hd s p) = n -> p <> bp -> 0 <= p + HSIZE * n < 2 ^ 32 ->
  0 <= size (prev_merged bp p n b) < 2 ^ 32 ->
  exists s1, (let! hb := get_hd bp in let! hp := get_hd p in
     (if hplus p (size hp) =? bp then set_size p (u32 (size hp + size hb)) ;;; set_ptr p (ptr hb) else set_ptr p bp) ;;;
     set_freep p) s = Ok tt s1 /\ freep s1 = p /\ brk s1 = brk s /\
    forall y, hd s1 y = if y =? p then prev_merged bp p n b else hd s y.
Proof.
  intros Hb Hp Hne Hr Hsz. unfold prev_merged in *. unfold bind at 1, get_hd at 1, gets. unfold bind at 1, get_hd at 1, gets.
  rewrite Hp, Hb. unfold hplus. rewrite u32_id by done. destruct (Z.eqb_spec (p + HSIZE * n) bp) as [E|E].
  - cbn [size] in Hsz. rewrite u32_id by done. eexists. split; [done|]. split_and!; [done|done|]. intros y. cbn. rewrite Z.eqb_refl. cbn. by destruct (y =? p).
  - eexists. split; [done|]. split_and!; [done|done|]. intros y. cbn. by rewrite Hp.
Qed.

Lemma free_run s fuel bp p nx n k : free_loop fuel bp (freep s) s = Ok p s -> hd s p = Hdr nx n -> size (hd s bp) = k -> p <> bp -> nx <> bp ->
  0 <= bp < 2 ^ 32 -> 0 <= bp + HSIZE * k < 2 ^ 32 -> 0 <= p + HSIZE * n < 2 ^ 32 ->
  let b := next_merged s bp k nx in 0 <= size b < 2 ^ 32 -> 0 <= size (prev_merged bp p n b) < 2 ^ 32 ->
  exists s', free fuel (bp + HSIZE) s = Ok tt s' /\ freep s' = p /\ brk s' = brk s /\
    forall y, hd s' y = if y =? p then prev_merged bp p n b else if y =? bp then b else hd s y.
Proof.
  intros R Hp Hb Hne Hnx Hr Hrb Hrp b Hs1 Hs2. unfold free. rewrite (u32_id (bp + HSIZE - HSIZE)) by lia.
  replace (bp + HSIZE - HSIZE) with bp by lia. rewrite (bind_Ok (gets freep) _ s (freep s) s eq_refl). rewrite (bind_Ok _ _ _ _ _ R).
  destruct (link_next s bp p k nx n Hp Hb Hne Hnx Hrb Hs1) as (s1 & R1 & F1 & K1 & E1). fold b in E1.
  destruct (link_prev s1 bp p n b) as (s2 & R2 & F2 & K2 & E2); [by rewrite E1, Z.eqb_refl| |done|done|done|].
  { rewrite E1, (proj2 (Z.eqb_neq _ _) Hne), Hp. done. }
  exists s2. split_and!; [|done|congruence|].
  - revert R1 R2. unfold bind, get_hd, gets. destruct (_ =? _); intros R1 R2.
    + rewrite R1. exact R2.
    + rewrite R1. exact R2.
  - intros y. rewrite E2, E1. done.
Qed.

(** The block merged with the one after it, or not. *)
Lemma next_stage s bp k L2 : linked (hd s) L2 base -> StronglySorted before L2 ->
  (forall y, y ∈ L2 -> 1 <= snd y /\ bp + HSIZE * k <= fst y) -> base < bp -> 1 <= k ->
  exists k1 T, next_merged s bp k (head_of L2 base) = Hdr (head_of T base) k1 /\ k <= k1 /\ linked (hd s) T base /\ StronglySorted before T /\
    (forall y, y ∈ T -> y ∈ L2 /\ bp + HSIZE * k1 < fst y) /\
    (forall b B, blocks_ok H0 b ((bp, k) :: L2 ++ B) -> blocks_ok H0 b ((bp, k1) :: T ++ B)) /\ k + total L2 = k1 + total T /\
    (length T <= length L2)%nat.
Proof.
  intros HL HS Ha Hb Hk. unfold next_merged. destruct L2 as [|[c m] L2]; cbn [head_of].
  { exists k, []. rewrite (proj2 (Z.eqb_neq (bp + HSIZE * k) base)) by (unfold HSIZE; lia). split_and!; try done; lia || set_solver. }
  destruct HL as [Hc HL]. pose proof HS as HS'. apply StronglySorted_inv in HS' as [HS' Hlt]. rewrite Forall_forall in Hlt.
  destruct (Ha (c, m)) as [Hm Hcb]; [left|]. cbn in Hm, Hcb. destruct (Z.eqb_spec (bp + HSIZE * k) c) as [E|E].
  - exists (k + m), L2. rewrite Hc. split_and!; try done; [lia| | | |cbn; lia].
    + intros y Hy. split; [by right|]. specialize (Hlt y Hy). unfold before, HSIZE in *. cbn in *. lia.
    + intros b B HB. subst c. by apply blocks_ok_merge.
    + cbn. fold (total L2). lia.
  - exists k, ((c, m) :: L2). split_and!; try done. intros y Hy. split; [done|].
    apply elem_of_cons in Hy as [->|Hy]; [cbn; lia|]. specialize (Hlt y Hy). unfold before, HSIZE in *. cbn in *. lia.
Qed.

(** The header before the block and the block, merged or not. *)
Definition joined (p n bp k1 : Z) : list (Z * Z) := if p + HSIZE * n =? bp then [(p, n + k1)] else [(p, n); (bp, k1)].

Lemma joined_linked h h' L1 p n bp k1 T : linked h L1 p -> linked h T base -> bp ∉ L1.*1 -> bp ∉ T.*1 -> p ∉ L1.*1 -> p ∉ T.*1 -> p <> bp ->
  (forall y, h' y = if y =? p then prev_merged bp p n (Hdr (head_of T base) k1) else if y =? bp then Hdr (head_of T base) k1 else h y) ->
  linked h' (L1 ++ joined p n bp k1 ++ T) base.
Proof.
  intros H1 HT Hb1 HbT Hp1 HpT Hne E.
  assert (Eo : forall L last, bp ∉ L.*1 -> p ∉ L.*1 -> linked h L last -> linked h' L last).
  { intros L last HbL HpL. apply linked_ext. intros a Ha. rewrite E.
    rewrite (proj2 (Z.eqb_neq a p)), (proj2 (Z.eqb_neq a bp)) by (intros ->; done). done. }
  assert (Ep : h' p = prev_merged bp p n (Hdr (head_of T base) k1)) by (by rewrite E, Z.eqb_refl).
  assert (Eb : h' bp = Hdr (head_of T base) k1) by (by rewrite E, (proj2 (Z.eqb_neq bp p)), Z.eqb_refl by done).
  unfold prev_merged in Ep. unfold joined. rewrite linked_app. destruct (Z.eqb_spec (p + HSIZE * n) bp) as [Em|Em]; cbn; rewrite Ep; split_and!; auto.
Qed.

Lemma joined_sorted L1 p n bp k1 T : StronglySorted before (L1 ++ (p, n) :: T) -> p + HSIZE * n <= bp ->
  (forall y, y ∈ T -> bp + HSIZE * k1 < fst y) -> 0 <= n -> 1 <= k1 -> StronglySorted before (L1 ++ joined p n bp k1 ++ T).
Proof.
  rewrite !StronglySorted_app, StronglySorted_cons, Forall_forall. intros (Hc & S1 & HpT & ST) Hb HbT Hn Hk.
  assert (Hj : forall x y, x ∈ L1 -> y ∈ joined p n bp k1 -> before x y).
  { intros x y Hx Hy. specialize (Hc x (p, n) Hx ltac:(left)). unfold joined, before, HSIZE in *. cbn in *.
    destruct (_ =? _); set_unfold in Hy; destruct_or?; subst; cbn; lia. }
  split_and!; [|done| | |done].
  - intros x y Hx [Hy|Hy]%elem_of_app; [by apply Hj|]. apply Hc; [done|by right].
  - intros x y Hx Hy. specialize (HbT y Hy). unfold joined, before, HSIZE in *. destruct (Z.eqb_spec (p + 8 * n) bp); set_unfold in Hx; destruct_or?; subst; cbn in *; lia.
  - unfold joined. destruct (Z.eqb_spec (p + HSIZE * n) bp); [repeat constructor|].
    apply StronglySorted_cons. split; [|repeat constructor]. apply Forall_singleton. unfold before. cbn. lia.
Qed.

Lemma joined_blocks b p n bp k1 B : blocks_ok H0 b ((p, n) :: (bp, k1) :: B) -> blocks_ok H0 b (joined p n bp k1 ++ B).
Proof. intros H. unfold joined. destruct (Z.eqb_spec (p + HSIZE * n) bp) as [E|E]; [|done]. subst bp. by apply blocks_ok_merge. Qed.

Lemma joined_total p n bp k1 : total (joined p n bp k1) = n + k1.
Proof. unfold joined. destruct (_ =? _); cbn; lia. Qed.

Section Free.
Context (s : uheap) (fs al : list (Z * Z)) (bp k : Z) (I : inv s fs ((bp, k) :: al)).

Lemma free_block : 1 <= k /\ H0 <= bp /\ bp + HSIZE * k <= brk s /\ bp mod HSIZE = 0.
Proof. apply (bo_block _ _ _ (in_blocks _ _ _ I)). set_solver. Qed.

Lemma fs_block a n : (a, n) ∈ fs -> 1 <= n /\ H0 <= a /\ a + HSIZE * n <= brk s /\ a mod HSIZE = 0.
Proof. intros H. apply (bo_block _ _ _ (in_blocks _ _ _ I)). set_solver. Qed.

Lemma fs_apart y : y ∈ fs -> apart (bp, k) y.
Proof.
  intros Hy. apply (bo_apart _ _ _ (in_blocks _ _ _ I)); [set_solver..|]. intros <-.
  pose proof (bo_nodup _ _ _ (in_blocks _ _ _ I)) as Hn. apply NoDup_app in Hn as (_ & Hn & _). apply (Hn _ Hy). left.
Qed.

Lemma place : exists L1 p n L2, (base, 0) :: fs = L1 ++ (p, n) :: L2 /\ p + HSIZE * n <= bp /\ base <= p < bp /\ 0 <= n /\
  (forall y, y ∈ L2 -> y ∈ fs /\ 1 <= snd y /\ bp + HSIZE * k <= fst y) /\
  ((L1 = [] /\ p = base /\ n = 0 /\ fs = L2) \/ exists L1', L1 = (base, 0) :: L1' /\ fs = L1' ++ (p, n) :: L2).
Proof.
  destruct free_block as (Hk & Hb & _). destruct (locate fs bp k Hk (base, 0)) as (L1 & p & n & L2 & E & Hp & HL2).
  - apply (in_sorted _ _ _ I).
  - cbn. unfold HSIZE in *. lia.
  - intros [a m] Hy. split; [by apply fs_block in Hy as [? _]|by apply fs_apart].
  - exists L1, p, n, L2. assert (H2 : forall y, y ∈ L2 -> y ∈ fs).
    { intros y Hy. assert (Hy' : y ∈ tl ((base, 0) :: fs)); [|done]. rewrite E. destruct L1; cbn; set_solver. }
    assert (Hpn : (p = base /\ n = 0) \/ (p, n) ∈ fs).
    { assert (Hi : (p, n) ∈ (base, 0) :: fs) by (rewrite E; set_solver). apply elem_of_cons in Hi as [[= -> ->]|?]; auto. }
    split_and!; [done|done| | | | |].
    + destruct Hpn as [[-> _]|Hi]; [done|]. apply fs_block in Hi. unfold HSIZE in *. lia.
    + destruct Hpn as [[-> _]|Hi]; [unfold HSIZE in *; lia|]. apply fs_block in Hi. unfold HSIZE in *. lia.
    + destruct Hpn as [[_ ->]|Hi]; [done|]. apply fs_block in Hi. lia.
    + intros [a m] Hy. specialize (H2 _ Hy). split_and!; [done|by apply fs_block in H2 as [? _]|by apply HL2].
    + destruct L1 as [|x L1]; cbn in E; injection E as -> ->; [by left|right; eauto].
Qed.

Lemma free_found fuel L1 p n L2 : (base, 0) :: fs = L1 ++ (p, n) :: L2 -> p < bp -> (forall y, y ∈ L2 -> bp < fst y) -> (length fs + 1 < fuel)%nat ->
  free_loop fuel bp (freep s) s = Ok p s.
Proof.
  intros E Hp H2 Hf. destruct free_block as (Hk & Hb & _). pose proof (in_ring _ _ _ I) as HL. pose proof (in_sorted _ _ _ I) as HS.
  assert (Hpos : forall y, y ∈ fs -> 0 <= snd y) by (intros [a m] Hy; apply fs_block in Hy; cbn; lia).
  assert (Hbb : base < bp) by (unfold HSIZE in *; lia).
  destruct (path_around (hd s) base 0 fs (freep s) HL (in_freep _ _ _ I)) as (R & HR & Hel).
  assert (Hpi : p ∈ base :: fs.*1) by (change (p ∈ ((base, 0) :: fs).*1); rewrite E, fmap_app; set_solver).
  apply (free_loop_path bp p s (R ++ [freep s])).
  - by apply (stops_there _ L1 L2 fs p n bp).
  - done.
  - right. by rewrite <- Hel.
  - intros y Hy Hne. apply (stops_elsewhere _ L1 L2 fs p n bp); try done. apply elem_of_cons in Hy as [->|Hy]; [apply I|by rewrite Hel].
  - rewrite <- Hel. cbn. rewrite length_fmap. lia.
Qed.
End Free.

(** Blocks in use are not at the address of a header on the ring. *)
Lemma live_elsewhere s fs al x : inv s fs al -> x ∈ (base, 0) :: fs -> forall a j, (a, j) ∈ al -> a <> fst x.
Proof.
  intros I Hx a j Ha E. pose proof (in_blocks _ _ _ I) as HB. pose proof (bo_block _ _ _ HB a j ltac:(set_solver)) as (? & ? & ? & _).
  apply elem_of_cons in Hx as [->|Hx]; [cbn in E; unfold HSIZE in *; lia|].
  pose proof (bo_nodup _ _ _ HB) as (_ & Hn & _)%NoDup_app. apply (Hn _ Hx). destruct x as [c m]. cbn in E. subst c.
  pose proof (bo_block _ _ _ HB a m ltac:(set_solver)) as (? & _). destruct (decide (m = j)) as [->|Hne]; [done|].
  destruct (bo_apart _ _ _ HB (a, m) (a, j)) as [?|?]; [set_solver|set_solver|congruence|unfold HSIZE in *; cbn in *; lia..].
Qed.

(** The blocks after [free]. *)
Lemma free_blocks s fs al bp k L1 p n L2 k1 T : inv s fs ((bp, k) :: al) -> p + HSIZE * n <= bp -> base <= p < bp -> 0 <= n -> 1 <= k <= k1 ->
  ((L1 = [] /\ p = base /\ n = 0 /\ fs = L2) \/ exists L1', L1 = (base, 0) :: L1' /\ fs = L1' ++ (p, n) :: L2) ->
  (forall b B, blocks_ok H0 b ((bp, k) :: L2 ++ B) -> blocks_ok H0 b ((bp, k1) :: T ++ B)) -> k + total L2 = k1 + total T ->
  (length T <= length L2)%nat -> H0 <= bp ->
  exists fs', (base, 0) :: fs' = L1 ++ joined p n bp k1 ++ T /\ blocks_ok H0 (brk s) (fs' ++ al) /\ total fs' = total fs + k /\
    (length fs' <= S (length fs))%nat /\ exists c m, (c, m) ∈ fs' /\ k1 <= m.
Proof.
  intros I Hpb Hp Hn Hk Hc HTB Ht Hl Hb. pose proof (in_blocks _ _ _ I) as HB.
  destruct Hc as [(-> & -> & -> & ->)|(L1' & -> & ->)].
  - exists ((bp, k1) :: T). unfold joined. rewrite (proj2 (Z.eqb_neq (base + HSIZE * 0) bp)) by lia. split_and!; [done| | |cbn; lia|].
    + apply (HTB _ al). eapply blocks_ok_perm; [|exact HB]. by rewrite <- Permutation_middle.
    + cbn. fold (total T). lia.
    + exists bp, k1. split; [left|lia].
  - exists (L1' ++ joined p n bp k1 ++ T). split_and!; [done| | | |].
    + assert (HB1 : blocks_ok H0 (brk s) ((bp, k1) :: T ++ (p, n) :: L1' ++ al)).
      { apply HTB. eapply blocks_ok_perm; [|exact HB]. rewrite <- app_assoc. cbn. solve_Permutation. }
      assert (HB2 : blocks_ok H0 (brk s) (joined p n bp k1 ++ T ++ L1' ++ al)).
      { apply joined_blocks. eapply blocks_ok_perm; [|exact HB1]. solve_Permutation. }
      eapply blocks_ok_perm; [|exact HB2]. solve_Permutation.
    + rewrite !total_app, joined_total. cbn. fold (total L2). lia.
    + rewrite !length_app. cbn. unfold joined. destruct (_ =? _); cbn; lia.
    + unfold joined. destruct (_ =? _); [exists p, (n + k1)|exists bp, k1]; (split; [set_solver|lia]).
Qed.

Lemma live_distinct s fs al bp k a j : inv s fs ((bp, k) :: al) -> (a, j) ∈ al -> a <> bp.
Proof.
  intros I Ha ->. pose proof (in_blocks _ _ _ I) as HB. pose proof (bo_nodup _ _ _ HB) as (_ & _ & Hnd)%NoDup_app. apply NoDup_cons in Hnd as [Hnd _].
  destruct (decide (j = k)) as [->|Hne]; [done|]. pose proof (bo_block _ _ _ HB bp j ltac:(set_solver)) as (? & _).
  destruct (free_block _ _ _ _ _ I) as (? & _). destruct (bo_apart _ _ _ HB (bp, j) (bp, k)) as [?|?]; [set_solver|set_solver|congruence|unfold HSIZE in *; cbn in *; lia..].
Qed.

Lemma joined_bounds b fs' al L1 p n bp k1 T : blocks_ok H0 b (fs' ++ al) -> (base, 0) :: fs' = L1 ++ joined p n bp k1 ++ T -> b <= 2 ^ 31 ->
  0 <= n -> 1 <= k1 -> 0 <= k1 < 2 ^ 32 /\ 0 <= size (prev_merged bp p n (Hdr (head_of T base) k1)) < 2 ^ 32.
Proof.
  intros HB E Hb Hn Hk. assert (Hin : forall a j, (a, j) ∈ joined p n bp k1 -> 0 <= j -> j < 2 ^ 31).
  { intros a j Hj H0j. assert (Hi : (a, j) ∈ (base, 0) :: fs') by (rewrite E; set_solver).
    apply elem_of_cons in Hi as [[= -> ->]|Hi]; [done|]. destruct (bo_block _ _ _ HB a j) as (? & ? & ? & _); [set_solver|]. unfold HSIZE in *. lia. }
  unfold joined, prev_merged in *. destruct (Z.eqb_spec (p + HSIZE * n) bp); cbn.
  - specialize (Hin p (n + k1) ltac:(left)). lia.
  - pose proof (Hin p n ltac:(left)). specialize (Hin bp k1 ltac:(right; left)). lia.
Qed.

Lemma free_Ok s fs al bp k fuel : inv s fs ((bp, k) :: al) -> (length fs + 1 < fuel)%nat ->
  exists s' fs', free fuel (bp + HSIZE) s = Ok tt s' /\ inv s' fs' al /\ brk s' = brk s /\ (length fs' <= S (length fs))%nat /\
    exists c m, (c, m) ∈ fs' /\ k <= m.
Proof.
  intros I Hf. destruct (free_block _ _ _ _ _ I) as (Hk & Hb & Hbk & _). destruct (in_brk _ _ _ I) as [Hbrk Hb8].
  destruct (place _ _ _ _ _ I) as (L1 & p & n & L2 & E & Hpb & Hp & Hn & H2 & Hcase).
  pose proof (free_found _ _ _ _ _ I fuel L1 p n L2 E ltac:(lia) ltac:(intros y (_ & _ & Hy)%H2; unfold HSIZE in *; lia) Hf) as RL.
  pose proof (in_ring _ _ _ I) as HL. pose proof (in_sorted _ _ _ I) as HS. rewrite E in HL, HS. pose proof (linked_mid _ _ _ _ _ _ HL) as Hhp.
  pose proof HL as HL'. apply linked_app in HL' as [HL1 [_ HL2]]. cbn [head_of] in HL1.
  pose proof HS as (Hx12 & HS1 & HS2)%StronglySorted_app. apply StronglySorted_cons in HS2 as [Hp2 HS2]. rewrite Forall_forall in Hp2.
  destruct (next_stage s bp k L2 HL2 HS2) as (k1 & T & Eb & Hk1 & HT & HST & HTb & HTB & HTt & HTl);
    [intros y Hy; by apply H2|unfold HSIZE in *; lia|done|].
  destruct (free_blocks s fs al bp k L1 p n L2 k1 T) as (fs' & E' & HB' & Ht' & Hl' & c & m & Hcm & Hm); try done.
  assert (Hpos : forall x, x ∈ L1 -> fst x < p).
  { intros [a j] Hx. assert (Hx' : (a, j) ∈ (base, 0) :: fs) by (rewrite E; set_solver).
    specialize (Hx12 (a, j) (p, n) Hx ltac:(left)). unfold before, HSIZE in Hx12. cbn in *.
    apply elem_of_cons in Hx' as [[= -> ->]|Hx']; [lia|]. apply (fs_block _ _ _ _ _ I) in Hx'. lia. }
  assert (HL1' : forall y, p <= y -> y ∉ L1.*1) by (intros y Hy (x & -> & Hx)%list_elem_of_fmap; apply Hpos in Hx; lia).
  assert (HT' : forall y, y <= bp -> y ∉ T.*1) by (intros y Hy (x & -> & Hx)%list_elem_of_fmap; apply HTb in Hx; unfold HSIZE in *; lia).
  destruct (joined_bounds (brk s) fs' al L1 p n bp k1 T HB' E') as [Hs1 Hs2]; [done|lia|lia|].
  assert (Hnx : head_of L2 base <> bp).
  { destruct L2 as [|[a j] L2']; cbn; [lia|]. destruct (H2 (a, j)) as (_ & _ & ?); [left|]. unfold HSIZE in *. cbn in *. lia. }
  destruct (free_run s fuel bp p (head_of L2 base) n k RL Hhp) as (s' & R' & F' & K' & D'); try (rewrite ?Eb; unfold HSIZE in *; cbn; lia || done).
  { apply (in_size _ _ _ I). left. }
  rewrite Eb in D'. exists s', fs'. split_and!; [done| |done|done|by exists c, m; split; [|lia]].
  constructor.
  - rewrite E'. eapply joined_linked; [exact HL1|exact HT|apply HL1'; lia|by apply HT'|by apply HL1'|apply HT'; lia|lia|exact D'].
  - rewrite F'. change (p ∈ ((base, 0) :: fs').*1). rewrite E', !fmap_app. unfold joined. destruct (_ =? _); set_solver.
  - rewrite E'. apply joined_sorted; [|done|by apply HTb|done|lia]. apply StronglySorted_app. split_and!; [|done|].
    + intros x y Hx [->|Hy]%elem_of_cons; [apply Hx12; set_solver|]. apply Hx12; [done|]. apply HTb in Hy as [? _]. by right.
    + apply StronglySorted_cons. split; [|done]. apply Forall_forall. intros y [Hy _]%HTb. by apply Hp2.
  - by rewrite K'.
  - intros a j Ha. rewrite D'. rewrite (proj2 (Z.eqb_neq a p)).
    2: { apply (live_elsewhere s fs ((bp, k) :: al) (p, n) I) with (j := j); [rewrite E; set_solver|by right]. }
    rewrite (proj2 (Z.eqb_neq a bp)); [apply (in_size _ _ _ I); by right|]. by apply (live_distinct s fs al bp k a j).
  - rewrite total_app, Ht', K'. pose proof (in_sum _ _ _ I) as Hs. rewrite total_app in Hs. cbn in Hs. fold (total al) in Hs. lia.
  - by rewrite K'.
Qed.

(** ** malloc *)

Context (Hgr : forall b n, grants b n = true -> b + n <= 2 ^ 31).

Lemma heap_above s fs al : inv s fs al -> H0 <= brk s.
Proof.
  intros I. pose proof (in_sum _ _ _ I) as Hs. assert (0 <= total (fs ++ al)); [|unfold HSIZE in *; lia].
  pose proof (bo_block _ _ _ (in_blocks _ _ _ I)) as HB. revert HB. generalize (fs ++ al). induction l as [|[a n] l IH]; intros HB; [done|].
  cbn. fold (total l). destruct (HB a n) as [? _]; [left|]. specialize (IH ltac:(intros; apply HB; by right)). lia.
Qed.

Lemma ring_below s fs al x : inv s fs al -> x ∈ base :: fs.*1 -> base <= x < brk s.
Proof.
  intros I Hx. pose proof (heap_above _ _ _ I). apply elem_of_cons in Hx as [->|Hx]; [unfold HSIZE in *; lia|].
  apply list_elem_of_fmap in Hx as ([a n] & -> & Hx). destruct (bo_block _ _ _ (in_blocks _ _ _ I) a n) as (? & ? & ? & _); [set_solver|].
  unfold HSIZE in *. cbn. lia.
Qed.

(** A new block at the end of the heap, in use until it is freed. *)
Lemma extend_inv s fs al nu : inv s fs al -> 1 <= nu -> brk s + HSIZE * nu <= 2 ^ 31 ->
  inv (set_hd (brk s) (Hdr (ptr (hd s (brk s))) nu) (Uheap (hd s) (freep s) (brk s + HSIZE * nu))) fs ((brk s, nu) :: al).
Proof.
  intros I Hnu Hb. pose proof (heap_above _ _ _ I) as Ha. pose proof I as [HL Hf HS HB Hsz Hsum [Hbr Hb8]].
  assert (Hne : forall x, x ∈ base :: fs.*1 -> x <> brk s) by (intros x Hx; pose proof (ring_below _ _ _ _ I Hx); lia).
  assert (Hlt : forall a n, (a, n) ∈ fs ++ al -> a + HSIZE * n <= brk s) by (intros a n Hx; by apply (bo_block _ _ _ HB)).
  constructor; cbn [freep brk set_hd]; try done.
  - eapply linked_ext; [|exact HL]. intros a Hx. cbn. by rewrite (proj2 (Z.eqb_neq a (brk s))) by (by apply Hne).
  - eapply blocks_ok_perm; [by rewrite <- Permutation_middle|]. apply blocks_ok_cons; [|done|done|lia|done|].
    + destruct HB as [HB1 HB2 HB3]. constructor; [|done|done]. intros a n Hx. destruct (HB1 a n Hx) as (? & ? & ? & ?). unfold HSIZE in *. split_and!; lia || done.
    + intros [a n] Hy. right. by apply Hlt.
  - intros a n [[= -> ->]|Hx]%elem_of_cons; cbn; [by rewrite Z.eqb_refl|]. destruct (Z.eqb_spec a (brk s)) as [->|_]; [|by apply Hsz].
    destruct (bo_block _ _ _ HB (brk s) n) as (? & ? & ? & _); [set_solver|]. unfold HSIZE in *. lia.
  - rewrite total_app in *. cbn. fold (total al). lia.
  - split; [done|]. unfold HSIZE in *. rewrite Z.mul_comm, Z.mod_add by lia. done.
Qed.

Lemma morecore_Ok s fs al nu fuel : inv s fs al -> 1 <= nu -> HSIZE * Z.max 4096 nu < 2 ^ 31 -> (length fs + 1 < fuel)%nat ->
  (morecore fuel nu s = Ok 0 s /\ grants (brk s) (Z.max 4096 nu * HSIZE) = false) \/
  exists s' fs', morecore fuel nu s = Ok (freep s') s' /\ inv s' fs' al /\ (length fs' <= S (length fs))%nat /\ brk s <= brk s' /\
    exists c m, (c, m) ∈ fs' /\ nu <= m.
Proof.
  intros I Hnu Hlt Hf. unfold morecore. cbv zeta. set (nu' := Z.max 4096 nu) in *.
  replace (if nu <? 4096 then 4096 else nu) with nu' by (unfold nu'; destruct (Z.ltb_spec nu 4096); lia).
  assert (Hu : u32 (nu' * HSIZE) = nu' * HSIZE) by (apply u32_id; unfold HSIZE in *; lia). rewrite Hu.
  assert (Hs : sbrk (nu' * HSIZE) s = if grants (brk s) (nu' * HSIZE)
     then Ok (brk s) (Uheap (hd s) (freep s) (brk s + nu' * HSIZE)) else Ok (u32 (-1)) s).
  { unfold sbrk. unfold i32. rewrite Z.mod_small by (unfold HSIZE in *; lia).
    rewrite (proj2 (Z.ltb_ge _ 0)) by (unfold HSIZE in *; lia). unfold bind, gets. by destruct (grants _ _). }
  pose proof (heap_above _ _ _ I) as Ha. destruct (in_brk _ _ _ I) as [Hb _]. destruct (grants (brk s) (nu' * HSIZE)) eqn:Eg.
  - right. rewrite (bind_Ok _ _ _ _ _ Hs). rewrite (proj2 (Z.eqb_neq (brk s) (u32 (-1)))) by (change (u32 (-1)) with (2 ^ 32 - 1); lia).
    apply Hgr in Eg. rewrite (Z.mul_comm nu') in *. pose proof (extend_inv s fs al nu' I ltac:(lia) Eg) as I1.
    set (s1 := set_hd _ _ _) in I1. destruct (free_Ok s1 fs al (brk s) nu' fuel I1 Hf) as (s2 & fs' & R2 & I2 & B2 & L2 & c & m & Hc & Hm).
    exists s2, fs'. split_and!; [|done|done|rewrite B2; cbn; unfold HSIZE in *; lia|exists c, m; split; [done|lia]].
    erewrite bind_Ok by done. fold s1. unfold hplus. rewrite u32_id, Z.mul_1_r by (unfold HSIZE in *; lia).
    by rewrite (bind_Ok _ _ _ _ _ R2).
  - left. by rewrite (bind_Ok _ _ _ _ _ Hs).
Qed.

(** Headers of the ring are at distinct addresses. *)
Lemma ring_addrs s fs al : inv s fs al -> NoDup (((base, 0) :: fs).*1).
Proof.
  intros I. pose proof (in_sorted _ _ _ I) as HS.
  assert (Hp : forall x, x ∈ (base, 0) :: fs -> 0 <= snd x).
  { intros [a n] [[= -> ->]|Hx]%elem_of_cons; [done|]. destruct (bo_block _ _ _ (in_blocks _ _ _ I) a n) as (? & _); [set_solver|cbn; lia]. }
  revert HS Hp. generalize ((base, 0) :: fs). induction l as [|x l IH]; intros HS Hp; [constructor|].
  apply StronglySorted_cons in HS as [Hx HS]. rewrite Forall_forall in Hx. cbn. apply NoDup_cons. split; [|apply IH; [done|intros; apply Hp; by right]].
  intros (y & Ey & Hy)%list_elem_of_fmap. specialize (Hx y Hy). specialize (Hp x ltac:(left)). unfold before, HSIZE in Hx. lia.
Qed.

(** The place of a block that was found: after the header whose pointer led to
    it. *)
Lemma found_place s fs al prevp p n : inv s fs al -> prevp ∈ base :: fs.*1 -> ptr (hd s prevp) = p -> 1 <= n <= size (hd s p) ->
  exists N1 j m N3, (base, 0) :: fs = N1 ++ (prevp, j) :: (p, m) :: N3 /\ hd s prevp = Hdr p j /\ hd s p = Hdr (head_of N3 base) m /\
    (p, m) ∈ fs /\ prevp < p.
Proof.
  intros I Hx Hp Hn. change (base :: fs.*1) with (((base, 0) :: fs).*1) in Hx.
  apply list_elem_of_fmap in Hx as ([x j] & -> & Hx). cbn [fst] in *. apply list_elem_of_split in Hx as (N1 & N2 & E).
  pose proof (in_ring _ _ _ I) as HL. pose proof (in_sorted _ _ _ I) as HS. rewrite E in HL, HS. pose proof (linked_mid _ _ _ _ _ _ HL) as Hh.
  rewrite Hh in Hp. cbn in Hp. destruct N2 as [|[y m] N3]; cbn in Hp; subst p.
  { destruct (in_ring _ _ _ I) as [H1 _]. rewrite H1 in Hn. cbn in Hn. lia. }
  exists N1, j, m, N3. rewrite cons_middle, app_assoc in HL. pose proof (linked_mid _ _ _ _ _ _ HL) as Hy.
  assert (Hin : (y, m) ∈ fs).
  { assert (Hi : (y, m) ∈ tl ((base, 0) :: fs)); [rewrite E; destruct N1; cbn; set_solver|done]. }
  split_and!; try done. destruct (sorted_mid _ _ _ HS) as [_ Hb]. specialize (Hb (y, m) ltac:(left)).
  assert (Hj : 0 <= j).
  { assert (Hi : (x, j) ∈ (base, 0) :: fs) by (rewrite E; set_solver). apply elem_of_cons in Hi as [[= _ ->]|Hi]; [done|].
    destruct (bo_block _ _ _ (in_blocks _ _ _ I) x j) as (? & _); [set_solver|lia]. }
  unfold before, HSIZE in Hb. cbn in Hb. lia.
Qed.

(** Without its first element a ring is its free blocks. *)
Lemma ring_cut fs N1 x y N3 : (base, 0) :: fs = N1 ++ x :: y :: N3 ->
  exists N, fs ≡ₚ y :: N /\ forall z, exists fs', (base, 0) :: fs' = N1 ++ x :: z ++ N3 /\ fs' ≡ₚ z ++ N.
Proof.
  destruct N1 as [|w N1]; cbn; intros [= -> ->].
  - exists N3. split; [done|]. intros z. by exists (z ++ N3).
  - exists (N1 ++ x :: N3). split; [solve_Permutation|]. intros z. exists (N1 ++ x :: z ++ N3). split; [done|]. solve_Permutation.
Qed.

(** The whole block is taken. *)
Lemma take_whole s fs al prevp p n : inv s fs al -> prevp ∈ base :: fs.*1 -> ptr (hd s prevp) = p -> size (hd s p) = n -> 1 <= n ->
  exists fs', inv (Uheap (hd (set_hd prevp (Hdr (ptr (hd s p)) (size (hd s prevp))) s)) prevp (brk s)) fs' ((p, n) :: al).
Proof.
  intros I Hx Hp Hs Hn. destruct (found_place s fs al prevp p n I Hx Hp ltac:(lia)) as (N1 & j & m & N3 & E & Hq & Hy & Hin & Hlt).
  rewrite Hy, Hq. cbn [ptr size]. rewrite Hy in Hs. cbn in Hs. subst n. destruct (ring_cut _ _ _ _ _ E) as (N & Pn & HN). destruct (HN []) as (fs' & E' & P').
  exists fs'. pose proof (in_ring _ _ _ I) as HL. pose proof (in_sorted _ _ _ I) as HS. rewrite E in HL, HS.
  assert (Hal : fs ++ al ≡ₚ fs' ++ (p, m) :: al) by (rewrite Pn, P'; solve_Permutation).
  assert (Hnd : NoDup (((base, 0) :: fs).*1)).
  { apply (ring_addrs s fs al I). }
  rewrite E, fmap_app in Hnd. cbn in Hnd. apply NoDup_app in Hnd as (_ & Hd1 & Hd2). apply NoDup_cons in Hd2 as [Hd2 _].
  constructor; cbn [hd freep brk set_hd].
  - rewrite E'. cbn. apply linked_app in HL as (HL1 & HL2 & HL3 & HL4). apply linked_app. cbn. split_and!.
    + eapply linked_ext; [|exact HL1]. intros a Ha. cbn. rewrite (proj2 (Z.eqb_neq a prevp)); [done|]. intros ->. apply (Hd1 prevp Ha). left.
    + by rewrite Z.eqb_refl.
    + eapply linked_ext; [|exact HL4]. intros a Ha. cbn. rewrite (proj2 (Z.eqb_neq a prevp)); [done|]. intros ->. apply Hd2. by right.
  - change (prevp ∈ ((base, 0) :: fs').*1). rewrite E', fmap_app. set_solver.
  - rewrite E'. cbn. rewrite cons_middle, app_assoc in HS |- *. apply StronglySorted_app in HS as (S1 & S2 & S3). apply StronglySorted_cons in S3 as [_ S3].
    apply StronglySorted_app. split_and!; [|done|done]. intros a b Ha Hb. apply S1; [done|by right].
  - eapply blocks_ok_perm; [exact Hal|apply I].
  - intros a k [[= -> ->]|Ha]%elem_of_cons; cbn; [by rewrite (proj2 (Z.eqb_neq p prevp)), Hy by lia|].
    rewrite (proj2 (Z.eqb_neq a prevp)); [by apply (in_size _ _ _ I)|]. apply (live_elsewhere s fs al (prevp, j) I) with (j := k); [rewrite E; set_solver|done].
  - rewrite <- (total_perm _ _ Hal). apply I.
  - apply I.
Qed.

(** The tail of a free block is not a header of the ring. *)
Lemma tail_outside s fs al p m n : inv s fs al -> (p, m) ∈ fs -> 1 <= n < m ->
  forall a k, (a, k) ∈ (base, 0) :: fs -> a <> p + HSIZE * (m - n).
Proof.
  intros I Hin Hn a k Ha Et. pose proof (in_blocks _ _ _ I) as HB. destruct (bo_block _ _ _ HB p m) as (_ & Hm & _); [set_solver|].
  apply elem_of_cons in Ha as [[= -> ->]|Ha]; [unfold HSIZE in *; lia|].
  destruct (decide ((a, k) = (p, m))) as [[= -> ->]|Hne]; [unfold HSIZE in *; lia|].
  pose proof (bo_apart _ _ _ HB (a, k) (p, m) ltac:(set_solver) ltac:(set_solver) Hne) as Hap.
  destruct (bo_block _ _ _ HB a k) as (? & _); [set_solver|]. unfold apart, HSIZE in *. cbn in Hap. lia.
Qed.

Lemma tail_linked s fs al N1 x p m N3 n y (t := p + HSIZE * (m - n)) : inv s fs al -> (base, 0) :: fs = N1 ++ x :: (p, m) :: N3 ->
  (p, m) ∈ fs -> 1 <= n < m ->
  linked (hd (set_hd t (Hdr y n) (set_hd p (Hdr (head_of N3 base) (m - n)) s))) (N1 ++ x :: (p, m - n) :: N3) base.
Proof.
  intros I E Hin Hn. set (s' := set_hd t _ _). pose proof (in_ring _ _ _ I) as HL. rewrite E in HL. pose proof (ring_addrs s fs al I) as Hnd.
  rewrite E, cons_middle, app_assoc, fmap_app in Hnd. apply NoDup_app in Hnd as (_ & Hd1 & Hd2). cbn in Hd2. apply NoDup_cons in Hd2 as [Hd2 _].
  assert (Hlink : forall L last, L.*1 ⊆ ((base, 0) :: fs).*1 -> p ∉ L.*1 -> linked (hd s) L last -> linked (hd s') L last).
  { intros L last Hsub HpL. apply linked_ext. intros a Ha. apply Hsub in Ha as Hi. apply list_elem_of_fmap in Hi as ([a' k] & -> & Hi). cbn [fst] in *.
    unfold s'. rewrite !hd_set_ne; [done|by intros ->|]. by eapply tail_outside. }
  rewrite cons_middle, app_assoc in HL |- *. apply linked_app in HL as (HL1 & _ & HL3). apply linked_app. cbn [head_of] in *. split; [|split].
  - apply Hlink; [|intros Ha; apply (Hd1 p Ha); left|done]. intros a Ha. rewrite E, (cons_middle x N1 ((p, m) :: N3)), app_assoc, fmap_app. apply elem_of_app. by left.
  - unfold s'. rewrite hd_set_ne, hd_set_eq; [done|]. unfold t, HSIZE. lia.
  - apply Hlink; [|done|done]. intros a Ha. rewrite E, fmap_app. apply elem_of_app. right. by do 2 right.
Qed.

Lemma shrink_sorted N1 p m m' N3 : StronglySorted before (N1 ++ (p, m) :: N3) -> m' <= m -> StronglySorted before (N1 ++ (p, m') :: N3).
Proof.
  intros (S1 & S2 & S3)%StronglySorted_app Hm. apply StronglySorted_cons in S3 as [S3 S4]. apply StronglySorted_app. split_and!; [|done|].
  - intros a b Ha [->|Hb]%elem_of_cons; [apply (S1 a (p, m)); [done|left]|apply S1; [done|by right]].
  - apply StronglySorted_cons. split; [|done]. rewrite Forall_forall in S3 |- *. intros b Hb. specialize (S3 b Hb). unfold before, HSIZE in *. cbn in *. lia.
Qed.

(** The tail of the block is taken. *)
Lemma take_tail s fs al prevp p m n (t := p + HSIZE * (m - n)) : inv s fs al -> prevp ∈ base :: fs.*1 -> ptr (hd s prevp) = p -> size (hd s p) = m -> 1 <= n < m ->
  forall x, exists fs', inv (Uheap (hd (set_hd t (Hdr x n) (set_hd p (Hdr (ptr (hd s p)) (m - n)) s))) prevp (brk s)) fs' ((t, n) :: al).
Proof.
  intros I Hx Hp Hs Hn x0. destruct (found_place s fs al prevp p n I Hx Hp ltac:(lia)) as (N1 & j & m' & N3 & E & Hq & Hy & Hin & Hlt).
  rewrite Hy. cbn [ptr]. rewrite Hy in Hs. cbn in Hs. subst m'. destruct (ring_cut _ _ _ _ _ E) as (N & Pn & HN).
  destruct (HN [(p, m - n)]) as (fs' & E' & P'). cbn in E', P'. exists fs'. pose proof (in_blocks _ _ _ I) as HB.
  assert (HB' : blocks_ok H0 (brk s) ((t, n) :: (p, m - n) :: N ++ al)).
  { apply blocks_ok_split; [|lia|lia]. replace (m - n + n) with m by lia. eapply blocks_ok_perm; [|exact HB]. by rewrite Pn. }
  assert (Hal : (t, n) :: (p, m - n) :: N ++ al ≡ₚ fs' ++ (t, n) :: al) by (rewrite P'; solve_Permutation).
  constructor; cbn [hd freep brk].
  - rewrite E'. by apply (tail_linked s fs al).
  - change (prevp ∈ ((base, 0) :: fs').*1). rewrite E', fmap_app. set_solver.
  - rewrite E', cons_middle, app_assoc. apply shrink_sorted with m; [|lia]. rewrite <- app_assoc. cbn. rewrite <- E. apply I.
  - by eapply blocks_ok_perm.
  - intros a k [[= -> ->]|Ha]%elem_of_cons; [by rewrite hd_set_eq|].
    assert (Hap : a <> p) by (apply (live_elsewhere s fs al (p, m) I) with (j := k); [by right|done]).
    rewrite !hd_set_ne; [by apply (in_size _ _ _ I)|done|]. intros ->. destruct (blocks_ok_tail _ _ _ _ HB') as [HB2 Hap2].
    destruct (bo_block _ _ _ HB2 t k) as (? & _); [set_solver|]. specialize (Hap2 (t, k) ltac:(set_solver)). unfold apart, HSIZE in *. cbn in *. lia.
  - rewrite <- (total_perm _ _ Hal). pose proof (in_sum _ _ _ I) as Hsum. rewrite total_app, (total_perm _ _ Pn) in Hsum. cbn in *. fold (total (N ++ al)).
    fold (total N) in Hsum. rewrite total_app. lia.
  - apply I.
Qed.

(** What [malloc] returns: a block of [n] units that was not in use. *)
Definition granted (s0 : uheap) (al : list (Z * Z)) (n : Z) (o : outcome uheap Z) : Prop :=
  exists a s fs, o = Ok (a + HSIZE) s /\ inv s fs ((a, n) :: al) /\ brk s0 <= brk s.

(** A turn of the loop that finds a block. *)
Lemma malloc_found s fs al prevp p n fuel : inv s fs al -> prevp ∈ base :: fs.*1 -> ptr (hd s prevp) = p -> 1 <= n <= size (hd s p) ->
  granted s al n (malloc_loop (S fuel) n prevp p s).
Proof.
  intros I Hx Hp Hn. destruct (found_place s fs al prevp p n I Hx Hp Hn) as (N1 & j & m & N3 & E & Hq & Hy & Hin & Hlt).
  destruct (bo_block _ _ _ (in_blocks _ _ _ I) p m) as (Hm1 & Hm2 & Hm3 & _); [set_solver|]. destruct (in_brk _ _ _ I) as [Hb _].
  assert (Hsz : size (hd s p) = m) by (by rewrite Hy). cbn [malloc_loop]. unfold bind at 1, get_hd at 1, gets. rewrite (proj2 (Z.leb_le n _)) by lia. rewrite Hsz.
  destruct (Z.eqb_spec m n) as [<-|Em].
  - destruct (take_whole s fs al prevp p m I Hx Hp Hsz ltac:(lia)) as (fs' & I').
    exists p, (Uheap (hd (set_hd prevp (Hdr (ptr (hd s p)) (size (hd s prevp))) s)) prevp (brk s)), fs'.
    split_and!; [|done|done]. cbn. unfold bind, ret, modify, hplus. cbn. rewrite u32_id by (unfold HSIZE in *; lia). by rewrite Z.mul_1_r.
  - assert (Hu : u32 (m - n) = m - n) by (apply u32_id; unfold HSIZE in *; lia).
    set (t := p + HSIZE * (m - n)). set (s1 := set_hd p (Hdr (ptr (hd s p)) (m - n)) s).
    destruct (take_tail s fs al prevp p m n I Hx Hp Hsz ltac:(lia) (ptr (hd s1 t))) as (fs' & I').
    exists t, (Uheap (hd (set_hd t (Hdr (ptr (hd s1 t)) n) s1)) prevp (brk s)), fs'. split_and!; [|done|done].
    assert (Hrun : (set_size p (u32 (m - n)) ;;; let! hp := get_hd p in let p := hplus p (size hp) in set_size p n ;;; ret p) s =
      Ok t (set_hd t (Hdr (ptr (hd s1 t)) n) s1)).
    { rewrite Hu. rewrite (bind_Ok (set_size p (m - n)) _ s tt s1 eq_refl). unfold bind at 1, get_hd at 1, gets.
      replace (size (hd s1 p)) with (m - n) by (unfold s1; by rewrite hd_set_eq). unfold hplus. rewrite u32_id by (unfold HSIZE in *; lia). done. }
    rewrite (bind_Ok _ _ _ _ _ Hrun). unfold bind, set_freep, modify, ret, hplus. cbn [hd brk].
    rewrite u32_id by (unfold t, HSIZE in *; lia). by rewrite Z.mul_1_r.
Qed.

(** The loop follows the ring to a block that is large enough or, if there is
    none, to [freep]. *)
Lemma malloc_walk s n R : freep s ∉ R -> forall prevp fuel, path (hd s) prevp (R ++ [freep s]) -> (length R < fuel)%nat ->
  exists q r fuel', malloc_loop fuel n prevp (ptr (hd s prevp)) s = malloc_loop fuel' n q r s /\ ptr (hd s q) = r /\ q ∈ prevp :: R /\
    (fuel <= fuel' + length R)%nat /\ (0 < fuel')%nat /\ (n <= size (hd s r) \/ (r = freep s /\ forall y, y ∈ R ++ [freep s] -> size (hd s y) < n)).
Proof.
  intros HfR. induction R as [|y R IH]; intros prevp fuel HR Hf; destruct HR as [Ey HR]; rewrite Ey.
  - exists prevp, (freep s), fuel. split_and!; try done; try lia; [left|].
    destruct (Z.le_gt_cases n (size (hd s (freep s)))); [by left|right]. split; [done|]. by intros z ->%list_elem_of_singleton.
  - destruct (decide (n <= size (hd s y))) as [Hn|Hn].
    { exists prevp, y, fuel. split_and!; try done; try lia. left. }
    destruct fuel as [|fuel]; [lia|]. cbn in Hf.
    destruct (IH ltac:(set_solver) y fuel HR ltac:(lia)) as (q & r & f' & E & Hq & Hqi & Hfl & Hfp & Hres).
    exists q, r, f'. split_and!; [|done|set_solver|cbn; lia|done|].
    + rewrite <- E. cbn [malloc_loop]. unfold bind at 1, get_hd at 1, gets. rewrite (proj2 (Z.leb_gt n _)) by lia.
      unfold bind at 1, gets. rewrite (proj2 (Z.eqb_neq y (freep s))); [done|set_solver].
    + destruct Hres as [?|[-> Hall]]; [by left|right]. split; [done|]. intros z [->|Hz]%elem_of_cons; [lia|by apply Hall].
Qed.

(** The walk from [freep], once around. *)
Lemma malloc_around s fs al n fuel : inv s fs al -> (length fs < fuel)%nat ->
  exists q r fuel', malloc_loop fuel n (freep s) (ptr (hd s (freep s))) s = malloc_loop fuel' n q r s /\ ptr (hd s q) = r /\ q ∈ base :: fs.*1 /\
    (fuel <= fuel' + length fs)%nat /\ (0 < fuel')%nat /\ (n <= size (hd s r) \/ (r = freep s /\ forall c m, (c, m) ∈ fs -> m < n)).
Proof.
  intros I Hf. destruct (path_around (hd s) base 0 fs (freep s) (in_ring _ _ _ I) (in_freep _ _ _ I)) as (R & HR & Hel).
  pose proof (ring_addrs s fs al I) as Hnd. cbn in Hnd. rewrite Hel in Hnd. apply NoDup_app in Hnd as (_ & Hnd & _).
  assert (Hlen : length R = length fs).
  { apply Permutation_length in Hel. cbn in Hel. rewrite length_app, length_fmap in Hel. cbn in Hel. lia. }
  destruct (malloc_walk s n R) with (prevp := freep s) (fuel := fuel) as (q & r & f' & E & Hq & Hqi & Hfl & Hfp & Hres); [|done|lia|].
  { intros Hi. apply (Hnd _ Hi). left. }
  exists q, r, f'. split_and!; try done; [rewrite Hel; set_solver|lia|]. destruct Hres as [?|[-> Hall]]; [by left|right]. split; [done|].
  intros c m Hc. apply list_elem_of_split in Hc as (A & B & ->). pose proof (in_ring _ _ _ I) as HL. rewrite app_comm_cons in HL.
  apply linked_mid in HL. replace m with (size (hd s c)) by (by rewrite HL). apply Hall. rewrite <- Hel, fmap_app. set_solver.
Qed.

Lemma malloc_more s n q fuel : size (hd s (freep s)) < n ->
  malloc_loop (S fuel) n q (freep s) s =
  (let! p := morecore fuel n in if p =? 0 then ret 0 else let! hp := get_hd p in malloc_loop fuel n p (ptr hp)) s.
Proof.
  intros Hn. cbn [malloc_loop]. unfold bind at 1, get_hd at 1, gets. rewrite (proj2 (Z.leb_gt n _)) by lia.
  unfold bind at 1. by rewrite Z.eqb_refl.
Qed.

Lemma malloc_loop_Ok s fs al n fuel : inv s fs al -> 1 <= n -> HSIZE * Z.max 4096 n < 2 ^ 31 -> (2 * length fs + 5 < fuel)%nat ->
  (malloc_loop fuel n (freep s) (ptr (hd s (freep s))) s = Ok 0 s /\ (forall c m, (c, m) ∈ fs -> m < n) /\
     grants (brk s) (Z.max 4096 n * HSIZE) = false) \/
  granted s al n (malloc_loop fuel n (freep s) (ptr (hd s (freep s))) s).
Proof.
  intros I Hn Hlt Hf. destruct (malloc_around s fs al n fuel I ltac:(lia)) as (q & r & f1 & -> & Hq & Hqi & Hf1 & Hp1 & Hres).
  destruct f1 as [|f1]; [lia|]. destruct (Z.le_gt_cases n (size (hd s r))) as [Hfit|Hfit]; [right; eapply malloc_found; done || lia|].
  destruct Hres as [?|[-> Hsmall]]; [lia|]. rewrite malloc_more by done.
  destruct (morecore_Ok s fs al n f1 I Hn Hlt ltac:(lia)) as [[R Hg]|(s' & fs' & R & I' & Hl' & Hb' & c & m & Hc & Hm)]; rewrite (bind_Ok _ _ _ _ _ R).
  - left. done.
  - right. pose proof (ring_below _ _ _ _ I' (in_freep _ _ _ I')) as Hfp. rewrite (proj2 (Z.eqb_neq (freep s') 0)) by lia.
    unfold bind, get_hd, gets. destruct (malloc_around s' fs' al n f1 I' ltac:(lia)) as (q' & r' & f2 & -> & Hq' & Hqi' & _ & Hp2 & Hres').
    destruct f2 as [|f2]; [lia|]. destruct Hres' as [Hfit'|[_ Hall]]; [|specialize (Hall c m Hc); lia].
    destruct (malloc_found s' fs' al q' r' n f2 I' Hqi' Hq' ltac:(lia)) as (a & s2 & fs2 & E & I2 & Hb2).
    exists a, s2, fs2. split_and!; [exact E|exact I2|lia].
Qed.

(** The state before the first call, or the invariant. *)
Definition heap_ok (s : uheap) (fs al : list (Z * Z)) : Prop :=
  (freep s = 0 /\ brk s = H0 /\ fs = [] /\ al = []) \/ inv s fs al.
Definition ready (s : uheap) (al : list (Z * Z)) : Prop := exists fs, heap_ok s fs al.

Context (HH8 : H0 mod HSIZE = 0) (HHmax : H0 <= 2 ^ 31).

Lemma units_fit nbytes : 0 <= nbytes <= 2 ^ 31 - 16 -> nbytes <= HSIZE * (units nbytes - 1) /\ 1 <= units nbytes /\ HSIZE * Z.max 4096 (units nbytes) < 2 ^ 31.
Proof. intros H. unfold units. rewrite u32_id by (unfold HSIZE; lia). unfold HSIZE in *. Z.div_mod_to_equations. lia. Qed.

Lemma malloc_Ok s fs al nbytes : heap_ok s fs al -> 0 <= nbytes <= 2 ^ 31 - 16 -> exists N, forall fuel, (N <= fuel)%nat ->
  (exists s', malloc fuel nbytes s = Ok 0 s' /\ heap_ok s' fs al /\ (forall c m, (c, m) ∈ fs -> m < units nbytes) /\
     grants (brk s) (Z.max 4096 (units nbytes) * HSIZE) = false) \/
  granted s al (units nbytes) (malloc fuel nbytes s).
Proof.
  intros Hr Hb. destruct (units_fit nbytes Hb) as (_ & Hu & Hm).
  assert (Hi : exists s1, inv s1 fs al /\ brk s1 = brk s /\ forall fuel, malloc fuel nbytes s = malloc_loop fuel (units nbytes) (freep s1) (ptr (hd s1 (freep s1))) s1).
  { destruct Hr as [(Hf & Hbr & -> & ->)|I].
    - set (sA := set_hd base (Hdr base (size (hd s base))) (Uheap (hd s) base (brk s))).
      exists (set_hd base (Hdr (ptr (hd sA base)) 0) sA). split_and!; [|done|].
      + constructor; try done; [|left|repeat constructor| |set_solver|cbn; lia|by cbn; rewrite Hbr].
        * split; [|done]. rewrite hd_set_eq. unfold sA. by rewrite hd_set_eq.
        * constructor; [set_solver|constructor|set_solver].
      + intros fuel. unfold malloc. cbv zeta. unfold bind at 1, gets. by rewrite Hf.
    - exists s. split_and!; [done|done|]. intros fuel. unfold malloc. cbv zeta. unfold bind at 1, gets.
      pose proof (ring_below _ _ _ _ I (in_freep _ _ _ I)). by rewrite (proj2 (Z.eqb_neq (freep s) 0)) by lia. }
  destruct Hi as (s1 & I & Eb & E). exists (2 * length fs + 6)%nat. intros fuel Hf. rewrite E. rewrite <- Eb.
  destruct (malloc_loop_Ok s1 fs al (units nbytes) fuel I Hu Hm ltac:(lia)) as [(R & Hsm & Hg)|(a & s2 & fs2 & R & I2 & Hb2)].
  - left. exists s1. split_and!; [done|by right|done|done].
  - right. exists a, s2, fs2. split_and!; [done|done|lia].
Qed.

(** ** More fuel gives the same result *)

Lemma bind_mono {A B} (c c' : M uheap A) (k k' : A -> M uheap B) s b s' :
  (forall a s1, c s = Ok a s1 -> c' s = Ok a s1) -> (forall a s1, k a s1 = Ok b s' -> k' a s1 = Ok b s') ->
  (let! x := c in k x) s = Ok b s' -> (let! x := c' in k' x) s = Ok b s'.
Proof. intros Hc Hk H. apply bind_inv in H as (a & s1 & H1 & H2). rewrite (bind_Ok _ _ _ _ _ (Hc _ _ H1)). by apply Hk. Qed.

Lemma free_loop_mono f : forall f' bp p s r s', (f <= f')%nat -> free_loop f bp p s = Ok r s' -> free_loop f' bp p s = Ok r s'.
Proof.
  induction f as [|f IH]; intros [|f'] bp p s r s' Hl H; try done; [lia|]. revert H. cbn [free_loop]. apply bind_mono; [done|].
  intros h s1. destruct (stops _ _ _); [done|]. apply IH. lia.
Qed.

Lemma free_mono f f' ap s r s' : (f <= f')%nat -> free f ap s = Ok r s' -> free f' ap s = Ok r s'.
Proof. intros Hl. unfold free. cbv zeta. apply bind_mono; [done|]. intros p s1. apply bind_mono; [|done]. intros a s2. by apply free_loop_mono. Qed.

Lemma morecore_mono f f' nu s r s' : (f <= f')%nat -> morecore f nu s = Ok r s' -> morecore f' nu s = Ok r s'.
Proof.
  intros Hl. unfold morecore. cbv zeta. apply bind_mono; [done|]. intros p s1. destruct (_ =? _); [done|]. apply bind_mono; [done|].
  intros _ s2. apply bind_mono; [|done]. intros a s3. by apply free_mono.
Qed.

Lemma malloc_loop_mono f : forall f' n q p s r s', (f <= f')%nat -> malloc_loop f n q p s = Ok r s' -> malloc_loop f' n q p s = Ok r s'.
Proof.
  induction f as [|f IH]; intros [|f'] n q p s r s' Hl H; try done; [lia|]. assert (Hl' : (f <= f')%nat) by lia. revert H. cbn [malloc_loop].
  apply bind_mono; [done|]. intros h s1. destruct (_ <=? _); [done|]. apply bind_mono; [done|]. intros x s2. destruct (_ =? _); [|by apply IH].
  apply bind_mono; [intros a s3; by apply morecore_mono|]. intros y s3. destruct (_ =? _); [done|]. apply bind_mono; [done|]. intros z s4. by apply IH.
Qed.

Lemma malloc_mono f f' nbytes s r s' : (f <= f')%nat -> malloc f nbytes s = Ok r s' -> malloc f' nbytes s = Ok r s'.
Proof.
  intros Hl. unfold malloc. cbv zeta. apply bind_mono; [done|]. intros q s1. apply bind_mono; [done|]. intros q' s2. apply bind_mono; [done|].
  intros h s3. by apply malloc_loop_mono.
Qed.

(** ** The allocator at work *)

(** The blocks a program holds, and what it can do: allocate, free a block it
    holds, and write in the bytes of its blocks. *)
Inductive ustep : uheap * list (Z * Z) -> uheap * list (Z * Z) -> Prop :=
| us_malloc s al fuel nbytes r s' : 0 <= nbytes <= 2 ^ 31 - 16 -> malloc fuel nbytes s = Ok r s' ->
    ustep (s, al) (s', if r =? 0 then al else (r - HSIZE, units nbytes) :: al)
| us_free s al1 a n al2 fuel s' : free fuel (a + HSIZE) s = Ok tt s' -> ustep (s, al1 ++ (a, n) :: al2) (s', al1 ++ al2)
| us_write s al a n h : (a, n) ∈ al ->
    (forall y, y < H0 \/ (y mod HSIZE = 0 /\ ~ (a + HSIZE <= y < a + HSIZE * n)) -> h y = hd s y) ->
    ustep (s, al) (Uheap h (freep s) (brk s), al).

Lemma write_ready s al a n h : ready s al -> (a, n) ∈ al ->
  (forall y, y < H0 \/ (y mod HSIZE = 0 /\ ~ (a + HSIZE <= y < a + HSIZE * n)) -> h y = hd s y) -> ready (Uheap h (freep s) (brk s)) al.
Proof.
  intros (fs & [(_ & _ & _ & ->)|I]) Ha Hh; [set_solver|]. exists fs. right. pose proof I as [HL Hf HS HB Hsz Hsum Hb].
  assert (Hout : forall x, x ∈ fs ++ al -> h (fst x) = hd s (fst x)).
  { intros [c m] Hc. apply Hh. right. cbn. destruct (bo_block _ _ _ HB c m Hc) as (? & ? & ? & ?). split; [done|]. intros Hin.
    destruct (decide ((c, m) = (a, n))) as [[= -> ->]|Hne]; [unfold HSIZE in *; lia|].
    destruct (bo_block _ _ _ HB a n) as (? & _); [set_solver|].
    destruct (bo_apart _ _ _ HB (c, m) (a, n) Hc) as [Hap|Hap]; [set_solver|done|unfold HSIZE in *; cbn in *; lia..]. }
  constructor; cbn; try done.
  - eapply (linked_ext (hd s) h ((base, 0) :: fs)); [|exact HL]. intros x (y & -> & Hy)%list_elem_of_fmap. apply elem_of_cons in Hy as [->|Hy].
    + apply Hh. left. unfold HSIZE in *. cbn. lia.
    + apply Hout. set_solver.
  - intros c m Hc. specialize (Hout (c, m) ltac:(set_solver)). cbn in Hout. rewrite Hout. by apply Hsz.
Qed.

Lemma ustep_ready s al s' al' : ustep (s, al) (s', al') -> ready s al -> ready s' al'.
Proof.
  inversion 1 as [? ? fuel nb r ? Hnb R|? al1 a n al2 fuel ? R|? ? a n h Ha Hh]; subst; intros Hr.
  - destruct Hr as (fs0 & Hr). destruct (malloc_Ok s fs0 al nb Hr Hnb) as (N & HN). specialize (HN (fuel + N)%nat ltac:(lia)).
    apply (malloc_mono fuel (fuel + N)) in R; [|lia]. destruct HN as [(s1 & E & Hr1 & _)|(a & s1 & fs & E & I & _)]; rewrite E in R; injection R as <- <-.
    + by exists fs0.
    + destruct (bo_block _ _ _ (in_blocks _ _ _ I) a (units nb)) as (_ & ? & _); [set_solver|].
      rewrite (proj2 (Z.eqb_neq (a + HSIZE) 0)) by (unfold HSIZE in *; lia). replace (a + HSIZE - HSIZE) with a by lia. exists fs. by right.
  - destruct Hr as (fs & [(_ & _ & _ & E)|I]); [by destruct al1|]. apply (inv_perm _ _ _ ((a, n) :: al1 ++ al2)) in I; [|solve_Permutation].
    destruct (free_Ok s fs (al1 ++ al2) a n (fuel + length fs + 2)%nat I ltac:(lia)) as (s1 & fs1 & E & I1 & _).
    apply (free_mono fuel (fuel + length fs + 2)) in R; [|lia]. rewrite E in R. injection R as <-. exists fs1. by right.
  - by eapply write_ready.
Qed.

(** C9: the allocator is safe and ends.  Whatever a program allocates, frees and
    writes in its blocks, the free blocks are those on the ring that starts at
    [base], in order of address, with [freep] among them; they and the blocks
    the program holds do not overlap and fill the heap exactly, and no two free
    blocks touch.  In every such state [malloc] of at most 2^31 - 16 bytes
    returns: 0, when no block on the ring is large enough and the kernel refused
    to extend the process, or an aligned block of at least that many bytes apart
    from all blocks in use.  [free] of a block in use returns.  Both leave the
    heap in such a state, with the block held or no longer held. *)
Theorem umalloc_safe start s al : freep start = 0 -> brk start = H0 -> rtc ustep (start, []) (s, al) ->
  exists fs, ((freep s = 0 /\ brk s = H0 /\ fs = [] /\ al = []) \/ inv s fs al) /\
  (forall nbytes, 0 <= nbytes <= 2 ^ 31 - 16 -> exists fuel r s', malloc fuel nbytes s = Ok r s' /\
     ((r = 0 /\ (forall c m, (c, m) ∈ fs -> m < units nbytes) /\
       grants (brk s) (Z.max 4096 (units nbytes) * HSIZE) = false /\ heap_ok s' fs al) \/
      (nbytes <= HSIZE * (units nbytes - 1) /\ r mod HSIZE = 0 /\
       (forall x, x ∈ al -> apart (r - HSIZE, units nbytes) x) /\
       exists fs', inv s' fs' ((r - HSIZE, units nbytes) :: al)))) /\
  (forall a n, (a, n) ∈ al -> exists fuel s' fs' al', free fuel (a + HSIZE) s = Ok tt s' /\
     al ≡ₚ (a, n) :: al' /\ inv s' fs' al').
Proof.
  intros Hf Hb Hrun. assert (Hr : ready s al).
  { assert (H : forall x y, rtc ustep x y -> ready (fst x) (snd x) -> ready (fst y) (snd y)).
    { induction 1 as [|[s1 a1] [s2 a2] z Hs _ IH]; [done|]. intros Hr. apply IH. by eapply ustep_ready. }
    apply (H _ _ Hrun). exists []. by left. }
  destruct Hr as (fs & Hr). exists fs. split; [exact Hr|]. split.
  - intros nbytes Hn. destruct (malloc_Ok s fs al nbytes Hr Hn) as (N & HN). exists N.
    destruct (HN N ltac:(lia)) as [(s' & R & Hok & Hsm & Hg)|(a & s' & fs' & R & I & _)].
    + exists 0, s'. split; [done|by left].
    + exists (a + HSIZE), s'. split; [done|right]. pose proof (in_blocks _ _ _ I) as HB.
      destruct (bo_block _ _ _ HB a (units nbytes)) as (_ & _ & _ & Ha); [set_solver|]. replace (a + HSIZE - HSIZE) with a by lia.
      split_and!; [by apply units_fit|unfold HSIZE in *; Z.div_mod_to_equations; lia| |by exists fs'].
      intros x Hx. eapply blocks_ok_perm in HB; [|apply (Permutation_app_comm fs')]. cbn in HB. apply blocks_ok_tail in HB as [_ HB]. apply HB. set_solver.
  - intros a n Ha. apply list_elem_of_split in Ha as (al1 & al2 & ->). destruct Hr as [(_ & _ & _ & E)|I]; [by destruct al1|].
    apply (inv_perm _ _ _ ((a, n) :: al1 ++ al2)) in I; [|solve_Permutation].
    destruct (free_Ok s fs (al1 ++ al2) a n (length fs + 2)%nat I ltac:(lia)) as (s1 & fs1 & E & I1 & _).
    exists (length fs + 2)%nat, s1, fs1, (al1 ++ al2). split_and!; [done|solve_Permutation|done].
Qed.
End Umalloc.

(** A program that allocates two blocks and frees the first; the kernel grants up
    to 1 MB. *)
Definition demo_grants (b n : Z) : bool := b + n <=? 2 ^ 20.
Definition demo_heap : uheap := Uheap (fun _ => Hdr 0 0) 0 8192.

Lemma umalloc_safe_witness : exists s al, rtc (ustep 4096 demo_grants 8192) (demo_heap, []) (s, al) /\ al = [(40904, 4)] /\
  forall a n, (a, n) ∈ al -> exists fuel s', free fuel (a + HSIZE) s = Ok tt s'.
Proof.
  eassert (H : rtc (ustep 4096 demo_grants 8192) (demo_heap, []) (_, _)).
  { eapply rtc_l; [apply (us_malloc 4096 demo_grants 8192) with (fuel := 10%nat) (nbytes := 10); [lia|vm_compute; reflexivity]|].
    cbn [Z.eqb]. eapply rtc_l; [apply (us_malloc 4096 demo_grants 8192) with (fuel := 10%nat) (nbytes := 20); [lia|vm_compute; reflexivity]|].
    cbn [Z.eqb]. eapply rtc_once. change (?x :: ?y :: []) with ([x] ++ y :: []).
    eapply us_free with (fuel := 10%nat). vm_compute. reflexivity. }
  eexists _, _. split; [exact H|]. split; [by vm_compute|].
  apply (umalloc_safe 4096 demo_grants 8192) with (start := demo_heap) in H; try done;
    [destruct H as (fs & _ & _ & H); intros a n Ha; destruct (H a n Ha) as (fuel & s' & _ & _ & R & _); by exists fuel, s'|].
  intros b n. unfold demo_grants. lia.
Defined.
