(* ===== verification/Trap.v ===== *)
(** * Trap: interrupts and exceptions (trap.c)

    The interrupt descriptor table and the handler that every trap reaches.  The
    handlers of the devices, which are modelled with their drivers on states
    of their own, are arguments.  [trap] stops being one piece where the process
    gives up the processor: it then ends with [Yielded], and goes on with
    [trap_resume] when the process is run again. *)

From S2P Require Import Prelude Layout Block FsBlock FsInode FsDir Kalloc Vm Pipe File Proc CString SysFile Syscall.
Open Scope Z_scope.
Open Scope xv6_scope.

Definition T_IRQ0 : Z := 32.
Definition T_SYSCALL : Z := 64.
Definition IRQ_TIMER : Z := 0.
Definition IRQ_KBD : Z := 1.
Definition IRQ_COM1 : Z := 4.
Definition IRQ_IDE : Z := 14.
Definition IRQ_SPURIOUS : Z := 31.
Definition SEG_KCODE : Z := 1.
Definition STS_IG32 : Z := 14.
Definition STS_TG32 : Z := 15.

(** ** The descriptor table *)

Record gatedesc := Gate {
  g_off_15_0 : Z; g_cs : Z; g_args : Z; g_rsv1 : Z; g_type : Z; g_s : Z; g_dpl : Z; g_p : Z; g_off_31_16 : Z
}.

Definition SETGATE (istrap : bool) (sel off d : Z) : gatedesc :=
  Gate (Z.land (u32 off) 65535) (u16 sel) 0 0 (if istrap then STS_TG32 else STS_IG32) 0 (d mod 4) 1 (Z.shiftr (u32 off) 16).

Definition tvinit (vectors : Z -> Z) : list gatedesc :=
  let idt := (fun i => SETGATE false (Z.shiftl SEG_KCODE 3) (vectors i) 0) <$> seqZ 0 256 in
  <[Z.to_nat T_SYSCALL := SETGATE true (Z.shiftl SEG_KCODE 3) (vectors T_SYSCALL) DPL_USER]> idt.

(** The address the processor jumps to. *)
Definition gate_offset (g : gatedesc) : Z := g_off_15_0 g + Z.shiftl (g_off_31_16 g) 16.

Lemma setgate_offset istrap sel off d : is_u32 off -> gate_offset (SETGATE istrap sel off d) = off.
Proof.
  intros H. unfold gate_offset, SETGATE. cbn. rewrite u32_id by apply H. change 65535 with (Z.ones 16). rewrite Z.land_ones by lia.
  rewrite Z.shiftl_mul_pow2, Z.shiftr_div_pow2 by lia. Z.div_mod_to_equations. lia.
Qed.

(** Every vector has a gate to its entry, in the kernel's code segment; only the
    one of system calls can be used from user mode, and only it leaves interrupts
    on. *)
Lemma tvinit_gates vectors i : (forall j, is_u32 (vectors j)) -> 0 <= i < 256 ->
  exists g, tvinit vectors !! Z.to_nat i = Some g /\ gate_offset g = vectors i /\ g_cs g = 8 /\ g_p g = 1 /\
    (g_dpl g = DPL_USER <-> i = T_SYSCALL) /\ (g_type g = STS_TG32 <-> i = T_SYSCALL).
Proof.
  intros Hv Hi. unfold tvinit. destruct (decide (i = T_SYSCALL)) as [->|Hne].
  - rewrite list_lookup_insert_eq by (rewrite length_fmap, length_seqZ; cbn; lia). eexists. split; [done|]. by rewrite setgate_offset.
  - rewrite list_lookup_insert_ne by (unfold T_SYSCALL in *; lia). rewrite list_lookup_fmap, lookup_seqZ_lt by lia. eexists. split; [done|].
    rewrite setgate_offset, Z.add_0_l, Z2Nat.id by (done || lia). done.
Qed.

(** ** The handler *)

(** What [trap] looks at in the trap frame, and the frame's address. *)
Record tframe := Frame { fr_trapno : Z; fr_cs : Z; fr_addr : Z }.
(** How the handler ends.  [Served] is the end of a system call, after which the
    table says whether the process still runs. *)
Inductive trapped := Returned | Exited | Yielded | Served.

Section Trap.
Context {L : Type} `{BlockOps L}.
Context (devsw_read : Z -> option (nat -> Z -> M (fsst L) (Z * list Z))).
Context (devsw_write : Z -> option (nat -> list Z -> Z -> M (fsst L) Z)).
Context (end_ data_ trapret_ forkret_ : Z) (count0 : Z) (depth : nat).
Context (ideintr kbdintr uartintr : M (sys L) unit).

(** The kernel and the global [ticks]. *)
Record tsys := Tsys { t_sys : sys L; ticks : Z }.
Definition in_t {A} (c : M (sys L) A) : M tsys A := fun s =>
  match c (t_sys s) with
  | Ok a k => Ok a (Tsys k (ticks s))
  | Stop r k => Stop r (Tsys k (ticks s))
  end.

Definition from_user (tf : tframe) : bool := Z.land (fr_cs tf) 3 =? DPL_USER.
Definition from_kernel (tf : tframe) : bool := Z.land (fr_cs tf) 3 =? 0.

(** The clock: [ticks] on the first processor. *)
Definition timer (cpu : nat) : M tsys unit :=
  if decide (cpu = 0%nat) then
    modify (fun s => Tsys (set_ptable (wakeup1 ChTicks (ptable (t_sys s))) (t_sys s)) (u32 (ticks s + 1)))
  else ret tt.

(** The cases of the [switch]. *)
Definition dispatch (cpu : nat) (proc : option nat) (tf : tframe) : M tsys unit :=
  let n := fr_trapno tf in
  if n =? T_IRQ0 + IRQ_TIMER then timer cpu
  else if n =? T_IRQ0 + IRQ_IDE then in_t ideintr
  else if n =? T_IRQ0 + IRQ_IDE + 1 then ret tt
  else if n =? T_IRQ0 + IRQ_KBD then in_t kbdintr
  else if n =? T_IRQ0 + IRQ_COM1 then in_t uartintr
  else if (n =? T_IRQ0 + 7) || (n =? T_IRQ0 + IRQ_SPURIOUS) then ret tt
  else match proc with
       | None => panic "trap"
       | Some cur => if from_kernel tf then panic "trap" else in_t (upd_proc cur (p_set_killed true))
       end.

(** [if(proc && proc->killed && (tf->cs&3) == DPL_USER) exit();]: whether it did. *)
Definition exit_if_killed (proc : option nat) (tf : tframe) : M tsys bool :=
  match proc with
  | None => ret false
  | Some cur =>
      let! me := in_t (get_proc cur) in
      if p_killed me && from_user tf then in_t (exit devsw_read end_ cur) ;;; ret true else ret false
  end.

Definition trap_resume (proc : option nat) (tf : tframe) : M tsys trapped :=
  let! gone := exit_if_killed proc tf in
  ret (if gone : bool then Exited else Returned).

Definition trap (cpu : nat) (proc : option nat) (tf : tframe) : M tsys trapped :=
  if fr_trapno tf =? T_SYSCALL then
    match proc with
    | None => halt (Undefined "no process")
    | Some cur =>
        let! t := gets ticks in
        in_t (trap_syscall devsw_read devsw_write end_ data_ trapret_ forkret_ count0 depth t cur (fr_addr tf)) ;;;
        ret Served
    end
  else
    dispatch cpu proc tf ;;;
    let! gone := exit_if_killed proc tf in
    if gone : bool then ret Exited else
    match proc with
    | None => ret Returned
    | Some cur =>
        let! me := in_t (get_proc cur) in
        if bool_decide (p_state me = RUNNING) && (fr_trapno tf =? T_IRQ0 + IRQ_TIMER) then
          in_t (modify (fun s => set_ptable (yield_table cur (ptable s)) s)) ;;; ret Yielded
        else trap_resume proc tf
    end.

(** The clock takes the processor away: a process that runs in user mode and has
    not been killed becomes runnable, processes that wait for the clock are woken,
    and no other process changes. *)
Lemma trap_timer_preempts s cur me cs addr : ptable (t_sys s) !! cur = Some me -> p_state me = RUNNING -> p_killed me = false ->
  exists s', trap 0 (Some cur) (Frame (T_IRQ0 + IRQ_TIMER) cs addr) s = Ok Yielded s' /\ ticks s' = u32 (ticks s + 1) /\
    ptable (t_sys s') = yield_table cur (wakeup1 ChTicks (ptable (t_sys s))) /\ s_kern (t_sys s') = s_kern (t_sys s) /\
    ptable (t_sys s') !! cur = Some (p_set_state RUNNABLE me).
Proof.
  intros Hme Hr Hk. set (t1 := wakeup1 ChTicks (ptable (t_sys s))).
  assert (Hme1 : t1 !! cur = Some me).
  { unfold t1, wakeup1. rewrite list_lookup_fmap, Hme. cbn. rewrite decide_False; [done|]. intros [E _]. congruence. }
  set (s1 := Tsys (set_ptable t1 (t_sys s)) (u32 (ticks s + 1))).
  assert (G1 : in_t (get_proc cur) s1 = Ok me s1) by (unfold in_t, get_proc, bind, gets, of_option; cbn; by rewrite Hme1).
  eexists (Tsys (set_ptable (yield_table cur t1) (t_sys s)) (u32 (ticks s + 1))). split_and!; try done.
  - unfold trap. cbn [fr_trapno]. change (T_IRQ0 + IRQ_TIMER =? T_SYSCALL) with false. cbv iota.
    assert (D : dispatch 0 (Some cur) (Frame (T_IRQ0 + IRQ_TIMER) cs addr) s = Ok tt s1) by done.
    rewrite (bind_Ok _ _ _ _ _ D). unfold exit_if_killed.
    assert (E1 : (let! me := in_t (get_proc cur) in if p_killed me && from_user (Frame (T_IRQ0 + IRQ_TIMER) cs addr)
       then in_t (exit devsw_read end_ cur) ;;; ret true else ret false) s1 = Ok false s1).
    { rewrite (bind_Ok _ _ _ _ _ G1). by rewrite Hk. }
    rewrite (bind_Ok _ _ _ _ _ E1). rewrite (bind_Ok _ _ _ _ _ G1).
    rewrite bool_decide_eq_true_2 by exact Hr. done.
  - cbn. unfold yield_table. rewrite list_lookup_alter_eq. by rewrite Hme1.
Qed.

(** An exception in user mode ends the process that caused it: what happens is
    its [exit], after it is marked as killed. *)
Lemma trap_fault_exits s cpu cur me n cs addr k' : ptable (t_sys s) !! cur = Some me -> 0 <= n < T_IRQ0 -> Z.land cs 3 = DPL_USER ->
  exit devsw_read end_ cur (set_ptable (alter (p_set_killed true) cur (ptable (t_sys s))) (t_sys s)) = Ok tt k' ->
  trap cpu (Some cur) (Frame n cs addr) s = Ok Exited (Tsys k' (ticks s)).
Proof.
  intros Hme Hn Hu He. unfold trap. cbn [fr_trapno]. unfold T_IRQ0, T_SYSCALL in *. rewrite (proj2 (Z.eqb_neq n 64)) by lia.
  set (s1 := Tsys (set_ptable (alter (p_set_killed true) cur (ptable (t_sys s))) (t_sys s)) (ticks s)).
  assert (D : dispatch cpu (Some cur) (Frame n cs addr) s = Ok tt s1).
  { unfold dispatch, from_kernel. cbn [fr_trapno fr_cs]. rewrite Hu. change (DPL_USER =? 0) with false.
    unfold T_IRQ0, IRQ_TIMER, IRQ_IDE, IRQ_KBD, IRQ_COM1, IRQ_SPURIOUS. by repeat rewrite (proj2 (Z.eqb_neq n _)) by lia. }
  rewrite (bind_Ok _ _ _ _ _ D).
  assert (G1 : in_t (get_proc cur) s1 = Ok (p_set_killed true me) s1).
  { unfold in_t, get_proc, bind, gets, of_option. cbn. by rewrite list_lookup_alter_eq, Hme. }
  assert (E1 : in_t (exit devsw_read end_ cur) s1 = Ok tt (Tsys k' (ticks s))) by (unfold in_t, s1; cbn [t_sys ticks]; by rewrite He).
  assert (X : exit_if_killed (Some cur) (Frame n cs addr) s1 = Ok true (Tsys k' (ticks s))).
  { unfold exit_if_killed. rewrite (bind_Ok _ _ _ _ _ G1). unfold from_user. cbn [fr_cs p_killed p_set_killed]. rewrite Hu.
    change (true && (DPL_USER =? DPL_USER)) with true. cbv iota. by rewrite (bind_Ok _ _ _ _ _ E1). }
  by rewrite (bind_Ok _ _ _ _ _ X).
Qed.

(** The same in the kernel is a bug of the kernel. *)
Lemma trap_kernel_panics s cpu proc n cs addr : 0 <= n < T_IRQ0 -> Z.land cs 3 = 0 -> trap cpu proc (Frame n cs addr) s = Stop (Panic "trap") s.
Proof.
  intros Hn Hk. unfold trap. cbn [fr_trapno]. unfold T_IRQ0, T_SYSCALL in *. rewrite (proj2 (Z.eqb_neq n 64)) by lia. apply bind_Stop.
  unfold dispatch, from_kernel. cbn [fr_trapno fr_cs]. rewrite Hk. unfold T_IRQ0, IRQ_TIMER, IRQ_IDE, IRQ_KBD, IRQ_COM1, IRQ_SPURIOUS.
  repeat rewrite (proj2 (Z.eqb_neq n _)) by lia. cbn. by destruct proc.
Qed.
End Trap.
