(* ===== verification/Mp.v ===== *)
(** * Mp: finding the processors (mp.c, mp.h)

    The tables of the BIOS, over memory as a function from kernel addresses to
    bytes.  [mpinit_reads] shows that a table is read as it is written; two lemmas
    say what becomes of tables that the code does not expect. *)

From S2P Require Import Prelude Kalloc.
Open Scope Z_scope.
Open Scope xv6_scope.

Definition NCPU : Z := 8.
Definition MPPROC : Z := 0.
Definition MPBUS : Z := 1.
Definition MPIOAPIC : Z := 2.
Definition MPIOINTR : Z := 3.
Definition MPLINTR : Z := 4.
Definition MPBOOT : Z := 2.

(** Sizes of the structures: [struct mp], [mpconf], [mpproc], [mpioapic]. *)
Definition MP : Z := 16.
Definition MPCONF : Z := 44.
Definition MPPROC_SIZE : Z := 20.
Definition MPIOAPIC_SIZE : Z := 8.

Module Tables.
(** The globals that [mpinit] sets, the [id] of every processor, and the ports it
    wrote. *)
Record mpstate := Mpst {
  bcpu : Z; ismp : bool; ncpu : Z; cpu_ids : list Z; lapic : Z; ioapicid : Z; outs : list (Z * Z)
}.
Definition set_bcpu v s := Mpst v (ismp s) (ncpu s) (cpu_ids s) (lapic s) (ioapicid s) (outs s).
Definition set_ismp v s := Mpst (bcpu s) v (ncpu s) (cpu_ids s) (lapic s) (ioapicid s) (outs s).
Definition set_ncpu v s := Mpst (bcpu s) (ismp s) v (cpu_ids s) (lapic s) (ioapicid s) (outs s).
Definition set_ids v s := Mpst (bcpu s) (ismp s) (ncpu s) v (lapic s) (ioapicid s) (outs s).
Definition set_lapic v s := Mpst (bcpu s) (ismp s) (ncpu s) (cpu_ids s) v (ioapicid s) (outs s).
Definition set_ioapicid v s := Mpst (bcpu s) (ismp s) (ncpu s) (cpu_ids s) (lapic s) v (outs s).
Definition set_outs v s := Mpst (bcpu s) (ismp s) (ncpu s) (cpu_ids s) (lapic s) (ioapicid s) v.

(** The globals of a kernel that has just been loaded. *)
Definition mpboot : mpstate := Mpst 0 false 0 (replicate (Z.to_nat NCPU) 0) 0 0 [].

Section Mp.
Context (mem : Z -> Z) (imcr : Z).

Definition bytes (a len : Z) : list Z := (fun i => mem (a + i)) <$> seqZ 0 len.
Definition load (n a : Z) : Z := le_val (bytes a n).

Definition sum (addr len : Z) : Z := u8 (foldl Z.add 0 (bytes addr len)).

(** The places where [mpsearch1] looks, one [struct mp] apart. *)
Definition places (addr len : Z) : list Z := (fun k => addr + MP * k) <$> seqZ 0 ((len + MP - 1) / MP).
Definition is_mp (p : Z) : bool := bool_decide (bytes p 4 = [95; 77; 80; 95]) && (sum p MP =? 0).
Definition mpsearch1 (a len : Z) : option Z := head (filter (fun p => is_mp p = true) (places (p2v a) len)).

Definition mpsearch : option Z :=
  let bda := p2v 1024 in
  let p := Z.shiftl (Z.lor (Z.shiftl (mem (bda + 15)) 8) (mem (bda + 14))) 4 in
  let last := mpsearch1 983040 65536 in
  if negb (p =? 0) then
    match mpsearch1 p 1024 with Some mp => Some mp | None => last end
  else
    let p := Z.lor (Z.shiftl (mem (bda + 20)) 8) (mem (bda + 19)) * 1024 in
    match mpsearch1 (u32 (p - 1024)) 1024 with Some mp => Some mp | None => last end.

Definition mpconfig : option (Z * Z) :=
  match mpsearch with
  | None => None
  | Some mp =>
      let physaddr := load 4 (mp + 4) in
      if physaddr =? 0 then None else
      let conf := p2v physaddr in
      if negb (bool_decide (bytes conf 4 = [80; 67; 77; 80])) then None else
      let version := mem (conf + 6) in
      if negb (version =? 1) && negb (version =? 4) then None else
      if negb (sum conf (load 2 (conf + 4)) =? 0) then None else Some (mp, conf)
  end.

(** The case of a processor.  The table of processors has no bound. *)
Definition mp_proc (p : Z) : M mpstate unit :=
  let! n := gets ncpu in
  (if n =? mem (p + 1) then ret tt else modify (set_ismp false)) ;;;
  (if Z.land (mem (p + 3)) MPBOOT =? 0 then ret tt else modify (set_bcpu n)) ;;;
  if NCPU <=? n then halt (Undefined "cpus") else
  modify (fun s => set_ids (<[Z.to_nat n := n]> (cpu_ids s)) s) ;;;
  modify (set_ncpu (n + 1)).

(** The loop over the entries.  In the default case [p] stays where it is. *)
Fixpoint mp_entries (fuel : nat) (p e : Z) : M mpstate unit :=
  if p <? e then
    match fuel with
    | O => halt OutOfFuel
    | S fuel =>
        let t := mem p in
        if t =? MPPROC then mp_proc p ;;; mp_entries fuel (p + MPPROC_SIZE) e
        else if t =? MPIOAPIC then modify (set_ioapicid (mem (p + 1))) ;;; mp_entries fuel (p + MPIOAPIC_SIZE) e
        else if (t =? MPBUS) || (t =? MPIOINTR) || (t =? MPLINTR) then mp_entries fuel (p + 8) e
        else modify (set_ismp false) ;;; halt Spin
    end
  else ret tt.

Definition mpinit : M mpstate unit :=
  modify (set_bcpu 0) ;;;
  match mpconfig with
  | None => ret tt
  | Some (mp, conf) =>
      modify (set_ismp true) ;;;
      modify (set_lapic (load 4 (conf + 36))) ;;;
      let len := load 2 (conf + 4) in
      mp_entries (Z.to_nat len) (conf + MPCONF) (conf + len) ;;;
      let! mp_ok := gets ismp in
      if negb mp_ok then modify (fun s => set_ioapicid 0 (set_lapic 0 (set_ncpu 1 s)))
      else if mem (mp + 12) =? 0 then ret tt
      else modify (fun s => set_outs (outs s ++ [(34, 112); (35, Z.lor imcr 1)]) s)
  end.

(** ** What the tables say *)

Inductive mpentry := EProc (apicid flags : Z) | EIoapic (apicno : Z) | EOther (type : Z).

Definition entry_size (x : mpentry) : Z := match x with EProc _ _ => MPPROC_SIZE | EIoapic _ => MPIOAPIC_SIZE | EOther _ => 8 end.
Definition table_size (es : list mpentry) : Z := foldr (fun x n => entry_size x + n) 0 es.

Fixpoint holds (es : list mpentry) (p : Z) : Prop :=
  match es with
  | [] => True
  | x :: es =>
      match x with
      | EProc a f => mem p = MPPROC /\ mem (p + 1) = a /\ mem (p + 3) = f
      | EIoapic a => mem p = MPIOAPIC /\ mem (p + 1) = a
      | EOther t => mem p = t /\ (t = MPBUS \/ t = MPIOINTR \/ t = MPLINTR)
      end /\ holds es (p + entry_size x)
  end.

(** The processors with their flags, in the order of the table. *)
Definition procs (es : list mpentry) : list (Z * Z) := omap (fun x => match x with EProc a f => Some (a, f) | _ => None end) es.

(** The last processor that is marked as the one that boots. *)
Fixpoint boot_cpu (k d : Z) (l : list (Z * Z)) : Z :=
  match l with
  | [] => d
  | (_, f) :: l => boot_cpu (k + 1) (if Z.land f MPBOOT =? 0 then d else k) l
  end.
Definition last_ioapic (d : Z) (es : list mpentry) : Z :=
  default d (last (omap (fun x => match x with EIoapic a => Some a | _ => None end) es)).

(** Processors numbered from [k]. *)
Definition number (k : Z) (n : nat) (ids : list Z) : list Z :=
  foldl (fun ids i => <[Z.to_nat i := i]> ids) ids (seqZ k (Z.of_nat n)).

Lemma seqZ_S k n : seqZ k (Z.of_nat (S n)) = k :: seqZ (k + 1) (Z.of_nat n).
Proof. rewrite seqZ_cons by lia. do 2 f_equal; lia. Qed.

Lemma length_number n : forall k ids, length (number k n ids) = length ids.
Proof.
  unfold number. induction n as [|n IH]; intros k ids; [done|]. rewrite seqZ_S. cbn [foldl]. by rewrite IH, length_insert.
Qed.

Lemma number_lookup n : forall k ids i, 0 <= k -> k + Z.of_nat n <= Z.of_nat (length ids) -> 0 <= i ->
  number k n ids !! Z.to_nat i = if decide (k <= i < k + Z.of_nat n) then Some i else ids !! Z.to_nat i.
Proof.
  unfold number. induction n as [|n IH]; intros k ids i Hk Hl Hi; [by rewrite decide_False by lia|]. rewrite seqZ_S. cbn [foldl].
  rewrite IH by (rewrite ?length_insert; lia). destruct (decide (i = k)) as [->|Hne].
  - rewrite decide_False, decide_True by lia. by rewrite list_lookup_insert_eq by lia.
  - rewrite list_lookup_insert_ne by lia. repeat case_decide; try done; lia.
Qed.

(** What the loop makes of the entries [es]. *)
Definition after (es : list mpentry) (s : mpstate) : mpstate :=
  let n := length (procs es) in
  Mpst (boot_cpu (ncpu s) (bcpu s) (procs es)) (ismp s && bool_decide ((procs es).*1 = seqZ (ncpu s) (Z.of_nat n))) (ncpu s + Z.of_nat n)
    (number (ncpu s) n (cpu_ids s)) (lapic s) (last_ioapic (ioapicid s) es) (outs s).

Lemma after_nil s : after [] s = s.
Proof. destruct s. unfold after. cbn. f_equal; [by destruct ismp0|lia]. Qed.

Lemma last_ioapic_cons a d es : last_ioapic d (EIoapic a :: es) = last_ioapic a es.
Proof. unfold last_ioapic. cbn. set (l := omap _ es). destruct l as [|b l]; [done|]. rewrite last_cons_cons.
  destruct (proj2 (last_is_Some (b :: l))) as [y ->]; done. Qed.

Lemma mp_proc_run p s a f es : ncpu s < NCPU -> mem (p + 1) = a -> mem (p + 3) = f ->
  exists s', mp_proc p s = Ok tt s' /\ after es s' = after (EProc a f :: es) s /\ ncpu s' = ncpu s + 1 /\ length (cpu_ids s') = length (cpu_ids s).
Proof.
  intros Hn <- <-. unfold mp_proc, bind, gets, modify, ret. rewrite (proj2 (Z.leb_gt _ _)) by lia.
  eexists (Mpst (if Z.land (mem (p + 3)) MPBOOT =? 0 then bcpu s else ncpu s) (ismp s && (ncpu s =? mem (p + 1))) (ncpu s + 1)
    (<[Z.to_nat (ncpu s) := ncpu s]> (cpu_ids s)) (lapic s) (ioapicid s) (outs s)). split_and!; [| |done|apply length_insert].
  - destruct s. cbn. by destruct (_ =? mem (p + 1)), (Z.land _ _ =? 0), ismp0.
  - unfold after. cbn [procs omap list_omap length fmap list_fmap boot_cpu fst]. fold (procs es). rewrite seqZ_S. unfold number. rewrite seqZ_S. cbn [bcpu ismp ncpu cpu_ids lapic ioapicid outs foldl].
    f_equal; [|lia]. rewrite <- andb_assoc. f_equal. apply eq_true_iff_eq. rewrite andb_true_iff, Z.eqb_eq, !bool_decide_eq_true. split.
    + by intros [-> ->].
    + intros [= -> E]. by rewrite E.
Qed.

Lemma entry_size_pos x : 8 <= entry_size x.
Proof. destruct x; cbv; discriminate. Qed.

Lemma table_size_nonneg es : 0 <= table_size es.
Proof. induction es as [|x es IH]; cbn; [done|]. pose proof (entry_size_pos x). unfold table_size in IH. lia. Qed.

(** The loop ends on a table of known entries for at most [NCPU] processors, with
    fuel for one turn a byte. *)
Lemma mp_entries_run es : forall fuel p s, holds es p -> table_size es <= Z.of_nat fuel -> ncpu s + Z.of_nat (length (procs es)) <= NCPU ->
  mp_entries fuel p (p + table_size es) s = Ok tt (after es s).
Proof.
  induction es as [|x es IH]; intros fuel p s Hh Hf Hn.
  - rewrite after_nil. destruct fuel; cbn [mp_entries]; by rewrite (proj2 (Z.ltb_ge _ _)) by (cbn; lia).
  - destruct Hh as [Hx Hh]. pose proof (entry_size_pos x). pose proof (table_size_nonneg es).
    change (table_size (x :: es)) with (entry_size x + table_size es) in *. rewrite Z.add_assoc.
    destruct fuel as [|fuel]; [lia|]. cbn [mp_entries]. rewrite (proj2 (Z.ltb_lt _ _)) by lia.
    destruct x as [a f|a|t].
    + destruct Hx as (-> & Ha & Hff). change (MPPROC =? MPPROC) with true. cbv iota. cbn [procs omap list_omap length] in Hn. fold (procs es) in Hn.
      destruct (mp_proc_run p s a f es) as (s' & R & A & N & _); [lia|done..|]. rewrite (bind_Ok _ _ _ _ _ R), <- A. apply IH; [done|cbn in *; lia|lia].
    + destruct Hx as (-> & Ha). change (MPIOAPIC =? MPPROC) with false. change (MPIOAPIC =? MPIOAPIC) with true. cbv iota.
      unfold bind, modify. rewrite (IH fuel (p + MPIOAPIC_SIZE)); [|done|cbn in *; lia|done]. unfold after. cbn [set_ioapicid ioapicid]. by rewrite last_ioapic_cons, Ha.
    + destruct Hx as (-> & Ht). replace (t =? MPPROC) with false by (destruct Ht as [->|[->| ->]]; done).
      replace (t =? MPIOAPIC) with false by (destruct Ht as [->|[->| ->]]; done).
      replace ((t =? MPBUS) || (t =? MPIOINTR) || (t =? MPLINTR)) with true by (destruct Ht as [->|[->| ->]]; done).
      apply (IH fuel (p + 8)); [done|cbn in *; lia|done].
Qed.

(** [mpinit] after a table of the entries [es]. *)
Definition configured (mp conf : Z) (es : list mpentry) : mpstate :=
  let s := after es (set_lapic (load 4 (conf + 36)) (set_ismp true (set_bcpu 0 mpboot))) in
  if bool_decide ((procs es).*1 = seqZ 0 (Z.of_nat (length (procs es)))) then
    if mem (mp + 12) =? 0 then s else set_outs [(34, 112); (35, Z.lor imcr 1)] s
  else set_ioapicid 0 (set_lapic 0 (set_ncpu 1 s)).

(** The table of the BIOS is read as it is written: the processors counted and
    numbered, the one that boots and the interrupt controllers found; a machine whose
    processors are not numbered from 0 on is run with one processor. *)
Lemma mpinit_reads mp conf es : mpconfig = Some (mp, conf) -> holds es (conf + MPCONF) -> load 2 (conf + 4) = MPCONF + table_size es ->
  Z.of_nat (length (procs es)) <= NCPU -> mpinit mpboot = Ok tt (configured mp conf es).
Proof.
  intros Hc Hh Hl Hn. unfold mpinit. rewrite Hc, Hl. set (s1 := set_lapic (load 4 (conf + 36)) (set_ismp true (set_bcpu 0 mpboot))).
  assert (R : mp_entries (Z.to_nat (MPCONF + table_size es)) (conf + MPCONF) (conf + (MPCONF + table_size es)) s1 = Ok tt (after es s1)).
  { rewrite Z.add_assoc. pose proof (table_size_nonneg es). apply mp_entries_run; [done|unfold MPCONF; lia|exact Hn]. }
  unfold bind at 1, modify at 1. unfold bind at 1, modify at 1. unfold bind at 1, modify at 1. fold s1.
  rewrite (bind_Ok _ _ _ _ _ R). unfold bind, gets, configured. fold s1. change (ismp (after es s1)) with
    (bool_decide ((procs es).*1 = seqZ 0 (Z.of_nat (length (procs es))))).
  destruct (bool_decide _); cbn [negb]; [|done]. by destruct (_ =? 0).
Qed.

(** An entry of a type that the kernel does not know is never passed. *)
Lemma mp_entries_unknown fuel p e s : p < e -> MPLINTR < mem p -> mp_entries (S fuel) p e s = Stop Spin (set_ismp false s).
Proof.
  unfold MPLINTR. intros Hp Ht. cbn [mp_entries]. rewrite (proj2 (Z.ltb_lt _ _)) by lia.
  unfold MPPROC, MPIOAPIC, MPBUS, MPIOINTR, MPLINTR. by repeat rewrite (proj2 (Z.eqb_neq (mem p) _)) by lia.
Qed.

(** The ninth processor of a table is stored past the end of [cpus]. *)
Lemma mp_proc_overflows p s : NCPU <= ncpu s -> exists s', mp_proc p s = Stop (Undefined "cpus") s'.
Proof.
  intros Hn. unfold mp_proc, bind, gets, modify, ret, halt. rewrite (proj2 (Z.leb_le _ _)) by done.
  destruct (_ =? _), (_ =? _); by eexists.
Qed.
End Mp.
End Tables.

(** A machine with two processors, the second of which boots. *)
Module Machine.
Import Tables.
Definition sealed (l : list Z) (at_ : nat) : list Z := <[at_ := (- foldl Z.add 0 l) mod 256]> l.
Definition mp_bytes : list Z := sealed ([95; 77; 80; 95] ++ le_bytes 4 983296 ++ [1; 4; 0; 0; 128; 0; 0; 0]) 10.
Definition conf_bytes : list Z :=
  sealed ([80; 67; 77; 80] ++ le_bytes 2 100 ++ [4; 0] ++ replicate 20 32 ++ replicate 6 0 ++ [4; 0] ++ le_bytes 4 4276092928 ++ [0; 0; 0; 0] ++
    ([0; 0; 20; 1] ++ replicate 16 0) ++ ([0; 1; 20; 3] ++ replicate 16 0) ++ [2; 2; 17; 1; 0; 0; 192; 254] ++ [1; 0; 73; 83; 65; 32; 32; 32]) 7.
Definition rom (a : Z) : Z :=
  let a := a - KERNBASE in
  if (983088 <=? a) && (a <? 983104) then nth (Z.to_nat (a - 983088)) mp_bytes 0
  else if (983296 <=? a) && (a <? 983396) then nth (Z.to_nat (a - 983296)) conf_bytes 0
  else if a =? 1044 then 2 else if a =? 1043 then 127 else 0.

Lemma mpinit_reads_witness : exists s, mpinit rom 0 mpboot = Ok tt s /\ ncpu s = 2 /\ bcpu s = 1 /\ ioapicid s = 2 /\ ismp s = true.
Proof.
  exists (configured rom 0 (KERNBASE + 983088) (KERNBASE + 983296) [EProc 0 1; EProc 1 3; EIoapic 2; EOther 1]).
  split; [|by vm_compute].
  apply mpinit_reads; [by vm_compute|vm_compute; tauto|by vm_compute|by vm_compute].
Defined.
End Machine.
