(* ===== verification/Lapic.v ===== *)
(** * Lapic: interrupt controllers, timers and the clock chip
    (lapic.c, ioapic.c, picirq.c, timer.c)

    What the kernel tells the hardware is a trace of writes to ports and
    registers; what it reads comes from functions of the time, counted in reads.
    The first part sets the interrupt controllers up; its theorem is about what
    the controllers make of the trace.  The second part reads the date. *)

From S2P Require Import Prelude Kalloc Proc Trap.
Open Scope Z_scope.
Open Scope xv6_scope.

(** ** Interrupt controllers *)

Module Irq.
(** A write to a port, to a register of the local controller (by its index), to
    the two registers of the I/O controller, and to memory. *)
Inductive io := Out (port v : Z) | LapicW (index v : Z) | IoapicReg (v : Z) | IoapicData (v : Z) | Store16 (a v : Z).

Record hw := Hw { tr : list io; now : nat; irqmask : Z; uart : bool; havedisk1 : bool }.
Definition emit (e : io) : M hw unit := modify (fun s => Hw (tr s ++ [e]) (now s) (irqmask s) (uart s) (havedisk1 s)).
Definition read (f : nat -> Z) : M hw Z := fun s => Ok (f (now s)) (Hw (tr s) (S (now s)) (irqmask s) (uart s) (havedisk1 s)).

(** The initial mask has the line of the second controller enabled. *)
Definition IRQ_SLAVE : Z := 2.
Definition hw0 : hw := Hw [] 0 (Z.land 65535 (Z.lnot (Z.shiftl 1 IRQ_SLAVE))) false false.

Definition IO_PIC1 : Z := 32.
Definition IO_PIC2 : Z := 160.
Definition IRQ_ERROR : Z := 19.

(** The registers of the local controller, as indices of words, and the bits of
    their values. *)
Inductive lapicreg := ID | VER | TPR | EOI | SVR | ESR | ICRLO | ICRHI | TIMER | PCINT | LINT0 | LINT1 | ERROR | TICR | TDCR.
Definition lapic_index (r : lapicreg) : Z :=
  match r with
  | ID => 32 / 4 | VER => 48 / 4 | TPR => 128 / 4 | EOI => 176 / 4 | SVR => 240 / 4 | ESR => 640 / 4 | ICRLO => 768 / 4 | ICRHI => 784 / 4
  | TIMER => 800 / 4 | PCINT => 832 / 4 | LINT0 => 848 / 4 | LINT1 => 864 / 4 | ERROR => 880 / 4 | TICR => 896 / 4 | TDCR => 992 / 4
  end.
Coercion lapic_index : lapicreg >-> Z.

Inductive lapicbits := ENABLE | INIT | STARTUP | DELIVS | ASSERT | LEVEL | BCAST | X1 | PERIODIC | MASKED.
Definition lapic_bits (b : lapicbits) : Z :=
  match b with
  | ENABLE => 256 | INIT => 1280 | STARTUP => 1536 | DELIVS => 4096 | ASSERT => 16384 | LEVEL => 32768 | BCAST => 524288
  | X1 => 11 | PERIODIC => 131072 | MASKED => 65536
  end.
Coercion lapic_bits : lapicbits >-> Z.

Definition REG_ID : Z := 0.
Definition REG_VER : Z := 1.
Definition REG_TABLE : Z := 16.
Definition INT_DISABLED : Z := 65536.

Section Irq.
(** What ports and registers read as, by the time. *)
Context (inb_ lapic_ ioapic_ : nat -> Z -> Z).
(** What [mpinit] found. *)
Context (lapic : Z) (ismp : bool) (ncpu : Z).

Definition outb (port v : Z) : M hw unit := emit (Out port (u8 v)).
Definition inb (port : Z) : M hw Z := read (fun t => inb_ t port).
Definition lapicr (index : Z) : M hw Z := read (fun t => lapic_ t index).

Definition lapicw (index value : Z) : M hw unit := emit (LapicW index (u32 value)) ;;; let! _ := lapicr ID in ret tt.

(** [while(lapic[ICRLO] & DELIVS);] *)
Fixpoint wait_delivery (fuel : nat) : M hw unit :=
  match fuel with
  | O => halt OutOfFuel
  | S fuel => let! v := lapicr ICRLO in if Z.land v DELIVS =? 0 then ret tt else wait_delivery fuel
  end.

Definition lapicinit (fuel : nat) : M hw unit :=
  if lapic =? 0 then ret tt else
  lapicw SVR (Z.lor ENABLE (T_IRQ0 + IRQ_SPURIOUS)) ;;;
  lapicw TDCR X1 ;;;
  lapicw TIMER (Z.lor PERIODIC (T_IRQ0 + IRQ_TIMER)) ;;;
  lapicw TICR 10000000 ;;;
  lapicw LINT0 MASKED ;;;
  lapicw LINT1 MASKED ;;;
  let! ver := lapicr VER in
  (if 4 <=? Z.land (Z.shiftr ver 16) 255 then lapicw PCINT MASKED else ret tt) ;;;
  lapicw ERROR (T_IRQ0 + IRQ_ERROR) ;;;
  lapicw ESR 0 ;;;
  lapicw ESR 0 ;;;
  lapicw EOI 0 ;;;
  lapicw ICRHI 0 ;;;
  lapicw ICRLO (Z.lor (Z.lor BCAST INIT) LEVEL) ;;;
  wait_delivery fuel ;;;
  lapicw TPR 0.

Definition cpunum : M hw Z := if lapic =? 0 then ret 0 else let! v := lapicr ID in ret (Z.shiftr v 24).
Definition lapiceoi : M hw unit := if lapic =? 0 then ret tt else lapicw EOI 0.

Definition CMOS_PORT : Z := 112.

(** One startup interrupt. *)
Definition startup_ipi (apicid addr : Z) : M hw unit :=
  lapicw ICRHI (Z.shiftl apicid 24) ;;; lapicw ICRLO (Z.lor STARTUP (Z.shiftr addr 12)).

Definition lapicstartap (apicid addr : Z) : M hw unit :=
  outb CMOS_PORT 15 ;;;
  outb (CMOS_PORT + 1) 10 ;;;
  let wrv := p2v (Z.lor (Z.shiftl 64 4) 103) in
  emit (Store16 wrv 0) ;;;
  emit (Store16 (wrv + 2) (u16 (Z.shiftr addr 4))) ;;;
  lapicw ICRHI (Z.shiftl apicid 24) ;;;
  lapicw ICRLO (Z.lor (Z.lor INIT LEVEL) ASSERT) ;;;
  lapicw ICRLO (Z.lor INIT LEVEL) ;;;
  startup_ipi apicid addr ;;;
  startup_ipi apicid addr.

Definition ioapicread (reg : Z) : M hw Z := emit (IoapicReg reg) ;;; read (fun t => ioapic_ t reg).
Definition ioapicwrite (reg data : Z) : M hw unit := emit (IoapicReg reg) ;;; emit (IoapicData (u32 data)).

Definition ioapicinit : M hw unit :=
  if negb ismp then ret tt else
  let! ver := ioapicread REG_VER in
  let maxintr := Z.land (Z.shiftr ver 16) 255 in
  let! _ := ioapicread REG_ID in
  for_each (seqZ 0 (maxintr + 1)) (fun i =>
    ioapicwrite (REG_TABLE + 2 * i) (Z.lor INT_DISABLED (T_IRQ0 + i)) ;;;
    ioapicwrite (REG_TABLE + 2 * i + 1) 0).

Definition ioapicenable (irq cpunum : Z) : M hw unit :=
  if negb ismp then ret tt else
  ioapicwrite (REG_TABLE + 2 * irq) (T_IRQ0 + irq) ;;;
  ioapicwrite (REG_TABLE + 2 * irq + 1) (Z.shiftl cpunum 24).

Definition picsetmask (mask : Z) : M hw unit :=
  modify (fun s => Hw (tr s) (now s) (u16 mask) (uart s) (havedisk1 s)) ;;;
  outb (IO_PIC1 + 1) (u16 mask) ;;;
  outb (IO_PIC2 + 1) (Z.shiftr (u16 mask) 8).

Definition picenable (irq : Z) : M hw unit :=
  let! m := gets irqmask in picsetmask (Z.land m (Z.lnot (Z.shiftl 1 irq))).

Definition picinit : M hw unit :=
  outb (IO_PIC1 + 1) 255 ;;;
  outb (IO_PIC2 + 1) 255 ;;;
  outb IO_PIC1 17 ;;;
  outb (IO_PIC1 + 1) T_IRQ0 ;;;
  outb (IO_PIC1 + 1) (Z.shiftl 1 IRQ_SLAVE) ;;;
  outb (IO_PIC1 + 1) 3 ;;;
  outb IO_PIC2 17 ;;;
  outb (IO_PIC2 + 1) (T_IRQ0 + 8) ;;;
  outb (IO_PIC2 + 1) IRQ_SLAVE ;;;
  outb (IO_PIC2 + 1) 3 ;;;
  outb IO_PIC1 104 ;;;
  outb IO_PIC1 10 ;;;
  outb IO_PIC2 104 ;;;
  outb IO_PIC2 10 ;;;
  let! m := gets irqmask in
  if m =? 65535 then ret tt else picsetmask m.

(** The ports of the 8253 and the divisor for a rate of [x] interrupts a second. *)
Definition IO_TIMER1 : Z := 64.
Definition TIMER_DIV (x : Z) : Z := let TIMER_FREQ := 1193182 in (TIMER_FREQ + x / 2) / x.
Definition TIMER_MODE : Z := IO_TIMER1 + 3.

Definition timerinit : M hw unit :=
  let TIMER_SEL0 := 0 in let TIMER_RATEGEN := 4 in let TIMER_16BIT := 48 in
  outb TIMER_MODE (Z.lor (Z.lor TIMER_SEL0 TIMER_RATEGEN) TIMER_16BIT) ;;;
  outb IO_TIMER1 (TIMER_DIV 100 mod 256) ;;;
  outb IO_TIMER1 (TIMER_DIV 100 / 256) ;;;
  picenable IRQ_TIMER.

Definition COM1 : Z := 1016.

(** [uartputc], which waits for a bounded number of turns. *)
Fixpoint uart_wait (n : nat) : M hw unit :=
  match n with
  | O => ret tt
  | S n => let! v := inb (COM1 + 5) in if Z.land v 32 =? 0 then uart_wait n else ret tt
  end.
Definition uart_out (c : Z) : M hw unit :=
  let! u := gets uart in
  if negb u then ret tt else uart_wait 128 ;;; outb COM1 c.

Definition uartinit : M hw unit :=
  outb (COM1 + 2) 0 ;;;
  outb (COM1 + 3) 128 ;;;
  outb COM1 (115200 / 9600) ;;;
  outb (COM1 + 1) 0 ;;;
  outb (COM1 + 3) 3 ;;;
  outb (COM1 + 4) 0 ;;;
  outb (COM1 + 1) 1 ;;;
  let! st := inb (COM1 + 5) in
  if st =? 255 then ret tt else
  modify (fun s => Hw (tr s) (now s) (irqmask s) true (havedisk1 s)) ;;;
  let! _ := inb (COM1 + 2) in
  let! _ := inb COM1 in
  picenable IRQ_COM1 ;;;
  ioapicenable IRQ_COM1 0 ;;;
  for_each [120; 118; 54; 46; 46; 46; 10] uart_out.

(** [idewait(0)]: until the disk is ready. *)
Fixpoint ide_poll (fuel : nat) : M hw unit :=
  match fuel with
  | O => halt OutOfFuel
  | S fuel => let! r := inb 503 in if Z.land r 192 =? 64 then ret tt else ide_poll fuel
  end.

(** The thousand looks for a second disk. *)
Fixpoint probe_disk1 (n : nat) : M hw unit :=
  match n with
  | O => ret tt
  | S n =>
      let! r := inb 503 in
      if r =? 0 then probe_disk1 n else modify (fun s => Hw (tr s) (now s) (irqmask s) (uart s) true)
  end.

Definition ideinit (fuel : nat) : M hw unit :=
  picenable IRQ_IDE ;;;
  ioapicenable IRQ_IDE (ncpu - 1) ;;;
  ide_poll fuel ;;;
  outb 502 (Z.lor 224 (Z.shiftl 1 4)) ;;;
  probe_disk1 1000 ;;;
  outb 502 (Z.lor 224 (Z.shiftl 0 4)).

(** The interrupt of the keyboard, in [consoleinit]. *)
Definition consoleinit : M hw unit := picenable IRQ_KBD ;;; ioapicenable IRQ_KBD 0.

(** The calls of [main] that set up devices, in its order; what it calls between
    them sets up memory, tables and caches. *)
Definition devinit (fuel : nat) : M hw unit :=
  lapicinit fuel ;;;
  picinit ;;;
  ioapicinit ;;;
  consoleinit ;;;
  uartinit ;;;
  ideinit fuel ;;;
  if negb ismp then timerinit else ret tt.
End Irq.

(** ** What the controllers make of it *)

(** The 8259A: a command with bit 4 starts the initialisation, in which the next
    three bytes of data are the vector of its first line, the cascade and the mode;
    other bytes of data are the mask. *)
Record pic := Pic { phase : nat; vec : Z; imr : Z }.
Definition pic_step (port : Z) (p : pic) (e : io) : pic :=
  match e with
  | Out q v =>
      if q =? port then (if Z.testbit v 4 then Pic 1 (vec p) 0 else p)
      else if q =? port + 1 then
        match phase p with
        | 0 => Pic 0 (vec p) v
        | 1 => Pic 2 v (imr p)
        | 2 => Pic 3 (vec p) (imr p)
        | _ => Pic 0 (vec p) (imr p)
        end%nat
      else p
  | _ => p
  end.
Definition pic_of (port : Z) (t : list io) : pic := foldl (pic_step port) (Pic 0 0 0) t.

(** The I/O controller: a register is selected and then written. *)
Record ioapic := Ioapic { sel : Z; regs : gmap Z Z }.
Definition ioapic_step (p : ioapic) (e : io) : ioapic :=
  match e with
  | IoapicReg r => Ioapic r (regs p)
  | IoapicData v => Ioapic (sel p) (<[sel p := v]> (regs p))
  | _ => p
  end.
Definition ioapic_of (t : list io) : ioapic := foldl ioapic_step (Ioapic 0 ∅) t.

(** The vector that interrupt line [i] is delivered with. *)
Definition delivers (ismp : bool) (t : list io) (i : Z) : option Z :=
  if ismp then
    lo ← regs (ioapic_of t) !! (REG_TABLE + 2 * i);
    if Z.testbit lo 16 then None else Some (Z.land lo 255)
  else
    let p := pic_of (if i <? 8 then IO_PIC1 else IO_PIC2) t in
    if Z.testbit (imr p) (i mod 8) then None else Some (vec p + i mod 8).

(** The local controller: its registers, from what they were before. *)
Definition lapic_step (f : Z -> Z) (e : io) : Z -> Z :=
  match e with LapicW i v => fun j => if j =? i then v else f j | _ => f end.
Definition lapic_of (f : Z -> Z) (t : list io) : Z -> Z := foldl lapic_step f t.

(** The vector of an entry of its local vector table, unless it is masked. *)
Definition lvt (f : Z -> Z) (r : lapicreg) : option Z := if Z.testbit (f r) 16 then None else Some (Z.land (f r) 255).

(** All that matters of a state. *)
Record view := View { v1 : pic; v2 : pic; vio : ioapic; vmask : Z; vuart : bool; vlap : Z -> Z }.
Definition view_step (v : view) (e : io) : view :=
  View (pic_step IO_PIC1 (v1 v) e) (pic_step IO_PIC2 (v2 v) e) (ioapic_step (vio v) e) (vmask v) (vuart v) (lapic_step (vlap v) e).

Section Proofs.
(** The registers of the local controller as the firmware left them. *)
Context (l0 : Z -> Z).

Definition view_of (s : hw) : view :=
  View (pic_of IO_PIC1 (tr s)) (pic_of IO_PIC2 (tr s)) (ioapic_of (tr s)) (irqmask s) (uart s) (lapic_of l0 (tr s)).

(** From a state with view [v], [c] ends in one with view [w]. *)
Definition moves {A} (c : M hw A) (v w : view) : Prop := forall s, view_of s = v -> exists a s', c s = Ok a s' /\ view_of s' = w.

Lemma moves_ret {A} (a : A) v : moves (ret a) v v.
Proof. intros s H. by exists a, s. Qed.
Lemma moves_bind {A B} (c : M hw A) (k : A -> M hw B) u v w : moves c u v -> (forall a, moves (k a) v w) -> moves (bind c k) u w.
Proof.
  intros Hc Hk s Hs. destruct (Hc s Hs) as (a & s1 & R & H1). destruct (Hk a s1 H1) as (b & s2 & R2 & H2).
  exists b, s2. by rewrite (bind_Ok _ _ _ _ _ R).
Qed.
Lemma moves_emit e v : moves (emit e) v (view_step v e).
Proof.
  intros s <-. eexists _, _. split; [done|]. unfold view_of, view_step, pic_of, ioapic_of, lapic_of. cbn [tr irqmask uart v1 v2 vio vmask vuart vlap].
  by rewrite !foldl_app.
Qed.
Lemma moves_read f v : moves (read f) v v.
Proof. intros s <-. by eexists _, _. Qed.
Lemma moves_gets {A} (f : hw -> A) v : moves (gets f) v v.
Proof. intros s <-. by eexists _, _. Qed.
Lemma moves_mask m v : moves (modify (fun s => Hw (tr s) (now s) m (uart s) (havedisk1 s))) v (View (v1 v) (v2 v) (vio v) m (vuart v) (vlap v)).
Proof. intros s <-. by eexists _, _. Qed.

(** Writes that no controller sees. *)
Definition foreign (e : io) : Prop :=
  match e with Out p _ => p ∉ [IO_PIC1; IO_PIC1 + 1; IO_PIC2; IO_PIC2 + 1] | Store16 _ _ => True | _ => False end.
Lemma foreign_step v e : foreign e -> view_step v e = v.
Proof.
  destruct v, e; cbn; try done. intros H. rewrite !not_elem_of_cons in H. unfold view_step, pic_step. cbn.
  unfold IO_PIC1, IO_PIC2 in *. by rewrite !(proj2 (Z.eqb_neq _ _)) by lia.
Qed.
Lemma calm_emit e v : foreign e -> moves (emit e) v v.
Proof. intros H. rewrite <- (foreign_step v e H) at 2. apply moves_emit. Qed.
Lemma calm_outb p x v : p ∉ [IO_PIC1; IO_PIC1 + 1; IO_PIC2; IO_PIC2 + 1] -> moves (outb p x) v v.
Proof. intros H. by apply calm_emit. Qed.
Lemma calm_each {I} (l : list I) body v : (forall i, moves (body i) v v) -> moves (for_each l body) v v.
Proof. intros H. induction l as [|i l IH]; [apply moves_ret|]. apply (moves_bind _ _ _ v); auto. Qed.

Create HintDb calm.
#[local] Hint Resolve moves_ret moves_read moves_gets calm_each : calm.
#[local] Hint Extern 1 (moves (lapicr _ _) _ _) => apply moves_read : calm.
#[local] Hint Extern 1 (moves (inb _ _) _ _) => apply moves_read : calm.
#[local] Hint Extern 1 (moves (emit _) _ _) => apply calm_emit; exact I : calm.
#[local] Hint Extern 1 (moves (outb _ _) _ _) => apply calm_outb; apply (bool_decide_unpack _); vm_compute; exact I : calm.

(** Steps over a call that leaves the view alone. *)
Ltac calm := eapply moves_bind; [solve [auto with calm]|intros ?].

Context (inb_ lapic_ ioapic_ : nat -> Z -> Z) (lapic : Z) (ismp : bool) (ncpu : Z).

Lemma moves_seq {A B} (c : M hw A) (k : M hw B) u v w : moves c u v -> moves k v w -> moves (c ;;; k) u w.
Proof. intros Hc Hk. by apply (moves_bind _ _ _ v). Qed.

(** A read that always answers the same. *)
Lemma moves_const {B} f (k : Z -> M hw B) x v w : (forall t, f t = x) -> moves (k x) v w -> moves (bind (read f) k) v w.
Proof.
  intros Hf H s Hs. unfold bind, read. rewrite Hf. apply H. rewrite <- Hs. done.
Qed.

(** A write to a register of the local controller. *)
Definition lap_write (i x : Z) (f : Z -> Z) : Z -> Z := fun j => if j =? i then u32 x else f j.
Lemma moves_lapicw i x a b io m u f : moves (lapicw lapic_ i x) (View a b io m u f) (View a b io m u (lap_write i x f)).
Proof. unfold lapicw, lapicr. eapply moves_seq; [apply moves_emit|]. calm. auto with calm. Qed.

(** The hardware answers within [fuel] reads. *)
Definition responds (fuel : nat) : Prop := forall k,
  (exists t, k <= t < k + fuel /\ Z.land (lapic_ t ICRLO) DELIVS = 0%Z)%nat /\ (exists t, k <= t < k + fuel /\ Z.land (inb_ t 503%Z) 192 = 64%Z)%nat.

Lemma poll_calm (f : nat -> Z) (test : Z -> bool) (loop : nat -> M hw unit) v fuel :
  (forall n, loop (S n) = (let! r := read f in if test r then ret tt else loop n)) ->
  (forall k, exists t, (k <= t < k + fuel)%nat /\ test (f t) = true) -> moves (loop fuel) v v.
Proof.
  intros Hl Hf s Hs. destruct (Hf (now s)) as (t & Ht & E). clear Hf.
  revert s Hs Ht. induction fuel as [|fuel IH]; intros s Hs Ht; [lia|]. rewrite Hl. unfold bind at 1, read.
  destruct (test (f (now s))) eqn:T; [by eexists _, _|]. apply IH; [done|]. cbn [now].
  destruct (decide (t = now s)) as [->|]; [congruence|lia].
Qed.

(** The registers of the local controller after [lapicinit], on one of version
    [lver]. *)
Definition lap_version (lver : Z) : Z := Z.land (Z.shiftr lver 16) 255.
Definition lap_init (lver : Z) (f : Z -> Z) : Z -> Z :=
  if lapic =? 0 then f else
  let f := lap_write TDCR X1 (lap_write SVR (Z.lor ENABLE (T_IRQ0 + IRQ_SPURIOUS)) f) in
  let f := lap_write TICR 10000000 (lap_write TIMER (Z.lor PERIODIC (T_IRQ0 + IRQ_TIMER)) f) in
  let f := lap_write LINT1 MASKED (lap_write LINT0 MASKED f) in
  let f := if 4 <=? lap_version lver then lap_write PCINT MASKED f else f in
  let f := lap_write ESR 0 (lap_write ESR 0 (lap_write ERROR (T_IRQ0 + IRQ_ERROR) f)) in
  lap_write TPR 0 (lap_write ICRLO (Z.lor (Z.lor BCAST INIT) LEVEL) (lap_write ICRHI 0 (lap_write EOI 0 f))).

Lemma moves_lapicinit fuel lver a b io m u f : responds fuel -> (forall t, lapic_ t VER = lver) ->
  moves (lapicinit lapic_ lapic fuel) (View a b io m u f) (View a b io m u (lap_init lver f)).
Proof.
  intros Hr Hv. unfold lapicinit, lap_init. destruct (lapic =? 0); [apply moves_ret|]. cbv zeta.
  do 6 (eapply moves_seq; [apply moves_lapicw|]). eapply moves_const; [exact Hv|]. fold (lap_version lver).
  destruct (4 <=? lap_version lver); (eapply moves_seq; [first [apply moves_lapicw|apply moves_ret]|]);
    do 6 (eapply moves_seq; [apply moves_lapicw|]); (eapply moves_seq; [|apply moves_lapicw]);
    (apply (poll_calm (fun t => lapic_ t ICRLO) (fun x => Z.land x DELIVS =? 0)); [done|]);
    intros k; destruct (Hr k) as [(t & Ht & E) _]; exists t; by rewrite E.
Qed.

Lemma moves_mask_of {B} (k : Z -> M hw B) v w : moves (k (vmask v)) v w -> moves (bind (gets irqmask) k) v w.
Proof. intros H s Hs. destruct (H s Hs) as (b & s' & R & Hw). exists b, s'. unfold bind, gets. rewrite <- Hs in R. done. Qed.

(** The 8259As after their initialisation, with the mask [m]. *)
Context (lver : Z).
Definition ready (m : Z) (io : ioapic) (u : bool) : view :=
  View (Pic 0 T_IRQ0 (u8 m)) (Pic 0 (T_IRQ0 + 8) (u8 (Z.shiftr m 8))) io m u (lap_init lver l0).
Definition fresh : view := View (Pic 0 0 0) (Pic 0 0 0) (Ioapic 0 ∅) 65531 false l0.

Lemma moves_picsetmask x a b c d io m u f :
  moves (picsetmask x) (View (Pic 0 a b) (Pic 0 c d) io m u f)
    (View (Pic 0 a (u8 (u16 x))) (Pic 0 c (u8 (Z.shiftr (u16 x) 8))) io (u16 x) u f).
Proof. unfold picsetmask. eapply moves_seq; [apply moves_mask|]. eapply moves_seq; apply moves_emit. Qed.

(** A mask with a line enabled. *)
Definition unmask (m irq : Z) : Z := u16 (Z.land m (Z.lnot (Z.shiftl 1 irq))).
Lemma moves_picenable irq m io u : moves (picenable irq) (ready m io u) (ready (unmask m irq) io u).
Proof. apply moves_mask_of, moves_picsetmask. Qed.

Lemma moves_picinit io u : moves picinit (View (Pic 0 0 0) (Pic 0 0 0) io 65531 u (lap_init lver l0)) (ready 65531 io u).
Proof.
  unfold picinit. do 14 (eapply moves_seq; [apply moves_emit|]). apply moves_mask_of. apply moves_picsetmask.
Qed.

Definition io_write (reg x : Z) (p : ioapic) : ioapic := Ioapic reg (<[reg := u32 x]> (regs p)).
Lemma moves_ioapicwrite reg x v : moves (ioapicwrite reg x) v (View (v1 v) (v2 v) (io_write reg x (vio v)) (vmask v) (vuart v) (vlap v)).
Proof. unfold ioapicwrite. eapply moves_seq; apply moves_emit. Qed.

Definition io_enable (irq cpu : Z) (p : ioapic) : ioapic :=
  if ismp then io_write (REG_TABLE + 2 * irq + 1) (Z.shiftl cpu 24) (io_write (REG_TABLE + 2 * irq) (T_IRQ0 + irq) p) else p.
Lemma moves_ioapicenable irq cpu m io u : moves (ioapicenable ismp irq cpu) (ready m io u) (ready m (io_enable irq cpu io) u).
Proof.
  unfold ioapicenable, io_enable. destruct ismp; cbn [negb]; [|apply moves_ret]. eapply moves_seq; apply moves_ioapicwrite.
Qed.

Definition io_disable (p : ioapic) (i : Z) : ioapic :=
  io_write (REG_TABLE + 2 * i + 1) 0 (io_write (REG_TABLE + 2 * i) (Z.lor INT_DISABLED (T_IRQ0 + i)) p).
Lemma moves_disable_all l : forall m io u,
  moves (for_each l (fun i => ioapicwrite (REG_TABLE + 2 * i) (Z.lor INT_DISABLED (T_IRQ0 + i)) ;;; ioapicwrite (REG_TABLE + 2 * i + 1) 0))
    (ready m io u) (ready m (foldl io_disable io l) u).
Proof.
  induction l as [|i l IH]; intros m io u; [apply moves_ret|]. cbn [for_each foldl].
  eapply moves_seq; [eapply moves_seq; apply moves_ioapicwrite|]. apply IH.
Qed.

Definition maxintr (ver : Z) : Z := Z.land (Z.shiftr ver 16) 255.
Definition io_init (ver : Z) (p : ioapic) : ioapic :=
  if ismp then foldl io_disable (Ioapic REG_ID (regs p)) (seqZ 0 (maxintr ver + 1)) else p.
Lemma moves_ioapicinit ver m io u : (forall t, ioapic_ t REG_VER = ver) -> moves (ioapicinit ioapic_ ismp) (ready m io u) (ready m (io_init ver io) u).
Proof.
  intros Hv. unfold ioapicinit, io_init. destruct ismp; cbn [negb]; [|apply moves_ret].
  intros s Hs. unfold ioapicread at 1. unfold bind at 1 2, emit at 1, modify, read at 1. rewrite Hv.
  set (s1 := Hw _ _ _ _ _). assert (H1 : view_of s1 = view_step (ready m io u) (IoapicReg REG_VER)).
  { rewrite <- Hs. unfold view_of, view_step, pic_of, ioapic_of, lapic_of, s1. cbn [tr irqmask uart]. by rewrite !foldl_app. }
  revert s1 H1. fold (moves (let! _ := ioapicread ioapic_ REG_ID in
    for_each (seqZ 0 (maxintr ver + 1)) (fun i => ioapicwrite (REG_TABLE + 2 * i) (Z.lor INT_DISABLED (T_IRQ0 + i)) ;;; ioapicwrite (REG_TABLE + 2 * i + 1) 0))
    (view_step (ready m io u) (IoapicReg REG_VER)) (ready m (foldl io_disable (Ioapic REG_ID (regs io)) (seqZ 0 (maxintr ver + 1))) u)).
  eapply moves_bind; [eapply moves_seq; [apply moves_emit|apply moves_read]|intros _]. apply moves_disable_all.
Qed.

Lemma calm_uart_out c v : moves (uart_out inb_ c) v v.
Proof.
  unfold uart_out. calm. match goal with |- moves (if ?b then _ else _) _ _ => destruct b end; [auto with calm|].
  apply (moves_seq _ _ _ v); [|auto with calm]. generalize 128%nat. intros n. induction n as [|n IH]; [apply moves_ret|].
  cbn [uart_wait]. calm. destruct (_ =? _); auto with calm.
Qed.
#[local] Hint Resolve calm_uart_out : calm.

Definition after_uart (u : bool) (m : Z) (io : ioapic) : view := if u then ready (unmask m IRQ_COM1) (io_enable IRQ_COM1 0 io) true else ready m io false.
Lemma uartinit_moves s m io : view_of s = ready m io false ->
  let u := negb (inb_ (now s) (COM1 + 5) =? 255) in
  exists s', uartinit inb_ ismp s = Ok tt s' /\ view_of s' = after_uart u m io.
Proof.
  intros Hs u. set (st := inb_ (now s) (COM1 + 5) =? 255) in *.
  assert (H : moves (if st then ret tt else
    modify (fun s => Hw (tr s) (now s) (irqmask s) true (havedisk1 s)) ;;; (let! _ := inb inb_ (COM1 + 2) in let! _ := inb inb_ COM1 in
    picenable IRQ_COM1 ;;; ioapicenable ismp IRQ_COM1 0 ;;; for_each [120; 118; 54; 46; 46; 46; 10] (uart_out inb_))) (ready m io false) (after_uart (negb st) m io)).
  { destruct st; [apply moves_ret|]. apply (moves_seq _ _ _ (ready m io true)); [|].
    { intros z Hz. eexists _, _. split; [done|]. unfold view_of in *. cbn [tr irqmask uart]. by injection Hz as -> -> -> -> _ ->. }
    do 2 calm. eapply moves_seq; [apply moves_picenable|]. eapply moves_seq; [apply moves_ioapicenable|]. auto with calm. }
  set (s1 := Hw (tr s ++ [Out (COM1 + 2) 0; Out (COM1 + 3) 128; Out COM1 12; Out (COM1 + 1) 0; Out (COM1 + 3) 3; Out (COM1 + 4) 0; Out (COM1 + 1) 1])
    (S (now s)) (irqmask s) (uart s) (havedisk1 s)).
  destruct (H s1) as ([] & s' & R & Hv); [|exists s'; split; [|done]].
  - rewrite <- Hs. unfold s1, view_of, pic_of, ioapic_of, lapic_of. cbn [tr irqmask uart]. rewrite !foldl_app. done.
  - rewrite <- R. unfold uartinit, outb, emit. unfold bind at 1 2 3 4 5 6 7 8, modify at 1 2 3 4 5 6 7, inb at 1, read at 1. cbn [now tr irqmask uart havedisk1].
    unfold s1. rewrite <- !app_assoc. fold st. by destruct st.
Qed.

Lemma moves_ideinit fuel m io u : responds fuel -> moves (ideinit inb_ ismp ncpu fuel) (ready m io u) (ready (unmask m IRQ_IDE) (io_enable IRQ_IDE (ncpu - 1) io) u).
Proof.
  intros Hr. unfold ideinit. eapply moves_seq; [apply moves_picenable|]. eapply moves_seq; [apply moves_ioapicenable|].
  eapply moves_seq; [|].
  { apply (poll_calm (fun t => inb_ t 503) (fun x => Z.land x 192 =? 64)); [done|]. intros k. destruct (Hr k) as [_ (t & Ht & E)]. exists t. by rewrite E. }
  calm. eapply moves_seq; [|apply calm_outb; apply (bool_decide_unpack _); vm_compute; exact I]. generalize 1000%nat. intros n. induction n as [|n IH]; [apply moves_ret|].
  cbn [probe_disk1]. calm. destruct (_ =? _); [done|]. intros s <-. by eexists _, _.
Qed.

Lemma moves_timerinit m io u : moves timerinit (ready m io u) (ready (unmask m IRQ_TIMER) io u).
Proof. unfold timerinit. do 3 calm. apply moves_picenable. Qed.

(** The lines that [devinit] enables, with and without a serial port. *)
Definition lines (u : bool) : list Z := [IRQ_KBD] ++ (if u then [IRQ_COM1] else []) ++ [IRQ_IDE] ++ (if ismp then [] else [IRQ_TIMER]).
Definition routed (ver : Z) (u : bool) : ioapic :=
  let io := io_enable IRQ_KBD 0 (io_init ver (Ioapic 0 ∅)) in
  io_enable IRQ_IDE (ncpu - 1) (if u then io_enable IRQ_COM1 0 io else io).

Lemma devinit_view fuel ver : responds fuel -> (forall t, ioapic_ t REG_VER = ver) -> (forall t, lapic_ t VER = lver) ->
  exists t s' (u := negb (inb_ t (COM1 + 5) =? 255)),
    devinit inb_ lapic_ ioapic_ lapic ismp ncpu fuel hw0 = Ok tt s' /\ view_of s' = ready (foldl unmask 65531 (lines u)) (routed ver u) u.
Proof.
  intros Hr Hv Hlv. set (io := io_enable IRQ_KBD 0 (io_init ver (Ioapic 0 ∅))).
  assert (H1 : moves (lapicinit lapic_ lapic fuel ;;; picinit ;;; ioapicinit ioapic_ ismp ;;; consoleinit ismp) fresh (ready (unmask 65531 IRQ_KBD) io false)).
  { eapply moves_seq; [by apply moves_lapicinit|]. eapply moves_seq; [apply moves_picinit|]. eapply moves_seq; [by apply moves_ioapicinit|].
    eapply moves_seq; [apply moves_picenable|apply moves_ioapicenable]. }
  destruct (H1 hw0 eq_refl) as ([] & s1 & R1 & E1). destruct (uartinit_moves s1 _ _ E1) as (s2 & R2 & E2). set (u := negb (inb_ (now s1) (COM1 + 5) =? 255)) in *.
  assert (H3 : moves (ideinit inb_ ismp ncpu fuel ;;; (if negb ismp then timerinit else ret tt)) (after_uart u (unmask 65531 IRQ_KBD) io)
    (ready (foldl unmask 65531 (lines u)) (routed ver u) u)).
  { unfold lines, routed, after_uart. fold io. rewrite !foldl_app.
    destruct u; (eapply moves_seq; [by apply moves_ideinit|]); destruct ismp; cbn [negb]; first [apply moves_ret|apply moves_timerinit]. }
  destruct (H3 s2 E2) as ([] & s3 & R3 & E3). exists (now s1), s3. split; [|done].
  revert R1. unfold devinit, bind. destruct (lapicinit _ _ _ hw0) as [[] a|]; [|done]. destruct (picinit a) as [[] b|]; [|done].
  destruct (ioapicinit _ _ b) as [[] c|]; [|done]. intros ->. rewrite R2. exact R3.
Qed.

Lemma regs_enable irq cpu io i : ismp = true -> 0 <= irq < 16 ->
  regs (io_enable irq cpu io) !! (REG_TABLE + 2 * i) = if decide (i = irq) then Some (T_IRQ0 + irq) else regs io !! (REG_TABLE + 2 * i).
Proof.
  intros Hm Hq. unfold io_enable. rewrite Hm. unfold io_write. cbn [regs]. rewrite lookup_insert_ne by lia. case_decide as E.
  - subst i. rewrite lookup_insert_eq, u32_id; [done|]. unfold T_IRQ0. lia.
  - rewrite lookup_insert_ne by lia. done.
Qed.

Lemma regs_disable l : forall io i, Forall (fun j => 0 <= j < 256) l ->
  regs (foldl io_disable io l) !! (REG_TABLE + 2 * i) = if decide (i ∈ l) then Some (Z.lor INT_DISABLED (T_IRQ0 + i)) else regs io !! (REG_TABLE + 2 * i).
Proof.
  induction l as [|j l IH]; intros io i Hl; cbn [foldl]; [by rewrite decide_False by apply not_elem_of_nil|].
  apply Forall_cons in Hl as [Hj Hl]. rewrite IH by done. unfold io_disable, io_write. cbn [regs]. rewrite lookup_insert_ne by lia.
  destruct (decide (i ∈ l)) as [Hi|Hi]; [by rewrite decide_True by by right|]. destruct (decide (i = j)) as [->|Hne].
  - rewrite decide_True by left. rewrite lookup_insert_eq, u32_id; [done|]. assert (0 <= T_IRQ0 + j < 2 ^ 9) by (unfold T_IRQ0; lia).
    change INT_DISABLED with (2 ^ 16). split; [apply Z.lor_nonneg; lia|]. apply Z.log2_lt_pow2; [|rewrite Z.log2_lor by lia].
    + apply Z.le_neq. split; [apply Z.lor_nonneg; lia|]. intros E. symmetry in E. apply Z.lor_eq_0_iff in E as [E _]. done.
    + apply Z.max_lub_lt; [done|]. destruct (decide (T_IRQ0 + j = 0)) as [E|]; [unfold T_IRQ0 in E; lia|]. apply Z.log2_lt_pow2; lia.
  - rewrite decide_False by (rewrite elem_of_cons; tauto). rewrite lookup_insert_ne by lia. done.
Qed.

Lemma regs_routed ver u i : ismp = true -> 0 <= i <= maxintr ver ->
  regs (routed ver u) !! (REG_TABLE + 2 * i) = Some (if decide (i ∈ lines u) then T_IRQ0 + i else Z.lor INT_DISABLED (T_IRQ0 + i)).
Proof.
  intros Hm Hi. assert (Hx : maxintr ver <= 255). { unfold maxintr. change (Z.land (Z.shiftr ver 16) 255) with (Z.land (Z.shiftr ver 16) (Z.ones 8)). rewrite Z.land_ones by lia. change (2 ^ 8) with 256.
    pose proof (Z.mod_pos_bound (Z.shiftr ver 16) 256 ltac:(lia)). lia. }
  assert (H0 : regs (io_init ver (Ioapic 0 ∅)) !! (REG_TABLE + 2 * i) = Some (Z.lor INT_DISABLED (T_IRQ0 + i))).
  { unfold io_init. rewrite Hm, regs_disable. 2: { apply Forall_seqZ. lia. } rewrite decide_True by (apply elem_of_seqZ; lia). done. }
  unfold routed, lines. rewrite Hm. destruct u; rewrite !regs_enable by done; rewrite H0; unfold IRQ_IDE, IRQ_COM1, IRQ_KBD;
    repeat (case_decide; [subst|]); try done; set_solver.
Qed.

(** The interrupt lines that are delivered, and the vectors. *)
Definition open_lines (u : bool) : list Z := lines u ++ (if ismp then [] else [IRQ_SLAVE]).

Lemma pic_masks u i t : ismp = false -> 0 <= i < 16 -> pic_of IO_PIC1 t = v1 (ready (foldl unmask 65531 (lines u)) (Ioapic 0 ∅) u) ->
  pic_of IO_PIC2 t = v2 (ready (foldl unmask 65531 (lines u)) (Ioapic 0 ∅) u) ->
  delivers false t i = if decide (i ∈ open_lines u) then Some (T_IRQ0 + i) else None.
Proof.
  intros Hm Hi H1 H2. unfold delivers. set (f := fun i => let p := if i <? 8 then v1 (ready (foldl unmask 65531 (lines u)) (Ioapic 0 ∅) u) else v2 (ready (foldl unmask 65531 (lines u)) (Ioapic 0 ∅) u) in
    if Z.testbit (imr p) (i mod 8) then None else Some (vec p + i mod 8)).
  assert (H : Forall (fun i => f i = if decide (i ∈ open_lines u) then Some (T_IRQ0 + i) else None) (seqZ 0 16)).
  { apply (bool_decide_unpack _). unfold f, open_lines, lines. rewrite Hm. destruct u; vm_compute; exact I. }
  rewrite Forall_forall in H. rewrite <- (H i) by (apply elem_of_seqZ; lia). unfold f. destruct (i <? 8); by rewrite ?H1, ?H2.
Qed.

(** The local controller after [lapicinit]: it is on, delivers periodic timer
    interrupts and errors with the vectors of [trap], and has the other entries of
    its table masked. *)
Record lapic_ready (f : Z -> Z) : Prop := {
  lr_timer : lvt f TIMER = Some (T_IRQ0 + IRQ_TIMER);
  lr_periodic : Z.testbit (f TIMER) 17 = true;
  lr_count : f TICR = 10000000;
  lr_divide : f TDCR = 11;
  lr_error : lvt f ERROR = Some (T_IRQ0 + IRQ_ERROR);
  lr_masked : lvt f LINT0 = None /\ lvt f LINT1 = None /\ (4 <= lap_version lver -> lvt f PCINT = None);
  lr_on : Z.testbit (f SVR) 8 = true;
  lr_spurious : Z.land (f SVR) 255 = T_IRQ0 + IRQ_SPURIOUS;
  lr_priority : f TPR = 0
}.

Lemma lap_init_ready : lapic <> 0 -> lapic_ready (lap_init lver l0).
Proof.
  intros Hl. unfold lap_init. rewrite (proj2 (Z.eqb_neq _ _) Hl). cbv zeta.
  destruct (Z.leb_spec 4 (lap_version lver)); constructor; try (vm_compute; reflexivity).
  - split_and!; intros; vm_compute; reflexivity.
  - split_and!; [vm_compute; reflexivity..|lia].
Qed.

(** C36: devices are routed.  Let the disk and the local controller answer within
    [fuel] reads, and their version registers not change.  Then [devinit] ends.
    Of the sixteen interrupt lines, the I/O controller if [ismp], otherwise the
    two 8259As, deliver exactly those of the keyboard, the disk, the serial port
    (if its status does not read 0xFF when [uartinit] looks) and, without [ismp],
    the timer and the cascade of the second 8259A, line [i] with the vector
    [T_IRQ0 + i]; the others are masked.  The local controller, if [mpinit] found
    one, is enabled, issues periodic timer interrupts with [T_IRQ0 + IRQ_TIMER]
    and errors with [T_IRQ0 + IRQ_ERROR], accepts every priority and masks its
    pins, whatever the firmware had set; without one no register of it is
    written. *)
Theorem devinit_routes fuel ver : responds fuel -> (forall t, ioapic_ t REG_VER = ver) -> (forall t, lapic_ t VER = lver) ->
  exists s' t, devinit inb_ lapic_ ioapic_ lapic ismp ncpu fuel hw0 = Ok tt s' /\
    uart s' = negb (inb_ t (COM1 + 5) =? 255) /\
    (forall i, 0 <= i < 16 -> (ismp = true -> i <= maxintr ver) ->
      delivers ismp (tr s') i = if decide (i ∈ open_lines (uart s')) then Some (T_IRQ0 + i) else None) /\
    (if lapic =? 0 then lapic_of l0 (tr s') = l0 else lapic_ready (lapic_of l0 (tr s'))).
Proof.
  intros Hr Hv Hlv. destruct (devinit_view fuel ver Hr Hv Hlv) as (t & s' & R & E). cbn zeta in E. revert E.
  set (u := negb (inb_ t (COM1 + 5) =? 255)). intros E. exists s', t.
  pose proof (f_equal v1 E) as E1. pose proof (f_equal v2 E) as E2. pose proof (f_equal vio E) as Eio. pose proof (f_equal vuart E) as Eu.
  pose proof (f_equal vlap E) as El. change (lapic_of l0 (tr s') = lap_init lver l0) in El.
  change (ioapic_of (tr s') = routed ver u) in Eio. change (uart s' = u) in Eu. rewrite Eu, El.
  split; [done|]. split; [done|]. split.
  2: { destruct (Z.eqb_spec lapic 0) as [H0|H0]; [|by apply lap_init_ready]. unfold lap_init. by rewrite H0. }
  intros i Hi Hx. destruct (sumbool_of_bool ismp) as [Hm|Hm]; rewrite Hm.
  - unfold delivers. rewrite Eio, regs_routed; [|done|specialize (Hx Hm); lia]. unfold open_lines. rewrite Hm, app_nil_r. cbn [mbind option_bind].
    case_decide.
    + replace (Z.testbit (T_IRQ0 + i) 16) with false; [|symmetry; apply Z.bits_above_log2; [unfold T_IRQ0; lia|apply Z.log2_lt_pow2; unfold T_IRQ0; lia]].
      f_equal. change 255 with (Z.ones 8). rewrite Z.land_ones by lia. apply Z.mod_small. unfold T_IRQ0. lia.
    + by rewrite Z.lor_spec.
  - apply pic_masks; [done|lia|exact E1|exact E2].
Qed.

(** [trap] has a case for every line that is delivered (the second 8259A is no
    interrupt of its own): it calls the handlers and does not panic, whatever
    process runs. *)
Lemma delivered_handled {L} (ide kbd uart_ : M (sys L) unit) (cpu : nat) proc cs addr u i s :
  (forall k, exists k', ide k = Ok tt k') -> (forall k, exists k', kbd k = Ok tt k') -> (forall k, exists k', uart_ k = Ok tt k') -> i ∈ lines u ->
  exists s', dispatch ide kbd uart_ cpu proc (Frame (T_IRQ0 + i) cs addr) s = Ok tt s'.
Proof.
  intros H1 H2 H3 Hi. assert (Hc : i = IRQ_KBD \/ i = IRQ_COM1 \/ i = IRQ_IDE \/ i = IRQ_TIMER) by (unfold lines in Hi; destruct u, ismp; set_solver).
  destruct Hc as [->|[->|[->| ->]]].
  - destruct (H2 (t_sys s)) as [k E]. exists (Tsys k (ticks s)). change (in_t kbd s = Ok tt (Tsys k (ticks s))). unfold in_t. by rewrite E.
  - destruct (H3 (t_sys s)) as [k E]. exists (Tsys k (ticks s)). change (in_t uart_ s = Ok tt (Tsys k (ticks s))). unfold in_t. by rewrite E.
  - destruct (H1 (t_sys s)) as [k E]. exists (Tsys k (ticks s)). change (in_t ide s = Ok tt (Tsys k (ticks s))). unfold in_t. by rewrite E.
  - unfold dispatch. cbn [fr_trapno]. rewrite Z.eqb_refl. unfold timer. case_decide; by eexists.
Qed.

(** It has none for the error interrupt that [lapicinit] routes to [IRQ_ERROR]:
    an error of the local controller while the kernel runs is a panic. *)
Lemma error_vector_panics {L} (ide kbd uart_ : M (sys L) unit) (cpu : nat) proc addr s :
  dispatch ide kbd uart_ cpu proc (Frame (T_IRQ0 + IRQ_ERROR) 0 addr) s = Stop (Panic "trap") s.
Proof. by destruct proc. Qed.
End Proofs.

(** Two machines whose devices answer at once, with and without controllers for
    several processors. *)
Definition tame_inb (t : nat) (port : Z) : Z := if port =? 503 then 80 else 32.
Lemma devinit_routes_witness :
  (exists s', devinit tame_inb (fun _ _ => 0) (fun _ _ => 1507328) 4276092928 true 2 1 hw0 = Ok tt s' /\
    delivers true (tr s') IRQ_KBD = Some 33 /\ delivers true (tr s') IRQ_COM1 = Some 36 /\
    lvt (lapic_of (fun _ => 7) (tr s')) TIMER = Some 32) /\
  (exists s', devinit tame_inb (fun _ _ => 0) (fun _ _ => 0) 0 false 1 1 hw0 = Ok tt s' /\
    delivers false (tr s') IRQ_KBD = Some 33 /\ delivers false (tr s') IRQ_TIMER = Some 32).
Proof.
  assert (Hr : responds tame_inb (fun _ _ => 0) 1) by (intros k; split; exists k; (split; [lia|done])).
  split.
  - destruct (devinit_routes (fun _ => 7) tame_inb (fun _ _ => 0) (fun _ _ => 1507328) 4276092928 true 2 0 1 1507328 Hr ltac:(done) ltac:(done))
      as (s' & t & R & U & D & Rd).
    exists s'. split; [exact R|]. replace (uart s') with true in D by (rewrite U; reflexivity). clear R U.
    split; [|split; [|exact (lr_timer _ _ Rd)]];
      (rewrite D; [clear; reflexivity|clear; vm_compute; split; congruence|intros _; clear; vm_compute; congruence]).
  - destruct (devinit_routes (fun _ => 7) tame_inb (fun _ _ => 0) (fun _ _ => 0) 0 false 1 0 1 0 Hr ltac:(done) ltac:(done))
      as (s' & t & R & U & D & _).
    exists s'. split; [exact R|]. split; (rewrite D; [clear; destruct (uart s'); reflexivity|clear; vm_compute; split; congruence|intros X; discriminate X]).
Defined.
End Irq.

(** ** The clock *)

Definition CMOS_UIP : Z := 128.

(** The registers of the clock chip. *)
Inductive cmosreg := CMOS_STATA | CMOS_STATB | SECS | MINS | HOURS | DAY | MONTH | YEAR.
Definition cmos_index (r : cmosreg) : Z :=
  match r with CMOS_STATA => 10 | CMOS_STATB => 11 | SECS => 0 | MINS => 2 | HOURS => 4 | DAY => 7 | MONTH => 8 | YEAR => 9 end.
Coercion cmos_index : cmosreg >-> Z.

Record rtcdate := Rtc { second : Z; minute : Z; hour : Z; day : Z; month : Z; year : Z }.
#[export] Instance rtcdate_eq_dec : EqDecision rtcdate.
Proof. solve_decision. Defined.

Module Clock.
Section Cmos.
(** The value of every register at the time of the [k]th read since the machine
    started; the state is the number of reads. *)
Context (cmos : nat -> Z -> Z).

Definition cmos_read (reg : Z) : M nat Z := fun k => Ok (cmos k reg) (S k).

Definition fill_rtcdate : M nat rtcdate :=
  let! s := cmos_read SECS in let! m := cmos_read MINS in let! h := cmos_read HOURS in
  let! d := cmos_read DAY in let! mo := cmos_read MONTH in let! y := cmos_read YEAR in
  ret (Rtc s m h d mo y).

Fixpoint cmos_loop (fuel : nat) : M nat rtcdate :=
  match fuel with
  | O => halt OutOfFuel
  | S fuel =>
      let! t1 := fill_rtcdate in
      let! a := cmos_read CMOS_STATA in
      if negb (Z.land a CMOS_UIP =? 0) then cmos_loop fuel else
      let! t2 := fill_rtcdate in
      if decide (t1 = t2) then ret t1 else cmos_loop fuel
  end.

Definition CONV (x : Z) : Z := Z.shiftr x 4 * 10 + Z.land x 15.

Definition cmostime (fuel : nat) : M nat rtcdate :=
  let! sb := cmos_read CMOS_STATB in
  let! t1 := cmos_loop fuel in
  let t1 := if Z.land sb 4 =? 0 then Rtc (CONV (second t1)) (CONV (minute t1)) (CONV (hour t1)) (CONV (day t1)) (CONV (month t1)) (CONV (year t1)) else t1 in
  ret (Rtc (second t1) (minute t1) (hour t1) (day t1) (month t1) (year t1 + 2000)).

(** The date that the clock shows at a time. *)
Definition shown (k : nat) : rtcdate := Rtc (cmos k SECS) (cmos k MINS) (cmos k HOURS) (cmos k DAY) (cmos k MONTH) (cmos k YEAR).

(** During the 13 reads of one attempt the date changes once at most. *)
Definition slow : Prop := forall k, exists j, (forall i, k <= i < j -> shown i = shown k)%nat /\ (forall i, j <= i <= k + 12 -> shown i = shown (k + 12))%nat.
(** For long enough from [q] on it does not change and is not being updated. *)
Definition quiet (q : nat) : Prop := forall i, (q <= i < q + 26)%nat -> shown i = shown q /\ Z.land (cmos i CMOS_STATA) CMOS_UIP = 0.

(** What one pass over the registers reads. *)
Definition torn (k : nat) : rtcdate :=
  Rtc (second (shown k)) (minute (shown (k + 1))) (hour (shown (k + 2))) (day (shown (k + 3))) (month (shown (k + 4))) (year (shown (k + 5))).

Lemma fill_reads k : fill_rtcdate k = Ok (torn k) (k + 6)%nat.
Proof. unfold fill_rtcdate, bind, cmos_read, ret, torn. cbn. by replace (k + 6)%nat with (S (S (S (S (S (S k)))))) by lia; rewrite !(Nat.add_comm k). Qed.

Lemma torn_steady k d : (forall i, k <= i <= k + 5 -> shown i = d)%nat -> torn k = d.
Proof. intros H. unfold torn. rewrite !H by lia. by destruct d. Qed.

(** Two equal passes have read a date that the clock showed. *)
Lemma passes_agree k : slow -> torn k = torn (k + 7) -> exists i, (k <= i <= k + 12)%nat /\ torn k = shown i.
Proof.
  intros Hs E. destruct (Hs k) as (j & H1 & H2). destruct (decide (j <= k + 7)%nat).
  - exists (k + 12)%nat. split; [lia|]. rewrite E. apply torn_steady. intros i Hi. apply H2. lia.
  - exists k. split; [lia|]. apply torn_steady. intros i Hi. apply H1. lia.
Qed.

Lemma cmos_loop_reads q : slow -> quiet q -> forall fuel k, (k <= q + 12)%nat -> (q + 13 <= k + 7 * fuel)%nat ->
  exists i k', cmos_loop fuel k = Ok (shown i) k' /\ (k <= i < k')%nat.
Proof.
  intros Hs Hq. induction fuel as [|fuel IH]; intros k Hk Hf; [lia|]. cbn [cmos_loop].
  rewrite (bind_Ok _ _ _ _ _ (fill_reads k)). unfold bind at 1, cmos_read at 1.
  destruct (Z.land (cmos (k + 6) CMOS_STATA) CMOS_UIP =? 0) eqn:U; cbn [negb].
  - change (S (k + 6)) with (S k + 6)%nat. replace (S k + 6)%nat with (k + 7)%nat by lia. rewrite (bind_Ok _ _ _ _ _ (fill_reads (k + 7))).
    destruct (decide (torn k = torn (k + 7))) as [E|E].
    + destruct (passes_agree k Hs E) as (i & Hi & ->). exists i, (k + 7 + 6)%nat. split; [done|lia].
    + assert (k < q)%nat.
      { destruct (decide (q <= k)%nat); [|lia]. destruct E. rewrite !(torn_steady _ (shown q)); [done|intros; apply Hq; lia..]. }
      destruct (IH (k + 7 + 6)%nat) as (i & k' & R & Hi); [lia..|]. exists i, k'. split; [done|lia].
  - assert (k < q)%nat.
    { destruct (decide (q <= k)%nat); [|lia]. destruct (Hq (k + 6)%nat) as [_ Z0]; [lia|]. rewrite Z0 in U. done. }
    destruct (IH (S (k + 6))) as (i & k' & R & Hi); [lia..|]. exists i, k'. split; [done|lia].
Qed.

(** How the chip writes a number below 100. *)
Definition chip (bcd : bool) (x : Z) : Z := if bcd then 16 * (x / 10) + x mod 10 else x.
Definition chip_date (bcd : bool) (d : rtcdate) : rtcdate :=
  Rtc (chip bcd (second d)) (chip bcd (minute d)) (chip bcd (hour d)) (chip bcd (day d)) (chip bcd (month d)) (chip bcd (year d)).
Definition in_2000 (d : rtcdate) : rtcdate := Rtc (second d) (minute d) (hour d) (day d) (month d) (2000 + year d).

Lemma conv_chip x : 0 <= x < 100 -> CONV (chip true x) = x.
Proof.
  intros H. unfold CONV, chip. change 15 with (Z.ones 4). rewrite Z.land_ones, Z.shiftr_div_pow2 by lia. change (2 ^ 4) with 16.
  Z.div_mod_to_equations. lia.
Qed.

(** [cmostime] returns a date that the clock showed while it ran, and does return
    once the clock has a quiet moment. *)
Lemma cmostime_tells date bcd q fuel k : (forall i, shown i = chip_date bcd (date i)) ->
  (forall i, Forall (fun x => 0 <= x < 100) [second (date i); minute (date i); hour (date i); day (date i); month (date i); year (date i)]) ->
  (Z.land (cmos k CMOS_STATB) 4 =? 0) = bcd -> slow -> quiet q -> (k < q + 12)%nat -> (q + 12 <= k + 7 * fuel)%nat ->
  exists i k', cmostime fuel k = Ok (in_2000 (date i)) k' /\ (k < i < k')%nat.
Proof.
  intros Hd Hr Hb Hs Hq Hk Hf. destruct (cmos_loop_reads q Hs Hq fuel (S k)) as (i & k' & R & Hi); [lia..|].
  exists i, k'. split; [|lia]. unfold cmostime. unfold bind at 1, cmos_read at 1. rewrite (bind_Ok _ _ _ _ _ R), Hb, Hd.
  specialize (Hr i). unfold chip_date, in_2000. destruct bcd; cbn [second minute hour day month year].
  - apply Forall_cons in Hr as [? Hr]. do 5 (let H := fresh in apply Forall_cons in Hr as [H Hr]). rewrite !conv_chip by done. unfold ret. do 2 f_equal. lia.
  - unfold ret, chip. do 2 f_equal. lia.
Qed.
End Cmos.

(** Midnight of a new year, while the kernel reads the clock. *)
Definition new_year (k : nat) : rtcdate := if decide (k < 4)%nat then Rtc 59 59 23 31 12 23 else Rtc 0 0 0 1 1 24.
Definition new_year_chip (k : nat) (reg : Z) : Z :=
  if reg =? CMOS_STATA then (if decide (k = 3)%nat then 128 else 0) else if reg =? CMOS_STATB then 2 else
  let d := chip_date true (new_year k) in
  if reg =? SECS then second d else if reg =? MINS then minute d else if reg =? HOURS then hour d else
  if reg =? DAY then day d else if reg =? MONTH then month d else year d.

Lemma cmostime_tells_witness : exists i k', cmostime new_year_chip 4 0%nat = Ok (in_2000 (new_year i)) k' /\ (0 < i < k')%nat.
Proof.
  assert (Hs : forall i, shown new_year_chip i = chip_date true (new_year i)) by done.
  apply (cmostime_tells new_year_chip new_year true 4 4 0%nat); [done| |done| | |lia..].
  - intros i. unfold new_year. case_decide; repeat constructor; cbn; lia.
  - intros k. destruct (decide (k < 4)%nat).
    + exists 4%nat. split; intros i Hi; rewrite !Hs; unfold new_year; repeat case_decide; done || lia.
    + exists k. split; intros i Hi; [lia|]. rewrite !Hs; unfold new_year; repeat case_decide; done || lia.
  - intros i Hi. split; [rewrite !Hs; unfold new_year; repeat case_decide; done || lia|].
    unfold new_year_chip. cbn. case_decide; [lia|done].
Defined.
End Clock.
