(* ===== verification/Crpfs.v ===== *)
(** * Crpfs: damaging an image on purpose (crpfs.c)

    The program that flips bits of the files of an image, to try the checksums
    out.  The theorems say what it damages, that it counts the bits it flips, and
    that the checksum of the file system shows every damage of an odd number of
    bits.  The host's [rand] is a sequence of numbers. *)

From S2P Require Import Prelude Layout Block Log FsBlock FsInode FsDir FsFile FsWrite FsLock FsDemo Mkfs.
Open Scope Z_scope.
Open Scope xv6_scope.

(** The image and the numbers drawn so far. *)
Record crp := Crp { cimg : img; drawn : nat }.
Definition in_img {A} (c : M img A) : M crp A := fun s =>
  match c (cimg s) with Ok a i => Ok a (Crp i (drawn s)) | Stop r i => Stop r (Crp i (drawn s)) end.

Section Crpfs.
Context (rand_ : nat -> Z).

(** The image is accessed with the functions that mkfs.c has too. *)
Definition rsect (sec : Z) : M crp (list Z) := in_img (Mkfs.rsect sec).
Definition wsect (sec : Z) (buf : list Z) : M crp unit := in_img (Mkfs.wsect sec buf).
Definition i2b (inum : Z) : Z := inum / IPB + 2.
Definition winode (inum : Z) (d : dinode) : M crp unit :=
  let! buf := rsect (i2b inum) in
  wsect (i2b inum) (put_dinode buf inum d).
Definition rinode (inum : Z) : M crp dinode :=
  let! buf := rsect (i2b inum) in
  ret (get_dinode buf inum).

Definition rand : M crp Z := fun s => Ok (rand_ (drawn s)) (Crp (cimg s) (S (drawn s))).

Definition toss (p : Z) : M crp bool :=
  let! r := rand in
  if p =? 0 then halt (Undefined "division by zero") else ret (Z.rem r p =? 0).

(** The inner loop of [set_bits], over the bits [js]: the byte and the count. *)
Fixpoint set_byte (pct : Z) (js : list Z) (b counter : Z) : M crp (Z * Z) :=
  match js with
  | [] => ret (b, counter)
  | j :: js =>
      let! t := toss pct in
      if t : bool then set_byte pct js (u8 (Z.lxor b (Z.shiftl 1 j))) (counter + 1) else set_byte pct js b counter
  end.

(** [set_bits]: the buffer and the count. *)
Fixpoint set_bits (cbuf : list Z) (n : nat) (pct counter : Z) {struct n} : M crp (list Z * Z) :=
  match n, cbuf with
  | O, _ => ret (cbuf, counter)
  | S n, b :: cbuf =>
      let! r := set_byte pct (seqZ 0 8) b counter in
      let! rest := set_bits cbuf n pct (snd r) in
      ret (fst r :: fst rest, snd rest)
  | S _, [] => halt (Undefined "past the buffer")
  end.

(** The sector of file block [fbn]. *)
Definition corrupt_block (din : dinode) (fbn : Z) : M crp Z :=
  if fbn <? NDIRECT then ret (direct din fbn)
  else let! indirect := rsect (direct din NDIRECT) in ret (get_word indirect (fbn - NDIRECT)).

Fixpoint corrupt_loop (fuel : nat) (din : dinode) (n pct tot off counter : Z) : M crp Z :=
  if n <=? tot then ret counter else
  match fuel with
  | O => halt OutOfFuel
  | S fuel =>
      let fbn := off / 512 in
      if negb (fbn <? MAXFILE) then panic "fbn < MAXFILE" else
      let! x := corrupt_block din fbn in
      let m := Z.min n ((fbn + 1) * 512 - off) in
      let! buf := rsect x in
      let! r := set_bits buf (Z.to_nat m) pct 0 in
      wsect x (fst r) ;;;
      corrupt_loop fuel din n pct (tot + m) (off + m) (counter + snd r)
  end.

Definition corrupt (inum n pct : Z) : M crp Z :=
  let! din := rinode inum in
  let! counter := corrupt_loop (Z.to_nat (MAXFILE + 1)) din n pct 0 0 0 in
  winode inum din ;;;
  ret counter.

(** [main], on the numbers its arguments stand for: the counts it prints. *)
Fixpoint main (inums : list Z) (pct : Z) : M crp (list Z) :=
  match inums with
  | [] => ret []
  | inum :: inums =>
      let! din := rinode inum in
      let! c := corrupt inum (di_size din) pct in
      let! cs := main inums pct in
      ret (c :: cs)
  end.
End Crpfs.

(** ** Counting bits *)

(** The bits in which two bytes, and two strings of bytes, differ. *)
Definition diff (b b' : Z) : nat := length (filter (fun j => Z.testbit b j <> Z.testbit b' j) (seqZ 0 8)).
Definition flips (l l' : list Z) : nat := sum_list (zip_with diff l l').

(** Whether a number has an odd number of its first [w] bits set. *)
Definition odd_bits (w : Z) (z : Z) : bool := foldr xorb false (Z.testbit z <$> seqZ 0 w).
Definition odd_all (l : list Z) : bool := foldr xorb false (odd_bits 8 <$> l).

Lemma odd_bits_lxor w a b : odd_bits w (Z.lxor a b) = xorb (odd_bits w a) (odd_bits w b).
Proof.
  unfold odd_bits. induction (seqZ 0 w) as [|j l IH]; [done|]. cbn [fmap list_fmap foldr] in *. rewrite IH, Z.lxor_spec.
  generalize (foldr xorb false (Z.testbit a <$> l)) (foldr xorb false (Z.testbit b <$> l)). intros [] []; by destruct (Z.testbit a j), (Z.testbit b j).
Qed.

Lemma foldr_xorb_app l1 l2 : foldr xorb false (l1 ++ l2) = xorb (foldr xorb false l1) (foldr xorb false l2).
Proof. induction l1 as [|x l1 IH]; cbn; [by destruct (foldr _ _ _)|]. by rewrite IH, xorb_assoc. Qed.

Lemma odd_all_app l1 l2 : odd_all (l1 ++ l2) = xorb (odd_all l1) (odd_all l2).
Proof. unfold odd_all. by rewrite fmap_app, foldr_xorb_app. Qed.

Lemma odd_bits_0 w : odd_bits w 0 = false.
Proof. unfold odd_bits. induction (seqZ 0 w) as [|j l IH]; cbn; [done|]. by rewrite IH, Z.bits_0. Qed.

Lemma odd_bits_byte w b r : 0 <= w -> is_u8 b -> odd_bits (8 + w) (b + 256 * r) = xorb (odd_bits 8 b) (odd_bits w r).
Proof.
  intros Hw Hb. unfold odd_bits. rewrite seqZ_app by lia. rewrite fmap_app, foldr_xorb_app. f_equal; f_equal.
  - apply list_fmap_ext. intros k j [-> Hj]%lookup_seqZ. change 256 with (2 ^ 8). rewrite <- Z.mod_pow2_bits_low with (n := 8) by lia.
    rewrite (Z.mul_comm (2 ^ 8)), Z_mod_plus_full, Z.mod_pow2_bits_low by lia. done.
  - rewrite Z.add_0_l, <- (Z.add_0_r 8), <- (fmap_add_seqZ 8 0 w), <- list_fmap_compose. apply list_fmap_ext. intros k j [-> Hj]%lookup_seqZ. unfold compose.
    rewrite ?Z.add_0_r, (Z.add_comm 8), <- Z.div_pow2_bits by lia. f_equal. change (2 ^ 8) with 256. rewrite (Z.mul_comm 256), Z.div_add by lia.
    rewrite Z.div_small by apply Hb. done.
Qed.

Lemma odd_le_val l : Forall is_u8 l -> forall n, (length l <= n)%nat -> odd_bits (8 * Z.of_nat n) (le_val l) = odd_all l.
Proof.
  induction 1 as [|b l Hb Hl IH]; intros n Hn; [apply odd_bits_0|]. destruct n as [|n]; [cbn in Hn; lia|].
  cbn [le_val]. replace (8 * Z.of_nat (S n)) with (8 + 8 * Z.of_nat n) by lia. rewrite odd_bits_byte by (lia || done).
  rewrite IH by (cbn in Hn; lia). done.
Qed.

Lemma odd_xsum bs n : Forall is_u8 bs -> odd_bits 32 (xsum bs (Z.of_nat n)) = odd_all (take (4 * n) bs).
Proof.
  intros Hb. induction n as [|n IH]; [apply odd_bits_0|]. replace (Z.of_nat (S n)) with (Z.of_nat n + 1) by lia.
  rewrite xsum_add by lia. change (seqZ (Z.of_nat n) 1) with [Z.of_nat n]. cbn [fmap list_fmap foldr]. rewrite Z.lxor_0_r, odd_bits_lxor, IH.
  replace (4 * S n)%nat with (4 * n + 4)%nat by lia. rewrite <- take_take_drop, odd_all_app. f_equal. unfold get_word, sub_bytes.
  replace (Z.to_nat (4 * Z.of_nat n)) with (4 * n)%nat by lia. apply (odd_le_val _ (Forall_take _ _ _ (Forall_drop _ _ _ Hb)) 4). rewrite length_take. lia.
Qed.

Lemma odd_checksum bs : Forall is_u8 bs -> odd_bits 32 (checksum_of bs) = odd_all bs.
Proof.
  intros Hb. rewrite <- (xsum_end bs (Z.of_nat (length bs))) by (Z.div_mod_to_equations; lia).
  rewrite odd_xsum by done. by rewrite take_ge by lia.
Qed.

Lemma odd_diff b b' : Nat.odd (diff b b') = xorb (odd_bits 8 b) (odd_bits 8 b').
Proof.
  unfold diff, odd_bits. induction (seqZ 0 8) as [|j l IH]; [done|]. cbn [fmap list_fmap foldr]. rewrite filter_cons.
  case_decide as E; cbn [length]; rewrite ?Nat.odd_succ, <- ?Nat.negb_odd, IH; destruct (Z.testbit b j), (Z.testbit b' j), (foldr _ _ _), (foldr _ _ _); done.
Qed.

Lemma flips_cons b b' l l' : flips (b :: l) (b' :: l') = (diff b b' + flips l l')%nat.
Proof. done. Qed.

Lemma odd_flips l : forall l', length l = length l' -> Nat.odd (flips l l') = xorb (odd_all l) (odd_all l').
Proof.
  induction l as [|b l IH]; intros [|b' l'] Hl; try done. rewrite flips_cons, Nat.odd_add, odd_diff, IH by (cbn in Hl; lia).
  unfold odd_all. cbn [fmap list_fmap foldr]. generalize (foldr xorb false (odd_bits 8 <$> l)) (foldr xorb false (odd_bits 8 <$> l')).
  intros [] []; by destruct (odd_bits 8 b), (odd_bits 8 b').
Qed.

(** An odd number of flipped bits changes the checksum. *)
Lemma checksum_odd_flips bs bs' : Forall is_u8 bs -> Forall is_u8 bs' -> length bs = length bs' -> Nat.odd (flips bs bs') = true ->
  checksum_of bs <> checksum_of bs'.
Proof.
  intros H H' Hl Ho E. rewrite odd_flips in Ho by done. rewrite <- (odd_checksum bs), <- (odd_checksum bs'), E in Ho by done.
  by rewrite xorb_nilpotent in Ho.
Qed.

Lemma diff_same b : diff b b = 0%nat.
Proof. unfold diff. induction (seqZ 0 8) as [|j l IH]; [done|]. rewrite filter_cons, decide_False by tauto. done. Qed.
Lemma flips_same l : flips l l = 0%nat.
Proof. induction l as [|b l IH]; [done|]. by rewrite flips_cons, diff_same. Qed.
Lemma flips_app l1 l2 : forall l1' l2', length l1 = length l1' -> flips (l1 ++ l2) (l1' ++ l2') = (flips l1 l1' + flips l2 l2')%nat.
Proof.
  induction l1 as [|b l1 IH]; intros [|b' l1'] l2' Hl; try done. cbn [app]. rewrite !flips_cons, IH by (cbn in Hl; lia). lia.
Qed.

(** ** Flipping bits *)

Lemma filter_on {A} (P Q : A -> Prop) `{!forall x, Decision (P x), !forall x, Decision (Q x)} l : Forall (fun x => P x <-> Q x) l -> filter P l = filter Q l.
Proof. induction 1 as [|x l Hx _ IH]; [done|]. rewrite !filter_cons, IH. repeat case_decide; tauto || done. Qed.

Section Flip.
Context (rand_ : nat -> Z) (pct : Z) (Hp : pct <> 0).

Lemma toss_Ok s : exists t, toss rand_ pct s = Ok t (Crp (cimg s) (S (drawn s))).
Proof. unfold toss, bind, rand. rewrite (proj2 (Z.eqb_neq _ _)) by done. by eexists. Qed.

Lemma lxor_byte b j : is_u8 b -> 0 <= j < 8 -> u8 (Z.lxor b (Z.shiftl 1 j)) = Z.lxor b (Z.shiftl 1 j).
Proof.
  intros Hb Hj. unfold u8. rewrite <- Z.land_ones by lia. apply Z.bits_inj'. intros k Hk. rewrite Z.land_spec, Z.lxor_spec.
  destruct (decide (k < 8)); [by rewrite Z.ones_spec_low, andb_true_r by lia|]. rewrite Z.ones_spec_high, andb_false_r by lia.
  rewrite Z.shiftl_1_l, Z.pow2_bits_false by lia. destruct (decide (b = 0)) as [->|]; [by rewrite Z.bits_0|].
  rewrite Z.bits_above_log2; [done|apply Hb|]. assert (Z.log2 b < 8) by (apply Z.log2_lt_pow2; unfold is_u8 in Hb; lia). lia.
Qed.

Lemma set_byte_Ok js : NoDup js -> Forall (fun j => 0 <= j < 8) js -> forall b c s, is_u8 b ->
  exists b' n, set_byte rand_ pct js b c s = Ok (b', c + Z.of_nat (length (filter (fun j => Z.testbit b j <> Z.testbit b' j) js))) (Crp (cimg s) n) /\
    is_u8 b' /\ forall j, 0 <= j -> j ∉ js -> Z.testbit b' j = Z.testbit b j.
Proof.
  induction 1 as [|j js Hj ND IH]; intros Hr b c s Hb; [exists b, (drawn s); cbn; rewrite Z.add_0_r; by destruct s|].
  apply Forall_cons in Hr as [Hj8 Hr]. cbn [set_byte]. destruct (toss_Ok s) as [t R]. rewrite (bind_Ok _ _ _ _ _ R). destruct t.
  - rewrite lxor_byte by done. set (b1 := Z.lxor b (Z.shiftl 1 j)). assert (H1 : is_u8 b1). { unfold b1. rewrite <- lxor_byte by done. unfold u8, is_u8. apply Z.mod_pos_bound. lia. }
    assert (Hb1 : forall k, 0 <= k -> Z.testbit b1 k = xorb (Z.testbit b k) (bool_decide (k = j))).
    { intros k Hk. unfold b1. rewrite Z.lxor_spec, Z.shiftl_1_l, Z.pow2_bits_eqb by lia. f_equal. case_bool_decide as E; [subst; apply Z.eqb_refl|]. apply Z.eqb_neq. congruence. }
    destruct (IH Hr b1 (c + 1) (Crp (cimg s) (S (drawn s))) H1) as (b' & n & E & Hb' & Ho). exists b', n. split_and!; [|done|].
    + rewrite E. do 2 f_equal. rewrite filter_cons, decide_True.
      2: { rewrite (Ho j) by (done || lia). rewrite Hb1, bool_decide_eq_true_2 by (done || lia). by destruct (Z.testbit b j). }
      cbn [length]. replace (filter (fun k => Z.testbit b k <> Z.testbit b' k) js) with (filter (fun k => Z.testbit b1 k <> Z.testbit b' k) js); [lia|].
      apply filter_on. rewrite Forall_forall in *. intros k Hk. rewrite Hb1, bool_decide_eq_false_2, xorb_false_r; [done| |by apply Hr]. congruence.
    + intros k Hk Hn. apply not_elem_of_cons in Hn as [Hne Hn]. rewrite Ho, Hb1, bool_decide_eq_false_2, xorb_false_r by done. done.
  - destruct (IH Hr b c (Crp (cimg s) (S (drawn s))) Hb) as (b' & n & E & Hb' & Ho). exists b', n. split_and!; [|done|].
    + rewrite E. do 2 f_equal. rewrite filter_cons, decide_False; [done|]. rewrite (Ho j) by (done || lia). tauto.
    + intros k Hk Hn. apply not_elem_of_cons in Hn as [Hne Hn]. by apply Ho.
Qed.

(** [set_bits] changes the first [n] bytes and counts what it changes. *)
Lemma set_bits_Ok n : forall cbuf c s, (n <= length cbuf)%nat -> Forall is_u8 cbuf ->
  exists buf' k, set_bits rand_ cbuf n pct c s = Ok (buf', c + Z.of_nat (flips cbuf buf')) (Crp (cimg s) k) /\
    length buf' = length cbuf /\ Forall is_u8 buf' /\ drop n buf' = drop n cbuf.
Proof.
  induction n as [|n IH]; intros cbuf c s Hn Hb.
  - exists cbuf, (drawn s). cbn [set_bits]. rewrite flips_same, Z.add_0_r. destruct s. split_and!; done.
  - destruct cbuf as [|b cbuf]; [cbn in Hn; lia|]. apply Forall_cons in Hb as [Hb Hbs]. cbn [set_bits].
    destruct (set_byte_Ok (seqZ 0 8)) with (b := b) (c := c) (s := s) as (b' & k & R & Hb' & _); [apply NoDup_seqZ|apply Forall_seqZ; lia|done|].
    rewrite (bind_Ok _ _ _ _ _ R). destruct (IH cbuf (c + Z.of_nat (diff b b')) (Crp (cimg s) k)) as (buf' & k' & R' & Hl & Hu & Hd); [cbn in Hn; lia|done|].
    rewrite (bind_Ok _ _ _ _ _ R'). exists (b' :: buf'), k'. cbn [fst snd drop length]. rewrite flips_cons. split_and!; [|lia|by constructor|done].
    unfold ret. do 2 f_equal. lia.
Qed.
End Flip.

(** ** Damaging a file *)

Section Damage.
Context (rand_ : nat -> Z) (pct : Z) (Hp : pct <> 0).
(** The image before, and a file of it. *)
Context (sb : superblock) (v : Z -> list Z) (d : dinode) (inum : Z).
Context (G : fs_geometry v sb) (F : file_ok sb v d) (Hv : forall x, wf_block (v x)).
Context (Hi : 0 <= inum < sb_ninodes sb) (Hd : get_dinode (v (i2b inum)) inum = d).
Let addr (bn : Z) : Z := file_addr v d bn.
Let K : Z := (di_size d + 511) / 512.

(** The first [k] blocks of the file have been damaged, in [c] bits. *)
Record damaged (k : Z) (s : crp) (c : Z) : Prop := {
  dm_len : nsect (cimg s) = FSSIZE;
  dm_wf : forall x, wf_block (sects (cimg s) x);
  dm_other : forall x, (forall bn, 0 <= bn < k -> x <> addr bn) -> sects (cimg s) x = v x;
  dm_tail : forall bn, 0 <= bn < k -> drop (Z.to_nat (Z.min (di_size d) 512)) (sects (cimg s) (addr bn)) = drop (Z.to_nat (Z.min (di_size d) 512)) (v (addr bn));
  dm_count : c = Z.of_nat (sum_list ((fun bn => flips (v (addr bn)) (sects (cimg s) (addr bn))) <$> seqZ 0 k))
}.

Lemma size_range : 0 <= di_size d <= MAXFILE * 512.
Proof. split; [destruct (fo_wf _ _ _ F) as (_&_&_&_&[? _]&_); done|apply F]. Qed.

Lemma K_range : 0 <= K <= MAXFILE.
Proof. pose proof size_range. unfold K, MAXFILE, NDIRECT, NINDIRECT in *. split; [apply Z.div_pos; lia|apply Z.lt_succ_r, Z.div_lt_upper_bound; lia]. Qed.

Lemma K_spec k : 0 <= k -> k < K <-> k * 512 < di_size d.
Proof. intros Hk. unfold K. split; intros H; Z.div_mod_to_equations; lia. Qed.

Lemma K_end : di_size d <= K * Z.min (di_size d) 512.
Proof.
  pose proof size_range. pose proof K_range. pose proof (K_spec K ltac:(lia)). destruct (decide (di_size d <= 512)); [|rewrite Z.min_r by lia; lia].
  rewrite Z.min_l by lia. destruct (decide (di_size d = 0)) as [->|]; [lia|]. assert (1 <= K) by (apply Z.div_le_lower_bound; lia). nia.
Qed.

Lemma addr_data k : 0 <= k < K -> addr k <> 0 /\ bm sb < addr k < LOGSTART.
Proof.
  intros Hk. pose proof K_range. assert (Hn : addr k <> 0) by (apply (fo_full _ _ _ F); [lia|apply K_spec; lia]). split; [done|].
  destruct (fo_data _ _ _ F (addr k)) as [? _]; [|lia]. split; [done|]. right. exists k. split; [lia|done].
Qed.

Lemma rsect_at s x : nsect (cimg s) = FSSIZE -> 0 <= x < FSSIZE -> rsect x s = Ok (sects (cimg s) x) s.
Proof.
  intros Hn Hx. unfold rsect, in_img, Mkfs.rsect, bind, gets. unfold id. rewrite Hn, (proj2 (Z.leb_le _ _)), (proj2 (Z.ltb_lt _ _)) by lia.
  cbn [andb]. by destruct s.
Qed.

Lemma wsect_at s x buf : nsect (cimg s) = FSSIZE -> 0 <= x < FSSIZE ->
  exists s', wsect x buf s = Ok tt s' /\ nsect (cimg s') = FSSIZE /\ sects (cimg s') = upd_view x buf (sects (cimg s)).
Proof. intros Hn Hx. eexists. split; [done|]. cbn. split; [lia|done]. Qed.

Lemma corrupt_block_Ok k s c : damaged k s c -> 0 <= k < K -> corrupt_block d k s = Ok (addr k) s.
Proof.
  intros D Hk. pose proof K_range. unfold corrupt_block, addr, file_addr. destruct (Z.ltb_spec k NDIRECT); [done|].
  destruct (addr_data k Hk) as [Hn _]. unfold addr, file_addr in Hn. rewrite (proj2 (Z.ltb_ge _ _)) in Hn by done.
  destruct (Z.eqb_spec (direct d NDIRECT) 0) as [|Hx]; [done|]. pose proof (bm_range _ _ G).
  destruct (fo_data _ _ _ F (direct d NDIRECT)) as [? _]; [split; [done|by left]|].
  rewrite (bind_Ok _ _ s (v (direct d NDIRECT)) s); [done|]. rewrite rsect_at; [|apply D|change FSSIZE with 2000; change LOGSTART with 1970 in *; lia].
  f_equal. apply D. intros bn Hbn E. apply (fo_ind _ _ _ F bn); [lia| |by symmetry]. apply addr_data. lia.
Qed.

Lemma addr_inj k bn : 0 <= k < K -> 0 <= bn < K -> addr k = addr bn -> k = bn.
Proof. intros Hk Hb E. pose proof K_range. apply (fo_inj _ _ _ F); [lia..|done|]. by apply addr_data. Qed.

Lemma damage_turn k s c (m := Z.to_nat (Z.min (di_size d) 512)) : damaged k s c -> 0 <= k < K ->
  exists x s', (let! buf := rsect (addr k) in let! r := set_bits rand_ buf m pct 0 in wsect (addr k) (fst r) ;;; ret (snd r)) s = Ok x s' /\
    damaged (k + 1) s' (c + x).
Proof.
  intros D Hk. destruct (addr_data k Hk) as [Hn Ha]. pose proof (bm_range _ _ G). change LOGSTART with 1970 in *. pose proof K_range.
  assert (Hin : 0 <= addr k < FSSIZE) by (change FSSIZE with 2000; lia).
  assert (Hk0 : sects (cimg s) (addr k) = v (addr k)).
  { apply D. intros bn Hbn E. apply addr_inj in E; lia. }
  rewrite (bind_Ok _ _ _ _ _ (rsect_at s _ (dm_len _ _ _ D) Hin)), Hk0. destruct (Hv (addr k)) as [Hl Hu].
  destruct (set_bits_Ok rand_ pct Hp m (v (addr k)) 0 s) as (buf' & j & R & Hl' & Hu' & Hdr); [rewrite Hl; unfold m, BSIZE; lia|done|].
  rewrite (bind_Ok _ _ _ _ _ R). cbn [fst snd].
  destruct (wsect_at (Crp (cimg s) j) (addr k) buf') as (s' & R' & Hn' & Hs'); [apply D|done|]. cbn [cimg] in Hs'.
  eexists _, s'. rewrite (bind_Ok _ _ _ _ _ R'), Z.add_0_l. split; [done|].
  constructor; rewrite ?Hs'; [done| | | |].
  - intros x. unfold upd_view. case_decide; [|apply D]. split; [congruence|done].
  - intros x Hx. unfold upd_view. case_decide as E; [destruct (Hx k); [lia|done]|]. apply D. intros bn Hbn. apply Hx. lia.
  - intros bn Hbn. unfold upd_view. case_decide as E; [apply addr_inj in E; [|lia..]; by subst|]. apply D. assert (bn <> k) by congruence. lia.
  - rewrite (dm_count _ _ _ D), seqZ_app, fmap_app, sum_list_with_app, Nat2Z.inj_add by lia.
    change (seqZ (0 + k) 1) with [0 + k]. rewrite Z.add_0_l. cbn [fmap list_fmap sum_list_with]. unfold id. rewrite upd_view_eq, Nat.add_0_r. do 3 f_equal.
    apply list_fmap_ext. intros i bn [-> Hbn]%lookup_seqZ. unfold upd_view. rewrite decide_False; [done|]. intros E%addr_inj; lia.
Qed.

Lemma corrupt_loop_Ok fuel : forall k s c, damaged k s c -> 0 <= k <= K -> K - k <= Z.of_nat fuel ->
  exists c' s', corrupt_loop rand_ fuel d (di_size d) pct (k * Z.min (di_size d) 512) (k * Z.min (di_size d) 512) c s = Ok c' s' /\ damaged K s' c'.
Proof.
  pose proof size_range as Hsz. pose proof K_range as HK. induction fuel as [|fuel IH]; intros k s c D Hk Hf.
  - assert (k = K) as -> by lia. exists c, s. split; [|done]. cbn [corrupt_loop]. by rewrite (proj2 (Z.leb_le _ _) K_end).
  - destruct (decide (k = K)) as [->|Hne].
    + exists c, s. split; [|done]. cbn [corrupt_loop]. by rewrite (proj2 (Z.leb_le _ _) K_end).
    + assert (Hk' : 0 <= k < K) by lia. pose proof (proj1 (K_spec k ltac:(lia)) ltac:(lia)) as Hlt. cbn [corrupt_loop].
      assert (Ho : k * Z.min (di_size d) 512 = k * 512) by nia. rewrite Ho, Z.div_mul by lia.
      rewrite (proj2 (Z.leb_gt _ _)) by lia. rewrite (proj2 (Z.ltb_lt _ _)) by lia. cbn [negb].
      rewrite (bind_Ok _ _ _ _ _ (corrupt_block_Ok k s c D Hk')). replace ((k + 1) * 512 - k * 512) with 512 by lia.
      destruct (damage_turn k s c D Hk') as (x & s1 & R & D1). destruct (IH (k + 1) s1 (c + x) D1) as (c' & s' & R' & D'); [lia..|].
      exists c', s'. split; [|done]. rewrite <- R'. replace ((k + 1) * Z.min (di_size d) 512) with (k * 512 + Z.min (di_size d) 512) by lia.
      revert R. unfold bind. destruct (rsect (addr k) s) as [buf s2|]; [|done]. destruct (set_bits _ _ _ _ _ s2) as [r s3|]; [|done].
      destruct (wsect _ _ s3) as [[] s4|]; [|done]. intros [= <- <-]. done.
Qed.

(** The file after the damage. *)
Section After.
Context (s : crp) (c : Z) (D : damaged K s c).
Let v' : Z -> list Z := sects (cimg s).

Lemma after_low x : x <= bm sb -> v' x = v x.
Proof. intros Hx. apply D. intros bn Hbn ->. destruct (addr_data bn Hbn). lia. Qed.

Lemma after_addr bn : file_addr v' d bn = file_addr v d bn.
Proof.
  unfold file_addr. destruct (bn <? NDIRECT); [done|]. destruct (Z.eqb_spec (direct d NDIRECT) 0) as [|Hx]; [done|]. f_equal.
  apply D. intros k Hk E. pose proof K_range. apply (fo_ind _ _ _ F k); [lia| |by symmetry]. by apply addr_data.
Qed.

Lemma after_in a : in_file v' d a <-> in_file v d a.
Proof. unfold in_file. by setoid_rewrite after_addr. Qed.

Lemma after_ok : file_ok sb v' d.
Proof.
  constructor; [constructor|apply F|]; try apply F.
  - intros a Ha%after_in. destruct (fo_data _ _ _ F a Ha) as [? Hu]. split; [done|]. by rewrite after_low by lia.
  - intros b1 b2. rewrite !after_addr. apply F.
  - intros bn. rewrite after_addr. apply F.
  - intros bn. rewrite after_addr. apply F.
Qed.

Lemma after_block bn : 0 <= bn < K -> file_block v' d bn = v' (addr bn) /\ file_block v d bn = v (addr bn).
Proof. intros Hb. unfold file_block. rewrite after_addr. destruct (addr_data bn Hb) as [Hn _]. fold (addr bn). by rewrite (proj2 (Z.eqb_neq _ _)) by done. Qed.

Lemma sector_bytes w k : wf_block (file_block w d k) -> 0 <= k -> file_byte w d <$> seqZ (512 * k) 512 = file_block w d k.
Proof.
  intros Hw Hk. replace k with (512 * k / BSIZE) at 2 by (rewrite Z.mul_comm; apply Z.div_mul; done).
  assert (E : 512 * k / BSIZE = k) by (rewrite Z.mul_comm; apply Z.div_mul; done). assert (M : 512 * k mod BSIZE = 0) by (rewrite Z.mul_comm; apply Z.mod_mul; done).
  rewrite <- (block_bytes w d (512 * k) 512) by (rewrite ?E, ?M; (done || unfold BSIZE; lia)). rewrite M, E. unfold sub_bytes.
  rewrite drop_0, take_ge; [done|]. rewrite (proj1 Hw). done.
Qed.

Lemma after_flips k : 0 <= k <= K ->
  flips (file_byte v d <$> seqZ 0 (512 * k)) (file_byte v' d <$> seqZ 0 (512 * k)) =
  sum_list ((fun bn => flips (v (addr bn)) (v' (addr bn))) <$> seqZ 0 k).
Proof.
  intros [Hk HK]. revert HK. pattern k. apply natlike_ind; [|clear k Hk; intros k Hk IH HK|done]; [done|].
  unfold Z.succ. replace (512 * (k + 1)) with (512 * k + 512) by lia. rewrite !seqZ_app, !fmap_app by lia. rewrite flips_app by (by rewrite !length_fmap).
  rewrite IH by lia. rewrite sum_list_with_app. change (seqZ (0 + k) 1) with [0 + k]. rewrite !Z.add_0_l. cbn [fmap list_fmap sum_list_with]. unfold id. rewrite Nat.add_0_r. f_equal.
  destruct (after_block k) as [E' E]; [lia|]. rewrite !sector_bytes, E, E'; [done|rewrite ?E, ?E'..|]; try lia; [apply (dm_wf _ _ _ D)|apply Hv].
Qed.

Lemma after_split : Z.to_nat c = (flips (contents v d) (contents v' d) +
  flips (file_byte v d <$> seqZ (di_size d) (512 * K - di_size d)) (file_byte v' d <$> seqZ (di_size d) (512 * K - di_size d)))%nat.
Proof.
  pose proof size_range. pose proof K_range. pose proof K_end. assert (di_size d <= 512 * K) by nia.
  rewrite (dm_count _ _ _ D), Nat2Z.id. fold v'. rewrite <- (after_flips K) by lia. unfold contents. replace (512 * K) with (di_size d + (512 * K - di_size d)) at 1 2 by lia.
  rewrite seqZ_app, !fmap_app by lia. rewrite flips_app by (by rewrite !length_fmap). done.
Qed.

(** Nothing past the end of the file is touched if it ends with its last block, or
    has only one. *)
Lemma after_exact : di_size d <= 512 \/ di_size d mod 512 = 0 -> c = Z.of_nat (flips (contents v d) (contents v' d)).
Proof.
  intros Hc. pose proof size_range as Hsz. pose proof K_range as HK. pose proof after_split as E.
  assert (Hpos : 0 <= c) by (rewrite (dm_count _ _ _ D); lia).
  assert (Z0 : flips (file_byte v d <$> seqZ (di_size d) (512 * K - di_size d)) (file_byte v' d <$> seqZ (di_size d) (512 * K - di_size d)) = 0%nat); [|lia].
  replace (file_byte v' d <$> seqZ (di_size d) (512 * K - di_size d)) with (file_byte v d <$> seqZ (di_size d) (512 * K - di_size d)); [apply flips_same|].
  apply list_fmap_ext. intros i x [-> Hx]%lookup_seqZ. destruct Hc as [Hc|Hc].
  2: { unfold K in Hx. Z.div_mod_to_equations. lia. }
  assert (HK1 : K = 1). { destruct (decide (K = 1)); [done|]. assert (K <= 1) by (apply Z.lt_succ_r, Z.div_lt_upper_bound; lia). lia. }
  unfold file_byte, BSIZE. set (x := di_size d + Z.of_nat i) in *. assert (Hx1 : 0 <= x < 512) by lia. rewrite Z.div_small, Z.mod_small by lia.
  destruct (after_block 0) as [-> ->]; [lia|]. unfold get_byte. pose proof (dm_tail _ _ _ D 0 ltac:(lia)) as T. fold v' in T. rewrite Z.min_l in T by lia.
  apply (f_equal (fun l => l !! i)) in T. rewrite !lookup_drop in T. replace (Z.to_nat (di_size d) + i)%nat with (Z.to_nat x) in T by lia. by rewrite T.
Qed.
End After.

(** What [corrupt] does to a file of a good image. *)
Lemma corrupt_Ok s : nsect (cimg s) = FSSIZE -> sects (cimg s) = v ->
  exists c s', corrupt rand_ inum (di_size d) pct s = Ok c s' /\ nsect (cimg s') = FSSIZE /\
    let v' := sects (cimg s') in
    get_dinode (v' (i2b inum)) inum = d /\ file_ok sb v' d /\ (forall x, ~ in_file v d x -> v' x = v x) /\ (forall x, wf_block (v' x)) /\
    Z.of_nat (flips (contents v d) (contents v' d)) <= c /\
    (di_size d <= 512 \/ di_size d mod 512 = 0 -> c = Z.of_nat (flips (contents v d) (contents v' d))).
Proof.
  intros Hn Hs. pose proof (bm_range _ _ G) as Hbm. pose proof K_range as HK.
  assert (Hb : 0 <= i2b inum < bm sb).
  { unfold i2b, bm, BBLOCK in *. change IPB with 8 in *. change (0 / BPB) with 0 in *. pose proof (Z.div_pos inum 8). pose proof (Z.div_le_mono inum (sb_ninodes sb) 8). lia. }
  change LOGSTART with 1970 in *. assert (Hin : 0 <= i2b inum < FSSIZE) by (change FSSIZE with 2000; lia).
  unfold corrupt. assert (R0 : rinode inum s = Ok d s). { unfold rinode. rewrite (bind_Ok _ _ _ _ _ (rsect_at s _ Hn Hin)), Hs. by rewrite <- Hd. }
  rewrite (bind_Ok _ _ _ _ _ R0).
  destruct (corrupt_loop_Ok (Z.to_nat (MAXFILE + 1)) 0 s 0) as (c & s1 & R1 & D1); [|lia|unfold MAXFILE, NDIRECT, NINDIRECT in *; lia|].
  { constructor; [done|intros x; by rewrite Hs|intros x _; by rewrite Hs|intros; lia|done]. }
  change (0 * Z.min (di_size d) 512) with 0 in R1. rewrite (bind_Ok _ _ _ _ _ R1).
  assert (E1 : sects (cimg s1) (i2b inum) = v (i2b inum)) by (apply (after_low s1 c D1); lia).
  destruct (wsect_at s1 (i2b inum) (put_dinode (v (i2b inum)) inum d)) as (s' & R2 & Hn2 & Hs2); [apply D1|done|].
  assert (W : winode inum d s1 = Ok tt s'). { unfold winode. rewrite (bind_Ok _ _ _ _ _ (rsect_at s1 _ (dm_len _ _ _ D1) Hin)), E1. exact R2. }
  rewrite (bind_Ok _ _ _ _ _ W). exists c, s'. split; [done|]. split; [done|]. set (w := sects (cimg s')).
  assert (Hw : forall x, w x = sects (cimg s1) x).
  { intros x. unfold w. rewrite Hs2. unfold upd_view. case_decide as E; [|done]. subst x. rewrite E1, <- Hd. apply put_get_dinode; [apply Hv|lia]. }
  assert (D : damaged K s' c).
  { destruct D1. constructor; [done| | | |]; fold w.
    - intros x. by rewrite Hw.
    - intros x. rewrite Hw. apply dm_other0.
    - intros bn. rewrite Hw. apply dm_tail0.
    - rewrite dm_count0. do 2 f_equal. apply list_fmap_ext. intros i bn _. by rewrite Hw. }
  clear Hw. split_and!.
  - unfold w. by rewrite (after_low s' c D) by lia.
  - exact (after_ok s' c D).
  - intros x Hx. apply D. intros bn Hbn ->. apply Hx. split; [by apply addr_data|]. right. exists bn. split; [lia|done].
  - apply D.
  - pose proof (after_split s' c D) as E. fold w in E. assert (0 <= c) by (rewrite (dm_count _ _ _ D); lia). lia.
  - exact (after_exact s' c D).
Qed.

(** C14: Damage on purpose is confined to the file, counted, and seen by the checksum:
    [corrupt] on a file of a good image ends; afterwards the inode is the same, so
    are all sectors but those of the file, and the map of the file still leads
    to the same sectors; the count it returns is the number of bits of the
    contents that differ, if the file ends at the end of a sector or fits in
    one, and no less otherwise; and if that number of bits is odd, the checksum
    of the contents is another one. *)
Theorem corrupt_counts s : nsect (cimg s) = FSSIZE -> sects (cimg s) = v ->
  exists c s', corrupt rand_ inum (di_size d) pct s = Ok c s' /\
    let v' := sects (cimg s') in
    get_dinode (v' (i2b inum)) inum = d /\ file_ok sb v' d /\ (forall x, ~ in_file v d x -> v' x = v x) /\
    Z.of_nat (flips (contents v d) (contents v' d)) <= c /\
    (di_size d <= 512 \/ di_size d mod 512 = 0 -> c = Z.of_nat (flips (contents v d) (contents v' d))) /\
    (Nat.odd (flips (contents v d) (contents v' d)) = true -> checksum_of (contents v' d) <> checksum_of (contents v d)).
Proof.
  intros Hn Hs. destruct (corrupt_Ok s Hn Hs) as (c & s' & R & _ & Hi' & F' & Ho & Hw & Hc & Hx). exists c, s'. split; [exact R|].
  split_and!; [assumption..|]. intros Hf E. apply (checksum_odd_flips (contents v d) (contents (sects (cimg s')) d)); [by apply contents_u8..| |done|done].
  unfold contents. by rewrite !length_fmap.
Qed.
End Damage.

(** And the kernel sees it: on a disk that holds the inode with the checksum of
    contents of which an odd number of bits are flipped now, locking the inode is
    refused. *)
Lemma odd_damage_refused {L} {HO : BlockOps L} {HV : BlockView L} {HL : BlockLayer L} devsw_read sb (v : Z -> list Z) (s : fsst L) ip i d :
  disk_inode s (i_inum i) = d -> cold sb s ip i 1 -> file_ok sb (bl_view (low s)) d -> di_type d <> T_DEV -> di_child1 d = 0 ->
  (forall x, wf_block (v x)) -> di_checksum d = checksum_of (contents v d) ->
  Nat.odd (flips (contents v d) (contents (bl_view (low s)) d)) = true ->
  exists s', ilock devsw_read ip s = Ok E_CORRUPTED s'.
Proof.
  intros Hd C F Ht Hc Hv Hck Ho. destruct (ilock_refuses devsw_read _ _ _ _ _ Hd C F Ht Hc) as (l & R & _); [|by eauto].
  rewrite Hck. intros E. apply (checksum_odd_flips (contents v d) (contents (bl_view (low s)) d)); [by apply contents_u8| | |done|done].
  - apply contents_u8. intros x. apply bl_wf, C.
  - unfold contents. by rewrite !length_fmap.
Qed.

(** ** A concrete image *)

Definition demo_crp : crp := Crp (Img demo_view FSSIZE 32 5) 0.
Definition one_flip (k : nat) : Z := if decide (k = 3)%nat then 0 else 1.

Lemma demo_view_wf x : wf_block (demo_view x).
Proof. apply demo_valid. Qed.

Lemma corrupt_counts_witness : exists c s', corrupt one_flip 2 600 2 demo_crp = Ok c s' /\ file_ok demo_sb (sects (cimg s')) demo_file.
Proof.
  destruct (corrupt_counts one_flip 2 ltac:(easy) demo_sb demo_view demo_file 2 (view_geometry demo_view ltac:(easy))
    (view_dinode_ok demo_view ltac:(easy) 0 5 ltac:(unfold is_i16; lia) ltac:(unfold is_u32; lia)) demo_view_wf ltac:(cbn; lia) ltac:(vm_compute; reflexivity)
    demo_crp eq_refl eq_refl) as (c & s' & R & _ & F & _).
  exists c, s'. split; [exact R|exact F].
Defined.

(** The last piece is measured by the whole size, not by what is left: of a file of
    600 bytes, 1024 are damaged. *)
Lemma corrupt_past_end : exists s', corrupt (fun _ => 0) 2 600 1 demo_crp = Ok (8 * 1024) s' /\
  sub_bytes 88 424 (sects (cimg s') 30) = replicate 424 255.
Proof. eexists. split; vm_compute; reflexivity. Qed.
