(* ===== verification/System.v ===== *)
(** * System: from the image to the reader

    mkfs.c, crpfs.c, ide.c, bio.c, log.c and fs.c together: a kernel started on
    the disk that mkfs made reads back every file as it was given to mkfs, and on
    a disk that crpfs damaged it refuses the damaged file and reads back the
    others. *)

From S2P Require Import Prelude Layout Ide Bio Block Log FsBlock FsInode FsDir FsFile FsWrite FsLock FsDemo Mkfs Crpfs.
Open Scope Z_scope.
Open Scope xv6_scope.

(** The disk with the sectors of an image. *)
Definition first_sectors (n : Z) (v : Z -> list Z) : gmap sector (list Z) := list_to_map ((fun x => ((1, x), v x)) <$> seqZ 0 n).
Definition on_disk (v : Z -> list Z) : gmap sector (list Z) := first_sectors FSSIZE v.

(** The kernel starts, and a system call begins. *)
Definition boot_op : M logst unit := startup ;;; Log.begin_op.

Lemma sectors_get n v x : 0 <= x < n -> disk_get (first_sectors n v) (1, x) = v x.
Proof.
  intros Hx. unfold disk_get, first_sectors. rewrite (elem_of_list_to_map_1 _ (1, x) (v x)); [done| |].
  - rewrite <- list_fmap_compose. apply NoDup_fmap_2; [intros a b [= ->]; done|apply NoDup_seqZ].
  - apply list_elem_of_fmap. exists x. split; [done|]. apply elem_of_seqZ. lia.
Qed.

Lemma sectors_wf n v c : (forall x, wf_block (v x)) -> wf_block (disk_get (first_sectors n v) c).
Proof.
  intros Hv. unfold disk_get. destruct (first_sectors n v !! c) as [b|] eqn:E; cbn; [|apply wf_zero_block].
  apply elem_of_list_to_map_2, list_elem_of_fmap in E as (x & [= -> ->] & _). apply Hv.
Qed.

(** A disk with blocks of the right size, a superblock and an empty log starts. *)
Record bootable (v : Z -> list Z) : Prop := {
  bt_wf : forall x, wf_block (v x);
  bt_geo : fs_geometry v Mkfs.sb;
  bt_log : v LOGSTART = zero_block
}.

Lemma boot_Ok v : bootable v -> exists l, boot_op (power_on (on_disk v)) = Ok tt l /\
  bl_inv l /\ bl_held l = ∅ /\ bl_trans l = [] /\ forall b, 0 <= b < LOGSTART -> bl_view l b = v b.
Proof.
  intros [Hw G HL]. change LOGSTART with 1970 in *.
  assert (Hsb : disk_get (on_disk v) (1, 1) = v 1) by (apply sectors_get; change FSSIZE with 2000; lia).
  assert (V : valid_image (on_disk v)).
  { split; [intros c; by apply sectors_wf|]. rewrite Hsb, (g_sb _ _ G). split; reflexivity. }
  assert (D : disk_header (on_disk v) []).
  { unfold disk_header, lists. change LOGSTART with 1970. unfold on_disk. rewrite sectors_get by (change FSSIZE with 2000; lia). rewrite HL. split_and!; [by vm_compute|done|cbn; lia|by constructor]. }
  assert (Hget : forall b, 0 <= b < 1970 -> disk_get (on_disk v) (1, b) = v b) by (intros b Hb; apply sectors_get; change FSSIZE with 2000; lia).
  unfold boot_op. clear Hsb. generalize dependent (on_disk v). intros dk V D Hget.
  destruct (startup_Ok _ _ V D) as (s & hd & R & Hi & Hhe & Ht & Ho & _ & Hdk & _).
  destruct (log_begin_law s) as (l & R' & I & Hh & T & O & Vw & _); [done|rewrite Ht, Ho; cbn; klia|].
  exists l. split_and!; [|done|cbn in *; congruence|cbn in *; congruence|].
  - by rewrite (bind_Ok _ _ _ _ _ R).
  - intros b Hb. rewrite Vw. cbn [bl_view log_view]. erewrite quiet_view; [|by apply li_quiet|by rewrite (li_dirty _ Hi), Ht].
    rewrite Hdk. cbn. rewrite disk_get_insert, decide_False by (intros [= ?]; change LOGSTART with 1970 in *; lia). by apply Hget.
Qed.

(** An entry of the inode cache for inode [n], not read yet. *)
Definition entry_for (n : Z) (cache : list inode) (ip : nat) (i : inode) : Prop :=
  cache !! ip = Some i /\ i_dev i = ROOTDEV /\ i_inum i = n /\ 1 <= i_ref i /\ i_flags i = 0.

(** Locking the inode succeeds, and reads then return slices of [data]. *)
Definition reads_back (devsw_read : Z -> option (nat -> Z -> M (fsst logst) (Z * list Z))) (l : logst) (n : Z) (data : list Z) : Prop :=
  forall cache ip i cwd, entry_for n cache ip i ->
  exists s1, ilock devsw_read ip (FsSt l cache cwd) = Ok 0 s1 /\
    forall off m, 0 <= off <= Z.of_nat (length data) -> 0 <= m < 2 ^ 31 ->
      let r := Z.min m (Z.of_nat (length data) - off) in
      exists s2, FsInode.readi devsw_read ip off m s1 = Ok (r, sub_bytes (Z.to_nat off) (Z.to_nat r) data) s2.

(** Locking the inode is refused. *)
Definition refuses (devsw_read : Z -> option (nat -> Z -> M (fsst logst) (Z * list Z))) (l : logst) (n : Z) : Prop :=
  forall cache ip i cwd, entry_for n cache ip i -> exists s1, ilock devsw_read ip (FsSt l cache cwd) = Ok E_CORRUPTED s1.

Section Reader.
Context (devsw_read : Z -> option (nat -> Z -> M (fsst logst) (Z * list Z))).
Context (v : Z -> list Z) (B : bootable v) (l : logst) (Hi : bl_inv l) (Hh : bl_held l = ∅) (Ht : bl_trans l = []).
Context (Hv : forall b, 0 <= b < LOGSTART -> bl_view l b = v b).

Lemma reader_same d a : file_ok Mkfs.sb v d -> in_file v d a -> bl_view l a = v a.
Proof.
  intros F Ha. destruct (fo_data _ _ _ F a Ha) as [Hr _]. pose proof (bm_range _ _ (bt_geo _ B)). apply Hv. lia.
Qed.

Lemma reader_ok d : file_ok Mkfs.sb v d -> file_ok Mkfs.sb (bl_view l) d.
Proof.
  intros F. apply (agree_ok v); [intros a; by apply reader_same|done|]. intros a [Hr Hu]. split; [done|].
  rewrite Hv; [done|]. pose proof (bm_range _ _ (bt_geo _ B)). lia.
Qed.

Lemma reader_contents d : file_ok Mkfs.sb v d -> contents (bl_view l) d = contents v d.
Proof. intros F. apply agree_contents; [intros a; by apply reader_same|apply F]. Qed.

Lemma reader_budget u k : (size u + k <= 29)%nat -> budget l u k.
Proof. intros Hu. unfold budget. rewrite Ht, Hh, map_size_empty. cbn [list_to_set]. replace (∅ ∪ u) with u by set_solver. lia. Qed.

Lemma reader_cold n cache ip i cwd : entry_for n cache ip i -> 0 <= n < NINODES -> cold Mkfs.sb (FsSt l cache cwd) ip i 1.
Proof.
  intros (Hc & Hd & Hn & Hr & Hf) Hr'. constructor; try done.
  - destruct (bt_geo _ B) as [G1 G2 G3]. constructor; [|done|done]. cbn [low]. rewrite Hv; [done|]. change LOGSTART with 1970. lia.
  - by rewrite Hn.
  - intros x j. cbn [low]. by rewrite Hh, lookup_empty.
  - apply reader_budget. rewrite size_empty. lia.
Qed.

Lemma reader_inode n cache cwd : 0 <= n < NINODES -> disk_inode (FsSt l cache cwd) n = inode_at v n.
Proof.
  intros Hn. unfold disk_inode, inode_at. cbn [low]. rewrite Hv; [done|]. unfold IBLOCK, NINODES in *. change IPB with 8. change LOGSTART with 1970.
  pose proof (Z.div_pos n 8). pose proof (Z.div_lt_upper_bound n 8 300). lia.
Qed.

Lemma stored_reads n data : stored v n T_FILE data -> 0 <= n < NINODES -> reads_back devsw_read l n data.
Proof.
  intros [F Ety _ _ Eck Eco] Hn cache ip i cwd He. pose proof (reader_ok _ F) as F'. pose proof (reader_contents _ F) as Ec.
  set (d := inode_at v n) in *. pose proof (reader_cold n cache ip i cwd He Hn) as C. destruct He as (Hc & Hd & En & Hr & Hf).
  destruct (ilock_accepts devsw_read Mkfs.sb (FsSt l cache cwd) ip i d) as (l1 & R1 & E1); [rewrite En; by apply reader_inode|done|done|by rewrite Ety|by rewrite Ety|cbn [low]; congruence|].
  eexists. split; [exact R1|]. intros off m Ho Hm r. set (i' := filled i d (Z.lor I_BUSY I_VALID)). set (s1 := entry _ _ _ _).
  assert (Hlen : Z.of_nat (length data) = i_size i'). { rewrite <- Eco. apply length_contents. destruct (fo_wf _ _ _ F) as (_&_&_&_&[? _]&_). done. }
  assert (Ev : forall x, bl_view l x = bl_view (low s1) x) by (intros x; symmetry; apply E1).
  assert (F1 : file_ok Mkfs.sb (bl_view (low s1)) d) by (eapply file_ok_ext; [exact Ev|done]).
  assert (Hh1 : bl_held (low s1) = ∅) by (etrans; [apply E1|exact Hh]).
  assert (Rd : readable Mkfs.sb s1 ip i').
  { constructor; [constructor|change (di_type d <> T_DEV); by rewrite Ety|done].
    - apply E1. - by eapply entry_lookup. - done. - apply F1. - done.
    - intros a _ j. by rewrite Hh1, lookup_empty. }
  assert (Ht1 : bl_trans (low s1) = []) by (etrans; [apply E1|exact Ht]).
  assert (Hb : budget (low s1) ∅ 1) by (unfold budget; rewrite Hh1, Ht1; vm_compute; lia).
  destruct (readi_Ok devsw_read Mkfs.sb s1 ip i' off m ∅ 0 Rd Hb) as (l2 & R2 & _); [by rewrite <- Hlen|done|].
  eexists. rewrite R2. unfold r. rewrite Hlen. do 2 f_equal. rewrite <- contents_sub by (change (di_size (i_d i')) with (i_size i'); lia).
  rewrite <- (contents_ext _ _ _ Ev). change (i_d i') with d. congruence.
Qed.

Lemma damaged_refuses n before d : inode_at v n = d -> file_ok Mkfs.sb v d -> di_type d = T_FILE -> di_child1 d = 0 -> 0 <= n < NINODES ->
  (forall x, wf_block (before x)) -> di_checksum d = checksum_of (contents before d) -> Nat.odd (flips (contents before d) (contents v d)) = true ->
  refuses devsw_read l n.
Proof.
  intros Ed F Ety Ech Hn Hw Eck Ho cache ip i cwd He. pose proof (reader_cold n cache ip i cwd He Hn) as C. destruct He as (Hc & Hd & En & Hr & Hf).
  apply (odd_damage_refused devsw_read Mkfs.sb before (FsSt l cache cwd) ip i d); try done.
  - rewrite En, <- Ed. by apply reader_inode.
  - by apply reader_ok.
  - by rewrite Ety.
  - cbn [low]. by rewrite reader_contents.
Qed.
End Reader.

Lemma image_bootable files v fb : fs_image files v fb -> bootable v.
Proof. intros I. destruct (im_rest _ _ _ I) as [Hf Hz]. constructor; [exact (im_wf _ _ _ I)|exact (im_geometry _ _ _ I)|exact (Hz _ Hf)]. Qed.

Lemma file_inum files k f : fits files -> files !! k = Some f -> 0 <= 2 + Z.of_nat k < NINODES /\ 1 <= 2 + Z.of_nat k < 4 + Z.of_nat (length files).
Proof. intros H Hk. pose proof (fi_inodes _ H). pose proof (lookup_lt_Some _ _ _ Hk). lia. Qed.

(** C5: The kernel reads what mkfs wrote.  For files that fit, mkfs returns, the
    kernel starts on the disk it made, and for every file an entry of the inode
    cache for its inode can be locked, after which reads return the slices of the
    bytes that were given to mkfs. *)
Theorem image_reads_back devsw_read files : fits files ->
  exists s l, mkfs files empty_img = Ok tt s /\ boot_op (power_on (on_disk (sects s))) = Ok tt l /\
    forall k f, files !! k = Some f -> reads_back devsw_read l (2 + Z.of_nat k) (snd f).
Proof.
  intros H. destruct (mkfs_Ok files H) as (s & R & _ & I). pose proof (image_bootable _ _ _ I) as B.
  destruct (boot_Ok _ B) as (l & Rb & Hi & Hh & Ht & Hv). exists s, l. split; [exact R|]. split; [exact Rb|].
  intros k f Hk. apply (stored_reads devsw_read (sects s) B l Hi Hh Ht Hv); [exact (im_file _ _ _ I k f Hk)|exact (proj1 (file_inum _ _ _ H Hk))].
Qed.

(** A disk on which only blocks of the file [d] changed. *)
Section Confined.
Context (files : list (list Z * list Z)) (v v' : Z -> list Z) (fb : Z) (H : fits files) (I : fs_image files v fb).
Context (k : nat) (f : list Z * list Z) (Hk : files !! k = Some f).
Context (Hw : forall x, wf_block (v' x)) (Hs : forall x, ~ in_file v (inode_at v (2 + Z.of_nat k)) x -> v' x = v x).

Lemma confined_meta x : x <= bm Mkfs.sb \/ LOGSTART <= x -> v' x = v x.
Proof.
  intros Hx. apply Hs. intros Ha. destruct (fo_data _ _ _ (st_ok _ _ _ _ (im_file _ _ _ I _ _ Hk)) x Ha) as [? _]. lia.
Qed.

Lemma confined_boot : bootable v'.
Proof.
  destruct (image_bootable _ _ _ I) as [_ [G1 G2 G3] L]. constructor; [done| |].
  - constructor; [|done|done]. rewrite confined_meta; [done|]. left. by vm_compute.
  - rewrite confined_meta; [done|]. by right.
Qed.

Lemma confined_inode n : 0 <= n < NINODES -> inode_at v' n = inode_at v n.
Proof.
  intros Hn. unfold inode_at. rewrite confined_meta; [done|]. left. unfold IBLOCK, NINODES in *. change IPB with 8. change (bm Mkfs.sb) with 40.
  pose proof (Z.div_lt_upper_bound n 8 38). lia.
Qed.

Lemma confined_stored j g : j <> k -> files !! j = Some g -> stored v' (2 + Z.of_nat j) T_FILE (snd g).
Proof.
  intros Hne Hj. destruct (file_inum _ _ _ H Hj) as [Hn1 Hn2]. destruct (file_inum _ _ _ H Hk) as [_ Hn3]. destruct (im_file _ _ _ I _ _ Hj) as [F T N C K D].
  assert (A : forall a, in_file v (inode_at v (2 + Z.of_nat j)) a -> v' a = v a).
  { intros a Ha. apply Hs. apply (im_sep _ _ _ I (2 + Z.of_nat j)); [done|done|lia|done]. }
  constructor; rewrite confined_inode by done; [|done|done|done|done|].
  - apply (agree_ok v); [done|done|]. intros a [Hr Hu]. split; [done|]. rewrite confined_meta by (left; lia). done.
  - rewrite (agree_contents v); [done|done|apply F].
Qed.
End Confined.

(** C6: Damage is found and confined.  For files that fit, mkfs returns; crpfs, on
    the image and one of the files, returns the number of bits it flipped (at
    least as many as it flipped in the contents, and exactly those if the file
    ends with a sector or has only one); and the kernel starts on the damaged
    disk.  If an odd number of bits of the contents were flipped, locking
    the file is refused with [E_CORRUPTED]; if none were, it reads back; and all
    other files read back. *)
Theorem damage_found devsw_read rand_ pct files k f : fits files -> pct <> 0 -> files !! k = Some f ->
  exists s c s' l, mkfs files empty_img = Ok tt s /\ corrupt rand_ (2 + Z.of_nat k) (Z.of_nat (length (snd f))) pct (Crp s 0) = Ok c s' /\
    boot_op (power_on (on_disk (sects (cimg s')))) = Ok tt l /\
    let found := contents (sects (cimg s')) (inode_at (sects (cimg s')) (2 + Z.of_nat k)) in
    Z.of_nat (flips (snd f) found) <= c /\
    (Z.of_nat (length (snd f)) <= 512 \/ Z.of_nat (length (snd f)) mod 512 = 0 -> c = Z.of_nat (flips (snd f) found)) /\
    (Nat.odd (flips (snd f) found) = true -> refuses devsw_read l (2 + Z.of_nat k)) /\
    (found = snd f -> reads_back devsw_read l (2 + Z.of_nat k) (snd f)) /\
    forall j g, j <> k -> files !! j = Some g -> reads_back devsw_read l (2 + Z.of_nat j) (snd g).
Proof.
  intros H Hp Hk. destruct (mkfs_Ok files H) as (s & R & En & I). destruct (file_inum _ _ _ H Hk) as [Hn1 Hn2]. set (n := 2 + Z.of_nat k) in *.
  destruct (im_file _ _ _ I _ _ Hk) as [F T N C K D]. fold n in F, T, N, C, K, D. set (v := sects s) in *. set (d := inode_at v n) in *.
  assert (Hsz : di_size d = Z.of_nat (length (snd f))). { rewrite <- D. symmetry. apply length_contents. destruct (fo_wf _ _ _ F) as (_&_&_&_&[? _]&_). done. }
  destruct (corrupt_Ok rand_ pct Hp Mkfs.sb v d n (im_geometry _ _ _ I) F (im_wf _ _ _ I) Hn1 eq_refl (Crp s 0) En eq_refl)
    as (c & s' & Rc & _ & Hd & F' & Ho & Hw & Hc & Hx). rewrite Hsz in *. set (v' := sects (cimg s')) in *. change (inode_at v' n = d) in Hd.
  pose proof (confined_boot files v v' _ I k f Hk Hw Ho) as B. destruct (boot_Ok _ B) as (l & Rb & Hi & Hh & Ht & Hv).
  exists s, c, s', l. split; [exact R|]. split; [exact Rc|]. split; [exact Rb|]. cbv zeta. fold v'. rewrite Hd. rewrite D in Hc, Hx.
  split; [exact Hc|]. split; [exact Hx|]. split_and!.
  - intros Hf. apply (damaged_refuses devsw_read v' B l Hi Hh Ht Hv n v d); [exact Hd|exact F'|exact T|exact (C eq_refl)|exact Hn1|exact (im_wf _ _ _ I)|rewrite D; exact K|rewrite D; exact Hf].
  - intros E. apply (stored_reads devsw_read v' B l Hi Hh Ht Hv); [|done]. constructor; rewrite Hd; [exact F'|exact T|exact N|exact C|exact K|exact E].
  - intros j g Hj Hg. apply (stored_reads devsw_read v' B l Hi Hh Ht Hv); [exact (confined_stored files v v' _ H I k f Hk Ho j g Hj Hg)|exact (proj1 (file_inum _ _ _ H Hg))].
Qed.

Lemma image_reads_back_witness : exists s l, mkfs demo_files empty_img = Ok tt s /\ boot_op (power_on (on_disk (sects s))) = Ok tt l /\
  reads_back no_read l 3 [104; 105; 10].
Proof.
  destruct (image_reads_back no_read demo_files demo_fits) as (s & l & R & Rb & Hr). exists s, l. split; [exact R|]. split; [exact Rb|].
  exact (Hr 1%nat ([82; 69; 65; 68; 77; 69], [104; 105; 10]) eq_refl).
Defined.

Lemma damage_found_witness : exists s c s' l, mkfs demo_files empty_img = Ok tt s /\ corrupt one_flip 3 3 2 (Crp s 0) = Ok c s' /\
  boot_op (power_on (on_disk (sects (cimg s')))) = Ok tt l /\ reads_back no_read l 2 (replicate 700 65).
Proof.
  destruct (damage_found no_read one_flip 2 demo_files 1 ([82; 69; 65; 68; 77; 69], [104; 105; 10]) demo_fits ltac:(discriminate) eq_refl)
    as (s & c & s' & l & R & Rc & Rb & _ & _ & _ & _ & Hr).
  exists s, c, s', l. split; [exact R|]. split; [exact Rc|]. split; [exact Rb|].
  exact (Hr 0%nat ([95; 99; 97; 116], replicate 700 65) ltac:(discriminate) eq_refl).
Defined.
