(* ===== verification/Seg.v ===== *)
(** * Seg: segments and address spaces of a processor (vm.c, mmu.h)

    The descriptors that [seginit] puts into the table of a processor and what
    [switchkvm] and [switchuvm] load when a process is run.  The registers that
    the code sets with instructions are fields of the state; the flag that
    [pushcli] and [popcli] guard is in Spinlock. *)

From S2P Require Import Prelude Kalloc Vm Proc Trap.
Open Scope Z_scope.
Open Scope xv6_scope.

Definition SEG_KDATA : Z := 2.
Definition SEG_KCPU : Z := 3.
Definition SEG_TSS : Z := 6.
Definition NSEGS : nat := 7.
Definition STA_X : Z := 8.
Definition STA_W : Z := 2.
Definition STA_R : Z := 2.
Definition STS_T32A : Z := 9.

Record segdesc := Seg {
  lim_15_0 : Z; base_15_0 : Z; base_23_16 : Z; s_type : Z; s_s : Z; s_dpl : Z; s_p : Z;
  lim_19_16 : Z; s_avl : Z; s_rsv1 : Z; s_db : Z; s_g : Z; base_31_24 : Z
}.

Definition SEG (type base lim dpl : Z) : segdesc :=
  Seg (Z.land (Z.shiftr lim 12) 65535) (Z.land (u32 base) 65535) (Z.land (Z.shiftr (u32 base) 16) 255) type 1 dpl 1
    (Z.shiftr (u32 lim) 28) 0 0 1 1 (Z.shiftr (u32 base) 24).
Definition SEG16 (type base lim dpl : Z) : segdesc :=
  Seg (Z.land lim 65535) (Z.land (u32 base) 65535) (Z.land (Z.shiftr (u32 base) 16) 255) type 1 dpl 1
    (Z.shiftr (u32 lim) 16) 0 0 1 0 (Z.shiftr (u32 base) 24).

(** What the processor makes of a descriptor. *)
Definition seg_base (d : segdesc) : Z := base_15_0 d + 2 ^ 16 * base_23_16 d + 2 ^ 24 * base_31_24 d.
Definition seg_limit (d : segdesc) : Z :=
  let l := lim_15_0 d + 2 ^ 16 * lim_19_16 d in if s_g d =? 0 then l else 4096 * l + 4095.

(** Of [struct cpu] and the registers: the table, the stack for traps from user
    mode, the page directory, the task register and [%gs]. *)
Record cpuseg := Cpuseg { gdt : list segdesc; ss0 : Z; esp0 : Z; cr3 : Z; tr : Z; gs : Z }.
Definition set_gdt (i : Z) (d : segdesc) : M cpuseg unit :=
  modify (fun s => Cpuseg (<[Z.to_nat i := d]> (gdt s)) (ss0 s) (esp0 s) (cr3 s) (tr s) (gs s)).

(** [seginit], on a processor whose local storage is at [cpu_addr]. *)
Definition seginit (cpu_addr : Z) : M cpuseg unit :=
  set_gdt SEG_KCODE (SEG (Z.lor STA_X STA_R) 0 4294967295 0) ;;;
  set_gdt SEG_KDATA (SEG STA_W 0 4294967295 0) ;;;
  set_gdt SEG_UCODE (SEG (Z.lor STA_X STA_R) 0 4294967295 DPL_USER) ;;;
  set_gdt SEG_UDATA (SEG STA_W 0 4294967295 DPL_USER) ;;;
  set_gdt SEG_KCPU (SEG STA_W cpu_addr 8 0) ;;;
  modify (fun s => Cpuseg (gdt s) (ss0 s) (esp0 s) (cr3 s) (tr s) (Z.shiftl SEG_KCPU 3)).

Definition lcr3 (x : Z) : M cpuseg unit := modify (fun s => Cpuseg (gdt s) (ss0 s) (esp0 s) x (tr s) (gs s)).

Definition switchkvm (kpgdir : Z) : M cpuseg unit := lcr3 (v2p kpgdir).

(** [kvmalloc], over memory and the processor: [kpgdir]. *)
Definition kvmalloc (data_ : Z) : M (kst * cpuseg) Z := fun s =>
  match setupkvm data_ (fst s) with
  | Ok kpgdir k =>
      match switchkvm kpgdir (snd s) with
      | Ok _ c => Ok kpgdir (k, c)
      | Stop r c => Stop r (k, c)
      end
  | Stop r k => Stop r (k, snd s)
  end.

(** [switchuvm] for a process with [pgdir]; [kstack] is that of the current
    process, and the task state is at [ts]. *)
Definition switchuvm (ts kstack pgdir : Z) : M cpuseg unit :=
  let d := SEG16 STS_T32A ts 103 0 in
  set_gdt SEG_TSS (Seg (lim_15_0 d) (base_15_0 d) (base_23_16 d) (s_type d) 0 (s_dpl d) (s_p d) (lim_19_16 d) (s_avl d) (s_rsv1 d) (s_db d) (s_g d) (base_31_24 d)) ;;;
  modify (fun s => Cpuseg (gdt s) (Z.shiftl SEG_KDATA 3) (u32 (kstack + KSTACKSIZE)) (cr3 s) (tr s) (gs s)) ;;;
  modify (fun s => Cpuseg (gdt s) (ss0 s) (esp0 s) (cr3 s) (Z.shiftl SEG_TSS 3) (gs s)) ;;;
  if pgdir =? 0 then panic "switchuvm: no pgdir" else lcr3 (v2p pgdir).

(** ** The descriptors *)

Lemma split_base b : is_u32 b -> Z.land b 65535 + 2 ^ 16 * Z.land (Z.shiftr b 16) 255 + 2 ^ 24 * Z.shiftr b 24 = b.
Proof.
  intros H. change 65535 with (Z.ones 16). change 255 with (Z.ones 8). rewrite !Z.land_ones, !Z.shiftr_div_pow2 by lia.
  unfold is_u32 in H. Z.div_mod_to_equations. lia.
Qed.

Lemma SEG_base type base lim dpl : is_u32 base -> seg_base (SEG type base lim dpl) = base.
Proof. intros H. unfold seg_base, SEG. cbn [base_15_0 base_23_16 base_31_24]. rewrite u32_id by apply H. by apply split_base. Qed.
Lemma SEG16_base type base lim dpl : is_u32 base -> seg_base (SEG16 type base lim dpl) = base.
Proof. intros H. unfold seg_base, SEG16. cbn [base_15_0 base_23_16 base_31_24]. rewrite u32_id by apply H. by apply split_base. Qed.

(** A limit is rounded up to the end of its page. *)
Lemma SEG_limit type base lim dpl : is_u32 lim -> seg_limit (SEG type base lim dpl) = 4096 * (lim / 4096) + 4095.
Proof.
  intros H. unfold seg_limit, SEG. cbn [lim_15_0 lim_19_16 s_g]. change (1 =? 0) with false. cbv iota zeta. rewrite u32_id by apply H.
  change 65535 with (Z.ones 16). rewrite !Z.land_ones, !Z.shiftr_div_pow2 by lia. change (2 ^ 12) with 4096. f_equal. f_equal.
  unfold is_u32 in H. Z.div_mod_to_equations. lia.
Qed.

(** Code and data of the kernel and of programs are flat: they start at 0 and have
    the whole address space, and only those of programs are open to user mode. *)
Lemma seginit_flat cpu_addr s : length (gdt s) = NSEGS -> is_u32 cpu_addr ->
  exists s', seginit cpu_addr s = Ok tt s' /\ gs s' = 24 /\
    (forall i, i = SEG_KCODE \/ i = SEG_KDATA \/ i = SEG_UCODE \/ i = SEG_UDATA -> exists d, gdt s' !! Z.to_nat i = Some d /\
      seg_base d = 0 /\ seg_limit d = 2 ^ 32 - 1 /\ (s_dpl d = DPL_USER <-> i = SEG_UCODE \/ i = SEG_UDATA)) /\
    exists d, gdt s' !! Z.to_nat SEG_KCPU = Some d /\ seg_base d = cpu_addr /\ s_dpl d = 0.
Proof.
  intros Hl Ha. eexists. split; [done|]. cbn [gdt gs].
  destruct (gdt s) as [|g0 [|g1 [|g2 [|g3 [|g4 [|g5 [|g6 [|]]]]]]]]; try done. split; [done|]. split.
  - intros i Hi. destruct Hi as [->|[->|[->| ->]]]; (eexists; split; [reflexivity|]; split; [reflexivity|]; split; [reflexivity|]; vm_compute; intuition discriminate).
  - eexists. split; [reflexivity|]. split; [by apply SEG_base|done].
Qed.

(** With [switchuvm] traps from user mode enter on the kernel stack of the process
    and memory is that of its page directory; a process without one is a
    panic. *)
Lemma switchuvm_enters ts kstack pgdir s : length (gdt s) = NSEGS -> is_u32 ts -> 0 <= kstack < 2 ^ 32 - KSTACKSIZE -> pgdir <> 0 ->
  exists s' d, switchuvm ts kstack pgdir s = Ok tt s' /\ esp0 s' = kstack + KSTACKSIZE /\ ss0 s' = 16 /\ tr s' = 48 /\ cr3 s' = v2p pgdir /\
    gdt s' !! Z.to_nat SEG_TSS = Some d /\ seg_base d = ts /\ seg_limit d = 103 /\ s_s d = 0 /\
    forall i, i <> Z.to_nat SEG_TSS -> gdt s' !! i = gdt s !! i.
Proof.
  intros Hl Ht Hk Hp. unfold switchuvm, bind, set_gdt, modify. rewrite (proj2 (Z.eqb_neq _ _)) by done. eexists _, _. split; [done|]. cbn [gdt esp0 ss0 tr cr3].
  split; [apply u32_id; unfold KSTACKSIZE in *; lia|]. split; [done|]. split; [done|]. split; [done|]. split; [apply list_lookup_insert_eq; rewrite Hl; cbv; lia|].
  split; [exact (SEG16_base STS_T32A ts 103 0 Ht)|]. split; [reflexivity|]. split; [done|]. intros i Hi. by apply list_lookup_insert_ne.
Qed.

Lemma switchuvm_panics ts kstack s : exists s', switchuvm ts kstack 0 s = Stop (Panic "switchuvm: no pgdir") s' /\ cr3 s' = cr3 s.
Proof. by eexists. Qed.
