(* ===== verification/Uthread.v ===== *)
(** * Uthread: threads in user space (uthread.c, uthread_switch.S)

    The table of threads, the scheduler and the switch, and the program that
    tries them out.  The stack of a thread is the word that [thread_create]
    leaves at its top; registers are not modelled, a thread that goes on is where
    it was.  The theorems say when a thread is found, what the program
    prints, and that the scheduler is not fair. *)

From S2P Require Import Prelude.
Open Scope Z_scope.
Open Scope xv6_scope.

Inductive tstate := FREE | RUNNING | RUNNABLE.
#[export] Instance tstate_eq_dec : EqDecision tstate.
Proof. solve_decision. Defined.

Definition STACK_SIZE : Z := 8192.
Definition MAX_THREAD : nat := 4.

(** [sp] as an offset in the stack, the word at the top of the stack, the state. *)
Record thread := Thread { sp : Z; top : Z; state : tstate }.
Record uth := Uth { all_thread : list thread; current_thread : nat; next_thread : option nat }.
Definition set_state (st : tstate) (t : thread) : thread := Thread (sp t) (top t) st.
Definition set_sp (x : Z) (t : thread) : thread := Thread x (top t) (state t).
Definition upd_thread (i : nat) (f : thread -> thread) : M uth unit :=
  modify (fun s => Uth (alter f i (all_thread s)) (current_thread s) (next_thread s)).
Definition set_next (n : option nat) : M uth unit := modify (fun s => Uth (all_thread s) (current_thread s) n).

(** The globals when the program starts. *)
Definition uth0 : uth := Uth (replicate MAX_THREAD (Thread 0 0 FREE)) 0 None.

Definition thread_init : M uth unit :=
  modify (fun s => Uth (all_thread s) 0 (next_thread s)) ;;;
  upd_thread 0 (set_state RUNNING).

(** The first thread from [t] on that satisfies [p]. *)
Fixpoint scan (p : nat -> thread -> bool) (t : nat) (l : list thread) : option nat :=
  match l with
  | [] => None
  | x :: l => if p t x then Some t else scan p (S t) l
  end.

(** [thread_switch], called with the stack pointer [esp]. *)
Definition thread_switch (esp : Z) : M uth unit :=
  let! cur := gets current_thread in
  upd_thread cur (set_sp esp) ;;;
  let! n := gets next_thread in
  let! n := of_option (Undefined "no next thread") n in
  modify (fun s => Uth (all_thread s) n None).

(** Whether the call returns, to the thread that is then the current one; the
    program exits otherwise. *)
Definition thread_schedule (esp : Z) : M uth bool :=
  let! s := gets id in
  let cur := current_thread s in
  let t := scan (fun i x => bool_decide (state x = RUNNABLE) && bool_decide (i <> cur)) 0 (all_thread s) in
  (match t with
   | Some t => set_next (Some t)
   | None => if bool_decide (state <$> all_thread s !! cur = Some RUNNABLE) then set_next (Some cur) else ret tt
   end) ;;;
  let! next := gets next_thread in
  match next with
  | None => ret false
  | Some next =>
      if decide (cur <> next) then upd_thread next (set_state RUNNING) ;;; thread_switch esp ;;; ret true
      else set_next None ;;; ret true
  end.

Definition thread_create (func : Z) : M uth unit :=
  let! l := gets all_thread in
  match scan (fun _ x => bool_decide (state x = FREE)) 0 l with
  | None => halt (Undefined "all_thread")
  | Some t =>
      upd_thread t (set_sp (STACK_SIZE - 4)) ;;;
      upd_thread t (fun x => Thread (sp x) func (state x)) ;;;
      upd_thread t (fun x => Thread (sp x - 32) (top x) RUNNABLE)
  end.

Definition thread_yield (esp : Z) : M uth bool :=
  let! cur := gets current_thread in
  upd_thread cur (set_state RUNNABLE) ;;;
  thread_schedule esp.

(** [current_thread->state = FREE; thread_schedule();], the end of a thread. *)
Definition thread_end (esp : Z) : M uth bool :=
  let! cur := gets current_thread in
  upd_thread cur (set_state FREE) ;;;
  thread_schedule esp.

(** ** The program *)

(** Where a thread is: in [main], at the start of [mythread], or back from the
    [thread_yield] of turn [i]. *)
Inductive pc := InMain | AtStart | Yielded (i : nat).
Inductive line := Running | Turn (t : nat) | Ended.

(** The current thread runs to its next call of the scheduler: what it prints, where
    it will be, and whether the program goes on. *)
Definition mythread (p : pc) (esp : Z) : M uth (list line * pc * bool) :=
  let! cur := gets current_thread in
  match p with
  | InMain => ret ([], InMain, false)
  | AtStart => let! b := thread_yield esp in ret ([Running; Turn cur], Yielded 0, b)
  | Yielded i =>
      if (S i <? 100)%nat then let! b := thread_yield esp in ret ([Turn cur], Yielded (S i), b)
      else let! b := thread_end esp in ret ([Ended], Yielded i, b)
  end.

Fixpoint run (fuel : nat) (pcs : list pc) (esp : Z) : M uth (list line) :=
  match fuel with
  | O => halt OutOfFuel
  | S fuel =>
      let! cur := gets current_thread in
      let! p := of_option (Undefined "no thread") (pcs !! cur) in
      let! r := mythread p esp in
      let '(out, p', go) := r in
      if go : bool then let! rest := run fuel (<[cur := p']> pcs) esp in ret (out ++ rest) else ret out
  end.

Definition main (fuel : nat) (func esp : Z) : M uth (list line) :=
  thread_init ;;;
  thread_create func ;;;
  thread_create func ;;;
  let! go := thread_schedule esp in
  if go : bool then run fuel [InMain; AtStart; AtStart; AtStart] esp else ret [].

(** ** What holds *)

Lemma scan_Some p l : forall t i, scan p t l = Some i <->
  exists k x, i = (t + k)%nat /\ l !! k = Some x /\ p i x = true /\ forall j y, (j < k)%nat -> l !! j = Some y -> p (t + j)%nat y = false.
Proof.
  induction l as [|x l IH]; intros t i; cbn [scan]; [split; [done|by intros (? & ? & _ & ? & _)]|]. destruct (p t x) eqn:E.
  - split.
    + intros [= <-]. exists 0%nat, x. rewrite Nat.add_0_r. split_and!; try done. lia.
    + intros (k & y & -> & Hk & Hp & Hf). destruct k as [|k]; [by rewrite Nat.add_0_r|]. specialize (Hf 0%nat x ltac:(lia) eq_refl). rewrite Nat.add_0_r in Hf. congruence.
  - rewrite IH. split.
    + intros (k & y & -> & Hk & Hp & Hf). exists (S k), y. rewrite <- Nat.add_succ_comm. split_and!; try done.
      intros [|j] z Hj Hz; [injection Hz as <-; by rewrite Nat.add_0_r|]. rewrite <- Nat.add_succ_comm. apply Hf; [lia|done].
    + intros (k & y & -> & Hk & Hp & Hf). destruct k as [|k].
      * rewrite Nat.add_0_r in *. injection Hk as ->. congruence.
      * exists k, y. rewrite Nat.add_succ_comm. split_and!; try done. intros j z Hj Hz. rewrite Nat.add_succ_comm. apply Hf; [lia|done].
Qed.

Lemma scan_None p l : forall t, scan p t l = None <-> forall k x, l !! k = Some x -> p (t + k)%nat x = false.
Proof.
  induction l as [|x l IH]; intros t; cbn [scan]; [done|]. destruct (p t x) eqn:E.
  - split; [done|]. intros H. specialize (H 0%nat x eq_refl). rewrite Nat.add_0_r in H. congruence.
  - rewrite IH. split; intros H.
    + intros [|k] y Hy; [injection Hy as <-; by rewrite Nat.add_0_r|]. rewrite <- Nat.add_succ_comm. by apply H.
    + intros k y Hy. rewrite Nat.add_succ_comm. by apply H.
Qed.

(** Threads that could run instead of the current one. *)
Definition could_run (s : uth) (i : nat) : Prop := i <> current_thread s /\ exists x, all_thread s !! i = Some x /\ state x = RUNNABLE.

Section Schedule.
Context (esp : Z) (s : uth) (Hn : next_thread s = None).
Let cur := current_thread s.
Let found := scan (fun i x => bool_decide (state x = RUNNABLE) && bool_decide (i <> cur)) 0 (all_thread s).

Lemma found_Some i : found = Some i <-> could_run s i /\ forall j, (j < i)%nat -> ~ could_run s j.
Proof.
  unfold found. rewrite scan_Some. split.
  - intros (k & x & -> & Hk & Hp & Hf). apply andb_true_iff in Hp as [H1%bool_decide_eq_true H2%bool_decide_eq_true]. split; [by split; [|exists x]|].
    intros j Hj [Hne (y & Hy & Hr)]. specialize (Hf j y Hj Hy). rewrite !bool_decide_eq_true_2 in Hf by done. done.
  - intros [[Hne (x & Hx & Hr)] Hm]. exists i, x. split_and!; [done|done|by rewrite !bool_decide_eq_true_2|].
    intros j y Hj Hy. destruct (bool_decide (state y = RUNNABLE)) eqn:E1, (bool_decide (0 + j <> cur)%nat) eqn:E2; try done. exfalso.
    apply bool_decide_eq_true in E1, E2. apply (Hm j Hj). split; [done|by exists y].
Qed.

Lemma found_None : found = None <-> forall i, ~ could_run s i.
Proof.
  unfold found. rewrite scan_None. split.
  - intros H i [Hne (x & Hx & Hr)]. specialize (H i x Hx). by rewrite !bool_decide_eq_true_2 in H.
  - intros H k x Hx. destruct (bool_decide (state x = RUNNABLE)) eqn:E1, (bool_decide (0 + k <> cur)%nat) eqn:E2; try done. exfalso.
    apply bool_decide_eq_true in E1, E2. apply (H k). split; [done|by exists x].
Qed.

(** The scheduler runs the first other thread that can, ... *)
Lemma schedule_switches i : could_run s i -> (forall j, (j < i)%nat -> ~ could_run s j) ->
  thread_schedule esp s = Ok true (Uth (alter (set_sp esp) cur (alter (set_state RUNNING) i (all_thread s))) i None).
Proof.
  intros Hi Hm. assert (E : found = Some i) by (by apply found_Some). unfold thread_schedule. unfold bind at 1, gets at 1. cbn [id]. fold cur. fold found. rewrite E.
  unfold bind, set_next, modify, gets. cbn. by rewrite decide_True by (intros X; apply (proj1 Hi); done).
Qed.

(** ... the current one if only it can, ... *)
Lemma schedule_stays x : (forall i, ~ could_run s i) -> all_thread s !! cur = Some x -> state x = RUNNABLE -> thread_schedule esp s = Ok true s.
Proof.
  intros Hi Hx Hr. unfold thread_schedule. unfold bind at 1, gets at 1. cbn [id]. fold cur. fold found. rewrite (proj2 found_None Hi).
  rewrite Hx. cbn [fmap option_fmap option_map]. rewrite bool_decide_eq_true_2 by congruence.
  unfold bind, set_next, modify, gets. cbn. rewrite decide_False by tauto. cbn. unfold ret. f_equal. unfold cur. rewrite <- Hn. by destruct s.
Qed.

(** ... and otherwise ends the program. *)
Lemma schedule_ends x : (forall i, ~ could_run s i) -> all_thread s !! cur = Some x -> state x <> RUNNABLE -> thread_schedule esp s = Ok false s.
Proof.
  intros Hi Hx Hr. unfold thread_schedule. unfold bind at 1, gets at 1. cbn [id]. fold cur. fold found. rewrite (proj2 found_None Hi).
  rewrite Hx. cbn [fmap option_fmap option_map]. rewrite bool_decide_eq_false_2 by congruence.
  unfold bind, ret, gets. by rewrite Hn.
Qed.
End Schedule.

(** A thread created when there is none free is written past the table. *)
Lemma create_overflows func s : (forall i x, all_thread s !! i = Some x -> state x <> FREE) -> thread_create func s = Stop (Undefined "all_thread") s.
Proof.
  intros H. unfold thread_create, bind, gets. rewrite (proj2 (scan_None _ _ _)); [done|]. intros k x Hx. apply bool_decide_eq_false. by apply (H k).
Qed.

(** The program: the two threads take turns, and when both have ended the scheduler
    reports a deadlock, since [main] never yields. *)
Lemma main_prints func esp : exists s, main 203 func esp uth0 =
  Ok ([Running; Turn 1; Running; Turn 2] ++ concat (replicate 99 [Turn 1; Turn 2]) ++ [Ended; Ended]) s.
Proof. eexists. vm_compute. reflexivity. Qed.

(** Three threads are not served in turn: as long as the first two only yield, the
    third does not run. *)
Definition two_run (s : uth) : Prop := exists t0 t1 t2 t3, all_thread s = [t0; t1; t2; t3] /\ next_thread s = None /\ state t0 <> RUNNABLE /\
  ((current_thread s = 1%nat /\ state t2 = RUNNABLE) \/ (current_thread s = 2%nat /\ state t1 = RUNNABLE)).

Lemma two_run_yield esp s : two_run s -> exists s', thread_yield esp s = Ok true s' /\ two_run s'.
Proof.
  intros (t0 & t1 & t2 & t3 & Hl & Hn & H0 & Hc). unfold thread_yield, bind, gets, upd_thread, modify.
  set (s1 := Uth _ _ _). destruct Hc as [[Hc H2]|[Hc H1]].
  - rewrite (schedule_switches esp s1) with (i := 2%nat).
    + eexists. split; [done|]. unfold s1. cbn. rewrite Hl, Hc. cbn. eexists _, _, _, _. split_and!; [done|done|done|right; done].
    + split; [cbn; lia|]. exists t2. cbn. by rewrite Hl, Hc.
    + intros j Hj [Hne (x & Hx & Hr)]. cbn in Hne, Hx. rewrite Hl, Hc in *. destruct j as [|[|j]]; [|done|lia]. cbn in Hx. congruence.
  - rewrite (schedule_switches esp s1) with (i := 1%nat).
    + eexists. split; [done|]. unfold s1. cbn. rewrite Hl, Hc. cbn. eexists _, _, _, _. split_and!; [done|done|done|left; done].
    + split; [cbn; lia|]. exists t1. cbn. by rewrite Hl, Hc.
    + intros j Hj [Hne (x & Hx & Hr)]. cbn in Hne, Hx. rewrite Hl, Hc in *. destruct j as [|j]; [|lia]. cbn in Hx. congruence.
Qed.

Fixpoint yields (n : nat) (esp : Z) : M uth bool :=
  match n with O => ret true | S n => let! b := thread_yield esp in if b : bool then yields n esp else ret false end.

Lemma third_starves n esp : forall s, two_run s -> exists s', yields n esp s = Ok true s' /\ current_thread s' <> 3%nat.
Proof.
  induction n as [|n IH]; intros s H; cbn [yields].
  - exists s. split; [done|]. destruct H as (? & ? & ? & ? & _ & _ & _ & [[-> _]|[-> _]]); done.
  - destruct (two_run_yield esp s H) as (s1 & R & H1). rewrite (bind_Ok _ _ _ _ _ R). by apply IH.
Qed.
