(* ===== verification/Uprogs.v ===== *)
(** * Uprogs: programs that read and print (cat.c, wc.c, ls.c, echo.c)

    The programs are written against the system calls they use, as an interface
    [Os]; its laws [OsLaws] say what a call of [read] may answer, in pieces of any
    size, and what [write] does.  The theorems hold for every system that keeps
    the laws. *)

From S2P Require Import Prelude Layout Ulib.
Open Scope Z_scope.
Open Scope xv6_scope.

(** System calls: the result of [read] comes with the bytes stored. *)
Class Os (W : Type) := {
  os_open : list Z -> Z -> M W Z;
  os_close : Z -> M W Z;
  os_read : Z -> nat -> M W (Z * list Z);
  os_write : Z -> list Z -> M W Z
}.

(** What is left to read from a descriptor, and what was written to descriptor 1. *)
Class OsView (W : Type) := { os_pending : W -> Z -> option (list Z); os_output : W -> list Z }.

Class OsLaws (W : Type) `{Os W, OsView W} : Prop := {
  os_read_law : forall w fd n data, os_pending w fd = Some data -> (0 < n)%nat ->
    exists bs rest w', data = bs ++ rest /\ (length bs <= n)%nat /\ (bs = [] -> rest = []) /\
      os_read fd n w = Ok (Z.of_nat (length bs), bs) w' /\ os_pending w' fd = Some rest /\ os_output w' = os_output w;
  os_write_law : forall w bs, exists w', os_write 1 bs w = Ok (Z.of_nat (length bs)) w' /\
    os_output w' = os_output w ++ bs /\ forall fd, os_pending w' fd = os_pending w fd
}.

(** How a program goes on after a call: or it has called [exit]. *)
Inductive after := Next | Exited.

Section Programs.
Context {W : Type} {OS : Os W}.

(** [printf(1, ...)], one string. *)
Definition print (str : Z -> list Z) (fmt : list Z) (ap : list Z) : M W unit :=
  let! out := of_option (Undefined "printf") (printf str false fmt ap) in
  let! _ := os_write 1 out in ret tt.

(** ** cat *)

Fixpoint cat_loop (fuel : nat) (fd : Z) : M W Z :=
  match fuel with
  | O => halt OutOfFuel
  | S fuel =>
      let! r := os_read fd 512 in
      if 0 <? fst r then let! _ := os_write 1 (take (Z.to_nat (fst r)) (snd r)) in cat_loop fuel fd else ret (fst r)
  end.

Definition cat (fuel : nat) (fd : Z) : M W after :=
  let! n := cat_loop fuel fd in
  if n <? 0 then print (fun _ => []) [99; 97; 116; 58; 32; 114; 101; 97; 100; 32; 101; 114; 114; 111; 114; 10] [] ;;; ret Exited else ret Next.

Fixpoint cat_files (fuel : nat) (argv : list (list Z)) : M W unit :=
  match argv with
  | [] => ret tt
  | path :: argv =>
      let! fd := os_open path 0 in
      if fd <? 0 then
        print (fun _ => path) [99; 97; 116; 58; 32; 99; 97; 110; 110; 111; 116; 32; 111; 112; 101; 110; 32; 37; 115; 10] [1]
      else
        let! a := cat fuel fd in
        match a with Exited => ret tt | Next => let! _ := os_close fd in cat_files fuel argv end
  end.

(** [main], on the arguments after the name of the program. *)
Definition cat_main (fuel : nat) (argv : list (list Z)) : M W unit :=
  match argv with
  | [] => let! _ := cat fuel 0 in ret tt
  | _ => cat_files fuel argv
  end.

(** ** wc *)

Record counts := Counts { nl : Z; nw : Z; nc : Z; inword : bool }.

(** [strchr(" \r\t\n\v", c)]. *)
Definition blank (c : Z) : bool := match strchr [32; 13; 9; 10; 11] c with Some _ => true | None => false end.

(** The body of the inner loop, for one byte. *)
Definition wc_byte (k : counts) (b : Z) : counts :=
  let nl := if b =? 10 then nl k + 1 else nl k in
  if blank b then Counts nl (nw k) (nc k + 1) false
  else if negb (inword k) then Counts nl (nw k + 1) (nc k + 1) true
  else Counts nl (nw k) (nc k + 1) true.

Fixpoint wc_loop (fuel : nat) (fd : Z) (k : counts) : M W (Z * counts) :=
  match fuel with
  | O => halt OutOfFuel
  | S fuel =>
      let! r := os_read fd 512 in
      if 0 <? fst r then wc_loop fuel fd (foldl wc_byte k (take (Z.to_nat (fst r)) (snd r))) else ret (fst r, k)
  end.

Definition wc (fuel : nat) (fd : Z) (name : list Z) : M W after :=
  let! r := wc_loop fuel fd (Counts 0 0 0 false) in
  if fst r <? 0 then print (fun _ => []) [119; 99; 58; 32; 114; 101; 97; 100; 32; 101; 114; 114; 111; 114; 10] [] ;;; ret Exited
  else
    let k := snd r in
    print (fun _ => name) [37; 100; 32; 37; 100; 32; 37; 100; 32; 37; 115; 10] [nl k; nw k; nc k; 1] ;;; ret Next.

Fixpoint wc_files (fuel : nat) (argv : list (list Z)) : M W unit :=
  match argv with
  | [] => ret tt
  | path :: argv =>
      let! fd := os_open path 0 in
      if fd <? 0 then
        print (fun _ => path) [119; 99; 58; 32; 99; 97; 110; 110; 111; 116; 32; 111; 112; 101; 110; 32; 37; 115; 10] [1]
      else
        let! a := wc fuel fd path in
        match a with Exited => ret tt | Next => let! _ := os_close fd in wc_files fuel argv end
  end.

Definition wc_main (fuel : nat) (argv : list (list Z)) : M W unit :=
  match argv with
  | [] => let! _ := wc fuel 0 [] in ret tt
  | _ => wc_files fuel argv
  end.

(** ** ls *)

(** [fmtname]: from the end of the path back to a slash, then padded. *)
Fixpoint after_slash (path : list Z) : list Z :=
  match path with
  | [] => []
  | c :: rest => if bool_decide (47 ∈ rest) then after_slash rest else if c =? 47 then rest else path
  end.
Definition fmtname (path : list Z) : list Z :=
  let p := after_slash path in
  if DIRSIZ <=? Z.of_nat (length p) then p else p ++ replicate (Z.to_nat DIRSIZ - length p) 32.

(** ** echo *)

Fixpoint echo (argv : list (list Z)) : M W unit :=
  match argv with
  | [] => ret tt
  | a :: argv =>
      print (fun p => if p =? 1 then a else match argv with [] => [10] | _ => [32] end) [37; 115; 37; 115] [1; 2] ;;;
      echo argv
  end.
End Programs.

(** ** What the programs print *)

(** The fields of a text, between blanks; words are the fields that are not empty. *)
Fixpoint fields (l : list Z) : list (list Z) :=
  match l with
  | [] => [[]]
  | b :: l => if blank b then [] :: fields l else match fields l with f :: fs => (b :: f) :: fs | [] => [[b]] end
  end.
Definition words (l : list Z) : Z := Z.of_nat (length (filter (fun f => f <> []) (fields l))).
Definition newlines (l : list Z) : Z := Z.of_nat (length (filter (fun b => b = 10) l)).
Definition starts_word (l : list Z) : bool := match l with [] => false | b :: _ => negb (blank b) end.

Lemma fields_head l : exists f fs, fields l = f :: fs /\ (starts_word l = true <-> f <> []).
Proof. destruct l as [|b l]; cbn; [by exists [], []|]. destruct (blank b); cbn; [by eexists [], _|]. destruct (fields l) as [|f fs]; by eexists _, _. Qed.

Lemma words_cons b l : words (b :: l) = words l + (if negb (blank b) && negb (starts_word l) then 1 else 0).
Proof.
  unfold words. cbn [fields]. destruct (blank b); cbn [negb andb].
  - rewrite filter_cons, decide_False by tauto. lia.
  - destruct (fields_head l) as (f & fs & -> & Hs). rewrite !filter_cons, (decide_True (P := b :: f <> [])) by done.
    destruct (starts_word l); cbn [negb].
    + rewrite decide_True by (by apply Hs). cbn [length]. lia.
    + rewrite decide_False by (intros X%Hs; done). cbn [length]. lia.
Qed.

(** The loop of [wc] over any text counts it. *)
Lemma wc_bytes_count l : forall k, let r := foldl wc_byte k l in
  nl r = nl k + newlines l /\ nc r = nc k + Z.of_nat (length l) /\ nw r = nw k + words l - (if inword k && starts_word l then 1 else 0).
Proof.
  induction l as [|b l IH]; intros k; cbn [foldl].
  - change (words []) with 0. change (newlines []) with 0. cbn [starts_word length]. rewrite andb_false_r. lia.
  - destruct (IH (wc_byte k b)) as (H1 & H2 & H3). rewrite H1, H2, H3, words_cons. unfold newlines. rewrite filter_cons. unfold wc_byte. cbn [starts_word].
    destruct (blank b), (inword k), (starts_word l), (decide (b = 10)) as [->|E]; cbn [nl nw nc inword negb andb length];
      rewrite ?Z.eqb_refl; try rewrite (proj2 (Z.eqb_neq _ _) E); cbn [nl nw nc inword]; lia.
Qed.

Section Laws.
Context {W : Type} {OS : Os W} {OV : OsView W} {OL : OsLaws W}.

Lemma cat_loop_copies fuel fd : forall w data, os_pending w fd = Some data -> (length data < fuel)%nat ->
  exists w', cat_loop fuel fd w = Ok 0 w' /\ os_output w' = os_output w ++ data.
Proof.
  induction fuel as [|fuel IH]; intros w data Hp Hf; [lia|]. cbn [cat_loop].
  destruct (os_read_law w fd 512 data Hp ltac:(lia)) as (bs & rest & w1 & -> & Hl & He & R & P & Ou). rewrite (bind_Ok _ _ _ _ _ R). cbn [fst snd].
  destruct bs as [|b bs].
  - rewrite He by done. exists w1. rewrite Ou, app_nil_r. done.
  - rewrite (proj2 (Z.ltb_lt _ _)) by (cbn; lia). rewrite Nat2Z.id, take_ge by done.
    destruct (os_write_law w1 (b :: bs)) as (w2 & R2 & O2 & P2). rewrite (bind_Ok _ _ _ _ _ R2).
    destruct (IH w2 rest) as (w' & R3 & O3); [by rewrite P2|rewrite length_app in Hf; cbn in Hf; lia|]. exists w'. split; [done|]. by rewrite O3, O2, Ou, <- app_assoc.
Qed.

(** [cat] copies what is left to read to its output, however it comes. *)
Lemma cat_copies fuel fd w data : os_pending w fd = Some data -> (length data < fuel)%nat ->
  exists w', cat fuel fd w = Ok Next w' /\ os_output w' = os_output w ++ data.
Proof. intros Hp Hf. destruct (cat_loop_copies fuel fd w data Hp Hf) as (w' & R & Ow). exists w'. unfold cat. by rewrite (bind_Ok _ _ _ _ _ R). Qed.

Lemma wc_loop_counts fuel fd : forall w data k, os_pending w fd = Some data -> (length data < fuel)%nat ->
  exists w', wc_loop fuel fd k w = Ok (0, foldl wc_byte k data) w' /\ os_output w' = os_output w.
Proof.
  induction fuel as [|fuel IH]; intros w data k Hp Hf; [lia|]. cbn [wc_loop].
  destruct (os_read_law w fd 512 data Hp ltac:(lia)) as (bs & rest & w1 & -> & Hl & He & R & P & Ou). rewrite (bind_Ok _ _ _ _ _ R). cbn [fst snd].
  destruct bs as [|b bs].
  - rewrite He by done. by exists w1.
  - rewrite (proj2 (Z.ltb_lt _ _)) by (cbn; lia). rewrite Nat2Z.id, take_ge by done.
    destruct (IH w1 rest (foldl wc_byte k (b :: bs)) P) as (w' & R3 & O3); [rewrite length_app in Hf; cbn in Hf; lia|].
    exists w'. rewrite foldl_app. split; [done|congruence].
Qed.

(** [wc] prints the numbers of lines, words and bytes, however the input comes in
    pieces: a word or a line may be cut by any of them. *)
Lemma wc_counts fuel fd w data name : os_pending w fd = Some data -> (length data < fuel)%nat ->
  exists w', wc fuel fd name w = Ok Next w' /\
    os_output w' = os_output w ++ printint digits_upper (newlines data) 10 true ++ [32] ++ printint digits_upper (words data) 10 true ++ [32] ++
      printint digits_upper (Z.of_nat (length data)) 10 true ++ [32] ++ name ++ [10].
Proof.
  intros Hp Hf. destruct (wc_loop_counts fuel fd w data (Counts 0 0 0 false) Hp Hf) as (w1 & R & O1).
  destruct (wc_bytes_count data (Counts 0 0 0 false)) as (E1 & E2 & E3). cbn [nl nw nc inword andb] in E1, E2, E3. rewrite Z.add_0_l in E1, E2.
  replace (0 + words data - 0) with (words data) in E3 by lia.
  unfold wc. rewrite (bind_Ok _ _ _ _ _ R). cbn [fst snd]. change (0 <? 0) with false. cbv iota. rewrite E1, E2, E3.
  destruct (os_write_law w1 (printint digits_upper (newlines data) 10 true ++ [32] ++ printint digits_upper (words data) 10 true ++ [32] ++
      printint digits_upper (Z.of_nat (length data)) 10 true ++ [32] ++ name ++ [10])) as (w2 & R2 & O2 & _).
  exists w2. split; [|by rewrite O2, O1].
  assert (P : print (fun _ => name) [37; 100; 32; 37; 100; 32; 37; 100; 32; 37; 115; 10] [newlines data; words data; Z.of_nat (length data); 1] w1 = Ok tt w2).
  { unfold print. set (out := _ ++ _) in R2. rewrite (bind_Ok _ _ w1 out w1) by done. by rewrite (bind_Ok _ _ _ _ _ R2). }
  by rewrite (bind_Ok _ _ _ _ _ P).
Qed.
End Laws.

(** The name is what follows the last slash, in a column of [DIRSIZ]. *)
Lemma after_slash_spec dir name : 47 ∉ name -> after_slash (dir ++ 47 :: name) = name.
Proof.
  intros Hn. induction dir as [|c dir IH]; cbn.
  - by rewrite bool_decide_eq_false_2.
  - rewrite bool_decide_eq_true_2; [done|]. apply elem_of_app. right. left.
Qed.

Lemma fmtname_pads dir name : 47 ∉ name -> Z.of_nat (length name) <= DIRSIZ ->
  fmtname (dir ++ 47 :: name) = name ++ replicate (Z.to_nat DIRSIZ - length name) 32.
Proof.
  intros Hn Hl. unfold fmtname. rewrite after_slash_spec by done. destruct (Z.leb_spec DIRSIZ (Z.of_nat (length name))); [|done].
  replace (Z.to_nat DIRSIZ - length name)%nat with 0%nat by lia. by rewrite app_nil_r.
Qed.

(** ** A system that keeps the laws *)

(** One open file, read in pieces of at most three bytes. *)
Record tiny := Tiny { t_data : list Z; t_out : list Z }.
#[export] Instance tiny_os : Os tiny := {|
  os_open := fun _ _ => ret 0;
  os_close := fun _ => ret 0;
  os_read := fun fd n s => let bs := take (Nat.min n 3) (t_data s) in Ok (Z.of_nat (length bs), bs) (Tiny (drop (Nat.min n 3) (t_data s)) (t_out s));
  os_write := fun _ bs s => Ok (Z.of_nat (length bs)) (Tiny (t_data s) (t_out s ++ bs))
|}.
#[export] Instance tiny_view : OsView tiny := {| os_pending := fun s _ => Some (t_data s); os_output := t_out |}.
#[export] Instance tiny_laws : OsLaws tiny.
Proof.
  constructor.
  - intros w fd n data [= <-] Hn. exists (take (Nat.min n 3) (t_data w)), (drop (Nat.min n 3) (t_data w)).
    eexists. split_and!; [by rewrite take_drop|rewrite length_take; lia| |done|done|done].
    intros E. apply (f_equal length) in E. rewrite length_take in E. cbn in E. apply drop_ge. lia.
  - intros w bs. eexists. done.
Qed.

Lemma wc_counts_witness : exists w', wc 9 0 [102] (Tiny [97; 98; 32; 99; 100; 10] []) = Ok Next w' /\ os_output w' = [49; 32; 50; 32; 54; 32; 102; 10].
Proof.
  destruct (wc_counts (OV := tiny_view) 9 0 (Tiny [97; 98; 32; 99; 100; 10] []) [97; 98; 32; 99; 100; 10] [102] eq_refl ltac:(cbn; lia)) as (w' & R & E).
  exists w'. split; [exact R|]. rewrite E. vm_compute. reflexivity.
Defined.
